(* ===== verification/_CoqProject ===== *)
-Q . S2P
Prelude.v
Uapi.v
Desc.v
Capio.v
CapioModel.v
Softc.v
Dma.v
Mcdi.v
McdiCmds.v
DataPath.v
Driver.v
Nic.v
UserLib.v
UserInit.v
UserModel.v
Pmd.v
PmdDev.v
PmdModel.v
Mbuf.v
MbufSpec.v
MbufOps.v
MbufCopy.v
MbufRebuild.v
MbufSteps.v
MbufModel.v
Cksum.v
CksumModel.v
Contigmem.v
Echo.v
EchoModel.v
PmdOps.v
FfIf.v
FfModel.v
Rss.v
RssTbl.v
RssRange.v
RssModel.v
Vnet.v
VnetModel.v
