(* ===== verification/Prelude.v ===== *)
(** * A verified model of the sfc7120 kernel-bypass driver

    The program is a CheriBSD network driver for the Solarflare SFC9120
    (Huntington, EF10) that lets one process at a time drive the NIC directly.
    Its parts, under [src/]:

    - [capio.c], [capio.h]: CAPIO, a framework that hands a device's memory to
      the process holding a sealed CHERI capability, and to no other.  A
      process attaches with a capability, gets a sealed token back, and maps
      regions by presenting it; a device pager installs the pages.
    - [sfc7120_uapi.h], [sfc7120_tables.c], [sfc7120_mmio.h]: the interface with
      user space: queue geometry, the regions, and the register slices, the
      windows of the BAR a process may touch.
    - [sfc7120_mcdi.c]: the command channel to the controller's firmware, one
      mailbox in DMA memory and a doorbell, and one wrapper per command.
    - [sfc7120.c], [sfc7120_mmio.c]: the driver: attach, detach, DMA rings,
      interrupt handler and the ioctls that send and receive frames.
    - [userlib/], [fstack-capio/]: the user-space library, the DPDK driver on
      top of it, and echo servers.
    - [fstack-capio/modified-sources/]: the files of F-Stack, DPDK and FreeBSD
      that were changed to run a network stack over that driver.

    ** Files

    - [Prelude] (this file): the state monad [ST] with panics, its
      total-correctness predicate [wp], the variant [wpf] for code that may
      fault (and what a fault implies), the invariant [keeps], their rules,
      record update, machine integers, little-endian words and buffers, and
      the tactics.
    - [Uapi]: [sfc7120_uapi.h] and the slice manifest.
    - [Desc]: the 64-bit descriptors and events and the receive prefix.
    - [Capio]: [capio.c] against the classes [Cheri] (tags, seals, null) and
      [CapioDriver] (the operations a driver supplies), each with its laws.
      [CapioModel] instantiates both, shows that the laws can hold, and runs
      concrete schedules.
    - [Softc]: the softc of [sfc7120.h] by owner, DMA memory, the class [Device]
      (a device may rewrite shared memory at every register access, delay and
      sync, within the sizes of the buffers), the [world] a driver function
      runs in, and the kernel's answers as a stream.
    - [Dma]: [sfc7120_alloc_dmabuf] to [sfc7120_free_dma_resources].
    - [Mcdi]: the transport of [sfc7120_mcdi.c].  [McdiCmds]: the commands,
      written and verified against the class [McdiTransport], which [Mcdi]
      implements.
    - [DataPath]: the ioctls, the receive ring and the interrupt handler of
      [sfc7120.c], and the instance that makes the driver a [CapioDriver].
    - [Driver]: bring-up, tear-down, attach and detach.
    - [Nic]: a concrete controller that satisfies the device laws; the whole
      driver attaches and detaches with it, and the theorems of the files
      above are applied to its states.
    - [UserLib]: the direct data path of [userlib/sfc7120_user.c], over the same
      memory and device as the kernel's; the class [EvqProducer] says that the
      NIC only appends to the event queue.
    - [UserInit]: opening and closing a session, over the class [UserSys] of
      system calls, with the descriptors, blocks and mappings a process holds.
    - [UserModel]: a NIC that posts events, a handle on the attached driver and
      a system that answers; the theorems of the two files applied to them.
    - [Pmd]: the receive and transmit bursts of [fstack-capio/rte_eth_capio.c]
      over [UserLib], with DPDK's mbuf pool as the class [Mempool]; [PmdDev]:
      its probe, close and remove over [UserInit]; [PmdOps]: its ethdev
      operations; [PmdModel]: a pool, ports and the theorems applied to them.
    - [Mbuf]: packet buffers ([freebsd/kern/uipc_mbuf.c]) over a store of mbufs
      and counted clusters; [MbufSpec]: the bytes of a chain and its invariant;
      [MbufOps], [MbufCopy], [MbufRebuild]: the operations by group;
      [MbufSteps]: any sequence of them; [MbufModel]: concrete chains.
    - [Cksum], [CksumModel]: the checksum of [in_cksum.c] against RFC 1071.
    - [Contigmem]: the module that hands out contiguous memory.
    - [Echo], [EchoModel]: the echo server on the user library and the ones on
      sockets.
    - [FfIf], [FfModel]: the data path of [lib/ff_dpdk_if.c], from the stack to
      the DPDK driver and back.  [Rss]: its receive-side scaling, with the
      Toeplitz hash as a specification; [RssTbl], [RssRange]: its tables of
      ports; [RssModel]: concrete ports and tables.
    - [Vnet], [VnetModel]: virtual network stacks ([freebsd/net/vnet.c]).

    ** How the code is modelled

    A C function is a function of the same name in the monad [ST]: [None] is a
    kernel panic or, in user space, a fault (a mutex misused, an assertion failed, memory accessed outside
    its buffer, something freed that is not owned), so a theorem
    [wp m Q w] says that [m] returns from [w], without a panic, in a state
    satisfying [Q]; where the code can fault, the theorem is a [match] on the
    run that says exactly when.  Integers are [Z] with the width of the C type written out
    ([u8], [u16], [u32], [u64], [s32]) where values can exceed it.  Early returns and
    [goto] labels are the branches and the [..._fail_...] definitions.  What
    the kernel, the VM system, the bus or the environment answers is an
    argument or an element of the answer stream, and theorems quantify over
    it.  Messages ([device_printf]) are left out.

    Values of third-party headers that are not in the repository are arguments
    or fields of a class: the burst size and dispatcher answers of F-Stack
    ([FStackHeaders]), the table sizes of [ff_config.h] ([RssSizes]), the group
    size of DPDK's indirection tables, its Ethernet lengths, the sizes of mbufs,
    and [SI_SUB_VNET].  Error numbers, poll flags, [KERN_...], PCI command bits,
    [BUS_PROBE_DEFAULT] and the macro [roundup2] have the values of the platform.

    The loops run on fuel where the C code has no structural bound: the MCDI
    poll loop gets 114 turns, which its back-off provably never exhausts
    ([Mcdi.mcdi_exec_returns]); the interrupt handler gets one turn per ring
    entry, the bound the code itself enforces; the polling loops of the ioctls
    have the source's own limits of 10000 and 100000, the user-space poll
    loop the number of events the caller has room for, and the completion loop
    of the DPDK driver 511 turns, once around the ring ([Pmd.reap_exact]).  A
    walk around a hash table of [RssTbl] gets one turn per slot, after which the
    code's own loop is back where it began ([RssTbl.ring_do_spec]).

    ** What the theorems show

    - Confinement: user space gets store access to the data-path doorbells
      and to nothing else; mappings have exactly the size of their region;
      faults install only pages of the region; without the ablation
      tunable the unsliced register window is never mapped
      ([mmio_grant_confined], [capio_mapping_confined],
      [attach_region_table]).
    - Exclusive sessions: a request is served only for the holder of the token,
      over every schedule of events ([Capio]).
    - The command channel: requests reach the controller as asked, every
      command returns the meaning of the mailbox its last poll found,
      bring-up and tear-down balance ([Mcdi]); commands are
      refused or sent with the documented bytes, and failing queries record
      nothing ([McdiCmds]).
    - The data path: every ioctl returns with the mutex free and the indices
      in range, except that a receive can follow a length the NIC reports out
      of the receive buffer ([rx_overread_faults]); under [FrameLaws], a NIC
      whose lengths stay inside a slot, none faults; transmit, receive, seeding and pointer synchronisation have
      their effect; the interrupt handler refines a fold over the waiting
      events ([DataPath]).
    - Life cycle: attach and detach give back every kernel object on every
      path, with the exceptions the theorems name ([Dma], [Driver]).
    - The user-space library: whatever a process does with it stays inside the
      mapped regions and the granted registers, or faults at a frame or a
      caller's buffer of the wrong length; polling is a FIFO that loses
      nothing; direct transmit and receive agree with the kernel's; batching
      is only an optimisation; buffers come back with their handles
      ([UserLib]); a session gives back all it takes but the mappings whose
      munmap is refused ([UserInit]).
    - The DPDK driver: a receive burst conserves mbufs, completions free exactly
      what was sent, a transmit burst keeps its mbufs until then, and a port
      gives back its session but not the mbufs it holds ([Pmd], [PmdDev]).
    - The network stack: operations on packets keep chains well-formed, do what
      they say to the bytes, and do not disturb other packets ([MbufSteps] and
      the files before it); checksums are those of RFC 1071 ([Cksum]); mappings
      of contiguous memory are counted and confined ([Contigmem]).
    - F-Stack: frames reach the ring with their bytes, receiving conserves mbufs
      ([FfIf]); a process takes a connection for its own exactly when the NIC
      delivers it there, and local ports are found accordingly ([Rss],
      [RssRange]).
    - Virtual stacks: the space for the variables of modules is partitioned, and
      constructors are complete as long as operations do not interleave
      ([Vnet]).
    - The echo servers reflect frames, and handle every event they poll and
      give back every slot ([Echo]).
    - Behaviour the code does not intend is stated as theorems too: they are
      the ones the findings of the manifest name.

    ** Not modelled

    F-Stack's configuration parser and start-up code and the build of
    [send_burst] with page arrays; the changed files of DPDK's memory layer; of
    the changed FreeBSD files timekeeping, the linker, boot, next hops, tunnels
    and netgraph; the ports of nginx and redis.  These are for the most part
    calls into code that is not in the repository; the linker, timekeeping and
    the configuration parser have logic of their own and are left for later.
    Also the user-space tests, build scripts, benchmark tooling, and the vendor
    files kept for reference.  Concurrency between kernel threads is modelled
    where the code drops a lock ([CapioModel]).  The device takes its turns at
    register accesses, delays and syncs: between two loads that no such point
    separates, as in the loop of the interrupt handler after its one sync, it
    stands still.  The firmware's own objects (queues, filters) are not part of
    the state.  [sfc7120_pcie_flr] is never called. *)

From Stdlib Require Export ZArith Lia.
From stdpp Require Export base list option.

Declare Scope sfc_scope.
Delimit Scope sfc_scope with sfc.
Global Open Scope sfc_scope.
Global Open Scope Z_scope.

#[global] Arguments Z.mul : simpl never.
#[global] Arguments Z.add : simpl never.
#[global] Arguments Z.sub : simpl never.
#[global] Arguments Z.pow : simpl never.
#[global] Arguments Z.land : simpl never.
#[global] Arguments Z.lor : simpl never.
#[global] Arguments Z.shiftl : simpl never.
#[global] Arguments Z.shiftr : simpl never.
#[global] Arguments Z.div : simpl never.
#[global] Arguments Z.modulo : simpl never.
#[global] Arguments Z.eqb : simpl never.
#[global] Arguments Z.ltb : simpl never.
#[global] Arguments Z.leb : simpl never.
#[global] Arguments Z.to_nat : simpl never.
#[global] Arguments replicate : simpl never.

(** ** Record update

    [r <| f := v |>] is the record [r] with field [f] set to [v]; the C code's
    [sc->f = v].  An [Eta] instance lists a record's fields once, and the
    setter of each field is derived from it. *)

Class Eta (R : Type) := eta : R -> R.

Class Setter {R T : Type} (p : R -> T) := upd : (T -> T) -> R -> R.
Arguments upd {R T} p {Setter} f r / : rename.

Ltac derive_setter :=
  match goal with
  | |- @Setter ?R ?T ?p =>
      let e := eval unfold eta in (@eta R _) in
      let e := eval red in e in
      let e := eval pattern p in e in
      match e with
      | ?g _ =>
          exact (fun (f : T -> T) =>
                   ltac:(let t := eval cbv beta in (g (fun r => f (p r))) in exact t))
      end
  end.

#[global] Hint Extern 1 (Setter _) => derive_setter : typeclass_instances.

Notation "r <| p := v |>" := (upd p (fun _ => v) r)
  (at level 1, left associativity, p at level 11) : sfc_scope.
Notation "r <| p ::= f |>" := (upd p f r)
  (at level 1, left associativity, p at level 11) : sfc_scope.

(** ** Machine integers

    A [w]-bit unsigned integer is a [Z]; the conversion C makes on assignment
    to a narrower type is the reduction modulo [2 ^ w]. *)

Definition u8 (z : Z) : Z := z mod 2 ^ 8.
Definition u16 (z : Z) : Z := z mod 2 ^ 16.
Definition u32 (z : Z) : Z := z mod 2 ^ 32.
Definition u64 (z : Z) : Z := z mod 2 ^ 64.

(** The signed 32-bit value of an [int], which wraps around. *)
Definition s32 (z : Z) : Z := (z + 2 ^ 31) mod 2 ^ 32 - 2 ^ 31.

Lemma s32_small (z : Z) : - 2 ^ 31 <= z < 2 ^ 31 -> s32 z = z.
Proof. intros Hz. unfold s32. rewrite Z.mod_small; lia. Qed.

Lemma s32_range (z : Z) : - 2 ^ 31 <= s32 z < 2 ^ 31.
Proof. unfold s32. pose proof (Z.mod_pos_bound (z + 2 ^ 31) (2 ^ 32) ltac:(lia)). lia. Qed.

Lemma s32_add (x y : Z) : s32 (s32 x + y) = s32 (x + y).
Proof.
  unfold s32. f_equal. replace ((x + 2 ^ 31) mod 2 ^ 32 - 2 ^ 31 + y + 2 ^ 31) with ((x + 2 ^ 31) mod 2 ^ 32 + y) by lia.
  rewrite Z.add_mod_idemp_l by lia. f_equal. lia.
Qed.

(** [bits lo w z] is the [w]-bit field of [z] whose lowest bit is bit [lo]. *)
Definition bits (lo w z : Z) : Z := Z.land (Z.shiftr z lo) (Z.ones w).

Lemma bits_div_mod (lo w z : Z) :
  0 <= lo -> 0 <= w -> bits lo w z = (z / 2 ^ lo) mod 2 ^ w.
Proof. intros. unfold bits. now rewrite Z.land_ones, Z.shiftr_div_pow2. Qed.

(** The C idiom [x & (2^k - 1)], as arithmetic. *)
Lemma land_mask (x m k : Z) : 0 <= k -> m = Z.ones k -> Z.land x m = x mod 2 ^ k.
Proof. intros ? ->. now apply Z.land_ones. Qed.

Lemma land_511 (x : Z) : Z.land x 511 = x mod 512.
Proof. apply (land_mask x 511 9); [lia | reflexivity]. Qed.

Lemma land_0xffff (x : Z) : Z.land x 0xffff = x mod 65536.
Proof. apply (land_mask x 0xffff 16); [lia | reflexivity]. Qed.

Lemma land_0x3fff (x : Z) : Z.land x 0x3fff = x mod 16384.
Proof. apply (land_mask x 0x3fff 14); [lia | reflexivity]. Qed.

Lemma land_0x7fff (x : Z) : Z.land x 0x7fff = x mod 32768.
Proof. apply (land_mask x 0x7fff 15); [lia | reflexivity]. Qed.

Lemma land_0xffffffff (x : Z) : Z.land x 0xffffffff = x mod 4294967296.
Proof. apply (land_mask x 0xffffffff 32); [lia | reflexivity]. Qed.

Lemma land_0xf (x : Z) : Z.land x 0xf = x mod 16.
Proof. apply (land_mask x 0xf 4); [lia | reflexivity]. Qed.

(** Two fields that share no bit: the bitwise or of them is their sum. *)
Lemma lor_shiftl_add (a b n : Z) :
  0 <= n -> 0 <= b < 2 ^ n -> Z.lor (Z.shiftl a n) b = a * 2 ^ n + b.
Proof.
  intros Hn Hb. rewrite <- Z.shiftl_mul_pow2 by lia.
  assert (Z.land (Z.shiftl a n) b = 0) as Hz.
  { apply Z.bits_inj'. intros i Hi. rewrite Z.land_spec, Z.bits_0.
    destruct (Z.ltb_spec i n).
    - rewrite Z.shiftl_spec_low by lia. reflexivity.
    - rewrite <- (Z.mod_small b (2 ^ n)) by lia.
      rewrite Z.mod_pow2_bits_high by lia. apply andb_false_r. }
  rewrite <- Z.lxor_lor by assumption. symmetry. now apply Z.add_nocarry_lxor.
Qed.

Create HintDb sfc discriminated.
Create Rewrite HintDb sfc_mask.
#[export] Hint Rewrite land_511 land_0xffff land_0x3fff land_0x7fff
  land_0xffffffff land_0xf : sfc_mask.

(** [zdiv] decides linear goals with division and modulo by constants. *)
Ltac zdiv := Z.to_euclidean_division_equations; lia.

(** ** Little-endian bytes *)

Definition is_byte (b : Z) : Prop := 0 <= b < 256.

(** The [n] low bytes of [z], least significant first: what a store of an
    [8n]-bit integer leaves in memory on a little-endian machine. *)
Fixpoint le_bytes (n : nat) (z : Z) : list Z :=
  match n with
  | O => []
  | S n' => z mod 256 :: le_bytes n' (z / 256)
  end.

(** The value a little-endian load of these bytes gives. *)
Fixpoint le_word (l : list Z) : Z :=
  match l with
  | [] => 0
  | b :: l' => b + 256 * le_word l'
  end.

Lemma length_le_bytes (n : nat) (z : Z) : length (le_bytes n z) = n.
Proof. revert z. induction n; intros; simpl; [done | now rewrite IHn]. Qed.

Lemma le_bytes_is_byte (n : nat) (z : Z) : Forall is_byte (le_bytes n z).
Proof.
  revert z. induction n; intros; simpl; constructor; [| apply IHn].
  unfold is_byte. apply Z.mod_pos_bound. lia.
Qed.

Lemma le_word_le_bytes (n : nat) (z : Z) :
  le_word (le_bytes n z) = z mod 256 ^ Z.of_nat n.
Proof.
  revert z. induction n as [| n IH]; intros z.
  - simpl. now rewrite Z.mod_1_r.
  - cbn [le_bytes le_word]. rewrite IH, Nat2Z.inj_succ, Z.pow_succ_r by lia.
    rewrite Z.rem_mul_r by lia. lia.
Qed.

Lemma le_bytes_le_word (l : list Z) :
  Forall is_byte l -> le_bytes (length l) (le_word l) = l.
Proof.
  induction 1 as [| b l Hb _ IH]; [done |]. unfold is_byte in Hb.
  cbn [length le_bytes le_word]. f_equal.
  - rewrite Z.mul_comm, Z.mod_add by lia. now apply Z.mod_small.
  - rewrite Z.mul_comm, Z.div_add, Z.div_small by lia. exact IH.
Qed.

Lemma le_word_bound (l : list Z) :
  Forall is_byte l -> 0 <= le_word l < 256 ^ Z.of_nat (length l).
Proof.
  induction 1 as [| b l Hb _ IH]; [simpl; lia |]. unfold is_byte in Hb.
  cbn [length le_word]. rewrite Nat2Z.inj_succ, Z.pow_succ_r by lia. nia.
Qed.

(** ** Byte buffers

    [buf_read b off n] is the [n] bytes at [off]; [buf_write b off src] is the
    buffer after [memcpy (b + off, src, |src|)] within its bounds. *)

Definition buf_read (b : list Z) (off n : nat) : list Z := take n (drop off b).
Definition buf_write (b : list Z) (off : nat) (src : list Z) : list Z :=
  list_inserts off src b.

Lemma length_buf_write (b src : list Z) (off : nat) :
  length (buf_write b off src) = length b.
Proof. apply length_inserts. Qed.

Lemma buf_read_lookup (b : list Z) (off n i : nat) :
  (i < n)%nat -> buf_read b off n !! i = b !! (off + i)%nat.
Proof. intros. unfold buf_read. now rewrite lookup_take_lt, lookup_drop. Qed.

Lemma buf_read_write (b src : list Z) (off : nat) :
  (off + length src <= length b)%nat ->
  buf_read (buf_write b off src) off (length src) = src.
Proof.
  intros Hb. apply list_eq. intros i.
  destruct (decide (i < length src)%nat) as [Hi | Hi].
  - rewrite buf_read_lookup by done. unfold buf_write.
    rewrite list_lookup_inserts by lia. now replace (off + i - off)%nat with i by lia.
  - rewrite (lookup_ge_None_2 src) by lia. apply lookup_ge_None_2.
    unfold buf_read. rewrite length_take, length_drop. lia.
Qed.

(** A read of bytes the write did not touch. *)
Lemma buf_read_write_disjoint (b src : list Z) (off off' n : nat) :
  (off' + n <= off \/ off + length src <= off')%nat ->
  buf_read (buf_write b off src) off' n = buf_read b off' n.
Proof.
  intros Hd. apply list_eq. intros i.
  destruct (decide (i < n)%nat).
  - rewrite !buf_read_lookup by done. unfold buf_write.
    destruct Hd; [apply list_lookup_inserts_lt | apply list_lookup_inserts_ge]; lia.
  - rewrite !lookup_ge_None_2; [done | |]; unfold buf_read; rewrite length_take; lia.
Qed.

Lemma buf_write_is_byte (b src : list Z) (off : nat) :
  Forall is_byte b -> Forall is_byte src -> Forall is_byte (buf_write b off src).
Proof. intros. now apply Forall_inserts. Qed.

Lemma length_buf_read (b : list Z) (off n : nat) :
  (off + n <= length b)%nat -> length (buf_read b off n) = n.
Proof. intros. unfold buf_read. rewrite length_take, length_drop. lia. Qed.

Lemma buf_read_is_byte (b : list Z) (off n : nat) :
  Forall is_byte b -> Forall is_byte (buf_read b off n).
Proof. intros. unfold buf_read. now apply Forall_take, Forall_drop. Qed.

(** An array of words, indexed the way C does; the index is in range in
    every use the development makes of it. *)
Definition arr_get (l : list Z) (i : Z) : Z := nth (Z.to_nat i) l 0.
Definition arr_set (l : list Z) (i v : Z) : list Z := <[Z.to_nat i := v]> l.

Lemma length_arr_set (l : list Z) (i v : Z) : length (arr_set l i v) = length l.
Proof. apply length_insert. Qed.

Lemma arr_get_set_eq (l : list Z) (i v : Z) :
  0 <= i < Z.of_nat (length l) -> arr_get (arr_set l i v) i = v.
Proof.
  intros. unfold arr_get, arr_set. apply nth_lookup_Some, list_lookup_insert_eq. lia.
Qed.

Lemma arr_get_set_ne (l : list Z) (i j v : Z) :
  0 <= i -> 0 <= j -> i <> j -> arr_get (arr_set l i v) j = arr_get l j.
Proof.
  intros. unfold arr_get, arr_set. rewrite !nth_lookup, list_lookup_insert_ne; [done | lia].
Qed.

(** Membership in the Standard Library's [map]. *)
Lemma elem_of_map {A B} (f : A -> B) (y : B) (l : list A) :
  y ∈ map f l <-> exists x, y = f x /\ x ∈ l.
Proof.
  rewrite list_elem_of_In, in_map_iff.
  split; intros (x & H1 & H2); exists x; (split; [done | now apply list_elem_of_In]).
Qed.

#[export] Hint Resolve length_le_bytes le_bytes_is_byte length_buf_write
  buf_write_is_byte buf_read_is_byte length_arr_set : sfc.

(** ** Stateful code

    A C function that reads and writes a state [S] and returns an [A] is a
    function [S -> option (A * S)]: [None] is a kernel panic (a failed
    [KASSERT], a self-deadlock on a non-recursive mutex, an unlock of a mutex
    that is not held).  [wp m Q s] says that [m] run from [s] does not panic
    and ends with a result and a state that satisfy [Q]; every theorem stated
    with it therefore also says that the code returns. *)

Definition ST (S A : Type) : Type := S -> option (A * S).

Definition ret {S A} (a : A) : ST S A := fun s => Some (a, s).
Definition bind {S A B} (m : ST S A) (k : A -> ST S B) : ST S B :=
  fun s => match m s with Some (a, s') => k a s' | None => None end.
Definition panic {S A} : ST S A := fun _ => None.
Definition gets {S A} (f : S -> A) : ST S A := fun s => Some (f s, s).
Definition modify {S} (f : S -> S) : ST S unit := fun s => Some (tt, f s).
Definition kassert {S} (p : S -> bool) : ST S unit :=
  fun s => if p s then Some (tt, s) else None.

Notation "'let*' x ':=' m 'in' k" := (bind m (fun x => k))
  (at level 200, x binder, m at level 100, k at level 200,
   format "'[v' 'let*'  x  ':='  m  'in' '//' k ']'") : sfc_scope.
Notation "'do*' m ; k" := (bind m (fun _ => k))
  (at level 200, m at level 100, k at level 200,
   format "'[v' 'do*'  m ; '//' k ']'") : sfc_scope.

Definition wp {S A} (m : ST S A) (Q : A -> S -> Prop) (s : S) : Prop :=
  match m s with Some (a, s') => Q a s' | None => False end.

Section wp_rules.
Context {S A B : Type}.
Implicit Types (Q : A -> S -> Prop).

Lemma wp_ret (a : A) Q s : Q a s -> wp (ret a) Q s.
Proof. done. Qed.

Lemma wp_bind (m : ST S B) (k : B -> ST S A) Q s :
  wp m (fun b s' => wp (k b) Q s') s -> wp (bind m k) Q s.
Proof. unfold wp, bind. now destruct (m s) as [[b s'] |]. Qed.

Lemma wp_gets (f : S -> A) Q s : Q (f s) s -> wp (gets f) Q s.
Proof. done. Qed.

Lemma wp_modify (f : S -> S) (Q : unit -> S -> Prop) s : Q tt (f s) -> wp (modify f) Q s.
Proof. done. Qed.

Lemma wp_kassert (p : S -> bool) (Q : unit -> S -> Prop) s :
  p s = true -> Q tt s -> wp (kassert p) Q s.
Proof. unfold wp, kassert. now intros ->. Qed.

Lemma wp_mono (m : ST S A) Q Q' s :
  wp m Q s -> (forall a s', Q a s' -> Q' a s') -> wp m Q' s.
Proof. unfold wp. destruct (m s) as [[a s'] |]; auto. Qed.

Lemma wp_conj (m : ST S A) Q Q' s :
  wp m Q s -> wp m Q' s -> wp m (fun a s' => Q a s' /\ Q' a s') s.
Proof. unfold wp. destruct (m s) as [[a s'] |]; auto. Qed.

Lemma wp_run (m : ST S A) Q s :
  wp m Q s <-> exists a s', m s = Some (a, s') /\ Q a s'.
Proof.
  unfold wp. split.
  - destruct (m s) as [[a s'] |]; [eauto | done].
  - intros (a & s' & -> & HQ). exact HQ.
Qed.
End wp_rules.

(** Code that may fault, with what a fault implies: [wp] is the case where it
    implies the absurd. *)
Definition wpf {S A} (m : ST S A) (Q : A -> S -> Prop) (F : Prop) (s : S) : Prop :=
  match m s with Some (a, s') => Q a s' | None => F end.

Section wpf_rules.
Context {S A B : Type}.
Implicit Types (Q : A -> S -> Prop) (F : Prop).

Lemma wpf_wp (m : ST S A) Q F s : wp m Q s -> wpf m Q F s.
Proof. unfold wp, wpf. now destruct (m s) as [[a s'] |]. Qed.

Lemma wpf_sound (m : ST S A) Q F s : wpf m Q F s -> ~ F -> wp m Q s.
Proof. unfold wp, wpf. now destruct (m s) as [[a s'] |]. Qed.

Lemma wpf_bind (m : ST S B) (k : B -> ST S A) Q F s :
  wpf m (fun b s' => wpf (k b) Q F s') F s -> wpf (bind m k) Q F s.
Proof. unfold wpf, bind. now destruct (m s) as [[b s'] |]. Qed.

Lemma wpf_bind_wp (m : ST S B) (k : B -> ST S A) Q F s :
  wp m (fun b s' => wpf (k b) Q F s') s -> wpf (bind m k) Q F s.
Proof. unfold wp, wpf, bind. now destruct (m s) as [[b s'] |]. Qed.

Lemma wpf_run (m : ST S B) (k : B -> ST S A) Q F b s s' :
  m s = Some (b, s') -> wpf (k b) Q F s' -> wpf (bind m k) Q F s.
Proof. intros E. unfold wpf, bind. now rewrite E. Qed.

Lemma wpf_kassert (p : S -> bool) (Q : unit -> S -> Prop) F s :
  (p s = true -> Q tt s) -> (p s = false -> F) -> wpf (kassert p) Q F s.
Proof. unfold wpf, kassert. destruct (p s); auto. Qed.

Lemma wpf_mono (m : ST S A) Q Q' F F' s :
  wpf m Q F s -> (forall a s', Q a s' -> Q' a s') -> (F -> F') -> wpf m Q' F' s.
Proof. unfold wpf. destruct (m s) as [[a s'] |]; auto. Qed.

(** [keeps I m P]: if [m] returns, it has kept the invariant [I] and its result
    satisfies [P]. *)
Definition keeps (I : S -> Prop) (m : ST S A) (P : A -> Prop) : Prop :=
  forall s, I s -> wpf m (fun a s' => P a /\ I s') True s.

Lemma keeps_wp I (m : ST S A) P Q s : keeps I m P -> I s -> wp m Q s -> wp m (fun a s' => Q a s' /\ P a /\ I s') s.
Proof. intros Hk Hi. specialize (Hk s Hi). revert Hk. unfold wp, wpf. now destruct (m s) as [[a s'] |]. Qed.

Lemma keeps_ret (I : S -> Prop) (a : A) (P : A -> Prop) : P a -> keeps I (ret a) P.
Proof. intros HP s Hi. now split. Qed.
End wpf_rules.

Lemma keeps_bind {S A B} (I : S -> Prop) (m : ST S B) (k : B -> ST S A) P P' :
  keeps I m P' -> (forall b, P' b -> keeps I (k b) P) -> keeps I (bind m k) P.
Proof.
  intros Hm Hk s Hi. apply wpf_bind. eapply wpf_mono; [exact (Hm s Hi) | | done].
  intros b s' [Hb Hi']. exact (Hk b Hb s' Hi').
Qed.

Lemma keeps_gets {S A} (I : S -> Prop) (f : S -> A) (P : A -> Prop) : (forall s, I s -> P (f s)) -> keeps I (gets f) P.
Proof. intros HP s Hi. split; [now apply HP | done]. Qed.

Lemma keeps_modify {S} (I : S -> Prop) (f : S -> S) : (forall s, I s -> I (f s)) -> keeps I (modify f) (fun _ => True).
Proof. intros Hf s Hi. split; [done | now apply Hf]. Qed.

Lemma keeps_kassert {S} (I : S -> Prop) (p : S -> bool) : keeps I (kassert p) (fun _ => True).
Proof. intros s Hi. now apply wpf_kassert. Qed.

(** One symbolic execution step of a [wp] goal; [wp_go] runs straight-line
    code and splits on the tests it meets. *)
Ltac wp_step :=
  lazymatch goal with
  | |- wp (bind _ _) _ _ => apply wp_bind
  | |- wp (ret _) _ _ => apply wp_ret
  | |- wp (gets _) _ _ => apply wp_gets
  | |- wp (modify _) _ _ => apply wp_modify
  | |- wp (if ?b then _ else _) _ _ => destruct b eqn:?
  | |- wp (let _ := _ in _) _ _ => cbv zeta
  | |- wp (match ?x with _ => _ end) _ _ => destruct x eqn:?
  end; cbv beta.

Ltac wp_go := repeat wp_step.

(** ** FreeBSD errno values *)

Definition EPERM : Z := 1.
Definition ENOENT : Z := 2.
Definition EINTR : Z := 4.
Definition EIO : Z := 5.
Definition ENXIO : Z := 6.
Definition ENOMEM : Z := 12.
Definition EACCES : Z := 13.
Definition EFAULT : Z := 14.
Definition EBUSY : Z := 16.
Definition EINVAL : Z := 22.
Definition ENOTTY : Z := 25.
Definition EAGAIN : Z := 35.
Definition EOPNOTSUPP : Z := 45.
Definition ETIMEDOUT : Z := 60.
Definition ENOSYS : Z := 78.
Definition EPROTO : Z := 92.

(** ** Mutexes

    A [MTX_DEF] mutex, seen by the thread that runs the modelled code. *)

Inductive mtx := MtxUninit | MtxFree | MtxHeld.

#[export] Instance mtx_eq_dec : EqDecision mtx.
Proof. solve_decision. Defined.
