(* ===== verification/Uapi.v ===== *)
(** * The contract between the kernel driver and userspace

    [sfc7120_uapi.h] (queue geometry, region and slice indices),
    [sfc7120_mmio.h] (register offsets), the kernel-only registers of
    [sfc7120_mcdi.c] and the slice manifest of [sfc7120_tables.c], with the
    theorems that say what the manifest lets a process reach. *)

From S2P Require Import Prelude.
From stdpp Require Import strings.
Local Open Scope Z_scope.

(** ** Queue geometry (sfc7120_uapi.h) *)

Definition SFC7120_NUM_TX_DESC : Z := 512.
Definition SFC7120_NUM_RX_DESC : Z := 512.
Definition SFC7120_NUM_EVQ_ENTRY : Z := 512.
Definition SFC7120_TX_BUFFER_SIZE : Z := 2048.
Definition SFC7120_RX_BUFFER_SIZE : Z := 2048.
Definition SFC7120_EVQ_ENTRY_SIZE : Z := 8.
Definition SFC7120_TX_DESC_SIZE : Z := 8.
Definition SFC7120_RX_DESC_SIZE : Z := 8.
Definition SFC7120_EF10_RX_PREFIX_LEN : Z := 14.

(** [sfc7120_vm_map_type_t]; C passes the regions around as [int]. *)
Inductive sfc7120_vm_map_type :=
| SFC7120_TX_BUFFER
| SFC7120_RX_BUFFER
| SFC7120_MMIO_REGION
| SFC7120_TX_DESC_RING
| SFC7120_RX_DESC_RING
| SFC7120_EVQ_RING
| SFC7120_MMIO_REGION_UNSLICED.

Definition region_int (t : sfc7120_vm_map_type) : Z :=
  match t with
  | SFC7120_TX_BUFFER => 0
  | SFC7120_RX_BUFFER => 1
  | SFC7120_MMIO_REGION => 2
  | SFC7120_TX_DESC_RING => 3
  | SFC7120_RX_DESC_RING => 4
  | SFC7120_EVQ_RING => 5
  | SFC7120_MMIO_REGION_UNSLICED => 6
  end.

Definition SFC7120_REGION_COUNT : Z := 7.

Definition region_of_int (i : Z) : option sfc7120_vm_map_type :=
  match i with
  | 0 => Some SFC7120_TX_BUFFER
  | 1 => Some SFC7120_RX_BUFFER
  | 2 => Some SFC7120_MMIO_REGION
  | 3 => Some SFC7120_TX_DESC_RING
  | 4 => Some SFC7120_RX_DESC_RING
  | 5 => Some SFC7120_EVQ_RING
  | 6 => Some SFC7120_MMIO_REGION_UNSLICED
  | _ => None
  end.

#[export] Instance sfc7120_vm_map_type_eq_dec : EqDecision sfc7120_vm_map_type.
Proof. solve_decision. Defined.

(** [sfc7120_mmio_slice_idx_t]: the position userspace looks a register up at. *)
Inductive sfc7120_mmio_slice_idx :=
| SFC7120_SLICE_RESERVED0
| SFC7120_SLICE_DATA_EVQ_RPTR_DBL
| SFC7120_SLICE_RX_DESC_DBL
| SFC7120_SLICE_TX_DESC_DBL
| SFC7120_SLICE_HW_REV_ID.

Definition slice_int (i : sfc7120_mmio_slice_idx) : Z :=
  match i with
  | SFC7120_SLICE_RESERVED0 => 0
  | SFC7120_SLICE_DATA_EVQ_RPTR_DBL => 1
  | SFC7120_SLICE_RX_DESC_DBL => 2
  | SFC7120_SLICE_TX_DESC_DBL => 3
  | SFC7120_SLICE_HW_REV_ID => 4
  end.

Definition SFC7120_SLICE_COUNT : Z := 5.

(** ** Registers (sfc7120_mmio.h, sfc7120_mcdi.c) *)

Definition SFC7120_VI_WINDOW_SHIFT : Z := 13.
Definition SFC7120_VI_WINDOW (inst : Z) : Z := u64 (Z.shiftl inst SFC7120_VI_WINDOW_SHIFT).

Definition SFC7120_DATA_EVQ_INSTANCE : Z := 1.
Definition SFC7120_RXQ_INSTANCE : Z := 0.
Definition SFC7120_TXQ_INSTANCE : Z := 0.

Definition SFC7120_REG_EVQ_RPTR_DBL : Z := 0x0400.
Definition SFC7120_REG_RX_DESC_DBL : Z := 0x0830.
Definition SFC7120_REG_TX_DESC_DBL : Z := 0x0a10.

Definition SFC7120_REG_DATA_EVQ_RPTR_DBL : Z :=
  SFC7120_VI_WINDOW SFC7120_DATA_EVQ_INSTANCE + SFC7120_REG_EVQ_RPTR_DBL.
Definition SFC7120_REG_DATA_RX_DESC_DBL : Z :=
  SFC7120_VI_WINDOW SFC7120_RXQ_INSTANCE + SFC7120_REG_RX_DESC_DBL.
Definition SFC7120_REG_DATA_TX_DESC_DBL : Z :=
  SFC7120_VI_WINDOW SFC7120_TXQ_INSTANCE + SFC7120_REG_TX_DESC_DBL.
Definition SFC7120_REG_DATA_TX_WPTR_DBL : Z := SFC7120_REG_DATA_TX_DESC_DBL + 8.

Definition SFC7120_EVQ_RPTR_MASK : Z := 0x7fff.
Definition SFC7120_REG_BIU_HW_REV_ID : Z := 0x0000.

Definition EF10_REG_BIU_HW_REV_ID : Z := 0x00000000.
Definition EF10_REG_BIU_MC_SFT_STATUS : Z := 0x00000010.
Definition EF10_REG_MC_DB_LWRD : Z := 0x00000200.
Definition EF10_REG_MC_DB_HWRD : Z := 0x00000204.
Definition EF10_REG_BIU_HW_REV_ID_RESET : Z := 0xeb14face.

(** ** The slice manifest (capio.h, sfc7120_tables.c) *)

Record slice_def := SliceDef {
  sl_offset : Z;
  sl_name : string;
  sl_read_only : bool;
  sl_length : Z;
}.

Open Scope string_scope.

Definition sfc7120_reg_slices : list slice_def := [
  SliceDef SFC7120_REG_BIU_HW_REV_ID "RESERVED0_HW_REV_ID" true 4;
  SliceDef SFC7120_REG_DATA_EVQ_RPTR_DBL "DATA_EVQ_RPTR_DBL" false 4;
  SliceDef SFC7120_REG_DATA_RX_DESC_DBL "RX_DESC_DBL" false 4;
  SliceDef SFC7120_REG_DATA_TX_DESC_DBL "TX_DESC_DBL" false 12;
  SliceDef SFC7120_REG_BIU_HW_REV_ID "HW_REV_ID" true 4
].

Close Scope string_scope.

Definition SFC7120_MMIO_SLICE_COUNT : Z := Z.of_nat (length sfc7120_reg_slices).

(** [slice_covers s off]: the capability derived from [s] reaches byte [off]
    of the BAR. *)
Definition slice_covers (s : slice_def) (off : Z) : bool :=
  (sl_offset s <=? off) && (off <? sl_offset s + sl_length s).

(** The BAR bytes a process that holds every slice capability can load from,
    and store to. *)
Definition user_readable (off : Z) : bool :=
  existsb (fun s => slice_covers s off) sfc7120_reg_slices.
Definition user_writable (off : Z) : bool :=
  existsb (fun s => negb (sl_read_only s) && slice_covers s off) sfc7120_reg_slices.

(** A byte of the four-byte register at [reg]. *)
Definition in_reg (reg off : Z) : Prop := reg <= off < reg + 4.

(** The registers only the kernel may touch: the MC doorbell pair, the MC
    status word and the read pointer of the control event queue. *)
Definition kernel_only (off : Z) : Prop :=
  in_reg EF10_REG_MC_DB_LWRD off \/ in_reg EF10_REG_MC_DB_HWRD off \/
  in_reg EF10_REG_BIU_MC_SFT_STATUS off \/ in_reg SFC7120_REG_EVQ_RPTR_DBL off.

(** The registers of the data path: the read-pointer doorbell of the data
    event queue, the receive doorbell, and the low twelve bytes of the
    transmit doorbell. *)
Definition data_doorbell (off : Z) : Prop :=
  in_reg 0x2400 off \/ in_reg 0x0830 off \/ 0x0a10 <= off < 0x0a1c.

Ltac slices_unfold :=
  unfold user_readable, user_writable, slice_covers, sfc7120_reg_slices, data_doorbell,
    kernel_only, in_reg, SFC7120_REG_DATA_EVQ_RPTR_DBL, SFC7120_REG_DATA_RX_DESC_DBL,
    SFC7120_REG_DATA_TX_DESC_DBL, SFC7120_REG_BIU_HW_REV_ID, SFC7120_REG_EVQ_RPTR_DBL,
    EF10_REG_MC_DB_LWRD, EF10_REG_MC_DB_HWRD, EF10_REG_BIU_MC_SFT_STATUS in *;
  change (SFC7120_VI_WINDOW SFC7120_DATA_EVQ_INSTANCE) with 8192 in *;
  change (SFC7120_VI_WINDOW SFC7120_RXQ_INSTANCE) with 0 in *;
  change (SFC7120_VI_WINDOW SFC7120_TXQ_INSTANCE) with 0 in *;
  unfold SFC7120_REG_RX_DESC_DBL, SFC7120_REG_TX_DESC_DBL,
    SFC7120_REG_EVQ_RPTR_DBL in *;
  cbn [existsb sl_offset sl_length sl_read_only negb] in *.

Lemma user_writable_iff (off : Z) : user_writable off = true <-> data_doorbell off.
Proof. slices_unfold. lia. Qed.

Lemma user_readable_iff (off : Z) :
  user_readable off = true <-> data_doorbell off \/ in_reg 0 off.
Proof. slices_unfold. lia. Qed.

Lemma user_writable_not_kernel (off : Z) : user_writable off = true -> ~ kernel_only off.
Proof. rewrite user_writable_iff. slices_unfold. lia. Qed.

Lemma user_readable_not_kernel (off : Z) : user_readable off = true -> ~ kernel_only off.
Proof. rewrite user_readable_iff. slices_unfold. lia. Qed.

(** What the index enumeration promises of each slice. *)
Definition slice_promise (i : sfc7120_mmio_slice_idx) : Z * bool * Z :=
  match i with
  | SFC7120_SLICE_RESERVED0 => (0x0000, true, 4)
  | SFC7120_SLICE_DATA_EVQ_RPTR_DBL => (0x2400, false, 4)
  | SFC7120_SLICE_RX_DESC_DBL => (0x0830, false, 4)
  | SFC7120_SLICE_TX_DESC_DBL => (0x0a10, false, 12)
  | SFC7120_SLICE_HW_REV_ID => (0x0000, true, 4)
  end.

(** The slices [l] hand out exactly the registers of the data path: stores
    reach the data doorbells and nothing else, loads also the hardware revision
    register, no register of the kernel's is reached at all, and the slice at
    each index of the enumeration is the one the enumeration documents. *)
Record confined_slices (l : list slice_def) : Prop := {
  cs_store : forall off, (exists d, d ∈ l /\ sl_read_only d = false /\ slice_covers d off = true) <-> data_doorbell off;
  cs_load : forall off, (exists d, d ∈ l /\ slice_covers d off = true) <->
              data_doorbell off \/ in_reg EF10_REG_BIU_HW_REV_ID off;
  cs_kernel : forall off d, kernel_only off -> d ∈ l -> slice_covers d off = false;
  cs_index : forall i, exists d, l !! Z.to_nat (slice_int i) = Some d /\
               (sl_offset d, sl_read_only d, sl_length d) = slice_promise i;
}.

Lemma existsb_elem_of {A} (f : A -> bool) (l : list A) :
  existsb f l = true <-> exists x, x ∈ l /\ f x = true.
Proof.
  rewrite existsb_exists. split; intros (x & Hx & Hf); exists x; (split; [now apply list_elem_of_In | done]).
Qed.

Lemma reg_slices_confined : confined_slices sfc7120_reg_slices.
Proof.
  split.
  - intros off. rewrite <- user_writable_iff. unfold user_writable. rewrite existsb_elem_of.
    split; intros (d & ? & H); exists d; (split; [done |]).
    + destruct H as [-> ->]. done.
    + apply andb_true_iff in H as [H ->]. now destruct (sl_read_only d).
  - intros off. change EF10_REG_BIU_HW_REV_ID with 0. rewrite <- user_readable_iff. symmetry. apply existsb_elem_of.
  - intros off d Hk Hin. destruct (slice_covers d off) eqn:E; [| done].
    destruct (user_readable_not_kernel off); [| done]. apply existsb_elem_of. now exists d.
  - intros []; eexists; split; reflexivity.
Qed.

(** The register slice [i] gives a store capability to is inside the BAR. *)
Lemma slice_offset_small (s : slice_def) :
  In s sfc7120_reg_slices -> 0 <= sl_offset s /\ sl_offset s + sl_length s <= 0x2404.
Proof. intros H. repeat (destruct H as [<- | H]; [now vm_compute |]). done. Qed.

Lemma region_of_int_inv (i : Z) (t : sfc7120_vm_map_type) :
  region_of_int i = Some t <-> i = region_int t.
Proof.
  split.
  - intros H. destruct i as [| p | p]; simpl in H; [now simplify_eq | | done].
    repeat (destruct p as [p | p |]; simpl in H; try done; try (now simplify_eq)).
  - intros ->. now destruct t.
Qed.
