(* ===== verification/Desc.v ===== *)
(** * EF10 descriptors, events and the receive prefix

    The 64-bit words the driver and the NIC exchange through the DMA rings.
    The same encoders and decoders are written out in [sfc7120.c] (the ioctl
    handlers, [sfc7120_post_rx_buffers]) and in [userlib/sfc7120_user.c]. *)

From S2P Require Import Prelude Uapi.
Local Open Scope Z_scope.

(** ** Descriptors *)

(** A transmit or receive descriptor for [len] bytes at bus address [paddr]. *)
Definition ef10_desc (len paddr : Z) : Z :=
  Z.lor (Z.lor (Z.shiftl (Z.land len 0x3fff) 48)
               (Z.shiftl (Z.land (Z.shiftr paddr 32) 0xffff) 32))
        (Z.land paddr 0xffffffff).

(** The fields the NIC reads: BYTE_CNT in bits 61:48, BUF_ADDR in bits 47:0,
    and the TYPE and CONT bits, which are clear for a single-segment kernel
    descriptor. *)
Definition desc_byte_cnt (d : Z) : Z := bits 48 14 d.
Definition desc_buf_addr (d : Z) : Z := bits 0 48 d.
Definition desc_type (d : Z) : bool := Z.testbit d 63.
Definition desc_cont (d : Z) : bool := Z.testbit d 62.

Lemma ef10_desc_arith (len paddr : Z) :
  ef10_desc len paddr = (len mod 2 ^ 14) * 2 ^ 48 + paddr mod 2 ^ 48.
Proof.
  unfold ef10_desc. autorewrite with sfc_mask.
  rewrite Z.shiftr_div_pow2 by lia. rewrite <- Z.lor_assoc.
  pose proof (Z.mod_pos_bound (paddr / 2 ^ 32) 65536).
  pose proof (Z.mod_pos_bound paddr 4294967296).
  rewrite (lor_shiftl_add (_ mod 65536)), lor_shiftl_add by lia.
  change (2 ^ 48) with (2 ^ 32 * 65536). change 4294967296 with (2 ^ 32).
  rewrite (Z.rem_mul_r paddr (2 ^ 32) 65536) by lia.
  change 16384 with (2 ^ 14). ring.
Qed.

Lemma ef10_desc_bound (len paddr : Z) : 0 <= ef10_desc len paddr < 2 ^ 62.
Proof.
  rewrite ef10_desc_arith.
  pose proof (Z.mod_pos_bound len (2 ^ 14)). pose proof (Z.mod_pos_bound paddr (2 ^ 48)). lia.
Qed.

Lemma desc_byte_cnt_desc (len paddr : Z) :
  desc_byte_cnt (ef10_desc len paddr) = len mod 2 ^ 14.
Proof.
  unfold desc_byte_cnt. rewrite bits_div_mod, ef10_desc_arith by lia.
  pose proof (Z.mod_pos_bound len (2 ^ 14)). pose proof (Z.mod_pos_bound paddr (2 ^ 48)).
  rewrite Z.div_add_l, (Z.div_small (_ mod _)) by lia. rewrite Z.add_0_r.
  apply Z.mod_small; lia.
Qed.

Lemma desc_buf_addr_desc (len paddr : Z) :
  desc_buf_addr (ef10_desc len paddr) = paddr mod 2 ^ 48.
Proof.
  unfold desc_buf_addr. rewrite bits_div_mod, ef10_desc_arith by lia.
  rewrite Z.pow_0_r, Z.div_1_r, Z.add_comm, Z.mod_add by lia. now apply Z.mod_mod.
Qed.

(** The fields the NIC decodes from a descriptor are the
    length (modulo its 14-bit field) and the bus address (modulo the 48 bits
    the hardware has) it was built from, and the TYPE and CONT bits are
    clear. *)
Theorem ef10_desc_roundtrip (len paddr : Z) :
  desc_byte_cnt (ef10_desc len paddr) = len mod 2 ^ 14 /\
  desc_buf_addr (ef10_desc len paddr) = paddr mod 2 ^ 48 /\
  desc_type (ef10_desc len paddr) = false /\
  desc_cont (ef10_desc len paddr) = false.
Proof.
  pose proof (ef10_desc_bound len paddr) as Hb.
  repeat split; [apply desc_byte_cnt_desc | apply desc_buf_addr_desc | |];
    (apply Z.testbit_false; [lia |]); now rewrite Z.div_small by lia.
Qed.

(** The length and address a descriptor names, when both fit. *)
Lemma ef10_desc_exact (len paddr : Z) :
  0 <= len < 2 ^ 14 -> 0 <= paddr < 2 ^ 48 ->
  desc_byte_cnt (ef10_desc len paddr) = len /\ desc_buf_addr (ef10_desc len paddr) = paddr.
Proof.
  intros. rewrite desc_byte_cnt_desc, desc_buf_addr_desc, !Z.mod_small by lia. done.
Qed.

(** ** Events *)

Definition EV_EMPTY : Z := 0xffffffffffffffff.

(** No event in this slot: never written (primed to all ones) or consumed. *)
Definition ev_empty (ev : Z) : bool := (ev =? EV_EMPTY) || (ev =? 0).

Definition ev_code (ev : Z) : Z := Z.land (u32 (Z.shiftr ev 60)) 0xf.
Definition ev_rx_bytes (ev : Z) : Z := Z.land ev 0x3fff.
Definition ev_tx_index (ev : Z) : Z := Z.land ev 0xffff.

Definition SFC7120_EV_CODE_RX : Z := 0.
Definition SFC7120_EV_CODE_TX : Z := 2.
Definition SFC7120_EV_CODE_DRIVER : Z := 5.
Definition SFC7120_EV_CODE_MCDI : Z := 12.

Lemma ev_rx_bytes_bound (ev : Z) : 0 <= ev_rx_bytes ev < 16384.
Proof. unfold ev_rx_bytes. autorewrite with sfc_mask. apply Z.mod_pos_bound. lia. Qed.

(** ** The EF10 receive prefix *)

(** The frame length of a received packet: bytes 8 and 9 of the prefix
    (little endian), or, when the firmware left them zero, the byte count of
    the event less the prefix. *)
Definition rx_plen (b8 b9 rx_bytes : Z) : Z :=
  let plen := Z.lor (u16 b8) (u16 (Z.shiftl (u16 b9) 8)) in
  if plen =? 0 then
    if SFC7120_EF10_RX_PREFIX_LEN <? rx_bytes
    then u16 (rx_bytes - SFC7120_EF10_RX_PREFIX_LEN) else 0
  else plen.

Lemma rx_plen_prefix (b8 b9 rx_bytes : Z) :
  is_byte b8 -> is_byte b9 -> b8 + 256 * b9 <> 0 ->
  rx_plen b8 b9 rx_bytes = b8 + 256 * b9.
Proof.
  unfold is_byte. intros H8 H9 Hnz. unfold rx_plen, u16.
  rewrite (Z.mod_small b8), (Z.mod_small b9) by lia.
  rewrite Z.shiftl_mul_pow2, Z.mod_small by lia.
  rewrite Z.lor_comm, <- Z.shiftl_mul_pow2, lor_shiftl_add by lia.
  destruct (Z.eqb_spec (b9 * 2 ^ 8 + b8) 0); lia.
Qed.

Lemma rx_plen_event (rx_bytes : Z) :
  0 <= rx_bytes < 16384 ->
  rx_plen 0 0 rx_bytes = Z.max 0 (rx_bytes - SFC7120_EF10_RX_PREFIX_LEN).
Proof.
  intros. unfold rx_plen, SFC7120_EF10_RX_PREFIX_LEN. change (_ =? 0) with true.
  cbn beta iota. destruct (Z.ltb_spec 14 rx_bytes).
  - unfold u16. rewrite Z.mod_small by lia. lia.
  - lia.
Qed.

Lemma rx_plen_bound (b8 b9 rx_bytes : Z) :
  is_byte b8 -> is_byte b9 -> 0 <= rx_bytes < 16384 -> 0 <= rx_plen b8 b9 rx_bytes < 65536.
Proof.
  intros H8 H9 Hr. unfold is_byte in *.
  destruct (Z.eqb_spec (b8 + 256 * b9) 0).
  - replace b8 with 0 by lia. replace b9 with 0 by lia.
    rewrite rx_plen_event by lia. unfold SFC7120_EF10_RX_PREFIX_LEN. lia.
  - rewrite rx_plen_prefix by (unfold is_byte; lia). lia.
Qed.
