(* ===== verification/Capio.v ===== *)
(** * The CAPIO framework (capio.c, capio.h)

    CAPIO hands device memory to one process at a time.  A process attaches
    with a capability of its own, which the kernel seals and keeps as the
    session token; every later request carries the sealed token back.  Regions
    of device memory are mapped through a pager whose constructor and
    destructor keep a per-region [mapped] flag.

    CHERI's capability operations, the driver below CAPIO and the virtual
    memory system are parameters: classes with the documented laws for the
    first two, arguments that carry the outcome of each external call for the
    last. *)

From S2P Require Import Prelude Uapi.
Local Open Scope Z_scope.

(** ** CHERI capabilities *)

Class Cheri (cap : Type) := {
  cap_eq_dec :: EqDecision cap;       (* cheri_ptr_equal_exact *)
  cap_null : cap;
  cap_is_null : cap -> bool;          (* c == NULL *)
  cap_tag : cap -> bool;              (* cheri_gettag *)
  cap_base : cap -> Z;                (* cheri_getbase *)
  cap_set_address : cap -> Z -> cap;  (* cheri_setaddress *)
  cap_set_bounds : cap -> Z -> cap;   (* cheri_setbounds *)
  cap_seal : cap -> cap -> cap;       (* cheri_seal value key *)
  cap_unseal : cap -> cap -> cap;     (* cheri_unseal value key *)
  cap_sealable : cap -> cap -> bool;  (* tagged, unsealed, within the key's authority *)
  kernel_root_sealcap : cap;
}.

(** What the CHERI architecture promises of sealing: it is undone by
    unsealing with the same authority, it keeps the address (so a non-null
    capability stays non-null), and unsealing yields a tagged capability only
    from the result of sealing that very capability. *)
Class CheriLaws (cap : Type) `{Cheri cap} := {
  cap_null_is_null : cap_is_null cap_null = true;
  cap_seal_is_null : forall c k, cap_is_null (cap_seal c k) = cap_is_null c;
  cap_unseal_seal : forall c k, cap_sealable c k = true -> cap_unseal (cap_seal c k) k = c;
  cap_unseal_only_sealed : forall t c k,
    cap_unseal t k = c -> cap_tag c = true -> t = cap_seal c k;
  cap_sealable_tag : forall c k, cap_sealable c k = true -> cap_tag c = true;
}.

(** ** Data (capio.h) *)

(** [shared_mem_region_t].  The [vm_object_handle] and [memattr] members are
    never read or written by the code. *)
Record shared_mem_region := Region {
  smr_type : Z;
  smr_is_physical : bool;
  smr_addr : Z;
  smr_paddr : Z;
  smr_offset : Z;
  smr_len : Z;
  smr_mapped : bool;
  smr_is_sliced : bool;
  smr_slice_definitions : list slice_def;
  smr_slice_def_len : Z;
}.

#[export] Instance eta_region : Eta shared_mem_region := fun r =>
  Region (smr_type r) (smr_is_physical r) (smr_addr r) (smr_paddr r) (smr_offset r)
    (smr_len r) (smr_mapped r) (smr_is_sliced r) (smr_slice_definitions r)
    (smr_slice_def_len r).

Record cap_req (cap : Type) := CapReq {
  cr_user_cap : cap;
  cr_sealed_cap : cap;
}.
Arguments CapReq {cap}. Arguments cr_user_cap {cap}. Arguments cr_sealed_cap {cap}.

Record map_req (cap : Type) := MapReq {
  mr_user_cap : cap;
  mr_sealed_cap : cap;
  mr_map_type : Z;
  mr_is_sliced : bool;
  mr_slice_definitions : list slice_def;
  mr_slice_def_length : Z;
}.
Arguments MapReq {cap}. Arguments mr_user_cap {cap}. Arguments mr_sealed_cap {cap}.
Arguments mr_map_type {cap}. Arguments mr_is_sliced {cap}.
Arguments mr_slice_definitions {cap}. Arguments mr_slice_def_length {cap}.

(** [capio_softc_t].  [shared_mem_regs_len] is the length of the list. *)
Record capio_softc (cap : Type) := CapioSoftc {
  sealing_key : cap;
  original_cap : cap;
  sealed_cap : cap;
  cap_mtx : mtx;
  capio_mapped : bool;
  shared_mem_regs : list shared_mem_region;
}.
Arguments CapioSoftc {cap}. Arguments sealing_key {cap}. Arguments original_cap {cap}.
Arguments sealed_cap {cap}. Arguments cap_mtx {cap}. Arguments capio_mapped {cap}.
Arguments shared_mem_regs {cap}.

#[export] Instance eta_capio_softc cap : Eta (capio_softc cap) := fun r =>
  CapioSoftc (sealing_key r) (original_cap r) (sealed_cap r) (cap_mtx r)
    (capio_mapped r) (shared_mem_regs r).

Inductive memattr := VM_MEMATTR_DEFAULT | VM_MEMATTR_DEVICE.

#[export] Instance memattr_eq_dec : EqDecision memattr.
Proof. solve_decision. Defined.

(** A VM object the pager backs: [vm_object_handle_t] and what
    [cdev_pager_allocate] and the caller set on it. *)
Record capio_obj := CapioObj {
  ob_type : Z;
  ob_size : Z;
  ob_memattr : memattr;
}.

(** The two members [capio_slice_length_callback] returns. *)
Record region_sizes := RegionSizes {
  rs_region_length : Z;
  rs_slice_def_length : Z;
}.

(** The driver below CAPIO ([capio_ops_t]): its private state, its ioctls (a
    command with its argument is a [payload]) and the two queries CAPIO makes
    of it.  The region table is an array of the driver's softc that CAPIO keeps
    a pointer to, so the size query sees it as CAPIO left it. *)
Class CapioDriver (drv payload : Type) := {
  drv_ioctl : payload -> ST drv (Z * payload);
  drv_is_dying : ST drv bool;
  drv_get_buffer_size : list shared_mem_region -> Z -> ST drv Z;
}.

(** The state the code runs in: whether [cdev->si_drv1] has been set, the
    CAPIO softc, the driver, and the pager objects that are alive. *)
Record cst (cap drv : Type) := Cst {
  c_si_drv1 : bool;
  c_sc : capio_softc cap;
  c_drv : drv;
  c_objs : list Z;
}.
Arguments Cst {cap drv}. Arguments c_si_drv1 {cap drv}. Arguments c_sc {cap drv}.
Arguments c_drv {cap drv}. Arguments c_objs {cap drv}.

#[export] Instance eta_cst cap drv : Eta (cst cap drv) := fun s =>
  Cst (c_si_drv1 s) (c_sc s) (c_drv s) (c_objs s).

(** What the VM system answers when the kernel removes a user mapping. *)
Record unmap_env := UnmapEnv {
  ue_vmspace : bool;   (* p->p_vmspace != NULL *)
  ue_lookup : Z;       (* vm_map_lookup *)
  ue_remove : Z;       (* vm_map_remove *)
  ue_dead : list Z;    (* pager objects whose last reference that dropped *)
}.

Definition KERN_SUCCESS : Z := 0.
Definition KERN_INVALID_ADDRESS : Z := 1.

(** What the allocators answer while a mapping is made. *)
Record mmap_env := MmapEnv {
  me_malloc_ok : bool;
  me_pager_ok : bool;
}.

(** What the tests of [capio_mmap_single_extra] leave in its locals. *)
Record mmap_plan := MmapPlan {
  pl_is_sliced : bool;
  pl_slice_def : list slice_def;
  pl_slice_def_len : Z;
  pl_mem_attributes : memattr;
  pl_buffer_size : Z;
}.

(** The list without its first occurrence of [t]. *)
Fixpoint remove_one (t : Z) (l : list Z) : list Z :=
  match l with
  | [] => []
  | x :: l' => if x =? t then l' else x :: remove_one t l'
  end.

(** A page of a pager object ([vm_page_t]), as far as the fault handler
    writes it. *)
Record vm_page := VmPage {
  pg_pindex : Z;
  pg_fictitious : bool;
  pg_paddr : Z;
  pg_memattr : memattr;
  pg_valid : bool;
}.

#[export] Instance eta_vm_page : Eta vm_page := fun p =>
  VmPage (pg_pindex p) (pg_fictitious p) (pg_paddr p) (pg_memattr p) (pg_valid p).

Inductive pager_result := VM_PAGER_BAD | VM_PAGER_OK.

(** The ioctl commands CAPIO sees; the driver's own commands are in its
    [payload]. *)
Inductive capio_cmd := CAPIO_ATTACH | CAPIO_GOODBYE | CAPIO_OTHER.

#[export] Instance capio_cmd_eq_dec : EqDecision capio_cmd.
Proof. solve_decision. Defined.

Section capio.
Context {cap drv payload : Type} `{!Cheri cap} `{!CapioDriver drv payload}.
Abbreviation cst := (cst cap drv).
Abbreviation capio_softc := (capio_softc cap).

(** ** Access to the state *)

Definition sc_get {A} (f : capio_softc -> A) : ST cst A := gets (fun s => f (c_sc s)).
Definition sc_mod (f : capio_softc -> capio_softc) : ST cst unit :=
  modify (fun s => s <| c_sc ::= f |>).
Definition in_drv {A} (m : ST drv A) : ST cst A := fun s =>
  match m (c_drv s) with Some (a, d) => Some (a, s <| c_drv := d |>) | None => None end.

Definition CAP_LOCK_INIT : ST cst unit :=
  do* kassert (fun s => bool_decide (cap_mtx (c_sc s) = MtxUninit));
  sc_mod (fun sc => sc <| cap_mtx := MtxFree |>).
Definition CAP_LOCK : ST cst unit :=
  do* kassert (fun s => bool_decide (cap_mtx (c_sc s) = MtxFree));
  sc_mod (fun sc => sc <| cap_mtx := MtxHeld |>).
Definition CAP_UNLOCK : ST cst unit :=
  do* kassert (fun s => bool_decide (cap_mtx (c_sc s) = MtxHeld));
  sc_mod (fun sc => sc <| cap_mtx := MtxFree |>).
Definition CAP_LOCK_DESTROY : ST cst unit :=
  do* kassert (fun s => bool_decide (cap_mtx (c_sc s) = MtxFree));
  sc_mod (fun sc => sc <| cap_mtx := MtxUninit |>).

(** The loops over [shared_mem_regs] that stop at the first region of a type:
    the region found, and the array after an update of it. *)
Definition find_region (t : Z) (l : list shared_mem_region) : option shared_mem_region :=
  List.find (fun r => smr_type r =? t) l.

Fixpoint upd_region (t : Z) (f : shared_mem_region -> shared_mem_region)
    (l : list shared_mem_region) : list shared_mem_region :=
  match l with
  | [] => []
  | r :: l' => if smr_type r =? t then f r :: l' else r :: upd_region t f l'
  end.

(** ** Operations (capio.c) *)

Definition capio_vaddr_callback (vaddr size map_type : Z) : ST cst Z :=
  do* CAP_LOCK;
  let* found := sc_get (fun sc => find_region map_type (shared_mem_regs sc)) in
  do* sc_mod (fun sc => sc <| shared_mem_regs ::=
        upd_region map_type (fun r => r <| smr_offset := vaddr |> <| smr_len := size |>) |>);
  do* CAP_UNLOCK;
  match found with
  | None => ret EINVAL
  | Some _ => ret 0
  end.

Definition capio_slice_length_callback (map_type : Z) : ST cst region_sizes :=
  do* CAP_LOCK;
  let* found := sc_get (fun sc => find_region map_type (shared_mem_regs sc)) in
  do* CAP_UNLOCK;
  match found with
  | Some smem => ret (RegionSizes (smr_len smem) (smr_slice_def_len smem))
  | None => ret (RegionSizes 0 0)
  end.

Definition create_sealing_key (id : Z) : cap :=
  if cap_base kernel_root_sealcap <=? id then cap_null
  else cap_set_bounds
         (cap_set_address kernel_root_sealcap (cap_base kernel_root_sealcap + id)) 1.

Definition init_capio_sc (smem : list shared_mem_region) : ST cst unit :=
  do* CAP_LOCK_INIT;
  sc_mod (fun sc => sc <| sealing_key := create_sealing_key 0x1234 |>
                       <| shared_mem_regs := smem |>).

Definition capio_destroy : ST cst unit := CAP_LOCK_DESTROY.

Definition check_cap_token (cap_token : cap) : ST cst Z :=
  let* sc := sc_get id in
  if cap_is_null (sealed_cap sc) then ret EINVAL
  else if cap_is_null cap_token then ret EINVAL
  else
    let unsealed_token := cap_unseal cap_token (sealing_key sc) in
    if negb (bool_decide (unsealed_token = original_cap sc)) then ret EPERM
    else ret 0.

Definition capio_pager_ctor (htype : Z) : ST cst Z :=
  do* CAP_LOCK;
  do* sc_mod (fun sc => sc <| capio_mapped := true |>
        <| shared_mem_regs ::=
             map (fun r => if smr_type r =? htype then r <| smr_mapped := true |> else r) |>);
  do* CAP_UNLOCK;
  ret 0.

Definition capio_pager_dtor (htype : Z) : ST cst unit :=
  do* CAP_LOCK;
  do* sc_mod (fun sc => sc <| shared_mem_regs ::=
        map (fun r => if smr_type r =? htype then r <| smr_mapped := false |> else r) |>);
  let* no_mapped := sc_get (fun sc => forallb (fun r => negb (smr_mapped r)) (shared_mem_regs sc)) in
  do* (if no_mapped then sc_mod (fun sc => sc <| capio_mapped := false |>) else ret tt);
  CAP_UNLOCK.

(** The VM system drops the last reference to a live pager object of type
    [t]: the destructor runs.  Nothing happens when there is no such object. *)
Definition vm_object_terminate (t : Z) : ST cst unit :=
  let* objs := gets c_objs in
  if decide (t ∈ objs) then
    do* modify (fun s => s <| c_objs ::= remove_one t |>);
    capio_pager_dtor t
  else ret tt.

Fixpoint vm_terminate_all (ts : list Z) : ST cst unit :=
  match ts with
  | [] => ret tt
  | t :: ts' => do* vm_object_terminate t; vm_terminate_all ts'
  end.

Definition delete_mapping_from_user (ue : unmap_env) : ST cst Z :=
  if negb (ue_vmspace ue) then ret 0
  else if negb (ue_lookup ue =? KERN_SUCCESS) then ret 0
  else
    do* vm_terminate_all (ue_dead ue);
    if ue_remove ue =? KERN_SUCCESS then ret 0
    else if ue_remove ue =? KERN_INVALID_ADDRESS then ret 0
    else ret EIO.

(** One turn of the loop of [revoke_cap_token] at index [i]; [error] is the
    value the variable has before it. *)
Definition revoke_region (env : nat -> unmap_env) (i : nat) (error : Z) : ST cst Z :=
  do* CAP_LOCK;
  let* smem := sc_get (fun sc => shared_mem_regs sc !! i) in
  do* CAP_UNLOCK;
  match smem with
  | None => panic
  | Some smem =>
      if negb (smr_offset smem =? 0) then
        let* error := delete_mapping_from_user (env i) in
        if error =? 0 then
          do* CAP_LOCK;
          do* sc_mod (fun sc => sc <| shared_mem_regs ::=
                alter (fun r => r <| smr_offset := 0 |>) i |>);
          do* CAP_UNLOCK;
          ret error
        else ret error
      else ret error
  end.

Fixpoint revoke_regions (env : nat -> unmap_env) (n i : nat) (error : Z) : ST cst Z :=
  match n with
  | O => ret error
  | S n' => let* error := revoke_region env i error in revoke_regions env n' (S i) error
  end.

Definition revoke_cap_token (env : nat -> unmap_env) : ST cst Z :=
  do* CAP_LOCK;
  do* sc_mod (fun sc => sc <| original_cap := cap_null |> <| sealed_cap := cap_null |>);
  do* CAP_UNLOCK;
  let* n := sc_get (fun sc => length (shared_mem_regs sc)) in
  revoke_regions env n 0 0.

Definition set_cap_token (req : cap_req cap) : ST cst (Z * cap_req cap) :=
  do* CAP_LOCK;
  let* sc := sc_get id in
  if cap_is_null (cr_user_cap req) || negb (cap_is_null (sealed_cap sc)) then
    do* CAP_UNLOCK;
    ret (EINVAL, req)
  else
    do* sc_mod (fun sc => sc <| original_cap := cr_user_cap req |>
                             <| sealed_cap := cap_seal (cr_user_cap req) (sealing_key sc) |>);
    let* sc := sc_get id in
    let req := CapReq (cr_user_cap req) (sealed_cap sc) in
    do* CAP_UNLOCK;
    ret (0, req).

Definition grant_access (req : cap_req cap) : ST cst (Z * cap_req cap) :=
  let* r := set_cap_token req in
  ret (0, snd r).

Definition revoke_access (env : nat -> unmap_env) : ST cst Z := revoke_cap_token env.

(** ** Mapping a region

    [mmap_check] is [capio_mmap_single_extra] up to the second [CAP_UNLOCK]
    (every test it makes), [mmap_commit] the rest (the allocations).  Another
    thread can run between the two. *)

Definition mmap_check (VM_PROT_CAPS offset size nprot : Z) (extra : option (map_req cap)) :
    ST cst (Z + mmap_plan) :=
  let* si_drv1 := gets c_si_drv1 in
  match extra with
  | None => ret (inl EINVAL)
  | Some req =>
  if negb si_drv1 then ret (inl EINVAL)
  else
  let* error := check_cap_token (mr_sealed_cap req) in
  if negb (error =? 0) then ret (inl error)
  else if negb (Z.land nprot VM_PROT_CAPS =? 0) then ret (inl EINVAL)
  else
  do* CAP_LOCK;
  if negb (offset =? 0) then
    do* CAP_UNLOCK;
    ret (inl EINVAL)
  else
  do* CAP_UNLOCK;
  let* dying := in_drv drv_is_dying in
  if dying : bool then ret (inl ENXIO)
  else if negb (cap_tag (mr_user_cap req)) then ret (inl EINVAL)
  else
  let* smem := sc_get shared_mem_regs in
  let* buffer_size := in_drv (drv_get_buffer_size smem (mr_map_type req)) in
  if negb (size =? buffer_size) then ret (inl EINVAL)
  else
  do* CAP_LOCK;
  let* found := sc_get (fun sc => find_region (mr_map_type req) (shared_mem_regs sc)) in
  match found with
  | Some smem =>
      let mem_attributes :=
        if smr_is_physical smem then VM_MEMATTR_DEVICE else VM_MEMATTR_DEFAULT in
      if smr_mapped smem then
        do* CAP_UNLOCK;
        ret (inl EINVAL)
      else
        do* CAP_UNLOCK;
        ret (inr (MmapPlan (smr_is_sliced smem) (smr_slice_definitions smem)
                    (smr_slice_def_len smem) mem_attributes buffer_size))
  | None =>
      do* CAP_UNLOCK;
      ret (inr (MmapPlan false [] 0 VM_MEMATTR_DEFAULT buffer_size))
  end
  end.

(** [cdev_pager_allocate]: when the VM system can make the object, the
    constructor runs and the object is alive. *)
Definition cdev_pager_allocate (ok : bool) (htype size : Z) : ST cst (option capio_obj) :=
  if ok then
    do* capio_pager_ctor htype;
    do* modify (fun s => s <| c_objs ::= cons htype |>);
    ret (Some (CapioObj htype size VM_MEMATTR_DEFAULT))
  else ret None.

Definition mmap_commit (env : mmap_env) (req : map_req cap) (p : mmap_plan) :
    ST cst (Z * map_req cap * option capio_obj) :=
  if negb (me_malloc_ok env) then ret (ENOMEM, req, None)
  else
  let* obj := cdev_pager_allocate (me_pager_ok env) (mr_map_type req) (pl_buffer_size p) in
  match obj with
  | None => ret (ENXIO, req, None)
  | Some obj =>
  let obj := if decide (pl_mem_attributes p = VM_MEMATTR_DEFAULT) then obj
             else CapioObj (ob_type obj) (ob_size obj) (pl_mem_attributes p) in
  let* dying := in_drv drv_is_dying in
  if dying : bool then ret (ENXIO, req, None)
  else
  ret (0, MapReq (mr_user_cap req) (mr_sealed_cap req) (mr_map_type req)
            (pl_is_sliced p) (pl_slice_def p) (pl_slice_def_len p), Some obj)
  end.

Definition capio_mmap_single_extra (VM_PROT_CAPS : Z) (env : mmap_env)
    (offset size nprot : Z) (extra : option (map_req cap)) :
    ST cst (Z * option (map_req cap) * option capio_obj) :=
  let* c := mmap_check VM_PROT_CAPS offset size nprot extra in
  match c, extra with
  | inl error, _ => ret (error, extra, None)
  | inr p, Some req =>
      let* r := mmap_commit env req p in
      let '(error, req, obj) := r in
      ret (error, Some req, obj)
  | inr _, None => ret (EINVAL, None, None)
  end.

(** The fault handler of the pager; [pmap_kextract] translates a kernel
    virtual address. *)
Definition capio_pager_fault (pmap_kextract : Z -> Z) (htype offset : Z) (mres : vm_page) :
    ST cst (pager_result * vm_page) :=
  let* found := sc_get (fun sc => find_region htype (shared_mem_regs sc)) in
  match found with
  | None => ret (VM_PAGER_BAD, mres)
  | Some smem =>
      let '(paddr, mem_attribute) :=
        if smr_is_physical smem then (smr_paddr smem + offset, VM_MEMATTR_DEVICE)
        else (pmap_kextract (smr_addr smem + offset), VM_MEMATTR_DEFAULT) in
      let page :=
        if pg_fictitious mres then
          mres <| pg_paddr := paddr |> <| pg_memattr := mem_attribute |>
        else VmPage (pg_pindex mres) true paddr mem_attribute false in
      ret (VM_PAGER_OK, page <| pg_valid := true |>)
  end.

Definition capio_ioctl_handler (env : nat -> unmap_env) (cmd : capio_cmd)
    (addr : cap_req cap) (data : payload) : ST cst (Z * cap_req cap * payload) :=
  let* si_drv1 := gets c_si_drv1 in
  if negb si_drv1 then ret (EINVAL, addr, data)
  else
  let* refused :=
    match cmd with
    | CAPIO_ATTACH => ret false
    | _ => let* e := check_cap_token (cr_sealed_cap addr) in ret (negb (e =? 0))
    end in
  if refused : bool then ret (EPERM, addr, data)
  else
  match cmd with
  | CAPIO_ATTACH => let* r := set_cap_token addr in ret (fst r, snd r, data)
  | CAPIO_GOODBYE => let* error := revoke_cap_token env in ret (error, addr, data)
  | CAPIO_OTHER => let* r := in_drv (drv_ioctl data) in ret (fst r, addr, snd r)
  end.

(** ** Events

    What can reach CAPIO from outside: ioctls, mmaps, the two modmap
    callbacks, page faults, the VM system dropping an object, and the revoke
    a driver issues on close.  Each runs to its end before the next. *)
Inductive capio_event :=
  | EvIoctl (env : nat -> unmap_env) (cmd : capio_cmd) (addr : cap_req cap) (data : payload)
  | EvMmap (VM_PROT_CAPS : Z) (env : mmap_env) (offset size nprot : Z)
      (extra : option (map_req cap))
  | EvVaddr (vaddr size map_type : Z)
  | EvSliceLength (map_type : Z)
  | EvFault (kextract : Z -> Z) (htype offset : Z) (mres : vm_page)
  | EvTerminate (t : Z)
  | EvRevoke (env : nat -> unmap_env)
  | EvGrant (req : cap_req cap).

Definition run_event (e : capio_event) : ST cst unit :=
  match e with
  | EvIoctl env cmd addr data => do* capio_ioctl_handler env cmd addr data; ret tt
  | EvMmap caps env offset size nprot extra =>
      do* capio_mmap_single_extra caps env offset size nprot extra; ret tt
  | EvVaddr va size t => do* capio_vaddr_callback va size t; ret tt
  | EvSliceLength t => do* capio_slice_length_callback t; ret tt
  | EvFault kx t off mres => do* capio_pager_fault kx t off mres; ret tt
  | EvTerminate t => vm_object_terminate t
  | EvRevoke env => do* revoke_access env; ret tt
  | EvGrant req => do* grant_access req; ret tt
  end.

Fixpoint run_events (es : list capio_event) : ST cst unit :=
  match es with
  | [] => ret tt
  | e :: es' => do* run_event e; run_events es'
  end.
End capio.

Arguments capio_event cap payload : clear implicits.

(** What CAPIO relies on from the driver below it: from a state its invariant
    allows, its entry points return and keep the invariant. *)
Class CapioDriverLaws (drv payload : Type) `{!CapioDriver drv payload} := {
  drv_inv : drv -> Prop;
  drv_ioctl_ok : forall p d, drv_inv d -> wp (drv_ioctl p) (fun _ d' => drv_inv d') d;
  drv_is_dying_ok : forall d, drv_inv d -> wp drv_is_dying (fun _ d' => d' = d) d;
  drv_get_buffer_size_ok : forall l t d, drv_inv d ->
    wp (drv_get_buffer_size l t) (fun _ d' => d' = d) d;
}.

(** ** The session token *)

(** The process that holds the device, as the capability it attached with. *)
Definition holder {cap} `{!Cheri cap} (sc : capio_softc cap) : option cap :=
  if cap_is_null (sealed_cap sc) then None else Some (original_cap sc).

(** The kept pair is the null pair or a capability with its sealed form. *)
Definition token_ok {cap} `{!Cheri cap} (sc : capio_softc cap) : Prop :=
  cap_is_null (sealed_cap sc) = true \/
  sealed_cap sc = cap_seal (original_cap sc) (sealing_key sc).

Definition token_status {cap} `{!Cheri cap} (sc : capio_softc cap) (t : cap) : Z :=
  if cap_is_null (sealed_cap sc) then EINVAL
  else if cap_is_null t then EINVAL
  else if negb (bool_decide (cap_unseal t (sealing_key sc) = original_cap sc)) then EPERM
  else 0.

(** ** Region flags and live objects *)

Definition region_flag (r : shared_mem_region) : Z * bool := (smr_type r, smr_mapped r).
Definition region_flags (l : list shared_mem_region) : list (Z * bool) := map region_flag l.
Definition mark (t : Z) (b : bool) (l : list (Z * bool)) : list (Z * bool) :=
  map (fun x => if fst x =? t then (fst x, b) else x) l.
Definition live (t : Z) (objs : list Z) : nat := count_occ Z.eq_dec objs t.

(** The mapping discipline: region types are distinct; a region has at most
    one live object, and is flagged exactly while it has one.  A region of
    [pre] is flagged from the start, so that it is never mapped. *)
Record exclusive (pre : Z -> Prop) (l : list (Z * bool)) (objs : list Z) : Prop := {
  ex_nodup : NoDup (map fst l);
  ex_in : forall t, pre t -> t ∈ map fst l;
  ex_one : forall t m, (t, m) ∈ l -> (live t objs <= 1)%nat;
  ex_flag : forall t m, (t, m) ∈ l -> m = true <-> live t objs = 1%nat \/ pre t;
  ex_pre : forall t m, (t, m) ∈ l -> pre t -> live t objs = 0%nat;
}.

(** The invariant of the component. *)
Record capio_inv {cap drv payload} `{!Cheri cap} `{!CapioDriver drv payload}
    `{!CapioDriverLaws drv payload} (pre : Z -> Prop) (s : cst cap drv) : Prop := {
  inv_mtx : cap_mtx (c_sc s) = MtxFree;
  inv_token : token_ok (c_sc s);
  inv_drv : drv_inv (c_drv s);
  inv_excl : exclusive pre (region_flags (shared_mem_regs (c_sc s))) (c_objs s);
}.

Lemma live_cons (t u : Z) (l : list Z) :
  live t (u :: l) = ((if decide (u = t) then 1 else 0) + live t l)%nat.
Proof. unfold live. simpl. destruct (Z.eq_dec u t), (decide (u = t)); lia. Qed.

Lemma live_remove_one (t u : Z) (l : list Z) :
  live t (remove_one u l) = (live t l - if decide (u = t) then 1 else 0)%nat.
Proof.
  induction l as [| x l IH]; [destruct (decide (u = t)); done |].
  cbn [remove_one]. destruct (Z.eqb_spec x u) as [-> |].
  - rewrite live_cons. destruct (decide (u = t)); lia.
  - rewrite !live_cons, IH. destruct (decide (x = t)), (decide (u = t)); lia.
Qed.

Lemma live_elem_of (t : Z) (l : list Z) : t ∈ l -> (1 <= live t l)%nat.
Proof. intros H. apply list_elem_of_In in H. apply count_occ_In. exact H. Qed.

Lemma elem_of_mark (t u : Z) (b m : bool) (l : list (Z * bool)) :
  (u, m) ∈ mark t b l ->
  (u = t /\ m = b /\ exists m', (u, m') ∈ l) \/ (u <> t /\ (u, m) ∈ l).
Proof.
  unfold mark. rewrite elem_of_map. intros ([v m'] & Heq & Hin). simpl in Heq.
  destruct (Z.eqb_spec v t); simplify_eq; [left | right]; naive_solver.
Qed.

Lemma fst_mark (t : Z) (b : bool) (l : list (Z * bool)) : map fst (mark t b l) = map fst l.
Proof.
  unfold mark. rewrite map_map. apply map_ext. intros [u m]. simpl. now destruct (u =? t).
Qed.

Lemma flags_mark (t : Z) (b : bool) (l : list shared_mem_region) :
  region_flags (map (fun r => if smr_type r =? t then r <| smr_mapped := b |> else r) l)
  = mark t b (region_flags l).
Proof.
  unfold region_flags, mark. rewrite !map_map. apply map_ext. intros [].
  unfold region_flag. simpl. now destruct (_ =? t).
Qed.

Lemma flags_upd_region (t : Z) f (l : list shared_mem_region) :
  (forall r, region_flag (f r) = region_flag r) ->
  region_flags (upd_region t f l) = region_flags l.
Proof.
  intros Hf. induction l as [| r l IH]; [done |]. simpl.
  destruct (_ =? t); cbn [region_flags map]; [now rewrite Hf | unfold region_flags in IH; now rewrite IH].
Qed.

Lemma flags_alter (i : nat) f (l : list shared_mem_region) :
  (forall r, region_flag (f r) = region_flag r) ->
  region_flags (alter f i l) = region_flags l.
Proof.
  intros Hf. revert i. induction l as [| r l IH]; intros [| i]; cbn; [done | done | |].
  - now rewrite Hf.
  - f_equal. apply IH.
Qed.

Lemma exclusive_alloc pre l objs t :
  exclusive pre l objs -> (forall m, (t, m) ∈ l -> m = false) ->
  exclusive pre (mark t true l) (t :: objs).
Proof.
  intros [Hnd Hin0 H1 Hf Hp] Hfree.
  assert (forall m, (t, m) ∈ l -> live t objs = 0%nat /\ ~ pre t) as Hz.
  { intros m Hin. pose proof (Hfree m Hin) as ->. pose proof (H1 t false Hin).
    pose proof (Hf t false Hin) as [_ Hf2]. split; [| naive_solver].
    destruct (decide (live t objs = 1%nat)); [| lia]. discriminate Hf2; auto. }
  split; [now rewrite fst_mark | now rewrite fst_mark | intros u m Hin ..];
    destruct (elem_of_mark _ _ _ _ _ Hin) as [(-> & -> & m' & Hin') | [Hne Hin']];
    rewrite live_cons; destruct (decide _); try congruence; simpl; eauto.
  - destruct (Hz _ Hin'). lia.
  - destruct (Hz _ Hin'). split; [left; lia | done].
  - destruct (Hz _ Hin'). naive_solver.
Qed.

Lemma exclusive_terminate pre l objs t :
  exclusive pre l objs -> t ∈ objs -> exclusive pre (mark t false l) (remove_one t objs).
Proof.
  intros [Hnd Hin0 H1 Hf Hp] Hlive%live_elem_of.
  split; [now rewrite fst_mark | now rewrite fst_mark | intros u m Hin ..];
    destruct (elem_of_mark _ _ _ _ _ Hin) as [(-> & -> & m' & Hin') | [Hne Hin']];
    rewrite live_remove_one; destruct (decide _); try congruence;
    rewrite ?Nat.sub_0_r; eauto.
  - pose proof (H1 _ _ Hin'). lia.
  - pose proof (H1 _ _ Hin'). split; [done |]. intros [Hl | Hpre]; [lia |].
    pose proof (Hp _ _ Hin' Hpre). lia.
  - intros Hpre. pose proof (Hp _ _ Hin' Hpre). lia.
Qed.

Lemma find_region_spec (t : Z) (l : list shared_mem_region) :
  match find_region t l with
  | Some r => r ∈ l /\ smr_type r = t
  | None => forall m, (t, m) ∉ region_flags l
  end.
Proof.
  unfold find_region. destruct (List.find _ l) as [r |] eqn:Hf.
  - apply find_some in Hf as [Hin Ht]. split; [now apply list_elem_of_In | lia].
  - intros m Hin. apply elem_of_map in Hin as (r & Heq & Hin).
    apply list_elem_of_In in Hin. pose proof (find_none _ _ Hf _ Hin) as Hn.
    unfold region_flag in Heq. simplify_eq. simpl in Hn. lia.
Qed.

Lemma nodup_flag_unique (l : list (Z * bool)) t m m' :
  NoDup (map fst l) -> (t, m) ∈ l -> (t, m') ∈ l -> m = m'.
Proof.
  induction l as [| [u b] l IH]; simpl; intros Hnd H1 H2; [now apply elem_of_nil in H1 |].
  inversion_clear Hnd as [| ? ? Hni Hnd'].
  assert (forall x, (u, x) ∉ l) as Hno.
  { intros x Hx. apply Hni. apply elem_of_map. now exists (u, x). }
  apply elem_of_cons in H1 as [H1 | H1], H2 as [H2 | H2]; simplify_eq; naive_solver.
Qed.

(** A region found unmapped by the search has no flag set. *)
Lemma found_unmapped (pre : Z -> Prop) (t : Z) (l : list shared_mem_region) objs r :
  exclusive pre (region_flags l) objs -> find_region t l = Some r -> smr_mapped r = false ->
  forall m, (t, m) ∈ region_flags l -> m = false.
Proof.
  intros [Hnd _ _ _ _] Hfind Hm m Hin. pose proof (find_region_spec t l) as Hs.
  rewrite Hfind in Hs. destruct Hs as [Hr Ht].
  eapply nodup_flag_unique; [exact Hnd | exact Hin |].
  rewrite <- Hm, <- Ht. apply elem_of_map. now exists r.
Qed.

(** ** Symbolic execution of the component *)

Section capio_rules.
Context {cap drv payload : Type} `{!Cheri cap} `{!CapioDriver drv payload}.
Abbreviation cst := (cst cap drv).
Implicit Types (s : cst).

Lemma wp_CAP_LOCK (Q : unit -> cst -> Prop) s :
  cap_mtx (c_sc s) = MtxFree -> Q tt (s <| c_sc ::= fun sc => sc <| cap_mtx := MtxHeld |> |>) ->
  wp CAP_LOCK Q s.
Proof.
  intros Hm HQ. apply wp_bind, wp_kassert; [now apply bool_decide_eq_true_2 |].
  now apply wp_modify.
Qed.

Lemma wp_CAP_UNLOCK (Q : unit -> cst -> Prop) s :
  cap_mtx (c_sc s) = MtxHeld -> Q tt (s <| c_sc ::= fun sc => sc <| cap_mtx := MtxFree |> |>) ->
  wp CAP_UNLOCK Q s.
Proof.
  intros Hm HQ. apply wp_bind, wp_kassert; [now apply bool_decide_eq_true_2 |].
  now apply wp_modify.
Qed.

Lemma wp_sc_get {A} (f : capio_softc cap -> A) (Q : A -> cst -> Prop) s :
  Q (f (c_sc s)) s -> wp (sc_get f) Q s.
Proof. done. Qed.

Lemma wp_sc_mod f (Q : unit -> cst -> Prop) s :
  Q tt (s <| c_sc ::= f |>) -> wp (sc_mod f) Q s.
Proof. done. Qed.

Lemma wp_in_drv {A} (m : ST drv A) (Q : A -> cst -> Prop) s :
  wp m (fun a d => Q a (s <| c_drv := d |>)) (c_drv s) -> wp (in_drv m) Q s.
Proof. unfold wp, in_drv. now destruct (m (c_drv s)) as [[a d] |]. Qed.

Lemma wp_check_cap_token t (Q : Z -> cst -> Prop) s :
  Q (token_status (c_sc s) t) s -> wp (check_cap_token t) Q s.
Proof.
  unfold check_cap_token, token_status. intros HQ. apply wp_bind, wp_sc_get. unfold id.
  destruct (cap_is_null (sealed_cap _)); [done |]. destruct (cap_is_null t); [done |].
  now destruct (negb _).
Qed.
End capio_rules.

(** [cap_step] extends [wp_step] with the component's own primitives; states
    are kept as explicit records so that the lock tests compute. *)
Ltac cap_step :=
  lazymatch goal with
  | |- wp CAP_LOCK _ _ => apply wp_CAP_LOCK; [reflexivity |]
  | |- wp CAP_UNLOCK _ _ => apply wp_CAP_UNLOCK; [reflexivity |]
  | |- wp (sc_get _) _ _ => apply wp_sc_get
  | |- wp (sc_mod _) _ _ => apply wp_sc_mod
  | |- wp (check_cap_token _) _ _ => apply wp_check_cap_token
  | |- wp (match (if ?b then _ else _) with _ => _ end) _ _ => destruct b eqn:?
  | |- _ => wp_step
  end; simpl.
Ltac cap_go := repeat cap_step.

(** Open a state whose mutex is known to be free. *)
Ltac open_cst s H :=
  let si := fresh "si" in let key := fresh "key" in let orig := fresh "orig" in
  let sealed := fresh "sealed" in let mx := fresh "mx" in let mp := fresh "mp" in
  let regs := fresh "regs" in let d := fresh "d" in let objs := fresh "objs" in
  destruct s as [si [key orig sealed mx mp regs] d objs]; simpl in H; subst mx.

Section capio_ops_rules.
Context {cap drv payload : Type} `{!Cheri cap} `{!CapioDriver drv payload}.
Abbreviation cst := (cst cap drv).
Implicit Types (s : cst).

Lemma wp_pager_ctor t (Q : Z -> cst -> Prop) s :
  cap_mtx (c_sc s) = MtxFree ->
  Q 0 (s <| c_sc ::= fun sc => sc <| capio_mapped := true |>
        <| shared_mem_regs ::=
             map (fun r => if smr_type r =? t then r <| smr_mapped := true |> else r) |> |>) ->
  wp (capio_pager_ctor t) Q s.
Proof. intros Hm HQ. open_cst s Hm. unfold capio_pager_ctor. cap_go. exact HQ. Qed.

Lemma wp_set_cap_token req (Q : Z * cap_req cap -> cst -> Prop) s :
  cap_mtx (c_sc s) = MtxFree ->
  (if cap_is_null (cr_user_cap req) || negb (cap_is_null (sealed_cap (c_sc s)))
   then Q (EINVAL, req) s
   else let sealed := cap_seal (cr_user_cap req) (sealing_key (c_sc s)) in
        Q (0, CapReq (cr_user_cap req) sealed)
          (s <| c_sc ::= fun sc => sc <| original_cap := cr_user_cap req |>
                                      <| sealed_cap := sealed |> |>)) ->
  wp (set_cap_token req) Q s.
Proof.
  intros Hm HQ. open_cst s Hm. unfold set_cap_token, id. simpl in HQ.
  destruct (_ || _) eqn:Ht; cap_go; unfold id in *; simpl in *; congruence || exact HQ.
Qed.
End capio_ops_rules.

(** ** The invariant is kept by every operation *)

Section capio_invariant.
Context {cap drv payload : Type} `{!Cheri cap} `{!CheriLaws cap}
  `{!CapioDriver drv payload} `{!CapioDriverLaws drv payload} (pre : Z -> Prop).
Abbreviation cst := (cst cap drv).
Implicit Types (s : cst).
Abbreviation inv := (capio_inv pre).

(** Rebuild the invariant of a state from that of the one it came from. *)
Ltac inv_done H := destruct H as [? ? ? ?]; split; simpl in *; auto.

Lemma set_cap_token_inv req s : inv s -> wp (set_cap_token req) (fun _ s' => inv s') s.
Proof.
  intros Hi. apply wp_set_cap_token; [apply Hi |].
  destruct (_ || _); [done |]. simpl. inv_done Hi. now right.
Qed.

Lemma vm_object_terminate_inv t s :
  inv s -> wp (vm_object_terminate t) (fun _ s' => inv s') s.
Proof.
  intros Hi. unfold vm_object_terminate. apply wp_bind, wp_gets. cbv beta.
  destruct (decide _) as [Hin |]; [| done]. pose proof (inv_mtx _ _ Hi) as Hm.
  open_cst s Hm. unfold capio_pager_dtor.
  destruct Hi as [_ Htok Hdrv Hex]. simpl in *.
  apply (exclusive_terminate _ _ _ t) in Hex; [| done].
  rewrite <- flags_mark in Hex. cap_go; split; simpl; auto.
Qed.

(** What revoking leaves alone: the token state and everything of the region
    table but the user addresses and the flags. *)
Definition region_static (r : shared_mem_region) : shared_mem_region :=
  r <| smr_offset := 0 |> <| smr_mapped := false |>.
Definition same_table s s' : Prop :=
  c_si_drv1 s' = c_si_drv1 s /\
  sealing_key (c_sc s') = sealing_key (c_sc s) /\
  original_cap (c_sc s') = original_cap (c_sc s) /\
  sealed_cap (c_sc s') = sealed_cap (c_sc s) /\
  map region_static (shared_mem_regs (c_sc s')) = map region_static (shared_mem_regs (c_sc s)).
Definition same_offsets s s' : Prop :=
  map smr_offset (shared_mem_regs (c_sc s')) = map smr_offset (shared_mem_regs (c_sc s)).

Lemma same_table_length s s' :
  same_table s s' -> length (shared_mem_regs (c_sc s')) = length (shared_mem_regs (c_sc s)).
Proof.
  intros (_ & _ & _ & _ & H). apply (f_equal length) in H. now rewrite !length_map in H.
Qed.

Lemma same_table_trans s1 s2 s3 : same_table s1 s2 -> same_table s2 s3 -> same_table s1 s3.
Proof. unfold same_table. intuition congruence. Qed.

Lemma vm_object_terminate_table t s :
  inv s ->
  wp (vm_object_terminate t) (fun _ s' => inv s' /\ same_table s s' /\ same_offsets s s') s.
Proof.
  intros Hi. apply wp_conj; [now apply vm_object_terminate_inv |].
  unfold vm_object_terminate. apply wp_bind, wp_gets. cbv beta.
  destruct (decide _); [| done]. pose proof (inv_mtx _ _ Hi) as Hm. clear Hi. open_cst s Hm.
  unfold capio_pager_dtor, same_table, same_offsets.
  cap_go; rewrite !map_map; repeat split; apply map_ext; intros []; simpl; now destruct (_ =? t).
Qed.

Lemma vm_terminate_all_table ts s :
  inv s ->
  wp (vm_terminate_all ts) (fun _ s' => inv s' /\ same_table s s' /\ same_offsets s s') s.
Proof.
  revert s. induction ts as [| t ts IH]; intros s Hi; [done |]. simpl. apply wp_bind.
  eapply wp_mono; [now apply vm_object_terminate_table |]. intros _ s' (Hi' & Ht & Ho).
  eapply wp_mono; [now apply IH |]. intros _ s'' (Hi'' & Ht' & Ho').
  split; [done |]. split; [eauto using same_table_trans | unfold same_offsets in *; congruence].
Qed.

(** The outcomes for which the mapping stays in the user's address space. *)
Definition unmap_fails (ue : unmap_env) : bool :=
  ue_vmspace ue && (ue_lookup ue =? KERN_SUCCESS) &&
  negb (ue_remove ue =? KERN_SUCCESS) && negb (ue_remove ue =? KERN_INVALID_ADDRESS).

Lemma delete_mapping_table ue s :
  inv s ->
  wp (delete_mapping_from_user ue) (fun e s' =>
    inv s' /\ same_table s s' /\ same_offsets s s' /\ (e <> 0 -> unmap_fails ue = true)) s.
Proof.
  intros Hi. unfold delete_mapping_from_user, unmap_fails.
  destruct (ue_vmspace ue); [simpl | done]. destruct (ue_lookup ue =? KERN_SUCCESS); [simpl | done].
  apply wp_bind. eapply wp_mono; [now apply vm_terminate_all_table |]. simpl.
  intros _ s' (? & ? & ?). wp_go; done.
Qed.

(** The user addresses left behind up to index [k] belong to mappings the VM
    system failed to remove. *)
Definition cleared (env : nat -> unmap_env) (k : nat) s : Prop :=
  forall j r, (j < k)%nat -> shared_mem_regs (c_sc s) !! j = Some r -> smr_offset r <> 0 ->
    unmap_fails (env j) = true.

Lemma cleared_same_offsets env k s s' : same_offsets s s' -> cleared env k s -> cleared env k s'.
Proof.
  unfold same_offsets, cleared. intros Ho Hc j r Hj Hr Hne.
  assert (map smr_offset (shared_mem_regs (c_sc s')) !! j = Some (smr_offset r)) as Hl.
  { change (map smr_offset) with (fmap (M:=list) smr_offset). rewrite list_lookup_fmap. now rewrite Hr. }
  rewrite Ho in Hl. change (map smr_offset) with (fmap (M:=list) smr_offset) in Hl.
  rewrite list_lookup_fmap in Hl. destruct (shared_mem_regs (c_sc s) !! j) as [r0 |] eqn:Hr0; [| done].
  simpl in Hl. simplify_eq. apply (Hc j r0); congruence.
Qed.

Lemma alter_offset_static (i : nat) (l : list shared_mem_region) :
  map region_static (alter (fun r => r <| smr_offset := 0 |>) i l) = map region_static l.
Proof. revert i. induction l as [| r l IH]; intros [| i]; cbn; [done | done | done |]. f_equal. apply IH. Qed.

(** The last step of a turn: the user address is forgotten. *)
Lemma clear_offset env i s :
  inv s -> cleared env i s ->
  wp (do* CAP_LOCK;
      do* sc_mod (fun sc => sc <| shared_mem_regs ::= alter (fun r => r <| smr_offset := 0 |>) i |>);
      CAP_UNLOCK)
    (fun _ s' => inv s' /\ same_table s s' /\ cleared env (S i) s') s.
Proof.
  intros Hi Hc. pose proof (inv_mtx _ _ Hi) as Hm. open_cst s Hm. cap_go. split; [| split].
  - inv_done Hi. now rewrite flags_alter.
  - repeat split. simpl. apply (alter_offset_static i).
  - intros j r Hj Hr Hne. simpl in Hr. destruct (decide (i = j)) as [-> |].
    + rewrite list_lookup_alter_eq in Hr. destruct (regs !! j); simplify_eq/=.
    + rewrite list_lookup_alter_ne in Hr by done. apply (Hc j r); [lia | done | done].
Qed.

Lemma revoke_region_spec env i e s :
  inv s -> (i < length (shared_mem_regs (c_sc s)))%nat -> cleared env i s ->
  wp (revoke_region env i e) (fun _ s' => inv s' /\ same_table s s' /\ cleared env (S i) s') s.
Proof.
  intros Hi Hlt Hc. pose proof (inv_mtx _ _ Hi) as Hm. unfold revoke_region.
  destruct (lookup_lt_is_Some_2 _ _ Hlt) as [r Hr]. apply wp_bind, wp_CAP_LOCK; [done |].
  apply wp_bind, wp_sc_get, wp_bind, wp_CAP_UNLOCK; [done |].
  open_cst s Hm. simpl in *. rewrite Hr.
  assert (forall s', same_offsets (Cst si (CapioSoftc key orig sealed MtxFree mp regs) d objs) s' ->
    (smr_offset r <> 0 -> unmap_fails (env i) = true) ->
    cleared env i s' -> cleared env (S i) s') as Hlast.
  { intros s' Ho Hf Hc' j r' Hj Hr' Hne. destruct (decide (j = i)) as [-> |].
    - apply Hf. intros Hz. apply Hne.
      assert (map smr_offset (shared_mem_regs (c_sc s')) !! i = map smr_offset regs !! i) as Hl
        by (unfold same_offsets in Ho; simpl in Ho; now rewrite Ho).
      change (map smr_offset) with (fmap (M:=list) smr_offset) in Hl.
      rewrite !list_lookup_fmap, Hr', Hr in Hl. simpl in Hl. congruence.
    - apply (Hc' j r'); [lia | done | done]. }
  destruct (Z.eqb_spec (smr_offset r) 0) as [Hz | Hz]; simpl.
  { split; [done |]. split; [done |]. apply Hlast; done. }
  apply wp_bind. eapply wp_mono; [now apply delete_mapping_table |].
  intros e' s' (Hi' & Ht & Ho & Hf). pose proof (cleared_same_offsets env i _ _ Ho Hc) as Hc'.
  destruct (Z.eqb_spec e' 0) as [-> | He]; simpl.
  - pose proof (clear_offset env i s' Hi' Hc') as Hw. revert Hw. unfold wp, bind, ret.
    destruct (CAP_LOCK s') as [[? s1] |]; [| done]. destruct (sc_mod _ s1) as [[? s2] |]; [| done].
    destruct (CAP_UNLOCK s2) as [[? s3] |]; [| done]. intros (? & ? & ?). eauto using same_table_trans.
  - split; [done |]. split; [done |]. apply Hlast; auto.
Qed.

Lemma revoke_regions_spec env n i e s :
  inv s -> (i + n = length (shared_mem_regs (c_sc s)))%nat -> cleared env i s ->
  wp (revoke_regions env n i e) (fun _ s' => inv s' /\ same_table s s' /\ cleared env (i + n) s') s.
Proof.
  revert i e s. induction n as [| n IH]; intros i e s Hi Hn Hc.
  { rewrite Nat.add_0_r. done. }
  simpl. apply wp_bind. eapply wp_mono; [apply revoke_region_spec; [done | lia | done] |]. simpl.
  intros e' s' (Hi' & Hl & Hc'). pose proof (same_table_length _ _ Hl).
  eapply wp_mono; [apply IH; [done | lia | done] |]. simpl.
  intros ? ? (? & ? & ?). replace (i + S n)%nat with (S i + n)%nat by lia.
  eauto using same_table_trans.
Qed.

(** The state with the token dropped. *)
Definition no_token s : cst :=
  s <| c_sc ::= fun sc => sc <| original_cap := cap_null |> <| sealed_cap := cap_null |> |>.

Lemma revoke_cap_token_spec env s :
  inv s ->
  wp (revoke_cap_token env) (fun _ s' =>
    inv s' /\ same_table (no_token s) s' /\ cleared env (length (shared_mem_regs (c_sc s))) s') s.
Proof.
  intros Hi. pose proof (inv_mtx _ _ Hi) as Hm. open_cst s Hm. unfold revoke_cap_token.
  cap_go. apply (revoke_regions_spec env _ 0); [| done | intros j r Hj; lia].
  inv_done Hi. left. apply cap_null_is_null.
Qed.

Lemma with_drv_inv s d : inv s -> drv_inv d -> inv (s <| c_drv := d |>).
Proof. intros Hi Hd. inv_done Hi. Qed.

(** What the search leaves to allocate: the slices of the region found, with
    device memory for a region of the BAR and the default attribute otherwise. *)
Definition region_attr (o : option shared_mem_region) : memattr :=
  match o with
  | Some r => if smr_is_physical r then VM_MEMATTR_DEVICE else VM_MEMATTR_DEFAULT
  | None => VM_MEMATTR_DEFAULT
  end.
Definition plan_for (o : option shared_mem_region) (size : Z) : mmap_plan :=
  match o with
  | Some r => MmapPlan (smr_is_sliced r) (smr_slice_definitions r) (smr_slice_def_len r) (region_attr o) size
  | None => MmapPlan false [] 0 (region_attr o) size
  end.

(** The tests of an mmap change nothing; when they pass, no object of that
    type is alive under a registered region. *)
Lemma mmap_check_spec caps offset size nprot extra s :
  inv s ->
  wp (mmap_check caps offset size nprot extra) (fun r s' =>
    s' = s /\ match r with
              | inl e => e <> 0
              | inr p => exists req, extra = Some req /\
                  token_status (c_sc s) (mr_sealed_cap req) = 0 /\
                  p = plan_for (find_region (mr_map_type req) (shared_mem_regs (c_sc s))) size /\
                  drv_get_buffer_size (shared_mem_regs (c_sc s)) (mr_map_type req) (c_drv s) = Some (size, c_drv s) /\
                  forall m, (mr_map_type req, m) ∈ region_flags (shared_mem_regs (c_sc s)) -> m = false
              end) s.
Proof.
  intros Hi. pose proof (inv_mtx _ _ Hi) as Hm. pose proof (inv_drv _ _ Hi) as Hd.
  pose proof (inv_excl _ _ Hi) as Hex. open_cst s Hm. simpl in *. clear Hi.
  unfold mmap_check. apply wp_bind, wp_gets. cbv beta.
  destruct extra as [req |]; [| done]. simpl. destruct (negb si); [done |].
  apply wp_bind, wp_check_cap_token. simpl.
  set (st := token_status _ _). destruct (Z.eqb_spec st 0) as [Ht | Ht]; simpl; [| now apply wp_ret].
  destruct (negb (_ =? 0)); [done |]. cap_step. cap_step. destruct (negb (_ =? 0)); [now cap_go |].
  cap_step. cap_step. apply wp_bind, wp_in_drv. eapply wp_mono; [now apply drv_is_dying_ok |].
  intros dying ? ->. simpl. destruct dying; [done |]. destruct (negb _); [done |].
  apply wp_bind, wp_sc_get, wp_bind, wp_in_drv.
  destruct (proj1 (wp_run _ _ _) (drv_get_buffer_size_ok regs (mr_map_type req) d Hd)) as (bsz & ? & Hbsz & ->).
  unfold wp at 1. simpl. rewrite Hbsz. simpl. destruct (Z.eqb_spec size bsz) as [-> |]; simpl; [| done].
  pose proof (found_unmapped pre (mr_map_type req) regs objs) as Hfu.
  pose proof (find_region_spec (mr_map_type req) regs) as Hspec.
  cap_go; (split; [done | try done]); exists req; do 2 (split; [done |]);
    (split; [now rewrite Heqo |]); (split; [done |]); intros m Hin.
  - eapply Hfu; eauto.
  - destruct (Hspec m Hin).
Qed.

Lemma mmap_commit_inv env req p s :
  inv s ->
  (forall m, (mr_map_type req, m) ∈ region_flags (shared_mem_regs (c_sc s)) -> m = false) ->
  wp (mmap_commit env req p) (fun _ s' => inv s') s.
Proof.
  intros Hi Hfree. unfold mmap_commit, cdev_pager_allocate.
  destruct (negb _); [done |]. destruct (me_pager_ok env); [| done].
  apply wp_bind, wp_bind, wp_pager_ctor; [apply Hi |]. apply wp_bind, wp_modify, wp_ret. simpl.
  apply wp_bind, wp_in_drv. eapply wp_mono; [apply drv_is_dying_ok, Hi |].
  intros dying ? ->. destruct Hi as [Hm Ht Hd Hex].
  assert (inv (Cst (c_si_drv1 s) (CapioSoftc (sealing_key (c_sc s)) (original_cap (c_sc s))
     (sealed_cap (c_sc s)) (cap_mtx (c_sc s)) true
     (map (fun r => if smr_type r =? mr_map_type req then r <| smr_mapped := true |> else r)
          (shared_mem_regs (c_sc s)))) (c_drv s) (mr_map_type req :: c_objs s))).
  { apply (exclusive_alloc _ _ _ (mr_map_type req)) in Hex; [| done].
    rewrite <- flags_mark in Hex. split; simpl; auto. }
  destruct dying; done.
Qed.

Lemma mmap_inv caps env offset size nprot extra s :
  inv s ->
  wp (capio_mmap_single_extra caps env offset size nprot extra) (fun _ s' => inv s') s.
Proof.
  intros Hi. apply wp_bind. eapply wp_mono; [now apply mmap_check_spec |]. simpl.
  intros [e | p] s' [-> Hr]; [done |]. destruct Hr as (req & -> & _ & _ & _ & Hfree).
  apply wp_bind. eapply wp_mono; [now apply mmap_commit_inv |].
  now intros [[? ?] ?] ? ?.
Qed.

Lemma ioctl_inv env cmd addr data s :
  inv s -> wp (capio_ioctl_handler env cmd addr data) (fun _ s' => inv s') s.
Proof.
  intros Hi. apply wp_bind, wp_gets. destruct (negb _); [done |]. apply wp_bind.
  destruct cmd.
  - apply wp_ret, wp_bind. eapply wp_mono; [now apply set_cap_token_inv | done].
  - apply wp_bind, wp_check_cap_token, wp_ret. destruct (negb _); [done |]. apply wp_bind.
    eapply wp_mono; [now apply revoke_cap_token_spec |]. now intros ? ? (? & _).
  - apply wp_bind, wp_check_cap_token, wp_ret. destruct (negb _); [done |]. apply wp_bind.
    apply wp_in_drv. eapply wp_mono; [apply drv_ioctl_ok, Hi |]. intros ? ? ?.
    now apply wp_ret, with_drv_inv.
Qed.

Lemma run_event_inv e s : inv s -> wp (run_event e) (fun _ s' => inv s') s.
Proof.
  intros Hi. pose proof (inv_mtx _ _ Hi) as Hm.
  destruct e as [env cmd addr data | caps env o sz np ex | va sz t | t | kx t o p | t | env | req];
    simpl; try apply wp_bind.
  - eapply wp_mono; [now apply ioctl_inv | done].
  - eapply wp_mono; [now apply mmap_inv | done].
  - open_cst s Hm. unfold capio_vaddr_callback. cap_go; inv_done Hi; now rewrite flags_upd_region.
  - open_cst s Hm. unfold capio_slice_length_callback. cap_go; exact Hi.
  - unfold capio_pager_fault. cap_go; exact Hi.
  - now apply vm_object_terminate_inv.
  - eapply wp_mono; [now apply revoke_cap_token_spec |]. now intros ? ? (? & _).
  - unfold grant_access. apply wp_bind. eapply wp_mono; [now apply set_cap_token_inv | done].
Qed.

Lemma run_events_inv es s : inv s -> wp (run_events es) (fun _ s' => inv s') s.
Proof.
  revert s. induction es as [| e es IH]; intros s Hi; [exact Hi |].
  apply wp_bind. eapply wp_mono; [now apply run_event_inv |]. auto.
Qed.

(** C1. From a state the invariant allows, any sequence of ioctls, mmaps,
    callbacks, page faults, object terminations and revokes runs without a
    kernel panic (in particular without a recursive or unbalanced use of the
    CAPIO mutex), leaves the mutex free and the token consistent, and never
    gives a region two live mappings: a region is flagged as mapped exactly
    while one object maps it (or it was reserved from the start). *)
Theorem capio_exclusive_mapping (es : list (capio_event cap payload)) s :
  inv s ->
  wp (run_events es) (fun _ s' =>
    cap_mtx (c_sc s') = MtxFree /\ token_ok (c_sc s') /\
    forall r, r ∈ shared_mem_regs (c_sc s') ->
      (live (smr_type r) (c_objs s') <= 1)%nat /\
      (smr_mapped r = true <-> live (smr_type r) (c_objs s') = 1%nat \/ pre (smr_type r))) s.
Proof.
  intros Hi. eapply wp_mono; [now apply run_events_inv |]. intros _ s' [Hm Ht Hd [Hnd Hin H1 Hf Hp]].
  split; [done |]. split; [done |]. intros r Hr.
  assert ((smr_type r, smr_mapped r) ∈ region_flags (shared_mem_regs (c_sc s'))) by (apply elem_of_map; now exists r).
  eauto.
Qed.

(** What a region grants: where it is, and through which slices. *)
Definition region_grant (r : shared_mem_region) :=
  (smr_type r, smr_is_physical r, smr_paddr r, smr_is_sliced r, smr_slice_definitions r, smr_slice_def_len r).
Definition grants s := map region_grant (shared_mem_regs (c_sc s)).

Lemma same_table_grants s s' : same_table s s' -> grants s' = grants s.
Proof.
  intros (_ & _ & _ & _ & H). apply (f_equal (map region_grant)) in H. rewrite !map_map in H. exact H.
Qed.

Lemma grants_mark (t : Z) (b : bool) (l : list shared_mem_region) :
  map region_grant (map (fun r => if smr_type r =? t then r <| smr_mapped := b |> else r) l) = map region_grant l.
Proof. rewrite map_map. apply map_ext. intros r. now destruct (_ =? t). Qed.

Lemma grants_upd_region (t a n : Z) (l : list shared_mem_region) :
  map region_grant (upd_region t (fun r => r <| smr_offset := a |> <| smr_len := n |>) l) = map region_grant l.
Proof. induction l as [| r l IH]; cbn [upd_region]; [done |]. destruct (_ =? t); cbn [map]; [done | now rewrite IH]. Qed.

Lemma set_cap_token_grants req s : inv s -> wp (set_cap_token req) (fun _ s' => grants s' = grants s) s.
Proof. intros Hi. apply wp_set_cap_token; [apply Hi |]. now destruct (_ || _). Qed.

Lemma mmap_grants caps env offset size nprot extra s :
  inv s -> wp (capio_mmap_single_extra caps env offset size nprot extra) (fun _ s' => grants s' = grants s) s.
Proof.
  intros Hi. apply wp_bind. eapply wp_mono; [now apply mmap_check_spec |]. simpl.
  intros [e | p] s' [-> Hr]; [done |]. destruct Hr as (req & -> & _).
  apply wp_bind. unfold mmap_commit, cdev_pager_allocate.
  destruct (negb _); [done |]. destruct (me_pager_ok env); [| done].
  apply wp_bind, wp_bind, wp_pager_ctor; [apply Hi |]. apply wp_bind, wp_modify, wp_ret. simpl.
  apply wp_bind, wp_in_drv. eapply wp_mono; [apply drv_is_dying_ok, Hi |].
  intros dying ? ->. destruct dying; apply grants_mark.
Qed.

Lemma ioctl_grants env cmd addr data s :
  inv s -> wp (capio_ioctl_handler env cmd addr data) (fun _ s' => grants s' = grants s) s.
Proof.
  intros Hi. apply wp_bind, wp_gets. destruct (negb _); [done |]. apply wp_bind.
  destruct cmd.
  - apply wp_ret, wp_bind. eapply wp_mono; [now apply set_cap_token_grants | done].
  - apply wp_bind, wp_check_cap_token, wp_ret. destruct (negb _); [done |]. apply wp_bind.
    eapply wp_mono; [now apply revoke_cap_token_spec |]. intros ? ? (_ & Ht & _). now apply same_table_grants in Ht.
  - apply wp_bind, wp_check_cap_token, wp_ret. destruct (negb _); [done |]. apply wp_bind.
    apply wp_in_drv. eapply wp_mono; [apply drv_ioctl_ok, Hi | done].
Qed.

Lemma run_event_grants e s : inv s -> wp (run_event e) (fun _ s' => grants s' = grants s) s.
Proof.
  intros Hi. pose proof (inv_mtx _ _ Hi) as Hm.
  destruct e as [env cmd addr data | caps env o sz np ex | va sz t | t | kx t o p | t | env | req];
    simpl; lazymatch goal with |- wp (vm_object_terminate _) _ _ => idtac | _ => apply wp_bind end.
  - eapply wp_mono; [now apply ioctl_grants | done].
  - eapply wp_mono; [now apply mmap_grants | done].
  - clear Hi. open_cst s Hm. unfold capio_vaddr_callback. cap_go; apply grants_upd_region.
  - clear Hi. open_cst s Hm. unfold capio_slice_length_callback. now cap_go.
  - unfold capio_pager_fault. now cap_go.
  - eapply wp_mono; [now apply vm_object_terminate_table |]. intros ? ? (_ & Ht & _). now apply same_table_grants.
  - eapply wp_mono; [now apply revoke_cap_token_spec |]. intros ? ? (_ & Ht & _). now apply same_table_grants in Ht.
  - unfold grant_access. apply wp_bind. eapply wp_mono; [now apply set_cap_token_grants | done].
Qed.

(** No event changes what the regions grant. *)
Lemma run_events_grants es s : inv s -> wp (run_events es) (fun _ s' => inv s' /\ grants s' = grants s) s.
Proof.
  revert s. induction es as [| e es IH]; intros s Hi; [done |]. apply wp_bind.
  eapply wp_mono; [apply wp_conj; [now apply run_event_inv | now apply run_event_grants] |].
  intros ? s' [Hi' Hg]. eapply wp_mono; [now apply IH |]. intros ? ? [? ->]. done.
Qed.

(** A region reserved from the start is never mapped. *)
Lemma inv_reserved s t : inv s -> pre t -> live t (c_objs s) = 0%nat.
Proof.
  intros [_ _ _ [_ Hin _ _ Hp]] Ht. pose proof (Hin t Ht) as H. apply elem_of_map in H as ([u m] & -> & H).
  exact (Hp u m H Ht).
Qed.
End capio_invariant.

(** ** What a process can do

    [session_step key h cmd addr rc addr' h'] is the contract of the ioctl
    interface: with [h] holding the device, the request [addr] gets the return
    code [rc] and the reply [addr'], and [h'] holds the device afterwards. *)
Section capio_session.
Context {cap drv payload : Type} `{!Cheri cap} `{!CheriLaws cap}
  `{!CapioDriver drv payload} `{!CapioDriverLaws drv payload} (pre : Z -> Prop).
Abbreviation cst := (cst cap drv).
Implicit Types (s : cst).

Inductive session_step (key : cap) :
    option cap -> capio_cmd -> cap_req cap -> Z -> cap_req cap -> option cap -> Prop :=
  | ss_attach addr : cap_is_null (cr_user_cap addr) = false ->
      session_step key None CAPIO_ATTACH addr 0
        (CapReq (cr_user_cap addr) (cap_seal (cr_user_cap addr) key)) (Some (cr_user_cap addr))
  | ss_attach_null h addr : cap_is_null (cr_user_cap addr) = true ->
      session_step key h CAPIO_ATTACH addr EINVAL addr h
  | ss_attach_held c addr : session_step key (Some c) CAPIO_ATTACH addr EINVAL addr (Some c)
  | ss_goodbye c addr rc : cr_sealed_cap addr = cap_seal c key ->
      session_step key (Some c) CAPIO_GOODBYE addr rc addr None
  | ss_driver c addr rc : cr_sealed_cap addr = cap_seal c key ->
      session_step key (Some c) CAPIO_OTHER addr rc addr (Some c)
  | ss_refused h cmd addr : cmd <> CAPIO_ATTACH ->
      (forall c, h = Some c -> cr_sealed_cap addr <> cap_seal c key) ->
      session_step key h cmd addr EPERM addr h.

(** A token passes exactly when it is the sealed form of the holder. *)
Lemma token_status_holder (sc : capio_softc cap) t :
  token_ok sc -> (forall c, holder sc = Some c -> cap_sealable c (sealing_key sc) = true) ->
  match holder sc with
  | Some c => token_status sc t = 0 <-> t = cap_seal c (sealing_key sc)
  | None => token_status sc t = EINVAL
  end.
Proof.
  unfold holder, token_status, token_ok. intros [Hn | Hs] Hseal; [now rewrite Hn |].
  destruct (cap_is_null (sealed_cap sc)) eqn:Hnull; [done |]. specialize (Hseal _ eq_refl).
  rewrite Hs, cap_seal_is_null in Hnull. split.
  - destruct (cap_is_null t); [done |]. case_bool_decide as Hu; [simpl | done]. intros _.
    eapply cap_unseal_only_sealed; [exact Hu |]. now apply cap_sealable_tag in Hseal.
  - intros ->. rewrite cap_seal_is_null, Hnull, cap_unseal_seal by done.
    now rewrite bool_decide_eq_true_2.
Qed.

(** A request without the holder's token is refused before it does anything. *)
Lemma ioctl_refused env cmd addr data s :
  c_si_drv1 s = true -> cmd <> CAPIO_ATTACH -> token_status (c_sc s) (cr_sealed_cap addr) <> 0 ->
  capio_ioctl_handler env cmd addr data s = Some ((EPERM, addr, data), s).
Proof.
  intros Hsi Hcmd Ht.
  assert (wp (capio_ioctl_handler env cmd addr data)
            (fun r s' => r = (EPERM, addr, data) /\ s' = s) s) as Hw.
  { apply wp_bind, wp_gets. rewrite Hsi. simpl. apply wp_bind.
    destruct cmd; [done | ..]; apply wp_bind, wp_check_cap_token, wp_ret;
      now rewrite (proj2 (Z.eqb_neq _ _) Ht). }
  apply wp_run in Hw as (r & s' & -> & -> & ->). done.
Qed.

(** C2. The ioctl interface implements the session contract: a free device
    is given to the first process that attaches with a non-null capability,
    who gets its sealed form as the token; nobody else can attach until the
    holder says goodbye; and no request but the holder's own, carrying that
    very token, reaches the driver or ends the session.  (The holder's
    capability is one the kernel could seal.) *)
Theorem capio_session_refines env cmd addr data s :
  capio_inv pre s -> c_si_drv1 s = true ->
  (forall c, holder (c_sc s) = Some c -> cap_sealable c (sealing_key (c_sc s)) = true) ->
  wp (capio_ioctl_handler env cmd addr data) (fun r s' =>
    session_step (sealing_key (c_sc s)) (holder (c_sc s)) cmd addr
      (fst (fst r)) (snd (fst r)) (holder (c_sc s'))) s.
Proof.
  intros Hi Hsi Hseal.
  pose proof (token_status_holder (c_sc s) (cr_sealed_cap addr) (inv_token _ _ Hi) Hseal) as Hts.
  destruct (decide (cmd = CAPIO_ATTACH)) as [-> | Hcmd].
  - apply wp_bind, wp_gets. rewrite Hsi. apply wp_bind, wp_ret, wp_bind.
    apply wp_set_cap_token; [apply Hi |].
    destruct (cap_is_null (cr_user_cap addr)) eqn:Hu; simpl; [now constructor |].
    destruct (cap_is_null (sealed_cap (c_sc s))) eqn:Hn; unfold holder; rewrite Hn; simpl.
    + apply wp_ret. simpl. rewrite cap_seal_is_null, Hu. now constructor.
    + apply wp_ret. simpl. rewrite Hn. apply ss_attach_held.
  - destruct (decide (token_status (c_sc s) (cr_sealed_cap addr) = 0)) as [Ht | Ht].
    2: { unfold wp. rewrite (ioctl_refused env cmd addr data s Hsi Hcmd Ht). simpl.
         constructor; [done |]. intros c Hc. rewrite Hc in Hts. tauto. }
    destruct (holder (c_sc s)) as [c |] eqn:Hh; [| now rewrite Ht in Hts].
    apply Hts in Ht as Htok. apply wp_bind, wp_gets. rewrite Hsi. apply wp_bind.
    destruct cmd; [done | |]; apply wp_bind, wp_check_cap_token, wp_ret; rewrite Ht;
      apply wp_bind.
    + eapply wp_mono; [now apply (revoke_cap_token_spec pre) |]. intros rc s' (_ & (_ & _ & _ & Hs & _) & _).
      apply wp_ret. simpl. unfold holder. rewrite Hs. simpl. rewrite cap_null_is_null. now constructor.
    + apply wp_in_drv. eapply wp_mono; [apply drv_ioctl_ok, Hi |]. intros r d' _. apply wp_ret.
      simpl. rewrite Hh. now constructor.
Qed.

(** C3. Mapping is gated the same way: an mmap is refused with an error, and
    changes nothing, unless its token unseals to the capability of the process
    that holds the device.  If the kernel could seal that capability, the only
    such token is the one it handed out; a capability it could not seal, which
    attach accepts too, is no protection ([untagged_attach_forgeable] of
    [CapioModel]). *)
Theorem capio_mmap_requires_token caps env offset size nprot req s :
  capio_inv pre s ->
  (forall c, holder (c_sc s) = Some c ->
     cap_unseal (mr_sealed_cap req) (sealing_key (c_sc s)) <> c \/
     cap_sealable c (sealing_key (c_sc s)) = true /\
     mr_sealed_cap req <> cap_seal c (sealing_key (c_sc s))) ->
  exists e, e <> 0 /\
    capio_mmap_single_extra caps env offset size nprot (Some req) s
    = Some ((e, Some req, None), s).
Proof.
  intros Hi Hno.
  assert (token_status (c_sc s) (mr_sealed_cap req) <> 0) as Ht.
  { pose proof (token_status_holder (c_sc s) (mr_sealed_cap req) (inv_token _ _ Hi)) as Hts.
    unfold holder in *. destruct (cap_is_null (sealed_cap (c_sc s))) eqn:Hn; [rewrite Hts; done |].
    destruct (Hno _ eq_refl) as [Hne | [Hs Hne]].
    - unfold token_status. rewrite Hn. destruct (cap_is_null (mr_sealed_cap req)); [done |].
      rewrite bool_decide_eq_false_2 by done. done.
    - intros Hz. apply Hne, Hts; [| done]. now intros ? [= <-]. }
  unfold capio_mmap_single_extra, bind at 1.
  destruct (proj1 (wp_run _ _ _) (mmap_check_spec pre caps offset size nprot (Some req) s Hi))
    as (r & s' & Hrun & -> & Hr).
  destruct r as [e | p].
  2: { destruct Hr as (? & [= <-] & Hz & _). done. }
  exists e. rewrite Hrun. split; [| done]. revert Hrun. unfold mmap_check, bind at 1, gets.
  destruct (negb (c_si_drv1 s)); [now intros [= <-] |]. unfold bind at 1.
  destruct (proj1 (wp_run _ _ _) (wp_check_cap_token (mr_sealed_cap req)
    (fun e s' => e = token_status (c_sc s) (mr_sealed_cap req) /\ s' = s) s (conj eq_refl eq_refl)))
    as (e' & s' & -> & -> & ->).
  rewrite (proj2 (Z.eqb_neq _ _) Ht). now intros [= <-].
Qed.

(** Ending a session (GOODBYE, or the revoke on close) drops the token,
    leaves the sizes, addresses and slice tables of all regions as they were,
    so that the next process maps the same geometry, and forgets the user
    address of every region but those whose mapping the VM system failed to
    remove. *)
Theorem revoke_access_effect env s :
  capio_inv pre s ->
  wp (revoke_access env) (fun _ s' =>
    holder (c_sc s') = None /\ sealing_key (c_sc s') = sealing_key (c_sc s) /\
    map region_static (shared_mem_regs (c_sc s')) = map region_static (shared_mem_regs (c_sc s)) /\
    forall i r, shared_mem_regs (c_sc s') !! i = Some r -> smr_offset r <> 0 ->
      unmap_fails (env i) = true) s.
Proof.
  intros Hi. eapply wp_mono; [now apply (revoke_cap_token_spec pre) |].
  intros _ s' (_ & Ht & Hc). pose proof (same_table_length _ _ Ht) as Hlen.
  destruct Ht as (_ & Hk & _ & Hs & Hst). unfold holder. rewrite Hs. simpl in *.
  rewrite cap_null_is_null. do 3 (split; [done |]). intros i r Hr Hne.
  apply (Hc i r); [| done | done]. apply lookup_lt_Some in Hr. lia.
Qed.
End capio_session.

(** ** What a mapping gives access to *)

Section capio_mapping.
Context {cap drv payload : Type} `{!Cheri cap} `{!CheriLaws cap}
  `{!CapioDriver drv payload} `{!CapioDriverLaws drv payload} (pre : Z -> Prop).
Abbreviation cst := (cst cap drv).
Implicit Types (s : cst).

Lemma find_region_mark (t u : Z) (b : bool) (l : list shared_mem_region) :
  find_region t (map (fun r => if smr_type r =? u then r <| smr_mapped := b |> else r) l)
  = option_map (fun r => if smr_type r =? u then r <| smr_mapped := b |> else r) (find_region t l).
Proof.
  unfold find_region. induction l as [| r l IH]; [done |]. simpl.
  destruct (smr_type r =? u) eqn:Hu; simpl; destruct (smr_type r =? t) eqn:Ht; simpl;
    rewrite ?Hu; done.
Qed.

Lemma mmap_commit_spec env req p s :
  capio_inv pre s ->
  wp (mmap_commit env req p) (fun r s' =>
    let '(rc, req', obj) := r in
    match obj with
    | Some o => rc = 0 /\ o = CapioObj (mr_map_type req) (pl_buffer_size p) (pl_mem_attributes p) /\
        req' = MapReq (mr_user_cap req) (mr_sealed_cap req) (mr_map_type req)
                 (pl_is_sliced p) (pl_slice_def p) (pl_slice_def_len p) /\
        shared_mem_regs (c_sc s') =
          map (fun r => if smr_type r =? mr_map_type req then r <| smr_mapped := true |> else r)
            (shared_mem_regs (c_sc s)) /\
        c_objs s' = mr_map_type req :: c_objs s
    | None => rc <> 0 /\ (s' = s \/ rc = ENXIO /\ c_objs s' = mr_map_type req :: c_objs s)
    end) s.
Proof.
  intros Hi. unfold mmap_commit, cdev_pager_allocate.
  destruct (negb _); [apply wp_ret; auto |]. destruct (me_pager_ok env); [| apply wp_bind, wp_ret, wp_ret; auto].
  apply wp_bind, wp_bind, wp_pager_ctor; [apply Hi |]. apply wp_bind, wp_modify, wp_ret. simpl.
  apply wp_bind, wp_in_drv. eapply wp_mono; [apply drv_is_dying_ok, Hi |].
  intros dying ? ->. destruct dying; apply wp_ret; simpl; [auto |].
  destruct p as [? ? ? attr ?]. simpl. destruct (decide _) as [-> |]; auto.
Qed.

(** What a successful mmap of device memory answers with is what a region
    grants that is not reserved. *)
Lemma mmap_grant caps env offset size nprot req s :
  capio_inv pre s ->
  wp (capio_mmap_single_extra caps env offset size nprot (Some req)) (fun res _ =>
    forall rc req' o, res = (rc, Some req', Some o) -> ob_memattr o = VM_MEMATTR_DEVICE ->
      ~ pre (mr_map_type req) /\
      exists paddr, (mr_map_type req, true, paddr, mr_is_sliced req', mr_slice_definitions req',
                     mr_slice_def_length req') ∈ grants s) s.
Proof.
  intros Hi. apply wp_bind. eapply wp_mono; [now apply (mmap_check_spec pre) |]. simpl.
  intros [e | p] s' [-> Hr]; [now apply wp_ret |].
  destruct Hr as (? & [= <-] & _ & Hp & _ & Hfree). apply wp_bind.
  eapply wp_mono; [now apply mmap_commit_spec |]. intros [[rc req'] obj] s' Hc. apply wp_ret.
  intros ? ? o [= <- <- ->]. destruct Hc as (-> & -> & -> & _). simpl. subst p.
  pose proof (find_region_spec (mr_map_type req) (shared_mem_regs (c_sc s))) as Hf.
  destruct (find_region _ _) as [r |]; [| done]. simpl. destruct Hf as [Hin Ht].
  destruct (smr_is_physical r) eqn:Hphys; [| done]. intros _. split.
  - intros Hpre. destruct (inv_excl _ _ Hi) as [_ _ _ Hflag _].
    assert ((mr_map_type req, smr_mapped r) ∈ region_flags (shared_mem_regs (c_sc s))) as Hm
      by (rewrite <- Ht; apply elem_of_map; now exists r).
    pose proof (Hfree _ Hm) as E. rewrite E in Hm. discriminate (proj2 (Hflag _ _ Hm) (or_intror Hpre)).
  - exists (smr_paddr r). apply elem_of_map. exists r. unfold region_grant. now rewrite Hphys, Ht.
Qed.

(** C4. What a successful mmap exposes: a VM object of exactly the size the
    driver answers for that region, which is the size asked for, and every page
    the fault handler installs for an offset inside the object lies inside the
    region's physical window (for a BAR region), with the object's memory
    attribute; for a DMA region it is the page the kernel's own mapping has at
    that offset. *)
Theorem capio_mapping_confined caps env offset size nprot req s r :
  capio_inv pre s ->
  find_region (mr_map_type req) (shared_mem_regs (c_sc s)) = Some r ->
  wp (capio_mmap_single_extra caps env offset size nprot (Some req)) (fun res s' =>
    forall rc req' o, res = (rc, req', Some o) -> rc = 0 /\ ob_size o = size /\
      drv_get_buffer_size (shared_mem_regs (c_sc s)) (mr_map_type req) (c_drv s) = Some (ob_size o, c_drv s) /\
      forall kextract off mres, 0 <= off < ob_size o ->
      wp (capio_pager_fault kextract (ob_type o) off mres) (fun fr _ =>
        fst fr = VM_PAGER_OK /\ pg_memattr (snd fr) = ob_memattr o /\ pg_valid (snd fr) = true /\
        pg_pindex (snd fr) = pg_pindex mres /\
        (smr_is_physical r = true -> smr_paddr r <= pg_paddr (snd fr) < smr_paddr r + size) /\
        (smr_is_physical r = false -> pg_paddr (snd fr) = kextract (smr_addr r + off))) s') s.
Proof.
  intros Hi Hfind. apply wp_bind. eapply wp_mono; [now apply (mmap_check_spec pre) |]. simpl.
  intros [e | p] s' [-> Hr]; [now apply wp_ret |].
  destruct Hr as (? & [= <-] & _ & Hp & Hdrv & _). apply wp_bind. rewrite Hfind in Hp.
  eapply wp_mono; [now apply mmap_commit_spec |]. intros [[rc req'] obj] s' Hc. apply wp_ret.
  intros ? ? o [= <- <- ->]. destruct Hc as (-> & -> & _ & Hregs & _). subst p. simpl. split; [done |].
  split; [done |]. split; [done |]. intros kx off mres Hoff. unfold capio_pager_fault. apply wp_bind, wp_sc_get.
  rewrite Hregs, find_region_mark, Hfind. simpl.
  destruct (smr_type r =? mr_map_type req); simpl;
    destruct (smr_is_physical r), (pg_fictitious mres); apply wp_ret; simpl; repeat split; lia || done.
Qed.

(** A failed mmap, with other threads running between its tests and its
    allocations: the tests change nothing, whatever they answer; and from the
    state [s2] the allocations find, a failure changes nothing either, except
    that when the driver started dying meanwhile the call fails with ENXIO
    while the object it made stays alive. *)
Theorem capio_mmap_failure caps env offset size nprot req p s s2 :
  capio_inv pre s -> capio_inv pre s2 ->
  wp (mmap_check caps offset size nprot (Some req)) (fun _ s' => s' = s) s /\
  wp (mmap_commit env req p) (fun res s' =>
    let '(rc, _, obj) := res in
    obj = None -> rc <> 0 /\
      (s' = s2 \/ rc = ENXIO /\ live (mr_map_type req) (c_objs s')
                               = S (live (mr_map_type req) (c_objs s2)))) s2.
Proof.
  intros Hi Hi2. split.
  - eapply wp_mono; [now apply (mmap_check_spec pre) |]. now intros ? ? [-> _].
  - eapply wp_mono; [now apply mmap_commit_spec |]. intros [[rc req'] obj] s' Hc ->.
    destruct Hc as [Hrc [-> | [-> Ho]]]; [auto |].
    split; [done |]. right. split; [done |]. rewrite Ho, live_cons. now rewrite decide_True.
Qed.
End capio_mapping.
