(* ===== verification/CapioModel.v ===== *)
(** * A concrete CHERI machine for CAPIO

    A small model of Morello capabilities that satisfies the laws [Capio]
    assumes, a two-region driver, and the concrete runs: the witnesses of the
    theorems of [Capio] and the schedules in which CAPIO's mapping and revoke
    code does less than its callers expect. *)

From S2P Require Import Prelude Uapi Capio.
Local Open Scope Z_scope.

(** A capability: validity tag, object type (0 when unsealed), address and
    bounds. *)
Record mcap := MCap {
  mc_tag : bool;
  mc_otype : Z;
  mc_addr : Z;
  mc_base : Z;
  mc_len : Z;
}.

#[export] Instance mcap_eq_dec : EqDecision mcap.
Proof. solve_decision. Defined.

Definition mc_sealable (c k : mcap) : bool :=
  mc_tag c && (mc_otype c =? 0) && mc_tag k && negb (mc_addr k =? 0).

Definition mc_seal (c k : mcap) : mcap :=
  if mc_sealable c k then MCap true (mc_addr k) (mc_addr c) (mc_base c) (mc_len c)
  else MCap false (mc_otype c) (mc_addr c) (mc_base c) (mc_len c).

Definition mc_unseal (t k : mcap) : mcap :=
  MCap (mc_tag t && mc_tag k && (mc_otype t =? mc_addr k) && negb (mc_addr k =? 0))
    0 (mc_addr t) (mc_base t) (mc_len t).

#[export] Instance mcap_cheri : Cheri mcap := {
  cap_null := MCap false 0 0 0 0;
  cap_is_null c := mc_addr c =? 0;
  cap_tag := mc_tag;
  cap_base := mc_base;
  cap_set_address c a := MCap (mc_tag c) (mc_otype c) a (mc_base c) (mc_len c);
  cap_set_bounds c l := MCap (mc_tag c) (mc_otype c) (mc_addr c) (mc_addr c) l;
  cap_seal := mc_seal;
  cap_unseal := mc_unseal;
  cap_sealable := mc_sealable;
  kernel_root_sealcap := MCap true 0 0x4000 0x4000 0x4000;
}.

#[export] Instance mcap_laws : CheriLaws mcap.
Proof.
  split; simpl; unfold mc_sealable, mc_seal, mc_unseal.
  - done.
  - intros c k. now destruct (mc_sealable c k).
  - intros [] [] H. unfold mc_sealable. rewrite H. simpl in *.
    apply andb_prop in H as [[[-> ?]%andb_prop ->]%andb_prop ->]. f_equal; [| lia].
    now rewrite Z.eqb_refl.
  - intros [tt to ta tb tl] c [kt ko ka kb kl] <-. unfold mc_sealable. simpl. intros H.
    rewrite H. apply andb_prop in H as [[[-> ->]%andb_prop ?]%andb_prop ->]. simpl. f_equal. lia.
  - intros c k H. now apply andb_prop in H as [[[? _]%andb_prop _]%andb_prop _].
Qed.

(** A driver with a BAR region (type 1, two pages) and a DMA region (type 2,
    one page); its state is the dying flag. *)
#[export] Instance two_regions : CapioDriver bool unit := {
  drv_ioctl p := ret (0, p);
  drv_is_dying := gets id;
  drv_get_buffer_size _ t := ret (if t =? 1 then 8192 else if t =? 2 then 4096 else 0);
}.

#[export] Instance two_regions_laws : CapioDriverLaws bool unit.
Proof. by exists (fun _ => True). Defined.

Definition region1 : shared_mem_region := Region 1 true 0 0x50000000 0 8192 false false [] 0.
Definition region2 : shared_mem_region := Region 2 false 0x1000 0 0 4096 false false [] 0.

Definition user_a : mcap := MCap true 0 0x20000 0x20000 16.
Definition user_b : mcap := MCap true 0 0x30000 0x30000 16.

(** The zeroed softc, initialised, with [cdev->si_drv1] set. *)
Definition boot : cst mcap bool :=
  Cst true (CapioSoftc cap_null cap_null cap_null MtxUninit false []) false [].
Definition run_state {A} (m : ST (cst mcap bool) A) (s : cst mcap bool) : cst mcap bool :=
  match m s with Some (_, s') => s' | None => s end.
Definition ready : cst mcap bool := run_state (init_capio_sc [region1; region2]) boot.
Definition attached : cst mcap bool :=
  run_state (set_cap_token (CapReq user_a cap_null)) ready.
Definition token_a : mcap := cap_seal user_a (sealing_key (c_sc ready)).

Definition no_env : nat -> unmap_env := fun _ => UnmapEnv true 0 0 [].
Definition req1 (t : mcap) : map_req mcap := MapReq user_a t 1 false [] 0.
Definition mmap_ok : mmap_env := MmapEnv true true.

Lemma no_objs_exclusive (l : list (Z * bool)) :
  NoDup (map fst l) -> Forall (fun x => snd x = false) l -> exclusive (fun _ => False) l [].
Proof.
  intros Hnd Hf. rewrite Forall_forall in Hf.
  split; [done | done | intros t m Hin; cbn .. ]; [lia | | done].
  pose proof (Hf _ (proj1 (list_elem_of_In _ _) Hin)) as Hm. simpl in Hm. subst m. split; [done |]. intros [? | ?]; done.
Qed.

Lemma two_regions_exclusive :
  exclusive (fun _ => False) (region_flags [region1; region2]) [].
Proof.
  apply no_objs_exclusive; [| repeat constructor]. cbn. apply NoDup_ListNoDup.
  repeat constructor; cbn; lia.
Qed.

Lemma attached_inv : capio_inv (fun _ => False) attached.
Proof. split; [done | now right | done | exact two_regions_exclusive]. Qed.

Lemma capio_exclusive_mapping_witness :
  wp (run_events [EvMmap 24 mmap_ok 0 8192 3 (Some (req1 token_a)); EvTerminate 1;
                  EvIoctl no_env CAPIO_GOODBYE (CapReq user_a token_a) tt])
    (fun _ s' => cap_mtx (c_sc s') = MtxFree /\ token_ok (c_sc s') /\
       forall r, r ∈ shared_mem_regs (c_sc s') ->
         (live (smr_type r) (c_objs s') <= 1)%nat /\
         (smr_mapped r = true <-> live (smr_type r) (c_objs s') = 1%nat \/ False)) attached.
Proof. apply (capio_exclusive_mapping (fun _ => False)). exact attached_inv. Defined.

Lemma attached_holder : forall c, holder (c_sc attached) = Some c -> c = user_a.
Proof. vm_compute. congruence. Qed.

Lemma capio_session_refines_witness :
  wp (capio_ioctl_handler no_env CAPIO_GOODBYE (CapReq user_a token_a) tt) (fun r s' =>
    session_step (sealing_key (c_sc attached)) (holder (c_sc attached)) CAPIO_GOODBYE
      (CapReq user_a token_a) (fst (fst r)) (snd (fst r)) (holder (c_sc s'))) attached.
Proof.
  apply (capio_session_refines (fun _ => False)); [exact attached_inv | reflexivity |].
  intros c ->%attached_holder. reflexivity.
Defined.

Lemma capio_mmap_requires_token_witness :
  exists e, e <> 0 /\
    capio_mmap_single_extra 24 mmap_ok 0 8192 3 (Some (req1 user_b)) attached
    = Some ((e, Some (req1 user_b), None), attached).
Proof.
  apply (capio_mmap_requires_token (fun _ => False)); [exact attached_inv |].
  intros c ->%attached_holder. right. split; [reflexivity | discriminate].
Defined.

Lemma revoke_access_effect_witness :
  wp (revoke_access no_env) (fun _ s' =>
    holder (c_sc s') = None /\ sealing_key (c_sc s') = sealing_key (c_sc attached) /\
    map region_static (shared_mem_regs (c_sc s'))
      = map region_static (shared_mem_regs (c_sc attached)) /\
    forall i r, shared_mem_regs (c_sc s') !! i = Some r -> smr_offset r <> 0 ->
      unmap_fails (no_env i) = true) attached.
Proof. apply (revoke_access_effect (fun _ => False)). exact attached_inv. Defined.

Lemma capio_mapping_confined_witness :
  wp (capio_mmap_single_extra 24 mmap_ok 0 8192 3 (Some (req1 token_a))) (fun res s' =>
    forall rc req' o, res = (rc, req', Some o) -> rc = 0 /\ ob_size o = 8192 /\
      drv_get_buffer_size (shared_mem_regs (c_sc attached)) 1 (c_drv attached) = Some (ob_size o, c_drv attached) /\
      forall kextract off mres, 0 <= off < ob_size o ->
      wp (capio_pager_fault kextract (ob_type o) off mres) (fun fr _ =>
        fst fr = VM_PAGER_OK /\ pg_memattr (snd fr) = ob_memattr o /\ pg_valid (snd fr) = true /\
        pg_pindex (snd fr) = pg_pindex mres /\
        (true = true -> 0x50000000 <= pg_paddr (snd fr) < 0x50000000 + 8192) /\
        (true = false -> pg_paddr (snd fr) = kextract (0 + off))) s') attached.
Proof.
  apply (capio_mapping_confined (fun _ => False) 24 mmap_ok 0 8192 3 (req1 token_a) attached region1);
    [exact attached_inv | reflexivity].
Defined.

Lemma capio_mmap_failure_witness :
  wp (mmap_check 24 0 8192 3 (Some (req1 token_a))) (fun _ s' => s' = attached) attached /\
  wp (mmap_commit (MmapEnv true false) (req1 token_a) (MmapPlan false [] 0 VM_MEMATTR_DEVICE 8192))
    (fun res s' => let '(rc, _, obj) := res in
    obj = None -> rc <> 0 /\
      (s' = attached \/ rc = ENXIO /\ live 1 (c_objs s') = S (live 1 (c_objs attached)))) attached.
Proof.
  apply (capio_mmap_failure (fun _ => False) 24 (MmapEnv true false) 0 8192 3 (req1 token_a));
    exact attached_inv.
Defined.

(** ** Schedules *)

(** Two threads of the holder map the same region: both make the tests before
    either makes its object. *)
Definition mmap_race : ST (cst mcap bool) (Z * Z) :=
  let* c1 := mmap_check 24 0 8192 3 (Some (req1 token_a)) in
  let* c2 := mmap_check 24 0 8192 3 (Some (req1 token_a)) in
  match c1, c2 with
  | inr p1, inr p2 =>
      let* r1 := mmap_commit mmap_ok (req1 token_a) p1 in
      let* r2 := mmap_commit mmap_ok (req1 token_a) p2 in
      ret (fst (fst r1), fst (fst r2))
  | _, _ => panic
  end.

(** The driver starts dying between the tests of an mmap and its allocations. *)
Definition mmap_dying : ST (cst mcap bool) (Z * option capio_obj) :=
  let* c := mmap_check 24 0 8192 3 (Some (req1 token_a)) in
  do* modify (fun s => s <| c_drv := true |>);
  match c with
  | inr p => let* r := mmap_commit mmap_ok (req1 token_a) p in ret (fst (fst r), snd r)
  | inl _ => panic
  end.

(** The mapped flag is tested in one critical section and set in
    another, and the late dying check does not release the object it was
    given: two concurrent mmaps of one region both succeed and leave it with
    two live mappings, and an mmap overtaken by an unload returns ENXIO with
    the region still flagged and its object still alive. *)
Theorem capio_mmap_gap :
  wp mmap_race (fun r s' => r = (0, 0) /\ live 1 (c_objs s') = 2%nat) attached /\
  wp mmap_dying (fun r s' => r = (ENXIO, None) /\ live 1 (c_objs s') = 1%nat /\
                  map smr_mapped (shared_mem_regs (c_sc s')) = [true; false]) attached.
Proof. vm_compute. auto. Qed.

(** A session whose two regions are mapped at user addresses. *)
Definition mapped_both : cst mcap bool :=
  run_state (do* capio_vaddr_callback 0x100000 8192 1; capio_vaddr_callback 0x200000 4096 2) attached.
Definition first_fails : nat -> unmap_env := fun i =>
  match i with O => UnmapEnv true 0 5 [] | _ => UnmapEnv true 0 0 [] end.

(** Only the last region's result survives the revoke loop, and
    grant_access drops the result of the attach: a GOODBYE whose first region
    could not be unmapped returns success although the user keeps the mapping
    and the session is over, and grant_access reports success for a device
    another process holds. *)
Theorem capio_errors_lost :
  wp (revoke_access first_fails) (fun e s' =>
    e = 0 /\ holder (c_sc s') = None /\
    map smr_offset (shared_mem_regs (c_sc s')) = [0x100000; 0]) mapped_both /\
  wp (grant_access (CapReq user_b cap_null)) (fun r s' =>
    fst r = 0 /\ holder (c_sc s') = Some user_a) attached.
Proof. vm_compute. auto. Qed.

(** Attach does not look at the tag of the capability it seals: a
    process that attaches with an untagged value is given a token that is not
    sealed, and the untagged value itself, which anybody can construct,
    passes as the token. *)
Theorem untagged_attach_forgeable (a b l : Z) :
  a <> 0 ->
  wp (do* set_cap_token (CapReq (MCap false 0 a b l) cap_null);
      check_cap_token (MCap false 0 a b l)) (fun e _ => e = 0) ready.
Proof.
  intros Ha. apply wp_bind, wp_set_cap_token; [done |]. simpl.
  rewrite (proj2 (Z.eqb_neq a 0) Ha). simpl. apply wp_check_cap_token. unfold token_status. simpl.
  rewrite (proj2 (Z.eqb_neq a 0) Ha). unfold mc_unseal. simpl. now rewrite bool_decide_eq_true_2.
Qed.

Lemma untagged_attach_forgeable_witness :
  wp (do* set_cap_token (CapReq (MCap false 0 7 0 0) cap_null);
      check_cap_token (MCap false 0 7 0 0)) (fun e _ => e = 0) ready.
Proof. apply (untagged_attach_forgeable 7 0 0). discriminate. Defined.
