(* ===== verification/Softc.v ===== *)
(** * The driver's state and the machine it runs on

    [sfc7120_softc] (sfc7120.h), grouped by the sections of the struct; the
    memory the driver shares with the NIC; and the [world]: softc, shared
    memory, device, the log of register writes, the time spent in delays, the
    kernel resources the driver owns and the answers of fallible kernel
    services, and the history of the commands given to the controller.

    The NIC is a parameter, a [Device]: any function of its own state and the
    shared memory, which it may change whenever the driver touches a register,
    waits, or synchronises a DMA map for reading. *)

From S2P Require Import Prelude Uapi.
Local Open Scope Z_scope.

(** ** The softc *)

(** A DMA allocation: its kernel pointer and tag (non-NULL or not) and its
    bus address. *)
Record dmabuf := DmaBuf {
  db_vaddr : bool;
  db_paddr : Z;
  db_tag : bool;
}.
#[export] Instance eta_dmabuf : Eta dmabuf := fun b => DmaBuf (db_vaddr b) (db_paddr b) (db_tag b).

Definition dmabuf_null : dmabuf := DmaBuf false 0 false.

Record dmabufs := DmaBufs {
  evq_ring : dmabuf;
  data_evq_ring : dmabuf;
  tx_desc_ring : dmabuf;
  rx_desc_ring : dmabuf;
  tx_buffer : dmabuf;
  rx_buffer : dmabuf;
  stats_buf : dmabuf;
  mcdi_buf : dmabuf;
}.
#[export] Instance eta_dmabufs : Eta dmabufs := fun b =>
  DmaBufs (evq_ring b) (data_evq_ring b) (tx_desc_ring b) (rx_desc_ring b) (tx_buffer b)
    (rx_buffer b) (stats_buf b) (mcdi_buf b).

(** The allocations by name. *)
Inductive dma_name :=
  NEvq | NDataEvq | NTxDesc | NRxDesc | NTxBuf | NRxBuf | NStats | NMcdi.

#[export] Instance dma_name_eq_dec : EqDecision dma_name.
Proof. solve_decision. Defined.

Definition dmabuf_of (n : dma_name) (b : dmabufs) : dmabuf :=
  match n with
  | NEvq => evq_ring b | NDataEvq => data_evq_ring b
  | NTxDesc => tx_desc_ring b | NRxDesc => rx_desc_ring b
  | NTxBuf => tx_buffer b | NRxBuf => rx_buffer b
  | NStats => stats_buf b | NMcdi => mcdi_buf b
  end.

Definition upd_dmabuf (n : dma_name) (f : dmabuf -> dmabuf) (b : dmabufs) : dmabufs :=
  match n with
  | NEvq => b <| evq_ring ::= f |> | NDataEvq => b <| data_evq_ring ::= f |>
  | NTxDesc => b <| tx_desc_ring ::= f |> | NRxDesc => b <| rx_desc_ring ::= f |>
  | NTxBuf => b <| tx_buffer ::= f |> | NRxBuf => b <| rx_buffer ::= f |>
  | NStats => b <| stats_buf ::= f |> | NMcdi => b <| mcdi_buf ::= f |>
  end.

Lemma dmabuf_of_upd_eq n f b : dmabuf_of n (upd_dmabuf n f b) = f (dmabuf_of n b).
Proof. now destruct n. Qed.

Lemma dmabuf_of_upd_ne n m f b : n <> m -> dmabuf_of n (upd_dmabuf m f b) = dmabuf_of n b.
Proof. now destruct n, m. Qed.

(** PCI, BAR and interrupt resources. *)
Record pci_res := PciRes {
  mem_resource : bool;
  msix_bar_resource : bool;
  msix_nvec : Z;
  irq_resource : bool;
  irq_handle : bool;
  intr_initialized : bool;
  rx_taskqueue : bool;
}.
#[export] Instance eta_pci_res : Eta pci_res := fun p =>
  PciRes (mem_resource p) (msix_bar_resource p) (msix_nvec p) (irq_resource p)
    (irq_handle p) (intr_initialized p) (rx_taskqueue p).

(** Producer and consumer indices. *)
Record rings := Rings {
  evq_read_ptr : Z;
  data_evq_read_ptr : Z;
  tx_head : Z;
  rx_head : Z;
}.
#[export] Instance eta_rings : Eta rings := fun r =>
  Rings (evq_read_ptr r) (data_evq_read_ptr r) (tx_head r) (rx_head r).

Record lifecycle := Lifecycle {
  device_attached : bool;
  cdev : bool;
  sc_mtx : mtx;
  rx_mtx : mtx;
  dying : bool;
  rx_received : bool;
}.
#[export] Instance eta_lifecycle : Eta lifecycle := fun l =>
  Lifecycle (device_attached l) (cdev l) (sc_mtx l) (rx_mtx l) (dying l) (rx_received l).

(** MCDI bookkeeping. *)
Record mcdi_state := McdiState {
  mcdi_mtx : mtx;
  mcdi_seq : Z;
  mcdi_new_epoch : bool;
  mcdi_initialized : bool;
  mcdi_prev_reboot_status : Z;
}.
#[export] Instance eta_mcdi_state : Eta mcdi_state := fun m =>
  McdiState (mcdi_mtx m) (mcdi_seq m) (mcdi_new_epoch m) (mcdi_initialized m)
    (mcdi_prev_reboot_status m).

(** What the firmware granted this function. *)
Record fw_state := FwState {
  mcdi_func_flags : Z;
  vi_base : Z;
  vi_count : Z;
  mcdi_cap_flags1 : Z;
  mcdi_caps_valid : bool;
  fw_version : Z * Z;
  drv_attached : bool;
  vis_allocated : bool;
  evq_initialized : bool;
  data_evq_initialized : bool;
  vadaptor_allocated : bool;
  rxq_initialized : bool;
  txq_initialized : bool;
  rx_filter_handle : Z;
  rx_filter_bcast_handle : Z;
  rx_filter_inserted : bool;
  mac_addr : list Z;
}.
#[export] Instance eta_fw_state : Eta fw_state := fun f =>
  FwState (mcdi_func_flags f) (vi_base f) (vi_count f) (mcdi_cap_flags1 f) (mcdi_caps_valid f)
    (fw_version f) (drv_attached f) (vis_allocated f) (evq_initialized f)
    (data_evq_initialized f) (vadaptor_allocated f) (rxq_initialized f) (txq_initialized f)
    (rx_filter_handle f) (rx_filter_bcast_handle f) (rx_filter_inserted f) (mac_addr f).

(** PHY capability cache and link state. *)
Record link_state := LinkState {
  phy_supported_cap_mask : Z;
  phy_adv_cap_mask : Z;
  phy_media_type : Z;
  link_up : bool;
  full_duplex : bool;
  link_speed_mbps : Z;
  link_fcntl : Z;
  mac_configured : bool;
  link_configured : bool;
}.
#[export] Instance eta_link_state : Eta link_state := fun l =>
  LinkState (phy_supported_cap_mask l) (phy_adv_cap_mask l) (phy_media_type l) (link_up l)
    (full_duplex l) (link_speed_mbps l) (link_fcntl l) (mac_configured l) (link_configured l).

Record sfc7120_softc := Softc {
  sc_pci : pci_res;
  sc_dma : dmabufs;
  sc_rings : rings;
  sc_life : lifecycle;
  sc_mcdi : mcdi_state;
  sc_fw : fw_state;
  sc_link : link_state;
}.
#[export] Instance eta_softc : Eta sfc7120_softc := fun s =>
  Softc (sc_pci s) (sc_dma s) (sc_rings s) (sc_life s) (sc_mcdi s) (sc_fw s) (sc_link s).

(** The zeroed softc the kernel hands to attach. *)
Definition softc_zero : sfc7120_softc :=
  Softc (PciRes false false 0 false false false false)
    (DmaBufs dmabuf_null dmabuf_null dmabuf_null dmabuf_null dmabuf_null dmabuf_null
       dmabuf_null dmabuf_null)
    (Rings 0 0 0 0)
    (Lifecycle false false MtxUninit MtxUninit false false)
    (McdiState MtxUninit 0 false false 0)
    (FwState 0 0 0 0 false (0, 0) false false false false false false false 0 0 false
       (replicate 6 0))
    (LinkState 0 0 0 false false 0 0 false false).

(** ** Shared memory *)

(** The contents of the DMA allocations: the mailbox as bytes, the rings as
    64-bit words, the packet buffers as bytes by offset, the statistics block
    as 64-bit words. *)
Record dma := Dma {
  mbox : list Z;
  evq : list Z;
  data_evq : list Z;
  tx_ring : list Z;
  rx_ring : list Z;
  tx_mem : Z -> Z;
  rx_mem : Z -> Z;
  stats : list Z;
}.
#[export] Instance eta_dma : Eta dma := fun d =>
  Dma (mbox d) (evq d) (data_evq d) (tx_ring d) (rx_ring d) (tx_mem d) (rx_mem d) (stats d).

Record dma_wf (d : dma) : Prop := {
  wf_mbox : length (mbox d) = 256%nat /\ Forall is_byte (mbox d);
  wf_evq : length (evq d) = 512%nat /\ length (data_evq d) = 512%nat;
  wf_desc : length (tx_ring d) = 512%nat /\ length (rx_ring d) = 512%nat;
  wf_rx : forall o, is_byte (rx_mem d o);
}.

(** The memory bus_dmamem_alloc returns with BUS_DMA_ZERO. *)
Definition dma_zero (n : dma_name) (d : dma) : dma :=
  match n with
  | NEvq => d <| evq := replicate 512 0 |>
  | NDataEvq => d <| data_evq := replicate 512 0 |>
  | NTxDesc => d <| tx_ring := replicate 512 0 |>
  | NRxDesc => d <| rx_ring := replicate 512 0 |>
  | NTxBuf => d <| tx_mem := fun _ => 0 |>
  | NRxBuf => d <| rx_mem := fun _ => 0 |>
  | NStats => d <| stats := replicate 512 0 |>
  | NMcdi => d <| mbox := replicate 256 0 |>
  end.

Lemma dma_zero_wf n d : dma_wf d -> dma_wf (dma_zero n d).
Proof.
  intros [[? ?] [? ?] [? ?] ?].
  destruct n; split; simpl; auto; [intros; unfold is_byte; lia |].
  split; [done |]. apply Forall_replicate. unfold is_byte. lia.
Qed.

(** ** The device *)

Class Device (D : Type) := {
  dev_write : Z -> Z -> D * dma -> D * dma;      (* a 32-bit register write *)
  dev_read : Z -> D * dma -> Z * (D * dma);      (* a 32-bit register read *)
  dev_delay : Z -> D * dma -> D * dma;           (* this many microseconds pass *)
  dev_sync : D * dma -> D * dma;                 (* what has landed by a POSTREAD sync *)
}.

(** The NIC writes bytes into bytes and words into words. *)
Class DeviceLaws (D : Type) `{!Device D} := {
  dev_write_wf : forall r v x, dma_wf (snd x) -> dma_wf (snd (dev_write r v x));
  dev_read_wf : forall r x, dma_wf (snd x) -> dma_wf (snd (snd (dev_read r x)));
  dev_delay_wf : forall us x, dma_wf (snd x) -> dma_wf (snd (dev_delay us x));
  dev_sync_wf : forall x, dma_wf (snd x) -> dma_wf (snd (dev_sync x));
}.

(** ** The world *)

(** Kernel objects the driver allocates and must give back. *)
Inductive resource :=
  | RBar2
  | RDmaTag (n : dma_name) | RDmaMem (n : dma_name) | RDmaMap (n : dma_name)
  | RMsixBar | RMsix | RIrq | RIrqHandler | RTaskqueue
  | RBusMaster
  | RCdev | RVaddrCallback | RSliceCallback.

#[export] Instance resource_eq_dec : EqDecision resource.
Proof. solve_decision. Defined.

Record world (D : Type) := World {
  w_sc : sfc7120_softc;
  w_dma : dma;
  w_dev : D;
  w_log : list (Z * Z);
  w_time : Z;
  w_owned : list resource;
  w_ext : list Z;
  w_cmds : list (Z * list Z);
}.
Arguments World {D}. Arguments w_sc {D}. Arguments w_dma {D}. Arguments w_dev {D}.
Arguments w_log {D}. Arguments w_time {D}. Arguments w_owned {D}. Arguments w_ext {D}.
Arguments w_cmds {D}.

#[export] Instance eta_world D : Eta (world D) := fun w =>
  World (w_sc w) (w_dma w) (w_dev w) (w_log w) (w_time w) (w_owned w) (w_ext w) (w_cmds w).

Section world.
Context {D : Type} `{!Device D}.
Abbreviation world := (world D).

Definition mod_sc (f : sfc7120_softc -> sfc7120_softc) : ST world unit :=
  modify (fun w => w <| w_sc ::= f |>).
Definition mod_dma (f : dma -> dma) : ST world unit :=
  modify (fun w => w <| w_dma ::= f |>).
Definition mod_fw (f : fw_state -> fw_state) : ST world unit :=
  mod_sc (fun sc => sc <| sc_fw ::= f |>).
Definition mod_link (f : link_state -> link_state) : ST world unit :=
  mod_sc (fun sc => sc <| sc_link ::= f |>).
Definition mod_mcdi (f : mcdi_state -> mcdi_state) : ST world unit :=
  mod_sc (fun sc => sc <| sc_mcdi ::= f |>).
Definition mod_rings (f : rings -> rings) : ST world unit :=
  mod_sc (fun sc => sc <| sc_rings ::= f |>).
Definition mod_pci (f : pci_res -> pci_res) : ST world unit :=
  mod_sc (fun sc => sc <| sc_pci ::= f |>).
Definition mod_life (f : lifecycle -> lifecycle) : ST world unit :=
  mod_sc (fun sc => sc <| sc_life ::= f |>).
Definition get_sc {A} (f : sfc7120_softc -> A) : ST world A := gets (fun w => f (w_sc w)).

(** Give the device a turn. *)
Definition dev_step (f : D * dma -> D * dma) : ST world unit :=
  modify (fun w => let '(d, m) := f (w_dev w, w_dma w) in
                   w <| w_dev := d |> <| w_dma := m |>).

Definition SFC7120_WRITE_REG (off v : Z) : ST world unit :=
  do* modify (fun w => w <| w_log ::= fun l => l ++ [(off, u32 v)] |>);
  dev_step (dev_write off (u32 v)).

Definition SFC7120_READ_REG (off : Z) : ST world Z := fun w =>
  let '(v, (d, m)) := dev_read off (w_dev w, w_dma w) in
  Some (u32 v, w <| w_dev := d |> <| w_dma := m |>).

Definition DELAY (us : Z) : ST world unit :=
  do* modify (fun w => w <| w_time ::= Z.add us |>);
  dev_step (dev_delay us).

(** bus_dmamap_sync with BUS_DMASYNC_POSTREAD: the device's writes so far
    become visible.  A PREWRITE sync orders the driver's own writes before the
    next register write, which in this sequential model they already are. *)
Definition sync_postread : ST world unit := dev_step dev_sync.
Definition sync_prewrite : ST world unit := ret tt.

(** The answer of the next fallible kernel service. *)
Definition ext : ST world Z :=
  let* l := gets w_ext in
  match l with
  | [] => ret 0
  | v :: l' => do* modify (fun w => w <| w_ext := l' |>); ret v
  end.

Fixpoint drop_resource (r : resource) (l : list resource) : list resource :=
  match l with
  | [] => []
  | x :: l' => if decide (x = r) then l' else x :: drop_resource r l'
  end.

Definition own (r : resource) : ST world unit :=
  modify (fun w => w <| w_owned ::= cons r |>).

(** Giving back something the driver does not own is a double free. *)
Definition disown (r : resource) : ST world unit :=
  do* kassert (fun w => bool_decide (r ∈ w_owned w));
  modify (fun w => w <| w_owned ::= drop_resource r |>).

(** ** bus_dma(9)

    Creating a tag, allocating the memory and loading the map can each fail.
    A load that succeeds gives a bus address with the alignment of the tag
    (0 when it yielded no segment). *)

Definition mod_dmabuf (n : dma_name) (f : dmabuf -> dmabuf) : ST world unit :=
  mod_sc (fun sc => sc <| sc_dma ::= upd_dmabuf n f |>).

Definition bus_address (align v : Z) : Z := u64 v / align * align.

Definition bus_dma_tag_create (n : dma_name) : ST world Z :=
  let* error := ext in
  if error =? 0 then
    do* own (RDmaTag n);
    do* mod_dmabuf n (fun b => b <| db_tag := true |>);
    ret 0
  else ret error.

Definition bus_dmamem_alloc (n : dma_name) : ST world Z :=
  let* error := ext in
  if error =? 0 then
    do* own (RDmaMem n);
    do* mod_dmabuf n (fun b => b <| db_vaddr := true |>);
    do* mod_dma (dma_zero n);
    ret 0
  else ret error.

Definition bus_dmamap_load (n : dma_name) (align : Z) : ST world Z :=
  let* error := ext in
  if error =? 0 then
    let* v := ext in
    do* mod_dmabuf n (fun b => b <| db_paddr := bus_address align v |>);
    do* (if bus_address align v =? 0 then ret tt else own (RDmaMap n));
    ret 0
  else ret error.

Definition bus_dmamap_unload (n : dma_name) : ST world unit := disown (RDmaMap n).
Definition bus_dmamem_free (n : dma_name) : ST world unit := disown (RDmaMem n).
Definition bus_dma_tag_destroy (n : dma_name) : ST world unit := disown (RDmaTag n).

(** Symbolic execution of the primitives. *)
Lemma wp_mod_sc f (Q : unit -> world -> Prop) w : Q tt (w <| w_sc ::= f |>) -> wp (mod_sc f) Q w.
Proof. done. Qed.
Lemma wp_get_sc {A} (f : sfc7120_softc -> A) (Q : A -> world -> Prop) w :
  Q (f (w_sc w)) w -> wp (get_sc f) Q w.
Proof. done. Qed.
Lemma wp_mod_dma f (Q : unit -> world -> Prop) w : Q tt (w <| w_dma ::= f |>) -> wp (mod_dma f) Q w.
Proof. done. Qed.

Lemma wp_ext (Q : Z -> world -> Prop) w :
  (forall v l, Q v (w <| w_ext := l |>)) -> wp ext Q w.
Proof.
  intros HQ. unfold ext, wp, bind, gets, ret. destruct (w_ext w) as [| v l] eqn:He.
  - specialize (HQ 0 (w_ext w)). destruct w. simpl in *. now subst.
  - apply HQ.
Qed.

(** What an interaction with the device leaves alone: the driver's state, its
    resources and the kernel's later answers.  The log only grows. *)
Record dev_frame (w w' : world) : Prop := {
  df_sc : w_sc w' = w_sc w;
  df_owned : w_owned w' = w_owned w;
  df_ext : w_ext w' = w_ext w;
  df_log : exists l, w_log w' = w_log w ++ l;
  df_cmds : w_cmds w' = w_cmds w;
  df_time : w_time w <= w_time w';
}.

Lemma dev_frame_refl w : dev_frame w w.
Proof. split; try done; try lia. exists []. now rewrite app_nil_r. Qed.

Lemma dev_frame_trans w1 w2 w3 : dev_frame w1 w2 -> dev_frame w2 w3 -> dev_frame w1 w3.
Proof.
  intros [? ? ? [l1 H1] ? ?] [? ? ? [l2 H2] ? ?]. split; try congruence; try lia.
  exists (l1 ++ l2). now rewrite H2, H1, app_assoc.
Qed.

Context `{!DeviceLaws D}.

Definition w_wf (w : world) : Prop := dma_wf (w_dma w).

Lemma wp_dev_step f (Q : unit -> world -> Prop) w :
  (forall x, dma_wf (snd x) -> dma_wf (snd (f x))) -> w_wf w ->
  (forall d m, dma_wf m -> Q tt (w <| w_dev := d |> <| w_dma := m |>)) ->
  wp (dev_step f) Q w.
Proof.
  intros Hf Hw HQ. unfold dev_step. apply wp_modify. specialize (Hf (w_dev w, w_dma w) Hw).
  destruct (f (w_dev w, w_dma w)) as [d m]. now apply HQ.
Qed.

Lemma wp_WRITE_REG off v (Q : unit -> world -> Prop) w :
  w_wf w ->
  (forall d m, dma_wf m ->
     Q tt (w <| w_log ::= fun l => l ++ [(off, u32 v)] |> <| w_dev := d |> <| w_dma := m |>)) ->
  wp (SFC7120_WRITE_REG off v) Q w.
Proof.
  intros Hw HQ. apply wp_bind, wp_modify. apply wp_dev_step; [apply dev_write_wf | done |]. apply HQ.
Qed.

(** The same, with what the device was given. *)
Lemma wp_WRITE_REG_dev off v (Q : unit -> world -> Prop) w :
  w_wf w ->
  (forall w', w_sc w' = w_sc w -> w_owned w' = w_owned w -> w_ext w' = w_ext w -> w_cmds w' = w_cmds w ->
     w_time w' = w_time w -> w_log w' = w_log w ++ [(off, u32 v)] -> w_wf w' ->
     (w_dev w', w_dma w') = dev_write off (u32 v) (w_dev w, w_dma w) -> Q tt w') ->
  wp (SFC7120_WRITE_REG off v) Q w.
Proof.
  intros Hw HQ. apply wp_bind, wp_modify. unfold dev_step. apply wp_modify.
  pose proof (dev_write_wf off (u32 v) (w_dev w, w_dma w) Hw) as Hwf. cbn [w_dev w_dma upd].
  destruct (dev_write off (u32 v) (w_dev w, w_dma w)) as [d m]. now apply HQ.
Qed.

Lemma wp_READ_REG off (Q : Z -> world -> Prop) w :
  w_wf w ->
  (forall v d m, dma_wf m -> Q (u32 v) (w <| w_dev := d |> <| w_dma := m |>)) ->
  wp (SFC7120_READ_REG off) Q w.
Proof.
  intros Hw HQ. unfold wp, SFC7120_READ_REG. pose proof (dev_read_wf off (w_dev w, w_dma w) Hw) as Hr.
  destruct (dev_read off _) as [v [d m]]. now apply HQ.
Qed.

Lemma wp_DELAY us (Q : unit -> world -> Prop) w :
  w_wf w ->
  (forall d m, dma_wf m -> Q tt (w <| w_time ::= Z.add us |> <| w_dev := d |> <| w_dma := m |>)) ->
  wp (DELAY us) Q w.
Proof.
  intros Hw HQ. apply wp_bind, wp_modify. apply wp_dev_step; [apply dev_delay_wf | done |]. apply HQ.
Qed.

Lemma wp_sync_postread (Q : unit -> world -> Prop) w :
  w_wf w -> (forall d m, dma_wf m -> Q tt (w <| w_dev := d |> <| w_dma := m |>)) ->
  wp sync_postread Q w.
Proof. intros Hw HQ. now apply wp_dev_step; [apply dev_sync_wf | |]. Qed.

(** Shared memory once the device's writes are visible. *)
Definition synced (w : world) : world :=
  w <| w_dev := fst (dev_sync (w_dev w, w_dma w)) |> <| w_dma := snd (dev_sync (w_dev w, w_dma w)) |>.

Lemma wp_synced (Q : unit -> world -> Prop) w : Q tt (synced w) -> wp sync_postread Q w.
Proof. unfold sync_postread, dev_step, synced, wp, modify. now destruct (dev_sync _). Qed.

Lemma synced_wf w : w_wf w -> w_wf (synced w).
Proof. intros Hw. exact (dev_sync_wf (w_dev w, w_dma w) Hw). Qed.

(** The device after a delay. *)
Definition delayed (us : Z) (w : world) : world :=
  w <| w_time ::= Z.add us |> <| w_dev := fst (dev_delay us (w_dev w, w_dma w)) |>
    <| w_dma := snd (dev_delay us (w_dev w, w_dma w)) |>.

Lemma wp_delayed us (Q : unit -> world -> Prop) w : Q tt (delayed us w) -> wp (DELAY us) Q w.
Proof. unfold DELAY, dev_step, delayed, wp, bind, modify. cbn. now destruct (dev_delay us _). Qed.

Lemma delayed_wf us w : w_wf w -> w_wf (delayed us w).
Proof. intros Hw. exact (dev_delay_wf us (w_dev w, w_dma w) Hw). Qed.

Lemma synced_frame w : dev_frame w (synced w).
Proof. split; try done; try lia. exists []. now rewrite app_nil_r. Qed.

Lemma delayed_frame us w : 0 <= us -> dev_frame w (delayed us w).
Proof. intros Hus. split; cbn; try done; try lia. exists []. now rewrite app_nil_r. Qed.

Lemma wp_own r (Q : unit -> world -> Prop) w :
  Q tt (w <| w_owned ::= cons r |>) -> wp (own r) Q w.
Proof. done. Qed.

Lemma wp_disown r (Q : unit -> world -> Prop) w :
  r ∈ w_owned w -> Q tt (w <| w_owned ::= drop_resource r |>) -> wp (disown r) Q w.
Proof.
  intros Hin HQ. apply wp_bind, wp_kassert; [now apply bool_decide_eq_true_2 |]. exact HQ.
Qed.
End world.
