(* ===== verification/Dma.v ===== *)
(** * DMA buffers (sfc7120.c)

    [sfc7120_alloc_dmabuf] and [sfc7120_free_dmabuf], the allocation of the
    driver's six rings and buffers and its unwinding, and the accounting of
    what they own: an allocation either gives a live buffer or gives back all
    it took, and the reverse order of the failure labels is right. *)

From stdpp Require Import sets.
From S2P Require Import Prelude Uapi Desc Softc.
Local Open Scope Z_scope.

Section dma.
Context {D : Type} `{!Device D}.
Abbreviation world := (world D).

Definition get_dmabuf (n : dma_name) : ST world dmabuf :=
  get_sc (fun sc => dmabuf_of n (sc_dma sc)).

Definition sfc7120_alloc_dmabuf (n : dma_name) (align : Z) : ST world Z :=
  let* error := bus_dma_tag_create n in
  if negb (error =? 0) then ret error
  else
  let* error := bus_dmamem_alloc n in
  if negb (error =? 0) then
    do* bus_dma_tag_destroy n;
    do* mod_dmabuf n (fun b => b <| db_tag := false |>);
    ret error
  else
  do* mod_dmabuf n (fun b => b <| db_paddr := 0 |>);
  let* error := bus_dmamap_load n align in
  let* b := get_dmabuf n in
  if negb (error =? 0) || (db_paddr b =? 0) then
    do* bus_dmamem_free n;
    do* bus_dma_tag_destroy n;
    do* mod_dmabuf n (fun b => b <| db_vaddr := false |> <| db_tag := false |>);
    ret (if negb (error =? 0) then error else ENOMEM)
  else ret 0.

Definition sfc7120_free_dmabuf (n : dma_name) : ST world unit :=
  let* b := get_dmabuf n in
  do* (if negb (db_paddr b =? 0) then
         do* bus_dmamap_unload n;
         mod_dmabuf n (fun b => b <| db_paddr := 0 |>)
       else ret tt);
  do* (if db_vaddr b then
         do* bus_dmamem_free n;
         mod_dmabuf n (fun b => b <| db_vaddr := false |>)
       else ret tt);
  if db_tag b then
    do* bus_dma_tag_destroy n;
    mod_dmabuf n (fun b => b <| db_tag := false |>)
  else ret tt.

Definition PAGE_SIZE : Z := 4096.

(** The labels of the failure path, from the last to the first. *)
Definition fail_evq (error : Z) : ST world Z := do* sfc7120_free_dmabuf NEvq; ret error.
Definition fail_data_evq (error : Z) : ST world Z := do* sfc7120_free_dmabuf NDataEvq; fail_evq error.
Definition fail_txd (error : Z) : ST world Z := do* sfc7120_free_dmabuf NTxDesc; fail_data_evq error.
Definition fail_rxd (error : Z) : ST world Z := do* sfc7120_free_dmabuf NRxDesc; fail_txd error.
Definition fail_txb (error : Z) : ST world Z := do* sfc7120_free_dmabuf NTxBuf; fail_rxd error.

(** memset(ring, 0xff, evq_size) *)
Definition ring_primed : list Z := replicate 512 EV_EMPTY.

Definition sfc7120_alloc_dma_resources : ST world Z :=
  let* error := sfc7120_alloc_dmabuf NEvq 4096 in
  if negb (error =? 0) then ret error
  else
  do* mod_dma (fun d => d <| evq := ring_primed |>);
  let* error := sfc7120_alloc_dmabuf NDataEvq 4096 in
  if negb (error =? 0) then fail_evq error
  else
  do* mod_dma (fun d => d <| data_evq := ring_primed |>);
  let* error := sfc7120_alloc_dmabuf NTxDesc 4096 in
  if negb (error =? 0) then fail_data_evq error
  else
  let* error := sfc7120_alloc_dmabuf NRxDesc 4096 in
  if negb (error =? 0) then fail_txd error
  else
  let* error := sfc7120_alloc_dmabuf NTxBuf PAGE_SIZE in
  if negb (error =? 0) then fail_rxd error
  else
  let* error := sfc7120_alloc_dmabuf NRxBuf PAGE_SIZE in
  if negb (error =? 0) then fail_txb error
  else
  let* error := sfc7120_alloc_dmabuf NStats 4096 in
  do* (if negb (error =? 0) then mod_dmabuf NStats (fun b => b <| db_vaddr := false |>)
       else ret tt);
  ret 0.

Definition sfc7120_free_dma_resources : ST world unit :=
  do* sfc7120_free_dmabuf NRxBuf;
  do* sfc7120_free_dmabuf NTxBuf;
  do* sfc7120_free_dmabuf NRxDesc;
  do* sfc7120_free_dmabuf NTxDesc;
  do* sfc7120_free_dmabuf NDataEvq;
  sfc7120_free_dmabuf NEvq.

(** ** Accounting *)

Definition dma_res (n : dma_name) : list resource := [RDmaMap n; RDmaMem n; RDmaTag n].

Definition live_buf (b : dmabuf) : Prop :=
  db_vaddr b = true /\ db_tag b = true /\ 0 < db_paddr b < 2 ^ 64 /\ db_paddr b mod 256 = 0.

(** Exactly the buffers [ns] are live, and the driver owns their kernel
    objects and [base]. *)
Record dma_state (ns : list dma_name) (base : list resource) (w : world) : Prop := {
  ds_live : forall n, n ∈ ns -> live_buf (dmabuf_of n (sc_dma (w_sc w)));
  ds_null : forall n, n ∉ ns -> dmabuf_of n (sc_dma (w_sc w)) = dmabuf_null;
  ds_owned : w_owned w ≡ₚ flat_map dma_res ns ++ base;
  ds_wf : w_wf w;
}.

(** What these functions leave alone. *)
Record dma_frame (w w' : world) : Prop := {
  dm_pci : sc_pci (w_sc w') = sc_pci (w_sc w);
  dm_rings : sc_rings (w_sc w') = sc_rings (w_sc w);
  dm_life : sc_life (w_sc w') = sc_life (w_sc w);
  dm_mcdi : sc_mcdi (w_sc w') = sc_mcdi (w_sc w);
  dm_fw : sc_fw (w_sc w') = sc_fw (w_sc w);
  dm_link : sc_link (w_sc w') = sc_link (w_sc w);
  dm_dev : w_dev w' = w_dev w;
  dm_log : w_log w' = w_log w;
  dm_time : w_time w' = w_time w;
  dm_cmds : w_cmds w' = w_cmds w;
}.

Lemma dma_frame_refl w : dma_frame w w.
Proof. done. Qed.

Lemma dma_frame_trans w1 w2 w3 : dma_frame w1 w2 -> dma_frame w2 w3 -> dma_frame w1 w3.
Proof. intros [] []. split; congruence. Qed.

Lemma dma_state_perm_1 ns ns' base base' w :
  ns ≡ₚ ns' -> base ≡ₚ base' -> dma_state ns base w -> dma_state ns' base' w.
Proof.
  intros Hns Hb [Hl Hn Ho Hw]. split; [intros n; rewrite <- Hns; auto .. | | done].
  rewrite Ho, Hb. f_equiv. now apply Permutation_flat_map.
Qed.

#[export] Instance dma_state_perm : Proper ((≡ₚ) ==> (≡ₚ) ==> (=) ==> iff) dma_state.
Proof.
  intros ns ns' Hns base base' Hb w ? <-. split; apply dma_state_perm_1; try done; now symmetry.
Qed.

(** ** Ownership rules *)

Lemma drop_resource_perm r l l' : l ≡ₚ r :: l' -> drop_resource r l ≡ₚ l'.
Proof.
  intros Hp. apply (Permutation_cons_inv (a := r)). rewrite <- Hp.
  assert (r ∈ l) as Hin by (rewrite Hp; set_solver). clear Hp.
  induction l as [| x l IH]; [set_solver |]. cbn [drop_resource].
  destruct (decide (x = r)) as [-> | Hne]; [done |].
  rewrite Permutation_swap. f_equiv. apply IH. set_solver.
Qed.

Lemma wp_disown_perm r rest (Q : unit -> world -> Prop) w :
  w_owned w ≡ₚ r :: rest ->
  (forall l, l ≡ₚ rest -> Q tt (w <| w_owned := l |>)) -> wp (disown r) Q w.
Proof.
  intros Hp HQ. apply wp_disown; [rewrite Hp; set_solver |].
  apply (HQ (drop_resource r (w_owned w))). now apply drop_resource_perm.
Qed.

Lemma bus_address_bound align v : 0 < align -> 0 <= bus_address align v < 2 ^ 64.
Proof.
  intros Ha. unfold bus_address, u64. pose proof (Z.mod_pos_bound v (2 ^ 64) ltac:(lia)).
  pose proof (Z.mul_div_le (v mod 2 ^ 64) align Ha). pose proof (Z.div_pos (v mod 2 ^ 64) align). lia.
Qed.

Lemma bus_address_aligned k v : bus_address (256 * k) v mod 256 = 0.
Proof. unfold bus_address. rewrite (Z.mul_comm 256 k), Z.mul_assoc. apply Z.mod_mul. lia. Qed.

Arguments dmabuf_of : simpl never.
Arguments upd_dmabuf : simpl never.

(** A state reached from [w] by changing one buffer's descriptor, the owned
    resources, the contents of the buffer and the kernel's later answers. *)
Definition with_buf (n : dma_name) (f : dmabuf -> dmabuf) (owned : list resource) (m : dma)
    (l : list Z) (w : world) : world :=
  w <| w_sc ::= fun sc => sc <| sc_dma ::= upd_dmabuf n f |> |>
    <| w_owned := owned |> <| w_dma := m |> <| w_ext := l |>.

Lemma with_buf_frame n f o m l w : dma_frame w (with_buf n f o m l w).
Proof. done. Qed.

(** Such a state has the buffers of [w] but for [n]. *)
Lemma with_buf_state ns base n f o m l w :
  dma_state ns base w -> n ∉ ns -> dma_wf m -> f dmabuf_null = dmabuf_null -> o ≡ₚ w_owned w ->
  dma_state ns base (with_buf n f o m l w).
Proof.
  intros [Hl Hn Ho Hw] Hni Hm Hf Hp. split; simpl.
  - intros k Hk. rewrite dmabuf_of_upd_ne; [auto | set_solver].
  - intros k Hk. destruct (decide (k = n)) as [-> | Hne].
    + rewrite dmabuf_of_upd_eq, Hn by done. exact Hf.
    + rewrite dmabuf_of_upd_ne by done. auto.
  - now rewrite Hp.
  - exact Hm.
Qed.

Lemma with_buf_live ns base n f o m l w :
  dma_state ns base w -> n ∉ ns -> dma_wf m -> live_buf (f dmabuf_null) ->
  o ≡ₚ dma_res n ++ w_owned w ->
  dma_state (n :: ns) base (with_buf n f o m l w).
Proof.
  intros [Hl Hn Ho Hw] Hni Hm Hf Hp. split; simpl.
  - intros k Hk. destruct (decide (k = n)) as [-> | Hne].
    + rewrite dmabuf_of_upd_eq, Hn by done. exact Hf.
    + rewrite dmabuf_of_upd_ne by done. apply Hl. set_solver.
  - intros k Hk. rewrite dmabuf_of_upd_ne by set_solver. apply Hn. set_solver.
  - rewrite Hp, Ho. done.
  - exact Hm.
Qed.

Lemma upd_dmabuf_compose n f g b : upd_dmabuf n f (upd_dmabuf n g b) = upd_dmabuf n (fun x => f (g x)) b.
Proof. now destruct n. Qed.

(** The outcome of an allocation. *)
Definition alloc_post (ns : list dma_name) (base : list resource) (n : dma_name) w (e : Z) w' : Prop :=
  dma_frame w w' /\
  ((e = 0 /\ dma_state (n :: ns) base w') \/ (e <> 0 /\ dma_state ns base w')).

Lemma alloc_dmabuf_spec ns base n k w :
  dma_state ns base w -> n ∉ ns -> 0 < k ->
  wp (sfc7120_alloc_dmabuf n (256 * k)) (alloc_post ns base n w) w.
Proof.
  intros Hs Hn Hk. pose proof (ds_wf _ _ _ Hs) as Hwf. pose proof (ds_null _ _ _ Hs n Hn) as Hnull.
  unfold sfc7120_alloc_dmabuf, alloc_post.
  apply wp_bind. unfold bus_dma_tag_create. apply wp_bind, wp_ext. intros e1 l1.
  destruct (Z.eqb_spec e1 0) as [-> | He1].
  2: { apply wp_ret. rewrite (proj2 (Z.eqb_neq e1 0) He1). apply wp_ret. split; [done |]. right. split; [done |].
       destruct Hs as [? ? ? ?]. now split. }
  apply wp_bind, wp_own, wp_bind, wp_mod_sc, wp_ret. cbn [Z.eqb negb].
  apply wp_bind. unfold bus_dmamem_alloc. apply wp_bind, wp_ext. intros e2 l2.
  destruct (Z.eqb_spec e2 0) as [-> | He2].
  2: { apply wp_ret. rewrite (proj2 (Z.eqb_neq e2 0) He2). cbn [negb]. apply wp_bind.
       apply (wp_disown_perm _ (w_owned w)); [done |]. intros o Ho. apply wp_bind, wp_mod_sc, wp_ret.
       split; [done |]. right. split; [done |]. simpl. rewrite upd_dmabuf_compose.
       change (dma_state ns base (with_buf n (fun b => b <| db_tag := true |> <| db_tag := false |>)
         o (w_dma w) l2 w)). now apply with_buf_state. }
  apply wp_bind, wp_own, wp_bind, wp_mod_sc, wp_bind, wp_mod_dma, wp_ret. cbn [Z.eqb negb].
  apply wp_bind, wp_mod_sc. apply wp_bind. unfold bus_dmamap_load. apply wp_bind, wp_ext. intros e3 l3.
  set (m := dma_zero n (w_dma w)). assert (dma_wf m) as Hm by now apply dma_zero_wf.
  assert (forall f o l e w', o ≡ₚ RDmaMem n :: RDmaTag n :: w_owned w -> e <> 0 -> f dmabuf_null = DmaBuf true 0 true ->
    w' = with_buf n f o m l w ->
    wp (do* bus_dmamem_free n; do* bus_dma_tag_destroy n;
        do* mod_dmabuf n (fun b => b <| db_vaddr := false |> <| db_tag := false |>); ret e)
      (alloc_post ns base n w) w') as Hfail.
  { intros f o l e w' Ho He Hf ->. unfold alloc_post. apply wp_bind, (wp_disown_perm _ (RDmaTag n :: w_owned w)); [done |].
    intros o1 Ho1. apply wp_bind, (wp_disown_perm _ (w_owned w)); [done |]. intros o2 Ho2.
    apply wp_bind, wp_mod_sc, wp_ret. split; [done |]. right. split; [done |]. simpl. rewrite upd_dmabuf_compose.
    change (dma_state ns base (with_buf n (fun b => (f b) <| db_vaddr := false |> <| db_tag := false |>)
      o2 m l w)). apply with_buf_state; [done | done | done | now rewrite Hf | done]. }
  destruct (Z.eqb_spec e3 0) as [-> | He3].
  2: { apply wp_ret, wp_bind, wp_get_sc. rewrite (proj2 (Z.eqb_neq e3 0) He3). cbn [negb orb].
       eapply (Hfail (fun b => b <| db_tag := true |> <| db_vaddr := true |> <| db_paddr := 0 |>));
         [| done | done |]; [| unfold with_buf; simpl; rewrite !upd_dmabuf_compose; reflexivity]; done. }
  apply wp_bind, wp_ext. intros v l4. apply wp_bind, wp_mod_sc. apply wp_bind.
  pose proof (bus_address_bound (256 * k) v ltac:(lia)) as Hbound.
  pose proof (bus_address_aligned k v) as Halign. set (p := bus_address (256 * k) v) in *.
  destruct (Z.eqb_spec p 0) as [Hp | Hp].
  - apply wp_ret, wp_ret, wp_bind, wp_get_sc. simpl. rewrite !upd_dmabuf_compose, dmabuf_of_upd_eq. simpl.
    rewrite Hp. cbn [Z.eqb orb negb].
    eapply (Hfail (fun b => b <| db_tag := true |> <| db_vaddr := true |> <| db_paddr := 0 |> <| db_paddr := 0 |>));
      [| done | done |]; [| unfold with_buf; simpl; reflexivity]; done.
  - apply wp_own, wp_ret, wp_bind, wp_get_sc. simpl. rewrite !upd_dmabuf_compose, dmabuf_of_upd_eq. simpl.
    rewrite (proj2 (Z.eqb_neq p 0) Hp). cbn [Z.eqb orb negb]. apply wp_ret. split; [done |]. left. split; [done |].
    change (dma_state (n :: ns) base (with_buf n (fun b => b <| db_tag := true |> <| db_vaddr := true |>
      <| db_paddr := 0 |> <| db_paddr := p |>) (dma_res n ++ w_owned w) m l4 w)).
    apply with_buf_live; try done.
    repeat split; simpl; lia.
Qed.

Lemma free_dmabuf_spec ns base n w :
  dma_state (n :: ns) base w -> n ∉ ns ->
  wp (sfc7120_free_dmabuf n) (fun _ w' =>
    dma_frame w w' /\ dma_state ns base w' /\ w_dma w' = w_dma w /\ w_ext w' = w_ext w) w.
Proof.
  intros Hs Hn. destruct (ds_live _ _ _ Hs n ltac:(set_solver)) as (Hv & Ht & Hp & _).
  pose proof (ds_owned _ _ _ Hs) as Ho. cbn [flat_map dma_res app] in Ho.
  unfold sfc7120_free_dmabuf. apply wp_bind, wp_get_sc.
  replace (negb (_ =? 0)) with true by lia. rewrite Hv, Ht.
  apply wp_bind, wp_bind. eapply wp_disown_perm; [exact Ho |]. intros o1 Ho1. apply wp_mod_sc.
  apply wp_bind, wp_bind. eapply wp_disown_perm; [exact Ho1 |]. intros o2 Ho2. apply wp_mod_sc.
  apply wp_bind. eapply wp_disown_perm; [exact Ho2 |]. intros o3 Ho3. apply wp_mod_sc.
  split; [done |]. split; [| done]. destruct Hs as [Hl Hnull _ Hwf].
  split; simpl; [intros k Hk | intros k Hk | done | done]; rewrite !upd_dmabuf_compose.
  - rewrite dmabuf_of_upd_ne by set_solver. apply Hl. set_solver.
  - destruct (decide (k = n)) as [-> | Hne].
    + rewrite dmabuf_of_upd_eq. reflexivity.
    + rewrite dmabuf_of_upd_ne by done. apply Hnull. set_solver.
Qed.

(** Freeing a buffer that was never allocated does nothing. *)
Lemma free_dmabuf_null ns base n w :
  dma_state ns base w -> n ∉ ns -> sfc7120_free_dmabuf n w = Some (tt, w).
Proof.
  intros Hs Hn. unfold sfc7120_free_dmabuf, get_dmabuf, get_sc, gets, bind.
  rewrite (ds_null _ _ _ Hs n Hn). done.
Qed.

(** The rings and buffers attach allocates, in order. *)
Definition ring_names : list dma_name := [NRxBuf; NTxBuf; NRxDesc; NTxDesc; NDataEvq; NEvq].

(** Freeing a list of live buffers. *)
Fixpoint free_all (ns : list dma_name) : ST world unit :=
  match ns with
  | [] => ret tt
  | n :: ns' => do* sfc7120_free_dmabuf n; free_all ns'
  end.

Lemma free_all_spec fs ns base w :
  dma_state (fs ++ ns) base w -> NoDup (fs ++ ns) ->
  wp (free_all fs) (fun _ w' => dma_frame w w' /\ dma_state ns base w') w.
Proof.
  revert w. induction fs as [| n fs IH]; intros w Hs Hnd; [done |].
  inversion_clear Hnd as [| ? ? Hni Hnd']. cbn [free_all]. apply wp_bind.
  eapply wp_mono; [now apply (free_dmabuf_spec (fs ++ ns) base) |].
  intros _ w1 (Hf1 & Hs1 & _). eapply wp_mono; [now apply IH |].
  intros _ w2 [Hf2 Hs2]. split; [eauto using dma_frame_trans | done].
Qed.

Lemma wp_ret_tt (m : ST world unit) Q w : wp (do* m; ret tt) Q w -> wp m Q w.
Proof. unfold wp, bind, ret. destruct (m w) as [[[] w'] |]; auto. Qed.

Lemma prime_state ns base f w :
  (forall d, dma_wf d -> dma_wf (f d)) -> dma_state ns base w ->
  dma_state ns base (w <| w_dma ::= f |>).
Proof. intros Hf [? ? ? ?]. split; simpl; auto. now apply Hf. Qed.

Lemma fail_path fs ns base e w0 w (fail : Z -> ST world Z) :
  (forall w, fail e w = (do* free_all fs; ret e) w) -> e <> 0 ->
  dma_frame w0 w -> dma_state (fs ++ ns) base w -> NoDup (fs ++ ns) ->
  wp (fail e) (fun r w' => dma_frame w0 w' /\ r <> 0 /\ dma_state ns base w') w.
Proof.
  intros Heq He Hf Hs Hnd. unfold wp. rewrite Heq. change (wp (do* free_all fs; ret e)
    (fun r w' => dma_frame w0 w' /\ r <> 0 /\ dma_state ns base w') w).
  apply wp_bind. eapply wp_mono; [eapply free_all_spec; [exact Hs | exact Hnd] |].
  intros _ w' [Hf' Hs']. apply wp_ret. eauto using dma_frame_trans.
Qed.

(** One allocation of the chain: on success the buffers [n :: ns] are live
    and the rest runs; on failure the buffers allocated so far are freed. *)
Lemma alloc_step ns base n w0 w (fail k : Z -> ST world Z) (Q : Z -> world -> Prop) :
  dma_frame w0 w -> dma_state ns base w -> n ∉ ns ->
  (forall e w', e <> 0 -> dma_frame w0 w' -> dma_state ns base w' -> wp (fail e) Q w') ->
  (forall w', dma_frame w0 w' -> dma_state (n :: ns) base w' -> wp (k 0) Q w') ->
  wp (let* error := sfc7120_alloc_dmabuf n 4096 in
      if negb (error =? 0) then fail error else k error) Q w.
Proof.
  intros Hf Hs Hn Hfail Hk. apply wp_bind. eapply wp_mono; [now apply (alloc_dmabuf_spec ns base n 16) |].
  intros e w' [Hf' [[-> Hs'] | [He Hs']]]; [apply Hk | replace (negb (e =? 0)) with true by lia; apply Hfail];
    eauto using dma_frame_trans.
Qed.

(** The outcome of the whole chain. *)
Definition chain_post ns base w0 (e : Z) w' : Prop :=
  dma_frame w0 w' /\
  ((e = 0 /\ exists st, (st = [] \/ st = [NStats]) /\ dma_state (st ++ ring_names ++ ns) base w') \/
   (e <> 0 /\ dma_state ns base w')).

(** One link: the buffers [fs] are live and [todo] are still to come. *)
Lemma chain_step todo n fs ns base w0 w (fail k : Z -> ST world Z) :
  ring_names = todo ++ n :: fs -> NoDup (ring_names ++ ns) ->
  (forall e w, fail e w = (do* free_all fs; ret e) w) ->
  dma_frame w0 w -> dma_state (fs ++ ns) base w ->
  (forall w', dma_frame w0 w' -> dma_state ((n :: fs) ++ ns) base w' -> wp (k 0) (chain_post ns base w0) w') ->
  wp (let* error := sfc7120_alloc_dmabuf n 4096 in
      if negb (error =? 0) then fail error else k error) (chain_post ns base w0) w.
Proof.
  intros Hring Hnd Heq Hf Hs Hk. rewrite Hring, <- app_assoc in Hnd. apply list.NoDup_app in Hnd as (_ & _ & Hnd).
  cbn [app] in Hnd. inversion_clear Hnd as [| ? ? Hni Hnd'].
  apply (alloc_step (fs ++ ns) base n w0); [done | done | done | | done].
  intros e w' He Hf' Hs'. eapply wp_mono; [apply (fail_path fs ns base e w0 w' fail); done |].
  unfold chain_post. intros r w'' (? & ? & ?). auto.
Qed.

(** The labels free what is live at that point. *)
Ltac fail_free :=
  intros ? ?; unfold fail_txb, fail_rxd, fail_txd, fail_data_evq, fail_evq, free_all, bind, ret;
  repeat (destruct (sfc7120_free_dmabuf _ _) as [[[] ?] |]; [| reflexivity]); reflexivity.

Lemma prime_evq_wf d : dma_wf d -> dma_wf (d <| evq := ring_primed |>).
Proof. intros [? [? ?] ? ?]. now split. Qed.
Lemma prime_data_evq_wf d : dma_wf d -> dma_wf (d <| data_evq := ring_primed |>).
Proof. intros [? [? ?] ? ?]. now split. Qed.

Lemma ring_names_nodup : NoDup (NStats :: ring_names).
Proof.
  apply NoDup_ListNoDup. unfold ring_names. repeat constructor; cbn; intuition discriminate.
Qed.

Lemma chain_nodup st ns :
  st = [] \/ st = [NStats] -> (forall n, n ∈ NStats :: ring_names -> n ∉ ns) -> NoDup ns ->
  NoDup (st ++ ring_names ++ ns).
Proof.
  intros Hst Hdis Hns. rewrite app_assoc. apply list.NoDup_app. split; [| split; [| done]].
  - pose proof ring_names_nodup as H. destruct Hst as [-> | ->]; [now inversion_clear H | done].
  - intros n Hn. apply Hdis. destruct Hst as [-> | ->]; [now right | done].
Qed.

Lemma alloc_dma_resources_spec ns base w :
  dma_state ns base w -> (forall n, n ∈ NStats :: ring_names -> n ∉ ns) -> NoDup ns ->
  wp sfc7120_alloc_dma_resources (chain_post ns base w) w.
Proof.
  intros Hs Hdis Hns.
  pose proof (chain_nodup [] ns (or_introl eq_refl) Hdis Hns) as Hnd. cbn [app] in Hnd.
  unfold sfc7120_alloc_dma_resources.
  apply (chain_step [NRxBuf; NTxBuf; NRxDesc; NTxDesc; NDataEvq] NEvq []); [done .. |].
  clear Hs. intros w1 Hf1 Hs. apply wp_bind, wp_mod_dma. apply (prime_state _ _ _ _ prime_evq_wf) in Hs.
  apply (chain_step [NRxBuf; NTxBuf; NRxDesc; NTxDesc] NDataEvq [NEvq]); [done | done | fail_free | now destruct Hf1 | exact Hs |].
  clear Hs Hf1 w1. intros w2 Hf2 Hs. apply wp_bind, wp_mod_dma. apply (prime_state _ _ _ _ prime_data_evq_wf) in Hs.
  apply (chain_step [NRxBuf; NTxBuf; NRxDesc] NTxDesc [NDataEvq; NEvq]); [done | done | fail_free | now destruct Hf2 | exact Hs |].
  clear Hs Hf2 w2. intros w3 Hf3 Hs.
  apply (chain_step [NRxBuf; NTxBuf] NRxDesc [NTxDesc; NDataEvq; NEvq]); [done | done | fail_free | done | done |].
  clear Hs Hf3 w3. intros w4 Hf4 Hs.
  apply (chain_step [NRxBuf] NTxBuf [NRxDesc; NTxDesc; NDataEvq; NEvq]); [done | done | fail_free | done | done |].
  clear Hs Hf4 w4. intros w5 Hf5 Hs.
  apply (chain_step [] NRxBuf [NTxBuf; NRxDesc; NTxDesc; NDataEvq; NEvq]); [done | done | fail_free | done | done |].
  clear Hs Hf5 w5. intros w6 Hf6 Hs.
  assert (NStats ∉ ring_names ++ ns) as Hst.
  { pose proof (chain_nodup [NStats] ns (or_intror eq_refl) Hdis Hns) as H. now inversion_clear H. }
  apply wp_bind. eapply wp_mono; [apply (alloc_dmabuf_spec _ base NStats 16 w6 Hs); [exact Hst | lia] |].
  intros e w7 [Hf7 [[-> Hs7] | [He Hs7]]].
  - apply wp_bind, wp_ret, wp_ret. split; [eauto using dma_frame_trans |]. left. split; [done |].
    exists [NStats]. auto.
  - replace (negb (e =? 0)) with true by lia. apply wp_bind, wp_mod_sc, wp_ret.
    split; [apply (dma_frame_trans _ w7); [eauto using dma_frame_trans | done] |]. left. split; [done |].
    exists []. split; [auto |].
    change (dma_state (ring_names ++ ns) base
      (with_buf NStats (fun b => b <| db_vaddr := false |>) (w_owned w7) (w_dma w7) (w_ext w7) w7)).
    apply with_buf_state; try done. exact (ds_wf _ _ _ Hs7).
Qed.

Lemma free_dma_resources_spec st ns base w :
  dma_state (st ++ ring_names ++ ns) base w -> NoDup (st ++ ring_names ++ ns) ->
  wp sfc7120_free_dma_resources (fun _ w' => dma_frame w w' /\ dma_state (st ++ ns) base w') w.
Proof.
  intros Hs Hnd.
  assert (st ++ ring_names ++ ns ≡ₚ ring_names ++ st ++ ns) as Hp
    by (rewrite !app_assoc; f_equiv; apply Permutation_app_comm).
  rewrite Hp in Hs, Hnd. apply wp_mono with (Q := fun _ w' => dma_frame w w' /\ dma_state (st ++ ns) base w'); [| done].
  apply wp_ret_tt.
  assert (forall w, (do* sfc7120_free_dma_resources; ret tt) w = free_all ring_names w) as E.
  { intros w0. unfold sfc7120_free_dma_resources, free_all, ring_names, bind. 
    repeat (destruct (sfc7120_free_dmabuf _ _) as [[[] ?] |]; [| done]). done. }
  unfold wp. rewrite E. apply (free_all_spec ring_names (st ++ ns) base w Hs Hnd).
Qed.

(** The DMA rings are accounted for: the allocation of the driver's
    buffers either fails and gives back every tag, memory block and map it
    took, or leaves exactly the six rings and buffers live (and possibly the
    statistics block); freeing them then never frees anything twice and gives
    back all six, but not the statistics block. *)
Theorem dma_resources_balance ns base w :
  dma_state ns base w -> (forall n, n ∈ NStats :: ring_names -> n ∉ ns) -> NoDup ns ->
  wp sfc7120_alloc_dma_resources (fun e w1 =>
    (e <> 0 /\ dma_state ns base w1) \/
    (e = 0 /\ exists st, (st = [] \/ st = [NStats]) /\ dma_state (st ++ ring_names ++ ns) base w1 /\
       wp sfc7120_free_dma_resources (fun _ w2 => dma_state (st ++ ns) base w2) w1)) w.
Proof.
  intros Hs Hdis Hns. eapply wp_mono; [apply (alloc_dma_resources_spec ns base w); done |].
  intros e w1 [_ [(-> & st & Hst & Hs1) | [He Hs1]]]; [right | left; auto]. split; [done |].
  exists st. split; [done |]. split; [done |].
  eapply wp_mono; [apply (free_dma_resources_spec st ns base w1 Hs1) | now intros ? ? [_ ?]].
  now apply chain_nodup.
Qed.
End dma.
