(* ===== verification/Mcdi.v ===== *)
(** * The MCDI transport (sfc7120_mcdi.c)

    Commands to the NIC's management controller: a request is framed in a
    256-byte DMA mailbox, its bus address is written to the doorbell pair, and
    the driver polls the mailbox until the controller sets the response bit.

    Every access to the mailbox is checked against its 256 bytes: an access
    outside it is a panic (a capability fault on the purecap kernel), so a
    statement that a command returns also says that it stays inside. *)

From stdpp Require Import sets.
From S2P Require Import Prelude Uapi Softc Dma.
Local Open Scope Z_scope.

(** ** Framing constants *)

Definition MCDI_HEADER_LEN : Z := 4.
Definition MCDI_V2_HEADER_LEN : Z := 8.
Definition MCDI_PAYLOAD_LEN_MAX_V1 : Z := 0xfc.
Definition MC_CMD_V2_EXTN : Z := 0x7f.

Definition MCDI_HDR_CODE_MASK : Z := 0x7f.
Definition MCDI_HDR_DATALEN_SHIFT : Z := 8.
Definition MCDI_HDR_DATALEN_MASK : Z := 0xff.
Definition MCDI_HDR_SEQ_SHIFT : Z := 16.
Definition MCDI_HDR_SEQ_MASK : Z := 0x0f.
Definition MCDI_HDR_NOT_EPOCH_SHIFT : Z := 21.
Definition MCDI_HDR_ERROR_SHIFT : Z := 22.
Definition MCDI_HDR_RESPONSE_SHIFT : Z := 23.

Definition MCDI_V2_EXT_CMD_MASK : Z := 0x7fff.
Definition MCDI_V2_EXT_LEN_SHIFT : Z := 16.
Definition MCDI_V2_EXT_LEN_MASK : Z := 0x3ff.

Definition SFC7120_MCDI_POLL_MIN_US : Z := 10.
Definition SFC7120_MCDI_POLL_MAX_US : Z := 100 * 1000.
Definition SFC7120_MCDI_TIMEOUT_US : Z := 10 * 1000 * 1000.

Definition MAILBOX_LEN : Z := MCDI_HEADER_LEN + MCDI_PAYLOAD_LEN_MAX_V1.

(** What a command leaves in the caller's [out] and [*out_used]; [None] when
    they were not written. *)
Definition mcdi_reply : Type := option (list Z * Z).

Section mcdi.
Context {D : Type} `{!Device D}.
Abbreviation world := (world D).

(** ** Mailbox accessors *)

Definition mbox_check (off : Z) : ST world unit :=
  kassert (fun _ => (0 <=? off) && (off + 4 <=? MAILBOX_LEN)).

Definition mcdi_buf_write_dword (off v : Z) : ST world unit :=
  do* mbox_check off;
  mod_dma (fun d => d <| mbox ::= fun b => buf_write b (Z.to_nat off) (le_bytes 4 v) |>).

Definition mcdi_buf_read_dword (off : Z) : ST world Z :=
  do* mbox_check off;
  gets (fun w => le_word (buf_read (mbox (w_dma w)) (Z.to_nat off) 4)).

Fixpoint mcdi_buf_write_payload (off : Z) (src : list Z) : ST world unit :=
  match src with
  | [] => ret tt
  | a :: b :: c :: d :: src' =>
      do* mcdi_buf_write_dword off (le_word [a; b; c; d]);
      mcdi_buf_write_payload (off + 4) src'
  | tail => mcdi_buf_write_dword off (le_word tail)
  end.

Fixpoint mcdi_buf_read_payload (off : Z) (len : nat) : ST world (list Z) :=
  match len with
  | O => ret []
  | S (S (S (S len'))) =>
      let* v := mcdi_buf_read_dword off in
      let* rest := mcdi_buf_read_payload (off + 4) len' in
      ret (le_bytes 4 v ++ rest)
  | _ =>
      let* v := mcdi_buf_read_dword off in
      ret (take len (le_bytes 4 v))
  end.

(** ** Mutex *)

Definition SFC7120_MCDI_LOCK : ST world unit :=
  do* kassert (fun w => bool_decide (mcdi_mtx (sc_mcdi (w_sc w)) = MtxFree));
  mod_mcdi (fun m => m <| mcdi_mtx := MtxHeld |>).
Definition SFC7120_MCDI_UNLOCK : ST world unit :=
  do* kassert (fun w => bool_decide (mcdi_mtx (sc_mcdi (w_sc w)) = MtxHeld));
  mod_mcdi (fun m => m <| mcdi_mtx := MtxFree |>).
Definition mcdi_mtx_assert : ST world unit :=
  kassert (fun w => bool_decide (mcdi_mtx (sc_mcdi (w_sc w)) = MtxHeld)).

(** ** Request, poll, reply *)

Definition v1_header (cmd len seq : Z) (new_epoch : bool) : Z :=
  let h := Z.land cmd MCDI_HDR_CODE_MASK in
  let h := Z.lor h (Z.shiftl (Z.land len MCDI_HDR_DATALEN_MASK) MCDI_HDR_DATALEN_SHIFT) in
  let h := Z.lor h (Z.shiftl (Z.land seq MCDI_HDR_SEQ_MASK) MCDI_HDR_SEQ_SHIFT) in
  if new_epoch then h else Z.lor h (Z.shiftl 1 MCDI_HDR_NOT_EPOCH_SHIFT).

Definition v2_header (cmd len : Z) : Z :=
  Z.lor (Z.land cmd MCDI_V2_EXT_CMD_MASK)
        (Z.shiftl (Z.land len MCDI_V2_EXT_LEN_MASK) MCDI_V2_EXT_LEN_SHIFT).

(** The command is also recorded in [w_cmds], which the code does not have. *)
Definition sfc7120_mcdi_send_locked (cmd : Z) (inb : list Z) (seq : Z) : ST world Z :=
  let in_len := Z.of_nat (length inb) in
  let use_v2 := (MC_CMD_V2_EXTN <=? cmd) || (MCDI_PAYLOAD_LEN_MAX_V1 <? in_len) in
  do* mcdi_mtx_assert;
  do* kassert (fun _ => in_len <=? MCDI_PAYLOAD_LEN_MAX_V1);
  let* new_epoch := get_sc (fun sc => mcdi_new_epoch (sc_mcdi sc)) in
  let* payload_off :=
    (if use_v2 then
       do* mcdi_buf_write_dword 0 (v1_header MC_CMD_V2_EXTN 0 seq new_epoch);
       do* mcdi_buf_write_dword MCDI_HEADER_LEN (v2_header cmd in_len);
       ret MCDI_V2_HEADER_LEN
     else
       do* mcdi_buf_write_dword 0 (v1_header cmd in_len seq new_epoch);
       ret MCDI_HEADER_LEN) in
  do* (if 0 <? in_len then mcdi_buf_write_payload payload_off inb else ret tt);
  do* sync_prewrite;
  let* paddr := get_sc (fun sc => db_paddr (mcdi_buf (sc_dma sc))) in
  do* SFC7120_WRITE_REG EF10_REG_MC_DB_LWRD (u32 (Z.shiftr paddr 32));
  do* SFC7120_WRITE_REG EF10_REG_MC_DB_HWRD (u32 (Z.land paddr 0xffffffff));
  do* modify (fun w => w <| w_cmds ::= fun l => l ++ [(cmd, inb)] |>);
  ret payload_off.

Definition sfc7120_mcdi_poll_response : ST world bool :=
  do* mcdi_mtx_assert;
  do* sync_postread;
  let* header := mcdi_buf_read_dword 0 in
  ret (negb (Z.land (Z.shiftr header MCDI_HDR_RESPONSE_SHIFT) 0x1 =? 0)).

Definition sfc7120_mcdi_xlate_err (mc_err : Z) : Z :=
  match mc_err with
  | 0 => 0
  | 1 => EPERM
  | 2 => ENOENT
  | 4 => EINTR
  | 5 => EIO
  | 11 => EAGAIN
  | 12 => ENOMEM
  | 13 => EACCES
  | 16 => EBUSY
  | 22 => EINVAL
  | 38 => ENOSYS
  | 62 => ETIMEDOUT
  | 95 => EOPNOTSUPP
  | _ => EIO
  end.

(** The polling loop; [true] when the response bit was seen, [false] at the
    timeout.  Running out of fuel is a panic, which the fuel of 114 turns
    never reaches. *)
Fixpoint mcdi_poll_loop (fuel : nat) (delay_us total_us : Z) : ST world bool :=
  match fuel with
  | O => panic
  | S fuel' =>
      let* r := sfc7120_mcdi_poll_response in
      if r : bool then ret true
      else if SFC7120_MCDI_TIMEOUT_US <=? total_us then ret false
      else
        do* DELAY delay_us;
        let total_us := u32 (total_us + delay_us) in
        let delay_us := u32 (delay_us * 2) in
        let delay_us := if SFC7120_MCDI_POLL_MAX_US <? delay_us
                        then SFC7120_MCDI_POLL_MAX_US else delay_us in
        mcdi_poll_loop fuel' delay_us total_us
  end.

Definition MCDI_POLL_FUEL : nat := 114.

(** The diagnostics printed at a timeout. *)
Definition mcdi_timeout_dump : ST world unit :=
  do* sync_postread;
  do* mcdi_buf_read_dword 0;
  do* mcdi_buf_read_dword 4;
  do* mcdi_buf_read_dword 8;
  do* mcdi_buf_read_dword 12;
  do* SFC7120_READ_REG EF10_REG_BIU_HW_REV_ID;
  do* SFC7120_READ_REG EF10_REG_BIU_MC_SFT_STATUS;
  ret tt.

(** The advance of epoch and sequence number, and the unlock, at both ends of
    the function. *)
Definition mcdi_advance : ST world unit :=
  do* mod_mcdi (fun m => m <| mcdi_new_epoch := false |>
                           <| mcdi_seq ::= fun s => Z.land (u8 (s + 1)) MCDI_HDR_SEQ_MASK |>);
  SFC7120_MCDI_UNLOCK.

(** The part of [sfc7120_mcdi_exec] after the response arrived. *)
Definition mcdi_read_reply (seq payload_off out_len : Z) : ST world (Z * mcdi_reply) :=
  let* header := mcdi_buf_read_dword 0 in
  let* resp_datalen :=
    (if payload_off =? MCDI_V2_HEADER_LEN then
       let* v2_hdr := mcdi_buf_read_dword MCDI_HEADER_LEN in
       ret (Z.land (Z.shiftr v2_hdr MCDI_V2_EXT_LEN_SHIFT) MCDI_V2_EXT_LEN_MASK)
     else ret (Z.land (Z.shiftr header MCDI_HDR_DATALEN_SHIFT) MCDI_HDR_DATALEN_MASK)) in
  let resp_seq := Z.land (Z.shiftr header MCDI_HDR_SEQ_SHIFT) MCDI_HDR_SEQ_MASK in
  if negb (resp_seq =? seq) then ret (EPROTO, None)
  else if negb (Z.land (Z.shiftr header MCDI_HDR_ERROR_SHIFT) 0x1 =? 0) then
    let* mc_err := (if 4 <=? resp_datalen then mcdi_buf_read_dword payload_off else ret 0) in
    ret (sfc7120_mcdi_xlate_err mc_err, None)
  else if 0 <? out_len then
    let copy := if resp_datalen <? out_len then resp_datalen else out_len in
    let* bytes := (if 0 <? copy then mcdi_buf_read_payload payload_off (Z.to_nat copy)
                   else ret []) in
    ret (0, Some (bytes ++ replicate (Z.to_nat (out_len - copy)) 0, copy))
  else ret (0, Some ([], 0)).

(** [in] is the list [inb] (its length is [in_len]); [out] has room for
    [out_len] bytes, and is NULL when [out_len] is 0. *)
Definition sfc7120_mcdi_exec (cmd : Z) (inb : list Z) (out_len : Z) :
    ST world (Z * mcdi_reply) :=
  let* initialized := get_sc (fun sc => mcdi_initialized (sc_mcdi sc)) in
  if negb initialized then ret (ENXIO, None)
  else if (MCDI_PAYLOAD_LEN_MAX_V1 <? Z.of_nat (length inb)) || (MCDI_PAYLOAD_LEN_MAX_V1 <? out_len)
  then ret (EINVAL, None)
  else
  do* SFC7120_MCDI_LOCK;
  let* seq := get_sc (fun sc => Z.land (mcdi_seq (sc_mcdi sc)) MCDI_HDR_SEQ_MASK) in
  let* payload_off := sfc7120_mcdi_send_locked cmd inb seq in
  let* arrived := mcdi_poll_loop MCDI_POLL_FUEL SFC7120_MCDI_POLL_MIN_US 0 in
  if arrived : bool then
    let* r := mcdi_read_reply seq payload_off out_len in
    do* mcdi_advance;
    ret r
  else
    do* mcdi_timeout_dump;
    do* mcdi_advance;
    ret (ETIMEDOUT, None).

(** ** Mailbox allocation, init and fini *)

Definition sfc7120_mcdi_alloc_buf : ST world Z :=
  let* error := bus_dma_tag_create NMcdi in
  if negb (error =? 0) then ret error
  else
  let* error := bus_dmamem_alloc NMcdi in
  if negb (error =? 0) then
    do* bus_dma_tag_destroy NMcdi;
    do* mod_dmabuf NMcdi (fun b => b <| db_tag := false |>);
    ret error
  else
  do* mod_dmabuf NMcdi (fun b => b <| db_paddr := 0 |>);
  let* error := bus_dmamap_load NMcdi 256 in
  let* b := get_dmabuf NMcdi in
  if negb (error =? 0) || (db_paddr b =? 0) then
    do* bus_dmamem_free NMcdi;
    do* bus_dma_tag_destroy NMcdi;
    do* mod_dmabuf NMcdi (fun b => b <| db_vaddr := false |> <| db_tag := false |>);
    ret (if negb (error =? 0) then error else ENOMEM)
  else
  do* kassert (fun w => Z.land (db_paddr (mcdi_buf (sc_dma (w_sc w)))) 0xff =? 0);
  ret 0.

Definition sfc7120_mcdi_free_buf : ST world unit :=
  let* b := get_dmabuf NMcdi in
  do* (if negb (db_paddr b =? 0) then
         do* bus_dmamap_unload NMcdi;
         mod_dmabuf NMcdi (fun b => b <| db_paddr := 0 |>)
       else ret tt);
  do* (if db_vaddr b then
         do* bus_dmamem_free NMcdi;
         mod_dmabuf NMcdi (fun b => b <| db_vaddr := false |>)
       else ret tt);
  if db_tag b then
    do* bus_dma_tag_destroy NMcdi;
    mod_dmabuf NMcdi (fun b => b <| db_tag := false |>)
  else ret tt.

Definition mcdi_mtx_init : ST world unit :=
  do* kassert (fun w => bool_decide (mcdi_mtx (sc_mcdi (w_sc w)) = MtxUninit));
  mod_mcdi (fun m => m <| mcdi_mtx := MtxFree |>).
Definition mcdi_mtx_destroy : ST world unit :=
  do* kassert (fun w => bool_decide (mcdi_mtx (sc_mcdi (w_sc w)) = MtxFree));
  mod_mcdi (fun m => m <| mcdi_mtx := MtxUninit |>).

(** PCIM_CMD_MEMEN and PCIM_CMD_BUSMASTEREN of the PCI command register. *)
Definition PCIM_CMD_NEEDED : Z := 0x0006.

Definition mcdi_init_fail (error : Z) : ST world Z :=
  do* sfc7120_mcdi_free_buf;
  do* mcdi_mtx_destroy;
  ret error.

Definition sfc7120_mcdi_init : ST world Z :=
  do* kassert (fun w => negb (mcdi_initialized (sc_mcdi (w_sc w))));
  do* mcdi_mtx_init;
  let* error := sfc7120_mcdi_alloc_buf in
  if negb (error =? 0) then
    do* mcdi_mtx_destroy;
    ret error
  else
  let* pci_cmd := ext in
  if negb (Z.land pci_cmd PCIM_CMD_NEEDED =? PCIM_CMD_NEEDED) then mcdi_init_fail ENXIO
  else
  let* hw_rev := SFC7120_READ_REG EF10_REG_BIU_HW_REV_ID in
  if negb (hw_rev =? EF10_REG_BIU_HW_REV_ID_RESET) then mcdi_init_fail ENXIO
  else
  let* mc_sft_status := SFC7120_READ_REG EF10_REG_BIU_MC_SFT_STATUS in
  do* SFC7120_WRITE_REG EF10_REG_MC_DB_HWRD 1;
  do* mod_mcdi (fun m => m <| mcdi_seq := 0 |> <| mcdi_new_epoch := true |>
         <| mcdi_prev_reboot_status := mc_sft_status |> <| mcdi_initialized := true |>);
  ret 0.

Definition sfc7120_mcdi_fini : ST world unit :=
  let* initialized := get_sc (fun sc => mcdi_initialized (sc_mcdi sc)) in
  if negb initialized then ret tt
  else
  do* sfc7120_mcdi_free_buf;
  do* mcdi_mtx_destroy;
  mod_mcdi (fun m => m <| mcdi_initialized := false |>).
End mcdi.

(** ** Symbolic execution of the accessors *)

(** [src] followed by the zero bytes that complete its last dword. *)
Fixpoint pad4 (src : list Z) : list Z :=
  match src with
  | [] => []
  | a :: b :: c :: d :: src' => a :: b :: c :: d :: pad4 src'
  | tail => le_bytes 4 (le_word tail)
  end.

Lemma list4_ind (P : list Z -> Prop) :
  P [] -> (forall a, P [a]) -> (forall a b, P [a; b]) -> (forall a b c, P [a; b; c]) ->
  (forall a b c d l, P l -> P (a :: b :: c :: d :: l)) -> forall l, P l.
Proof.
  intros H0 H1 H2 H3 H4. fix IH 1.
  intros [| a [| b [| c [| d l]]]]; [exact H0 | apply H1 | apply H2 | apply H3 |].
  apply H4, IH.
Qed.

Lemma length_pad4 (src : list Z) : Z.of_nat (length (pad4 src)) = (Z.of_nat (length src) + 3) / 4 * 4.
Proof.
  induction src as [| | | | a b c d l IH] using list4_ind; try reflexivity.
  cbn [pad4 length]. rewrite !Nat2Z.inj_succ, IH. zdiv.
Qed.

Lemma take_pad4 (src : list Z) : Forall is_byte src -> take (length src) (pad4 src) = src.
Proof.
  unfold is_byte.
  induction src as [| a | a b | a b c | a b c d l IH] using list4_ind; intros Hb; [done | ..];
    rewrite ?Forall_cons_iff in Hb; destruct_and?.
  1-3: cbn [pad4 le_word le_bytes length take];
       repeat match goal with |- _ :: _ = _ :: _ => f_equal end; try done; zdiv.
  cbn [length pad4 take]. do 4 f_equal. now apply IH.
Qed.

Lemma pad4_is_byte (src : list Z) : Forall is_byte src -> Forall is_byte (pad4 src).
Proof.
  induction src as [| a | a b | a b c | a b c d l IH] using list4_ind; intros Hb; [done | ..].
  1-3: apply le_bytes_is_byte.
  rewrite !Forall_cons_iff in Hb. cbn [pad4]. rewrite !Forall_cons_iff. tauto.
Qed.

Lemma le_bytes_word4 (a b c d : Z) :
  is_byte a -> is_byte b -> is_byte c -> is_byte d ->
  le_bytes 4 (le_word [a; b; c; d]) = [a; b; c; d].
Proof.
  intros. apply (le_bytes_le_word [a; b; c; d]). rewrite !Forall_cons_iff.
  repeat split; try apply Forall_nil_2; unfold is_byte in *; lia.
Qed.

Section mcdi_rules.
Context {D : Type} `{!Device D}.
Abbreviation world := (world D).

Definition with_mbox (w : world) (b : list Z) : world := w <| w_dma ::= fun d => d <| mbox := b |> |>.

Lemma wp_write_dword off v (Q : unit -> world -> Prop) w :
  0 <= off -> off + 4 <= 256 ->
  Q tt (with_mbox w (buf_write (mbox (w_dma w)) (Z.to_nat off) (le_bytes 4 v))) ->
  wp (mcdi_buf_write_dword off v) Q w.
Proof.
  intros H1 H2 HQ. apply wp_bind, wp_kassert; [unfold MAILBOX_LEN, MCDI_HEADER_LEN,
    MCDI_PAYLOAD_LEN_MAX_V1; lia |]. exact HQ.
Qed.

Lemma wp_read_dword off (Q : Z -> world -> Prop) w :
  0 <= off -> off + 4 <= 256 ->
  Q (le_word (buf_read (mbox (w_dma w)) (Z.to_nat off) 4)) w ->
  wp (mcdi_buf_read_dword off) Q w.
Proof.
  intros H1 H2 HQ. apply wp_bind, wp_kassert; [unfold MAILBOX_LEN, MCDI_HEADER_LEN,
    MCDI_PAYLOAD_LEN_MAX_V1; lia |]. exact HQ.
Qed.

Lemma write_dword_panics off v (w : world) : 256 < off + 4 -> mcdi_buf_write_dword off v w = None.
Proof.
  intros H. unfold mcdi_buf_write_dword, mbox_check, bind, kassert.
  replace (_ && _) with false; [done |]. unfold MAILBOX_LEN, MCDI_HEADER_LEN, MCDI_PAYLOAD_LEN_MAX_V1. lia.
Qed.

Lemma with_mbox_id (w : world) : with_mbox w (mbox (w_dma w)) = w.
Proof. now destruct w as [? [] ? ? ? ? ? ?]. Qed.

Lemma wp_write_payload src off (Q : unit -> world -> Prop) w :
  Forall is_byte src -> 0 <= off -> off + Z.of_nat (length (pad4 src)) <= 256 ->
  Q tt (with_mbox w (buf_write (mbox (w_dma w)) (Z.to_nat off) (pad4 src))) ->
  wp (mcdi_buf_write_payload off src) Q w.
Proof.
  revert off w. induction src as [| a | a b | a b c | a b c d l IH] using list4_ind;
    intros off w Hb H0 Hlen HQ.
  { cbn in HQ. now rewrite with_mbox_id in HQ. }
  1-3: apply wp_write_dword; [done | cbn [pad4] in Hlen; rewrite length_le_bytes in Hlen; lia | exact HQ].
  cbn [pad4 length] in Hlen. cbn [mcdi_buf_write_payload]. apply wp_bind.
  apply wp_write_dword; [done | lia |].
  rewrite !Forall_cons_iff in Hb. destruct Hb as (? & ? & ? & ? & Hb).
  apply IH; [done | lia | lia |]. revert HQ. rewrite le_bytes_word4 by done.
  cbn [pad4]. unfold buf_write. change (a :: b :: c :: d :: pad4 l) with ([a; b; c; d] ++ pad4 l).
  rewrite list_inserts_app_l. cbn [length]. replace (Z.to_nat (off + 4)) with (4 + Z.to_nat off)%nat by lia.
  now destruct w as [? [] ? ? ? ? ? ?].
Qed.

Lemma buf_read_split (b : list Z) (off n m : nat) :
  buf_read b off (n + m) = buf_read b off n ++ buf_read b (off + n) m.
Proof.
  unfold buf_read. rewrite <- drop_drop. set (l := drop off b).
  rewrite <- (take_drop n l) at 1. rewrite take_app. rewrite length_take. rewrite take_take.
  destruct (decide (n <= length l)%nat).
  - rewrite Nat.min_r, Nat.min_l by lia. f_equal. f_equal. lia.
  - rewrite (drop_ge l n) by lia. rewrite !take_nil. f_equal. rewrite Nat.min_r by lia.
    reflexivity.
Qed.

Lemma wp_read_payload (len : nat) off (Q : list Z -> world -> Prop) w :
  length (mbox (w_dma w)) = 256%nat -> Forall is_byte (mbox (w_dma w)) ->
  0 <= off -> off + (Z.of_nat len + 3) / 4 * 4 <= 256 ->
  Q (buf_read (mbox (w_dma w)) (Z.to_nat off) len) w ->
  wp (mcdi_buf_read_payload off len) Q w.
Proof.
  intros Hl Hb. revert off Q. induction len as [len IH] using lt_wf_ind. intros off Q H0 Hlen HQ.
  assert (forall o : nat, (o + 4 <= 256)%nat ->
    le_bytes 4 (le_word (buf_read (mbox (w_dma w)) o 4)) = buf_read (mbox (w_dma w)) o 4) as Hrt.
  { intros o Ho. rewrite <- (length_buf_read (mbox (w_dma w)) o 4) at 1 by lia.
    apply le_bytes_le_word, buf_read_is_byte, Hb. }
  destruct len as [| [| [| [| len]]]]; [exact HQ | ..].
  1-3: cbn [mcdi_buf_read_payload]; apply wp_bind, wp_read_dword; [lia | zdiv |]; apply wp_ret;
       rewrite Hrt by zdiv; unfold buf_read in *; rewrite take_take; exact HQ.
  cbn [mcdi_buf_read_payload]. apply wp_bind, wp_read_dword; [lia | zdiv |].
  apply wp_bind, IH; [lia | lia | zdiv |]. apply wp_ret. rewrite Hrt by zdiv.
  replace (Z.to_nat (off + 4)) with (Z.to_nat off + 4)%nat by lia.
  change (S (S (S (S len)))) with (4 + len)%nat in HQ. now rewrite buf_read_split in HQ.
Qed.
End mcdi_rules.

(** ** The wire format

    What the controller reads from a mailbox, as sfc7120_mcdi.h documents it:
    word 0 carries the command in bits 6:0, the length in bits 15:8, the
    sequence number in bits 19:16 and the epoch in bit 21; the command 0x7f
    escapes to an extended header in word 1. *)

Record mcdi_request := McdiRequest {
  rq_cmd : Z;
  rq_seq : Z;
  rq_new_epoch : bool;
  rq_payload : list Z;
}.

Definition mbox_word (b : list Z) (i : nat) : Z := le_word (buf_read b (4 * i) 4).

Definition decode_request (b : list Z) : mcdi_request :=
  let h := mbox_word b 0 in
  if bits 0 7 h =? 0x7f then
    let e := mbox_word b 1 in
    McdiRequest (bits 0 15 e) (bits 16 4 h) (negb (Z.testbit h 21))
      (buf_read b 8 (Z.to_nat (bits 16 10 e)))
  else
    McdiRequest (bits 0 7 h) (bits 16 4 h) (negb (Z.testbit h 21))
      (buf_read b 4 (Z.to_nat (bits 8 8 h))).

Definition uses_v2 (cmd : Z) : bool := MC_CMD_V2_EXTN <=? cmd.

(** The room the mailbox has for a request's payload. *)
Definition payload_room (cmd : Z) : Z := if uses_v2 cmd then 248 else 252.

(** The mailbox a request leaves. *)
Definition frame_request (b : list Z) (cmd : Z) (inb : list Z) (seq : Z) (new_epoch : bool) : list Z :=
  let len := Z.of_nat (length inb) in
  if uses_v2 cmd then
    buf_write (buf_write (buf_write b 0 (le_bytes 4 (v1_header MC_CMD_V2_EXTN 0 seq new_epoch)))
                 4 (le_bytes 4 (v2_header cmd len))) 8 (pad4 inb)
  else buf_write (buf_write b 0 (le_bytes 4 (v1_header cmd len seq new_epoch))) 4 (pad4 inb).

Lemma v1_header_arith (cmd len seq : Z) (e : bool) :
  v1_header cmd len seq e
  = cmd mod 128 + 256 * (len mod 256) + 65536 * (seq mod 16) + (if e then 0 else 2097152).
Proof.
  unfold v1_header, MCDI_HDR_CODE_MASK, MCDI_HDR_DATALEN_MASK, MCDI_HDR_DATALEN_SHIFT,
    MCDI_HDR_SEQ_MASK, MCDI_HDR_SEQ_SHIFT, MCDI_HDR_NOT_EPOCH_SHIFT.
  rewrite (land_mask cmd 0x7f 7), (land_mask len 0xff 8), (land_mask seq 0x0f 4) by (lia || reflexivity).
  change (2 ^ 7) with 128. change (2 ^ 8) with 256. change (2 ^ 4) with 16.
  pose proof (Z.mod_pos_bound cmd 128 ltac:(lia)). pose proof (Z.mod_pos_bound len 256 ltac:(lia)).
  pose proof (Z.mod_pos_bound seq 16 ltac:(lia)).
  rewrite (Z.lor_comm (cmd mod 128)), lor_shiftl_add by lia.
  rewrite (Z.lor_comm (_ + cmd mod 128)), lor_shiftl_add by lia.
  destruct e; [lia |]. rewrite Z.lor_comm, lor_shiftl_add by lia. lia.
Qed.

Lemma v2_header_arith (cmd len : Z) :
  v2_header cmd len = cmd mod 32768 + 65536 * (len mod 1024).
Proof.
  unfold v2_header, MCDI_V2_EXT_CMD_MASK, MCDI_V2_EXT_LEN_MASK, MCDI_V2_EXT_LEN_SHIFT.
  rewrite land_0x7fff, (land_mask len 0x3ff 10) by (lia || reflexivity).
  pose proof (Z.mod_pos_bound cmd 32768 ltac:(lia)).
  rewrite Z.lor_comm, lor_shiftl_add by lia. change (2 ^ 10) with 1024. lia.
Qed.

Lemma testbit_div_mod (z n : Z) : 0 <= n -> Z.testbit z n = (z / 2 ^ n mod 2 =? 1).
Proof. intros. now rewrite Z.testbit_eqb. Qed.

(** The fields of a framed header, as the controller extracts them. *)
Lemma v1_header_fields (cmd len seq : Z) (e : bool) :
  0 <= cmd < 128 -> 0 <= len < 256 -> 0 <= seq < 16 ->
  let h := v1_header cmd len seq e in
  0 <= h < 2 ^ 23 /\ bits 0 7 h = cmd /\ bits 8 8 h = len /\ bits 16 4 h = seq /\
  negb (Z.testbit h 21) = e.
Proof.
  intros Hc Hl Hs h. unfold h. rewrite v1_header_arith, !bits_div_mod, testbit_div_mod by lia.
  rewrite !Z.mod_small by lia. split; [destruct e; lia |].
  repeat split; destruct e; try (rewrite negb_true_iff || rewrite negb_false_iff); zdiv.
Qed.

Lemma v2_header_fields (cmd len : Z) :
  0 <= cmd < 32768 -> 0 <= len < 1024 ->
  0 <= v2_header cmd len < 2 ^ 32 /\ bits 0 15 (v2_header cmd len) = cmd /\
  bits 16 10 (v2_header cmd len) = len.
Proof.
  intros. rewrite v2_header_arith, !bits_div_mod by lia. rewrite !Z.mod_small by lia.
  repeat split; zdiv.
Qed.

Lemma mbox_word_write (b : list Z) (i : nat) (v : Z) :
  (4 * i + 4 <= length b)%nat -> 0 <= v < 2 ^ 32 ->
  mbox_word (buf_write b (4 * i) (le_bytes 4 v)) i = v.
Proof.
  intros Hl Hv. unfold mbox_word. pose proof (buf_read_write b (le_bytes 4 v) (4 * i)) as Hrw.
  rewrite length_le_bytes in Hrw. rewrite Hrw by done.
  rewrite le_word_le_bytes. apply Z.mod_small. exact Hv.
Qed.

Lemma mbox_word_frame (b src : list Z) (i off : nat) :
  (4 * i + 4 <= off)%nat -> mbox_word (buf_write b off src) i = mbox_word b i.
Proof. intros. unfold mbox_word. rewrite buf_read_write_disjoint; [done | lia]. Qed.

Lemma buf_read_pad4 (b inb : list Z) (off : nat) :
  Forall is_byte inb -> (off + length (pad4 inb) <= length b)%nat ->
  buf_read (buf_write b off (pad4 inb)) off (length inb) = inb.
Proof.
  intros Hb Hl. assert (length inb <= length (pad4 inb))%nat.
  { rewrite <- (take_pad4 inb Hb) at 1. rewrite length_take. lia. }
  rewrite <- (take_pad4 inb Hb) at 3.
  rewrite <- (buf_read_write b (pad4 inb) off Hl) at 2.
  unfold buf_read. rewrite take_take. f_equal. lia.
Qed.

Lemma length_frame_request b cmd inb seq e : length (frame_request b cmd inb seq e) = length b.
Proof. unfold frame_request. destruct (uses_v2 cmd); now rewrite !length_buf_write. Qed.

(** The padded payload of an admissible request fits behind its header. *)
Lemma pad4_room (inb : list Z) (n : Z) :
  Z.of_nat (length inb) <= n -> n mod 4 = 0 -> Z.of_nat (length (pad4 inb)) <= n.
Proof. intros. rewrite length_pad4. zdiv. Qed.

Lemma payload_room_mod (cmd : Z) : payload_room cmd mod 4 = 0.
Proof. unfold payload_room. now destruct (uses_v2 cmd). Qed.

(** A framed request decodes to what was asked, and its response bit is clear. *)
Lemma frame_request_decodes b cmd inb seq e :
  length b = 256%nat -> Forall is_byte inb -> 0 <= cmd < 32768 -> 0 <= seq < 16 ->
  Z.of_nat (length inb) <= payload_room cmd ->
  decode_request (frame_request b cmd inb seq e) = McdiRequest cmd seq e inb /\
  Z.testbit (mbox_word (frame_request b cmd inb seq e) 0) 23 = false.
Proof.
  intros Hl Hb Hc Hs Hin. pose proof (pad4_room inb _ Hin (payload_room_mod cmd)) as Hpad.
  unfold frame_request, decode_request, payload_room, uses_v2, MC_CMD_V2_EXTN in *.
  destruct (Z.leb_spec 0x7f cmd).
  - destruct (v1_header_fields 0x7f 0 seq e) as (Hh & F1 & F2 & F3 & F4); [lia .. |].
    destruct (v2_header_fields cmd (Z.of_nat (length inb))) as (Hv & G1 & G2); [lia .. |].
    rewrite (mbox_word_frame _ _ 0 8), (mbox_word_frame _ _ 0 4) by lia.
    rewrite (mbox_word_write _ 0) by lia. rewrite F1, Z.eqb_refl.
    rewrite (mbox_word_frame _ _ 1 8), (mbox_word_write _ 1) by (rewrite ?length_buf_write; lia).
    rewrite G1, G2, F3, F4, Nat2Z.id, buf_read_pad4 by (rewrite ?length_buf_write; lia || done).
    split; [done |]. rewrite testbit_div_mod by lia. zdiv.
  - destruct (v1_header_fields cmd (Z.of_nat (length inb)) seq e) as (Hh & F1 & F2 & F3 & F4); [lia .. |].
    rewrite (mbox_word_frame _ _ 0 4), (mbox_word_write _ 0) by lia.
    rewrite F1, F2, F3, F4. replace (cmd =? 0x7f) with false by lia.
    rewrite Nat2Z.id, buf_read_pad4 by (rewrite ?length_buf_write; lia || done).
    split; [done |]. rewrite testbit_div_mod by lia. zdiv.
Qed.

Section mcdi_send.
Context {D : Type} `{!Device D}.
Abbreviation world := (world D).
Implicit Types (w : world).

(** The exact effect of a send. *)
Lemma send_locked_spec cmd inb seq w :
  mcdi_mtx (sc_mcdi (w_sc w)) = MtxHeld -> Forall is_byte inb ->
  Z.of_nat (length inb) <= payload_room cmd ->
  let paddr := db_paddr (mcdi_buf (sc_dma (w_sc w))) in
  let hi := u32 (u32 (Z.shiftr paddr 32)) in
  let lo := u32 (u32 (Z.land paddr 0xffffffff)) in
  let b := frame_request (mbox (w_dma w)) cmd inb seq (mcdi_new_epoch (sc_mcdi (w_sc w))) in
  wp (sfc7120_mcdi_send_locked cmd inb seq) (fun off w' =>
    off = (if uses_v2 cmd then 8 else 4) /\
    w_sc w' = w_sc w /\ w_owned w' = w_owned w /\ w_ext w' = w_ext w /\ w_time w' = w_time w /\
    w_cmds w' = w_cmds w ++ [(cmd, inb)] /\
    w_log w' = w_log w ++ [(EF10_REG_MC_DB_LWRD, hi); (EF10_REG_MC_DB_HWRD, lo)] /\
    (w_dev w', w_dma w') = dev_write EF10_REG_MC_DB_HWRD lo
      (dev_write EF10_REG_MC_DB_LWRD hi (w_dev w, (w_dma w) <| mbox := b |>))) w.
Proof.
  intros Hm Hb Hin paddr hi lo b. pose proof (pad4_room inb _ Hin (payload_room_mod cmd)) as Hpad.
  unfold payload_room in *. unfold sfc7120_mcdi_send_locked.
  apply wp_bind, wp_kassert; [now apply bool_decide_eq_true_2 |].
  apply wp_bind, wp_kassert; [unfold MCDI_PAYLOAD_LEN_MAX_V1; destruct (uses_v2 cmd); lia |].
  apply wp_bind, wp_get_sc.
  replace ((MC_CMD_V2_EXTN <=? cmd) || (MCDI_PAYLOAD_LEN_MAX_V1 <? Z.of_nat (length inb)))
    with (uses_v2 cmd) by (unfold uses_v2, MCDI_PAYLOAD_LEN_MAX_V1, MC_CMD_V2_EXTN in *;
                           destruct (0x7f <=? cmd) eqn:?; lia).
  apply wp_bind. apply wp_mono with (Q := fun off w' => off = (if uses_v2 cmd then 8 else 4) /\
    w' = with_mbox w (if uses_v2 cmd then
      buf_write (buf_write (mbox (w_dma w)) 0 (le_bytes 4 (v1_header MC_CMD_V2_EXTN 0 seq
        (mcdi_new_epoch (sc_mcdi (w_sc w)))))) 4 (le_bytes 4 (v2_header cmd (Z.of_nat (length inb))))
      else buf_write (mbox (w_dma w)) 0 (le_bytes 4 (v1_header cmd (Z.of_nat (length inb)) seq
        (mcdi_new_epoch (sc_mcdi (w_sc w))))))).
  { destruct (uses_v2 cmd); repeat (apply wp_bind, wp_write_dword; [done | done |]); apply wp_ret;
      (split; [done |]); now destruct w as [? [] ? ? ? ? ? ?]. }
  intros off ? [-> ->]. apply wp_bind.
  apply wp_mono with (Q := fun _ w' => w' = with_mbox w b).
  { assert ((0 <? Z.of_nat (length inb)) = false -> inb = []) as Hnil.
    { intros Hz%Z.ltb_ge. apply length_zero_iff_nil. lia. }
    unfold b, frame_request. destruct (uses_v2 cmd), (0 <? Z.of_nat (length inb)).
    - apply wp_write_payload; [done | lia | lia |]. now destruct w as [? [] ? ? ? ? ? ?].
    - rewrite Hnil by done. apply wp_ret. done.
    - apply wp_write_payload; [done | lia | lia |]. now destruct w as [? [] ? ? ? ? ? ?].
    - rewrite Hnil by done. apply wp_ret. done. }
  intros _ ? ->. apply wp_bind, wp_ret, wp_bind, wp_get_sc. fold paddr.
  fold hi lo. unfold SFC7120_WRITE_REG, dev_step, wp, bind, modify, ret. simpl.
  destruct (dev_write EF10_REG_MC_DB_LWRD _ _) as [d1 m1] eqn:H1. simpl.
  destruct (dev_write EF10_REG_MC_DB_HWRD _ _) as [d2 m2] eqn:H2. simpl.
  rewrite <- app_assoc. repeat split.
Qed.
End mcdi_send.

(** ** Replies *)

Definition resp_len (b : list Z) (v2 : bool) : Z :=
  if v2 then bits 16 10 (mbox_word b 1) else bits 8 8 (mbox_word b 0).

(** What a response mailbox means to the caller of a command: a wrong
    sequence number is a protocol error; with the error bit set the first
    payload word is the controller's error code; otherwise the payload, cut or
    zero-extended to the caller's buffer. *)
Definition reply_of (b : list Z) (v2 : bool) (seq out_len : Z) : Z * mcdi_reply :=
  let off := if v2 then 8%nat else 4%nat in
  let h := mbox_word b 0 in
  if negb (bits 16 4 h =? seq) then (EPROTO, None)
  else if Z.testbit h 22 then
    (sfc7120_mcdi_xlate_err (if 4 <=? resp_len b v2 then le_word (buf_read b off 4) else 0), None)
  else
    let copy := Z.min (resp_len b v2) out_len in
    (0, Some (buf_read b off (Z.to_nat copy) ++ replicate (Z.to_nat (out_len - copy)) 0, copy)).

Lemma bits_bound (lo w z : Z) : 0 <= lo -> 0 <= w -> 0 <= bits lo w z < 2 ^ w.
Proof. intros. rewrite bits_div_mod by lia. apply Z.mod_pos_bound. lia. Qed.

Lemma resp_len_bound b v2 : 0 <= resp_len b v2 < 1024.
Proof.
  unfold resp_len. destruct v2; [apply (bits_bound 16 10); lia |].
  pose proof (bits_bound 8 8 (mbox_word b 0)). lia.
Qed.

(** The controller's error codes become errno values: success for code 0
    only. *)
Lemma xlate_err_zero (e : Z) : sfc7120_mcdi_xlate_err e = 0 <-> e = 0.
Proof.
  split; [| now intros ->]. unfold sfc7120_mcdi_xlate_err.
  destruct e as [| p | p]; [done | | done].
  do 7 (destruct p as [p | p |]; try done).
Qed.

(** The longest the polling loop waits, from a delay and a total: the loop
    with a controller that never answers. *)
Definition next_delay (d : Z) : Z :=
  if SFC7120_MCDI_POLL_MAX_US <? u32 (d * 2) then SFC7120_MCDI_POLL_MAX_US else u32 (d * 2).

Fixpoint poll_budget (fuel : nat) (delay total : Z) : option Z :=
  match fuel with
  | O => None
  | S f => if SFC7120_MCDI_TIMEOUT_US <=? total then Some 0
           else if (0 <=? delay) && (total + delay <? 2 ^ 32) then
             option_map (Z.add delay) (poll_budget f (next_delay delay) (total + delay))
           else None
  end.

Definition MCDI_MAX_WAIT_US : Z := 10063830.

Lemma poll_budget_fuel : poll_budget MCDI_POLL_FUEL SFC7120_MCDI_POLL_MIN_US 0 = Some MCDI_MAX_WAIT_US.
Proof. vm_compute. reflexivity. Qed.

Lemma poll_budget_pos n delay total b : poll_budget n delay total = Some b -> 0 <= b.
Proof.
  revert delay total b. induction n as [| n IH]; [done |]. intros delay total b. cbn [poll_budget].
  destruct (_ <=? total); [intros; simplify_eq; lia |]. destruct (_ && _) eqn:Hc; [| done].
  destruct (poll_budget n _ _) eqn:Hp; [| done]. intros; simplify_eq/=. apply IH in Hp. lia.
Qed.

(** How often the loop polls a controller that never answers. *)
Fixpoint poll_count (fuel : nat) (delay total : Z) : nat :=
  match fuel with
  | O => O
  | S f => if SFC7120_MCDI_TIMEOUT_US <=? total then 1%nat else S (poll_count f (next_delay delay) (total + delay))
  end.

Lemma poll_count_fuel : poll_count MCDI_POLL_FUEL SFC7120_MCDI_POLL_MIN_US 0 = 114%nat.
Proof. vm_compute. reflexivity. Qed.

Section mcdi_exec.
Context {D : Type} `{!Device D} `{!DeviceLaws D}.
Abbreviation world := (world D).
Implicit Types (w : world).

Lemma mbox_word_bound b i : Forall is_byte b -> (4 * i + 4 <= length b)%nat -> 0 <= mbox_word b i < 2 ^ 32.
Proof.
  intros Hb Hl. unfold mbox_word. pose proof (le_word_bound (buf_read b (4 * i) 4)) as H.
  rewrite length_buf_read in H by done. apply H. now apply buf_read_is_byte.
Qed.

Lemma read_reply_spec v2 seq out_len w :
  w_wf w -> 0 <= out_len <= (if v2 : bool then 248 else 252) ->
  mcdi_read_reply seq (if v2 then 8 else 4) out_len w
  = Some (reply_of (mbox (w_dma w)) v2 seq out_len, w).
Proof.
  intros [[Hl Hb] _ _ _] Hout.
  assert (wp (mcdi_read_reply seq (if v2 then 8 else 4) out_len)
    (fun r w' => r = reply_of (mbox (w_dma w)) v2 seq out_len /\ w' = w) w) as Hw.
  2: { apply wp_run in Hw as (r & w' & -> & -> & ->). done. }
  unfold mcdi_read_reply, reply_of. set (b := mbox (w_dma w)) in *.
  apply wp_bind, wp_read_dword; [done | done |].
  change (buf_read (mbox (w_dma w)) (Z.to_nat 0) 4) with (buf_read b (4 * 0) 4). fold (mbox_word b 0).
  apply wp_bind, wp_mono with (Q := fun l w' => l = resp_len b v2 /\ w' = w).
  { unfold resp_len, bits. destruct v2; [| now apply wp_ret].
    apply wp_bind, wp_read_dword; [done | done |]. now apply wp_ret. }
  intros ? ? [-> ->]. fold (bits MCDI_HDR_SEQ_SHIFT 4 (mbox_word b 0)).
  change (Z.land (Z.shiftr (mbox_word b 0) MCDI_HDR_SEQ_SHIFT) MCDI_HDR_SEQ_MASK)
    with (bits 16 4 (mbox_word b 0)).
  destruct (negb (_ =? seq)); [now apply wp_ret |].
  replace (negb (Z.land (Z.shiftr (mbox_word b 0) MCDI_HDR_ERROR_SHIFT) 1 =? 0))
    with (Z.testbit (mbox_word b 0) 22).
  2: { unfold MCDI_HDR_ERROR_SHIFT. rewrite testbit_div_mod by lia.
       rewrite (land_mask _ 1 1), Z.shiftr_div_pow2 by (lia || done).
       change (2 ^ 1) with 2. pose proof (Z.mod_pos_bound (mbox_word b 0 / 2 ^ 22) 2 ltac:(lia)). lia. }
  pose proof (resp_len_bound b v2).
  destruct (Z.testbit _ 22).
  - apply wp_bind. destruct (4 <=? resp_len b v2); [| now apply wp_ret, wp_ret].
    destruct v2; (apply wp_read_dword; [lia | lia |]); apply wp_ret.
    + change (Z.to_nat 8) with 8%nat. fold b. split; reflexivity.
    + change (Z.to_nat 4) with 4%nat. fold b. split; reflexivity.
  - destruct (Z.ltb_spec 0 out_len).
    2: { apply wp_ret. replace out_len with 0 by lia. rewrite Z.min_r by lia. done. }
    replace (if resp_len b v2 <? out_len then resp_len b v2 else out_len)
      with (Z.min (resp_len b v2) out_len) by (destruct (Z.ltb_spec (resp_len b v2) out_len); lia).
    set (copy := Z.min _ _). apply wp_bind. destruct (Z.ltb_spec 0 copy).
    2: { replace copy with 0 by lia. now apply wp_ret, wp_ret. }
    assert (copy <= out_len) as Hcopy by lia. rewrite <- (Z2Nat.id copy) in Hcopy by lia.
    set (n := Z.to_nat copy) in *. clear -Hl Hb Hout Hcopy.
    destruct v2; (apply wp_read_payload; [done | done | lia | zdiv |]); apply wp_ret.
    + change (Z.to_nat 8) with 8%nat. fold b. split; reflexivity.
    + change (Z.to_nat 4) with 4%nat. fold b. split; reflexivity.
Qed.

(** The response bit, as the loop tests it. *)
Lemma response_bit (h : Z) :
  negb (Z.land (Z.shiftr h MCDI_HDR_RESPONSE_SHIFT) 1 =? 0) = Z.testbit h 23.
Proof.
  unfold MCDI_HDR_RESPONSE_SHIFT. rewrite testbit_div_mod by lia.
  rewrite (land_mask _ 1 1), Z.shiftr_div_pow2 by (lia || done).
  change (2 ^ 1) with 2. pose proof (Z.mod_pos_bound (h / 2 ^ 23) 2 ltac:(lia)). lia.
Qed.

(** Device and memory as poll number [n] finds them: a sync, and before it a
    sync and a delay for each earlier poll. *)
Fixpoint poll_at (n : nat) (delay : Z) (x : D * dma) : D * dma :=
  match n with
  | O => dev_sync x
  | S n' => poll_at n' (next_delay delay) (dev_delay delay (dev_sync x))
  end.

Definition answered (x : D * dma) : bool := Z.testbit (mbox_word (mbox (snd x)) 0) 23.

(** What [n] polls from [x] come to: the first poll that finds the response bit
    set ends them, in the state it found; or none finds it. *)
Definition poll_outcome (n : nat) (delay : Z) (x : D * dma) (arrived : bool) (x' : D * dma) : Prop :=
  if arrived then exists k, (k < n)%nat /\ (forall j, (j < k)%nat -> answered (poll_at j delay x) = false) /\
    answered (poll_at k delay x) = true /\ x' = poll_at k delay x
  else forall j, (j < n)%nat -> answered (poll_at j delay x) = false.

Lemma poll_outcome_step n delay x arrived x' :
  answered (dev_sync x) = false ->
  poll_outcome n (next_delay delay) (dev_delay delay (dev_sync x)) arrived x' -> poll_outcome (S n) delay x arrived x'.
Proof.
  intros Hn. unfold poll_outcome. destruct arrived.
  - intros (k & Hk & Hj & Ha & ->). exists (S k). split_and!; [lia | | exact Ha | done].
    intros [| j] Hlt; [exact Hn | apply Hj; lia].
  - intros Hj [| j] Hlt; [exact Hn | apply Hj; lia].
Qed.

Lemma wp_poll_response (Q : bool -> world -> Prop) w :
  w_wf w -> mcdi_mtx (sc_mcdi (w_sc w)) = MtxHeld ->
  Q (answered (dev_sync (w_dev w, w_dma w))) (synced w) -> wp sfc7120_mcdi_poll_response Q w.
Proof.
  intros Hwf Hm HQ. apply wp_bind, wp_kassert; [now apply bool_decide_eq_true_2 |].
  apply wp_bind, wp_synced, wp_bind, wp_read_dword; [done | done |]. apply wp_ret. rewrite response_bit. exact HQ.
Qed.

Lemma poll_loop_spec fuel delay total budget w :
  w_wf w -> mcdi_mtx (sc_mcdi (w_sc w)) = MtxHeld -> 0 <= total ->
  poll_budget fuel delay total = Some budget ->
  wp (mcdi_poll_loop fuel delay total) (fun arrived w' =>
    w_wf w' /\ dev_frame w w' /\ w_log w' = w_log w /\ w_time w' <= w_time w + budget /\
    (arrived = false -> w_time w' = w_time w + budget) /\
    poll_outcome (poll_count fuel delay total) delay (w_dev w, w_dma w) arrived (w_dev w', w_dma w')) w.
Proof.
  revert delay total budget w. induction fuel as [| fuel IH]; intros delay total budget w Hwf Hm Ht Hbud; [done |].
  assert (0 <= budget) as Hpos by (eapply poll_budget_pos; exact Hbud).
  cbn [mcdi_poll_loop poll_budget poll_count] in *. apply wp_bind, wp_poll_response; [done | done |].
  pose proof (synced_frame w) as Hf1.
  assert ((w_dev (synced w), w_dma (synced w)) = dev_sync (w_dev w, w_dma w)) as Ex by (cbn; now destruct (dev_sync _)).
  destruct (answered _) eqn:Hbit.
  { apply wp_ret. split_and!; [now apply synced_wf | done | done | cbn; lia | done |].
    exists 0%nat. split_and!; [destruct (_ <=? total); lia | lia | exact Hbit | exact Ex]. }
  destruct (Z.leb_spec SFC7120_MCDI_TIMEOUT_US total).
  { apply wp_ret. simplify_eq. split_and!; [now apply synced_wf | done | done | cbn; lia | cbn; lia |].
    intros [| j] Hj; [exact Hbit | lia]. }
  destruct ((0 <=? delay) && (total + delay <? 2 ^ 32)) eqn:Hc; [| done].
  destruct (poll_budget fuel _ _) as [b |] eqn:Hb; [| done]. simpl in Hbud. simplify_eq.
  apply wp_bind, wp_delayed. set (w2 := delayed delay (synced w)).
  replace (u32 (total + delay)) with (total + delay) by (unfold u32; rewrite Z.mod_small; lia).
  eapply wp_mono; [apply (IH _ _ b w2); [now apply delayed_wf, synced_wf | done | lia | exact Hb] |].
  intros arrived w' (Hwf3 & Hf & Hlog & Hle & Hto & Hr).
  assert (dev_frame w w2) as Hf2 by (apply (dev_frame_trans w (synced w)); [done | apply delayed_frame; lia]).
  split_and!; [done | now apply (dev_frame_trans w w2) | done | cbn in Hle; lia |
               intros Ha; specialize (Hto Ha); cbn in Hto; lia |].
  apply poll_outcome_step; [done |]. rewrite <- Ex.
  replace (dev_delay delay (w_dev (synced w), w_dma (synced w))) with (w_dev w2, w_dma w2)
    by (unfold w2, delayed; cbn; now destruct (dev_delay _ _)). exact Hr.
Qed.
End mcdi_exec.

(** ** The transport's contract *)

Section mcdi_contract.
Context {D : Type} `{!Device D} `{!DeviceLaws D}.
Abbreviation world := (world D).
Implicit Types (w : world).

(** The transport is up: initialised, idle, and its mailbox is memory. *)
Record mcdi_ready w : Prop := {
  rd_init : mcdi_initialized (sc_mcdi (w_sc w)) = true;
  rd_mtx : mcdi_mtx (sc_mcdi (w_sc w)) = MtxFree;
  rd_seq : 0 <= mcdi_seq (sc_mcdi (w_sc w)) < 16;
  rd_wf : w_wf w;
}.

(** The driver's state after a command: the next sequence number, no new
    epoch, and nothing else. *)
Definition advance (sc : sfc7120_softc) : sfc7120_softc :=
  sc <| sc_mcdi ::= fun m => m <| mcdi_new_epoch := false |>
                               <| mcdi_seq ::= fun s => (s + 1) mod 16 |> |>.

Lemma advance_seq s : Z.land (u8 (s + 1)) MCDI_HDR_SEQ_MASK = (s + 1) mod 16.
Proof. unfold u8, MCDI_HDR_SEQ_MASK. rewrite land_0xf. zdiv. Qed.

Lemma wp_advance (Q : unit -> world -> Prop) w :
  mcdi_mtx (sc_mcdi (w_sc w)) = MtxHeld ->
  Q tt (w <| w_sc ::= fun sc => (advance sc) <| sc_mcdi ::= fun m => m <| mcdi_mtx := MtxFree |> |> |>) ->
  wp mcdi_advance Q w.
Proof.
  intros Hm HQ. apply wp_bind, wp_mod_sc. apply wp_bind, wp_kassert; [now apply bool_decide_eq_true_2 |].
  apply wp_mod_sc. revert HQ. unfold advance. simpl. now rewrite advance_seq.
Qed.

Lemma wp_timeout_dump (Q : unit -> world -> Prop) w :
  w_wf w -> (forall d m, dma_wf m -> Q tt (w <| w_dev := d |> <| w_dma := m |>)) ->
  wp mcdi_timeout_dump Q w.
Proof.
  intros Hw HQ. unfold mcdi_timeout_dump. apply wp_bind, wp_sync_postread; [done |]. intros d1 m1 H1.
  do 4 (apply wp_bind, wp_read_dword; [done | done |]).
  apply wp_bind, wp_READ_REG; [done |]. intros v2 d2 m2 H2.
  apply wp_bind, wp_READ_REG; [done |]. intros v3 d3 m3 H3. apply wp_ret. exact (HQ d3 m3 H3).
Qed.

(** Device and memory once the request is in the mailbox and the doorbell pair rung. *)
Definition requested (cmd : Z) (inb : list Z) w : D * dma :=
  let paddr := db_paddr (mcdi_buf (sc_dma (w_sc w))) in
  let m := sc_mcdi (w_sc w) in
  dev_write EF10_REG_MC_DB_HWRD (u32 (u32 (Z.land paddr 0xffffffff)))
    (dev_write EF10_REG_MC_DB_LWRD (u32 (u32 (Z.shiftr paddr 32)))
      (w_dev w, (w_dma w) <| mbox ::= fun b => frame_request b cmd inb (mcdi_seq m) (mcdi_new_epoch m) |>)).

(** What a command of admissible size returns, from what the device does with
    the request: at the first of the 114 polls that finds the response bit
    set, the meaning of the mailbox it finds; if none does, a timeout after the
    full wait. *)
Definition exec_outcome (cmd : Z) (inb : list Z) (out_len : Z) w (r : Z * mcdi_reply) w' : Prop :=
  exists arrived x, poll_outcome 114 SFC7120_MCDI_POLL_MIN_US (requested cmd inb w) arrived x /\
    if arrived : bool then
      r = reply_of (mbox (snd x)) (uses_v2 cmd) (mcdi_seq (sc_mcdi (w_sc w))) out_len /\
      (w_dev w', w_dma w') = x /\ dma_wf (snd x)
    else r = (ETIMEDOUT, None) /\ w_time w' = w_time w + MCDI_MAX_WAIT_US.

Lemma exec_spec cmd inb out_len w :
  mcdi_ready w -> Forall is_byte inb ->
  Z.of_nat (length inb) <= payload_room cmd -> 0 <= out_len <= payload_room cmd ->
  wp (sfc7120_mcdi_exec cmd inb out_len) (fun r w' =>
    w_wf w' /\ w_sc w' = advance (w_sc w) /\ w_owned w' = w_owned w /\ w_ext w' = w_ext w /\
    w_cmds w' = w_cmds w ++ [(cmd, inb)] /\
    (exists hi lo, w_log w' = w_log w ++ [(EF10_REG_MC_DB_LWRD, hi); (EF10_REG_MC_DB_HWRD, lo)]) /\
    w_time w <= w_time w' <= w_time w + MCDI_MAX_WAIT_US /\ exec_outcome cmd inb out_len w r w') w.
Proof.
  intros [Hinit Hm Hseq Hwf] Hb Hin Hout. unfold sfc7120_mcdi_exec.
  apply wp_bind, wp_get_sc. rewrite Hinit. cbn [negb].
  replace (_ || _) with false by (unfold payload_room, MCDI_PAYLOAD_LEN_MAX_V1 in *; destruct (uses_v2 cmd); lia).
  apply wp_bind. apply wp_bind, wp_kassert; [now apply bool_decide_eq_true_2 |]. apply wp_mod_sc.
  set (w1 := w <| w_sc ::= _ |>). apply wp_bind, wp_get_sc, wp_bind.
  assert (Z.land (mcdi_seq (sc_mcdi (w_sc w1))) MCDI_HDR_SEQ_MASK = mcdi_seq (sc_mcdi (w_sc w))) as ->.
  { unfold MCDI_HDR_SEQ_MASK. rewrite land_0xf. simpl. apply Z.mod_small. lia. }
  eapply wp_mono; [now apply send_locked_spec |].
  intros off w2 (-> & Hsc & Hown & Hext & Htime & Hcmds & Hlog & Hdev).
  assert (w_wf w2) as Hwf2.
  { assert (w_dma w2 = snd (w_dev w2, w_dma w2)) as E by done. unfold w_wf. rewrite E, Hdev.
    apply dev_write_wf, dev_write_wf. destruct Hwf as [[Hl Hbb] ? ? ?]. split; try done. simpl.
    split; [now rewrite length_frame_request |].
    unfold frame_request. destruct (uses_v2 cmd); repeat apply buf_write_is_byte;
      auto using le_bytes_is_byte, pad4_is_byte. }
  apply wp_bind. eapply wp_mono; [eapply poll_loop_spec; [done | now rewrite Hsc | lia | apply poll_budget_fuel] |].
  intros arrived w3 (Hwf3 & [Hsc3 Hown3 Hext3 _ Hcmds3 Ht3] & Hlog3 & Hle & Hto & Hres).
  rewrite poll_count_fuel, Hdev in Hres.
  assert (mcdi_mtx (sc_mcdi (w_sc w3)) = MtxHeld) as Hheld by (rewrite Hsc3, Hsc; done).
  assert ((w_sc w3) = (w_sc w) <| sc_mcdi ::= fun m => m <| mcdi_mtx := MtxHeld |> |>) as Hsc13
    by (rewrite Hsc3, Hsc; done).
  assert ((advance (w_sc w3)) <| sc_mcdi ::= fun m => m <| mcdi_mtx := MtxFree |> |> = advance (w_sc w)) as Hadv.
  { rewrite Hsc13. destruct (w_sc w) as [? ? ? ? [mx ? ? ? ?] ? ?]. simpl in *. now subst mx. }
  assert (w_time w1 = w_time w) as Hw1 by done. assert (w_log w1 = w_log w) as Hl1 by done.
  destruct arrived.
  - apply wp_bind.
    assert (mcdi_read_reply (mcdi_seq (sc_mcdi (w_sc w))) (if uses_v2 cmd then 8 else 4) out_len w3 = _) as Hrr
      by (apply read_reply_spec; [done | exact Hout]).
    unfold wp at 1. rewrite Hrr. apply wp_bind, wp_advance; [done |]. apply wp_ret. cbn [w_wf w_sc upd].
    split; [done |]. split; [exact Hadv |]. split; [simpl; now rewrite Hown3, Hown |]. split; [simpl; now rewrite Hext3, Hext |].
    split; [simpl; now rewrite Hcmds3, Hcmds |].
    split; [do 2 eexists; simpl; rewrite Hlog3, Hlog; done |]. split; [simpl; lia |].
    exists true, (w_dev w3, w_dma w3). split; [exact Hres |]. split_and!; done.
  - apply wp_bind, wp_timeout_dump; [done |]. intros d m Hdm. apply wp_bind, wp_advance; [done |].
    apply wp_ret. split; [exact Hdm |]. split; [exact Hadv |]. simpl. split; [now rewrite Hown3, Hown |].
    split; [now rewrite Hext3, Hext |]. split; [now rewrite Hcmds3, Hcmds |]. split; [do 2 eexists; rewrite Hlog3, Hlog; done |]. split; [lia |].
    exists false, (w_dev w3, w_dma w3). split; [exact Hres |]. split; [done |]. cbn. specialize (Hto eq_refl). lia.
Qed.

(** What the caller of a command can rely on: a reply fills the caller's
    buffer with bytes and reports how many came from the controller. *)
Definition reply_ok (out_len : Z) (r : Z * mcdi_reply) : Prop :=
  match snd r with
  | Some (out, used) =>
      fst r = 0 /\ Z.of_nat (length out) = out_len /\ Forall is_byte out /\ 0 <= used <= out_len
  | None => True
  end.

Lemma reply_of_ok b v2 seq out_len :
  length b = 256%nat -> Forall is_byte b -> 0 <= out_len <= (if v2 : bool then 248 else 252) ->
  reply_ok out_len (reply_of b v2 seq out_len).
Proof.
  intros Hl Hb Hout. unfold reply_ok, reply_of. pose proof (resp_len_bound b v2).
  destruct (negb _); [done |]. destruct (Z.testbit _ 22); [done |]. cbn [snd fst].
  split; [done |]. split; [| split; [| lia]].
  - rewrite length_app, length_replicate, length_buf_read; [lia |]. destruct v2; lia.
  - apply Forall_app. split; [now apply buf_read_is_byte |]. apply Forall_replicate. unfold is_byte. lia.
Qed.

Lemma exec_outcome_ok cmd inb out_len w r w' :
  0 <= out_len <= payload_room cmd -> exec_outcome cmd inb out_len w r w' -> reply_ok out_len r.
Proof.
  intros Hout ([] & x & _ & Hr); [| now destruct Hr as [-> _]]. destruct Hr as (-> & _ & [[Hl Hb] _ _ _]). now apply reply_of_ok.
Qed.

(** C36. A request reaches the controller as it was asked: when the doorbell
    write that triggers the controller happens, the mailbox decodes to the
    command, the sequence number, the epoch and the very payload bytes of the
    request, with the response bit clear; the high half of the mailbox address
    was written first, and the driver's state is unchanged. *)
Theorem mcdi_request_roundtrip cmd inb seq w :
  mcdi_mtx (sc_mcdi (w_sc w)) = MtxHeld -> w_wf w -> Forall is_byte inb ->
  0 <= cmd < 32768 -> 0 <= seq < 16 -> Z.of_nat (length inb) <= payload_room cmd ->
  wp (sfc7120_mcdi_send_locked cmd inb seq) (fun off w' =>
    off = (if uses_v2 cmd then 8 else 4) /\ w_sc w' = w_sc w /\
    exists b hi lo,
      decode_request b = McdiRequest cmd seq (mcdi_new_epoch (sc_mcdi (w_sc w))) inb /\
      Z.testbit (mbox_word b 0) 23 = false /\
      hi = db_paddr (mcdi_buf (sc_dma (w_sc w))) / 2 ^ 32 mod 2 ^ 32 /\
      lo = db_paddr (mcdi_buf (sc_dma (w_sc w))) mod 2 ^ 32 /\
      w_log w' = w_log w ++ [(EF10_REG_MC_DB_LWRD, hi); (EF10_REG_MC_DB_HWRD, lo)] /\
      (w_dev w', w_dma w') = dev_write EF10_REG_MC_DB_HWRD lo
        (dev_write EF10_REG_MC_DB_LWRD hi (w_dev w, (w_dma w) <| mbox := b |>))) w.
Proof.
  intros Hm [[Hl _] _ _ _] Hb Hc Hs Hin. eapply wp_mono; [now apply send_locked_spec |].
  intros off w' (-> & Hsc & _ & _ & _ & _ & Hlog & Hdev). split; [done |]. split; [done |].
  destruct (frame_request_decodes (mbox (w_dma w)) cmd inb seq
    (mcdi_new_epoch (sc_mcdi (w_sc w))) Hl Hb Hc Hs Hin) as [Hd Hr].
  exists (frame_request (mbox (w_dma w)) cmd inb seq (mcdi_new_epoch (sc_mcdi (w_sc w)))).
  do 2 eexists.
  split; [exact Hd |]. split; [exact Hr |]. unfold u32 in Hlog, Hdev. rewrite !Z.mod_mod in Hlog, Hdev by lia.
  rewrite land_0xffffffff in Hlog, Hdev. change 4294967296 with (2 ^ 32) in Hlog, Hdev.
  rewrite Z.shiftr_div_pow2 in Hlog, Hdev by lia. rewrite Z.mod_mod in Hlog, Hdev by lia. done.
Qed.

(** C27. Every admissible MCDI command returns, whatever the device does: it
    polls at most 114 times and waits at most 10.06 seconds, never touches
    memory outside the mailbox, leaves the mutex free and the resources alone,
    rings the doorbell pair exactly once, and advances the sequence number and
    the epoch on every path.  It returns at the first poll that finds the
    response bit set, with the meaning of the mailbox that poll finds, the
    device having been given the request and the time between the polls; when
    none of the 114 polls finds it, it reports a timeout after the full wait.
    Admissible is a request and a reply of at most 252 bytes, 248 for the
    commands with the extended header ([payload_room]; [mcdi_v2_overflow] is
    what happens beyond). *)
Theorem mcdi_exec_returns cmd inb out_len w :
  mcdi_ready w -> Forall is_byte inb ->
  Z.of_nat (length inb) <= payload_room cmd -> 0 <= out_len <= payload_room cmd ->
  wp (sfc7120_mcdi_exec cmd inb out_len) (fun r w' =>
    mcdi_ready w' /\ w_sc w' = advance (w_sc w) /\ w_owned w' = w_owned w /\
    (exists hi lo, w_log w' = w_log w ++ [(EF10_REG_MC_DB_LWRD, hi); (EF10_REG_MC_DB_HWRD, lo)]) /\
    w_time w' - w_time w <= MCDI_MAX_WAIT_US /\ exec_outcome cmd inb out_len w r w') w.
Proof.
  intros Hr Hb Hin Hout. eapply wp_mono; [now apply exec_spec |].
  intros r w' (Hwf & Hsc & Hown & _ & _ & Hlog & Ht & Hres). destruct Hr as [Hi Hm Hs _].
  split; [split; [now rewrite Hsc | now rewrite Hsc | | done] |].
  { rewrite Hsc. simpl. pose proof (Z.mod_pos_bound (mcdi_seq (sc_mcdi (w_sc w)) + 1) 16). lia. }
  repeat split; try done. lia.
Qed.

(** An error response that carries no error code is reported as
    success: with the error bit set and fewer than four payload bytes, the
    reply is return code 0 with the caller's buffers untouched. *)
Theorem mcdi_error_without_code v2 seq out_len w :
  w_wf w -> 0 <= out_len <= (if v2 : bool then 248 else 252) ->
  bits 16 4 (mbox_word (mbox (w_dma w)) 0) = seq ->
  Z.testbit (mbox_word (mbox (w_dma w)) 0) 22 = true ->
  resp_len (mbox (w_dma w)) v2 < 4 ->
  mcdi_read_reply seq (if v2 then 8 else 4) out_len w = Some ((0, None), w).
Proof.
  intros Hwf Hout Hs He Hl. rewrite read_reply_spec by done. unfold reply_of.
  rewrite Hs, Z.eqb_refl, He. cbn [negb]. now replace (4 <=? resp_len _ v2) with false by lia.
Qed.

Lemma write_payload_panics src off w :
  Forall is_byte src -> 0 <= off -> off + Z.of_nat (length (pad4 src)) > 256 -> src <> [] ->
  mcdi_buf_write_payload off src w = None.
Proof.
  revert off w. induction src as [| a | a b | a b c | a b c d l IH] using list4_ind;
    intros off w Hb H0 Hlen Hne; [done | ..].
  1-3: cbn [pad4] in Hlen; rewrite length_le_bytes in Hlen; apply write_dword_panics; lia.
  cbn [mcdi_buf_write_payload]. unfold bind. destruct (decide (256 < off + 4)).
  { now rewrite write_dword_panics. }
  destruct (mcdi_buf_write_dword off _ w) as [[? w'] |]; [| done]. cbn [pad4 length] in Hlen.
  rewrite !Forall_cons_iff in Hb. destruct l; [cbn in Hlen; lia |]. apply IH; [tauto | lia | lia | done].
Qed.

(** The size test of exec admits requests the mailbox has no room for:
    a command that needs the extended header with a payload of 249 to 252
    bytes passes it, and the payload is written past the end of the 256-byte
    mailbox. *)
Theorem mcdi_v2_overflow cmd inb out_len w :
  mcdi_ready w -> Forall is_byte inb -> uses_v2 cmd = true ->
  249 <= Z.of_nat (length inb) <= 252 -> 0 <= out_len <= 252 ->
  sfc7120_mcdi_exec cmd inb out_len w = None.
Proof.
  intros [Hinit Hm _ _] Hb Hv Hin Hout. unfold sfc7120_mcdi_exec, bind, get_sc, gets, ret.
  rewrite Hinit. cbn [negb].
  replace (_ || _) with false by (unfold MCDI_PAYLOAD_LEN_MAX_V1; lia).
  unfold SFC7120_MCDI_LOCK, bind, kassert. rewrite bool_decide_eq_true_2 by done.
  unfold mod_mcdi, mod_sc, modify. set (w1 := w <| w_sc ::= _ |>).
  replace (sfc7120_mcdi_send_locked cmd inb _ w1) with (@None (Z * world)); [done |].
  symmetry. unfold sfc7120_mcdi_send_locked, mcdi_mtx_assert, bind, kassert.
  rewrite bool_decide_eq_true_2 by done.
  replace (Z.of_nat (length inb) <=? MCDI_PAYLOAD_LEN_MAX_V1) with true
    by (unfold MCDI_PAYLOAD_LEN_MAX_V1; lia).
  unfold get_sc, gets. replace (_ || _) with true by (unfold uses_v2 in Hv; rewrite Hv; done).
  destruct (mcdi_buf_write_dword 0 _ w1) as [[? w2] |]; [| done].
  destruct (mcdi_buf_write_dword MCDI_HEADER_LEN _ w2) as [[? w3] |]; [| done]. unfold ret.
  replace (0 <? Z.of_nat (length inb)) with true by lia.
  rewrite write_payload_panics; [done | done | done | | now destruct inb].
  rewrite length_pad4. unfold MCDI_V2_HEADER_LEN. zdiv.
Qed.
End mcdi_contract.

(** ** Bring-up and tear-down *)

Section mcdi_lifecycle.
Context {D : Type} `{!Device D} `{!DeviceLaws D}.
Abbreviation world := (world D).
Implicit Types (w : world).

(** The mailbox is allocated the way the rings are, and its alignment
    assertion holds. *)
Lemma mcdi_alloc_buf_spec ns base w :
  dma_state ns base w -> NMcdi ∉ ns ->
  wp sfc7120_mcdi_alloc_buf (alloc_post ns base NMcdi w) w.
Proof.
  intros Hs Hn. pose proof (alloc_dmabuf_spec ns base NMcdi 1 w Hs Hn ltac:(lia)) as Hw.
  revert Hw. unfold wp, sfc7120_alloc_dmabuf, sfc7120_mcdi_alloc_buf, bind, ret.
  destruct (bus_dma_tag_create NMcdi w) as [[e1 w1] |]; [| done]. destruct (negb (e1 =? 0)); [done |].
  destruct (bus_dmamem_alloc NMcdi w1) as [[e2 w2] |]; [| done]. destruct (negb (e2 =? 0)); [done |].
  destruct (mod_dmabuf NMcdi _ w2) as [[? w3] |]; [| done].
  destruct (bus_dmamap_load NMcdi (256 * 1) w3) as [[e4 w4] |] eqn:Hload; [| done].
  change (256 * 1) with 256 in Hload. rewrite Hload.
  destruct (get_dmabuf NMcdi w4) as [[b w5] |] eqn:Hget; [| done].
  destruct (negb (e4 =? 0) || (db_paddr b =? 0)) eqn:Hc; [done |].
  intros [Hf [[_ Hs'] | [He _]]]; [| done]. unfold kassert.
  destruct (ds_live _ _ _ Hs' NMcdi ltac:(set_solver)) as (_ & _ & _ & Hal).
  change (dmabuf_of NMcdi (sc_dma (w_sc w5))) with (mcdi_buf (sc_dma (w_sc w5))) in Hal.
  rewrite (land_mask _ 0xff 8) by (lia || done). change (2 ^ 8) with 256.
  rewrite Hal. simpl. split; [done |]. auto.
Qed.

Lemma mcdi_free_buf_spec ns base w :
  dma_state (NMcdi :: ns) base w -> NMcdi ∉ ns ->
  wp sfc7120_mcdi_free_buf (fun _ w' =>
    dma_frame w w' /\ dma_state ns base w' /\ w_dma w' = w_dma w /\ w_ext w' = w_ext w) w.
Proof. apply free_dmabuf_spec. Qed.

Lemma wp_mcdi_mtx_init (Q : unit -> world -> Prop) w :
  mcdi_mtx (sc_mcdi (w_sc w)) = MtxUninit ->
  Q tt (w <| w_sc ::= fun sc => sc <| sc_mcdi ::= fun m => m <| mcdi_mtx := MtxFree |> |> |>) ->
  wp mcdi_mtx_init Q w.
Proof. intros Hm HQ. apply wp_bind, wp_kassert; [now apply bool_decide_eq_true_2 |]. exact HQ. Qed.

Lemma wp_mcdi_mtx_destroy (Q : unit -> world -> Prop) w :
  mcdi_mtx (sc_mcdi (w_sc w)) = MtxFree ->
  Q tt (w <| w_sc ::= fun sc => sc <| sc_mcdi ::= fun m => m <| mcdi_mtx := MtxUninit |> |> |>) ->
  wp mcdi_mtx_destroy Q w.
Proof. intros Hm HQ. apply wp_bind, wp_kassert; [now apply bool_decide_eq_true_2 |]. exact HQ. Qed.

(** The buffers do not depend on the parts of the state the device and the
    MCDI bookkeeping change. *)
Lemma dma_state_ext ns base w w' :
  dma_state ns base w -> sc_dma (w_sc w') = sc_dma (w_sc w) -> w_owned w' = w_owned w -> w_wf w' ->
  dma_state ns base w'.
Proof. intros [? ? ? ?] E1 E2 ?. split; rewrite ?E1, ?E2; auto. Qed.

(** The transport is down. *)
Definition mcdi_down w : Prop :=
  mcdi_initialized (sc_mcdi (w_sc w)) = false /\ mcdi_mtx (sc_mcdi (w_sc w)) = MtxUninit.

(** What bring-up and tear-down of the transport leave alone. *)
Record mcdi_frame w w' : Prop := {
  mf_pci : sc_pci (w_sc w') = sc_pci (w_sc w);
  mf_rings : sc_rings (w_sc w') = sc_rings (w_sc w);
  mf_life : sc_life (w_sc w') = sc_life (w_sc w);
  mf_fw : sc_fw (w_sc w') = sc_fw (w_sc w);
  mf_link : sc_link (w_sc w') = sc_link (w_sc w);
  mf_cmds : w_cmds w' = w_cmds w;
}.

Lemma mcdi_frame_dma w w' : dma_frame w w' -> mcdi_frame w w'.
Proof. intros []. now split. Qed.

Lemma mcdi_frame_trans w1 w2 w3 : mcdi_frame w1 w2 -> mcdi_frame w2 w3 -> mcdi_frame w1 w3.
Proof. intros [] []. split; congruence. Qed.

Definition init_post ns base w (e : Z) w' : Prop :=
  mcdi_frame w w' /\
  ((e = 0 /\ mcdi_ready w' /\ dma_state (NMcdi :: ns) base w' /\
    mcdi_seq (sc_mcdi (w_sc w')) = 0 /\ mcdi_new_epoch (sc_mcdi (w_sc w')) = true) \/
   (e <> 0 /\ mcdi_down w' /\ dma_state ns base w')).

Lemma mcdi_init_fail_spec ns base e w0 w :
  e <> 0 -> mcdi_frame w0 w -> dma_state (NMcdi :: ns) base w -> NMcdi ∉ ns ->
  mcdi_mtx (sc_mcdi (w_sc w)) = MtxFree -> mcdi_initialized (sc_mcdi (w_sc w)) = false ->
  wp (mcdi_init_fail e) (init_post ns base w0) w.
Proof.
  intros He Hf Hs Hn Hm Hi. unfold mcdi_init_fail. apply wp_bind.
  eapply wp_mono; [now apply (mcdi_free_buf_spec ns base) |]. intros _ w1 (Hf1 & Hs1 & _).
  apply wp_bind, wp_mcdi_mtx_destroy; [destruct Hf1; congruence |]. apply wp_ret. split.
  - eapply mcdi_frame_trans; [exact Hf |]. destruct Hf1. now split.
  - right. split; [done |]. split; [split; [destruct Hf1; simpl; congruence | done] |].
    eapply dma_state_ext; [exact Hs1 | done | done | exact (ds_wf _ _ _ Hs1)].
Qed.

Lemma mcdi_init_spec ns base w :
  mcdi_down w -> dma_state ns base w -> NMcdi ∉ ns ->
  wp sfc7120_mcdi_init (init_post ns base w) w.
Proof.
  intros [Hi Hm] Hs Hn. unfold sfc7120_mcdi_init. apply wp_bind, wp_kassert; [now rewrite Hi |].
  apply wp_bind, wp_mcdi_mtx_init; [done |]. set (w0 := w <| w_sc ::= _ |>).
  assert (dma_state ns base w0) as Hs0 by (apply (dma_state_ext _ _ w); try done; exact (ds_wf _ _ _ Hs)).
  assert (mcdi_frame w w0) as Hf0 by now split.
  apply wp_bind. eapply wp_mono; [now apply (mcdi_alloc_buf_spec ns base) |].
  intros e w1 [Hf1 [[-> Hs1] | [He Hs1]]].
  2: { replace (negb (e =? 0)) with true by lia.
       apply wp_bind, wp_mcdi_mtx_destroy; [now rewrite (dm_mcdi _ _ Hf1) |]. apply wp_ret. split.
       - destruct Hf1. now split.
       - right. split; [done |]. split; [split; [simpl; now rewrite (dm_mcdi _ _ Hf1) | done] |].
         eapply dma_state_ext; [exact Hs1 | done | done | exact (ds_wf _ _ _ Hs1)]. }
  cbn [Z.eqb negb]. assert (mcdi_frame w w1) as Hf by (destruct Hf1; now split).
  assert (sc_mcdi (w_sc w1) = sc_mcdi (w_sc w0)) as Hmc by (now destruct Hf1).
  apply wp_bind, wp_ext. intros pci_cmd l. set (w2 := w1 <| w_ext := l |>).
  assert (dma_state (NMcdi :: ns) base w2) as Hs2 by (apply (dma_state_ext _ _ w1); try done; exact (ds_wf _ _ _ Hs1)).
  destruct (negb _).
  { apply mcdi_init_fail_spec; try done; [destruct Hf; now split | |]; simpl; now rewrite Hmc. }
  apply wp_bind, wp_READ_REG; [exact (ds_wf _ _ _ Hs2) |]. intros v3 d3 m3 H3.
  destruct (negb _).
  { apply mcdi_init_fail_spec; try done; [destruct Hf; now split | | |]; simpl; [| now rewrite Hmc ..].
    now apply (dma_state_ext _ _ w2). }
  apply wp_bind, wp_READ_REG; [exact H3 |]. intros v4 d4 m4 H4.
  apply wp_bind, wp_WRITE_REG; [exact H4 |]. intros d5 m5 H5. apply wp_bind, wp_mod_sc, wp_ret.
  split; [destruct Hf; now split |]. left. split; [done |]. split.
  - split; simpl; [done | now rewrite Hmc | lia | exact H5].
  - split; [now apply (dma_state_ext _ _ w2) | done].
Qed.

Lemma mcdi_fini_spec ns base w :
  mcdi_ready w -> dma_state (NMcdi :: ns) base w -> NMcdi ∉ ns ->
  wp sfc7120_mcdi_fini (fun _ w' => mcdi_frame w w' /\ mcdi_down w' /\ dma_state ns base w') w.
Proof.
  intros [Hi Hm _ _] Hs Hn. unfold sfc7120_mcdi_fini. apply wp_bind, wp_get_sc. rewrite Hi. cbn [negb].
  apply wp_bind. eapply wp_mono; [now apply (mcdi_free_buf_spec ns base) |]. intros _ w1 (Hf1 & Hs1 & _).
  apply wp_bind, wp_mcdi_mtx_destroy; [destruct Hf1; congruence |]. apply wp_mod_sc.
  split; [destruct Hf1; now split |]. split; [done |].
  eapply dma_state_ext; [exact Hs1 | done | done | exact (ds_wf _ _ _ Hs1)].
Qed.

(** Bring-up of the transport is balanced: from a state where it is
    down, init either fails and leaves it down with no mailbox, mutex or DMA
    object behind, or brings it up with a 256-byte aligned mailbox, sequence
    number 0 and a new epoch; fini then gives everything back.  No path
    panics. *)
Theorem mcdi_init_fini_balanced ns base w :
  mcdi_down w -> dma_state ns base w -> NMcdi ∉ ns ->
  wp sfc7120_mcdi_init (fun e w1 =>
    (e <> 0 /\ mcdi_down w1 /\ dma_state ns base w1) \/
    (e = 0 /\ mcdi_ready w1 /\ mcdi_seq (sc_mcdi (w_sc w1)) = 0 /\
     mcdi_new_epoch (sc_mcdi (w_sc w1)) = true /\
     db_paddr (mcdi_buf (sc_dma (w_sc w1))) mod 256 = 0 /\
     wp sfc7120_mcdi_fini (fun _ w2 => mcdi_down w2 /\ dma_state ns base w2) w1)) w.
Proof.
  intros Hd Hs Hn. eapply wp_mono; [now apply (mcdi_init_spec ns base) |].
  intros e w1 [_ [(-> & Hr & Hs1 & Hseq & Hep) | He]]; [right | left; tauto].
  destruct (ds_live _ _ _ Hs1 NMcdi ltac:(set_solver)) as (_ & _ & _ & Hal).
  do 5 (split; [done |]). eapply wp_mono; [now apply (mcdi_fini_spec ns base) |].
  now intros _ w2 (_ & ? & ?).
Qed.
End mcdi_lifecycle.
