(* ===== verification/McdiCmds.v ===== *)
(** * The MC_CMD wrappers (sfc7120_mcdi.c)

    One definition per command the driver issues: the request bytes it builds,
    how it reads the reply, and what it records in the softc.  They are written
    and verified against [McdiTransport], the promise of a command transport;
    [Mcdi] discharges it. *)

From S2P Require Import Prelude Uapi Softc Dma Mcdi.
Local Open Scope Z_scope.

(** ** The transport as its clients see it *)

Class McdiTransport (D : Type) := {
  exec : Z -> list Z -> Z -> ST (world D) (Z * mcdi_reply);
  tr_ready : world D -> Prop;
  (** A command returns, leaves the driver's own state and resources alone, is
      issued exactly once, and yields a well-formed reply. *)
  exec_law : forall cmd inb out_len w,
    tr_ready w -> Forall is_byte inb ->
    Z.of_nat (length inb) <= payload_room cmd -> 0 <= out_len <= payload_room cmd ->
    wp (exec cmd inb out_len) (fun r w' =>
      tr_ready w' /\ w_wf w' /\ sc_pci (w_sc w') = sc_pci (w_sc w) /\ sc_dma (w_sc w') = sc_dma (w_sc w) /\
      sc_rings (w_sc w') = sc_rings (w_sc w) /\ sc_life (w_sc w') = sc_life (w_sc w) /\
      sc_fw (w_sc w') = sc_fw (w_sc w) /\ sc_link (w_sc w') = sc_link (w_sc w) /\
      w_owned w' = w_owned w /\ w_ext w' = w_ext w /\
      w_cmds w' = w_cmds w ++ [(cmd, inb)] /\ reply_ok out_len r) w;
  (** Being ready concerns the transport's own state only. *)
  tr_wf : forall w, tr_ready w -> w_wf w;
  tr_stable : forall w w', tr_ready w -> sc_mcdi (w_sc w') = sc_mcdi (w_sc w) ->
    sc_dma (w_sc w') = sc_dma (w_sc w) -> w_wf w' -> tr_ready w';
}.

#[export] Instance mcdi_transport {D} `{!Device D} `{!DeviceLaws D} : McdiTransport D.
Proof.
  refine {| exec := sfc7120_mcdi_exec; tr_ready := mcdi_ready |}.
  - intros cmd inb out_len w Hr Hb Hin Hout. eapply wp_mono; [now apply exec_spec |].
    intros r w' (Hwf & Hsc & Hown & Hext & Hcmds & _ & _ & Hres). destruct Hr as [Hi Hm Hs _].
    split; [split; [now rewrite Hsc | now rewrite Hsc | | done] |].
    { rewrite Hsc. simpl. pose proof (Z.mod_pos_bound (mcdi_seq (sc_mcdi (w_sc w)) + 1) 16). lia. }
    rewrite Hsc. repeat (split; [done |]). eapply exec_outcome_ok; eauto.
  - now intros w [].
  - intros w w' [? ? ? ?] E _ ?. split; rewrite ?E; auto.
Defined.

(** ** Little-endian fields of request and reply buffers *)

Definition put32 (off v : Z) (buf : list Z) : list Z := buf_write buf (Z.to_nat off) (le_bytes 4 v).
Definition put64 (off v : Z) (buf : list Z) : list Z := buf_write buf (Z.to_nat off) (le_bytes 8 v).
Definition put_bytes (off : Z) (bs buf : list Z) : list Z := buf_write buf (Z.to_nat off) bs.
Definition get32 (off : Z) (buf : list Z) : Z := le_word (buf_read buf (Z.to_nat off) 4).
Definition zeros (n : Z) : list Z := replicate (Z.to_nat n) 0.

(** The caller's zeroed [resp] and [used] after the command. *)
Definition out_buf (n : Z) (r : mcdi_reply) : list Z * Z :=
  match r with Some x => x | None => (zeros n, 0) end.

(** ** Opcodes and message layouts *)

Definition MC_CMD_GET_ASSERTS : Z := 0x06.
Definition MC_CMD_GET_ASSERTS_OUT_LEN : Z := 140.
Definition MC_CMD_GET_VERSION : Z := 0x08.
Definition MC_CMD_GET_VERSION_OUT_LEN : Z := 32.
Definition MC_CMD_GET_VERSION_OUT_VERSION_OFST : Z := 24.
Definition MC_CMD_DRV_ATTACH : Z := 0x1c.
Definition MC_CMD_DRV_ATTACH_IN_LEN : Z := 12.
Definition MC_CMD_DRV_ATTACH_EXT_OUT_LEN : Z := 8.
Definition MC_CMD_DRV_ATTACH_OUT_LEN : Z := 4.
Definition MC_CMD_DRV_ATTACH_EXT_OUT_FUNC_FLAGS_OFST : Z := 4.
Definition MC_CMD_FW_DONT_CARE : Z := 0xffffffff.
Definition MC_CMD_FW_LOW_LATENCY : Z := 0x1.
Definition MC_CMD_ENTITY_RESET : Z := 0x20.
Definition MC_CMD_GET_PHY_CFG : Z := 0x24.
Definition MC_CMD_GET_PHY_CFG_OUT_LEN : Z := 72.
Definition MC_CMD_GET_PHY_CFG_OUT_SUPPORTED_CAP_OFST : Z := 8.
Definition MC_CMD_GET_PHY_CFG_OUT_MEDIA_TYPE_OFST : Z := 44.
Definition MC_CMD_GET_LINK : Z := 0x29.
Definition MC_CMD_GET_LINK_OUT_LEN : Z := 28.
Definition MC_CMD_GET_LINK_OUT_V2_LEN : Z := 44.
Definition MC_CMD_SET_LINK : Z := 0x2a.
Definition MC_CMD_SET_MAC : Z := 0x2c.
Definition MC_CMD_FCNTL_AUTO : Z := 0x3.
Definition SFC7120_DEFAULT_MAC_PDU : Z := 1544.
Definition SFC7120_MAC_STATS : Z := 0x2e.
Definition SFC7120_MAC_NSTATS : Z := 0x61.
Definition MC_CMD_REBOOT : Z := 0x3d.
Definition MC_CMD_GET_MAC_ADDRESSES : Z := 0x55.
Definition MC_CMD_GET_MAC_ADDRESSES_OUT_LEN : Z := 16.
Definition MC_CMD_INIT_EVQ : Z := 0x80.
Definition MC_CMD_INIT_RXQ : Z := 0x81.
Definition MC_CMD_INIT_TXQ : Z := 0x82.
Definition MC_CMD_FINI_EVQ : Z := 0x83.
Definition MC_CMD_FINI_RXQ : Z := 0x84.
Definition MC_CMD_FINI_TXQ : Z := 0x85.
Definition MC_CMD_FILTER_OP : Z := 0x8a.
Definition MC_CMD_FILTER_OP_IN_LEN : Z := 108.
Definition MC_CMD_FILTER_OP_OUT_LEN : Z := 12.
Definition MC_CMD_ALLOC_VIS : Z := 0x8b.
Definition MC_CMD_FREE_VIS : Z := 0x8c.
Definition MC_CMD_VADAPTOR_ALLOC : Z := 0x98.
Definition MC_CMD_VADAPTOR_ALLOC_IN_LEN : Z := 30.
Definition MC_CMD_VADAPTOR_FREE : Z := 0x99.
Definition MC_CMD_GET_PORT_ASSIGNMENT : Z := 0xb8.
Definition MC_CMD_GET_CAPABILITIES : Z := 0xbe.
Definition MC_CMD_GET_CAPABILITIES_OUT_LEN : Z := 20.
Definition MC_CMD_GET_FUNCTION_INFO : Z := 0xec.
Definition EVB_PORT_ID_ASSIGNED : Z := 0x01000000.

(** ** Requests *)

Definition drv_attach_req (new_state fw_id : Z) : list Z :=
  put32 8 fw_id (put32 4 1 (put32 0 new_state (zeros MC_CMD_DRV_ATTACH_IN_LEN))).

(** INIT_EVQ: CUT_THRU, RX_MERGE and TX_MERGE, and INTERRUPTING for the
    control queue. *)
Definition init_evq_flags (instance : Z) : Z :=
  let flags := Z.lor (Z.lor (Z.shiftl 1 3) (Z.shiftl 1 4)) (Z.shiftl 1 5) in
  if instance =? 0 then Z.lor flags (Z.lor (Z.lor (Z.shiftl 1 0) (Z.shiftl 1 4)) (Z.shiftl 1 5))
  else flags.

Definition init_evq_req (instance paddr nevs : Z) : list Z :=
  let buf := zeros 44 in
  let buf := put32 0 nevs buf in
  let buf := put32 4 instance buf in
  let buf := put32 16 (init_evq_flags instance) buf in
  let buf := put32 24 (if instance =? 0 then instance else 0) buf in
  put64 36 paddr buf.

(** INIT_RXQ and INIT_TXQ share their layout. *)
Definition init_q_req (flags instance target_evq paddr ndescs : Z) : list Z :=
  let buf := zeros 36 in
  let buf := put32 0 ndescs buf in
  let buf := put32 4 target_evq buf in
  let buf := put32 12 instance buf in
  let buf := put32 16 flags buf in
  let buf := put32 24 EVB_PORT_ID_ASSIGNED buf in
  put64 28 paddr buf.

Definition rxq_flags : Z := Z.lor (Z.shiftl 1 8) (Z.shiftl 1 9).
Definition txq_flags (tx_csum : Z) : Z :=
  if tx_csum =? 0 then Z.lor (Z.shiftl 1 1) (Z.shiftl 1 2) else 0.

Definition instance_req (instance : Z) : list Z := put32 0 instance (zeros 4).

Definition vadaptor_alloc_req (flags : Z) : list Z :=
  put32 8 flags (put32 0 EVB_PORT_ID_ASSIGNED (zeros MC_CMD_VADAPTOR_ALLOC_IN_LEN)).

Definition alloc_vis_req (min_count max_count : Z) : list Z :=
  put32 4 max_count (put32 0 min_count (zeros 8)).

Definition set_mac_req (mac : list Z) (fcntl : Z) : list Z :=
  let buf := put32 0 SFC7120_DEFAULT_MAC_PDU (zeros 28) in
  let buf := put32 4 0 buf in
  let buf := put_bytes 8 mac buf in
  let buf := put32 16 0 buf in
  let buf := put32 20 fcntl buf in
  put32 24 0 buf.

Definition set_link_req (cap : Z) : list Z :=
  put32 12 0 (put32 8 0 (put32 4 0 (put32 0 cap (zeros 16)))).

Definition filter_insert_req (dst_mac : option (list Z)) (match_fields : Z) : list Z :=
  let buf := put32 0 0 (zeros MC_CMD_FILTER_OP_IN_LEN) in
  let buf := put32 12 EVB_PORT_ID_ASSIGNED buf in
  let buf := put32 16 match_fields buf in
  let buf := put32 20 1 buf in
  let buf := put32 24 0 buf in
  let buf := put32 28 0 buf in
  let buf := put32 40 0xffffffff buf in
  match dst_mac with Some mac => put_bytes 52 mac buf | None => buf end.

Definition filter_remove_req (handle : Z) : list Z :=
  let handle_lo := u32 (Z.land handle 0xffffffff) in
  let handle_hi := u32 (Z.shiftr handle 32) in
  put32 8 handle_hi (put32 4 handle_lo (put32 0 1 (zeros MC_CMD_FILTER_OP_IN_LEN))).

Definition mac_stats_req (paddr : Z) : list Z :=
  put32 16 EVB_PORT_ID_ASSIGNED
    (put32 12 (SFC7120_MAC_NSTATS * 8) (put32 8 1 (put64 0 paddr (zeros 20)))).

Section cmds.
Context {D : Type} `{!Device D} `{!McdiTransport D}.
Abbreviation world := (world D).

(** ** Diagnostics and recovery *)

Definition sfc7120_mcdi_log_mc_state : ST world unit :=
  do* SFC7120_READ_REG EF10_REG_BIU_HW_REV_ID;
  do* SFC7120_READ_REG EF10_REG_BIU_MC_SFT_STATUS;
  ret tt.

(** The retry loop of GET_ASSERTS; it ends after [n] turns with the last
    return code. *)
Fixpoint get_asserts_retry (n : nat) (rc : Z) (reply : mcdi_reply) : ST world (Z * mcdi_reply) :=
  match n with
  | O => ret (rc, reply)
  | S n' =>
      let* r := exec MC_CMD_GET_ASSERTS (put32 0 1 (zeros 4)) MC_CMD_GET_ASSERTS_OUT_LEN in
      if negb (fst r =? EINTR) && negb (fst r =? EIO) then ret r
      else get_asserts_retry n' (fst r) (snd r)
  end.

Definition sfc7120_mcdi_clear_assertions : ST world Z :=
  let* r := get_asserts_retry 3 0 None in
  let '(rc, reply) := r in
  if rc =? EACCES then ret 0
  else if negb (rc =? 0) then ret rc
  else ret 0.

Definition sfc7120_mcdi_entity_reset : ST world Z :=
  let* r := exec MC_CMD_ENTITY_RESET (put32 0 1 (zeros 4)) 0 in
  let rc := fst r in
  if rc =? EACCES then ret 0
  else if negb (rc =? 0) then ret rc
  else ret 0.

Definition sfc7120_mcdi_dump_func_info : ST world Z :=
  do* exec MC_CMD_GET_PORT_ASSIGNMENT [] 4;
  do* exec MC_CMD_GET_FUNCTION_INFO [] 8;
  let* r := exec MC_CMD_GET_CAPABILITIES [] MC_CMD_GET_CAPABILITIES_OUT_LEN in
  let '(rc, reply) := r in
  let '(resp, used) := out_buf MC_CMD_GET_CAPABILITIES_OUT_LEN reply in
  do* (if negb (rc =? 0) then ret tt
       else if MC_CMD_GET_CAPABILITIES_OUT_LEN <=? used then
         mod_fw (fun f => f <| mcdi_cap_flags1 := get32 0 resp |> <| mcdi_caps_valid := true |>)
       else ret tt);
  ret 0.

(** Wait for the BIU after a controller reboot: up to 5000 reads a
    millisecond apart; the last value read. *)
Fixpoint wait_biu (n : nat) (hw_rev : Z) : ST world Z :=
  match n with
  | O => ret hw_rev
  | S n' =>
      let* hw_rev := SFC7120_READ_REG EF10_REG_BIU_HW_REV_ID in
      if hw_rev =? EF10_REG_BIU_HW_REV_ID_RESET then ret hw_rev
      else do* DELAY 1000; wait_biu n' hw_rev
  end.

Definition sfc7120_mcdi_reboot_after_assertion : ST world Z :=
  let* r := exec MC_CMD_REBOOT (put32 0 1 (zeros 4)) 0 in
  let rc := fst r in
  if (rc =? 0) || (rc =? EACCES) then ret 0
  else if negb (rc =? ETIMEDOUT) && negb (rc =? EIO) then ret rc
  else
  let* hw_rev := wait_biu (Z.to_nat 5000) 0 in
  if negb (hw_rev =? EF10_REG_BIU_HW_REV_ID_RESET) then ret EIO
  else
  do* SFC7120_MCDI_LOCK;
  do* mod_mcdi (fun m => m <| mcdi_new_epoch := true |> <| mcdi_seq := 0 |>);
  do* SFC7120_MCDI_UNLOCK;
  do* SFC7120_WRITE_REG EF10_REG_MC_DB_HWRD 1;
  ret 0.

(** ** Identity and attachment *)

Definition sfc7120_mcdi_get_version : ST world Z :=
  let* r := exec MC_CMD_GET_VERSION [] MC_CMD_GET_VERSION_OUT_LEN in
  let '(rc, reply) := r in
  let '(resp, used) := out_buf MC_CMD_GET_VERSION_OUT_LEN reply in
  if negb (rc =? 0) then ret rc
  else if used <? MC_CMD_GET_VERSION_OUT_VERSION_OFST + 8 then ret EPROTO
  else
  do* mod_fw (fun f => f <| fw_version :=
        (get32 MC_CMD_GET_VERSION_OUT_VERSION_OFST resp,
         get32 (MC_CMD_GET_VERSION_OUT_VERSION_OFST + 4) resp) |>);
  ret 0.

Definition sfc7120_mcdi_drv_attach : ST world Z :=
  let* r := exec MC_CMD_DRV_ATTACH (drv_attach_req 1 MC_CMD_FW_LOW_LATENCY)
              MC_CMD_DRV_ATTACH_EXT_OUT_LEN in
  let '(rc, reply) := r in
  let '(resp, used) := out_buf MC_CMD_DRV_ATTACH_EXT_OUT_LEN reply in
  if negb (rc =? 0) then ret rc
  else
  do* mod_fw (fun f => f <| mcdi_func_flags := 0 |>);
  if MC_CMD_DRV_ATTACH_EXT_OUT_LEN <=? used then
    do* mod_fw (fun f => f <| mcdi_func_flags :=
          get32 MC_CMD_DRV_ATTACH_EXT_OUT_FUNC_FLAGS_OFST resp |> <| drv_attached := true |>);
    ret 0
  else if used <? MC_CMD_DRV_ATTACH_OUT_LEN then ret EPROTO
  else
    do* mod_fw (fun f => f <| drv_attached := true |>);
    ret 0.

Definition sfc7120_mcdi_drv_detach : ST world Z :=
  let* attached := get_sc (fun sc => drv_attached (sc_fw sc)) in
  if negb attached then ret 0
  else
  let* r := exec MC_CMD_DRV_ATTACH (drv_attach_req 0 MC_CMD_FW_DONT_CARE)
              MC_CMD_DRV_ATTACH_EXT_OUT_LEN in
  let rc := fst r in
  do* (if rc =? 0 then mod_fw (fun f => f <| drv_attached := false |>) else ret tt);
  ret rc.

Definition sfc7120_mcdi_get_mac : ST world Z :=
  let* r := exec MC_CMD_GET_MAC_ADDRESSES [] MC_CMD_GET_MAC_ADDRESSES_OUT_LEN in
  let '(rc, reply) := r in
  let '(resp, used) := out_buf MC_CMD_GET_MAC_ADDRESSES_OUT_LEN reply in
  if negb (rc =? 0) then ret rc
  else if used <? 6 then ret EPROTO
  else
  do* mod_fw (fun f => f <| mac_addr := buf_read resp 0 6 |>);
  ret 0.

(** ** Virtual interfaces and the vAdaptor *)

Definition sfc7120_mcdi_alloc_vis (min_count max_count : Z) : ST world Z :=
  let* r := exec MC_CMD_ALLOC_VIS (alloc_vis_req min_count max_count) 8 in
  let '(rc, reply) := r in
  let '(resp, used) := out_buf 8 reply in
  if negb (rc =? 0) then ret rc
  else if used <? 8 then ret EPROTO
  else
  do* mod_fw (fun f => f <| vi_count := get32 0 resp |> <| vi_base := get32 4 resp |>
                         <| vis_allocated := true |>);
  ret 0.

Definition sfc7120_mcdi_free_vis : ST world Z :=
  let* allocated := get_sc (fun sc => vis_allocated (sc_fw sc)) in
  if negb allocated then ret 0
  else
  let* r := exec MC_CMD_FREE_VIS [] 0 in
  let rc := fst r in
  do* (if rc =? 0 then
         mod_fw (fun f => f <| vis_allocated := false |> <| vi_count := 0 |> <| vi_base := 0 |>)
       else ret tt);
  ret rc.

Definition sfc7120_mcdi_vadaptor_alloc : ST world Z :=
  let* fw := get_sc sc_fw in
  if vadaptor_allocated fw then ret 0
  else
  let flags := if mcdi_caps_valid fw && negb (Z.land (mcdi_cap_flags1 fw) (Z.shiftl 1 11) =? 0)
               then Z.shiftl 1 1 else 0 in
  let* r := exec MC_CMD_VADAPTOR_ALLOC (vadaptor_alloc_req flags) 0 in
  let rc := fst r in
  if negb (rc =? 0) then ret rc
  else
  do* mod_fw (fun f => f <| vadaptor_allocated := true |>);
  ret 0.

Definition sfc7120_mcdi_vadaptor_free : ST world Z :=
  let* allocated := get_sc (fun sc => vadaptor_allocated (sc_fw sc)) in
  if negb allocated then ret 0
  else
  let* r := exec MC_CMD_VADAPTOR_FREE (put32 0 EVB_PORT_ID_ASSIGNED (zeros 4)) 0 in
  do* mod_fw (fun f => f <| vadaptor_allocated := false |>);
  ret (fst r).

(** ** Queues *)

(** The size test shared by the three INIT commands. *)
Definition bad_ring_size (n max : Z) : bool :=
  (n <? 512) || (max <? n) || negb (Z.land n (n - 1) =? 0) || negb ((n * 8) mod 4096 =? 0).

Definition sfc7120_mcdi_init_evq (instance paddr nevs : Z) : ST world Z :=
  if bad_ring_size nevs 32768 then ret EINVAL
  else
  let* vi_count := get_sc (fun sc => vi_count (sc_fw sc)) in
  if vi_count <=? instance then ret EINVAL
  else
  let npages := nevs * SFC7120_EVQ_ENTRY_SIZE / 4096 in
  do* kassert (fun _ => npages =? 1);
  let* r := exec MC_CMD_INIT_EVQ (init_evq_req instance paddr nevs) 4 in
  let rc := fst r in
  if negb (rc =? 0) then ret rc
  else
  do* mod_rings (fun r => r <| evq_read_ptr := 0 |>);
  do* mod_fw (fun f => f <| evq_initialized := true |>);
  ret 0.

Definition sfc7120_mcdi_init_rxq (instance target_evq ring_paddr ndescs : Z) : ST world Z :=
  if bad_ring_size ndescs 4096 then ret EINVAL
  else
  let* fw := get_sc sc_fw in
  if negb (vadaptor_allocated fw) then ret EINVAL
  else if vi_count fw <=? instance then ret EINVAL
  else if vi_count fw <=? target_evq then ret EINVAL
  else
  let npages := ndescs * 8 / 4096 in
  do* kassert (fun _ => npages =? 1);
  let* r := exec MC_CMD_INIT_RXQ (init_q_req rxq_flags instance target_evq ring_paddr ndescs) 0 in
  let rc := fst r in
  if negb (rc =? 0) then ret rc
  else
  do* mod_fw (fun f => f <| rxq_initialized := true |>);
  ret 0.

(** [tx_csum] is the tunable hw.sfc7120pol.tx_csum. *)
Definition sfc7120_mcdi_init_txq (tx_csum instance target_evq ring_paddr ndescs : Z) : ST world Z :=
  if bad_ring_size ndescs 4096 then ret EINVAL
  else
  let* fw := get_sc sc_fw in
  if negb (vadaptor_allocated fw) then ret EINVAL
  else if vi_count fw <=? instance then ret EINVAL
  else if vi_count fw <=? target_evq then ret EINVAL
  else
  let npages := ndescs * 8 / 4096 in
  do* kassert (fun _ => npages =? 1);
  let* r := exec MC_CMD_INIT_TXQ
              (init_q_req (txq_flags tx_csum) instance target_evq ring_paddr ndescs) 0 in
  let rc := fst r in
  if negb (rc =? 0) then ret rc
  else
  do* mod_fw (fun f => f <| txq_initialized := true |>);
  ret 0.

Definition sfc7120_mcdi_fini_evq (instance : Z) : ST world Z :=
  let* fw := get_sc sc_fw in
  if negb (if instance =? 0 then evq_initialized fw else data_evq_initialized fw) then ret 0
  else
  let* r := exec MC_CMD_FINI_EVQ (instance_req instance) 0 in
  let rc := fst r in
  if rc =? EBUSY then ret rc
  else
  do* (if instance =? 0 then mod_fw (fun f => f <| evq_initialized := false |>)
       else mod_fw (fun f => f <| data_evq_initialized := false |>));
  ret rc.

Definition sfc7120_mcdi_fini_rxq (instance : Z) : ST world Z :=
  let* initialized := get_sc (fun sc => rxq_initialized (sc_fw sc)) in
  if negb initialized then ret 0
  else
  let* r := exec MC_CMD_FINI_RXQ (instance_req instance) 0 in
  do* mod_fw (fun f => f <| rxq_initialized := false |>);
  ret (fst r).

Definition sfc7120_mcdi_fini_txq (instance : Z) : ST world Z :=
  let* initialized := get_sc (fun sc => txq_initialized (sc_fw sc)) in
  if negb initialized then ret 0
  else
  let* r := exec MC_CMD_FINI_TXQ (instance_req instance) 0 in
  do* mod_fw (fun f => f <| txq_initialized := false |>);
  ret (fst r).

(** ** PHY, MAC and link *)

Definition MC_CMD_PHY_CAP_AN_LBN : Z := 10.
Definition MC_CMD_PHY_CAP_BASER_FEC_LBN : Z := 16.
Definition MC_CMD_PHY_CAP_RS_FEC_LBN : Z := 18.
Definition MC_CMD_PHY_CAP_25G_BASER_FEC_LBN : Z := 20.

(** The *_FEC_REQUESTED bit next to a *_FEC bit that is set. *)
Definition add_requested (lbn cap : Z) : Z :=
  if negb (Z.land cap (Z.shiftl 1 lbn) =? 0) then Z.lor cap (Z.shiftl 1 (lbn + 1)) else cap.

Definition sfc7120_mcdi_get_phy_cfg : ST world Z :=
  let* r := exec MC_CMD_GET_PHY_CFG [] MC_CMD_GET_PHY_CFG_OUT_LEN in
  let '(rc, reply) := r in
  let '(resp, used) := out_buf MC_CMD_GET_PHY_CFG_OUT_LEN reply in
  if negb (rc =? 0) then ret rc
  else if used <? MC_CMD_GET_PHY_CFG_OUT_MEDIA_TYPE_OFST + 4 then ret EPROTO
  else
  let supported_cap := get32 MC_CMD_GET_PHY_CFG_OUT_SUPPORTED_CAP_OFST resp in
  let media_type := get32 MC_CMD_GET_PHY_CFG_OUT_MEDIA_TYPE_OFST resp in
  let supported_cap := add_requested MC_CMD_PHY_CAP_BASER_FEC_LBN supported_cap in
  let supported_cap := add_requested MC_CMD_PHY_CAP_RS_FEC_LBN supported_cap in
  let supported_cap := add_requested MC_CMD_PHY_CAP_25G_BASER_FEC_LBN supported_cap in
  do* mod_link (fun l => l <| phy_supported_cap_mask := supported_cap |>
                           <| phy_media_type := media_type |>);
  ret 0.

(** [tunable] is hw.sfc7120pol.fcntl when it is set. *)
Definition sfc7120_mcdi_set_mac (tunable : option Z) : ST world Z :=
  let fcntl := match tunable with Some v => v | None => MC_CMD_FCNTL_AUTO end in
  let fcntl := if (fcntl <? 0) || (MC_CMD_FCNTL_AUTO <? fcntl) then MC_CMD_FCNTL_AUTO else fcntl in
  let* mac := get_sc (fun sc => mac_addr (sc_fw sc)) in
  let* r := exec MC_CMD_SET_MAC (set_mac_req mac fcntl) 0 in
  let rc := fst r in
  if rc =? EACCES then ret 0
  else if negb (rc =? 0) then ret rc
  else
  do* mod_link (fun l => l <| mac_configured := true |>);
  ret 0.

Definition sfc7120_mcdi_set_link : ST world Z :=
  let* supported := get_sc (fun sc => phy_supported_cap_mask (sc_link sc)) in
  let cap := Z.lor supported (Z.shiftl 1 MC_CMD_PHY_CAP_AN_LBN) in
  do* mod_link (fun l => l <| phy_adv_cap_mask := cap |>);
  let* r := exec MC_CMD_SET_LINK (set_link_req cap) 0 in
  let rc := fst r in
  if negb (rc =? 0) then ret rc
  else
  do* mod_link (fun l => l <| link_configured := true |>);
  ret 0.

Definition sfc7120_mcdi_get_link : ST world Z :=
  let* r := exec MC_CMD_GET_LINK [] MC_CMD_GET_LINK_OUT_V2_LEN in
  let '(rc, reply) := r in
  let '(resp, used) := out_buf MC_CMD_GET_LINK_OUT_V2_LEN reply in
  if negb (rc =? 0) then ret rc
  else if used <? MC_CMD_GET_LINK_OUT_LEN then ret EPROTO
  else
  let link_speed := get32 8 resp in
  let link_flags := get32 16 resp in
  let fcntl := get32 20 resp in
  do* mod_link (fun l => l <| link_up := negb (Z.land link_flags (Z.shiftl 1 0) =? 0) |>
                           <| full_duplex := negb (Z.land link_flags (Z.shiftl 1 1) =? 0) |>
                           <| link_speed_mbps := link_speed |> <| link_fcntl := fcntl |>);
  ret 0.

(** ** Receive filters *)

Definition MATCH_DST_MAC : Z := Z.shiftl 1 4.
Definition MATCH_UNKNOWN_MCAST_DST : Z := Z.shiftl 1 30.

(** The return code and the handle. *)
Definition sfc7120_mcdi_filter_insert_mac (dst_mac : option (list Z)) (match_fields : Z) :
    ST world (Z * Z) :=
  let* r := exec MC_CMD_FILTER_OP (filter_insert_req dst_mac match_fields) MC_CMD_FILTER_OP_OUT_LEN in
  let '(rc, reply) := r in
  let '(resp, used) := out_buf MC_CMD_FILTER_OP_OUT_LEN reply in
  if negb (rc =? 0) then ret (rc, 0)
  else if used <? MC_CMD_FILTER_OP_OUT_LEN then ret (EPROTO, 0)
  else
  let handle_lo := get32 4 resp in
  let handle_hi := get32 8 resp in
  if (handle_lo =? 0xffffffff) && (handle_hi =? 0xffffffff) then ret (EIO, 0)
  else ret (0, Z.lor (Z.shiftl handle_hi 32) handle_lo).

Definition sfc7120_mcdi_filter_insert : ST world Z :=
  let* fw := get_sc sc_fw in
  if rx_filter_inserted fw then ret 0
  else
  let* r := sfc7120_mcdi_filter_insert_mac (Some (mac_addr fw)) MATCH_DST_MAC in
  if negb (fst r =? 0) then ret (fst r)
  else
  do* mod_fw (fun f => f <| rx_filter_handle := snd r |> <| rx_filter_inserted := true |>);
  let* r := sfc7120_mcdi_filter_insert_mac None MATCH_UNKNOWN_MCAST_DST in
  if negb (fst r =? 0) then ret 0
  else
  do* mod_fw (fun f => f <| rx_filter_bcast_handle := snd r |>);
  ret 0.

Definition sfc7120_mcdi_filter_remove : ST world Z :=
  let* fw := get_sc sc_fw in
  if negb (rx_filter_inserted fw) then ret 0
  else
  let* r := exec MC_CMD_FILTER_OP (filter_remove_req (rx_filter_handle fw)) 0 in
  do* mod_fw (fun f => f <| rx_filter_inserted := false |>);
  ret (fst r).

(** ** Statistics *)

Definition sfc7120_mcdi_mac_stats : ST world Z :=
  let* b := get_sc (fun sc => stats_buf (sc_dma sc)) in
  if negb (db_vaddr b) then ret ENXIO
  else
  let* r := exec SFC7120_MAC_STATS (mac_stats_req (db_paddr b)) 0 in
  let rc := fst r in
  if negb (rc =? 0) then ret rc
  else
  do* sync_postread;
  ret 0.
End cmds.

(** ** Request buffers are bytes of the right length *)

Lemma zeros_is_byte n : Forall is_byte (zeros n).
Proof. apply Forall_replicate. unfold is_byte. lia. Qed.
Lemma length_zeros n : length (zeros n) = Z.to_nat n.
Proof. apply length_replicate. Qed.
Lemma put32_is_byte off v b : Forall is_byte b -> Forall is_byte (put32 off v b).
Proof. intros. apply buf_write_is_byte; auto using le_bytes_is_byte. Qed.
Lemma put64_is_byte off v b : Forall is_byte b -> Forall is_byte (put64 off v b).
Proof. intros. apply buf_write_is_byte; auto using le_bytes_is_byte. Qed.
Lemma put_bytes_is_byte off bs b : Forall is_byte bs -> Forall is_byte b -> Forall is_byte (put_bytes off bs b).
Proof. intros. now apply buf_write_is_byte. Qed.
Lemma length_put32 off v b : length (put32 off v b) = length b.
Proof. apply length_buf_write. Qed.
Lemma length_put64 off v b : length (put64 off v b) = length b.
Proof. apply length_buf_write. Qed.
Lemma length_put_bytes off bs b : length (put_bytes off bs b) = length b.
Proof. apply length_buf_write. Qed.

#[export] Hint Resolve zeros_is_byte put32_is_byte put64_is_byte put_bytes_is_byte : sfc.

Create Rewrite HintDb sfc_len.
#[export] Hint Rewrite length_put32 length_put64 length_put_bytes length_zeros : sfc_len.

(** Reading back a field that was stored, and one that was not overwritten. *)
Lemma get_put32 off v b :
  0 <= off -> off + 4 <= Z.of_nat (length b) -> get32 off (put32 off v b) = v mod 2 ^ 32.
Proof.
  intros H0 Hl. unfold get32, put32. pose proof (buf_read_write b (le_bytes 4 v) (Z.to_nat off)) as Hrw.
  rewrite length_le_bytes in Hrw. rewrite Hrw by lia. apply le_word_le_bytes.
Qed.

Lemma get_put32_ne off off' v b :
  0 <= off -> 0 <= off' -> off' + 4 <= off \/ off + 4 <= off' -> get32 off' (put32 off v b) = get32 off' b.
Proof.
  intros. unfold get32, put32. rewrite buf_read_write_disjoint; [done |]. rewrite length_le_bytes. lia.
Qed.

Lemma get32_put64_ne off off' v b :
  0 <= off -> 0 <= off' -> off' + 4 <= off \/ off + 8 <= off' -> get32 off' (put64 off v b) = get32 off' b.
Proof.
  intros. unfold get32, put64. rewrite buf_read_write_disjoint; [done |]. rewrite length_le_bytes. lia.
Qed.

Definition get64 (off : Z) (buf : list Z) : Z := le_word (buf_read buf (Z.to_nat off) 8).

Lemma get_put64 off v b :
  0 <= off -> off + 8 <= Z.of_nat (length b) -> get64 off (put64 off v b) = v mod 2 ^ 64.
Proof.
  intros H0 Hl. unfold get64, put64. pose proof (buf_read_write b (le_bytes 8 v) (Z.to_nat off)) as Hrw.
  rewrite length_le_bytes in Hrw. rewrite Hrw by lia. apply le_word_le_bytes.
Qed.

Lemma get32_bound off b : Forall is_byte b -> 0 <= off -> off + 4 <= Z.of_nat (length b) ->
  0 <= get32 off b < 2 ^ 32.
Proof.
  intros Hb H0 Hl. unfold get32. pose proof (le_word_bound (buf_read b (Z.to_nat off) 4)) as H.
  rewrite length_buf_read in H by lia. apply H. now apply buf_read_is_byte.
Qed.

(** Solve the side conditions of a command: bytes and lengths. *)
Ltac req_ok :=
  unfold drv_attach_req, init_evq_req, init_q_req, instance_req, vadaptor_alloc_req,
    alloc_vis_req, set_mac_req, set_link_req, filter_remove_req, mac_stats_req, filter_insert_req in *;
  cbv zeta;
  lazymatch goal with
  | |- Forall is_byte _ => solve [auto 12 with sfc]
  | |- _ => autorewrite with sfc_len; vm_compute; solve [intuition congruence]
  end.

Section cmd_rules.
Context {D : Type} `{!Device D} `{!DeviceLaws D} `{!McdiTransport D}.
Abbreviation world := (world D).
Implicit Types (w : world).

(** From [w], the commands [cs] were issued and the firmware, link and ring
    state became [fw], [lk] and [rg]; the rest of the driver is untouched. *)
Record cmd_post w (cs : list (Z * list Z)) (fw : fw_state) (lk : link_state) (rg : rings) w' : Prop := {
  cp_ready : tr_ready w';
  cp_pci : sc_pci (w_sc w') = sc_pci (w_sc w);
  cp_dma : sc_dma (w_sc w') = sc_dma (w_sc w);
  cp_life : sc_life (w_sc w') = sc_life (w_sc w);
  cp_owned : w_owned w' = w_owned w;
  cp_ext : w_ext w' = w_ext w;
  cp_cmds : w_cmds w' = w_cmds w ++ cs;
  cp_fw : sc_fw (w_sc w') = fw;
  cp_link : sc_link (w_sc w') = lk;
  cp_rings : sc_rings (w_sc w') = rg;
}.

Definition cmd_same w cs w' : Prop :=
  cmd_post w cs (sc_fw (w_sc w)) (sc_link (w_sc w)) (sc_rings (w_sc w)) w'.

Lemma cmd_post_refl w : tr_ready w -> cmd_same w [] w.
Proof. intros. split; try done. now rewrite app_nil_r. Qed.

Lemma cmd_post_trans w1 w2 w3 cs1 cs2 fw1 fw2 lk1 lk2 rg1 rg2 :
  cmd_post w1 cs1 fw1 lk1 rg1 w2 -> cmd_post w2 cs2 fw2 lk2 rg2 w3 ->
  cmd_post w1 (cs1 ++ cs2) fw2 lk2 rg2 w3.
Proof. intros [] []. split; try congruence. now rewrite app_assoc; congruence. Qed.

(** Recording something after a command. *)
Lemma cmd_post_sc w cs fw lk rg w' f fw' lk' rg' :
  cmd_post w cs fw lk rg w' ->
  (forall sc, sc_fw sc = fw -> sc_link sc = lk -> sc_rings sc = rg ->
     sc_pci (f sc) = sc_pci sc /\ sc_dma (f sc) = sc_dma sc /\ sc_life (f sc) = sc_life sc /\
     sc_mcdi (f sc) = sc_mcdi sc /\ sc_fw (f sc) = fw' /\ sc_link (f sc) = lk' /\ sc_rings (f sc) = rg') ->
  cmd_post w cs fw' lk' rg' (w' <| w_sc ::= f |>).
Proof.
  intros [Hr] Hf. destruct (Hf (w_sc w')) as (E1 & E2 & E3 & E4 & E5 & E6 & E7); [done .. |].
  split; simpl; try congruence. eapply tr_stable; [eassumption | simpl; congruence | simpl; congruence |].
  exact (tr_wf w' Hr).
Qed.

Lemma wp_mod_fw_post w0 cs fw lk rg g (Q : unit -> world -> Prop) w :
  cmd_post w0 cs fw lk rg w -> (forall w', cmd_post w0 cs (g fw) lk rg w' -> Q tt w') -> wp (mod_fw g) Q w.
Proof.
  intros Hp HQ. apply wp_mod_sc, HQ. eapply cmd_post_sc; [exact Hp |]. now intros sc <- <- <-.
Qed.

Lemma wp_mod_link_post w0 cs fw lk rg g (Q : unit -> world -> Prop) w :
  cmd_post w0 cs fw lk rg w -> (forall w', cmd_post w0 cs fw (g lk) rg w' -> Q tt w') -> wp (mod_link g) Q w.
Proof.
  intros Hp HQ. apply wp_mod_sc, HQ. eapply cmd_post_sc; [exact Hp |]. now intros sc <- <- <-.
Qed.

Lemma wp_mod_rings_post w0 cs fw lk rg g (Q : unit -> world -> Prop) w :
  cmd_post w0 cs fw lk rg w -> (forall w', cmd_post w0 cs fw lk (g rg) w' -> Q tt w') -> wp (mod_rings g) Q w.
Proof.
  intros Hp HQ. apply wp_mod_sc, HQ. eapply cmd_post_sc; [exact Hp |]. now intros sc <- <- <-.
Qed.

Lemma wp_exec cmd inb n (Q : Z * mcdi_reply -> world -> Prop) w :
  tr_ready w -> Forall is_byte inb ->
  Z.of_nat (length inb) <= payload_room cmd -> 0 <= n <= payload_room cmd ->
  (forall r w', cmd_same w [(cmd, inb)] w' -> reply_ok n r -> Q r w') ->
  wp (exec cmd inb n) Q w.
Proof.
  intros Hr Hb Hl Hn HQ. eapply wp_mono; [now apply exec_law |].
  intros r w' (H1 & H2 & H3 & H4 & H5 & H6 & H7 & H8 & H9 & H10 & H11 & H12). apply HQ; [now split | done].
Qed.

(** A command run and recorded: the shape of most wrappers. *)
Lemma wp_exec_from w0 cs cmd inb n (Q : Z * mcdi_reply -> world -> Prop) fw lk rg w :
  cmd_post w0 cs fw lk rg w -> Forall is_byte inb ->
  Z.of_nat (length inb) <= payload_room cmd -> 0 <= n <= payload_room cmd ->
  (forall r w', cmd_post w0 (cs ++ [(cmd, inb)]) fw lk rg w' -> reply_ok n r -> Q r w') ->
  wp (exec cmd inb n) Q w.
Proof.
  intros Hp Hb Hl Hn HQ. apply wp_exec; [apply Hp | done .. |]. intros r w' Hs Hr. apply HQ; [| done].
  unfold cmd_same in Hs. destruct Hp as [? ? ? ? ? ? ? <- <- <-].
  eapply cmd_post_trans; [| exact Hs]. now split.
Qed.

Lemma out_buf_ok n rc r : reply_ok n (rc, r) -> 0 <= n ->
  let '(resp, used) := out_buf n r in
  Z.of_nat (length resp) = n /\ Forall is_byte resp /\ 0 <= used <= n.
Proof.
  unfold reply_ok, out_buf. destruct r as [[out used] |]; simpl; [tauto |]. intros _ Hn.
  rewrite length_zeros. split; [lia |]. split; [apply zeros_is_byte | lia].
Qed.

(** ** Specifications of the tear-down commands *)

Definition filter_remove_cmds (fw : fw_state) : list (Z * list Z) :=
  if rx_filter_inserted fw then [(MC_CMD_FILTER_OP, filter_remove_req (rx_filter_handle fw))] else [].
Definition fini_txq_cmds (fw : fw_state) (i : Z) : list (Z * list Z) :=
  if txq_initialized fw then [(MC_CMD_FINI_TXQ, instance_req i)] else [].
Definition fini_rxq_cmds (fw : fw_state) (i : Z) : list (Z * list Z) :=
  if rxq_initialized fw then [(MC_CMD_FINI_RXQ, instance_req i)] else [].
Definition fini_evq_cmds (fw : fw_state) (i : Z) : list (Z * list Z) :=
  if (if i =? 0 then evq_initialized fw else data_evq_initialized fw)
  then [(MC_CMD_FINI_EVQ, instance_req i)] else [].
Definition vadaptor_free_cmds (fw : fw_state) : list (Z * list Z) :=
  if vadaptor_allocated fw then [(MC_CMD_VADAPTOR_FREE, put32 0 EVB_PORT_ID_ASSIGNED (zeros 4))] else [].
Definition free_vis_cmds (fw : fw_state) : list (Z * list Z) :=
  if vis_allocated fw then [(MC_CMD_FREE_VIS, [])] else [].
Definition drv_detach_cmds (fw : fw_state) : list (Z * list Z) :=
  if drv_attached fw then [(MC_CMD_DRV_ATTACH, drv_attach_req 0 MC_CMD_FW_DONT_CARE)] else [].

Lemma filter_remove_spec w :
  tr_ready w ->
  wp sfc7120_mcdi_filter_remove (fun _ w' =>
    cmd_post w (filter_remove_cmds (sc_fw (w_sc w))) ((sc_fw (w_sc w)) <| rx_filter_inserted := false |>)
      (sc_link (w_sc w)) (sc_rings (w_sc w)) w') w.
Proof.
  intros Hr. unfold sfc7120_mcdi_filter_remove, filter_remove_cmds. apply wp_bind, wp_get_sc.
  destruct (rx_filter_inserted (sc_fw (w_sc w))) eqn:Hf; cbn [negb].
  2: { apply wp_ret. pose proof (cmd_post_refl w Hr) as Hs. unfold cmd_same in Hs.
       destruct (sc_fw (w_sc w)). simpl in *. now subst. }
  apply wp_bind, wp_exec; [done | req_ok .. |]. intros r w' Hs _. apply wp_bind, wp_mod_sc, wp_ret.
  eapply cmd_post_sc; [exact Hs |]. intros sc <- <- <-. done.
Qed.

(** A tear-down command whose flag is clear sends nothing. *)
Lemma skip_post w fw : tr_ready w -> sc_fw (w_sc w) = fw ->
  cmd_post w [] fw (sc_link (w_sc w)) (sc_rings (w_sc w)) w.
Proof. intros Hr <-. now apply cmd_post_refl. Qed.

Ltac skip_cmd Hr := apply wp_ret; apply (skip_post _ _ Hr);
  match goal with |- ?a = _ => destruct a; simpl in *; now subst end.
Ltac run_cmd := apply wp_bind, wp_exec; [done | req_ok .. |]; intros ?r ?w ?Hs _.
Ltac record_cmd := eapply cmd_post_sc; [eassumption |]; intros ?sc <- <- <-; done.

Lemma fini_txq_spec i w :
  tr_ready w ->
  wp (sfc7120_mcdi_fini_txq i) (fun _ w' =>
    cmd_post w (fini_txq_cmds (sc_fw (w_sc w)) i) ((sc_fw (w_sc w)) <| txq_initialized := false |>)
      (sc_link (w_sc w)) (sc_rings (w_sc w)) w') w.
Proof.
  intros Hr. unfold sfc7120_mcdi_fini_txq, fini_txq_cmds. apply wp_bind, wp_get_sc.
  destruct (txq_initialized (sc_fw (w_sc w))) eqn:Hf; cbn [negb]; [| skip_cmd Hr].
  run_cmd. apply wp_bind, wp_mod_sc, wp_ret. record_cmd.
Qed.

Lemma fini_rxq_spec i w :
  tr_ready w ->
  wp (sfc7120_mcdi_fini_rxq i) (fun _ w' =>
    cmd_post w (fini_rxq_cmds (sc_fw (w_sc w)) i) ((sc_fw (w_sc w)) <| rxq_initialized := false |>)
      (sc_link (w_sc w)) (sc_rings (w_sc w)) w') w.
Proof.
  intros Hr. unfold sfc7120_mcdi_fini_rxq, fini_rxq_cmds. apply wp_bind, wp_get_sc.
  destruct (rxq_initialized (sc_fw (w_sc w))) eqn:Hf; cbn [negb]; [| skip_cmd Hr].
  run_cmd. apply wp_bind, wp_mod_sc, wp_ret. record_cmd.
Qed.

(** The state after FINI_EVQ: the queue's own flag, and no other. *)
Definition fini_evq_fw (i : Z) (fw : fw_state) : fw_state :=
  if i =? 0 then fw <| evq_initialized := false |> else fw <| data_evq_initialized := false |>.

Lemma fini_evq_spec i w :
  tr_ready w ->
  wp (sfc7120_mcdi_fini_evq i) (fun rc w' => exists fw',
    cmd_post w (fini_evq_cmds (sc_fw (w_sc w)) i) fw' (sc_link (w_sc w)) (sc_rings (w_sc w)) w' /\
    ((rc = EBUSY /\ fw' = sc_fw (w_sc w)) \/ (rc <> EBUSY /\ fw' = fini_evq_fw i (sc_fw (w_sc w))))) w.
Proof.
  intros Hr. unfold sfc7120_mcdi_fini_evq, fini_evq_cmds, fini_evq_fw. apply wp_bind, wp_get_sc.
  destruct (if i =? 0 then _ else _) eqn:Hf; cbn [negb].
  2: { apply wp_ret. eexists. split; [apply (skip_post _ _ Hr); reflexivity |]. right. split; [done |].
       destruct (i =? 0), (sc_fw (w_sc w)); simpl in *; now subst. }
  run_cmd. destruct (Z.eqb_spec (fst r) EBUSY).
  - apply wp_ret. eexists. split; [exact Hs | auto].
  - apply wp_bind. destruct (i =? 0); apply wp_mod_sc, wp_ret.
    + exists ((sc_fw (w_sc w)) <| evq_initialized := false |>). split; [record_cmd | auto].
    + exists ((sc_fw (w_sc w)) <| data_evq_initialized := false |>). split; [record_cmd | auto].
Qed.

Lemma vadaptor_free_spec w :
  tr_ready w ->
  wp sfc7120_mcdi_vadaptor_free (fun _ w' =>
    cmd_post w (vadaptor_free_cmds (sc_fw (w_sc w))) ((sc_fw (w_sc w)) <| vadaptor_allocated := false |>)
      (sc_link (w_sc w)) (sc_rings (w_sc w)) w') w.
Proof.
  intros Hr. unfold sfc7120_mcdi_vadaptor_free, vadaptor_free_cmds. apply wp_bind, wp_get_sc.
  destruct (vadaptor_allocated (sc_fw (w_sc w))) eqn:Hf; cbn [negb]; [| skip_cmd Hr].
  run_cmd. apply wp_bind, wp_mod_sc, wp_ret. record_cmd.
Qed.

Lemma free_vis_spec w :
  tr_ready w ->
  wp sfc7120_mcdi_free_vis (fun rc w' => exists fw',
    cmd_post w (free_vis_cmds (sc_fw (w_sc w))) fw' (sc_link (w_sc w)) (sc_rings (w_sc w)) w' /\
    (fw' = sc_fw (w_sc w) \/
     fw' = (sc_fw (w_sc w)) <| vis_allocated := false |> <| vi_count := 0 |> <| vi_base := 0 |>)) w.
Proof.
  intros Hr. unfold sfc7120_mcdi_free_vis, free_vis_cmds. apply wp_bind, wp_get_sc.
  destruct (vis_allocated (sc_fw (w_sc w))) eqn:Hf; cbn [negb].
  2: { apply wp_ret. eexists. split; [now apply cmd_post_refl | auto]. }
  run_cmd. apply wp_bind. destruct (fst r =? 0).
  - apply wp_mod_sc, wp_ret.
    exists ((sc_fw (w_sc w)) <| vis_allocated := false |> <| vi_count := 0 |> <| vi_base := 0 |>).
    split; [record_cmd | right; reflexivity].
  - apply wp_ret, wp_ret. eexists. split; [exact Hs | auto].
Qed.

Lemma drv_detach_spec w :
  tr_ready w ->
  wp sfc7120_mcdi_drv_detach (fun rc w' => exists fw',
    cmd_post w (drv_detach_cmds (sc_fw (w_sc w))) fw' (sc_link (w_sc w)) (sc_rings (w_sc w)) w' /\
    (fw' = sc_fw (w_sc w) \/ fw' = (sc_fw (w_sc w)) <| drv_attached := false |>)) w.
Proof.
  intros Hr. unfold sfc7120_mcdi_drv_detach, drv_detach_cmds. apply wp_bind, wp_get_sc.
  destruct (drv_attached (sc_fw (w_sc w))) eqn:Hf; cbn [negb].
  2: { apply wp_ret. eexists. split; [now apply cmd_post_refl | auto]. }
  run_cmd. apply wp_bind. destruct (fst r =? 0).
  - apply wp_mod_sc, wp_ret. exists ((sc_fw (w_sc w)) <| drv_attached := false |>).
    split; [record_cmd | right; reflexivity].
  - apply wp_ret, wp_ret. eexists. split; [exact Hs | auto].
Qed.
End cmd_rules.

(** ** Specifications of the bring-up commands *)

(** What holds of the firmware state throughout. *)
Definition fw_ok (fw : fw_state) : Prop :=
  length (mac_addr fw) = 6%nat /\ Forall is_byte (mac_addr fw).

(** Bring-up only adds: what was granted stays granted, and the queue and
    filter flags are left alone. *)
Record fw_grow (fw fw' : fw_state) : Prop := {
  fg_ok : fw_ok fw';
  fg_attached : drv_attached fw = true -> drv_attached fw' = true;
  fg_vis : vis_allocated fw = true -> vis_allocated fw' = true;
  fg_vadaptor : vadaptor_allocated fw = true -> vadaptor_allocated fw' = true;
  fg_evq : evq_initialized fw' = evq_initialized fw;
  fg_data_evq : data_evq_initialized fw' = data_evq_initialized fw;
  fg_rxq : rxq_initialized fw' = rxq_initialized fw;
  fg_txq : txq_initialized fw' = txq_initialized fw;
  fg_filter : rx_filter_inserted fw' = rx_filter_inserted fw;
}.

Lemma fw_grow_refl fw : fw_ok fw -> fw_grow fw fw.
Proof. now split. Qed.

Lemma fw_grow_trans fw1 fw2 fw3 : fw_grow fw1 fw2 -> fw_grow fw2 fw3 -> fw_grow fw1 fw3.
Proof. intros [] []. split; auto; congruence. Qed.

Section cmd_up.
Context {D : Type} `{!Device D} `{!DeviceLaws D} `{!McdiTransport D}.
Abbreviation world := (world D).
Implicit Types (w : world).

(** The outcome of a bring-up step; [P] holds when it succeeds. *)
Definition up_post (P : fw_state -> link_state -> Prop) w (rc : Z) w' : Prop :=
  exists cs fw lk, cmd_post w cs fw lk (sc_rings (w_sc w)) w' /\ fw_grow (sc_fw (w_sc w)) fw /\
    (rc = 0 -> P fw lk).

Definition up (m : ST world Z) (P : fw_state -> link_state -> Prop) : Prop :=
  forall w, tr_ready w -> fw_ok (sc_fw (w_sc w)) -> wp m (up_post P w) w.

(** A query that fails leaves the recorded state as it was. *)
Definition query_post w (rc : Z) w' : Prop :=
  rc <> 0 -> sc_fw (w_sc w') = sc_fw (w_sc w) /\ sc_link (w_sc w') = sc_link (w_sc w).

Lemma up_intro P w cs fw lk rg rc w' :
  cmd_post w cs fw lk rg w' -> rg = sc_rings (w_sc w) -> fw_grow (sc_fw (w_sc w)) fw ->
  (rc = 0 -> P fw lk) -> up_post P w rc w'.
Proof. intros Hp -> Hg HP. now exists cs, fw, lk. Qed.

(** The tactics of this section: run the command of a wrapper, record its
    result, and conclude. *)
Ltac up_cmd := apply wp_bind; (apply wp_exec; [done | req_ok .. |]); intros [rc reply] w1 Hs Hrep; cbn [fst snd].
Ltac rec_fw Hs := apply wp_bind; eapply wp_mod_fw_post; [exact Hs |]; clear Hs; intros ?w Hs.
Ltac rec_link Hs := apply wp_bind; eapply wp_mod_link_post; [exact Hs |]; clear Hs; intros ?w Hs.
Ltac up_end Hs := apply wp_ret; eapply up_intro; [exact Hs | done | |].
Ltac up_same Hs := up_end Hs; [now apply fw_grow_refl | try done; lia].

Lemma get_version_up : up sfc7120_mcdi_get_version (fun _ _ => True).
Proof.
  intros w Hr Hok. unfold sfc7120_mcdi_get_version. up_cmd.
  destruct (out_buf _ _) as [resp used]. destruct (negb _); [up_same Hs |].
  destruct (_ <? _); [up_same Hs |]. rec_fw Hs. up_end Hs; [now split | done].
Qed.

Lemma drv_attach_up : up sfc7120_mcdi_drv_attach (fun fw _ => drv_attached fw = true).
Proof.
  intros w Hr Hok. unfold sfc7120_mcdi_drv_attach. up_cmd.
  destruct (out_buf _ _) as [resp used]. destruct (Z.eqb_spec rc 0); cbn [negb]; [| up_same Hs].
  rec_fw Hs. destruct (_ <=? used); [rec_fw Hs; up_end Hs; [now split | done] |].
  destruct (used <? _); [up_end Hs; [now split | done] |]. rec_fw Hs. up_end Hs; [now split | done].
Qed.

Lemma get_asserts_up n rc0 reply0 w0 cs fw lk rg w (Q : Z * mcdi_reply -> world -> Prop) :
  cmd_post w0 cs fw lk rg w ->
  (forall r w' cs', cmd_post w0 cs' fw lk rg w' -> Q r w') ->
  wp (get_asserts_retry n rc0 reply0) Q w.
Proof.
  revert rc0 reply0 cs w. induction n as [| n IH]; intros rc0 reply0 cs w Hp HQ; [apply wp_ret; eauto |].
  cbn [get_asserts_retry]. apply wp_bind. eapply wp_exec_from; [exact Hp | req_ok .. |].
  intros r w' Hp' _. destruct (_ && _); [apply wp_ret; eauto |]. eapply IH; eauto.
Qed.

Lemma clear_assertions_up : up sfc7120_mcdi_clear_assertions (fun _ _ => True).
Proof.
  intros w Hr Hok. unfold sfc7120_mcdi_clear_assertions. apply wp_bind.
  eapply get_asserts_up; [now apply cmd_post_refl |]. intros [rc reply] w' cs Hs.
  destruct (_ =? EACCES); [up_same Hs |]. destruct (negb _); up_same Hs.
Qed.

Lemma entity_reset_up : up sfc7120_mcdi_entity_reset (fun _ _ => True).
Proof.
  intros w Hr Hok. unfold sfc7120_mcdi_entity_reset. up_cmd.
  destruct (_ =? EACCES); [up_same Hs |]. destruct (negb _); up_same Hs.
Qed.

Lemma get_mac_up : up sfc7120_mcdi_get_mac (fun _ _ => True).
Proof.
  intros w Hr Hok. unfold sfc7120_mcdi_get_mac. up_cmd.
  pose proof (out_buf_ok _ _ _ Hrep ltac:(done)) as Hout. destruct (out_buf _ _) as [resp used].
  destruct Hout as (Hlen & Hb & _). destruct (negb _); [up_same Hs |]. destruct (used <? _); [up_same Hs |].
  rec_fw Hs. up_end Hs; [| done]. split; try done. split; simpl; [| now apply buf_read_is_byte].
  apply length_buf_read. unfold MC_CMD_GET_MAC_ADDRESSES_OUT_LEN in Hlen. lia.
Qed.

Lemma dump_func_info_up : up sfc7120_mcdi_dump_func_info (fun _ _ => True).
Proof.
  intros w Hr Hok. unfold sfc7120_mcdi_dump_func_info.
  up_cmd. apply wp_bind. eapply wp_exec_from; [exact Hs | req_ok .. |]. clear Hs. intros r2 w2 Hs _.
  apply wp_bind. eapply wp_exec_from; [exact Hs | req_ok .. |]. clear Hs. intros [rc3 reply3] w3 Hs _.
  destruct (out_buf _ _) as [resp used]. destruct (negb _); [apply wp_bind, wp_ret; up_same Hs |].
  destruct (_ <=? used); [rec_fw Hs; up_end Hs; [now split | done] | apply wp_bind, wp_ret; up_same Hs].
Qed.

Lemma alloc_vis_up a b : up (sfc7120_mcdi_alloc_vis a b) (fun fw _ => vis_allocated fw = true).
Proof.
  intros w Hr Hok. unfold sfc7120_mcdi_alloc_vis. up_cmd.
  destruct (out_buf _ _) as [resp used]. destruct (Z.eqb_spec rc 0); cbn [negb]; [| up_same Hs].
  destruct (_ <? _); [up_same Hs |]. rec_fw Hs. up_end Hs; [now split | done].
Qed.

Lemma vadaptor_alloc_up : up sfc7120_mcdi_vadaptor_alloc (fun fw _ => vadaptor_allocated fw = true).
Proof.
  intros w Hr Hok. unfold sfc7120_mcdi_vadaptor_alloc. apply wp_bind, wp_get_sc.
  destruct (vadaptor_allocated _) eqn:Ha.
  { apply wp_ret. eapply up_intro; [now apply cmd_post_refl | done | now apply fw_grow_refl | done]. }
  up_cmd. destruct (Z.eqb_spec rc 0); cbn [negb]; [| up_same Hs].
  rec_fw Hs. up_end Hs; [now split | done].
Qed.

Lemma get_phy_cfg_up : up sfc7120_mcdi_get_phy_cfg (fun _ _ => True).
Proof.
  intros w Hr Hok. unfold sfc7120_mcdi_get_phy_cfg. up_cmd.
  destruct (out_buf _ _) as [resp used]. destruct (negb _); [up_same Hs |].
  destruct (_ <? _); [up_same Hs |]. cbv zeta. rec_link Hs. up_same Hs.
Qed.

Lemma set_mac_up t : up (sfc7120_mcdi_set_mac t) (fun _ _ => True).
Proof.
  intros w Hr [Hl Hb]. unfold sfc7120_mcdi_set_mac. cbv zeta. apply wp_bind, wp_get_sc. up_cmd.
  destruct (_ =? EACCES); [up_same Hs |]. destruct (negb _); [up_same Hs |]. rec_link Hs. up_same Hs.
Qed.

Lemma set_link_up : up sfc7120_mcdi_set_link (fun _ _ => True).
Proof.
  intros w Hr Hok. unfold sfc7120_mcdi_set_link. apply wp_bind, wp_get_sc. cbv zeta.
  apply wp_bind. eapply wp_mod_link_post; [now apply cmd_post_refl |]. intros w0 Hs.
  apply wp_bind. eapply wp_exec_from; [exact Hs | req_ok .. |]. clear Hs. intros r w1 Hs _.
  destruct (negb _); [up_same Hs |]. rec_link Hs. up_same Hs.
Qed.

Lemma get_link_up : up sfc7120_mcdi_get_link (fun _ _ => True).
Proof.
  intros w Hr Hok. unfold sfc7120_mcdi_get_link. up_cmd.
  destruct (out_buf _ _) as [resp used]. destruct (negb _); [up_same Hs |].
  destruct (_ <? _); [up_same Hs |]. cbv zeta. rec_link Hs. up_same Hs.
Qed.
End cmd_up.

(** ** Queue set-up *)

Section cmd_queues.
Context {D : Type} `{!Device D} `{!DeviceLaws D} `{!McdiTransport D}.
Abbreviation world := (world D).
Implicit Types (w : world).

Lemma ring_512_ok max : 512 <= max -> bad_ring_size 512 max = false.
Proof. intros H. unfold bad_ring_size. replace (max <? 512) with false by lia. reflexivity. Qed.

(** Fields of a request, computed from the stores that built it. *)
Ltac fields :=
  cbv zeta; repeat first
    [ rewrite get_put32_ne by lia | rewrite get32_put64_ne by lia
    | rewrite get_put32 by (autorewrite with sfc_len; lia)
    | rewrite get_put64 by (autorewrite with sfc_len; lia) ].

(** What the controller reads from an INIT_EVQ request. *)
Lemma init_evq_req_fields instance paddr nevs :
  let req := init_evq_req instance paddr nevs in
  length req = 44%nat /\ get32 0 req = nevs mod 2 ^ 32 /\ get32 4 req = instance mod 2 ^ 32 /\
  get32 16 req = (if instance =? 0 then 0x39 else 0x38) /\ get32 24 req = 0 /\
  get64 36 req = paddr mod 2 ^ 64.
Proof.
  unfold init_evq_req. split; [autorewrite with sfc_len; reflexivity |]. fields.
  unfold init_evq_flags. repeat split; destruct (Z.eqb_spec instance 0) as [-> |]; reflexivity.
Qed.

(** What it reads from an INIT_RXQ or INIT_TXQ request. *)
Lemma init_q_req_fields flags instance target_evq paddr ndescs :
  let req := init_q_req flags instance target_evq paddr ndescs in
  length req = 36%nat /\ get32 0 req = ndescs mod 2 ^ 32 /\ get32 4 req = target_evq mod 2 ^ 32 /\
  get32 12 req = instance mod 2 ^ 32 /\ get32 16 req = flags mod 2 ^ 32 /\
  get32 24 req = EVB_PORT_ID_ASSIGNED /\ get64 28 req = paddr mod 2 ^ 64.
Proof.
  unfold init_q_req. split; [autorewrite with sfc_len; reflexivity |]. fields. repeat split.
Qed.

Lemma init_evq_spec instance paddr w :
  tr_ready w ->
  wp (sfc7120_mcdi_init_evq instance paddr 512) (fun rc w' =>
    if vi_count (sc_fw (w_sc w)) <=? instance then rc = EINVAL /\ w' = w
    else exists fw rg,
      cmd_post w [(MC_CMD_INIT_EVQ, init_evq_req instance paddr 512)] fw (sc_link (w_sc w)) rg w' /\
      ((rc <> 0 /\ fw = sc_fw (w_sc w) /\ rg = sc_rings (w_sc w)) \/
       (rc = 0 /\ fw = (sc_fw (w_sc w)) <| evq_initialized := true |> /\
        rg = (sc_rings (w_sc w)) <| evq_read_ptr := 0 |>))) w.
Proof.
  intros Hr. unfold sfc7120_mcdi_init_evq. rewrite ring_512_ok by lia. apply wp_bind, wp_get_sc.
  destruct (vi_count (sc_fw (w_sc w)) <=? instance); [now apply wp_ret |].
  apply wp_bind, wp_kassert; [done |]. apply wp_bind, wp_exec; [done | req_ok .. |].
  intros [rc reply] w1 Hs _. cbn [fst]. destruct (Z.eqb_spec rc 0) as [-> | Hrc]; cbn [negb].
  - apply wp_bind. eapply wp_mod_rings_post; [exact Hs |]. clear Hs. intros w2 Hs.
    apply wp_bind. eapply wp_mod_fw_post; [exact Hs |]. clear Hs. intros w3 Hs. apply wp_ret.
    do 2 eexists. split; [exact Hs | right; done].
  - apply wp_ret. do 2 eexists. split; [exact Hs | left; done].
Qed.

Definition queue_refused (fw : fw_state) (instance target_evq : Z) : bool :=
  negb (vadaptor_allocated fw) || (vi_count fw <=? instance) || (vi_count fw <=? target_evq).

Lemma init_rxq_spec instance target_evq paddr w :
  tr_ready w ->
  wp (sfc7120_mcdi_init_rxq instance target_evq paddr 512) (fun rc w' =>
    if queue_refused (sc_fw (w_sc w)) instance target_evq then rc = EINVAL /\ w' = w
    else exists fw,
      cmd_post w [(MC_CMD_INIT_RXQ, init_q_req rxq_flags instance target_evq paddr 512)] fw
        (sc_link (w_sc w)) (sc_rings (w_sc w)) w' /\
      ((rc <> 0 /\ fw = sc_fw (w_sc w)) \/
       (rc = 0 /\ fw = (sc_fw (w_sc w)) <| rxq_initialized := true |>))) w.
Proof.
  intros Hr. unfold sfc7120_mcdi_init_rxq, queue_refused. rewrite ring_512_ok by lia. apply wp_bind, wp_get_sc.
  destruct (negb _); [now apply wp_ret |]. destruct (_ <=? instance); [now apply wp_ret |].
  destruct (_ <=? target_evq); [now apply wp_ret |]. cbn [orb].
  apply wp_bind, wp_kassert; [done |]. apply wp_bind, wp_exec; [done | req_ok .. |].
  intros [rc reply] w1 Hs _. cbn [fst]. destruct (Z.eqb_spec rc 0) as [-> | Hrc]; cbn [negb].
  - apply wp_bind. eapply wp_mod_fw_post; [exact Hs |]. clear Hs. intros w3 Hs. apply wp_ret.
    eexists. split; [exact Hs | right; done].
  - apply wp_ret. eexists. split; [exact Hs | left; done].
Qed.

Lemma init_txq_spec tx_csum instance target_evq paddr w :
  tr_ready w ->
  wp (sfc7120_mcdi_init_txq tx_csum instance target_evq paddr 512) (fun rc w' =>
    if queue_refused (sc_fw (w_sc w)) instance target_evq then rc = EINVAL /\ w' = w
    else exists fw,
      cmd_post w [(MC_CMD_INIT_TXQ, init_q_req (txq_flags tx_csum) instance target_evq paddr 512)] fw
        (sc_link (w_sc w)) (sc_rings (w_sc w)) w' /\
      ((rc <> 0 /\ fw = sc_fw (w_sc w)) \/
       (rc = 0 /\ fw = (sc_fw (w_sc w)) <| txq_initialized := true |>))) w.
Proof.
  intros Hr. unfold sfc7120_mcdi_init_txq, queue_refused. rewrite ring_512_ok by lia. apply wp_bind, wp_get_sc.
  destruct (negb _); [now apply wp_ret |]. destruct (_ <=? instance); [now apply wp_ret |].
  destruct (_ <=? target_evq); [now apply wp_ret |]. cbn [orb].
  apply wp_bind, wp_kassert; [done |]. apply wp_bind, wp_exec; [done | req_ok .. |].
  intros [rc reply] w1 Hs _. cbn [fst]. destruct (Z.eqb_spec rc 0) as [-> | Hrc]; cbn [negb].
  - apply wp_bind. eapply wp_mod_fw_post; [exact Hs |]. clear Hs. intros w3 Hs. apply wp_ret.
    eexists. split; [exact Hs | right; done].
  - apply wp_ret. eexists. split; [exact Hs | left; done].
Qed.

(** Setting up an event queue of 512 entries: an instance outside the
    granted VIs is refused without a command; otherwise exactly one INIT_EVQ
    is issued, whose request names the size, the instance, wake-up queue 0 and
    the ring's bus address, with INTERRUPTING set for the control queue only.
    When it succeeds the wrapper records the control queue as initialised and
    resets the control queue's read pointer, whichever instance was set up;
    the data queue's flag is left to the caller. *)
Theorem init_evq_effect instance paddr w :
  tr_ready w -> 0 <= instance < 2 ^ 32 -> 0 <= paddr < 2 ^ 64 ->
  wp (sfc7120_mcdi_init_evq instance paddr 512) (fun rc w' =>
    (vi_count (sc_fw (w_sc w)) <= instance /\ rc = EINVAL /\ w' = w) \/
    (instance < vi_count (sc_fw (w_sc w)) /\ exists req,
       w_cmds w' = w_cmds w ++ [(MC_CMD_INIT_EVQ, req)] /\ length req = 44%nat /\
       get32 0 req = 512 /\ get32 4 req = instance /\ get32 24 req = 0 /\ get64 36 req = paddr /\
       (Z.testbit (get32 16 req) 0 = true <-> instance = 0) /\
       (rc <> 0 -> sc_fw (w_sc w') = sc_fw (w_sc w) /\ sc_rings (w_sc w') = sc_rings (w_sc w)) /\
       (rc = 0 -> evq_initialized (sc_fw (w_sc w')) = true /\ evq_read_ptr (sc_rings (w_sc w')) = 0 /\
          data_evq_initialized (sc_fw (w_sc w')) = data_evq_initialized (sc_fw (w_sc w))))) w.
Proof.
  intros Hr Hi Hp. eapply wp_mono; [now apply init_evq_spec |]. intros rc w' Hpost. cbv beta in Hpost.
  destruct (Z.leb_spec (vi_count (sc_fw (w_sc w))) instance); [left; tauto | right].
  destruct Hpost as (fw & rg & [_ _ _ _ _ _ Hc Hf _ Hg] & Hres). split; [lia |].
  destruct (init_evq_req_fields instance paddr 512) as (F0 & F1 & F2 & F3 & F4 & F5).
  exists (init_evq_req instance paddr 512). rewrite F1, F2, F3, F4, F5, !Z.mod_small by lia.
  do 6 (split; [done |]). split; [destruct (Z.eqb_spec instance 0); simpl; split; done || lia |].
  rewrite Hf, Hg. destruct Hres as [(? & -> & ->) | (? & -> & ->)]; split; done.
Qed.

(** Setting up the receive and transmit queues: without a vAdaptor, or
    with an instance or event queue outside the granted VIs, the command is
    refused without being sent; otherwise one INIT_RXQ (INIT_TXQ) is issued
    whose request names the size, the target event queue, the instance, the
    assigned port and the ring's bus address.  Receive queues always have the
    prefix and no scatter; transmit queues insert checksums unless the tunable
    is 0.  The queue is recorded as initialised exactly when the command
    succeeded. *)
Theorem init_queue_requests tx_csum instance target_evq paddr w :
  tr_ready w -> 0 <= instance < 2 ^ 32 -> 0 <= target_evq < 2 ^ 32 -> 0 <= paddr < 2 ^ 64 ->
  let refused := queue_refused (sc_fw (w_sc w)) instance target_evq in
  let request flags req := length req = 36%nat /\ get32 0 req = 512 /\ get32 4 req = target_evq /\
    get32 12 req = instance /\ get32 16 req = flags /\ get32 24 req = EVB_PORT_ID_ASSIGNED /\
    get64 28 req = paddr in
  wp (sfc7120_mcdi_init_rxq instance target_evq paddr 512) (fun rc w' =>
    (refused = true /\ rc = EINVAL /\ w' = w) \/
    (refused = false /\ exists req, w_cmds w' = w_cmds w ++ [(MC_CMD_INIT_RXQ, req)] /\ request 0x300 req /\
       rxq_initialized (sc_fw (w_sc w')) = (rc =? 0) || rxq_initialized (sc_fw (w_sc w)))) w /\
  wp (sfc7120_mcdi_init_txq tx_csum instance target_evq paddr 512) (fun rc w' =>
    (refused = true /\ rc = EINVAL /\ w' = w) \/
    (refused = false /\ exists req, w_cmds w' = w_cmds w ++ [(MC_CMD_INIT_TXQ, req)] /\
       request (if tx_csum =? 0 then 6 else 0) req /\
       txq_initialized (sc_fw (w_sc w')) = (rc =? 0) || txq_initialized (sc_fw (w_sc w)))) w.
Proof.
  intros Hr Hi Ht Hp refused request.
  assert (forall flags, 0 <= flags < 2 ^ 32 -> request flags (init_q_req flags instance target_evq paddr 512)) as Hreq.
  { intros flags Hf. destruct (init_q_req_fields flags instance target_evq paddr 512) as (F0 & F1 & F2 & F3 & F4 & F5 & F6).
    unfold request. rewrite F0, F1, F2, F3, F4, F5, F6, !Z.mod_small by lia. done. }
  split.
  - eapply wp_mono; [now apply init_rxq_spec |]. intros rc w' Hpost. cbv beta in Hpost. fold refused in Hpost.
    destruct refused; [left; tauto | right]. destruct Hpost as (fw & [_ _ _ _ _ _ Hc Hf _ _] & Hres).
    split; [done |]. eexists. split; [exact Hc |]. split; [apply Hreq; vm_compute; split; congruence |].
    rewrite Hf. destruct Hres as [[Hrc ->] | [-> ->]]; [| done]. now rewrite (proj2 (Z.eqb_neq _ _) Hrc).
  - eapply wp_mono; [now apply init_txq_spec |]. intros rc w' Hpost. cbv beta in Hpost. fold refused in Hpost.
    destruct refused; [left; tauto | right]. destruct Hpost as (fw & [_ _ _ _ _ _ Hc Hf _ _] & Hres).
    split; [done |]. eexists. split; [exact Hc |].
    split; [unfold txq_flags; destruct (tx_csum =? 0); apply Hreq; vm_compute; split; congruence |].
    rewrite Hf. destruct Hres as [[Hrc ->] | [-> ->]]; [| done]. now rewrite (proj2 (Z.eqb_neq _ _) Hrc).
Qed.
End cmd_queues.

(** ** Queries, PHY capabilities and filters *)

Section cmd_queries.
Context {D : Type} `{!Device D} `{!DeviceLaws D} `{!McdiTransport D}.
Abbreviation world := (world D).
Implicit Types (w : world).

Lemma add_requested_spec lbn cap i : 0 <= lbn -> 0 <= i ->
  Z.testbit (add_requested lbn cap) i
  = Z.testbit cap i || (Z.testbit cap lbn && (i =? lbn + 1)).
Proof.
  intros Hl Hi. unfold add_requested.
  assert (negb (Z.land cap (Z.shiftl 1 lbn) =? 0) = Z.testbit cap lbn) as ->.
  { rewrite Z.shiftl_1_l. destruct (Z.testbit cap lbn) eqn:Hb.
    - apply negb_true_iff, Z.eqb_neq. intros E. apply (f_equal (fun z => Z.testbit z lbn)) in E.
      rewrite Z.land_spec, Z.pow2_bits_true, Hb, Z.bits_0 in E by lia. done.
    - apply negb_false_iff, Z.eqb_eq, Z.bits_inj'. intros n Hn. rewrite Z.land_spec, Z.bits_0.
      destruct (Z.eqb_spec n lbn) as [-> | Hne]; [now rewrite Hb |].
      rewrite Z.pow2_bits_false by lia. apply andb_false_r. }
  destruct (Z.testbit cap lbn); [| now rewrite orb_false_r].
  rewrite Z.lor_spec, Z.shiftl_1_l. f_equal. simpl.
  destruct (Z.eqb_spec i (lbn + 1)) as [-> |]; [apply Z.pow2_bits_true | apply Z.pow2_bits_false]; lia.
Qed.

(** Runs of a query wrapper that end in an error record nothing. *)
Ltac query Hr := intros; apply wp_bind; (apply wp_exec; [exact Hr | req_ok .. |]);
  intros [rc reply] w1 Hs _; destruct (out_buf _ _) as [resp used];
  destruct (negb _); [apply wp_ret; destruct Hs; done |];
  destruct (_ <? _); [apply wp_ret; destruct Hs; done |]; cbv zeta;
  apply wp_bind, wp_mod_sc, wp_ret; now intros [].

(** A query that fails, because the controller refused it, because it
    timed out or because its reply is too short for the fields the driver
    needs, records nothing: version, MAC address, VI grant, PHY capabilities
    and link state stay as they were. *)
Theorem query_failure_records_nothing min_count max_count w (m : ST world Z) :
  tr_ready w ->
  m ∈ [sfc7120_mcdi_get_version; sfc7120_mcdi_get_mac; sfc7120_mcdi_alloc_vis min_count max_count;
       sfc7120_mcdi_get_phy_cfg; sfc7120_mcdi_get_link] ->
  wp m (query_post w) w.
Proof.
  intros Hr Hm. unfold query_post. rewrite !elem_of_cons in Hm.
  destruct Hm as [-> | [-> | [-> | [-> | [-> | Hm]]]]]; [.. | now apply not_elem_of_nil in Hm].
  - unfold sfc7120_mcdi_get_version. query Hr.
  - unfold sfc7120_mcdi_get_mac. query Hr.
  - unfold sfc7120_mcdi_alloc_vis. query Hr.
  - unfold sfc7120_mcdi_get_phy_cfg. query Hr.
  - unfold sfc7120_mcdi_get_link. query Hr.
Qed.

(** The capabilities GET_PHY_CFG records are those the firmware reported
    plus, for each of the three FEC modes it supports, the bit that requests
    it; and nothing else. *)
Theorem phy_cfg_requests_fec w :
  tr_ready w ->
  wp sfc7120_mcdi_get_phy_cfg (fun rc w' => rc = 0 -> exists reported,
    forall i, 0 <= i ->
      Z.testbit (phy_supported_cap_mask (sc_link (w_sc w'))) i
      = Z.testbit reported i || (Z.testbit reported 16 && (i =? 17)) ||
        (Z.testbit reported 18 && (i =? 19)) || (Z.testbit reported 20 && (i =? 21))) w.
Proof.
  intros Hr. unfold sfc7120_mcdi_get_phy_cfg. apply wp_bind. apply wp_exec; [exact Hr | req_ok .. |].
  intros [rc reply] w1 Hs _. destruct (out_buf _ _) as [resp used].
  destruct (Z.eqb_spec rc 0) as [-> | Hrc]; cbn [negb]; [| now apply wp_ret].
  destruct (_ <? _); [now apply wp_ret |]. cbv zeta. apply wp_bind, wp_mod_sc, wp_ret. intros _.
  exists (get32 MC_CMD_GET_PHY_CFG_OUT_SUPPORTED_CAP_OFST resp). intros i Hi. simpl.
  unfold MC_CMD_PHY_CAP_25G_BASER_FEC_LBN, MC_CMD_PHY_CAP_RS_FEC_LBN, MC_CMD_PHY_CAP_BASER_FEC_LBN.
  rewrite !add_requested_spec by lia. change (16 + 1) with 17. change (18 + 1) with 19.
  change (20 + 1) with 21. cbn [Z.eqb Pos.eqb]. rewrite !andb_false_r, !orb_false_r. done.
Qed.

(** The fields of a FILTER_OP REMOVE request. *)
Lemma filter_remove_req_fields handle :
  0 <= handle < 2 ^ 64 ->
  let req := filter_remove_req handle in
  get32 0 req = 1 /\ get32 8 req * 2 ^ 32 + get32 4 req = handle.
Proof.
  intros Hh. unfold filter_remove_req. cbv zeta.
  rewrite !get_put32_ne by lia. rewrite !get_put32 by (autorewrite with sfc_len; vm_compute; congruence).
  rewrite !get_put32_ne by lia. rewrite !get_put32 by (autorewrite with sfc_len; vm_compute; congruence).
  split; [done |]. unfold u32. rewrite land_0xffffffff, Z.shiftr_div_pow2 by lia. zdiv.
Qed.

(** Removing the receive filters: when filters were inserted, exactly
    one REMOVE is issued and the handle it carries, split over two words, is
    the 64-bit handle the firmware returned for the unicast filter.  No
    command names the broadcast filter's handle, which stays recorded. *)
Theorem filter_remove_unicast_only w :
  tr_ready w -> rx_filter_inserted (sc_fw (w_sc w)) = true ->
  0 <= rx_filter_handle (sc_fw (w_sc w)) < 2 ^ 64 ->
  wp sfc7120_mcdi_filter_remove (fun _ w' => exists req,
    w_cmds w' = w_cmds w ++ [(MC_CMD_FILTER_OP, req)] /\ get32 0 req = 1 /\
    get32 8 req * 2 ^ 32 + get32 4 req = rx_filter_handle (sc_fw (w_sc w)) /\
    rx_filter_inserted (sc_fw (w_sc w')) = false /\
    rx_filter_bcast_handle (sc_fw (w_sc w')) = rx_filter_bcast_handle (sc_fw (w_sc w))) w.
Proof.
  intros Hr Hi Hh. eapply wp_mono; [now apply filter_remove_spec |].
  intros _ w' [_ _ _ _ _ _ Hc Hf _ _]. unfold filter_remove_cmds in Hc. rewrite Hi in Hc.
  eexists. split; [exact Hc |]. destruct (filter_remove_req_fields _ Hh) as [-> ->].
  rewrite Hf. done.
Qed.
End cmd_queries.
