(* ===== verification/DataPath.v ===== *)
(** * The data path of the kernel driver (sfc7120.c)

    The driver's ioctls (addresses and geometry for userspace, the pointer
    synchronisation, transmit and receive through the kernel), the seeding of
    the receive ring, the interrupt handler of the control event queue, and
    the poll entry point.

    Every ring access is checked against the 512 entries of the ring, and the
    copy into a transmit slot against the transmit buffer: an access outside
    is a panic.  The counters that only feed the timeout messages are left
    out. *)

From S2P Require Import Prelude Uapi Desc Capio Softc Dma.
Local Open Scope Z_scope.

(** ** Requests (sfc7120_uapi.h) *)

(** A user capability, as far as the kernel looks at it: validity tag, load
    permission, length, the bytes it points at, and whether copying through
    it faults (with which error, after how many bytes). *)
Record user_buf := UserBuf {
  ub_tag : bool;
  ub_load : bool;
  ub_len : Z;
  ub_bytes : Z -> Z;
  ub_fault : option (Z * Z);
}.

Record sfc7120_tx_req := TxReq {
  tx_buf_addr : user_buf;
  tx_length : Z;
  tx_status : Z;
}.
#[export] Instance eta_tx_req : Eta sfc7120_tx_req := fun r =>
  TxReq (tx_buf_addr r) (tx_length r) (tx_status r).

(** [rx_copyout] is what copying to the user's [raw_buffer] answers,
    [rx_raw_buffer] what has been copied there. *)
Record sfc7120_rx_req := RxReq {
  rx_copyout : Z;
  rx_raw_buffer : list Z;
  rx_length_received : Z;
  rx_status : Z;
}.
#[export] Instance eta_rx_req : Eta sfc7120_rx_req := fun r =>
  RxReq (rx_copyout r) (rx_raw_buffer r) (rx_length_received r) (rx_status r).

Record sfc7120_vi_info_req := ViInfo {
  vi_tx_buffer_paddr : Z;
  vi_rx_buffer_paddr : Z;
  vi_vi_base : Z;
  vi_evq_instance : Z;
  vi_rxq_instance : Z;
  vi_txq_instance : Z;
  vi_num_tx_desc : Z;
  vi_num_rx_desc : Z;
  vi_num_evq_entry : Z;
  vi_tx_head : Z;
  vi_rx_head : Z;
  vi_evq_read_ptr : Z;
}.

Record sfc7120_evq_sync_req := EvqSync {
  es_evq_read_ptr : Z;
  es_tx_head : Z;
  es_rx_head : Z;
}.

(** The commands, each with its argument. *)
Inductive sfc7120_cmd :=
  | SFC7120_GET_MAC (mac : list Z)
  | SFC7120_GET_VI_INFO (req : sfc7120_vi_info_req)
  | SFC7120_SET_EVQ_RPTR (req : sfc7120_evq_sync_req)
  | SFC7120_TX (req : sfc7120_tx_req)
  | SFC7120_RX (req : sfc7120_rx_req)
  | SFC7120_UNKNOWN (cmd : Z).

(** BAR2 as the PCI bus gives it (rman_get_start, rman_get_size). *)
Class PciBar := {
  bar_start : Z;
  bar_size : Z;
}.

(** ** Poll events *)

Definition POLLIN : Z := 0x0001.
Definition POLLRDNORM : Z := 0x0040.
Definition POLLERR : Z := 0x0008.

Definition TX_POLL_TRIES : nat := Z.to_nat 10000.
Definition RX_POLL_TRIES : nat := Z.to_nat 100000.

(** ** Control events *)

Definition SFC7120_EV_CODE_LBN : Z := 60.
Definition SFC7120_MCDI_EVENT_CODE_LBN : Z := 44.
Definition SFC7120_MCDI_EV_LINKCHANGE : Z := 0x4.
Definition SFC7120_LC_SPEED_SHIFT : Z := 16.
Definition SFC7120_LC_FCNTL_SHIFT : Z := 20.
Definition SFC7120_LC_FLAGS_SHIFT : Z := 24.
Definition SFC7120_LC_FLAG_LINK_UP : Z := Z.shiftl 1 0.
Definition SFC7120_LC_FLAG_FDX : Z := Z.shiftl 1 1.

Definition sfc7120_linkchange_speed_mbps (code : Z) : Z :=
  match code with
  | 1 => 100
  | 2 => 1000
  | 3 => 10000
  | 4 => 40000
  | 5 => 25000
  | 6 => 50000
  | 7 => 100000
  | _ => 0
  end.

(** What one control event does to the link state. *)
Definition isr_event (ev : Z) (lk : link_state) : link_state :=
  let lo := u32 (Z.land ev 0xffffffff) in
  let hi := u32 (Z.shiftr ev 32) in
  let code := Z.land (Z.shiftr hi (SFC7120_EV_CODE_LBN - 32)) 0xf in
  if code =? SFC7120_EV_CODE_MCDI then
    let mcdi_code := Z.land (Z.shiftr hi (SFC7120_MCDI_EVENT_CODE_LBN - 32)) 0xff in
    if mcdi_code =? SFC7120_MCDI_EV_LINKCHANGE then
      let flags := Z.land (Z.shiftr lo SFC7120_LC_FLAGS_SHIFT) 0xff in
      let scode := Z.land (Z.shiftr lo SFC7120_LC_SPEED_SHIFT) 0xf in
      let fcntl := Z.land (Z.shiftr lo SFC7120_LC_FCNTL_SHIFT) 0xf in
      lk <| link_up := negb (Z.land flags SFC7120_LC_FLAG_LINK_UP =? 0) |>
         <| full_duplex := negb (Z.land flags SFC7120_LC_FLAG_FDX =? 0) |>
         <| link_speed_mbps := sfc7120_linkchange_speed_mbps scode |>
         <| link_fcntl := fcntl |>
    else lk
  else lk.

Section datapath.
Context {D : Type} `{!Device D}.
Abbreviation world := (world D).

(** ** Locks and ring accesses *)

Definition SFC7120_LOCK : ST world unit :=
  do* kassert (fun w => bool_decide (sc_mtx (sc_life (w_sc w)) = MtxFree));
  mod_life (fun l => l <| sc_mtx := MtxHeld |>).
Definition SFC7120_UNLOCK : ST world unit :=
  do* kassert (fun w => bool_decide (sc_mtx (sc_life (w_sc w)) = MtxHeld));
  mod_life (fun l => l <| sc_mtx := MtxFree |>).
Definition SFC7120_RX_LOCK : ST world unit :=
  do* kassert (fun w => bool_decide (rx_mtx (sc_life (w_sc w)) = MtxFree));
  mod_life (fun l => l <| rx_mtx := MtxHeld |>).
Definition SFC7120_RX_UNLOCK : ST world unit :=
  do* kassert (fun w => bool_decide (rx_mtx (sc_life (w_sc w)) = MtxHeld));
  mod_life (fun l => l <| rx_mtx := MtxFree |>).

Definition in_ring (i : Z) : bool := (0 <=? i) && (i <? 512).

Definition ring_load (ring : dma -> list Z) (i : Z) : ST world Z :=
  do* kassert (fun _ => in_ring i);
  gets (fun w => arr_get (ring (w_dma w)) i).

Definition ring_store (upd_ring : (list Z -> list Z) -> dma -> dma) (i v : Z) : ST world unit :=
  do* kassert (fun _ => in_ring i);
  mod_dma (upd_ring (fun r => arr_set r i v)).

Definition upd_evq f (d : dma) : dma := d <| evq ::= f |>.
Definition upd_data_evq f (d : dma) : dma := d <| data_evq ::= f |>.
Definition upd_tx_ring f (d : dma) : dma := d <| tx_ring ::= f |>.
Definition upd_rx_ring f (d : dma) : dma := d <| rx_ring ::= f |>.

(** ** sfc7120_post_rx_buffers *)

(** The descriptor for receive slot [i] when the buffer is at [base]. *)
Definition rx_slot_desc (base i : Z) : Z :=
  ef10_desc SFC7120_RX_BUFFER_SIZE (u64 (base + i * SFC7120_RX_BUFFER_SIZE)).

(** [n] turns of the loop, from index [i]. *)
Fixpoint post_rx_loop (n : nat) (i : Z) : ST world unit :=
  match n with
  | O => ret tt
  | S n' =>
      let* base := get_sc (fun sc => db_paddr (rx_buffer (sc_dma sc))) in
      do* ring_store upd_rx_ring i (rx_slot_desc base i);
      post_rx_loop n' (i + 1)
  end.

Definition sfc7120_post_rx_buffers : ST world unit :=
  let npost := SFC7120_NUM_RX_DESC - 1 in
  do* post_rx_loop (Z.to_nat SFC7120_NUM_RX_DESC) 0;
  do* sync_prewrite;
  do* SFC7120_WRITE_REG SFC7120_REG_DATA_RX_DESC_DBL npost;
  mod_rings (fun r => r <| rx_head := 0 |>).

(** ** The data event queue *)

Definition next_data_event : ST world Z :=
  do* sync_postread;
  let* rptr := get_sc (fun sc => data_evq_read_ptr (sc_rings sc)) in
  ring_load data_evq rptr.

Definition consume_data_event : ST world unit :=
  let* rptr := get_sc (fun sc => data_evq_read_ptr (sc_rings sc)) in
  do* ring_store upd_data_evq rptr 0;
  mod_rings (fun r => r <| data_evq_read_ptr ::= fun p => Z.land (p + 1) (SFC7120_NUM_EVQ_ENTRY - 1) |>).

Definition ack_data_events (consumed : Z) : ST world unit :=
  if 0 <? consumed then
    do* sync_prewrite;
    let* rptr := get_sc (fun sc => data_evq_read_ptr (sc_rings sc)) in
    SFC7120_WRITE_REG SFC7120_REG_DATA_EVQ_RPTR_DBL (Z.land (u32 rptr) SFC7120_EVQ_RPTR_MASK)
  else ret tt.

(** ** Transmit *)

Definition tx_slot (head : Z) : Z := head * SFC7120_TX_BUFFER_SIZE.

(** The capability and length tests; 0 when the request is acceptable. *)
Definition tx_check (req : sfc7120_tx_req) : Z :=
  let c := tx_buf_addr req in
  if negb (ub_tag c) then EINVAL
  else if negb (ub_load c) then EPERM
  else if (tx_length req =? 0) || (SFC7120_TX_BUFFER_SIZE <? tx_length req) then EINVAL
  else if ub_len c <? tx_length req then EINVAL
  else 0.

(** [n] bytes of [bytes] stored at offset [off] of the transmit buffer. *)
Definition store_bytes (off n : Z) (bytes mem : Z -> Z) : Z -> Z := fun o =>
  if (off <=? o) && (o <? off + n) then bytes (o - off) else mem o.

Definition copyin (src : user_buf) (off len : Z) : ST world Z :=
  do* kassert (fun _ => (0 <=? off) &&
                 (off + len <=? SFC7120_NUM_TX_DESC * SFC7120_TX_BUFFER_SIZE));
  match ub_fault src with
  | None => do* mod_dma (fun d => d <| tx_mem ::= store_bytes off len (ub_bytes src) |>); ret 0
  | Some (e, n) =>
      do* mod_dma (fun d => d <| tx_mem ::= store_bytes off (Z.min n len) (ub_bytes src) |>);
      ret e
  end.

(** Steps 2 to 4: copy, describe, ring the doorbell.  The sum is the error of
    the copy or the index posted. *)
Definition tx_post (req : sfc7120_tx_req) : ST world (Z + Z) :=
  let* head := get_sc (fun sc => tx_head (sc_rings sc)) in
  let* base := get_sc (fun sc => db_paddr (tx_buffer (sc_dma sc))) in
  let slot_pa := u64 (base + tx_slot head) in
  let* copy_err := copyin (tx_buf_addr req) (tx_slot head) (tx_length req) in
  if negb (copy_err =? 0) then ret (inl copy_err)
  else
  do* sync_prewrite;
  do* ring_store upd_tx_ring head (ef10_desc (tx_length req) slot_pa);
  do* sync_prewrite;
  let wptr := Z.land (u32 (head + 1)) (SFC7120_NUM_TX_DESC - 1) in
  do* SFC7120_WRITE_REG SFC7120_REG_DATA_TX_WPTR_DBL wptr;
  ret (inr head).

(** Step 5: at most [tries] looks at the queue; whether the completion of
    [posted_idx] was seen, and how many events were consumed. *)
Fixpoint tx_poll (tries : nat) (posted_idx consumed : Z) : ST world (bool * Z) :=
  match tries with
  | O => ret (false, consumed)
  | S tries' =>
      let* ev := next_data_event in
      if ev_empty ev then tx_poll tries' posted_idx consumed
      else
      let tx_done := (ev_code ev =? SFC7120_EV_CODE_TX) &&
                     (Z.land (ev_tx_index ev) (SFC7120_NUM_TX_DESC - 1) =? u32 posted_idx) in
      do* consume_data_event;
      if tx_done then ret (true, consumed + 1)
      else tx_poll tries' posted_idx (consumed + 1)
  end.

Definition ioctl_tx (req : sfc7120_tx_req) : ST world (Z * sfc7120_tx_req) :=
  let e := tx_check req in
  if negb (e =? 0) then ret (e, req)
  else
  do* SFC7120_LOCK;
  let* posted := tx_post req in
  match posted with
  | inl copy_err => do* SFC7120_UNLOCK; ret (copy_err, req)
  | inr posted_idx =>
      let* r := tx_poll TX_POLL_TRIES posted_idx 0 in
      let '(tx_done, consumed) := r in
      do* ack_data_events consumed;
      do* mod_rings (fun r => r <| tx_head ::= fun h => Z.land (h + 1) (SFC7120_NUM_TX_DESC - 1) |>);
      do* SFC7120_UNLOCK;
      ret (if tx_done : bool then 0 else ETIMEDOUT,
           req <| tx_status := if tx_done then 0 else u8 ETIMEDOUT |>)
  end.

(** ** Receive *)

(** At most [tries] looks at the queue: the byte count of the first receive
    event, and how many events were consumed. *)
Fixpoint rx_poll (tries : nat) (consumed : Z) : ST world (option Z * Z) :=
  match tries with
  | O => ret (None, consumed)
  | S tries' =>
      let* ev := next_data_event in
      if ev_empty ev then rx_poll tries' consumed
      else
      do* consume_data_event;
      if ev_code ev =? SFC7120_EV_CODE_RX then ret (Some (ev_rx_bytes ev), consumed + 1)
      else rx_poll tries' (consumed + 1)
  end.

Definition rx_slot (head : Z) : Z := head * SFC7120_RX_BUFFER_SIZE.

(** [n] bytes of receive memory from offset [off]. *)
Definition load_bytes (mem : Z -> Z) (off n : Z) : list Z :=
  map (fun i => mem (off + Z.of_nat i)) (seq 0 (Z.to_nat n)).

(** Loads from the receive buffer, through the capability for all of it. *)
Definition RX_MEM_SIZE : Z := SFC7120_NUM_RX_DESC * SFC7120_RX_BUFFER_SIZE.
Definition rx_byte (off : Z) : ST world Z :=
  do* kassert (fun _ => (0 <=? off) && (off <? RX_MEM_SIZE));
  gets (fun w => rx_mem (w_dma w) off).
Definition rx_load (off n : Z) : ST world (list Z) :=
  do* kassert (fun _ => (0 <=? off) && (off + n <=? RX_MEM_SIZE));
  gets (fun w => load_bytes (rx_mem (w_dma w)) off n).

(** Steps 4 to 6, for an event of [rx_bytes] bytes.  The copy is given a range
    of the receive buffer, which has to be inside it whether or not the user's
    side of the copy fails. *)
Definition rx_deliver (rx_bytes : Z) (req : sfc7120_rx_req) : ST world (Z * sfc7120_rx_req) :=
  let* head := get_sc (fun sc => rx_head (sc_rings sc)) in
  do* sync_postread;
  let* b8 := rx_byte (rx_slot head + 8) in
  let* b9 := rx_byte (rx_slot head + 9) in
  let plen := rx_plen b8 b9 rx_bytes in
  let* frame := rx_load (rx_slot head + SFC7120_EF10_RX_PREFIX_LEN) plen in
  let copy_err := rx_copyout req in
  if negb (copy_err =? 0) then
    do* SFC7120_UNLOCK;
    ret (copy_err, req)
  else
  let req := req <| rx_raw_buffer := frame |> <| rx_length_received := plen |> in
  let* base := get_sc (fun sc => db_paddr (rx_buffer (sc_dma sc))) in
  do* ring_store upd_rx_ring head (rx_slot_desc base head);
  do* sync_prewrite;
  do* SFC7120_WRITE_REG SFC7120_REG_RX_DESC_DBL (u32 head);
  do* mod_rings (fun r => r <| rx_head ::= fun h => Z.land (h + 1) (SFC7120_NUM_RX_DESC - 1) |>);
  do* SFC7120_UNLOCK;
  ret (0, req <| rx_status := 0 |>).

(** Steps 1 to 3: wait for a receive event and acknowledge what was consumed. *)
Definition rx_wait : ST world (option Z) :=
  do* SFC7120_LOCK;
  let* r := rx_poll RX_POLL_TRIES 0 in
  let '(found, consumed) := r in
  do* ack_data_events consumed;
  ret found.

Definition ioctl_rx (req : sfc7120_rx_req) : ST world (Z * sfc7120_rx_req) :=
  let* found := rx_wait in
  match found with
  | None => do* SFC7120_UNLOCK; ret (ETIMEDOUT, req)
  | Some rx_bytes => rx_deliver rx_bytes req
  end.

(** ** The remaining ioctls *)

Definition ioctl_get_mac : ST world (list Z) :=
  do* SFC7120_LOCK;
  let* mac := get_sc (fun sc => mac_addr (sc_fw sc)) in
  do* SFC7120_UNLOCK;
  ret mac.

Definition ioctl_get_vi_info : ST world sfc7120_vi_info_req :=
  do* SFC7120_LOCK;
  let* sc := get_sc id in
  do* SFC7120_UNLOCK;
  ret (ViInfo (db_paddr (tx_buffer (sc_dma sc))) (db_paddr (rx_buffer (sc_dma sc)))
         (vi_base (sc_fw sc)) SFC7120_DATA_EVQ_INSTANCE SFC7120_RXQ_INSTANCE SFC7120_TXQ_INSTANCE
         SFC7120_NUM_TX_DESC SFC7120_NUM_RX_DESC SFC7120_NUM_EVQ_ENTRY
         (u32 (tx_head (sc_rings sc))) (u32 (rx_head (sc_rings sc)))
         (u32 (data_evq_read_ptr (sc_rings sc)))).

Definition ioctl_set_evq_rptr (req : sfc7120_evq_sync_req) : ST world Z :=
  let e := u32 (es_evq_read_ptr req) in
  let t := u32 (es_tx_head req) in
  let r := u32 (es_rx_head req) in
  if (SFC7120_NUM_EVQ_ENTRY <=? e) || (SFC7120_NUM_TX_DESC <=? t) || (SFC7120_NUM_RX_DESC <=? r)
  then ret EINVAL
  else
  do* SFC7120_LOCK;
  do* mod_rings (fun g => g <| data_evq_read_ptr := e |> <| tx_head := t |> <| rx_head := r |>);
  do* SFC7120_UNLOCK;
  ret 0.

Definition sfc7120_ioctl (cmd : sfc7120_cmd) : ST world (Z * sfc7120_cmd) :=
  match cmd with
  | SFC7120_GET_MAC _ => let* mac := ioctl_get_mac in ret (0, SFC7120_GET_MAC mac)
  | SFC7120_GET_VI_INFO _ => let* v := ioctl_get_vi_info in ret (0, SFC7120_GET_VI_INFO v)
  | SFC7120_SET_EVQ_RPTR req => let* e := ioctl_set_evq_rptr req in ret (e, SFC7120_SET_EVQ_RPTR req)
  | SFC7120_TX req => let* r := ioctl_tx req in ret (fst r, SFC7120_TX (snd r))
  | SFC7120_RX req => let* r := ioctl_rx req in ret (fst r, SFC7120_RX (snd r))
  | SFC7120_UNKNOWN _ => ret (ENOTTY, cmd)
  end.

(** ** The control event queue *)

(** The loop of the handler; [processed] counts the events taken. *)
Fixpoint isr_loop (fuel : nat) (processed : Z) : ST world Z :=
  match fuel with
  | O => panic
  | S fuel' =>
      let* rptr := get_sc (fun sc => evq_read_ptr (sc_rings sc)) in
      let* ev := ring_load evq rptr in
      if ev_empty ev then ret processed
      else
      do* mod_link (isr_event ev);
      do* ring_store upd_evq rptr 0;
      do* mod_rings (fun r => r <| evq_read_ptr ::= fun p => Z.land (p + 1) (SFC7120_NUM_EVQ_ENTRY - 1) |>);
      if SFC7120_NUM_EVQ_ENTRY <=? processed + 1 then ret (processed + 1)
      else isr_loop fuel' (processed + 1)
  end.

Definition ISR_FUEL : nat := Z.to_nat SFC7120_NUM_EVQ_ENTRY.

Definition sfc7120_interrupt_handler : ST world unit :=
  let* sc := get_sc id in
  if negb (db_vaddr (evq_ring (sc_dma sc))) then ret tt
  else if dying (sc_life sc) || negb (evq_initialized (sc_fw sc)) then ret tt
  else
  do* SFC7120_LOCK;
  do* sync_postread;
  let* processed := isr_loop ISR_FUEL 0 in
  do* (if 0 <? processed then
         do* sync_prewrite;
         let* rptr := get_sc (fun sc => evq_read_ptr (sc_rings sc)) in
         SFC7120_WRITE_REG SFC7120_REG_EVQ_RPTR_DBL (Z.land (u32 rptr) SFC7120_EVQ_RPTR_MASK)
       else ret tt);
  SFC7120_UNLOCK.

(** ** Poll *)

Definition sfc7120_rx_task_handler : ST world unit :=
  do* SFC7120_RX_LOCK;
  do* mod_life (fun l => l <| rx_received := true |>);
  SFC7120_RX_UNLOCK.

Definition sfc7120_poll (si_drv1 : bool) (events : Z) : ST world Z :=
  if negb si_drv1 then ret POLLERR
  else
  do* SFC7120_RX_LOCK;
  let* received := get_sc (fun sc => rx_received (sc_life sc)) in
  let revents := if received then Z.land events (Z.lor POLLIN POLLRDNORM) else 0 in
  do* SFC7120_RX_UNLOCK;
  ret revents.

(** ** The CAPIO entry points *)

(** [smem] is the region table the softc shares with CAPIO; an entry attach
    has not filled in yet is zero. *)
Definition sfc7120_get_buffer_size `{!PciBar} (smem : list shared_mem_region) (type : Z) : ST world Z :=
  match region_of_int type with
  | Some SFC7120_TX_BUFFER => ret (SFC7120_NUM_TX_DESC * SFC7120_TX_BUFFER_SIZE)
  | Some SFC7120_RX_BUFFER => ret (SFC7120_NUM_RX_DESC * SFC7120_RX_BUFFER_SIZE)
  | Some SFC7120_MMIO_REGION => do* SFC7120_LOCK; do* SFC7120_UNLOCK; ret bar_size
  | Some SFC7120_MMIO_REGION_UNSLICED =>
      match smem !! Z.to_nat (region_int SFC7120_MMIO_REGION_UNSLICED) with
      | Some r => ret (smr_len r)
      | None => ret 0
      end
  | Some SFC7120_TX_DESC_RING => ret (SFC7120_NUM_TX_DESC * SFC7120_TX_DESC_SIZE)
  | Some SFC7120_RX_DESC_RING => ret (SFC7120_NUM_RX_DESC * SFC7120_RX_DESC_SIZE)
  | Some SFC7120_EVQ_RING => ret (SFC7120_NUM_EVQ_ENTRY * SFC7120_EVQ_ENTRY_SIZE)
  | None => ret 0
  end.

Definition sfc7120_is_dying : ST world bool :=
  do* SFC7120_LOCK;
  let* res := get_sc (fun sc => dying (sc_life sc)) in
  do* SFC7120_UNLOCK;
  ret res.
End datapath.

(** ** The invariant of the data path *)

Record rings_ok (r : rings) : Prop := {
  ro_evq : 0 <= evq_read_ptr r < 512;
  ro_data : 0 <= data_evq_read_ptr r < 512;
  ro_tx : 0 <= tx_head r < 512;
  ro_rx : 0 <= rx_head r < 512;
}.

Lemma land_ring (x : Z) : Z.land x (512 - 1) = x mod 512.
Proof. exact (land_511 x). Qed.

Lemma ring_next_bound (x : Z) : 0 <= Z.land x (512 - 1) < 512.
Proof. rewrite land_ring. apply Z.mod_pos_bound. lia. Qed.

Lemma in_ring_true i : 0 <= i < 512 -> in_ring i = true.
Proof. unfold in_ring. lia. Qed.

(** The value a read-pointer doorbell carries. *)
Lemma rptr_doorbell (p : Z) : 0 <= p < 512 -> u32 (Z.land (u32 p) SFC7120_EVQ_RPTR_MASK) = p.
Proof.
  intros Hp. unfold SFC7120_EVQ_RPTR_MASK, u32. rewrite land_0x7fff.
  rewrite (Z.mod_small p (2 ^ 32)), (Z.mod_small p 32768), (Z.mod_small p) by lia. done.
Qed.

Section datapath_rules.
Context {D : Type} `{!Device D} `{!DeviceLaws D}.
Abbreviation world := (world D).
Implicit Types (w : world).

(** Idle: the driver's mutex is free, shared memory is well formed and the
    indices are inside their rings. *)
Record data_ok w : Prop := {
  dk_mtx : sc_mtx (sc_life (w_sc w)) = MtxFree;
  dk_wf : w_wf w;
  dk_rings : rings_ok (sc_rings (w_sc w));
}.

(** What data-path code leaves alone: everything but the ring indices, shared
    memory, the device and the log. *)
Record data_frame w w' : Prop := {
  da_sc : w_sc w' = (w_sc w) <| sc_rings := sc_rings (w_sc w') |>;
  da_owned : w_owned w' = w_owned w;
  da_ext : w_ext w' = w_ext w;
  da_cmds : w_cmds w' = w_cmds w;
  da_time : w_time w' = w_time w;
}.

Lemma data_frame_refl w : data_frame w w.
Proof. split; try done. now destruct (w_sc w). Qed.

Lemma data_frame_trans w1 w2 w3 : data_frame w1 w2 -> data_frame w2 w3 -> data_frame w1 w3.
Proof.
  intros [E1 ? ? ? ?] [E2 ? ? ? ?]. split; try congruence. rewrite E2, E1. now destruct (w_sc w1).
Qed.

Lemma wp_ring_load ring i (Q : Z -> world -> Prop) w :
  0 <= i < 512 -> Q (arr_get (ring (w_dma w)) i) w -> wp (ring_load ring i) Q w.
Proof. intros Hi HQ. apply wp_bind, wp_kassert; [now apply in_ring_true |]. exact HQ. Qed.

Lemma wp_ring_store u i v (Q : unit -> world -> Prop) w :
  0 <= i < 512 -> Q tt (w <| w_dma ::= u (fun r => arr_set r i v) |>) -> wp (ring_store u i v) Q w.
Proof. intros Hi HQ. apply wp_bind, wp_kassert; [now apply in_ring_true |]. exact HQ. Qed.

Definition held w : world := w <| w_sc ::= fun sc => sc <| sc_life ::= fun l => l <| sc_mtx := MtxHeld |> |> |>.
Definition freed w : world := w <| w_sc ::= fun sc => sc <| sc_life ::= fun l => l <| sc_mtx := MtxFree |> |> |>.

Lemma wp_LOCK (Q : unit -> world -> Prop) w :
  sc_mtx (sc_life (w_sc w)) = MtxFree -> Q tt (held w) -> wp SFC7120_LOCK Q w.
Proof. intros Hm HQ. apply wp_bind, wp_kassert; [now apply bool_decide_eq_true_2 |]. exact HQ. Qed.

Lemma wp_UNLOCK (Q : unit -> world -> Prop) w :
  sc_mtx (sc_life (w_sc w)) = MtxHeld -> Q tt (freed w) -> wp SFC7120_UNLOCK Q w.
Proof. intros Hm HQ. apply wp_bind, wp_kassert; [now apply bool_decide_eq_true_2 |]. exact HQ. Qed.

Lemma held_mtx w : sc_mtx (sc_life (w_sc (held w))) = MtxHeld.
Proof. done. Qed.

(** A critical section: code that keeps the frame between lock and unlock. *)
Lemma frame_unlock w w' :
  sc_mtx (sc_life (w_sc w)) = MtxFree -> data_frame (held w) w' -> data_frame w (freed w').
Proof.
  intros Hm [E ? ? ? ?]. split; try done. simpl. rewrite E. simpl.
  destruct (w_sc w) as [? ? ? [? ? mx ? ? ?] ? ? ?]. simpl in *. now subst mx.
Qed.

Lemma frame_held w w' : data_frame (held w) w' -> sc_mtx (sc_life (w_sc w')) = MtxHeld.
Proof. intros [E _ _ _ _]. now rewrite E. Qed.

Lemma arr_set_wf_data m i v : dma_wf m -> dma_wf (upd_data_evq (fun r => arr_set r i v) m).
Proof. intros [? [? ?] ? ?]. split; simpl; try done. now rewrite length_arr_set. Qed.
Lemma arr_set_wf_evq m i v : dma_wf m -> dma_wf (upd_evq (fun r => arr_set r i v) m).
Proof. intros [? [? ?] ? ?]. split; simpl; try done. now rewrite length_arr_set. Qed.
Lemma arr_set_wf_tx m i v : dma_wf m -> dma_wf (upd_tx_ring (fun r => arr_set r i v) m).
Proof. intros [? ? [? ?] ?]. split; simpl; try done. now rewrite length_arr_set. Qed.
Lemma arr_set_wf_rx m i v : dma_wf m -> dma_wf (upd_rx_ring (fun r => arr_set r i v) m).
Proof. intros [? ? [? ?] ?]. split; simpl; try done. now rewrite length_arr_set. Qed.
End datapath_rules.

#[export] Hint Resolve arr_set_wf_data arr_set_wf_evq arr_set_wf_tx arr_set_wf_rx data_frame_refl : sfc.

(** ** Transmit and receive, whatever the device does *)

Section datapath_any.
Context {D : Type} `{!Device D} `{!DeviceLaws D}.
Abbreviation world := (world D).
Implicit Types (w : world).

Lemma next_data_event_spec (Q : Z -> world -> Prop) w :
  w_wf w -> rings_ok (sc_rings (w_sc w)) ->
  (forall d m, dma_wf m ->
     Q (arr_get (data_evq m) (data_evq_read_ptr (sc_rings (w_sc w)))) (w <| w_dev := d |> <| w_dma := m |>)) ->
  wp next_data_event Q w.
Proof.
  intros Hw [] HQ. apply wp_bind, wp_sync_postread; [done |]. intros d m Hm.
  apply wp_bind, wp_get_sc, wp_ring_load; [done |]. now apply HQ.
Qed.

(** The world after an event is consumed. *)
Definition consumed_world w : world :=
  w <| w_dma ::= upd_data_evq (fun r => arr_set r (data_evq_read_ptr (sc_rings (w_sc w))) 0) |>
    <| w_sc ::= fun sc => sc <| sc_rings ::= fun r =>
         r <| data_evq_read_ptr ::= fun p => (p + 1) mod 512 |> |> |>.

Lemma consume_data_event_spec (Q : unit -> world -> Prop) w :
  rings_ok (sc_rings (w_sc w)) -> Q tt (consumed_world w) -> wp consume_data_event Q w.
Proof.
  intros [] HQ. apply wp_bind, wp_get_sc, wp_bind, wp_ring_store; [done |]. apply wp_mod_sc.
  revert HQ. unfold consumed_world. simpl. unfold SFC7120_NUM_EVQ_ENTRY. now rewrite land_ring.
Qed.

(** A polling loop consumed [k] events: the read pointer moved by [k]. *)
Definition polled (k : Z) w w' : Prop :=
  data_frame w w' /\ w_wf w' /\ w_log w' = w_log w /\
  sc_rings (w_sc w')
  = (sc_rings (w_sc w)) <| data_evq_read_ptr := (data_evq_read_ptr (sc_rings (w_sc w)) + k) mod 512 |>.

Lemma polled_refl w d m :
  rings_ok (sc_rings (w_sc w)) -> dma_wf m -> polled 0 w (w <| w_dev := d |> <| w_dma := m |>).
Proof.
  intros [] Hm. split; [split; try done; simpl; now destruct (w_sc w) |]. split; [done |]. split; [done |].
  simpl. rewrite Z.add_0_r, Z.mod_small by done. now destruct (sc_rings (w_sc w)).
Qed.

Lemma polled_consumed w d m :
  dma_wf m -> polled 1 w (consumed_world (w <| w_dev := d |> <| w_dma := m |>)).
Proof.
  intros Hm. split; [split; try done; simpl; now destruct (w_sc w) |].
  split; [now apply arr_set_wf_data |]. now split.
Qed.

Lemma polled_trans j k w1 w2 w3 : polled j w1 w2 -> polled k w2 w3 -> polled (j + k) w1 w3.
Proof.
  intros (F1 & W1 & L1 & R1) (F2 & W2 & L2 & R2). split; [eauto using data_frame_trans |]. split; [done |].
  split; [congruence |]. rewrite R2, R1. simpl. f_equal. zdiv.
Qed.

Lemma polled_rings k w w' : rings_ok (sc_rings (w_sc w)) -> polled k w w' -> rings_ok (sc_rings (w_sc w')).
Proof.
  intros [] (_ & _ & _ & E). rewrite E. split; simpl; try done. apply Z.mod_pos_bound. lia.
Qed.

Lemma tx_poll_spec tries posted consumed w :
  w_wf w -> rings_ok (sc_rings (w_sc w)) ->
  wp (tx_poll tries posted consumed) (fun r w' =>
    consumed <= snd r <= consumed + Z.of_nat tries /\ (fst r = true -> consumed < snd r) /\
    polled (snd r - consumed) w w') w.
Proof.
  revert consumed w. induction tries as [| n IH]; intros consumed w Hw Hr.
  { apply wp_ret. simpl. replace (consumed - consumed) with 0 by lia. split; [lia |]. split; [done |].
    pose proof (polled_refl w (w_dev w) (w_dma w) Hr Hw) as H. now destruct w. }
  cbn [tx_poll]. apply wp_bind, next_data_event_spec; [done | done |]. intros d m Hm.
  pose proof (polled_refl w d m Hr Hm) as Hp0. set (w1 := w <| w_dev := d |> <| w_dma := m |>) in *.
  destruct (ev_empty _).
  - eapply wp_mono; [apply IH; [exact Hm | exact Hr] |]. intros [b c] w' (? & ? & Hp). simpl in *.
    split; [lia |]. split; [done |]. replace (c - consumed) with (0 + (c - consumed)) by lia.
    eapply polled_trans; eauto.
  - cbv zeta. apply wp_bind, consume_data_event_spec; [exact Hr |].
    pose proof (polled_consumed w d m Hm) as Hp1. fold w1 in Hp1. destruct (_ && _).
    + apply wp_ret. simpl. replace (consumed + 1 - consumed) with 1 by lia. split; [lia |]. split; [lia | done].
    + eapply wp_mono; [apply IH; [apply Hp1 | eapply polled_rings; eauto] |].
      intros [b c] w' (? & ? & Hp). simpl in *. split; [lia |]. split; [intros; specialize (H0 ltac:(done)); lia |].
      replace (c - consumed) with (1 + (c - (consumed + 1))) by lia. eapply polled_trans; eauto.
Qed.

Lemma rx_poll_spec tries consumed w :
  w_wf w -> rings_ok (sc_rings (w_sc w)) ->
  wp (rx_poll tries consumed) (fun r w' =>
    consumed <= snd r <= consumed + Z.of_nat tries /\
    (forall n, fst r = Some n -> 0 <= n < 16384) /\ polled (snd r - consumed) w w') w.
Proof.
  revert consumed w. induction tries as [| n IH]; intros consumed w Hw Hr.
  { apply wp_ret. simpl. replace (consumed - consumed) with 0 by lia. split; [lia |]. split; [done |].
    pose proof (polled_refl w (w_dev w) (w_dma w) Hr Hw) as H. now destruct w. }
  cbn [rx_poll]. apply wp_bind, next_data_event_spec; [done | done |]. intros d m Hm.
  pose proof (polled_refl w d m Hr Hm) as Hp0. set (w1 := w <| w_dev := d |> <| w_dma := m |>) in *.
  destruct (ev_empty _).
  - eapply wp_mono; [apply IH; [exact Hm | exact Hr] |]. intros [b c] w' (? & ? & Hp). simpl in *.
    split; [lia |]. split; [done |]. replace (c - consumed) with (0 + (c - consumed)) by lia.
    eapply polled_trans; eauto.
  - apply wp_bind, consume_data_event_spec; [exact Hr |].
    pose proof (polled_consumed w d m Hm) as Hp1. fold w1 in Hp1. destruct (_ =? SFC7120_EV_CODE_RX).
    + apply wp_ret. simpl. replace (consumed + 1 - consumed) with 1 by lia. split; [lia |].
      split; [intros; simplify_eq; apply ev_rx_bytes_bound | done].
    + eapply wp_mono; [apply IH; [apply Hp1 | eapply polled_rings; eauto] |].
      intros [b c] w' (? & ? & Hp). simpl in *. split; [lia |]. split; [done |].
      replace (c - consumed) with (1 + (c - (consumed + 1))) by lia. eapply polled_trans; eauto.
Qed.

(** The acknowledgement writes the new read pointer, once, if anything was
    consumed. *)
Definition ack_log (consumed : Z) w : list (Z * Z) :=
  if 0 <? consumed then [(SFC7120_REG_DATA_EVQ_RPTR_DBL, data_evq_read_ptr (sc_rings (w_sc w)))] else [].

Lemma ack_data_events_spec consumed (Q : unit -> world -> Prop) w :
  w_wf w -> rings_ok (sc_rings (w_sc w)) ->
  (forall d m, dma_wf m ->
    Q tt (w <| w_log ::= fun l => l ++ ack_log consumed w |> <| w_dev := d |> <| w_dma := m |>)) ->
  wp (ack_data_events consumed) Q w.
Proof.
  intros Hw [] HQ. unfold ack_data_events, ack_log in *. destruct (0 <? consumed).
  - apply wp_bind, wp_ret, wp_bind, wp_get_sc, wp_WRITE_REG; [done |]. intros d m Hm.
    replace (u32 (Z.land _ _)) with (data_evq_read_ptr (sc_rings (w_sc w))); [now apply HQ |].
    now rewrite rptr_doorbell.
  - apply wp_ret. specialize (HQ (w_dev w) (w_dma w) Hw). destruct w. simpl in *. now rewrite app_nil_r in HQ.
Qed.
End datapath_any.

Section datapath_ioctls.
Context {D : Type} `{!Device D} `{!DeviceLaws D}.
Abbreviation world := (world D).
Implicit Types (w : world).

Definition tx_base w : Z := db_paddr (tx_buffer (sc_dma (w_sc w))).
Definition rx_base w : Z := db_paddr (rx_buffer (sc_dma (w_sc w))).

(** Shared memory when the transmit doorbell is rung. *)
Definition tx_posted_dma (req : sfc7120_tx_req) (n head base : Z) (m : dma) : dma :=
  upd_tx_ring (fun r => arr_set r head (ef10_desc (tx_length req) (u64 (base + tx_slot head))))
    (m <| tx_mem ::= store_bytes (tx_slot head) n (ub_bytes (tx_buf_addr req)) |>).

Lemma tx_check_ok req : tx_check req = 0 ->
  ub_tag (tx_buf_addr req) = true /\ ub_load (tx_buf_addr req) = true /\
  tx_length req <> 0 /\ tx_length req <= 2048 /\ tx_length req <= ub_len (tx_buf_addr req).
Proof.
  unfold tx_check, SFC7120_TX_BUFFER_SIZE, EINVAL, EPERM. intros H.
  destruct (ub_tag _), (ub_load _); try discriminate H. cbn [negb] in H.
  destruct ((_ =? 0) || _) eqn:H1; [discriminate H |].
  destruct (Z.ltb_spec (ub_len (tx_buf_addr req)) (tx_length req)); [discriminate H | lia].
Qed.

(** The outcome of posting: the copy's error with nothing but the packet
    memory touched, or the packet described and the doorbell rung. *)
Definition tx_post_result (req : sfc7120_tx_req) w (r : Z + Z) w' : Prop :=
  let head := tx_head (sc_rings (w_sc w)) in
  match r with
  | inl e => e <> 0 /\ (exists n, ub_fault (tx_buf_addr req) = Some (e, n)) /\ exists f, w' = w <| w_dma ::= fun d => d <| tx_mem ::= f |> |>
  | inr i => i = head /\ w_sc w' = w_sc w /\ w_owned w' = w_owned w /\ w_ext w' = w_ext w /\
      w_cmds w' = w_cmds w /\ w_time w' = w_time w /\ w_wf w' /\
      w_log w' = w_log w ++ [(SFC7120_REG_DATA_TX_WPTR_DBL, (head + 1) mod 512)] /\
      exists n, (ub_fault (tx_buf_addr req) = None -> n = tx_length req) /\
      (w_dev w', w_dma w') = dev_write SFC7120_REG_DATA_TX_WPTR_DBL ((head + 1) mod 512)
        (w_dev w, tx_posted_dma req n head (tx_base w) (w_dma w))
  end.

Lemma tx_describe_spec req n w :
  w_wf w -> rings_ok (sc_rings (w_sc w)) -> (ub_fault (tx_buf_addr req) = None -> n = tx_length req) ->
  let head := tx_head (sc_rings (w_sc w)) in
  wp (do* sync_prewrite;
      do* ring_store upd_tx_ring head (ef10_desc (tx_length req) (u64 (tx_base w + tx_slot head)));
      do* sync_prewrite;
      do* SFC7120_WRITE_REG SFC7120_REG_DATA_TX_WPTR_DBL (Z.land (u32 (head + 1)) (SFC7120_NUM_TX_DESC - 1));
      ret (inr head)) (tx_post_result req w)
    (w <| w_dma ::= fun d => d <| tx_mem ::= store_bytes (tx_slot head) n (ub_bytes (tx_buf_addr req)) |> |>).
Proof.
  intros Hw Hr Hn head. pose proof (ro_tx _ Hr) as Hh. fold head in Hh.
  apply wp_bind, wp_ret, wp_bind, wp_ring_store; [done |]. apply wp_bind, wp_ret, wp_bind.
  assert (dma_wf (tx_posted_dma req n head (tx_base w) (w_dma w))) as Hwf.
  { apply arr_set_wf_tx. destruct Hw as [? ? ? ?]. now split. }
  apply wp_WRITE_REG_dev; [exact Hwf |]. intros w' Hsc Ho He Hcm Ht Hl Hw' Hdev. apply wp_ret.
  replace (u32 (Z.land (u32 (head + 1)) (SFC7120_NUM_TX_DESC - 1))) with ((head + 1) mod 512) in Hl, Hdev.
  2: { unfold SFC7120_NUM_TX_DESC, u32. rewrite land_ring. zdiv. }
  split; [done |]. do 7 (split; [assumption |]). exists n. split; [done | exact Hdev].
Qed.

Lemma tx_post_spec req w :
  tx_check req = 0 -> w_wf w -> rings_ok (sc_rings (w_sc w)) ->
  wp (tx_post req) (tx_post_result req w) w.
Proof.
  intros Hc Hw Hr. pose proof (ro_tx _ Hr) as Hh.
  destruct (tx_check_ok req Hc) as (_ & _ & _ & Hlen & _).
  unfold tx_post. apply wp_bind, wp_get_sc, wp_bind, wp_get_sc. apply wp_bind. unfold copyin.
  apply wp_bind, wp_kassert.
  { unfold tx_slot, SFC7120_NUM_TX_DESC, SFC7120_TX_BUFFER_SIZE. lia. }
  destruct (ub_fault (tx_buf_addr req)) as [[e n] |] eqn:Hf.
  - apply wp_bind, wp_mod_dma, wp_ret. destruct (Z.eqb_spec e 0) as [-> | He]; cbn [negb].
    + apply tx_describe_spec; [done | done |]. now rewrite Hf.
    + apply wp_ret. split; [done |]. split; [eauto |]. eexists. reflexivity.
  - apply wp_bind, wp_mod_dma, wp_ret. cbn [Z.eqb negb]. now apply tx_describe_spec.
Qed.

(** The whole transmit ioctl on an acceptable request. *)
Definition tx_ioctl_result (req : sfc7120_tx_req) w (r : Z * sfc7120_tx_req) w' : Prop :=
  data_ok w' /\ data_frame w w' /\
  ((fst r <> 0 /\ snd r = req /\ sc_rings (w_sc w') = sc_rings (w_sc w) /\ w_log w' = w_log w) \/
   ((fst r = 0 \/ fst r = ETIMEDOUT) /\ snd r = req <| tx_status := fst r |> /\
    tx_head (sc_rings (w_sc w')) = (tx_head (sc_rings (w_sc w)) + 1) mod 512 /\
    rx_head (sc_rings (w_sc w')) = rx_head (sc_rings (w_sc w)) /\
    exists k, 0 <= k <= 10000 /\
      data_evq_read_ptr (sc_rings (w_sc w')) = (data_evq_read_ptr (sc_rings (w_sc w)) + k) mod 512 /\
      w_log w' = w_log w ++ [(SFC7120_REG_DATA_TX_WPTR_DBL, (tx_head (sc_rings (w_sc w)) + 1) mod 512)]
        ++ (if 0 <? k then [(SFC7120_REG_DATA_EVQ_RPTR_DBL, data_evq_read_ptr (sc_rings (w_sc w')))] else []))).

Lemma ioctl_tx_spec req w :
  data_ok w -> tx_check req = 0 -> wp (ioctl_tx req) (tx_ioctl_result req w) w.
Proof.
  intros [Hm Hw Hr] Hc. unfold ioctl_tx. cbv zeta. rewrite Hc. cbn [Z.eqb negb].
  apply wp_bind, wp_LOCK; [done |]. apply wp_bind.
  eapply wp_mono; [apply tx_post_spec; [done | exact Hw | exact Hr] |].
  intros [e | i] w1.
  - intros (He & _ & f & ->). apply wp_bind, wp_UNLOCK; [done |]. apply wp_ret.
    split; [split; [done | | exact Hr]; destruct Hw; now split |].
    split; [apply frame_unlock; [done |]; split; try done; simpl; now destruct (w_sc w) |]. now left.
  - intros (-> & Hsc & Ho & He & Hcm & Ht & Hw1 & Hl & _).
    assert (data_frame (held w) w1) as Hf1.
    { split; try done. rewrite Hsc. simpl. now destruct (w_sc w). }
    assert (rings_ok (sc_rings (w_sc w1))) as Hr1 by now rewrite Hsc.
    apply wp_bind. eapply wp_mono; [apply tx_poll_spec; [exact Hw1 | exact Hr1] |].
    intros [b c] w2 (Hcb & _ & Hp). cbn [fst snd] in *. rewrite Z.sub_0_r in Hp.
    pose proof (polled_rings _ _ _ Hr1 Hp) as Hr2. destruct Hp as (Hf2 & Hw2 & Hl2 & Hrg2).
    apply wp_bind, ack_data_events_spec; [exact Hw2 | exact Hr2 |]. intros d m Hdm.
    apply wp_bind, wp_mod_sc. apply wp_bind.
    assert (data_frame (held w) w2) as Hf by (eapply data_frame_trans; eauto).
    apply wp_UNLOCK; [simpl; exact (frame_held _ _ Hf) |]. apply wp_ret. unfold tx_ioctl_result.
    set (w4 := w2 <| w_log ::= _ |> <| w_dev := d |> <| w_dma := m |> <| w_sc ::= _ |>).
    assert (data_frame (held w) w4) as Hf4.
    { eapply data_frame_trans; [exact Hf |]. split; try done; simpl; now destruct (w_sc w2). }
    assert (sc_rings (w_sc w4) = (sc_rings (w_sc w)) <| data_evq_read_ptr := (data_evq_read_ptr (sc_rings (w_sc w)) + c) mod 512 |>
              <| tx_head ::= fun h => (h + 1) mod 512 |>) as Hrg4.
    { simpl. rewrite Hrg2, Hsc. unfold SFC7120_NUM_TX_DESC. simpl. now rewrite land_ring. }
    split; [split; [done | exact Hdm |] |].
    { change (rings_ok (sc_rings (w_sc w4))). rewrite Hrg4. destruct Hr.
      split; simpl; try done; apply Z.mod_pos_bound; lia. }
    split; [now apply frame_unlock |]. right. cbn [fst snd].
    split; [destruct b; auto |]. split; [now destruct b |].
    change (sc_rings (w_sc (freed w4))) with (sc_rings (w_sc w4)). rewrite Hrg4. cbn [upd tx_head rx_head data_evq_read_ptr].
    split; [done |]. split; [done |]. exists c. split; [unfold TX_POLL_TRIES in Hcb; lia |]. split; [done |].
    simpl. rewrite Hl2, Hl, <- app_assoc. f_equal. f_equal. unfold ack_log. simpl. rewrite Hrg2, Hsc. done.
Qed.
End datapath_ioctls.

(** ** Receive *)

Section datapath_rx.
Context {D : Type} `{!Device D} `{!DeviceLaws D}.
Abbreviation world := (world D).
Implicit Types (w : world).

Definition frame_len (mem : Z -> Z) (head rx_bytes : Z) : Z :=
  rx_plen (mem (rx_slot head + 8)) (mem (rx_slot head + 9)) rx_bytes.

(** The outcome of the delivery, from a state where the mutex is held. *)
Definition rx_deliver_result (rx_bytes : Z) (req : sfc7120_rx_req) w (r : Z * sfc7120_rx_req) w' : Prop :=
  let head := rx_head (sc_rings (w_sc w)) in
  let m := w_dma (synced w) in
  let plen := frame_len (rx_mem m) head rx_bytes in
  if rx_copyout req =? 0 then
    r = (0, RxReq 0 (load_bytes (rx_mem m) (rx_slot head + 14) plen) plen 0) /\
    data_frame (freed w) w' /\ w_wf w' /\
    sc_rings (w_sc w') = (sc_rings (w_sc w)) <| rx_head := (head + 1) mod 512 |> /\
    w_log w' = w_log w ++ [(SFC7120_REG_RX_DESC_DBL, head)] /\
    (w_dev w', w_dma w') = dev_write SFC7120_REG_RX_DESC_DBL head
      (w_dev (synced w), upd_rx_ring (fun r => arr_set r head (rx_slot_desc (rx_base w) head)) m)
  else r = (rx_copyout req, req) /\ w' = freed (synced w).

(** The frame leaves the receive buffer: the length the NIC reports reaches
    beyond the last slot. *)
Definition rx_overread (rx_bytes : Z) w : Prop :=
  let head := rx_head (sc_rings (w_sc w)) in
  RX_MEM_SIZE < rx_slot head + SFC7120_EF10_RX_PREFIX_LEN + frame_len (rx_mem (w_dma (synced w))) head rx_bytes.

Lemma wp_rx_byte off (Q : Z -> world -> Prop) w :
  0 <= off < RX_MEM_SIZE -> Q (rx_mem (w_dma w) off) w -> wp (rx_byte off) Q w.
Proof. intros Ho HQ. apply wp_bind, wp_kassert; [lia | exact HQ]. Qed.

Lemma wp_rx_load off n (Q : list Z -> world -> Prop) w :
  0 <= off -> off + n <= RX_MEM_SIZE -> Q (load_bytes (rx_mem (w_dma w)) off n) w -> wp (rx_load off n) Q w.
Proof. intros Ho Hn HQ. apply wp_bind, wp_kassert; [lia | exact HQ]. Qed.

(** The two bytes of the prefix are inside every slot. *)
Lemma slot_byte head k : 0 <= head < 512 -> 0 <= k < 2048 -> 0 <= rx_slot head + k < RX_MEM_SIZE.
Proof. unfold rx_slot, RX_MEM_SIZE, SFC7120_NUM_RX_DESC, SFC7120_RX_BUFFER_SIZE. lia. Qed.

(** The delivery has this outcome exactly when the frame is inside the buffer,
    and faults otherwise. *)
Lemma rx_deliver_spec rx_bytes req w :
  sc_mtx (sc_life (w_sc w)) = MtxHeld -> w_wf w -> rings_ok (sc_rings (w_sc w)) ->
  wpf (rx_deliver rx_bytes req) (fun r w' => ~ rx_overread rx_bytes w /\ rx_deliver_result rx_bytes req w r w')
    (rx_overread rx_bytes w) w.
Proof.
  intros Hm Hw Hr. pose proof (ro_rx _ Hr) as Hh. unfold rx_deliver, rx_deliver_result, rx_overread.
  apply wpf_bind_wp, wp_get_sc, wpf_bind_wp, wp_synced. pose proof (synced_wf w Hw) as Hws.
  cbv zeta. set (head := rx_head (sc_rings (w_sc w))) in *.
  do 2 (apply wpf_bind_wp, wp_rx_byte; [now apply slot_byte |]).
  fold (frame_len (rx_mem (w_dma (synced w))) head rx_bytes).
  set (plen := frame_len _ head rx_bytes). pose proof (slot_byte head 14 Hh ltac:(lia)) as H14.
  apply wpf_bind. unfold rx_load at 1. change SFC7120_EF10_RX_PREFIX_LEN with 14.
  apply wpf_bind, wpf_kassert; intros Hfit; [| lia]. apply wpf_wp, wp_gets.
  assert (~ RX_MEM_SIZE < rx_slot head + 14 + plen) as Hno by lia. apply wpf_wp.
  destruct (Z.eqb_spec (rx_copyout req) 0) as [Hce | Hce]; cbn [negb].
  - apply wp_bind, wp_get_sc, wp_bind, wp_ring_store; [done |]. apply wp_bind, wp_ret, wp_bind.
    apply wp_WRITE_REG_dev; [now apply arr_set_wf_rx |]. intros w' Hsc Ho He Hc Ht Hl Hw' Hdev. change (w_sc w' = w_sc w) in Hsc.
    replace (u32 (u32 head)) with head in Hl, Hdev by (unfold u32; rewrite !Z.mod_small; rewrite ?Z.mod_small; lia).
    apply wp_bind, wp_mod_sc, wp_bind, wp_UNLOCK; [simpl; now rewrite Hsc |]. apply wp_ret.
    split; [done |]. split; [destruct req; simpl in *; now subst |].
    split; [split; try done; simpl; rewrite Hsc; now destruct (w_sc w) |]. split; [exact Hw' |].
    split; [simpl; rewrite Hsc; unfold SFC7120_NUM_RX_DESC; simpl; now rewrite land_ring |].
    split; [exact Hl | exact Hdev].
  - apply wp_bind, wp_UNLOCK; [done |]. apply wp_ret. done.
Qed.

(** The whole receive ioctl, whatever the device does. *)
Definition rx_ioctl_result (req : sfc7120_rx_req) w (r : Z * sfc7120_rx_req) w' : Prop :=
  data_ok w' /\ data_frame w w' /\
  tx_head (sc_rings (w_sc w')) = tx_head (sc_rings (w_sc w)) /\
  exists k, 0 <= k <= 100000 /\
    data_evq_read_ptr (sc_rings (w_sc w')) = (data_evq_read_ptr (sc_rings (w_sc w)) + k) mod 512 /\
    let ack := if 0 <? k then [(SFC7120_REG_DATA_EVQ_RPTR_DBL, data_evq_read_ptr (sc_rings (w_sc w')))] else [] in
    ((fst r = ETIMEDOUT \/ fst r = rx_copyout req) /\ snd r = req /\
      rx_head (sc_rings (w_sc w')) = rx_head (sc_rings (w_sc w)) /\ w_log w' = w_log w ++ ack) \/
    (fst r = 0 /\ rx_copyout req = 0 /\
      0 <= rx_length_received (snd r) < 65536 /\
      Z.of_nat (length (rx_raw_buffer (snd r))) = rx_length_received (snd r) /\
      rx_head (sc_rings (w_sc w')) = (rx_head (sc_rings (w_sc w)) + 1) mod 512 /\
      w_log w' = w_log w ++ ack ++ [(SFC7120_REG_RX_DESC_DBL, rx_head (sc_rings (w_sc w)))]).

Lemma length_load_bytes mem off n : 0 <= n -> Z.of_nat (length (load_bytes mem off n)) = n.
Proof. intros. unfold load_bytes. rewrite length_map, length_seq. lia. Qed.

(** What waiting for an event leaves: the mutex held, everything else of the
    driver as it was but the read pointer. *)
Definition rx_wait_result w (found : option Z) w2 : Prop :=
  exists c, 0 <= c <= 100000 /\ (forall n, found = Some n -> 0 <= n < 16384) /\
  data_frame (held w) w2 /\ w_wf w2 /\ rings_ok (sc_rings (w_sc w2)) /\
  sc_rings (w_sc w2) = (sc_rings (w_sc w)) <| data_evq_read_ptr := (data_evq_read_ptr (sc_rings (w_sc w)) + c) mod 512 |> /\
  w_log w2 = w_log w ++ (if 0 <? c then [(SFC7120_REG_DATA_EVQ_RPTR_DBL, data_evq_read_ptr (sc_rings (w_sc w2)))] else []).

Lemma rx_wait_spec w : data_ok w -> wp rx_wait (rx_wait_result w) w.
Proof.
  intros [Hm Hw Hr]. unfold rx_wait. apply wp_bind, wp_LOCK; [done |]. apply wp_bind.
  eapply wp_mono; [apply rx_poll_spec; [exact Hw | exact Hr] |].
  intros [found c] w1 (Hcb & Hn & Hp). cbn [fst snd] in *. rewrite Z.sub_0_r in Hp.
  pose proof (polled_rings (D := D) c (held w) w1 Hr Hp) as Hr1. destruct Hp as (Hf1 & Hw1 & Hl1 & Hrg1).
  apply wp_bind, ack_data_events_spec; [exact Hw1 | exact Hr1 |]. intros d m Hdm. apply wp_ret.
  exists c. split; [unfold RX_POLL_TRIES in Hcb; lia |]. split; [exact Hn |].
  split; [eapply data_frame_trans; [exact Hf1 |]; split; try done; simpl; now destruct (w_sc w1) |].
  split; [exact Hdm |]. split; [exact Hr1 |]. split; [exact Hrg1 |]. simpl. now rewrite Hl1.
Qed.

Definition rx_fault w : Prop := exists n w1, rx_wait w = Some (Some n, w1) /\ rx_overread n w1.

Lemma ioctl_rx_spec req w : data_ok w -> wpf (ioctl_rx req) (rx_ioctl_result req w) (rx_fault w) w.
Proof.
  intros Hok. pose proof Hok as [Hm Hw Hr]. unfold ioctl_rx.
  destruct (proj1 (wp_run _ _ _) (rx_wait_spec w Hok)) as (found & w2 & Erun & c & Hc & Hn & Hf2 & Hdm & Hr1 & Hrg2 & Hl2).
  eapply wpf_run; [exact Erun |]. destruct found as [n |].
  - eapply wpf_mono; [apply (rx_deliver_spec n req w2); [exact (frame_held _ _ Hf2) | exact Hdm | exact Hr1] | |].
    2: { intros Hov. now exists n, w2. }
    intros [rc req'] w3 [_ H3]. revert H3. unfold rx_deliver_result. destruct (Z.eqb_spec (rx_copyout req) 0) as [Hce | Hce].
    + intros (Heq & Hf3 & Hw3 & Hrg3 & Hl3 & _). injection Heq as -> ->.
      assert (data_frame w w3) as Hf by exact (data_frame_trans _ _ _ (frame_unlock w w2 Hm Hf2) Hf3).
      set (plen := frame_len _ _ n) in *. assert (0 <= plen < 65536) as Hpl.
      { apply rx_plen_bound; [apply (wf_rx _ (synced_wf w2 Hdm)) .. | now apply Hn]. }
      split; [split; [rewrite (da_sc _ _ Hf); exact Hm | done | rewrite Hrg3] |].
      { destruct Hr1. split; simpl; try done. apply Z.mod_pos_bound. lia. }
      split; [exact Hf |]. rewrite Hrg3, Hrg2. split; [done |]. exists c. split; [done |]. split; [done |].
      right. cbn [fst snd rx_length_received rx_raw_buffer]. repeat split; try done; try lia.
      * apply length_load_bytes. lia.
      * rewrite Hl3, Hl2, Hrg2, <- app_assoc. done.
    + intros [Heq ->]. injection Heq as -> ->.
      split; [split; [done | now apply synced_wf | exact Hr1] |].
      split; [apply frame_unlock; [done |]; eapply data_frame_trans; [exact Hf2 |]; split; try done; simpl; now destruct (w_sc w2) |].
      change (sc_rings (w_sc (freed (synced w2)))) with (sc_rings (w_sc w2)). rewrite Hrg2. split; [done |].
      exists c. split; [done |]. split; [done |]. left. cbn [fst snd]. split; [auto |]. do 2 (split; [done |]).
      change (w_log (freed (synced w2))) with (w_log w2). rewrite Hl2, Hrg2. done.
  - apply wpf_wp, wp_bind, wp_UNLOCK; [exact (frame_held _ _ Hf2) |]. apply wp_ret.
    split; [split; [done | exact Hdm | exact Hr1] |]. split; [now apply frame_unlock |].
    change (sc_rings (w_sc (freed w2))) with (sc_rings (w_sc w2)). rewrite Hrg2. split; [done |].
    exists c. split; [done |]. split; [done |]. left. cbn [fst snd]. split; [auto |]. do 2 (split; [done |]).
    change (w_log (freed w2)) with (w_log w2). rewrite Hl2, Hrg2. done.
Qed.
End datapath_rx.

(** ** The ioctl interface *)

Section datapath_interface.
Context {D : Type} `{!Device D} `{!DeviceLaws D}.
Abbreviation world := (world D).
Implicit Types (w : world).

Lemma freed_held w : sc_mtx (sc_life (w_sc w)) = MtxFree -> freed (held w) = w.
Proof.
  destruct w as [[? ? ? [? ? mx ? ? ?] ? ? ?] ? ? ? ? ? ? ?]. simpl. intros ->. reflexivity.
Qed.

(** Reading under the mutex changes nothing. *)
Lemma ioctl_get_mac_spec w : data_ok w -> ioctl_get_mac w = Some (mac_addr (sc_fw (w_sc w)), w).
Proof.
  intros [Hm _ _]. assert (wp ioctl_get_mac (fun r w' => r = mac_addr (sc_fw (w_sc w)) /\ w' = w) w) as Hw.
  2: { apply wp_run in Hw as (r & w' & -> & -> & ->). done. }
  apply wp_bind, wp_LOCK; [done |]. apply wp_bind, wp_get_sc, wp_bind, wp_UNLOCK; [done |]. apply wp_ret.
  now rewrite freed_held.
Qed.

Definition vi_info_of (sc : sfc7120_softc) : sfc7120_vi_info_req :=
  ViInfo (db_paddr (tx_buffer (sc_dma sc))) (db_paddr (rx_buffer (sc_dma sc)))
    (vi_base (sc_fw sc)) 1 0 0 512 512 512
    (tx_head (sc_rings sc)) (rx_head (sc_rings sc)) (data_evq_read_ptr (sc_rings sc)).

Lemma ioctl_get_vi_info_spec w : data_ok w -> ioctl_get_vi_info w = Some (vi_info_of (w_sc w), w).
Proof.
  intros [Hm _ [? ? ? ?]].
  assert (wp ioctl_get_vi_info (fun r w' => r = vi_info_of (w_sc w) /\ w' = w) w) as Hw.
  2: { apply wp_run in Hw as (r & w' & -> & -> & ->). done. }
  apply wp_bind, wp_LOCK; [done |]. apply wp_bind, wp_get_sc, wp_bind, wp_UNLOCK; [done |]. apply wp_ret.
  rewrite freed_held by done. split; [| done]. unfold vi_info_of, u32, id. simpl.
  rewrite !Z.mod_small by lia. reflexivity.
Qed.

(** The pointers a synchronisation request carries, as C's [uint32_t]. *)
Definition sync_in_range (req : sfc7120_evq_sync_req) : bool :=
  (u32 (es_evq_read_ptr req) <? 512) && (u32 (es_tx_head req) <? 512) && (u32 (es_rx_head req) <? 512).

Lemma ioctl_set_evq_rptr_spec req w :
  data_ok w ->
  ioctl_set_evq_rptr req w = Some (
    if sync_in_range req
    then (0, w <| w_sc ::= fun sc => sc <| sc_rings ::= fun g =>
                g <| data_evq_read_ptr := u32 (es_evq_read_ptr req) |> <| tx_head := u32 (es_tx_head req) |>
                  <| rx_head := u32 (es_rx_head req) |> |> |>)
    else (EINVAL, w)).
Proof.
  intros [Hm _ _]. unfold ioctl_set_evq_rptr, sync_in_range. cbv zeta.
  unfold SFC7120_NUM_EVQ_ENTRY, SFC7120_NUM_TX_DESC, SFC7120_NUM_RX_DESC. rewrite !Z.leb_antisym, <- !negb_andb.
  destruct (_ && _ && _); cbn [negb]; [| reflexivity].
  unfold bind, SFC7120_LOCK, SFC7120_UNLOCK, bind, kassert. rewrite bool_decide_eq_true_2 by done. cbn.
  destruct w as [[? ? ? [? ? mx ? ? ?] ? ? ?] ? ? ? ? ? ? ?]. simpl in *. now subst mx.
Qed.

Lemma u32_range x : 0 <= u32 x < 2 ^ 32.
Proof. apply Z.mod_pos_bound. lia. Qed.

Lemma set_rings_ok req w :
  data_ok w -> sync_in_range req = true ->
  data_ok (w <| w_sc ::= fun sc => sc <| sc_rings ::= fun g =>
             g <| data_evq_read_ptr := u32 (es_evq_read_ptr req) |> <| tx_head := u32 (es_tx_head req) |>
               <| rx_head := u32 (es_rx_head req) |> |> |>).
Proof.
  intros [? ? [? ? ? ?]] Hs. unfold sync_in_range in Hs. split; try done.
  pose proof (u32_range (es_evq_read_ptr req)). pose proof (u32_range (es_tx_head req)).
  pose proof (u32_range (es_rx_head req)). split; simpl; lia.
Qed.

(** Every command, on every argument. *)
Lemma ioctl_spec cmd w :
  data_ok w -> wpf (sfc7120_ioctl cmd) (fun _ w' => data_ok w' /\ data_frame w w')
    ((exists req, cmd = SFC7120_RX req) /\ rx_fault w) w.
Proof.
  intros Hok. destruct cmd as [mac | req | req | req | req | c]; cbn [sfc7120_ioctl].
  5: { apply wpf_bind. eapply wpf_mono; [now apply ioctl_rx_spec | | eauto].
       intros r w' (? & ? & _). now apply wpf_wp, wp_ret. }
  all: apply wpf_wp; try apply wp_bind.
  - unfold wp at 1. rewrite ioctl_get_mac_spec by done. apply wp_ret. auto using data_frame_refl.
  - unfold wp at 1. rewrite ioctl_get_vi_info_spec by done. apply wp_ret. auto using data_frame_refl.
  - unfold wp at 1. rewrite ioctl_set_evq_rptr_spec by done. destruct (sync_in_range req) eqn:Hs; apply wp_ret.
    + split; [now apply set_rings_ok |]. split; try done; simpl; now destruct (w_sc w).
    + auto using data_frame_refl.
  - destruct (Z.eqb_spec (tx_check req) 0) as [Hc | Hc].
    + eapply wp_mono; [now apply ioctl_tx_spec |]. intros r w' (? & ? & _). now apply wp_ret.
    + unfold ioctl_tx. cbv zeta. rewrite (proj2 (Z.eqb_neq _ _) Hc). apply wp_ret, wp_ret.
      auto using data_frame_refl.
  - apply wp_ret. auto using data_frame_refl.
Qed.

(** C7. Every ioctl of the driver, on every argument and whatever the device
    does meanwhile, either returns, with the mutex released, the ring indices
    inside their rings and nothing of the driver changed but the ring indices
    (the resources it owns, the firmware and link state, the life cycle and the
    DMA buffers are as before, and no firmware command is issued); or it is a
    receive, and the length the NIC reported for the frame makes it read past
    the end of the receive buffer. *)
Theorem sfc7120_ioctl_safe cmd w :
  data_ok w ->
  match sfc7120_ioctl cmd w with
  | Some (_, w') =>
      data_ok w' /\ w_owned w' = w_owned w /\ w_cmds w' = w_cmds w /\
      sc_fw (w_sc w') = sc_fw (w_sc w) /\ sc_link (w_sc w') = sc_link (w_sc w) /\
      sc_life (w_sc w') = sc_life (w_sc w) /\ sc_dma (w_sc w') = sc_dma (w_sc w) /\
      sc_pci (w_sc w') = sc_pci (w_sc w) /\ sc_mcdi (w_sc w') = sc_mcdi (w_sc w)
  | None => (exists req, cmd = SFC7120_RX req) /\
      exists n w1, rx_wait w = Some (Some n, w1) /\ rx_overread n w1
  end.
Proof.
  intros Hok. pose proof (ioctl_spec cmd w Hok) as H. unfold wpf in H.
  destruct (sfc7120_ioctl cmd w) as [[r w'] |]; [| exact H]. destruct H as [Hok' [E ? ? ? ?]].
  split; [done |]. do 2 (split; [done |]). rewrite E. done.
Qed.

(** C37. The receive ioctl does not compare the length the NIC reports with the
    slot: when it reaches beyond the last slot, the range given to copyout is
    outside the receive buffer, whatever the request; the model takes that as a
    fault. *)
Theorem rx_overread_faults req n w w1 :
  data_ok w -> rx_wait w = Some (Some n, w1) -> rx_overread n w1 ->
  sfc7120_ioctl (SFC7120_RX req) w = None.
Proof.
  intros Hok Hrun Hov. destruct (proj1 (wp_run _ _ _) (rx_wait_spec w Hok)) as (? & ? & E & ? & _ & _ & Hf & Hw & Hr & _).
  rewrite Hrun in E. injection E as <- <-. cbn [sfc7120_ioctl]. unfold ioctl_rx, bind. rewrite Hrun.
  pose proof (rx_deliver_spec n req w1 (frame_held _ _ Hf) Hw Hr) as H. unfold wpf in H.
  destruct (rx_deliver n req w1) as [[r w'] |]; [| done]. now destruct H.
Qed.

(** The pointer synchronisation round trip: SET_EVQ_RPTR with an index
    outside its ring is refused and changes nothing; otherwise the next
    GET_VI_INFO hands out exactly those three indices, with the same buffer
    addresses, VI base and geometry as before. *)
Theorem vi_info_sync_roundtrip req w :
  data_ok w ->
  if sync_in_range req then
    wp (do* ioctl_set_evq_rptr req; ioctl_get_vi_info) (fun v w' =>
      data_ok w' /\
      v = ViInfo (tx_base w) (rx_base w) (vi_base (sc_fw (w_sc w))) 1 0 0 512 512 512
            (u32 (es_tx_head req)) (u32 (es_rx_head req)) (u32 (es_evq_read_ptr req))) w
  else ioctl_set_evq_rptr req w = Some (EINVAL, w).
Proof.
  intros Hok. destruct (sync_in_range req) eqn:Hs.
  - apply wp_bind. unfold wp at 1. rewrite ioctl_set_evq_rptr_spec, Hs by done.
    unfold wp. rewrite ioctl_get_vi_info_spec by now apply set_rings_ok.
    split; [now apply set_rings_ok | reflexivity].
  - now rewrite ioctl_set_evq_rptr_spec, Hs.
Qed.

(** A transmit request: with an untagged or unreadable capability, a
    length of 0 or above 2048, or a capability shorter than the length, the
    ioctl fails and nothing changes.  Otherwise, when the NIC's doorbell is
    rung, the packet's bytes are in the slot of [tx_head] and in no other, and
    the descriptor of that index names that slot's bus address and that
    length; the doorbell carries the next index.  The ioctl then returns
    success or ETIMEDOUT after at most 10000 looks at the event queue, with
    [tx_head] advanced by one and the read pointer by the number of events it
    consumed, acknowledged in one doorbell write. *)
Theorem tx_ioctl_effect req w :
  data_ok w -> ub_fault (tx_buf_addr req) = None -> 0 <= tx_length req ->
  0 <= tx_base w -> tx_base w + 2 ^ 20 <= 2 ^ 48 ->
  let head := tx_head (sc_rings (w_sc w)) in
  if tx_check req =? 0 then
    wp (tx_post req) (fun r w' => r = inr head /\ exists m,
      (w_dev w', w_dma w') = dev_write SFC7120_REG_DATA_TX_WPTR_DBL ((head + 1) mod 512) (w_dev w, m) /\
      desc_byte_cnt (arr_get (tx_ring m) head) = tx_length req /\
      desc_buf_addr (arr_get (tx_ring m) head) = tx_base w + head * 2048 /\
      (forall i, 0 <= i < 512 -> i <> head -> arr_get (tx_ring m) i = arr_get (tx_ring (w_dma w)) i) /\
      (forall i, 0 <= i < tx_length req -> tx_mem m (head * 2048 + i) = ub_bytes (tx_buf_addr req) i) /\
      (forall o, o < head * 2048 \/ (head + 1) * 2048 <= o -> tx_mem m o = tx_mem (w_dma w) o)) w /\
    wp (ioctl_tx req) (tx_ioctl_result req w) w
  else ioctl_tx req w = Some ((tx_check req, req), w).
Proof.
  intros Hok Hf Hlen Hb0 Hb head. destruct (Z.eqb_spec (tx_check req) 0) as [Hc | Hc].
  2: { unfold ioctl_tx. cbv zeta. now rewrite (proj2 (Z.eqb_neq _ _) Hc). }
  split; [| now apply ioctl_tx_spec].
  destruct (tx_check_ok req Hc) as (_ & _ & _ & Hl & _). destruct Hok as [Hm Hw Hr].
  pose proof (ro_tx _ Hr) as Hh. fold head in Hh.
  eapply wp_mono; [now apply tx_post_spec |]. intros [e | i] w'.
  - intros (_ & [n Hn] & _). congruence.
  - intros (-> & _ & _ & _ & _ & _ & _ & _ & n & Hn & Hdev). split; [done |].
    rewrite (Hn Hf) in Hdev. eexists. split; [exact Hdev |]. fold head. unfold tx_posted_dma. simpl.
    destruct Hw as [_ _ [Hlt _] _].
    rewrite arr_get_set_eq by lia. unfold tx_slot, SFC7120_TX_BUFFER_SIZE, u64.
    rewrite (Z.mod_small (tx_base w + _)) by lia.
    destruct (ef10_desc_exact (tx_length req) (tx_base w + head * 2048)) as [-> ->]; [lia | lia |].
    do 2 (split; [done |]). split; [intros; now apply arr_get_set_ne; lia |].
    unfold store_bytes. split; intros.
    + replace (_ && _) with true by lia. f_equal. lia.
    + replace (_ && _) with false by lia. done.
Qed.
End datapath_interface.

(** ** The receive ring *)

Section datapath_rx_ring.
Context {D : Type} `{!Device D} `{!DeviceLaws D}.
Abbreviation world := (world D).
Implicit Types (w : world).

(** The ring after [n] turns of the seeding loop from index [i]. *)
Fixpoint seeded (base : Z) (n : nat) (i : Z) (r : list Z) : list Z :=
  match n with
  | O => r
  | S n' => seeded base n' (i + 1) (arr_set r i (rx_slot_desc base i))
  end.

Lemma length_seeded base n i r : length (seeded base n i r) = length r.
Proof. revert i r. induction n as [| n IH]; intros i r; [done |]. cbn [seeded]. now rewrite IH, length_arr_set. Qed.

Lemma seeded_below base n i r j : 0 <= j < i -> arr_get (seeded base n i r) j = arr_get r j.
Proof.
  revert i r. induction n as [| n IH]; intros i r Hj; [done |]. cbn [seeded].
  rewrite IH by lia. apply arr_get_set_ne; lia.
Qed.

Lemma seeded_get base n i r j :
  0 <= i <= j -> j < i + Z.of_nat n -> j < Z.of_nat (length r) ->
  arr_get (seeded base n i r) j = rx_slot_desc base j.
Proof.
  revert i r. induction n as [| n IH]; intros i r Hi Hj Hl; [lia |]. cbn [seeded].
  destruct (Z.eqb_spec i j) as [-> | Hne].
  - rewrite seeded_below by lia. apply arr_get_set_eq. lia.
  - apply IH; rewrite ?length_arr_set; lia.
Qed.

Lemma seeded_wf base n i m : dma_wf m -> dma_wf (upd_rx_ring (seeded base n i) m).
Proof. intros [? ? [? ?] ?]. split; simpl; try done. now rewrite length_seeded. Qed.

Lemma post_rx_loop_spec n i w :
  0 <= i -> i + Z.of_nat n <= 512 ->
  wp (post_rx_loop n i) (fun _ w' => w' = w <| w_dma ::= upd_rx_ring (seeded (rx_base w) n i) |>) w.
Proof.
  revert i w. induction n as [| n IH]; intros i w Hi Hn; [now destruct w as [? [] ? ? ? ? ? ?] |].
  cbn [post_rx_loop]. apply wp_bind, wp_get_sc, wp_bind, wp_ring_store; [lia |].
  eapply wp_mono; [apply IH; lia |]. intros _ w' ->. reflexivity.
Qed.

(** Seeding the receive ring: when the doorbell is rung, each of the 512
    descriptors names a 2048-byte buffer at its own slot of the receive
    buffer, the slots are pairwise disjoint and inside the megabyte, and the
    doorbell advertises 511 of them; the consumer index is 0. *)
Theorem post_rx_buffers_seeds_ring w :
  w_wf w -> 0 <= rx_base w -> rx_base w + 2 ^ 20 <= 2 ^ 48 ->
  wp sfc7120_post_rx_buffers (fun _ w' =>
    w_log w' = w_log w ++ [(SFC7120_REG_DATA_RX_DESC_DBL, 511)] /\
    sc_rings (w_sc w') = (sc_rings (w_sc w)) <| rx_head := 0 |> /\
    exists m, (w_dev w', w_dma w') = dev_write SFC7120_REG_DATA_RX_DESC_DBL 511 (w_dev w, m) /\
      (forall i, 0 <= i < 512 ->
         desc_byte_cnt (arr_get (rx_ring m) i) = 2048 /\
         rx_base w <= desc_buf_addr (arr_get (rx_ring m) i) /\
         desc_buf_addr (arr_get (rx_ring m) i) + 2048 <= rx_base w + 2 ^ 20) /\
      (forall i j, 0 <= i < j -> j < 512 ->
         desc_buf_addr (arr_get (rx_ring m) i) + 2048 <= desc_buf_addr (arr_get (rx_ring m) j))) w.
Proof.
  intros Hw Hb0 Hb. unfold sfc7120_post_rx_buffers. cbv zeta.
  assert (Z.of_nat (Z.to_nat SFC7120_NUM_RX_DESC) = 512) as Hn by reflexivity.
  generalize dependent (Z.to_nat SFC7120_NUM_RX_DESC). intros n Hn. apply wp_bind.
  eapply wp_mono; [apply post_rx_loop_spec; lia |]. intros _ w1 ->. apply wp_bind, wp_ret, wp_bind.
  apply wp_WRITE_REG_dev; [now apply seeded_wf |]. destruct Hw as [? ? [? Hl] ?].
  intros w' Hsc _ _ _ _ Hlog _ Hdev. apply wp_mod_sc.
  assert (forall i, 0 <= i < 512 -> arr_get (seeded (rx_base w) n 0 (rx_ring (w_dma w))) i
    = ef10_desc 2048 (rx_base w + i * 2048)) as Hget.
  { intros i Hi. rewrite seeded_get by lia. unfold rx_slot_desc, SFC7120_RX_BUFFER_SIZE, u64.
    now rewrite Z.mod_small by lia. }
  split; [exact Hlog |]. split; [simpl; now rewrite Hsc |]. eexists. split; [exact Hdev |]. cbn [w_dma upd rx_ring upd_rx_ring].
  split.
  - intros i Hi. rewrite Hget by done. destruct (ef10_desc_exact 2048 (rx_base w + i * 2048)) as [-> ->]; lia.
  - intros i j Hi Hj. rewrite !Hget by lia.
    destruct (ef10_desc_exact 2048 (rx_base w + i * 2048)) as [_ ->]; [lia | lia |].
    destruct (ef10_desc_exact 2048 (rx_base w + j * 2048)) as [_ ->]; lia.
Qed.

(** Delivering a received frame: the bytes copied out are the memory
    after the 14-byte prefix of slot [rx_head], as many as the prefix says
    (a 16-bit length, which is not compared with the 2048 bytes of the slot
    but here does not leave the buffer),
    or as the event says when the prefix is zero.  The slot's descriptor is
    written again before the doorbell, which carries the index just consumed,
    and [rx_head] advances.  When the copy faults the error is returned and
    neither the descriptor, the doorbell nor [rx_head] is touched, although
    the event is already gone. *)
Theorem rx_deliver_effect rx_bytes req w :
  sc_mtx (sc_life (w_sc w)) = MtxHeld -> w_wf w -> rings_ok (sc_rings (w_sc w)) -> 0 <= rx_bytes < 16384 ->
  ~ rx_overread rx_bytes w ->
  let head := rx_head (sc_rings (w_sc w)) in
  let m := w_dma (synced w) in
  let prefix := rx_mem m (head * 2048 + 8) + 256 * rx_mem m (head * 2048 + 9) in
  let plen := if prefix =? 0 then Z.max 0 (rx_bytes - 14) else prefix in
  wp (rx_deliver rx_bytes req) (fun r w' =>
    if rx_copyout req =? 0 then
      fst r = 0 /\ rx_length_received (snd r) = plen /\
      Z.of_nat (length (rx_raw_buffer (snd r))) = plen /\
      (forall i, 0 <= i < plen -> arr_get (rx_raw_buffer (snd r)) i = rx_mem m (head * 2048 + 14 + i)) /\
      rx_head (sc_rings (w_sc w')) = (head + 1) mod 512 /\
      (w_dev w', w_dma w') = dev_write SFC7120_REG_RX_DESC_DBL head (w_dev (synced w),
         m <| rx_ring ::= fun r => arr_set r head (rx_slot_desc (rx_base w) head) |>)
    else r = (rx_copyout req, req) /\ w_log w' = w_log w /\ w_dma w' = m /\
      sc_rings (w_sc w') = sc_rings (w_sc w)) w.
Proof.
  intros Hm Hw Hr Hn Hov head m prefix plen.
  eapply wp_mono; [eapply wpf_sound; [now apply rx_deliver_spec | done] |]. intros r w' [_ H]. revert H. unfold rx_deliver_result. cbv zeta. fold head.
  pose proof (wf_rx _ (synced_wf w Hw)) as Hb.
  assert (frame_len (rx_mem (w_dma (synced w))) head rx_bytes = plen) as ->.
  { unfold frame_len, plen, prefix, rx_slot, SFC7120_RX_BUFFER_SIZE. fold m.
    pose proof (Hb (head * 2048 + 8)) as H8. pose proof (Hb (head * 2048 + 9)) as H9. fold m in H8, H9.
    destruct (Z.eqb_spec (rx_mem m (head * 2048 + 8) + 256 * rx_mem m (head * 2048 + 9)) 0).
    - unfold is_byte in *. replace (rx_mem m (head * 2048 + 8)) with 0 by lia.
      replace (rx_mem m (head * 2048 + 9)) with 0 by lia. now apply rx_plen_event.
    - now apply rx_plen_prefix. }
  assert (0 <= plen) as Hpl.
  { unfold plen. pose proof (Hb (head * 2048 + 8)) as H8. pose proof (Hb (head * 2048 + 9)) as H9.
    fold m in H8, H9. unfold is_byte in *. destruct (prefix =? 0); unfold prefix; lia. }
  destruct (rx_copyout req =? 0).
  - intros (-> & _ & _ & -> & _ & Hdev). cbn [fst snd rx_length_received rx_raw_buffer upd rx_head].
    do 2 (split; [done |]). split; [now apply length_load_bytes |]. split; [| split; [done | exact Hdev]].
    intros i Hi. unfold arr_get, load_bytes. rewrite nth_lookup, list_lookup_fmap, lookup_seq_lt by lia. simpl.
    unfold rx_slot, SFC7120_RX_BUFFER_SIZE. fold m. f_equal. lia.
  - now intros [-> ->].
Qed.
End datapath_rx_ring.

(** ** The control event queue *)

(** What a LINKCHANGE event says, field by field. *)
Definition link_event (ev : Z) (lk : link_state) : link_state :=
  if (bits 60 4 ev =? 12) && (bits 44 8 ev =? 4) then
    lk <| link_up := Z.testbit ev 24 |> <| full_duplex := Z.testbit ev 25 |>
       <| link_speed_mbps := sfc7120_linkchange_speed_mbps (bits 16 4 ev) |>
       <| link_fcntl := bits 20 4 ev |>
  else lk.

Lemma bits_u32_lo (ev lo w : Z) :
  0 <= lo -> 0 <= w -> lo + w <= 32 -> bits lo w (u32 (Z.land ev 0xffffffff)) = bits lo w ev.
Proof.
  intros Hl Hw Hs. unfold u32, bits. rewrite land_0xffffffff. change 4294967296 with (2 ^ 32). rewrite Z.mod_mod by lia.
  apply Z.bits_inj'. intros i Hi. rewrite !Z.land_spec, !Z.shiftr_spec by lia.
  destruct (Z.ltb_spec i w); [| rewrite Z.ones_spec_high by lia; now rewrite !andb_false_r].
  rewrite Z.mod_pow2_bits_low by lia. done.
Qed.

Lemma bits_u32_hi (ev lo w : Z) :
  0 <= lo -> 0 <= w -> lo + w <= 32 -> bits lo w (u32 (Z.shiftr ev 32)) = bits (32 + lo) w ev.
Proof.
  intros Hl Hw Hs. unfold u32, bits. apply Z.bits_inj'. intros i Hi. rewrite !Z.land_spec, !Z.shiftr_spec by lia.
  destruct (Z.ltb_spec i w); [| rewrite Z.ones_spec_high by lia; now rewrite !andb_false_r].
  rewrite Z.mod_pow2_bits_low, Z.shiftr_spec by lia. do 2 f_equal. lia.
Qed.

Lemma flag_bit (flags k : Z) : 0 <= k -> negb (Z.land flags (Z.shiftl 1 k) =? 0) = Z.testbit flags k.
Proof.
  intros Hk. rewrite Z.shiftl_1_l. destruct (Z.testbit flags k) eqn:Hb.
  - apply negb_true_iff, Z.eqb_neq. intros E. apply (f_equal (fun z => Z.testbit z k)) in E.
    rewrite Z.land_spec, Z.pow2_bits_true, Hb, Z.bits_0 in E by lia. done.
  - apply negb_false_iff, Z.eqb_eq, Z.bits_inj'. intros n Hn. rewrite Z.land_spec, Z.bits_0.
    destruct (Z.eqb_spec n k) as [-> | Hne]; [now rewrite Hb |].
    rewrite Z.pow2_bits_false by lia. apply andb_false_r.
Qed.

Lemma testbit_bits (lo w z k : Z) : 0 <= lo -> 0 <= k < w -> Z.testbit (bits lo w z) k = Z.testbit z (k + lo).
Proof.
  intros Hl Hk. unfold bits. rewrite Z.land_spec, Z.shiftr_spec, Z.ones_spec_low by lia. apply andb_true_r.
Qed.

Lemma isr_event_link ev lk : isr_event ev lk = link_event ev lk.
Proof.
  unfold isr_event, link_event. cbv zeta.
  change (Z.land (Z.shiftr (u32 (Z.shiftr ev 32)) (SFC7120_EV_CODE_LBN - 32)) 0xf) with (bits 28 4 (u32 (Z.shiftr ev 32))).
  change (Z.land (Z.shiftr (u32 (Z.shiftr ev 32)) (SFC7120_MCDI_EVENT_CODE_LBN - 32)) 0xff) with (bits 12 8 (u32 (Z.shiftr ev 32))).
  rewrite !bits_u32_hi by lia. unfold SFC7120_EV_CODE_MCDI, SFC7120_MCDI_EV_LINKCHANGE.
  change (32 + 28) with 60. change (32 + 12) with 44.
  destruct (bits 60 4 ev =? 12); [| done]. destruct (bits 44 8 ev =? 4); [| done]. cbn [andb].
  set (lo := u32 (Z.land ev 0xffffffff)).
  change (Z.land (Z.shiftr lo SFC7120_LC_SPEED_SHIFT) 0xf) with (bits 16 4 lo).
  change (Z.land (Z.shiftr lo SFC7120_LC_FCNTL_SHIFT) 0xf) with (bits 20 4 lo).
  change (Z.land (Z.shiftr lo SFC7120_LC_FLAGS_SHIFT) 0xff) with (bits 24 8 lo).
  unfold lo, SFC7120_LC_FLAG_LINK_UP, SFC7120_LC_FLAG_FDX. rewrite !bits_u32_lo by lia.
  now rewrite !flag_bit, !testbit_bits by lia.
Qed.

(** The events waiting from [rptr] on: the longest run of filled slots, at
    most [n] of them. *)
Fixpoint pending (ring : list Z) (rptr : Z) (n : nat) : list Z :=
  match n with
  | O => []
  | S n' => let ev := arr_get ring rptr in
            if ev_empty ev then [] else ev :: pending ring ((rptr + 1) mod 512) n'
  end.

(** Emptying a slot outside the run does not change it. *)
Lemma pending_arr_set ring rptr n i :
  0 <= rptr < 512 -> 0 <= i < 512 -> (forall k, 0 <= k < Z.of_nat n -> (rptr + k) mod 512 <> i) ->
  pending (arr_set ring i 0) rptr n = pending ring rptr n.
Proof.
  revert rptr. induction n as [| n IH]; intros rptr Hr Hi Hk; [done |]. cbn [pending]. cbv zeta.
  rewrite arr_get_set_ne.
  - destruct (ev_empty _); [done |]. f_equal. apply IH; [apply Z.mod_pos_bound; lia | done |].
    intros k Hkb. rewrite Zplus_mod_idemp_l. replace (rptr + 1 + k) with (rptr + (k + 1)) by lia. apply Hk. lia.
  - lia.
  - lia.
  - intros ->. apply (Hk 0); [lia |]. rewrite Z.add_0_r. now apply Z.mod_small.
Qed.

Lemma length_pending ring rptr n : (length (pending ring rptr n) <= n)%nat.
Proof.
  revert rptr. induction n as [| n IH]; intros rptr; [done |]. cbn [pending]. cbv zeta.
  destruct (ev_empty _); simpl; [lia |]. specialize (IH ((rptr + 1) mod 512)). lia.
Qed.

Section datapath_isr.
Context {D : Type} `{!Device D} `{!DeviceLaws D}.
Abbreviation world := (world D).
Implicit Types (w : world).

(** The state after the events [evs] were taken from the ring. *)
Definition isr_result (evs : list Z) w w' : Prop :=
  w_wf w' /\ w_log w' = w_log w /\ w_owned w' = w_owned w /\ w_ext w' = w_ext w /\ w_cmds w' = w_cmds w /\
  w_dev w' = w_dev w /\ data_evq (w_dma w') = data_evq (w_dma w) /\
  w_sc w' = (w_sc w) <| sc_link ::= fun lk => fold_left (fun lk ev => link_event ev lk) evs lk |>
              <| sc_rings ::= fun r => r <| evq_read_ptr := (evq_read_ptr r + Z.of_nat (length evs)) mod 512 |> |>.

(** [fuel] turns are left, which is what the bound on [processed] leaves. *)
Lemma isr_loop_spec fuel processed w :
  w_wf w -> 0 <= evq_read_ptr (sc_rings (w_sc w)) < 512 ->
  0 <= processed -> processed + Z.of_nat fuel = 512 -> (0 < fuel)%nat ->
  let evs := pending (evq (w_dma w)) (evq_read_ptr (sc_rings (w_sc w))) fuel in
  wp (isr_loop fuel processed) (fun r w' =>
    r = processed + Z.of_nat (length evs) /\ isr_result evs w w') w.
Proof.
  revert processed w. induction fuel as [| fuel IH]; intros processed w Hw Hp H0 Hf Hpos; [lia |].
  cbn [isr_loop pending]. cbv zeta. set (rptr := evq_read_ptr (sc_rings (w_sc w))) in *.
  apply wp_bind, wp_get_sc, wp_bind, wp_ring_load; [done |]. fold rptr.
  set (ev := arr_get (evq (w_dma w)) rptr). destruct (ev_empty ev).
  { apply wp_ret. split; [simpl; lia |]. repeat split; try done; try apply Hw. simpl. rewrite Z.add_0_r.
    fold rptr. rewrite Z.mod_small by done. unfold rptr. destruct (w_sc w) as [? ? [] ? ? ? []]. done. }
  apply wp_bind, wp_mod_sc, wp_bind, wp_ring_store; [done |]. apply wp_bind, wp_mod_sc.
  set (w1 := w <| w_sc ::= _ |> <| w_dma ::= _ |> <| w_sc ::= _ |>).
  assert (w_sc w1 = (w_sc w) <| sc_link ::= link_event ev |> <| sc_rings ::= fun r => r <| evq_read_ptr := (rptr + 1) mod 512 |> |>) as Hsc1.
  { simpl. rewrite isr_event_link. unfold SFC7120_NUM_EVQ_ENTRY. now rewrite land_ring. }
  assert (w_wf w1) as Hw1 by now apply arr_set_wf_evq.
  assert (pending (evq (w_dma w1)) ((rptr + 1) mod 512) fuel = pending (evq (w_dma w)) ((rptr + 1) mod 512) fuel) as Hpend.
  { apply pending_arr_set; [apply Z.mod_pos_bound; lia | done |]. intros k Hk. zdiv. }
  unfold SFC7120_NUM_EVQ_ENTRY. destruct (Z.leb_spec 512 (processed + 1)) as [Hle | Hle].
  - assert (fuel = 0%nat) as -> by lia. apply wp_ret. cbn [pending length]. split; [lia |].
    split; [exact Hw1 |]. do 6 (split; [done |]). rewrite Hsc1. done.
  - eapply wp_mono; [apply (IH (processed + 1) w1 Hw1); [rewrite Hsc1; simpl; apply Z.mod_pos_bound; lia | lia .. ] |].
    rewrite Hsc1. cbn [upd sc_rings evq_read_ptr]. rewrite Hpend. intros r w' (-> & Hres).
    cbn [length]. split; [lia |]. destruct Hres as (? & ? & ? & ? & ? & ? & ? & E).
    repeat (split; [done |]). rewrite E, Hsc1. cbn [fold_left length upd sc_link sc_rings evq_read_ptr].
    fold rptr. f_equal. f_equal. zdiv.
Qed.

(** C35. The interrupt handler: before the control queue is set up, and once
    the device is going away, it touches nothing.  Otherwise it takes exactly
    the events that are waiting, in ring order and at most one ring full,
    applies them to the link state (a LINKCHANGE sets link, duplex, speed and
    flow control from its fields, anything else leaves them), advances the
    read pointer by as many and acknowledges them in one doorbell write, none
    if there was nothing.  It always returns, with the mutex free. *)
Theorem isr_refines w :
  data_ok w ->
  let live := db_vaddr (evq_ring (sc_dma (w_sc w))) && negb (dying (sc_life (w_sc w)) )
              && evq_initialized (sc_fw (w_sc w)) in
  let rptr := evq_read_ptr (sc_rings (w_sc w)) in
  let evs := pending (evq (w_dma (synced w))) rptr 512 in
  let rptr' := (rptr + Z.of_nat (length evs)) mod 512 in
  if live then
    wp sfc7120_interrupt_handler (fun _ w' =>
      data_ok w' /\ (length evs <= 512)%nat /\
      sc_link (w_sc w') = fold_left (fun lk ev => link_event ev lk) evs (sc_link (w_sc w)) /\
      sc_rings (w_sc w') = (sc_rings (w_sc w)) <| evq_read_ptr := rptr' |> /\
      sc_life (w_sc w') = sc_life (w_sc w) /\ sc_fw (w_sc w') = sc_fw (w_sc w) /\
      w_log w' = w_log w ++ match evs with [] => [] | _ => [(SFC7120_REG_EVQ_RPTR_DBL, rptr')] end) w
  else sfc7120_interrupt_handler w = Some (tt, w).
Proof.
  intros [Hm Hw Hr] live rptr evs rptr'. destruct live eqn:Hlive; unfold live in Hlive.
  2: { unfold sfc7120_interrupt_handler, bind, get_sc, gets, id.
       destruct (db_vaddr _); [| done]. destruct (dying _); [done |]. now destruct (evq_initialized _). }
  apply andb_prop in Hlive as [[H1 H2]%andb_prop H3]. apply negb_true_iff in H2.
  unfold sfc7120_interrupt_handler. apply wp_bind, wp_get_sc. unfold id. rewrite H1, H2, H3. cbn [negb orb].
  apply wp_bind, wp_LOCK; [done |]. apply wp_bind, wp_synced. apply wp_bind.
  pose proof (ro_evq _ Hr) as Hp. fold rptr in Hp.
  eapply wp_mono; [apply (isr_loop_spec ISR_FUEL 0 (synced (held w)));
    [now apply synced_wf | exact Hp | lia | reflexivity | vm_compute; lia] |].
  change (evq (w_dma (synced (held w)))) with (evq (w_dma (synced w))).
  change (evq_read_ptr (sc_rings (w_sc (synced (held w))))) with rptr.
  change ISR_FUEL with 512%nat. fold evs. pose proof (length_pending (evq (w_dma (synced w))) rptr 512) as Hlen. fold evs in Hlen.
  intros r w1 (-> & Hw1 & Hl1 & _ & _ & _ & _ & _ & Hsc1). rewrite Z.add_0_l.
  assert (sc_rings (w_sc w1) = (sc_rings (w_sc w)) <| evq_read_ptr := rptr' |>) as Hrg by (rewrite Hsc1; reflexivity).
  assert (0 <= rptr' < 512) as Hp' by (apply Z.mod_pos_bound; lia).
  assert (rings_ok (sc_rings (w_sc w1))) as Hr1 by (rewrite Hrg; destruct Hr; now split).
  assert (forall w2 : world, w_wf w2 -> w_sc w2 = w_sc w1 -> forall l, w_log w2 = w_log w ++ l ->
    wp SFC7120_UNLOCK (fun _ w' => data_ok w' /\ (length evs <= 512)%nat /\
      sc_link (w_sc w') = fold_left (fun lk ev => link_event ev lk) evs (sc_link (w_sc w)) /\
      sc_rings (w_sc w') = (sc_rings (w_sc w)) <| evq_read_ptr := rptr' |> /\
      sc_life (w_sc w') = sc_life (w_sc w) /\ sc_fw (w_sc w') = sc_fw (w_sc w) /\ w_log w' = w_log w ++ l) w2) as Hend.
  { intros w2 Hw2 Hsc2 l Hl2. apply wp_UNLOCK; [rewrite Hsc2, Hsc1; done |].
    split; [split; [done | exact Hw2 | simpl; now rewrite Hsc2] |]. split; [exact Hlen |].
    simpl. rewrite Hsc2, Hrg, Hsc1. simpl. split; [done |]. split; [done |].
    split; [| done]. destruct (sc_life (w_sc w)). simpl in *. now subst. }
  clearbody rptr' evs. apply wp_bind. destruct evs as [| ev evs'].
  - apply wp_ret. apply (Hend w1 Hw1 eq_refl []). rewrite app_nil_r. exact Hl1.
  - replace (0 <? Z.of_nat (length (ev :: evs'))) with true by (symmetry; apply Z.ltb_lt; simpl; lia). apply wp_bind, wp_ret, wp_bind, wp_get_sc.
    rewrite Hrg. cbn [upd evq_read_ptr]. apply wp_WRITE_REG; [done |]. intros d m Hdm.
    rewrite rptr_doorbell by done. apply Hend; [exact Hdm | done |]. simpl. now rewrite Hl1.
Qed.
End datapath_isr.

(** ** The shared event queue *)

Section datapath_shared.
Context {D : Type} `{!Device D} `{!DeviceLaws D}.
Abbreviation world := (world D).
Implicit Types (w : world).

(** What the receive poll does while the device writes nothing new. *)
Lemma rx_poll_quiet pre ev post n tries consumed w :
  (forall x : D * dma, dev_sync x = x) -> w_wf w -> rings_ok (sc_rings (w_sc w)) -> (n <= 512)%nat ->
  let rptr := data_evq_read_ptr (sc_rings (w_sc w)) in
  pending (data_evq (w_dma w)) rptr n = pre ++ ev :: post ->
  Forall (fun e => ev_code e <> SFC7120_EV_CODE_RX) pre -> ev_code ev = SFC7120_EV_CODE_RX ->
  (length pre < tries)%nat ->
  wp (rx_poll tries consumed) (fun r w' =>
    r = (Some (ev_rx_bytes ev), consumed + Z.of_nat (length pre) + 1) /\
    data_evq_read_ptr (sc_rings (w_sc w')) = (rptr + Z.of_nat (length pre) + 1) mod 512 /\
    forall i, 0 <= i < 512 -> arr_get (data_evq (w_dma w')) i = arr_get (data_evq (w_dma w)) i \/
      arr_get (data_evq (w_dma w')) i = 0) w.
Proof.
  intros Hq. revert n tries consumed w. induction pre as [| e pre IH];
    intros n tries consumed w Hw Hr Hn rptr Hp Hpre Hev Ht;
    (destruct tries as [| tries]; [simpl in Ht; lia |]); (destruct n as [| n]; [done |]);
    cbn [pending app] in Hp; cbv zeta in Hp; (destruct (ev_empty _) eqn:He; [done |]); injection Hp as Hhd Htl;
    cbn [rx_poll]; apply wp_bind; pose proof (ro_data _ Hr) as Hb; fold rptr in Hb;
    unfold next_data_event; apply wp_bind, wp_synced; unfold synced; rewrite Hq; cbn [fst snd];
    apply wp_bind, wp_get_sc, wp_ring_load; [done | | done |];
    match goal with |- context [ev_empty ?x] => change x with (arr_get (data_evq (w_dma w)) rptr) end;
    rewrite He; apply wp_bind, consume_data_event_spec; [exact Hr | | exact Hr |];
    rewrite Hhd.
  - rewrite Hev. cbn [Z.eqb]. apply wp_ret. cbn [length]. split; [f_equal; lia |]. split; [simpl; fold rptr; f_equal; lia |].
    intros i Hi. simpl. destruct (Z.eqb_spec rptr i) as [<- | Hne]; [right; apply arr_get_set_eq | left; apply arr_get_set_ne; lia].
    destruct Hw as [_ [_ ->] _ _]. exact Hb.
  - inversion_clear Hpre as [| ? ? Hne Hpre']. rewrite (proj2 (Z.eqb_neq _ _) Hne).
    set (w1 := consumed_world _). eapply wp_mono; [apply (IH n tries (consumed + 1) w1) |].
    + now apply arr_set_wf_data.
    + destruct Hr. split; simpl; try done. apply Z.mod_pos_bound. lia.
    + lia.
    + rewrite <- Htl. apply pending_arr_set; [apply Z.mod_pos_bound; lia | done |]. intros k Hk. simpl. fold rptr. zdiv.
    + done.
    + done.
    + simpl in Ht. lia.
    + intros r w' (-> & Hrp & Hslots). cbn [length]. split; [f_equal; lia |]. split.
      { rewrite Hrp. simpl. fold rptr. zdiv. }
      intros i Hi. destruct (Hslots i Hi) as [E | E]; [| auto]. rewrite E. simpl.
      destruct (Z.eqb_spec rptr i) as [<- | Hne']; [right; apply arr_get_set_eq | left; apply arr_get_set_ne; lia].
      destruct Hw as [_ [_ ->] _ _]. exact Hb.
Qed.

(** Transmit and receive share one event queue and each throws away the
    other's completions: a receive that finds events [pre] ahead of a receive
    event consumes them all, transmit completions included, reports the first
    receive event, and leaves the read pointer past it, so that a transmit
    waiting for a completion in [pre] can only time out. *)
Theorem rx_discards_tx_completions pre ev post w :
  (forall x : D * dma, dev_sync x = x) -> w_wf w -> rings_ok (sc_rings (w_sc w)) ->
  let rptr := data_evq_read_ptr (sc_rings (w_sc w)) in
  pending (data_evq (w_dma w)) rptr 512 = pre ++ ev :: post ->
  Forall (fun e => ev_code e = SFC7120_EV_CODE_TX) pre -> ev_code ev = SFC7120_EV_CODE_RX ->
  wp (rx_poll RX_POLL_TRIES 0) (fun r w' =>
    r = (Some (ev_rx_bytes ev), Z.of_nat (length pre) + 1) /\
    data_evq_read_ptr (sc_rings (w_sc w')) = (rptr + Z.of_nat (length pre) + 1) mod 512) w.
Proof.
  intros Hq Hw Hr rptr Hp Hpre Hev.
  assert (length pre < RX_POLL_TRIES)%nat as Ht.
  { pose proof (length_pending (data_evq (w_dma w)) rptr 512) as Hl. rewrite Hp, length_app in Hl. cbn [length] in Hl.
    unfold RX_POLL_TRIES. lia. }
  eapply wp_mono; [apply (rx_poll_quiet pre ev post 512 RX_POLL_TRIES 0 w); try done |].
  - eapply Forall_impl; [| exact Hpre]. intros e ->. discriminate.
  - intros r w' (-> & -> & _). split; [f_equal; lia | done].
Qed.
End datapath_shared.

(** ** Frames that fit

    A NIC that keeps to the size of the descriptors reports frames of at most
    2034 bytes behind the prefix. *)

Record frames_fit (m : dma) : Prop := {
  fit_prefix : forall h, 0 <= h < 512 -> rx_plen (rx_mem m (rx_slot h + 8)) (rx_mem m (rx_slot h + 9)) 0 <= 2034;
  fit_event : forall i, 0 <= i < 512 -> ev_code (arr_get (data_evq m) i) = SFC7120_EV_CODE_RX ->
    ev_rx_bytes (arr_get (data_evq m) i) <= 2048;
}.

Class FrameLaws (D : Type) `{!Device D} := {
  sync_fits : forall x, dma_wf (snd x) -> frames_fit (snd x) -> frames_fit (snd (dev_sync x));
  write_fits : forall r v x, dma_wf (snd x) -> frames_fit (snd x) -> frames_fit (snd (dev_write r v x));
}.

Lemma rx_plen_range b8 b9 n : 0 <= n -> 0 <= rx_plen b8 b9 n.
Proof.
  intros Hn. unfold rx_plen. destruct (_ =? 0); [destruct (_ <? _); [apply Z.mod_pos_bound; lia | lia] |].
  apply Z.lor_nonneg. split; apply Z.mod_pos_bound; lia.
Qed.

Lemma rx_plen_fits b8 b9 n : rx_plen b8 b9 0 <= 2034 -> 0 <= n <= 2048 -> 0 <= rx_plen b8 b9 n <= 2034.
Proof.
  intros H Hn. split; [now apply rx_plen_range |]. revert H. unfold rx_plen.
  destruct (_ =? 0); [| done]. intros _. change SFC7120_EF10_RX_PREFIX_LEN with 14.
  destruct (Z.ltb_spec 14 n); [| lia]. unfold u16. rewrite Z.mod_small; lia.
Qed.

(** Emptying a slot of the event queue, and the rings and memory that hold
    neither frames nor events. *)
Lemma fits_consume i m : dma_wf m -> 0 <= i < 512 -> frames_fit m -> frames_fit (upd_data_evq (fun r => arr_set r i 0) m).
Proof.
  intros [_ [_ Hl] _ _] Hi [H1 H2]. split; [exact H1 |]. intros j Hj. unfold upd_data_evq. cbn [data_evq upd].
  destruct (Z.eq_dec i j) as [-> | Hne]; [rewrite arr_get_set_eq by lia; intros _; vm_compute; discriminate |].
  rewrite arr_get_set_ne by lia. now apply H2.
Qed.

Lemma fits_rx_ring f m : frames_fit m -> frames_fit (upd_rx_ring f m).
Proof. now intros []. Qed.
Lemma fits_tx_ring f m : frames_fit m -> frames_fit (upd_tx_ring f m).
Proof. now intros []. Qed.
Lemma fits_tx_mem f m : frames_fit m -> frames_fit (m <| tx_mem ::= f |>).
Proof. now intros []. Qed.

#[export] Hint Resolve fits_consume fits_rx_ring fits_tx_ring fits_tx_mem : sfc.

Section datapath_fit.
Context {D : Type} `{!Device D} `{!DeviceLaws D} `{!FrameLaws D}.
Abbreviation world := (world D).
Implicit Types (w : world).

Definition fit w : Prop := w_wf w /\ frames_fit (w_dma w).

Lemma keeps_write r v : keeps fit (SFC7120_WRITE_REG r v : ST world unit) (fun _ => True).
Proof.
  intros w [Hw Hf]. apply wpf_wp, wp_bind, wp_modify. unfold dev_step. apply wp_modify. cbn [w_dev w_dma upd].
  pose proof (dev_write_wf r (u32 v) (w_dev w, w_dma w) Hw). pose proof (write_fits r (u32 v) (w_dev w, w_dma w) Hw Hf).
  now destruct (dev_write _ _ _).
Qed.

Lemma keeps_sync : keeps fit (sync_postread : ST world unit) (fun _ => True).
Proof. intros w [Hw Hf]. apply wpf_wp, wp_synced. split; [done |]. split; [now apply synced_wf | now apply sync_fits]. Qed.

Lemma keeps_event i : keeps fit (ring_load data_evq i : ST world Z)
  (fun ev => ev_code ev = SFC7120_EV_CODE_RX -> 0 <= ev_rx_bytes ev <= 2048).
Proof.
  intros w [Hw Hf]. apply wpf_bind, wpf_kassert; [| done]. intros Hi. apply wpf_wp, wp_gets. split; [| done].
  intros Hc. pose proof (ev_rx_bytes_bound (arr_get (data_evq (w_dma w)) i)). unfold in_ring in Hi.
  pose proof (fit_event _ Hf i ltac:(lia) Hc). lia.
Qed.

Lemma keeps_store u i v :
  (forall m, 0 <= i < 512 -> dma_wf m -> frames_fit m ->
     dma_wf (u (fun r => arr_set r i v) m) /\ frames_fit (u (fun r => arr_set r i v) m)) ->
  keeps fit (ring_store u i v : ST world unit) (fun _ => True).
Proof.
  intros Hu w [Hw Hf]. apply wpf_bind, wpf_kassert; [| done]. intros Hi. unfold in_ring in Hi.
  apply wpf_wp, wp_mod_dma. split; [done |]. apply Hu; (lia || done).
Qed.

(** Code that only changes the softc. *)
Lemma keeps_mod_sc f : keeps fit (mod_sc f : ST world unit) (fun _ => True).
Proof. now apply keeps_modify. Qed.
Lemma keeps_lock : keeps fit (SFC7120_LOCK : ST world unit) (fun _ => True).
Proof. apply (keeps_bind _ _ _ _ (fun _ => True)); [apply keeps_kassert | intros; apply keeps_mod_sc]. Qed.
Lemma keeps_unlock : keeps fit (SFC7120_UNLOCK : ST world unit) (fun _ => True).
Proof. apply (keeps_bind _ _ _ _ (fun _ => True)); [apply keeps_kassert | intros; apply keeps_mod_sc]. Qed.
End datapath_fit.

Ltac kfit := repeat match goal with
  | |- keeps _ (ret _) _ => apply keeps_ret; exact I
  | |- keeps _ (bind _ _) _ => apply (keeps_bind _ _ _ _ (fun _ => True)); [| intros ? _]
  | |- keeps _ (if ?b then _ else _) _ => destruct b
  | |- keeps _ (match ?x with _ => _ end) _ => destruct x
  | |- keeps _ (gets _) (fun _ => True) => now apply keeps_gets
  | |- keeps _ (get_sc _) (fun _ => True) => now apply keeps_gets
  | |- keeps _ (kassert _) _ => apply keeps_kassert
  | |- keeps _ SFC7120_LOCK _ => apply keeps_lock
  | |- keeps _ SFC7120_UNLOCK _ => apply keeps_unlock
  | |- keeps _ (mod_sc _) _ => apply keeps_mod_sc
  | |- keeps _ (mod_rings _) _ => apply keeps_mod_sc
  | |- keeps _ sync_postread _ => apply keeps_sync
  | |- keeps _ sync_prewrite _ => apply keeps_ret; exact I
  | |- keeps _ (SFC7120_WRITE_REG _ _) _ => apply keeps_write
  | |- keeps _ (ring_store _ _ _) _ => apply keeps_store; intros; split; auto with sfc
  end.

Section datapath_fits.
Context {D : Type} `{!Device D} `{!DeviceLaws D} `{!FrameLaws D}.
Abbreviation world := (world D).
Implicit Types (w : world).

Definition event_fits (ev : Z) : Prop := ev_code ev = SFC7120_EV_CODE_RX -> 0 <= ev_rx_bytes ev <= 2048.

Lemma keeps_next : keeps fit (next_data_event : ST world Z) event_fits.
Proof. unfold next_data_event. kfit. apply keeps_event. Qed.

Lemma keeps_consume : keeps fit (consume_data_event : ST world unit) (fun _ => True).
Proof. unfold consume_data_event. kfit. Qed.

Lemma keeps_tx_poll n posted c : keeps fit (tx_poll n posted c : ST world _) (fun _ => True).
Proof.
  revert c. induction n as [| n IH]; intros c; cbn [tx_poll]; kfit; auto using keeps_consume.
  intros s Hs. eapply wpf_mono; [exact (keeps_next s Hs) | | done]. now intros a s' [_ H].
Qed.

Lemma keeps_rx_poll n c : keeps fit (rx_poll n c : ST world _) (fun r => forall k, fst r = Some k -> 0 <= k <= 2048).
Proof.
  revert c. induction n as [| n IH]; intros c; cbn [rx_poll]; [now apply keeps_ret |].
  apply (keeps_bind _ _ _ _ event_fits); [apply keeps_next | intros ev Hev]. destruct (ev_empty ev); [apply IH |].
  apply (keeps_bind _ _ _ _ (fun _ => True)); [apply keeps_consume | intros _ _].
  destruct (Z.eqb_spec (ev_code ev) SFC7120_EV_CODE_RX); [| apply IH]. apply keeps_ret. cbn. intros k [= <-]. now apply Hev.
Qed.

Lemma keeps_rx_wait : keeps fit (rx_wait : ST world _) (fun found => forall k, found = Some k -> 0 <= k <= 2048).
Proof.
  unfold rx_wait. apply (keeps_bind _ _ _ _ (fun _ => True)); [apply keeps_lock | intros _ _].
  eapply keeps_bind; [apply keeps_rx_poll |]. intros [found c] Hf. cbn in Hf.
  apply (keeps_bind _ _ _ _ (fun _ => True)); [unfold ack_data_events; kfit | intros _ _]. now apply keeps_ret.
Qed.

Lemma fit_no_overread n w : rings_ok (sc_rings (w_sc w)) -> fit w -> 0 <= n <= 2048 -> ~ rx_overread n w.
Proof.
  intros Hr [Hw Hf] Hn. pose proof (ro_rx _ Hr) as Hh. unfold rx_overread. cbv zeta.
  set (head := rx_head (sc_rings (w_sc w))) in *. pose proof (sync_fits (w_dev w, w_dma w) Hw Hf) as Hs.
  change (snd (dev_sync (w_dev w, w_dma w))) with (w_dma (synced w)) in Hs.
  pose proof (rx_plen_fits _ _ n (fit_prefix _ Hs head Hh) Hn) as Hp. unfold frame_len.
  revert Hp. unfold RX_MEM_SIZE, rx_slot, SFC7120_NUM_RX_DESC, SFC7120_RX_BUFFER_SIZE, SFC7120_EF10_RX_PREFIX_LEN. lia.
Qed.

(** With such a NIC no receive faults. *)
Lemma fit_no_fault w : data_ok w -> frames_fit (w_dma w) -> ~ rx_fault w.
Proof.
  intros Hok Hf (n & w1 & E & Hov).
  destruct (proj1 (wp_run _ _ _) (keeps_wp _ _ _ _ w keeps_rx_wait (conj (dk_wf _ Hok) Hf) (rx_wait_spec w Hok)))
    as (found & w2 & E2 & (c & _ & _ & _ & _ & Hr & _) & Hn & Hfit).
  rewrite E in E2. injection E2 as <- <-. now apply (fit_no_overread n w1 Hr Hfit (Hn n eq_refl)).
Qed.

Lemma keeps_ioctl cmd : keeps fit (sfc7120_ioctl cmd : ST world _) (fun _ => True).
Proof.
  destruct cmd; cbn [sfc7120_ioctl]; unfold ioctl_get_mac, ioctl_get_vi_info, ioctl_set_evq_rptr, ioctl_tx, ioctl_rx, tx_post, copyin,
    ack_data_events, rx_deliver, rx_byte, rx_load; cbv zeta; kfit; auto using keeps_tx_poll.
  all: try (apply keeps_modify; intros w [Hw Hf]; split; [destruct Hw; now split | now apply fits_tx_mem]).
  all: intros s Hs; (eapply wpf_mono; [exact (keeps_rx_wait s Hs) | | done]); now intros a s' [_ H].
Qed.
End datapath_fits.

(** ** The driver as CAPIO sees it

    CAPIO's theorems are about drivers that return; this one does when the NIC
    reports frames that fit. *)

Section datapath_capio.
Context {D : Type} `{!Device D} `{!DeviceLaws D} `{!FrameLaws D} `{!PciBar}.
Abbreviation world := (world D).

#[export] Instance sfc7120_capio_ops : CapioDriver world sfc7120_cmd := {
  drv_ioctl := sfc7120_ioctl;
  drv_is_dying := sfc7120_is_dying;
  drv_get_buffer_size := sfc7120_get_buffer_size;
}.

Lemma is_dying_spec (w : world) : data_ok w -> sfc7120_is_dying w = Some (dying (sc_life (w_sc w)), w).
Proof.
  intros [Hm _ _]. assert (wp sfc7120_is_dying (fun r w' => r = dying (sc_life (w_sc w)) /\ w' = w) w) as Hw.
  2: { apply wp_run in Hw as (r & w' & -> & -> & ->). done. }
  apply wp_bind, wp_LOCK; [done |]. apply wp_bind, wp_get_sc, wp_bind, wp_UNLOCK; [done |]. apply wp_ret.
  now rewrite freed_held.
Qed.

(** The size CAPIO compares a mapping request with. *)
Definition region_size (smem : list shared_mem_region) (type : Z) : Z :=
  match region_of_int type with
  | Some SFC7120_TX_BUFFER => 2 ^ 20
  | Some SFC7120_RX_BUFFER => 2 ^ 20
  | Some SFC7120_MMIO_REGION => bar_size
  | Some SFC7120_MMIO_REGION_UNSLICED => match smem !! 6%nat with Some r => smr_len r | None => 0 end
  | Some _ => 4096
  | None => 0
  end.

Lemma get_buffer_size_spec smem type (w : world) :
  data_ok w -> sfc7120_get_buffer_size smem type w = Some (region_size smem type, w).
Proof.
  intros [Hm _ _]. unfold sfc7120_get_buffer_size, region_size.
  destruct (region_of_int type) as [[] |]; try reflexivity.
  - assert (wp (do* SFC7120_LOCK; do* SFC7120_UNLOCK; ret bar_size) (fun r w' => r = bar_size /\ w' = w) w) as Hw.
    { apply wp_bind, wp_LOCK; [done |]. apply wp_bind, wp_UNLOCK; [done |]. apply wp_ret. now rewrite freed_held. }
    apply wp_run in Hw as (r & w' & -> & -> & ->). done.
  - change (Z.to_nat (region_int SFC7120_MMIO_REGION_UNSLICED)) with 6%nat. now destruct (smem !! 6%nat).
Qed.

#[export] Instance sfc7120_capio_laws : CapioDriverLaws world sfc7120_cmd.
Proof.
  exists (fun w => data_ok w /\ frames_fit (w_dma w)).
  - intros p d [Hd Hf]. eapply wp_mono.
    + eapply (keeps_wp _ _ _ _ d (keeps_ioctl p)); [exact (conj (dk_wf _ Hd) Hf) |].
      eapply wpf_sound; [now apply ioctl_spec |]. intros [_ Hx]. now apply (fit_no_fault d Hd Hf).
    + intros ? ? ([? _] & _ & [_ ?]). done.
  - intros d [Hd Hf]. unfold wp. simpl. now rewrite is_dying_spec.
  - intros l t d [Hd Hf]. unfold wp. simpl. now rewrite get_buffer_size_spec.
Defined.
End datapath_capio.
