(* ===== verification/Driver.v ===== *)
(** * Attach and detach (sfc7120.c)

    Hardware bring-up and tear-down, interrupt set-up, the PCI probe, and the
    attach and detach of the whole driver: the order in which firmware objects
    and kernel resources are taken and given back, and the region table that
    attach hands to CAPIO. *)

From stdpp Require Import sets.
From S2P Require Import Prelude Uapi Desc Capio Softc Dma Mcdi McdiCmds DataPath.
Local Open Scope Z_scope.

(** What attach takes from its surroundings: the loader tunables and the
    kernel virtual addresses of the DMA allocations. *)
Record attach_env := AttachEnv {
  ae_fcntl : option Z;
  ae_tx_csum : Z;
  ae_ablation : Z;
  ae_kva : dma_name -> Z;
}.

(** ** Probe *)

Definition sfc7120_fbsd_devs : list (Z * Z) := [(0x1924, 0x0903); (0x1924, 0x0903)].
Definition BUS_PROBE_DEFAULT : Z := -20.

Fixpoint probe_loop (devs : list (Z * Z)) (vendor devid : Z) : Z :=
  match devs with
  | [] => ENXIO
  | (v, d) :: devs' => if (vendor =? v) && (devid =? d) then BUS_PROBE_DEFAULT
                       else probe_loop devs' vendor devid
  end.

Definition sfc7120_fbsd_probe (vendor devid : Z) : Z := probe_loop sfc7120_fbsd_devs vendor devid.

Section hw.
Context {D : Type} `{!Device D} `{!DeviceLaws D}.
Abbreviation world := (world D).

(** ** Bring-up of the hardware *)

Definition hw_fail_mcdi (error : Z) : ST world Z := do* sfc7120_mcdi_fini; ret error.
Definition hw_fail_attach (error : Z) : ST world Z := do* sfc7120_mcdi_drv_detach; hw_fail_mcdi error.

(** The link poll: up to [n] queries 100 ms apart; the error of the query that
    failed, or 0. *)
Fixpoint hw_wait_link (n : nat) : ST world Z :=
  match n with
  | O => ret 0
  | S n' =>
      let* error := sfc7120_mcdi_get_link in
      if negb (error =? 0) then ret error
      else
      let* up := get_sc (fun sc => link_up (sc_link sc)) in
      if up : bool then ret 0
      else
      do* DELAY 100000;
      hw_wait_link n'
  end.

(** From the PHY query on, with the vAdaptor in place. *)
Definition hw_init_link (env : attach_env) : ST world Z :=
  let* error := sfc7120_mcdi_get_phy_cfg in
  if negb (error =? 0) then hw_fail_attach error
  else
  let* error := sfc7120_mcdi_set_mac (ae_fcntl env) in
  if negb (error =? 0) then hw_fail_attach error
  else
  let* error := sfc7120_mcdi_set_link in
  if negb (error =? 0) then hw_fail_attach error
  else
  let* error := hw_wait_link 30 in
  if negb (error =? 0) then hw_fail_attach error
  else ret 0.

(** From the reset on, with the driver attached to the firmware. *)
Definition hw_init_vis (env : attach_env) : ST world Z :=
  let* error := sfc7120_mcdi_entity_reset in
  if negb (error =? 0) then hw_fail_attach error
  else
  let* error := sfc7120_mcdi_get_mac in
  if negb (error =? 0) then hw_fail_attach error
  else
  do* sfc7120_mcdi_dump_func_info;
  let* error := sfc7120_mcdi_alloc_vis 1 32 in
  if negb (error =? 0) then do* sfc7120_mcdi_log_mc_state; hw_fail_attach error
  else
  let* error := sfc7120_mcdi_vadaptor_alloc in
  if negb (error =? 0) then do* sfc7120_mcdi_log_mc_state; hw_fail_attach error
  else hw_init_link env.

Definition sfc7120_hw_init (env : attach_env) : ST world Z :=
  let* error := sfc7120_mcdi_init in
  if negb (error =? 0) then ret error
  else
  let* error := sfc7120_mcdi_get_version in
  if negb (error =? 0) then hw_fail_mcdi error
  else
  let* error := sfc7120_mcdi_drv_attach in
  if negb (error =? 0) then hw_fail_mcdi error
  else
  let* error := sfc7120_mcdi_clear_assertions in
  if negb (error =? 0) then hw_fail_mcdi error
  else hw_init_vis env.

Definition sfc7120_hw_teardown : ST world unit :=
  do* sfc7120_mcdi_filter_remove;
  do* sfc7120_mcdi_fini_txq 0;
  do* sfc7120_mcdi_fini_rxq 0;
  do* sfc7120_mcdi_fini_evq 1;
  do* sfc7120_mcdi_fini_evq 0;
  do* sfc7120_mcdi_vadaptor_free;
  do* sfc7120_mcdi_free_vis;
  do* sfc7120_mcdi_drv_detach;
  sfc7120_mcdi_fini.

(** The sysctl that dumps the MAC statistics; [error], [newptr] and [val] are
    what sysctl_handle_int answered. *)
Definition sfc7120_sysctl_mac_stats (error : Z) (newptr : bool) (val : Z) : ST world Z :=
  if negb (error =? 0) || negb newptr then ret error
  else
  do* (if negb (val =? 0) then do* sfc7120_mcdi_mac_stats; ret tt else ret tt);
  ret 0.

(** ** Interrupts *)

(** A bus allocation: whether the bus granted it. *)
Definition bus_alloc (r : resource) : ST world bool :=
  let* e := ext in
  if e =? 0 then do* own r; ret true else ret false.

Definition intr_fail_bar (error : Z) : ST world Z :=
  do* disown RMsixBar;
  do* mod_pci (fun p => p <| msix_bar_resource := false |>);
  ret error.
Definition intr_fail_msi (error : Z) : ST world Z :=
  do* disown RMsix;
  do* mod_pci (fun p => p <| msix_nvec := 0 |>);
  intr_fail_bar error.
Definition intr_fail_irq (error : Z) : ST world Z :=
  do* disown RIrq;
  do* mod_pci (fun p => p <| irq_resource := false |>);
  intr_fail_msi error.

Definition sfc7120_intr_setup : ST world Z :=
  let* count := ext in
  if count <=? 0 then ret ENXIO
  else
  let* bar := bus_alloc RMsixBar in
  do* mod_pci (fun p => p <| msix_bar_resource := bar |>);
  if negb bar then ret ENOMEM
  else
  let* error := ext in
  if negb (error =? 0) then intr_fail_bar error
  else
  do* own RMsix;
  let* count := ext in
  if negb (count =? 1) then intr_fail_msi ENXIO
  else
  do* mod_pci (fun p => p <| msix_nvec := count |>);
  let* irq := bus_alloc RIrq in
  do* mod_pci (fun p => p <| irq_resource := irq |>);
  if negb irq then intr_fail_msi ENOMEM
  else
  let* error := ext in
  if negb (error =? 0) then intr_fail_irq error
  else
  do* own RIrqHandler;
  do* mod_pci (fun p => p <| irq_handle := true |>);
  do* mod_pci (fun p => p <| intr_initialized := true |>);
  ret 0.

Definition sfc7120_intr_teardown : ST world unit :=
  let* p := get_sc sc_pci in
  do* (if intr_initialized p && irq_resource p && irq_handle p then
         do* disown RIrqHandler;
         mod_pci (fun p => p <| irq_handle := false |>)
       else ret tt);
  do* mod_pci (fun p => p <| intr_initialized := false |>);
  do* (if irq_resource p then
         do* disown RIrq;
         mod_pci (fun p => p <| irq_resource := false |>)
       else ret tt);
  do* (if 0 <? msix_nvec p then
         do* disown RMsix;
         mod_pci (fun p => p <| msix_nvec := 0 |>)
       else ret tt);
  if msix_bar_resource p then
    do* disown RMsixBar;
    mod_pci (fun p => p <| msix_bar_resource := false |>)
  else ret tt.

Definition sfc7120_dump_regs : ST world unit :=
  do* SFC7120_READ_REG SFC7120_REG_BIU_HW_REV_ID;
  ret tt.

(** ** Locks *)

Definition SFC7120_LOCK_INIT : ST world unit :=
  do* kassert (fun w => bool_decide (sc_mtx (sc_life (w_sc w)) = MtxUninit));
  mod_life (fun l => l <| sc_mtx := MtxFree |>).
Definition SFC7120_RX_LOCK_INIT : ST world unit :=
  do* kassert (fun w => bool_decide (rx_mtx (sc_life (w_sc w)) = MtxUninit));
  mod_life (fun l => l <| rx_mtx := MtxFree |>).
Definition SFC7120_LOCK_DESTROY : ST world unit :=
  do* kassert (fun w => bool_decide (sc_mtx (sc_life (w_sc w)) = MtxFree));
  mod_life (fun l => l <| sc_mtx := MtxUninit |>).
Definition SFC7120_RX_LOCK_DESTROY : ST world unit :=
  do* kassert (fun w => bool_decide (rx_mtx (sc_life (w_sc w)) = MtxFree));
  mod_life (fun l => l <| rx_mtx := MtxUninit |>).

(** ** Attach *)

(** The queues and the filter. *)
Definition attach_queues (env : attach_env) : ST world Z :=
  let* paddr := get_sc (fun sc => db_paddr (evq_ring (sc_dma sc))) in
  let* error := sfc7120_mcdi_init_evq 0 paddr SFC7120_NUM_EVQ_ENTRY in
  if negb (error =? 0) then ret error
  else
  do* mod_fw (fun f => f <| evq_initialized := true |>);
  let* paddr := get_sc (fun sc => db_paddr (data_evq_ring (sc_dma sc))) in
  let* error := sfc7120_mcdi_init_evq 1 paddr SFC7120_NUM_EVQ_ENTRY in
  if negb (error =? 0) then ret error
  else
  do* mod_fw (fun f => f <| data_evq_initialized := true |>);
  let* paddr := get_sc (fun sc => db_paddr (rx_desc_ring (sc_dma sc))) in
  let* error := sfc7120_mcdi_init_rxq 0 1 paddr SFC7120_NUM_RX_DESC in
  if negb (error =? 0) then ret error
  else
  do* sfc7120_post_rx_buffers;
  let* paddr := get_sc (fun sc => db_paddr (tx_desc_ring (sc_dma sc))) in
  let* error := sfc7120_mcdi_init_txq (ae_tx_csum env) 0 1 paddr SFC7120_NUM_TX_DESC in
  if negb (error =? 0) then ret error
  else
  sfc7120_mcdi_filter_insert.

(** The failure labels. *)
Definition attach_fail_lock (error : Z) : ST world Z :=
  do* SFC7120_RX_LOCK_DESTROY;
  do* SFC7120_LOCK_DESTROY;
  ret error.
Definition attach_fail_bar (error : Z) : ST world Z :=
  do* disown RBusMaster;
  do* disown RBar2;
  attach_fail_lock error.
Definition attach_fail_hw (error : Z) : ST world Z :=
  do* sfc7120_hw_teardown;
  attach_fail_bar error.
Definition attach_fail_dma (error : Z) : ST world Z :=
  do* sfc7120_intr_teardown;
  do* sfc7120_hw_teardown;
  do* sfc7120_free_dma_resources;
  attach_fail_bar error.

(** Everything before the device node: BAR, firmware, DMA, interrupts and
    queues.  A failure is unwound here. *)
Definition attach_hardware (env : attach_env) : ST world Z :=
  do* mod_life (fun l => l <| dying := false |> <| device_attached := false |>);
  do* SFC7120_LOCK_INIT;
  do* SFC7120_RX_LOCK_INIT;
  let* bar := bus_alloc RBar2 in
  do* mod_pci (fun p => p <| mem_resource := bar |>);
  if negb bar then attach_fail_lock ENXIO
  else
  do* own RBusMaster;
  let* error := sfc7120_hw_init env in
  if negb (error =? 0) then attach_fail_bar error
  else
  let* error := sfc7120_alloc_dma_resources in
  if negb (error =? 0) then attach_fail_hw error
  else
  let* error := sfc7120_intr_setup in
  if negb (error =? 0) then attach_fail_dma error
  else
  let* error := attach_queues env in
  if negb (error =? 0) then attach_fail_dma error
  else ret 0.
End hw.

Section attach.
Context {cap : Type} `{!Cheri cap} {D : Type} `{!Device D} `{!DeviceLaws D} `{!PciBar}.
Abbreviation world := (world D).
Abbreviation st := (cst cap world).

(** [make_dev_capio] (capio.c): NULL only when the name could not be
    formatted. *)
Definition make_dev_capio : ST st bool :=
  let* ret_v := in_drv ext in
  if ret_v =? -1 then ret false
  else
  do* in_drv (own RCdev);
  do* in_drv (own RVaddrCallback);
  do* in_drv (own RSliceCallback);
  ret true.

(** An entry of the zeroed [smem] array of type [t]. *)
Definition smem_zero (t : sfc7120_vm_map_type) : shared_mem_region :=
  Region (region_int t) false 0 0 0 0 false false [] 0.

Definition dma_region (t : sfc7120_vm_map_type) (addr len : Z) : shared_mem_region :=
  (smem_zero t) <| smr_is_physical := false |> <| smr_addr := addr |> <| smr_len := len |>
                <| smr_is_sliced := false |>.

Definition mmio_region : shared_mem_region :=
  (smem_zero SFC7120_MMIO_REGION) <| smr_is_physical := true |> <| smr_paddr := bar_start |>
    <| smr_len := bar_size |> <| smr_is_sliced := true |>
    <| smr_slice_definitions := sfc7120_reg_slices |>
    <| smr_slice_def_len := SFC7120_MMIO_SLICE_COUNT |>.

Definition unsliced_region (ablation : Z) : shared_mem_region :=
  let r := (smem_zero SFC7120_MMIO_REGION_UNSLICED) <| smr_is_physical := true |>
             <| smr_paddr := bar_start |> <| smr_is_sliced := false |>
             <| smr_slice_definitions := [] |> <| smr_slice_def_len := 0 |> in
  if negb (ablation =? 0) then r <| smr_len := bar_size |> <| smr_mapped := false |>
  else r <| smr_len := 0 |> <| smr_mapped := true |>.

Definition attach_smem (env : attach_env) : list shared_mem_region := [
  dma_region SFC7120_TX_BUFFER (ae_kva env NTxBuf) (SFC7120_NUM_TX_DESC * SFC7120_TX_BUFFER_SIZE);
  dma_region SFC7120_RX_BUFFER (ae_kva env NRxBuf) (SFC7120_NUM_RX_DESC * SFC7120_RX_BUFFER_SIZE);
  mmio_region;
  dma_region SFC7120_TX_DESC_RING (ae_kva env NTxDesc) (SFC7120_NUM_TX_DESC * SFC7120_TX_DESC_SIZE);
  dma_region SFC7120_RX_DESC_RING (ae_kva env NRxDesc) (SFC7120_NUM_RX_DESC * SFC7120_RX_DESC_SIZE);
  dma_region SFC7120_EVQ_RING (ae_kva env NDataEvq) (SFC7120_NUM_EVQ_ENTRY * SFC7120_EVQ_ENTRY_SIZE);
  unsliced_region (ae_ablation env)
].

(** Attach up to the moment the device node is published. *)
Definition attach_node (env : attach_env) : ST st Z :=
  let* error := in_drv (attach_hardware env) in
  if negb (error =? 0) then ret error
  else
  let* dev := make_dev_capio in
  do* in_drv (mod_life (fun l => l <| cdev := dev |>));
  if negb dev then in_drv (attach_fail_dma ENOMEM)
  else
  do* modify (fun s => s <| c_si_drv1 := true |>);
  ret 0.

Definition sfc7120_fbsd_attach (env : attach_env) : ST st Z :=
  let* error := attach_node env in
  if negb (error =? 0) then ret error
  else
  do* init_capio_sc (attach_smem env);
  do* in_drv (mod_life (fun l => l <| device_attached := true |>));
  do* in_drv sfc7120_dump_regs;
  ret 0.

(** ** Detach *)

Definition sfc7120_fbsd_detach : ST st Z :=
  do* in_drv SFC7120_LOCK;
  do* in_drv (mod_life (fun l => l <| device_attached := false |> <| dying := true |>));
  do* in_drv SFC7120_UNLOCK;
  let* dev := in_drv (get_sc (fun sc => cdev (sc_life sc))) in
  do* (if dev : bool then
         do* in_drv (disown RVaddrCallback);
         do* in_drv (disown RCdev);
         in_drv (mod_life (fun l => l <| cdev := false |>))
       else ret tt);
  do* in_drv sfc7120_intr_teardown;
  do* in_drv sfc7120_hw_teardown;
  do* in_drv sfc7120_free_dma_resources;
  let* bar := in_drv (get_sc (fun sc => mem_resource (sc_pci sc))) in
  do* (if bar : bool then
         do* in_drv (disown RBar2);
         in_drv (mod_pci (fun p => p <| mem_resource := false |>))
       else ret tt);
  do* in_drv (disown RBusMaster);
  do* capio_destroy;
  do* in_drv SFC7120_RX_LOCK_DESTROY;
  do* in_drv SFC7120_LOCK_DESTROY;
  ret 0.

Definition sfc7120_open : Z := 0.

Definition sfc7120_close (env : nat -> unmap_env) : ST st Z :=
  let* si_drv1 := gets c_si_drv1 in
  do* (if si_drv1 then do* revoke_access env; ret tt else ret tt);
  ret 0.
End attach.

(** ** Bring-up and tear-down of the hardware *)

(** The queue flags, which bring-up leaves alone. *)
Record queues_same (fw fw' : fw_state) : Prop := {
  qs_ok : fw_ok fw';
  qs_evq : evq_initialized fw' = evq_initialized fw;
  qs_data_evq : data_evq_initialized fw' = data_evq_initialized fw;
  qs_rxq : rxq_initialized fw' = rxq_initialized fw;
  qs_txq : txq_initialized fw' = txq_initialized fw;
  qs_filter : rx_filter_inserted fw' = rx_filter_inserted fw;
}.

Section hw_specs.
Context {D : Type} `{!Device D} `{!DeviceLaws D}.
Abbreviation world := (world D).
Implicit Types (w : world).

(** The commands of the tear-down, from the flags that are set. *)
Definition teardown_cmds (fw : fw_state) : list (Z * list Z) :=
  filter_remove_cmds fw ++ fini_txq_cmds fw 0 ++ fini_rxq_cmds fw 0 ++ fini_evq_cmds fw 1 ++
  fini_evq_cmds fw 0 ++ vadaptor_free_cmds fw ++ free_vis_cmds fw ++ drv_detach_cmds fw.

Lemma cmd_post_dma ns base w cs fw lk rg w' :
  cmd_post w cs fw lk rg w' -> dma_state ns base w -> dma_state ns base w'.
Proof. intros [Hr ? Hd ? Ho] Hs. apply (dma_state_ext _ _ w); [done | done | done | exact (tr_wf w' Hr)]. Qed.

(** The driver's own resources and the rings, which the hardware code does not
    touch. *)
Record hw_frame w w' : Prop := {
  hf_pci : sc_pci (w_sc w') = sc_pci (w_sc w);
  hf_life : sc_life (w_sc w') = sc_life (w_sc w);
  hf_rings : sc_rings (w_sc w') = sc_rings (w_sc w);
}.

Lemma hw_frame_trans w1 w2 w3 : hw_frame w1 w2 -> hw_frame w2 w3 -> hw_frame w1 w3.
Proof. intros [] []. split; congruence. Qed.

Lemma cmd_post_hw w cs fw lk w' : cmd_post w cs fw lk (sc_rings (w_sc w)) w' -> hw_frame w w'.
Proof. intros []. now split. Qed.

Lemma mcdi_frame_hw w w' : mcdi_frame w w' -> hw_frame w w'.
Proof. intros []. now split. Qed.

Lemma hw_teardown_spec ns base w :
  mcdi_ready w -> dma_state (NMcdi :: ns) base w -> NMcdi ∉ ns ->
  wp sfc7120_hw_teardown (fun _ w' =>
    w_cmds w' = w_cmds w ++ teardown_cmds (sc_fw (w_sc w)) /\ mcdi_down w' /\ dma_state ns base w' /\
    hw_frame w w') w.
Proof.
  intros Hr Hs Hn. unfold sfc7120_hw_teardown.
  apply wp_bind. eapply wp_mono; [apply filter_remove_spec; exact Hr |]. intros ? w1 H1. cbv beta in H1.
  apply wp_bind. eapply wp_mono; [apply fini_txq_spec; apply H1 |]. intros ? w2 H2. cbv beta in H2.
  apply wp_bind. eapply wp_mono; [apply fini_rxq_spec; apply H2 |]. intros ? w3 H3. cbv beta in H3.
  apply wp_bind. eapply wp_mono; [apply fini_evq_spec; apply H3 |]. intros ? w4 (f4 & H4 & E4).
  apply wp_bind. eapply wp_mono; [apply fini_evq_spec; apply H4 |]. intros ? w5 (f5 & H5 & E5).
  apply wp_bind. eapply wp_mono; [apply vadaptor_free_spec; apply H5 |]. intros ? w6 H6. cbv beta in H6.
  apply wp_bind. eapply wp_mono; [apply free_vis_spec; apply H6 |]. intros ? w7 (f7 & H7 & E7).
  apply wp_bind. eapply wp_mono; [apply drv_detach_spec; apply H7 |]. intros ? w8 (f8 & H8 & E8).
  pose proof (cmd_post_dma _ _ _ _ _ _ _ _ H8 (cmd_post_dma _ _ _ _ _ _ _ _ H7 (cmd_post_dma _ _ _ _ _ _ _ _ H6
    (cmd_post_dma _ _ _ _ _ _ _ _ H5 (cmd_post_dma _ _ _ _ _ _ _ _ H4 (cmd_post_dma _ _ _ _ _ _ _ _ H3
    (cmd_post_dma _ _ _ _ _ _ _ _ H2 (cmd_post_dma _ _ _ _ _ _ _ _ H1 Hs)))))))) as Hs8.
  eapply wp_mono; [apply (mcdi_fini_spec ns base); [apply (cp_ready _ _ _ _ _ _ H8) | exact Hs8 | done] |].
  intros _ w9 (Hf9 & Hd9 & Hs9). split; [| split; [done | split; [done |]]].
  - rewrite (mf_cmds _ _ Hf9), (cp_cmds _ _ _ _ _ _ H8), (cp_cmds _ _ _ _ _ _ H7), (cp_cmds _ _ _ _ _ _ H6),
      (cp_cmds _ _ _ _ _ _ H5), (cp_cmds _ _ _ _ _ _ H4), (cp_cmds _ _ _ _ _ _ H3), (cp_cmds _ _ _ _ _ _ H2),
      (cp_cmds _ _ _ _ _ _ H1). unfold teardown_cmds. rewrite <- !app_assoc.
    apply cp_fw in H1, H2, H3, H4, H5, H6, H7. rewrite H7, H6, H5, H4, H3, H2, H1.
    rewrite H6, H5 in E7. rewrite H4 in E5. rewrite H3, H2, H1 in E4.
    destruct E4 as [[_ ->] | [_ ->]], E5 as [[_ ->] | [_ ->]], E7 as [-> | ->]; reflexivity.
  - eapply hw_frame_trans; [| exact (mcdi_frame_hw _ _ Hf9)].
    repeat (eapply hw_frame_trans; [eapply cmd_post_hw; eassumption |]). now split.
Qed.

(** Bring-up in progress: the transport is up, nothing but the mailbox was
    taken, and the queue flags are those of [w0]. *)
Record hw_up ns base w0 w : Prop := {
  hu_ready : mcdi_ready w;
  hu_dma : dma_state (NMcdi :: ns) base w;
  hu_frame : hw_frame w0 w;
  hu_fw : queues_same (sc_fw (w_sc w0)) (sc_fw (w_sc w));
}.

(** The outcome of bring-up; [P] holds of the firmware state on success. *)
Definition hw_post ns base w0 (P : fw_state -> Prop) (e : Z) w' : Prop :=
  hw_frame w0 w' /\ queues_same (sc_fw (w_sc w0)) (sc_fw (w_sc w')) /\
  ((e = 0 /\ hw_up ns base w0 w' /\ P (sc_fw (w_sc w'))) \/
   (e <> 0 /\ mcdi_down w' /\ dma_state ns base w')).

Lemma queues_same_trans fw1 fw2 fw3 : queues_same fw1 fw2 -> queues_same fw2 fw3 -> queues_same fw1 fw3.
Proof. intros [] []. split; congruence || done. Qed.

Lemma grow_queues fw fw' : fw_grow fw fw' -> queues_same fw fw'.
Proof. now intros []. Qed.

(** A bring-up command. *)
Lemma up_stage (m : ST world Z) P ns base w0 (Q : Z -> world -> Prop) w :
  up m P -> hw_up ns base w0 w ->
  (forall rc w', hw_up ns base w0 w' -> fw_grow (sc_fw (w_sc w)) (sc_fw (w_sc w')) ->
     (rc = 0 -> P (sc_fw (w_sc w')) (sc_link (w_sc w'))) -> Q rc w') -> wp m Q w.
Proof.
  intros Hm [Hr Hs Hf Hq] HQ. eapply wp_mono; [apply Hm; [exact Hr | apply Hq] |].
  intros rc w' (cs & fw & lk & Hp & Hg & HP). pose proof (cp_fw _ _ _ _ _ _ Hp) as Efw.
  rewrite <- (cp_link _ _ _ _ _ _ Hp), <- Efw in HP. rewrite <- Efw in Hg. apply HQ; [| exact Hg | exact HP].
  split; [apply Hp | eapply cmd_post_dma; eauto | | eapply queues_same_trans; [exact Hq | now apply grow_queues]].
  eapply hw_frame_trans; [exact Hf | eapply cmd_post_hw; exact Hp].
Qed.

Lemma hw_fail_mcdi_spec ns base w0 P e w :
  hw_up ns base w0 w -> NMcdi ∉ ns -> e <> 0 -> wp (hw_fail_mcdi e) (hw_post ns base w0 P) w.
Proof.
  intros [Hr Hs Hf Hq] Hn He. apply wp_bind. eapply wp_mono; [now apply (mcdi_fini_spec ns base) |].
  intros _ w' (Hf' & Hd & Hs'). apply wp_ret.
  split; [eapply hw_frame_trans; [exact Hf | now apply mcdi_frame_hw] |].
  split; [now rewrite (mf_fw _ _ Hf') |]. right. done.
Qed.

Lemma hw_fail_attach_spec ns base w0 P e w :
  hw_up ns base w0 w -> NMcdi ∉ ns -> e <> 0 -> wp (hw_fail_attach e) (hw_post ns base w0 P) w.
Proof.
  intros [Hr Hs Hf Hq] Hn He. apply wp_bind. eapply wp_mono; [apply drv_detach_spec; exact Hr |].
  intros ? w' (fw' & Hp & E). apply hw_fail_mcdi_spec; [| done | done].
  split; [apply Hp | eapply cmd_post_dma; eauto | eapply hw_frame_trans; [exact Hf | eapply cmd_post_hw; exact Hp] |].
  rewrite (cp_fw _ _ _ _ _ _ Hp). destruct E as [-> | ->]; [done |]. destruct Hq. now split.
Qed.

(** One link of the chain: run a command, unwind with [fail] when it fails. *)
Lemma up_chain (m : ST world Z) P ns base w0 (fail k : Z -> ST world Z) (Q : Z -> world -> Prop) w :
  up m P -> hw_up ns base w0 w ->
  (forall e w', e <> 0 -> hw_up ns base w0 w' -> wp (fail e) Q w') ->
  (forall w', hw_up ns base w0 w' -> fw_grow (sc_fw (w_sc w)) (sc_fw (w_sc w')) ->
     P (sc_fw (w_sc w')) (sc_link (w_sc w')) -> wp (k 0) Q w') ->
  wp (let* error := m in if negb (error =? 0) then fail error else k error) Q w.
Proof.
  intros Hm Hu Hfail Hk. apply wp_bind. eapply up_stage; [exact Hm | exact Hu |]. intros rc w' Hu' Hg HP.
  destruct (Z.eqb_spec rc 0) as [-> | Hrc]; cbn [negb]; auto.
Qed.

(** Reading registers or waiting keeps the stage. *)
Lemma hw_up_dev ns base w0 w d m t :
  hw_up ns base w0 w -> dma_wf m ->
  hw_up ns base w0 (w <| w_time ::= Z.add t |> <| w_dev := d |> <| w_dma := m |>).
Proof.
  intros [[? ? ? ?] Hs [] ?] Hm. split; [now split | | now split | done].
  now apply (dma_state_ext _ _ w).
Qed.

Lemma log_mc_state_spec ns base w0 (Q : unit -> world -> Prop) w :
  hw_up ns base w0 w -> (forall w', hw_up ns base w0 w' -> Q tt w') -> wp sfc7120_mcdi_log_mc_state Q w.
Proof.
  intros Hu HQ. apply wp_bind, wp_READ_REG; [apply Hu |]. intros v1 d1 m1 H1.
  apply wp_bind, wp_READ_REG; [exact H1 |]. intros v2 d2 m2 H2. apply wp_ret, HQ.
  apply (hw_up_dev ns base w0 w d2 m2 0) in Hu; [| done]. destruct w. exact Hu.
Qed.

Lemma hw_wait_link_spec n ns base w0 w :
  hw_up ns base w0 w ->
  wp (hw_wait_link n) (fun _ w' => hw_up ns base w0 w' /\ fw_grow (sc_fw (w_sc w)) (sc_fw (w_sc w'))) w.
Proof.
  revert w. induction n as [| n IH]; intros w Hu.
  { apply wp_ret. split; [done |]. apply fw_grow_refl, Hu. }
  cbn [hw_wait_link]. apply wp_bind. eapply up_stage; [apply get_link_up | exact Hu |]. intros rc w1 Hu1 Hg1 _.
  destruct (negb _); [now apply wp_ret |]. apply wp_bind, wp_get_sc. destruct (link_up _); [now apply wp_ret |].
  apply wp_bind, wp_DELAY; [apply Hu1 |]. intros d m Hm.
  eapply wp_mono; [apply IH; now apply hw_up_dev |]. intros ? w' [Hu' Hg']. split; [done |].
  eapply fw_grow_trans; [exact Hg1 | exact Hg'].
Qed.

(** Everything the firmware must have granted. *)
Definition fw_granted (fw : fw_state) : Prop :=
  drv_attached fw = true /\ vis_allocated fw = true /\ vadaptor_allocated fw = true.

Lemma granted_grow fw fw' : fw_granted fw -> fw_grow fw fw' -> fw_granted fw'.
Proof. intros (? & ? & ?) []. unfold fw_granted. auto. Qed.

Lemma hw_init_link_spec env ns base w0 w :
  hw_up ns base w0 w -> NMcdi ∉ ns -> fw_granted (sc_fw (w_sc w)) ->
  wp (hw_init_link env) (hw_post ns base w0 fw_granted) w.
Proof.
  intros Hu Hn Hg. unfold hw_init_link.
  apply (up_chain _ _ ns base w0 _ _ _ w get_phy_cfg_up Hu); [intros; now apply hw_fail_attach_spec |].
  intros w1 Hu1 Hg1 _. apply (granted_grow _ _ Hg) in Hg1.
  apply (up_chain _ _ ns base w0 _ _ _ w1 (set_mac_up _) Hu1); [intros; now apply hw_fail_attach_spec |].
  intros w2 Hu2 Hg2 _. apply (granted_grow _ _ Hg1) in Hg2.
  apply (up_chain _ _ ns base w0 _ _ _ w2 set_link_up Hu2); [intros; now apply hw_fail_attach_spec |].
  intros w3 Hu3 Hg3 _. apply (granted_grow _ _ Hg2) in Hg3.
  apply wp_bind. eapply wp_mono; [apply hw_wait_link_spec; exact Hu3 |]. intros e w4 [Hu4 Hg4].
  destruct (Z.eqb_spec e 0) as [-> | He]; cbn [negb]; [| now apply hw_fail_attach_spec].
  apply wp_ret. split; [apply Hu4 |]. split; [apply Hu4 |]. left. split; [done |]. split; [done |].
  now apply (granted_grow _ _ Hg3).
Qed.

Lemma hw_init_vis_spec env ns base w0 w :
  hw_up ns base w0 w -> NMcdi ∉ ns -> drv_attached (sc_fw (w_sc w)) = true ->
  wp (hw_init_vis env) (hw_post ns base w0 fw_granted) w.
Proof.
  intros Hu Hn Ha. unfold hw_init_vis.
  apply (up_chain _ _ ns base w0 _ _ _ w entity_reset_up Hu); [intros; now apply hw_fail_attach_spec |].
  intros w1 Hu1 Hg1 _. apply (fg_attached _ _ Hg1) in Ha.
  apply (up_chain _ _ ns base w0 _ _ _ w1 get_mac_up Hu1); [intros; now apply hw_fail_attach_spec |].
  intros w2 Hu2 Hg2 _. apply (fg_attached _ _ Hg2) in Ha.
  apply wp_bind. eapply up_stage; [apply dump_func_info_up | exact Hu2 |]. intros ? w3 Hu3 Hg3 _.
  apply (fg_attached _ _ Hg3) in Ha.
  apply (up_chain _ _ ns base w0 (fun e => do* sfc7120_mcdi_log_mc_state; hw_fail_attach e) _ _ w3 (alloc_vis_up 1 32) Hu3).
  { intros e w' He Hu'. apply wp_bind. eapply log_mc_state_spec; [exact Hu' |]. intros. now apply hw_fail_attach_spec. }
  intros w4 Hu4 Hg4 Hv. apply (fg_attached _ _ Hg4) in Ha. cbv beta in Hv.
  apply (up_chain _ _ ns base w0 (fun e => do* sfc7120_mcdi_log_mc_state; hw_fail_attach e) _ _ w4 vadaptor_alloc_up Hu4).
  { intros e w' He Hu'. apply wp_bind. eapply log_mc_state_spec; [exact Hu' |]. intros. now apply hw_fail_attach_spec. }
  intros w5 Hu5 Hg5 Hva. apply (fg_attached _ _ Hg5) in Ha. apply (fg_vis _ _ Hg5) in Hv.
  apply hw_init_link_spec; [done | done |]. split; auto.
Qed.

Lemma hw_init_spec env ns base w :
  mcdi_down w -> dma_state ns base w -> NMcdi ∉ ns -> fw_ok (sc_fw (w_sc w)) ->
  wp (sfc7120_hw_init env) (hw_post ns base w fw_granted) w.
Proof.
  intros Hd Hs Hn Hok. unfold sfc7120_hw_init. apply wp_bind.
  eapply wp_mono; [now apply (mcdi_init_spec ns base) |].
  intros e w1 [Hf1 [(-> & Hr1 & Hs1 & _) | (He & Hd1 & Hs1)]].
  2: { replace (negb (e =? 0)) with true by lia. apply wp_ret. split; [now apply mcdi_frame_hw |].
       split; [rewrite (mf_fw _ _ Hf1); now split |]. right. done. }
  cbn [Z.eqb negb].
  assert (hw_up ns base w w1) as Hu1.
  { split; [done | done | now apply mcdi_frame_hw | rewrite (mf_fw _ _ Hf1); now split]. }
  apply (up_chain _ _ ns base w _ _ _ w1 get_version_up Hu1); [intros; now apply hw_fail_mcdi_spec |].
  intros w2 Hu2 _ _.
  apply (up_chain _ _ ns base w _ _ _ w2 drv_attach_up Hu2); [intros; now apply hw_fail_mcdi_spec |].
  intros w3 Hu3 _ Ha.
  apply (up_chain _ _ ns base w _ _ _ w3 clear_assertions_up Hu3); [intros; now apply hw_fail_mcdi_spec |].
  intros w4 Hu4 Hg4 _. apply hw_init_vis_spec; [done | done |]. now apply (fg_attached _ _ Hg4).
Qed.
End hw_specs.

(** ** Interrupts *)

Section intr_specs.
Context {D : Type} `{!Device D} `{!DeviceLaws D}.
Abbreviation world := (world D).
Implicit Types (w : world).

Definition intr_off (p : pci_res) : Prop :=
  msix_bar_resource p = false /\ msix_nvec p = 0 /\ irq_resource p = false /\
  irq_handle p = false /\ intr_initialized p = false.
Definition intr_on (p : pci_res) : Prop :=
  msix_bar_resource p = true /\ msix_nvec p = 1 /\ irq_resource p = true /\
  irq_handle p = true /\ intr_initialized p = true.
Definition intr_res : list resource := [RIrqHandler; RIrq; RMsix; RMsixBar].

(** Only the interrupt fields, the owned resources and the kernel's later
    answers change. *)
Record intr_frame w w' : Prop := {
  if_sc : exists p, w_sc w' = (w_sc w) <| sc_pci := p |> /\ mem_resource p = mem_resource (sc_pci (w_sc w));
  if_dma : w_dma w' = w_dma w;
  if_dev : w_dev w' = w_dev w;
  if_cmds : w_cmds w' = w_cmds w;
}.

(** The state reached by changing the interrupt fields to [p]. *)
Definition with_pci (p : pci_res) (o : list resource) (l : list Z) w : world :=
  w <| w_sc ::= fun sc => sc <| sc_pci := p |> |> <| w_owned := o |> <| w_ext := l |>.

Lemma with_pci_frame p o l w :
  mem_resource p = mem_resource (sc_pci (w_sc w)) -> intr_frame w (with_pci p o l w).
Proof. intros H. split; try done. now exists p. Qed.

Lemma wp_bus_alloc r (Q : bool -> world -> Prop) w :
  (forall l, Q true (w <| w_ext := l |> <| w_owned ::= cons r |>)) -> (forall l, Q false (w <| w_ext := l |>)) ->
  wp (bus_alloc r) Q w.
Proof.
  intros Ht Hf. apply wp_bind, wp_ext. intros v l. destruct (v =? 0); [| now apply wp_ret].
  apply wp_bind, wp_own, wp_ret, Ht.
Qed.

(** The failure labels, from a state where their resources are owned. *)
Definition intr_post base w0 (e : Z) w' : Prop :=
  intr_frame w0 w' /\
  ((e = 0 /\ intr_on (sc_pci (w_sc w')) /\ w_owned w' ≡ₚ intr_res ++ base) \/
   (e <> 0 /\ intr_off (sc_pci (w_sc w')) /\ w_owned w' ≡ₚ base)).

Definition pci_at (w0 : world) (bar : bool) (nvec : Z) (irq : bool) : pci_res :=
  (sc_pci (w_sc w0)) <| msix_bar_resource := bar |> <| msix_nvec := nvec |> <| irq_resource := irq |>.

Lemma intr_fail_bar_spec base w0 e o l n :
  intr_off (sc_pci (w_sc w0)) -> e <> 0 -> o ≡ₚ RMsixBar :: base -> n = 0 ->
  wp (intr_fail_bar e) (intr_post base w0) (with_pci (pci_at w0 true n false) o l w0).
Proof.
  intros Hoff He Ho ->. unfold intr_fail_bar. apply wp_bind, (wp_disown_perm _ base); [done |].
  intros o1 Ho1. apply wp_bind, wp_mod_sc, wp_ret. split.
  - apply (with_pci_frame (pci_at w0 false 0 false) o1 l w0). done.
  - right. split; [done |]. split; [| done]. destruct Hoff as (? & ? & ? & ? & ?). now repeat split.
Qed.

Lemma intr_fail_msi_spec base w0 e o l n :
  intr_off (sc_pci (w_sc w0)) -> e <> 0 -> o ≡ₚ RMsix :: RMsixBar :: base ->
  wp (intr_fail_msi e) (intr_post base w0) (with_pci (pci_at w0 true n false) o l w0).
Proof.
  intros Hoff He Ho. unfold intr_fail_msi. apply wp_bind, (wp_disown_perm _ (RMsixBar :: base)); [done |].
  intros o1 Ho1. apply wp_bind, wp_mod_sc.
  change (wp (intr_fail_bar e) (intr_post base w0) (with_pci (pci_at w0 true 0 false) o1 l w0)).
  now apply intr_fail_bar_spec.
Qed.

Lemma intr_setup_spec base w :
  intr_off (sc_pci (w_sc w)) -> w_owned w ≡ₚ base -> wp sfc7120_intr_setup (intr_post base w) w.
Proof.
  intros Hoff Ho. pose proof Hoff as (E1 & E2 & E3 & E4 & E5). unfold sfc7120_intr_setup.
  assert (forall l, intr_post base w ENXIO (w <| w_ext := l |>)) as Hsame.
  { intros l. split; [split; try done; exists (sc_pci (w_sc w)); split; [simpl; now destruct (w_sc w) | done] |].
    right. now split. }
  apply wp_bind, wp_ext. intros v1 l1. destruct (v1 <=? 0); [now apply wp_ret |].
  apply wp_bind, wp_bus_alloc; intros l2; apply wp_bind, wp_mod_sc; cbn [negb].
  2: { apply wp_ret. split; [exact (with_pci_frame (pci_at w false (msix_nvec (sc_pci (w_sc w))) (irq_resource (sc_pci (w_sc w)))) (w_owned w) l2 w eq_refl) |].
       right. split; [done |]. split; [now repeat split | done]. }
  apply wp_bind, wp_ext. intros v3 l3. destruct (Z.eqb_spec v3 0) as [-> | Hv3]; cbn [negb].
  2: { change (wp (intr_fail_bar v3) (intr_post base w) (with_pci ((sc_pci (w_sc w)) <| msix_bar_resource := true |>) (RMsixBar :: w_owned w) l3 w)).
       replace ((sc_pci (w_sc w)) <| msix_bar_resource := true |>) with (pci_at w true 0 false).
       - apply intr_fail_bar_spec; try done. now rewrite Ho.
       - unfold pci_at. destruct (sc_pci (w_sc w)). simpl in *. now subst. }
  apply wp_bind, wp_own, wp_bind, wp_ext. intros v4 l4. destruct (Z.eqb_spec v4 1) as [-> | Hv4]; cbn [negb].
  2: { change (wp (intr_fail_msi ENXIO) (intr_post base w) (with_pci ((sc_pci (w_sc w)) <| msix_bar_resource := true |>) (RMsix :: RMsixBar :: w_owned w) l4 w)).
       replace ((sc_pci (w_sc w)) <| msix_bar_resource := true |>) with (pci_at w true 0 false).
       - apply intr_fail_msi_spec; try done. now rewrite Ho.
       - unfold pci_at. destruct (sc_pci (w_sc w)). simpl in *. now subst. }
  apply wp_bind, wp_mod_sc, wp_bind, wp_bus_alloc; intros l5; apply wp_bind, wp_mod_sc; cbn [negb].
  2: { change (wp (intr_fail_msi ENOMEM) (intr_post base w) (with_pci (pci_at w true 1 false) (RMsix :: RMsixBar :: w_owned w) l5 w)).
       apply intr_fail_msi_spec; try done. now rewrite Ho. }
  apply wp_bind, wp_ext. intros v6 l6. destruct (Z.eqb_spec v6 0) as [-> | Hv6]; cbn [negb].
  2: { unfold intr_fail_irq. apply wp_bind, (wp_disown_perm _ (RMsix :: RMsixBar :: w_owned w)); [done |].
       intros o Ho'. apply wp_bind, wp_mod_sc.
       change (wp (intr_fail_msi v6) (intr_post base w) (with_pci (pci_at w true 1 false) o l6 w)).
       apply intr_fail_msi_spec; try done. now rewrite Ho', Ho. }
  apply wp_bind, wp_own, wp_bind, wp_mod_sc, wp_bind, wp_mod_sc, wp_ret. split.
  - change (intr_frame w (with_pci ((pci_at w true 1 true) <| irq_handle := true |> <| intr_initialized := true |>)
      (intr_res ++ w_owned w) l6 w)). now apply with_pci_frame.
  - left. split; [done |]. split; [done |]. simpl. now rewrite Ho.
Qed.

Lemma intr_teardown_on base w :
  intr_on (sc_pci (w_sc w)) -> w_owned w ≡ₚ intr_res ++ base ->
  wp sfc7120_intr_teardown (fun _ w' =>
    intr_frame w w' /\ intr_off (sc_pci (w_sc w')) /\ w_owned w' ≡ₚ base /\ w_ext w' = w_ext w) w.
Proof.
  intros (E1 & E2 & E3 & E4 & E5) Ho. unfold sfc7120_intr_teardown. apply wp_bind, wp_get_sc.
  rewrite E1, E2, E3, E4, E5. cbn [andb].
  apply wp_bind, wp_bind, (wp_disown_perm _ ([RIrq; RMsix; RMsixBar] ++ base)); [exact Ho |]. intros o1 Ho1. apply wp_mod_sc.
  apply wp_bind, wp_mod_sc.
  apply wp_bind, wp_bind, (wp_disown_perm _ ([RMsix; RMsixBar] ++ base)); [exact Ho1 |]. intros o2 Ho2. apply wp_mod_sc.
  apply wp_bind. change (0 <? 1) with true. cbn iota.
  apply wp_bind, (wp_disown_perm _ ([RMsixBar] ++ base)); [exact Ho2 |]. intros o3 Ho3. apply wp_mod_sc.
  apply wp_bind, (wp_disown_perm _ base); [exact Ho3 |]. intros o4 Ho4. apply wp_mod_sc.
  split; [split; try done; eexists; split; [reflexivity | done] |]. split; [now repeat split |]. done.
Qed.

Lemma intr_teardown_off w : intr_off (sc_pci (w_sc w)) -> sfc7120_intr_teardown w = Some (tt, w).
Proof.
  destruct w as [[[mr mb nv ir ih ii tq] ? ? ? ? ? ?] ? ? ? ? ? ? ?]. intros (E1 & E2 & E3 & E4 & E5). simpl in *. now subst.
Qed.
End intr_specs.

(** ** Queues *)

Section queue_specs.
Context {D : Type} `{!Device D} `{!DeviceLaws D}.
Abbreviation world := (world D).
Implicit Types (w : world).

(** The queue phase of attach: transport up, buffers [NMcdi :: ns] live, the
    driver's other resources as in [w0], firmware state [fw]. *)
Record q_up ns base w0 (fw : fw_state) w : Prop := {
  qu_ready : mcdi_ready w;
  qu_dma : dma_state (NMcdi :: ns) base w;
  qu_pci : sc_pci (w_sc w) = sc_pci (w_sc w0);
  qu_life : sc_life (w_sc w) = sc_life (w_sc w0);
  qu_rings : rings_ok (sc_rings (w_sc w));
  qu_fw : sc_fw (w_sc w) = fw;
}.

Lemma q_cmd ns base w0 fw w cs fw' lk rg w' :
  q_up ns base w0 fw w -> cmd_post w cs fw' lk rg w' -> rings_ok rg -> q_up ns base w0 fw' w'.
Proof.
  intros [] Hp Hr. pose proof Hp as [Hrd Hpci Hdma Hlife Hown Hext Hc Hfw Hl Hrg].
  split; [exact Hrd | eapply cmd_post_dma; eauto | congruence | congruence | now rewrite Hrg | done].
Qed.

Lemma q_fw ns base w0 fw w f :
  q_up ns base w0 fw w -> q_up ns base w0 (f fw) (w <| w_sc ::= fun sc => sc <| sc_fw ::= f |> |>).
Proof.
  intros [[] [] ? ? ? <-]. split; try done; now split.
Qed.

Lemma rings_ok_evq0 r : rings_ok r -> rings_ok (r <| evq_read_ptr := 0 |>).
Proof. intros []. split; simpl; try done; lia. Qed.

Lemma q_init_evq ns base w0 fw w i paddr (Q : Z -> world -> Prop) :
  q_up ns base w0 fw w ->
  (forall e w', e <> 0 -> q_up ns base w0 fw w' -> Q e w') ->
  (forall w', q_up ns base w0 (fw <| evq_initialized := true |>) w' -> Q 0 w') ->
  wp (sfc7120_mcdi_init_evq i paddr 512) Q w.
Proof.
  intros Hu Hfail Hok. eapply wp_mono; [apply init_evq_spec; apply Hu |]. intros rc w'. cbv beta.
  destruct (_ <=? i); [intros [-> ->]; now apply Hfail |].
  intros (fw' & rg & Hp & [(Hrc & -> & ->) | (-> & -> & ->)]).
  - apply Hfail; [done |]. eapply q_cmd; [exact Hu | | apply Hu]. rewrite <- (qu_fw _ _ _ _ _ Hu). exact Hp.
  - apply Hok. eapply q_cmd; [exact Hu | | apply rings_ok_evq0, Hu]. rewrite <- (qu_fw _ _ _ _ _ Hu). exact Hp.
Qed.

Lemma q_init_rxq ns base w0 fw w i t paddr (Q : Z -> world -> Prop) :
  q_up ns base w0 fw w ->
  (forall e w', e <> 0 -> q_up ns base w0 fw w' -> Q e w') ->
  (forall w', q_up ns base w0 (fw <| rxq_initialized := true |>) w' -> Q 0 w') ->
  wp (sfc7120_mcdi_init_rxq i t paddr 512) Q w.
Proof.
  intros Hu Hfail Hok. eapply wp_mono; [apply init_rxq_spec; apply Hu |]. intros rc w'. cbv beta.
  destruct (queue_refused _ _ _); [intros [-> ->]; now apply Hfail |].
  intros (fw' & Hp & [(Hrc & ->) | (-> & ->)]).
  - apply Hfail; [done |]. eapply q_cmd; [exact Hu | | apply Hu]. rewrite <- (qu_fw _ _ _ _ _ Hu). exact Hp.
  - apply Hok. eapply q_cmd; [exact Hu | | apply Hu]. rewrite <- (qu_fw _ _ _ _ _ Hu). exact Hp.
Qed.

Lemma q_init_txq c ns base w0 fw w i t paddr (Q : Z -> world -> Prop) :
  q_up ns base w0 fw w ->
  (forall e w', e <> 0 -> q_up ns base w0 fw w' -> Q e w') ->
  (forall w', q_up ns base w0 (fw <| txq_initialized := true |>) w' -> Q 0 w') ->
  wp (sfc7120_mcdi_init_txq c i t paddr 512) Q w.
Proof.
  intros Hu Hfail Hok. eapply wp_mono; [apply init_txq_spec; apply Hu |]. intros rc w'. cbv beta.
  destruct (queue_refused _ _ _); [intros [-> ->]; now apply Hfail |].
  intros (fw' & Hp & [(Hrc & ->) | (-> & ->)]).
  - apply Hfail; [done |]. eapply q_cmd; [exact Hu | | apply Hu]. rewrite <- (qu_fw _ _ _ _ _ Hu). exact Hp.
  - apply Hok. eapply q_cmd; [exact Hu | | apply Hu]. rewrite <- (qu_fw _ _ _ _ _ Hu). exact Hp.
Qed.

Lemma q_post_rx ns base w0 fw w (Q : unit -> world -> Prop) :
  q_up ns base w0 fw w -> (forall w', q_up ns base w0 fw w' -> Q tt w') -> wp sfc7120_post_rx_buffers Q w.
Proof.
  intros [[] [? ? ? Hwf] ? ? [] <-] HQ. unfold sfc7120_post_rx_buffers. cbv zeta. apply wp_bind.
  assert (Z.of_nat (Z.to_nat SFC7120_NUM_RX_DESC) = 512) as Hn by reflexivity.
  generalize dependent (Z.to_nat SFC7120_NUM_RX_DESC). intros n Hn.
  eapply wp_mono; [apply post_rx_loop_spec; lia |]. intros _ w1 ->. apply wp_bind, wp_ret, wp_bind.
  apply wp_WRITE_REG_dev; [now apply seeded_wf |]. intros w' Hsc Ho _ _ _ _ Hw' _. apply wp_mod_sc, HQ.
  change (w_sc w' = w_sc w) in Hsc. change (w_owned w' = w_owned w) in Ho.
  split; simpl; rewrite ?Hsc; try done; split; simpl; rewrite ?Hsc, ?Ho; try done; lia.
Qed.

(** The filters: one or two inserts; only the filter fields change. *)
Lemma q_filter_insert_mac ns base w0 fw w mac mf (Q : Z * Z -> world -> Prop) :
  q_up ns base w0 fw w -> match mac with Some m => length m = 6%nat /\ Forall is_byte m | None => True end ->
  (forall r w', q_up ns base w0 fw w' -> Q r w') -> wp (sfc7120_mcdi_filter_insert_mac mac mf) Q w.
Proof.
  intros Hu Hmac HQ. unfold sfc7120_mcdi_filter_insert_mac. apply wp_bind.
  apply wp_exec; [apply Hu | | | |].
  - unfold filter_insert_req. destruct mac as [m |]; [destruct Hmac |]; cbv zeta; auto 20 with sfc.
  - unfold filter_insert_req. cbv zeta. destruct mac; autorewrite with sfc_len; vm_compute; congruence.
  - vm_compute. intuition congruence.
  - intros [rc reply] w1 Hp _.
    assert (q_up ns base w0 fw w1) as Hu1.
    { eapply q_cmd; [exact Hu | | apply Hu]. rewrite <- (qu_fw _ _ _ _ _ Hu). exact Hp. }
    destruct (out_buf _ _) as [resp used]. destruct (negb _); [now apply wp_ret, HQ |].
    destruct (_ <? _); [now apply wp_ret, HQ |]. destruct (_ && _); now apply wp_ret, HQ.
Qed.

(** Everything set up. *)
Definition fw_live (fw : fw_state) : Prop :=
  fw_granted fw /\ evq_initialized fw = true /\ data_evq_initialized fw = true /\
  rxq_initialized fw = true /\ txq_initialized fw = true /\ rx_filter_inserted fw = true.

Lemma q_filter_insert ns base w0 fw w :
  q_up ns base w0 fw w -> fw_ok fw ->
  wp sfc7120_mcdi_filter_insert (fun e w' => exists fw', q_up ns base w0 fw' w' /\
    (e = 0 -> rx_filter_inserted fw' = true) /\
    evq_initialized fw' = evq_initialized fw /\ data_evq_initialized fw' = data_evq_initialized fw /\
    rxq_initialized fw' = rxq_initialized fw /\ txq_initialized fw' = txq_initialized fw /\
    (fw_granted fw -> fw_granted fw')) w.
Proof.
  intros Hu [Hl Hb]. unfold sfc7120_mcdi_filter_insert. apply wp_bind, wp_get_sc. rewrite (qu_fw _ _ _ _ _ Hu).
  destruct (rx_filter_inserted fw) eqn:Hf; [apply wp_ret; exists fw; split; [exact Hu | done] |].
  apply wp_bind. eapply q_filter_insert_mac; [exact Hu | done |]. intros [rc h] w1 Hu1. cbn [fst snd].
  destruct (Z.eqb_spec rc 0) as [-> | Hrc]; cbn [negb]; [| apply wp_ret; exists fw; split; [exact Hu1 | done]].
  apply wp_bind, wp_mod_sc.
  pose proof (q_fw _ _ _ _ _ (fun f => f <| rx_filter_handle := h |> <| rx_filter_inserted := true |>) Hu1) as Hu2.
  apply wp_bind. eapply q_filter_insert_mac; [exact Hu2 | done |]. intros [rc2 h2] w3 Hu3. cbn [fst snd].
  destruct (negb _); [apply wp_ret; eexists; split; [exact Hu3 | done] |].
  apply wp_bind, wp_mod_sc, wp_ret.
  eexists. split; [exact (q_fw _ _ _ _ _ (fun f => f <| rx_filter_bcast_handle := h2 |>) Hu3) | done].
Qed.

Lemma attach_queues_spec env ns base w0 fw w :
  q_up ns base w0 fw w -> fw_ok fw -> fw_granted fw ->
  wp (attach_queues env) (fun e w' => exists fw', q_up ns base w0 fw' w' /\ (e = 0 -> fw_live fw')) w.
Proof.
  intros Hu Hok Hg. unfold attach_queues.
  apply wp_bind, wp_get_sc, wp_bind. eapply q_init_evq; [exact Hu | |].
  { intros e w1 He Hu1. replace (negb (e =? 0)) with true by lia. apply wp_ret. exists fw. split; [done | lia]. }
  intros w1 Hu1. cbn [Z.eqb negb]. apply wp_bind, wp_mod_sc.
  pose proof (q_fw _ _ _ _ _ (fun f => f <| evq_initialized := true |>) Hu1) as Hu2. clear Hu1.
  apply wp_bind, wp_get_sc, wp_bind. eapply q_init_evq; [exact Hu2 | |].
  { intros e w3 He Hu3. replace (negb (e =? 0)) with true by lia. apply wp_ret. eexists. split; [exact Hu3 | lia]. }
  intros w3 Hu3. cbn [Z.eqb negb]. apply wp_bind, wp_mod_sc.
  pose proof (q_fw _ _ _ _ _ (fun f => f <| data_evq_initialized := true |>) Hu3) as Hu4. clear Hu3 Hu2.
  apply wp_bind, wp_get_sc, wp_bind. eapply q_init_rxq; [exact Hu4 | |].
  { intros e w5 He Hu5. replace (negb (e =? 0)) with true by lia. apply wp_ret. eexists. split; [exact Hu5 | lia]. }
  intros w5 Hu5. cbn [Z.eqb negb]. apply wp_bind. eapply q_post_rx; [exact Hu5 |]. intros w6 Hu6.
  apply wp_bind, wp_get_sc, wp_bind. eapply q_init_txq; [exact Hu6 | |].
  { intros e w7 He Hu7. replace (negb (e =? 0)) with true by lia. apply wp_ret. eexists. split; [exact Hu7 | lia]. }
  intros w7 Hu7. cbn [Z.eqb negb]. eapply wp_mono; [eapply q_filter_insert; [exact Hu7 | exact Hok] |].
  intros e w8 (fw' & Hu8 & Hins & E1 & E2 & E3 & E4 & Hgr). exists fw'. split; [done |]. intros He.
  repeat split; try (now rewrite ?E1, ?E2, ?E3, ?E4); [apply Hgr, Hg .. | now apply Hins].
Qed.
End queue_specs.

(** ** Attach and its unwinding *)

Section attach_specs.
Context {D : Type} `{!Device D} `{!DeviceLaws D}.
Abbreviation world := (world D).
Implicit Types (w : world).

(** Owning one more resource, or one less, beside the buffers. *)
Lemma dma_state_own r ns base w :
  dma_state ns base w -> dma_state ns (r :: base) (w <| w_owned ::= cons r |>).
Proof.
  intros [? ? Ho ?]. split; try done. simpl. rewrite Ho. apply Permutation_middle.
Qed.

Lemma wp_disown_base r ns base (Q : unit -> world -> Prop) w :
  dma_state ns (r :: base) w ->
  (forall o, dma_state ns base (w <| w_owned := o |>) -> Q tt (w <| w_owned := o |>)) -> wp (disown r) Q w.
Proof.
  intros [Hl Hn Ho Hw] HQ. apply (wp_disown_perm _ (flat_map dma_res ns ++ base)).
  - rewrite Ho. symmetry. apply Permutation_middle.
  - intros o Hp. apply HQ. now split.
Qed.

(** The softc the kernel hands to attach. *)
Record boot w : Prop := {
  bt_mcdi : mcdi_down w;
  bt_dma : dma_state [] [] w;
  bt_intr : intr_off (sc_pci (w_sc w));
  bt_fw : fw_ok (sc_fw (w_sc w));
  bt_mtx : sc_mtx (sc_life (w_sc w)) = MtxUninit /\ rx_mtx (sc_life (w_sc w)) = MtxUninit;
  bt_rings : rings_ok (sc_rings (w_sc w));
}.

(** Nothing is left of an attach but, possibly, the statistics block. *)
Record gone st base w : Prop := {
  gn_mcdi : mcdi_down w;
  gn_dma : dma_state st base w;
  gn_intr : intr_off (sc_pci (w_sc w));
  gn_mtx : sc_mtx (sc_life (w_sc w)) = MtxUninit /\ rx_mtx (sc_life (w_sc w)) = MtxUninit;
}.

Definition stats_only (st : list dma_name) : Prop := st = [] \/ st = [NStats].

(** The locks while attached. *)
Definition locks_free (l : lifecycle) : Prop := sc_mtx l = MtxFree /\ rx_mtx l = MtxFree.

(** The hardware is up: what attach has when it publishes the device node. *)
Record hw_live st base w : Prop := {
  hl_ready : mcdi_ready w;
  hl_dma : dma_state (NMcdi :: st ++ ring_names) (intr_res ++ base) w;
  hl_stats : stats_only st;
  hl_intr : intr_on (sc_pci (w_sc w));
  hl_mem : mem_resource (sc_pci (w_sc w)) = true;
  hl_fw : fw_live (sc_fw (w_sc w));
  hl_locks : locks_free (sc_life (w_sc w));
  hl_rings : rings_ok (sc_rings (w_sc w));
}.

Lemma attach_fail_lock_spec st base e w :
  mcdi_down w -> dma_state st base w -> intr_off (sc_pci (w_sc w)) -> locks_free (sc_life (w_sc w)) ->
  wp (attach_fail_lock e) (fun r w' => r = e /\ gone st base w' /\ w_cmds w' = w_cmds w) w.
Proof.
  intros Hd [] Hi [H1 H2]. unfold attach_fail_lock, SFC7120_RX_LOCK_DESTROY, SFC7120_LOCK_DESTROY.
  apply wp_bind, wp_bind, wp_kassert; [now apply bool_decide_eq_true_2 |]. apply wp_mod_sc.
  apply wp_bind, wp_bind, wp_kassert; [now apply bool_decide_eq_true_2 |]. apply wp_mod_sc, wp_ret.
  split; [done |]. split; [split; try done; now split | done].
Qed.

Lemma attach_fail_bar_spec st base e w :
  mcdi_down w -> dma_state st (RBusMaster :: RBar2 :: base) w -> intr_off (sc_pci (w_sc w)) ->
  locks_free (sc_life (w_sc w)) ->
  wp (attach_fail_bar e) (fun r w' => r = e /\ gone st base w' /\ w_cmds w' = w_cmds w) w.
Proof.
  intros Hd Hs Hi Hl. unfold attach_fail_bar. apply wp_bind. eapply wp_disown_base; [exact Hs |]. intros o1 Hs1.
  apply wp_bind. eapply wp_disown_base; [exact Hs1 |]. intros o2 Hs2.
  eapply wp_mono; [apply (attach_fail_lock_spec st base e); [exact Hd | exact Hs2 | exact Hi | exact Hl] |]. auto.
Qed.

Lemma ring_names_fresh n : n ∈ NStats :: ring_names -> n ∉ [NMcdi].
Proof. unfold ring_names. set_solver. Qed.

Lemma mcdi_not_ring st : stats_only st -> NMcdi ∉ st ++ ring_names.
Proof. unfold ring_names. intros [-> | ->]; set_solver. Qed.

Lemma rings_nodup st : stats_only st -> NoDup (st ++ ring_names ++ []).
Proof. intros Hst. apply chain_nodup; [done | set_solver | constructor]. Qed.

(** The common tail of the failure path and of detach: firmware, then DMA. *)
Lemma teardown_dma_spec st base w (Q : unit -> world -> Prop) :
  mcdi_ready w -> dma_state (NMcdi :: st ++ ring_names) base w -> stats_only st ->
  (forall w', mcdi_down w' -> dma_state st base w' -> hw_frame w w' ->
     w_cmds w' = w_cmds w ++ teardown_cmds (sc_fw (w_sc w)) -> Q tt w') ->
  wp (do* sfc7120_hw_teardown; sfc7120_free_dma_resources) Q w.
Proof.
  intros Hr Hs Hst HQ. apply wp_bind.
  eapply wp_mono; [apply (hw_teardown_spec (st ++ ring_names) base); [done | done | now apply mcdi_not_ring] |].
  intros _ w1 (Hc1 & [Hd1 Hm1] & Hs1 & [? ? ?]). rewrite <- (app_nil_r ring_names) in Hs1.
  eapply wp_mono; [apply (free_dma_resources_spec st [] base w1 Hs1); now apply rings_nodup |].
  intros [] w2 [[E1 E2 E3 E4 _ _ _ _ _ E5] Hs2]. rewrite app_nil_r in Hs2. apply HQ; [| done | | congruence].
  - split; congruence.
  - split; congruence.
Qed.

Lemma wp_assoc {A B C} (m : ST world A) (k : A -> ST world B) (h : B -> ST world C) Q w :
  wp (bind (bind m k) h) Q w -> wp (bind m (fun a => bind (k a) h)) Q w.
Proof. unfold wp, bind. now destruct (m w) as [[? ?] |]. Qed.

Lemma intr_teardown_any base ns w (Q : unit -> world -> Prop) :
  (exists b, (if b : bool then intr_on else intr_off) (sc_pci (w_sc w)) /\
     dma_state ns ((if b then intr_res else []) ++ base) w) ->
  (forall w', intr_off (sc_pci (w_sc w')) -> mem_resource (sc_pci (w_sc w')) = mem_resource (sc_pci (w_sc w)) ->
     sc_mcdi (w_sc w') = sc_mcdi (w_sc w) -> sc_fw (w_sc w') = sc_fw (w_sc w) ->
     sc_life (w_sc w') = sc_life (w_sc w) -> w_cmds w' = w_cmds w -> dma_state ns base w' -> Q tt w') ->
  wp sfc7120_intr_teardown Q w.
Proof.
  intros ([] & Hi & Hs) HQ.
  - pose proof Hs as [Hl Hn Ho Hw]. eapply wp_mono.
    { apply (intr_teardown_on (flat_map dma_res ns ++ base)); [done |]. rewrite Ho. rewrite !app_assoc.
      f_equiv. apply Permutation_app_comm. }
    intros [] w' ([(p & Hsc & Hm) Hd ? ?] & Hoff & Ho' & _).
    apply HQ; try done; rewrite ?Hsc; try done. split; rewrite ?Hsc; try done. unfold w_wf. now rewrite Hd.
  - unfold wp. rewrite intr_teardown_off by done. now apply HQ.
Qed.

(** The failure path from a state where the rings are allocated, with or
    without interrupts. *)
Lemma attach_fail_dma_spec b st base e w :
  mcdi_ready w -> stats_only st -> (if b : bool then intr_on else intr_off) (sc_pci (w_sc w)) ->
  dma_state (NMcdi :: st ++ ring_names) ((if b then intr_res else []) ++ RBusMaster :: RBar2 :: base) w ->
  locks_free (sc_life (w_sc w)) ->
  wp (attach_fail_dma e) (fun r w' => r = e /\ gone st base w' /\
    w_cmds w' = w_cmds w ++ teardown_cmds (sc_fw (w_sc w))) w.
Proof.
  intros [? ? ? ?] Hst Hi Hs Hl. unfold attach_fail_dma. apply wp_bind.
  eapply intr_teardown_any; [exists b; split; [exact Hi | exact Hs] |]. intros w1 Hoff Hm Emc Efw Elife Ecmd Hs1.
  apply wp_assoc, wp_bind. eapply teardown_dma_spec; [| exact Hs1 | exact Hst |].
  { split; rewrite ?Emc; try done. exact (ds_wf _ _ _ Hs1). }
  intros w2 Hd2 Hs2 [Ep El _] Ec. eapply wp_mono;
    [apply (attach_fail_bar_spec st base e); [done | done | now rewrite Ep | now rewrite El, Elife] |].
  intros r w3 (-> & Hg & Ec3). split; [done |]. split; [done |]. now rewrite Ec3, Ec, Efw, Ecmd.
Qed.
End attach_specs.

Section attach_main.
Context {D : Type} `{!Device D} `{!DeviceLaws D}.
Abbreviation world := (world D).
Implicit Types (w : world).

(** The state [attach_hardware] calls [hw_init] in. *)
Record pre_hw w : Prop := {
  ph_mcdi : mcdi_down w;
  ph_dma : dma_state [] [RBusMaster; RBar2] w;
  ph_intr : intr_off (sc_pci (w_sc w));
  ph_mem : mem_resource (sc_pci (w_sc w)) = true;
  ph_fw : fw_ok (sc_fw (w_sc w));
  ph_locks : locks_free (sc_life (w_sc w));
  ph_dying : dying (sc_life (w_sc w)) = false;
  ph_rings : rings_ok (sc_rings (w_sc w));
}.

Definition attach_post (e : Z) w' : Prop :=
  (e = 0 /\ exists st, hw_live st [RBusMaster; RBar2] w' /\ dying (sc_life (w_sc w')) = false) \/
  (e <> 0 /\ exists st, stats_only st /\ gone st [] w').

(** After bring-up: DMA, interrupts, queues. *)
Lemma attach_rest_spec env w :
  pre_hw w ->
  wp (let* error := sfc7120_hw_init env in
      if negb (error =? 0) then attach_fail_bar error
      else
      let* error := sfc7120_alloc_dma_resources in
      if negb (error =? 0) then attach_fail_hw error
      else
      let* error := sfc7120_intr_setup in
      if negb (error =? 0) then attach_fail_dma error
      else
      let* error := attach_queues env in
      if negb (error =? 0) then attach_fail_dma error
      else ret 0) attach_post w.
Proof.
  intros [Hd Hs Hi Hm Hok Hl Hdy Hr]. apply wp_bind.
  eapply wp_mono; [apply (hw_init_spec env [] [RBusMaster; RBar2] w); [done | done | set_solver | done] |].
  intros e1 w1 ([Ep El Er] & Hq & [(-> & [Hr1 Hs1 _ _] & Hg) | (He & Hd1 & Hs1)]).
  2: { replace (negb (e1 =? 0)) with true by lia. eapply wp_mono;
         [apply (attach_fail_bar_spec [] [] e1); [done | done | now rewrite Ep | now rewrite El] |].
       intros r w' (-> & Hgone & _). right. split; [done |]. exists []. split; [now left | done]. }
  cbn [Z.eqb negb]. apply wp_bind.
  eapply wp_mono; [apply (alloc_dma_resources_spec [NMcdi] [RBusMaster; RBar2] w1 Hs1);
    [apply ring_names_fresh | apply NoDup_singleton] |].
  intros e2 w2 [Hf2 [(-> & st & Hst & Hs2) | (He & Hs2)]].
  2: { replace (negb (e2 =? 0)) with true by lia. unfold attach_fail_hw. apply wp_bind.
       eapply wp_mono; [apply (hw_teardown_spec [] [RBusMaster; RBar2] w2); [| done | set_solver] |].
       { destruct Hr1. destruct Hf2 as [? ? ? Em ? ? ? ? ? ?]. split; rewrite ?Em; try done. exact (ds_wf _ _ _ Hs2). }
       intros _ w3 (_ & Hd3 & Hs3 & [Ep3 El3 _]). destruct Hf2 as [Ep2 ? El2 ? ? ? ? ? ? ?].
       eapply wp_mono; [apply (attach_fail_bar_spec [] [] e2); [done | done | congruence | congruence] |].
       intros r w' (-> & Hgone & _). right. split; [done |]. exists []. split; [now left | done]. }
  cbn [Z.eqb negb]. destruct Hf2 as [Ep2 Er2 El2 Em2 Ef2 _ _ _ _ _].
  assert (st ++ ring_names ++ [NMcdi] ≡ₚ NMcdi :: st ++ ring_names) as Hperm
    by (rewrite app_assoc; symmetry; apply Permutation_cons_append).
  rewrite Hperm in Hs2. apply wp_bind. pose proof Hs2 as [Hl2 Hn2 Ho2 Hw2].
  eapply wp_mono; [refine (intr_setup_spec _ w2 _ Ho2); rewrite Ep2, Ep; exact Hi |].
  intros e3 w3 [[(p & Hsc3 & Hm3) Hd3 _ _] Hres3].
  assert (mcdi_ready w3) as Hr3.
  { destruct Hr1. split; rewrite ?Hsc3; simpl; rewrite ?Em2; try done. unfold w_wf. now rewrite Hd3. }
  assert (locks_free (sc_life (w_sc w3))) as Hl3 by (rewrite Hsc3; simpl; rewrite El2, El; exact Hl).
  destruct Hres3 as [(-> & Hon & Ho3) | (He & Hoff & Ho3)].
  2: { replace (negb (e3 =? 0)) with true by lia.
       eapply wp_mono; [apply (attach_fail_dma_spec false st [] e3); [done | done | exact Hoff | | done] |].
       { split; rewrite ?Hsc3; try done. unfold w_wf. now rewrite Hd3. }
       intros r w' (-> & Hgone & _). right. split; [done |]. exists st. done. }
  cbn [Z.eqb negb].
  assert (dma_state (NMcdi :: st ++ ring_names) (intr_res ++ [RBusMaster; RBar2]) w3) as Hs3.
  { split; rewrite ?Hsc3; try done; [| unfold w_wf; now rewrite Hd3]. rewrite Ho3, !app_assoc.
    f_equiv. apply Permutation_app_comm. }
  apply wp_bind. eapply wp_mono; [apply (attach_queues_spec env (st ++ ring_names) (intr_res ++ [RBusMaster; RBar2]) w3 (sc_fw (w_sc w3)) w3) |].
  { split; try done. rewrite Hsc3. simpl. rewrite Er2, Er. exact Hr. }
  { rewrite Hsc3. simpl. rewrite Ef2. apply Hq. }
  { rewrite Hsc3. simpl. rewrite Ef2. exact Hg. }
  intros e4 w4 (fw & [Hr4 Hs4 Hp4 Hl4 Hrg4 Hfw4] & Hlive).
  destruct (Z.eqb_spec e4 0) as [-> | He]; cbn [negb].
  - apply wp_ret. left. split; [done |]. exists st. split.
    + split; try done; rewrite ?Hp4, ?Hl4, ?Hfw4; try done; [| now apply Hlive].
      rewrite Hsc3. simpl. now rewrite Hm3, Ep2, Ep.
    + rewrite Hl4, Hsc3. simpl. now rewrite El2, El.
  - eapply wp_mono; [apply (attach_fail_dma_spec true st [] e4); [done | done | now rewrite Hp4 | exact Hs4 | now rewrite Hl4] |].
    intros r w' (-> & Hgone & _). right. split; [done |]. exists st. done.
Qed.

Lemma attach_hardware_spec env w : boot w -> wp (attach_hardware env) attach_post w.
Proof.
  intros [Hd Hs Hi Hok [H1 H2] Hr]. unfold attach_hardware, SFC7120_LOCK_INIT, SFC7120_RX_LOCK_INIT.
  apply wp_bind, wp_mod_sc.
  apply wp_bind, wp_bind, wp_kassert; [now apply bool_decide_eq_true_2 |]. apply wp_mod_sc.
  apply wp_bind, wp_bind, wp_kassert; [now apply bool_decide_eq_true_2 |]. apply wp_mod_sc.
  destruct Hs as [? ? Ho ?]. apply wp_bind, wp_bus_alloc; intros l; apply wp_bind, wp_mod_sc; cbn [negb].
  - apply wp_bind, wp_own. apply attach_rest_spec. split; try done. split; try done. simpl. now rewrite Ho.
  - eapply wp_mono; [apply (attach_fail_lock_spec [] [] ENXIO); try done |].
    intros r w' (-> & Hgone & _). right. split; [done |]. exists []. split; [now left | done].
Qed.
End attach_main.

(** ** The whole driver *)

Section driver_main.
Context {cap : Type} `{!Cheri cap} `{!CheriLaws cap} {D : Type} `{!Device D} `{!DeviceLaws D} `{!PciBar}.
Abbreviation world := (world D).
Abbreviation st := (cst cap world).
Implicit Types (s : st).

(** What attach leaves owned beside the buffers and the interrupt. *)
Definition attach_base : list resource := [RSliceCallback; RVaddrCallback; RCdev; RBusMaster; RBar2].

(** The device node is published. *)
Record attached (env : attach_env) bufs s : Prop := {
  at_hw : hw_live bufs attach_base (c_drv s);
  at_dying : dying (sc_life (w_sc (c_drv s))) = false;
  at_cdev : cdev (sc_life (w_sc (c_drv s))) = true;
  at_si : c_si_drv1 s = true;
}.

Lemma hw_live_own r bufs base w :
  hw_live (D := D) bufs base w -> hw_live bufs (r :: base) (w <| w_owned ::= cons r |>).
Proof.
  intros [[] Hs ? ? ? ? ? ?]. split; try done. apply (dma_state_own r) in Hs.
  eapply dma_state_perm_1; [done | | exact Hs]. apply (Permutation_middle intr_res base r).
Qed.

Lemma hw_live_life bufs base w f :
  hw_live (D := D) bufs base w -> (forall l, locks_free l -> locks_free (f l)) ->
  hw_live bufs base (w <| w_sc ::= fun sc => sc <| sc_life ::= f |> |>).
Proof. intros [[] [] ? ? ? ? ? ?] Hf. split; try done. now apply Hf. Qed.

Lemma attach_node_spec env s :
  boot (c_drv s) ->
  wp (attach_node env) (fun e s1 =>
    (c_sc s1 = c_sc s /\ c_objs s1 = c_objs s) /\
    ((e <> 0 /\ exists bufs, stats_only bufs /\ gone bufs [] (c_drv s1)) \/
     (e = 0 /\ exists bufs, attached env bufs s1))) s.
Proof.
  intros Hb. unfold attach_node. apply wp_bind, wp_in_drv.
  eapply wp_mono; [now apply attach_hardware_spec |]. intros e w1 [[-> (bufs & Hl & Hd)] | (He & bufs & Hst & Hg)].
  2: { replace (negb (e =? 0)) with true by lia. apply wp_ret. split; [done |]. left. split; [done |]. now exists bufs. }
  cbn [Z.eqb negb]. unfold make_dev_capio. apply wp_bind, wp_bind, wp_in_drv, wp_ext. intros v l.
  assert (hw_live bufs [RBusMaster; RBar2] (w1 <| w_ext := l |>)) as Hl1
    by (destruct Hl as [[] [] ? ? ? ? ? ?]; split; try done; now split).
  destruct (v =? -1).
  - apply wp_ret, wp_bind, wp_in_drv, wp_mod_sc. cbn [negb]. apply wp_in_drv.
    apply (hw_live_life _ _ _ (fun x => x <| cdev := false |>)) in Hl1; [| done].
    destruct Hl1 as [Hr Hs Hst Hi Hm Hf Hlk Hrg].
    eapply wp_mono; [apply (attach_fail_dma_spec true bufs [] ENOMEM); [exact Hr | exact Hst | exact Hi | exact Hs | exact Hlk] |].
    intros r w' (-> & Hg & _). split; [done |]. left. split; [done |]. exists bufs. done.
  - do 3 apply wp_bind, wp_in_drv, wp_own. apply wp_ret, wp_bind, wp_in_drv, wp_mod_sc. cbn [negb].
    apply wp_bind, wp_modify, wp_ret. split; [done |]. right. split; [done |]. exists bufs.
    split; try done. apply hw_live_life; [| done]. now repeat apply hw_live_own.
Qed.

(** Publishing done: CAPIO initialised with the table. *)
Lemma attach_spec env s :
  boot (c_drv s) -> cap_mtx (c_sc s) = MtxUninit ->
  wp (sfc7120_fbsd_attach env) (fun e s1 =>
    c_objs s1 = c_objs s /\
    ((e <> 0 /\ c_sc s1 = c_sc s /\ exists bufs, stats_only bufs /\ gone bufs [] (c_drv s1)) \/
     (e = 0 /\ (exists bufs, attached env bufs s1) /\
      c_sc s1 = (c_sc s) <| cap_mtx := MtxFree |> <| sealing_key := create_sealing_key 0x1234 |>
                  <| shared_mem_regs := attach_smem env |>))) s.
Proof.
  intros Hb Hm. unfold sfc7120_fbsd_attach. apply wp_bind.
  eapply wp_mono; [now apply attach_node_spec |]. intros e s1 [[Esc Eobj] [(He & bufs & Hst & Hg) | (-> & bufs & Ha)]].
  { replace (negb (e =? 0)) with true by lia. apply wp_ret. split; [done |]. left. split; [done |]. split; [done |]. now exists bufs. }
  cbn [Z.eqb negb]. apply wp_bind. unfold init_capio_sc, CAP_LOCK_INIT. apply wp_bind, wp_bind, wp_kassert;
    [rewrite Esc; now apply bool_decide_eq_true_2 |]. apply wp_sc_mod, wp_sc_mod.
  apply wp_bind, wp_in_drv, wp_mod_sc, wp_bind, wp_in_drv. destruct Ha as [Hl Hd Hc Hsi].
  apply (hw_live_life _ _ _ (fun x => x <| device_attached := true |>)) in Hl; [| done].
  unfold sfc7120_dump_regs. apply wp_bind, wp_READ_REG; [apply Hl |]. intros v d m Hdm. apply wp_ret, wp_ret.
  split; [done |]. right. split; [done |]. split; [| simpl; now rewrite Esc].
  exists bufs. split; try done. destruct Hl as [[] [] ? ? ? ? ? ?]. split; try done; now split.
Qed.

(** Two steps of the driver, run as one. *)
Lemma in_drv_seq {A B C} (a : ST world A) (b : ST world B) (k : B -> ST st C) Q s :
  wp (in_drv (do* a; b)) (fun x s' => wp (k x) Q s') s ->
  wp (do* in_drv a; let* x := in_drv b in k x) Q s.
Proof.
  unfold wp, bind, in_drv. destruct (a (c_drv s)) as [[x w'] |]; [| done].
  change (c_drv (s <| c_drv := w' |>)) with w'. now destruct (b w') as [[y w''] |].
Qed.

Lemma attach_base_perm :
  intr_res ++ attach_base ≡ₚ RVaddrCallback :: RCdev :: intr_res ++ [RSliceCallback; RBusMaster; RBar2].
Proof.
  unfold attach_base, intr_res. simpl. symmetry.
  apply (Permutation_cons_app [RIrqHandler; RIrq; RMsix; RMsixBar; RSliceCallback] [RCdev; RBusMaster; RBar2]).
  now apply (Permutation_cons_app [RIrqHandler; RIrq; RMsix; RMsixBar; RSliceCallback] [RBusMaster; RBar2]).
Qed.

(** Detach from an attached state whose CAPIO mutex is free. *)
Lemma detach_spec env bufs s :
  attached env bufs s -> cap_mtx (c_sc s) = MtxFree ->
  wp sfc7120_fbsd_detach (fun r s2 =>
    r = 0 /\ gone bufs [RSliceCallback] (c_drv s2) /\ cap_mtx (c_sc s2) = MtxUninit /\
    dying (sc_life (w_sc (c_drv s2))) = true /\
    w_cmds (c_drv s2) = w_cmds (c_drv s) ++ teardown_cmds (sc_fw (w_sc (c_drv s)))) s.
Proof.
  intros [Hl Hd Hc Hsi] Hm. unfold sfc7120_fbsd_detach. pose proof Hl as [Hr Hs Hst Hi Hmem Hfw [Hlk1 Hlk2] Hrg].
  apply wp_bind, wp_in_drv, wp_LOCK; [done |]. apply wp_bind, wp_in_drv, wp_mod_sc.
  apply wp_bind, wp_in_drv, wp_UNLOCK; [done |]. apply wp_bind, wp_in_drv, wp_get_sc.
  replace (cdev _) with true by (symmetry; exact Hc).
  set (w1 := freed _).
  assert (dma_state (NMcdi :: bufs ++ ring_names) (RVaddrCallback :: RCdev :: intr_res ++ [RSliceCallback; RBusMaster; RBar2]) w1) as Hs1.
  { eapply dma_state_perm_1; [done | exact attach_base_perm |].
    apply (dma_state_ext _ _ _ w1 Hs); try done; exact (ds_wf _ _ _ Hs). }
  apply wp_bind, wp_bind, wp_in_drv. eapply wp_disown_base; [exact Hs1 |]. intros o2 Hs2.
  apply wp_bind, wp_in_drv. eapply wp_disown_base; [exact Hs2 |]. intros o3 Hs3. apply wp_in_drv, wp_mod_sc.
  apply wp_bind, wp_in_drv.
  eapply (intr_teardown_any [RSliceCallback; RBusMaster; RBar2] (NMcdi :: bufs ++ ring_names)).
  { exists true. split; [exact Hi |]. apply (dma_state_ext _ _ _ _ Hs3); try done. exact (ds_wf _ _ _ Hs3). }
  intros w5 Hoff5 Hm5 Emc5 Efw5 El5 Ec5 Hs5.
  apply in_drv_seq, wp_in_drv. eapply teardown_dma_spec; [| exact Hs5 | exact Hst |].
  { destruct Hr. split; change (c_drv (_ <| c_drv := w5 |>)) with w5; rewrite ?Emc5; try done. exact (ds_wf _ _ _ Hs5). }
  intros w6 Hd6 Hs6 [Ep6 El6 _] Ec6. change (c_drv (_ <| c_drv := w5 |>)) with w5 in *.
  apply wp_bind, wp_in_drv, wp_get_sc. change (c_drv (_ <| c_drv := w6 |>)) with w6.
  replace (mem_resource (sc_pci (w_sc w6))) with true by (rewrite Ep6, Hm5; symmetry; exact Hmem).
  assert (RSliceCallback :: [RBusMaster; RBar2] ≡ₚ RBar2 :: RBusMaster :: [RSliceCallback]) as Hp6 by (apply (Permutation_rev [RSliceCallback; RBusMaster; RBar2])).
  apply (dma_state_perm_1 _ _ _ _ _ (Permutation_refl _) Hp6) in Hs6.
  apply wp_bind, wp_bind, wp_in_drv. eapply wp_disown_base; [exact Hs6 |]. intros o7 Hs7. apply wp_in_drv, wp_mod_sc.
  apply wp_bind, wp_in_drv. eapply (wp_disown_base _ bufs [RSliceCallback]).
  { apply (dma_state_ext _ _ _ _ Hs7); try done. exact (ds_wf _ _ _ Hs7). }
  intros o8 Hs8. unfold capio_destroy, CAP_LOCK_DESTROY, SFC7120_RX_LOCK_DESTROY, SFC7120_LOCK_DESTROY.
  apply wp_bind, wp_bind, wp_kassert; [now apply bool_decide_eq_true_2 |]. apply wp_sc_mod.
  assert (sc_life (w_sc w6) = (sc_life (w_sc (c_drv s))) <| device_attached := false |> <| dying := true |> <| cdev := false |>) as El.
  { rewrite El6, El5. simpl. destruct (sc_life (w_sc (c_drv s))). simpl in *. now subst. }
  apply wp_bind, wp_in_drv, wp_bind, wp_kassert; [simpl; rewrite El; now apply bool_decide_eq_true_2 |]. apply wp_mod_sc.
  apply wp_bind, wp_in_drv, wp_bind, wp_kassert; [simpl; rewrite El; now apply bool_decide_eq_true_2 |]. apply wp_mod_sc, wp_ret.
  split; [done |]. split.
  - split; simpl; [exact Hd6 | | destruct Hoff5 as (? & ? & ? & ? & ?); rewrite Ep6; now repeat split | done].
    apply (dma_state_ext _ _ _ _ Hs8); try done. exact (ds_wf _ _ _ Hs8).
  - split; [done |]. simpl. rewrite El. split; [done |]. rewrite Ec6, Ec5, Efw5. done.
Qed.
End driver_main.

(** ** What attach and detach promise *)

Section driver_claims.
Context {cap : Type} `{!Cheri cap} `{!CheriLaws cap} {D : Type} `{!Device D} `{!DeviceLaws D} `{!PciBar}.
Abbreviation world := (world D).
Abbreviation st := (cst cap world).
Implicit Types (s : st).

(** The opcodes of a complete tear-down, in order. *)
Definition full_teardown : list Z :=
  [MC_CMD_FILTER_OP; MC_CMD_FINI_TXQ; MC_CMD_FINI_RXQ; MC_CMD_FINI_EVQ; MC_CMD_FINI_EVQ;
   MC_CMD_VADAPTOR_FREE; MC_CMD_FREE_VIS; MC_CMD_DRV_ATTACH].

Lemma live_teardown fw : fw_live fw -> map fst (teardown_cmds fw) = full_teardown.
Proof.
  intros ((H1 & H2 & H3) & H4 & H5 & H6 & H7 & H8). unfold teardown_cmds, filter_remove_cmds, fini_txq_cmds,
    fini_rxq_cmds, fini_evq_cmds, vadaptor_free_cmds, free_vis_cmds, drv_detach_cmds. cbn [Z.eqb].
  now rewrite H1, H2, H3, H4, H5, H6, H7, H8.
Qed.

(** Tear-down of the firmware state, from any partial bring-up: exactly
    the objects whose flags are set are given back, each once, in the order
    filter, TXQ, RXQ, data EVQ, control EVQ, vAdaptor, VIs, driver (so a queue
    before the event queue it reports to, and the vAdaptor before the VIs),
    whatever the controller answers; afterwards the transport is down and its
    mailbox freed, and nothing else of the driver has changed. *)
Theorem hw_teardown_order ns base (w : world) :
  mcdi_ready w -> dma_state (NMcdi :: ns) base w -> NMcdi ∉ ns ->
  wp sfc7120_hw_teardown (fun _ w' =>
    w_cmds w' = w_cmds w ++
      filter_remove_cmds (sc_fw (w_sc w)) ++ fini_txq_cmds (sc_fw (w_sc w)) 0 ++
      fini_rxq_cmds (sc_fw (w_sc w)) 0 ++ fini_evq_cmds (sc_fw (w_sc w)) 1 ++
      fini_evq_cmds (sc_fw (w_sc w)) 0 ++ vadaptor_free_cmds (sc_fw (w_sc w)) ++
      free_vis_cmds (sc_fw (w_sc w)) ++ drv_detach_cmds (sc_fw (w_sc w)) /\
    mcdi_down w' /\ dma_state ns base w' /\ sc_pci (w_sc w') = sc_pci (w_sc w) /\
    sc_life (w_sc w') = sc_life (w_sc w) /\ sc_rings (w_sc w') = sc_rings (w_sc w)) w.
Proof.
  intros Hr Hs Hn. eapply wp_mono; [now apply (hw_teardown_spec ns base) |]. now intros _ w' (? & ? & ? & []).
Qed.

(** Bring-up of the hardware is all or nothing for the kernel: from a
    state where the transport is down it returns whatever the controller
    does; on success the transport is up and the firmware has granted driver
    attachment, VIs and a vAdaptor; on failure the transport is down again and
    every DMA object it took has been given back.  The queue flags, the ring
    indices and the driver's other resources are untouched either way. *)
Theorem hw_init_balanced env ns base (w : world) :
  mcdi_down w -> dma_state ns base w -> NMcdi ∉ ns -> fw_ok (sc_fw (w_sc w)) ->
  wp (sfc7120_hw_init env) (fun e w' =>
    sc_pci (w_sc w') = sc_pci (w_sc w) /\ sc_life (w_sc w') = sc_life (w_sc w) /\
    sc_rings (w_sc w') = sc_rings (w_sc w) /\ queues_same (sc_fw (w_sc w)) (sc_fw (w_sc w')) /\
    ((e = 0 /\ mcdi_ready w' /\ dma_state (NMcdi :: ns) base w' /\ fw_granted (sc_fw (w_sc w'))) \/
     (e <> 0 /\ mcdi_down w' /\ dma_state ns base w'))) w.
Proof.
  intros Hd Hs Hn Hok. eapply wp_mono; [now apply (hw_init_spec env ns base) |].
  intros e w' ([? ? ?] & Hq & Hres). do 4 (split; [done |]).
  destruct Hres as [(-> & [? ? _ _] & Hg) | Hf]; [left; done | right; done].
Qed.

(** C6. Attach followed by detach.  From the zeroed softc, attach returns
    whatever the kernel and the controller answer.  When it fails, both
    mutexes are destroyed, the transport and the interrupt are down, and of the
    kernel's objects the driver owns nothing but, at most, the statistics
    block.  When it succeeds the whole firmware state is up, and a detach then
    runs without a panic (nothing is freed twice, no mutex misused), sends the
    controller the eight tear-down commands in the order above, and leaves the
    driver owning, of the kernel's objects, exactly the slice callback
    registration and, possibly, the statistics block.  Objects of the firmware
    are not counted: the one filter command leaves the broadcast filter, and a
    failing attach can leave the attachment, the VIs and the vAdaptor. *)
Theorem attach_detach_balanced env s :
  boot (c_drv s) -> cap_mtx (c_sc s) = MtxUninit ->
  wp (sfc7120_fbsd_attach env) (fun e s1 => exists bufs, stats_only bufs /\
    ((e <> 0 /\ gone bufs [] (c_drv s1)) \/
     (e = 0 /\ fw_live (sc_fw (w_sc (c_drv s1))) /\
      wp sfc7120_fbsd_detach (fun r s2 =>
        r = 0 /\ gone bufs [RSliceCallback] (c_drv s2) /\ cap_mtx (c_sc s2) = MtxUninit /\
        exists cs, w_cmds (c_drv s2) = w_cmds (c_drv s1) ++ cs /\ map fst cs = full_teardown) s1))) s.
Proof.
  intros Hb Hm. eapply wp_mono; [now apply attach_spec |].
  intros e s1 (_ & [(He & _ & bufs & Hst & Hg) | (-> & (bufs & Ha) & Esc)]).
  - exists bufs. auto.
  - pose proof (at_hw _ _ _ Ha) as Hl. exists bufs. split; [apply Hl |]. right. split; [done |]. split; [apply Hl |].
    eapply wp_mono; [apply (detach_spec env bufs s1 Ha); now rewrite Esc |].
    intros r s2 (-> & Hg & Hmt & _ & Hc). split; [done |]. split; [done |]. split; [done |].
    eexists. split; [exact Hc |]. apply live_teardown, Hl.
Qed.

(** The regions reserved from the start: the unsliced one without the
    ablation tunable. *)
Definition reserved (env : attach_env) (t : Z) : Prop := ae_ablation env = 0 /\ t = 6.

Lemma attach_smem_exclusive env : exclusive (reserved env) (region_flags (attach_smem env)) [].
Proof.
  assert (region_flags (attach_smem env) = [(0, false); (1, false); (2, false); (3, false); (4, false); (5, false);
    (6, ae_ablation env =? 0)]) as ->.
  { unfold attach_smem, unsliced_region. destruct (ae_ablation env =? 0); reflexivity. }
  split.
  - apply NoDup_ListNoDup. repeat constructor; cbn; lia.
  - intros t [_ ->]. cbn. set_solver.
  - intros t m _. cbn. lia.
  - intros t m Hin. unfold reserved. rewrite !elem_of_cons in Hin. cbn.
    destruct Hin as [E | [E | [E | [E | [E | [E | [E | E]]]]]]]; [injection E as -> -> .. | now apply elem_of_nil in E];
      try (split; [done | intros [? | [_ ?]]; done]).
    split; [intros Hab; right; lia | intros [? | [? _]]; [done | lia]].
  - done.
Qed.

Lemma attached_capio_inv `{!FrameLaws D} env bufs s1 (c0 : capio_softc cap) :
  attached env bufs s1 -> c_objs s1 = [] -> cap_is_null (sealed_cap c0) = true ->
  c_sc s1 = c0 <| cap_mtx := MtxFree |> <| sealing_key := create_sealing_key 0x1234 |>
              <| shared_mem_regs := attach_smem env |> ->
  frames_fit (w_dma (c_drv s1)) -> capio_inv (reserved env) s1.
Proof.
  intros [[[? ? ? Hwf] ? ? ? ? ? [? ?] Hrg] ? ? ?] Ho Hn Esc Hfit.
  split; rewrite ?Esc, ?Ho; [done | now left | split; [now split | done] | apply attach_smem_exclusive].
Qed.

Lemma attached_data_ok env bufs s1 : attached env bufs s1 -> data_ok (c_drv s1).
Proof. intros [[[? ? ? Hwf] ? ? ? ? ? [? ?] Hrg] ? ? ?]. now split. Qed.

(** The region table attach hands to CAPIO: each of the seven regions is
    at its own index, and its length is the size [sfc7120_get_buffer_size]
    makes CAPIO insist on, so that a mapping of a region covers it exactly.
    Without the ablation tunable the unsliced view of the BAR is never mapped:
    after a successful attach, with a NIC whose frames fit, no sequence of
    ioctls, mmaps, callbacks, faults and terminations ever leaves a mapping of
    it alive. *)
Theorem attach_region_table `{!FrameLaws D} env s :
  boot (c_drv s) -> cap_mtx (c_sc s) = MtxUninit -> c_objs s = [] ->
  cap_is_null (sealed_cap (c_sc s)) = true -> ae_ablation env = 0 ->
  wp (sfc7120_fbsd_attach env) (fun e s1 => e = 0 ->
    let smem := shared_mem_regs (c_sc s1) in
    length smem = 7%nat /\
    (forall i r, smem !! i = Some r -> smr_type r = Z.of_nat i /\
       sfc7120_get_buffer_size smem (smr_type r) (c_drv s1) = Some (smr_len r, c_drv s1)) /\
    forall es : list (capio_event cap sfc7120_cmd), frames_fit (w_dma (c_drv s1)) ->
      wp (run_events es) (fun _ s2 =>
        live (region_int SFC7120_MMIO_REGION_UNSLICED) (c_objs s2) = 0%nat) s1) s.
Proof.
  intros Hb Hm Ho Hn Hab. eapply wp_mono; [now apply attach_spec |].
  intros e s1 (Eo & [(He & _) | (_ & (bufs & Ha) & Esc)]) He0; [done |].
  rewrite Ho in Eo. pose proof (attached_capio_inv env bufs s1 (c_sc s) Ha Eo Hn Esc) as Hinv.
  pose proof (attached_data_ok env bufs s1 Ha) as Hok.
  rewrite Esc. cbn [upd shared_mem_regs]. split; [done |]. split.
  - intros i r Hi. rewrite get_buffer_size_spec by done.
    unfold attach_smem, unsliced_region in *. rewrite Hab in *. cbn [Z.eqb negb] in *.
    do 7 (destruct i as [| i]; [cbn in Hi; injection Hi as <-; split; reflexivity |]). done.
  - intros es Hfit. eapply wp_mono; [now apply (run_events_inv (reserved env)), Hinv |].
    intros ? s2 Hinv2. apply (inv_reserved (reserved env)); [done |]. now split.
Qed.

(** The registers attach grants are those of the manifest, or the unsliced
    window when the ablation tunable is set. *)
Lemma attach_smem_grants env t paddr sliced slices n :
  (t, true, paddr, sliced, slices, n) ∈ map region_grant (attach_smem env) ->
  t = region_int SFC7120_MMIO_REGION /\ sliced = true /\ slices = sfc7120_reg_slices /\ n = SFC7120_SLICE_COUNT \/
  t = region_int SFC7120_MMIO_REGION_UNSLICED.
Proof.
  intros Hin. apply elem_of_map in Hin as (r & E & Hr). unfold region_grant in E.
  unfold attach_smem, unsliced_region in Hr. rewrite !elem_of_cons in Hr.
  destruct Hr as [-> | [-> | [-> | [-> | [-> | [-> | [-> | Hr]]]]]]]; [.. | now apply elem_of_nil in Hr];
    try (cbn in E; congruence).
  - left. cbn in E. now simplify_eq.
  - right. destruct (negb _); cbn in E; now simplify_eq.
Qed.

(** C33. What reaches a process of the card's registers.  After a successful
    attach without the ablation tunable, with a NIC whose frames fit their
    slots, let any sequence of ioctls, mmaps, callbacks, faults and
    terminations run: an mmap that then succeeds with an object of device
    memory is one of the sliced register region, and the kernel's answer tells
    the mapping layer to hand out the slices that [confined_slices] describes,
    as many as the library expects: stores reach exactly the
    three data-path doorbells, loads those and the hardware revision register,
    and no byte of the MC doorbell pair, of the MC status register or of the
    control queue's read pointer can be loaded or stored. *)
Theorem mmio_grant_confined `{!FrameLaws D} env s :
  boot (c_drv s) -> cap_mtx (c_sc s) = MtxUninit -> c_objs s = [] ->
  cap_is_null (sealed_cap (c_sc s)) = true -> ae_ablation env = 0 ->
  wp (sfc7120_fbsd_attach env) (fun e s1 => e = 0 -> frames_fit (w_dma (c_drv s1)) ->
    forall es : list (capio_event cap sfc7120_cmd), wp (run_events es) (fun _ s2 =>
      forall caps menv offset size nprot req,
        wp (capio_mmap_single_extra caps menv offset size nprot (Some req)) (fun res _ =>
          forall rc req' o, res = (rc, Some req', Some o) -> ob_memattr o = VM_MEMATTR_DEVICE ->
            mr_map_type req = region_int SFC7120_MMIO_REGION /\ mr_is_sliced req' = true /\
            mr_slice_def_length req' = SFC7120_SLICE_COUNT /\
            confined_slices (mr_slice_definitions req')) s2) s1) s.
Proof.
  intros Hb Hm Ho Hn Hab. eapply wp_mono; [now apply attach_spec |].
  intros e s1 (Eo & [(He & _) | (_ & (bufs & Ha) & Esc)]) He0 Hfit es; [done |].
  rewrite Ho in Eo. pose proof (attached_capio_inv env bufs s1 (c_sc s) Ha Eo Hn Esc Hfit) as Hinv.
  eapply wp_mono; [now apply (run_events_grants (reserved env)), Hinv |].
  intros ? s2 [Hinv2 Hg] caps menv offset size nprot req.
  eapply wp_mono; [now apply (mmap_grant (reserved env)) |]. intros res _ Hres rc req' o -> Hdev.
  destruct (Hres rc req' o eq_refl Hdev) as (Hres' & paddr & Hin).
  rewrite Hg in Hin. unfold grants in Hin. rewrite Esc in Hin. cbn [upd shared_mem_regs] in Hin.
  apply attach_smem_grants in Hin as [(-> & -> & -> & ->) | E].
  - do 3 (split; [done |]). apply reg_slices_confined.
  - destruct Hres'. rewrite E. now split.
Qed.

(** The device node is usable before CAPIO is initialised: in the state
    between the publication of the node and [init_capio_sc], an attach ioctl
    of a process locks a mutex that does not exist yet and panics the
    kernel. *)
Theorem attach_window_panics env s :
  boot (c_drv s) -> cap_mtx (c_sc s) = MtxUninit ->
  wp (attach_node env) (fun e s1 => e = 0 ->
    forall ue addr (data : sfc7120_cmd), capio_ioctl_handler ue CAPIO_ATTACH addr data s1 = None) s.
Proof.
  intros Hb Hm. eapply wp_mono; [now apply attach_node_spec |].
  intros e s1 ([Esc _] & [(He & _) | (_ & bufs & Ha)]) He0; [done |]. intros ue addr data.
  unfold capio_ioctl_handler, bind, gets, ret. rewrite (at_si _ _ _ Ha). cbn [negb].
  unfold set_cap_token, CAP_LOCK, bind, kassert. rewrite Esc, Hm. done.
Qed.
End driver_claims.
