(* ===== verification/Nic.v ===== *)
(** * A concrete NIC

    A controller that answers every MCDI command at once with the same
    payload, and writes nothing else: it satisfies the laws the driver's
    theorems assume of a device.  With it, an attach of the whole driver runs
    to success and a detach gives the kernel's objects back; and the theorems of [Dma],
    [Mcdi], [McdiCmds], [DataPath] and [Driver] are applied to its states. *)

From stdpp Require Import sets.
From S2P Require Import Prelude Uapi Desc Capio CapioModel Softc Dma Mcdi McdiCmds DataPath Driver.
Local Open Scope Z_scope.

(** The state of the controller is the payload it answers with. *)
Definition nic : Type := list Z.

Definition nic_payload (p : nic) : list Z := take 200 (map u8 p).

Definition nic_respond (p : nic) (b : list Z) : list Z :=
  let h := le_word (buf_read b 0 4) in
  let n := Z.of_nat (length (nic_payload p)) in
  if Z.land h 0x7f =? MC_CMD_V2_EXTN then
    let h2 := le_word (buf_read b 4 4) in
    let b := buf_write b 0 (le_bytes 4 (Z.lor h (2 ^ 23))) in
    let b := buf_write b 4 (le_bytes 4 (Z.lor (Z.land h2 0x7fff) (Z.shiftl n 16))) in
    buf_write b 8 (nic_payload p)
  else
    let b := buf_write b 0 (le_bytes 4 (Z.lor (Z.lor (Z.land h 0xffff00ff) (Z.shiftl n 8)) (2 ^ 23))) in
    buf_write b 4 (nic_payload p).

#[export] Instance nic_device : Device nic := {
  dev_write r v x := if r =? EF10_REG_MC_DB_HWRD
                     then (fst x, (snd x) <| mbox ::= nic_respond (fst x) |>) else x;
  dev_read r x := (if r =? EF10_REG_BIU_HW_REV_ID then EF10_REG_BIU_HW_REV_ID_RESET else 0, x);
  dev_delay _ x := x;
  dev_sync x := x;
}.

Lemma nic_payload_is_byte p : Forall is_byte (nic_payload p).
Proof.
  unfold nic_payload. apply Forall_take, Forall_forall. intros z Hz. apply in_map_iff in Hz as (y & <- & _).
  unfold is_byte, u8. apply Z.mod_pos_bound. lia.
Qed.

#[export] Instance nic_laws : DeviceLaws nic.
Proof.
  split; try done. intros r v [p m] [[Hl Hb] ? ? ?]. cbn. destruct (r =? _); [| now split].
  split; cbn; try done. unfold nic_respond. destruct (_ =? MC_CMD_V2_EXTN); cbv zeta; split;
    rewrite ?length_buf_write; try done; auto 10 using nic_payload_is_byte with sfc.
Qed.

(** It reports no frames. *)
#[export] Instance nic_frames : FrameLaws nic.
Proof. split; [done |]. intros r v [p m] Hw [H1 H2]. cbn. destruct (r =? _); now split. Qed.

#[export] Instance nic_bar : PciBar := {| bar_start := 0x50000000; bar_size := 0x800000 |}.

(** ** States *)

Definition dma0 : dma :=
  Dma (replicate 256 0) (replicate 512 0) (replicate 512 0) (replicate 512 0) (replicate 512 0)
    (fun _ => 0) (fun _ => 0) (replicate 512 0).

Lemma dma0_wf : dma_wf dma0.
Proof.
  split; [| done | done | intros; unfold is_byte; simpl; lia].
  split; [done |]. apply Forall_replicate. unfold is_byte. lia.
Qed.

(** The answers of the kernel during a successful attach: BAR2; mailbox and
    PCI command register; seven buffers; interrupt; device name. *)
Definition attach_answers : list Z :=
  [0] ++ [0; 0; 0; 0x10000; 6] ++
  [0; 0; 0; 0x20000] ++ [0; 0; 0; 0x30000] ++ [0; 0; 0; 0x40000] ++ [0; 0; 0; 0x50000] ++
  [0; 0; 0; 0x100000] ++ [0; 0; 0; 0x200000] ++ [0; 0; 0; 0x60000] ++
  [8; 0; 0; 1; 0; 0] ++ [0].

(** A controller that grants everything: 200 bytes of ones. *)
Definition yes_nic : nic := replicate 200 1.

Definition cold : world nic := World softc_zero dma0 yes_nic [] 0 [] attach_answers [].

Lemma cold_dma : dma_state [] [] cold.
Proof. split; [set_solver | intros []; done | done | exact dma0_wf]. Qed.

Lemma fw_zero_ok : fw_ok (sc_fw softc_zero).
Proof. split; [done |]. apply Forall_replicate. unfold is_byte. lia. Qed.

Lemma cold_boot : boot cold.
Proof.
  split; [done | exact cold_dma | done | exact fw_zero_ok | done |]. split; cbn; lia.
Qed.

Definition env0 : attach_env := AttachEnv None 1 0 (fun _ => 0x7000000).

Definition node0 : cst mcap (world nic) :=
  Cst false (CapioSoftc cap_null cap_null cap_null MtxUninit false []) cold [].

(** The whole driver comes up and goes down again with this controller. *)
Definition attach_run : option (Z * cst mcap (world nic)) := sfc7120_fbsd_attach env0 node0.
Definition detach_report (s : cst mcap (world nic)) : option (Z * list Z * list resource) :=
  match sfc7120_fbsd_detach s with
  | Some (r, s') => Some (r, map fst (w_cmds (c_drv s')), w_owned (c_drv s'))
  | None => None
  end.
Definition attach_detach_report (r : option (Z * cst mcap (world nic))) :=
  match r with Some (e, s) => Some (e, detach_report s) | None => None end.

Lemma attach_detach_example :
  attach_detach_report attach_run = Some (0, Some (0,
    [MC_CMD_GET_VERSION; MC_CMD_DRV_ATTACH; MC_CMD_GET_ASSERTS; MC_CMD_ENTITY_RESET;
     MC_CMD_GET_MAC_ADDRESSES; MC_CMD_GET_PORT_ASSIGNMENT; MC_CMD_GET_FUNCTION_INFO;
     MC_CMD_GET_CAPABILITIES; MC_CMD_ALLOC_VIS; MC_CMD_VADAPTOR_ALLOC; MC_CMD_GET_PHY_CFG;
     MC_CMD_SET_MAC; MC_CMD_SET_LINK; MC_CMD_GET_LINK; MC_CMD_INIT_EVQ; MC_CMD_INIT_EVQ;
     MC_CMD_INIT_RXQ; MC_CMD_INIT_TXQ; MC_CMD_FILTER_OP; MC_CMD_FILTER_OP] ++ full_teardown,
    [RSliceCallback; RDmaMap NStats; RDmaMem NStats; RDmaTag NStats])).
Proof. vm_compute. reflexivity. Qed.

(** The world a run ends in. *)
Definition after {A} (m : ST (world nic) A) (w : world nic) : world nic :=
  match m w with Some (_, w') => w' | None => w end.

(** The transport brought up on its own. *)
Definition cold1 : world nic := cold <| w_ext := [0; 0; 0; 0x10000; 6] |>.
Definition mc_up : world nic := after sfc7120_mcdi_init cold1.

Lemma cold1_dma : dma_state [] [] cold1.
Proof. destruct cold_dma. now split. Qed.

Lemma wp_result {S A} {m : ST S A} {Q w r w'} : wp m Q w -> m w = Some (r, w') -> Q r w'.
Proof. intros H E. unfold wp in H. now rewrite E in H. Qed.

Lemma mc_up_run : sfc7120_mcdi_init cold1 = Some (0, mc_up).
Proof. vm_compute. reflexivity. Qed.

Lemma mc_up_post : init_post [] [] cold1 0 mc_up.
Proof.
  exact (wp_result (mcdi_init_spec [] [] cold1 ltac:(done) cold1_dma ltac:(set_solver)) mc_up_run).
Qed.

Lemma mc_up_ready : mcdi_ready mc_up.
Proof. destruct mc_up_post as [_ [(_ & H & _) | [H _]]]; [exact H | done]. Qed.
Lemma mc_up_dma : dma_state [NMcdi] [] mc_up.
Proof. destruct mc_up_post as [_ [(_ & _ & H & _) | [H _]]]; [exact H | done]. Qed.

(** The attached driver. *)
Definition final_node (r : option (Z * cst mcap (world nic))) : cst mcap (world nic) :=
  match r with Some (_, s) => s | None => node0 end.
Definition live_node : cst mcap (world nic) := final_node attach_run.
Definition live_nic : world nic := c_drv live_node.

Lemma live_run : sfc7120_fbsd_attach env0 node0 = Some (0, live_node).
Proof. vm_compute. reflexivity. Qed.

Lemma live_attached : exists bufs, attached env0 bufs live_node.
Proof.
  destruct (wp_result (attach_spec env0 node0 cold_boot eq_refl) live_run) as (_ & [[H _] | (_ & H & _)]); [done | exact H].
Qed.

Lemma live_hw : exists bufs, hw_live bufs attach_base live_nic.
Proof. destruct live_attached as [bufs H]. exists bufs. apply H. Qed.

Lemma live_ok : data_ok live_nic.
Proof. destruct live_hw as [bufs [[] ? ? ? ? ? [] ?]]. now split. Qed.

Lemma live_ready : mcdi_ready live_nic.
Proof. destruct live_hw as [bufs H]. apply H. Qed.

#[local] Opaque mc_up live_node.

(** ** The theorems on these states *)

(** The transport with its mutex taken by the caller. *)
Definition held_mcdi (w : world nic) : world nic :=
  w <| w_sc ::= fun sc => sc <| sc_mcdi ::= fun m => m <| mcdi_mtx := MtxHeld |> |> |>.

Lemma held_mcdi_wf w : w_wf w -> w_wf (held_mcdi w).
Proof. intros H. exact H. Qed.

Lemma dma_resources_balance_witness :
  wp sfc7120_alloc_dma_resources (fun e w1 =>
    (e <> 0 /\ dma_state [NMcdi] [] w1) \/
    (e = 0 /\ exists st, (st = [] \/ st = [NStats]) /\
       wp sfc7120_free_dma_resources (fun _ w2 => dma_state (st ++ [NMcdi]) [] w2) w1)) mc_up.
Proof.
  eapply wp_mono; [apply (dma_resources_balance [NMcdi] [] mc_up mc_up_dma ring_names_fresh (NoDup_singleton NMcdi)) |].
  intros e w1 [H | (H & st & Hst & _ & Hf)]; [now left | right]. eauto.
Defined.

Lemma mcdi_request_roundtrip_witness :
  wp (sfc7120_mcdi_send_locked MC_CMD_ALLOC_VIS [1; 0; 0; 0; 32; 0; 0; 0] 3) (fun off w' =>
    off = 8 /\ w_sc w' = w_sc (held_mcdi mc_up) /\ exists b,
      decode_request b = McdiRequest MC_CMD_ALLOC_VIS 3 true [1; 0; 0; 0; 32; 0; 0; 0]) (held_mcdi mc_up).
Proof.
  eapply wp_mono; [apply (mcdi_request_roundtrip MC_CMD_ALLOC_VIS [1; 0; 0; 0; 32; 0; 0; 0] 3 (held_mcdi mc_up)) |].
  - reflexivity.
  - apply held_mcdi_wf, (rd_wf _ mc_up_ready).
  - repeat constructor; unfold is_byte; lia.
  - vm_compute. intuition congruence.
  - lia.
  - vm_compute. congruence.
  - intros off w' (-> & Hsc & b & hi & lo & Hd & _). split; [reflexivity |]. split; [exact Hsc |].
    exists b. exact Hd.
Defined.

Lemma mcdi_exec_returns_witness :
  wp (sfc7120_mcdi_exec MC_CMD_GET_VERSION [] 32) (fun _ w' =>
    mcdi_ready w' /\ w_sc w' = advance (w_sc mc_up) /\ w_time w' - w_time mc_up <= MCDI_MAX_WAIT_US) mc_up.
Proof.
  eapply wp_mono; [apply (mcdi_exec_returns MC_CMD_GET_VERSION [] 32 mc_up mc_up_ready) |].
  - constructor.
  - vm_compute. congruence.
  - vm_compute. intuition congruence.
  - intros r w' (? & ? & _ & _ & ? & _). auto.
Defined.

(** A mailbox holding an error response of no payload to request 5. *)
Definition refusal_bytes : list Z := le_bytes 4 0x00c50008 ++ replicate 252 0.
Definition refusal : world nic := with_mbox mc_up refusal_bytes.

Lemma with_mbox_bytes_wf b (w : world nic) : w_wf w -> length b = 256%nat -> Forall is_byte b -> w_wf (with_mbox w b).
Proof. intros [_ ? ? ?] ? ?. split; [now split | done ..]. Qed.

Lemma refusal_bytes_ok : Forall is_byte refusal_bytes.
Proof. apply Forall_app. split; [auto with sfc | apply Forall_replicate; unfold is_byte; lia]. Qed.

Lemma refusal_wf : w_wf refusal.
Proof. apply with_mbox_bytes_wf; [apply mc_up_ready | reflexivity | exact refusal_bytes_ok]. Qed.

Lemma mcdi_error_without_code_witness : mcdi_read_reply 5 4 32 refusal = Some ((0, None), refusal).
Proof.
  apply (mcdi_error_without_code false 5 32 refusal refusal_wf); [lia | | |];
    vm_compute; reflexivity.
Defined.

Lemma mcdi_v2_overflow_witness :
  sfc7120_mcdi_exec MC_CMD_ALLOC_VIS (replicate 250 0) 8 mc_up = None.
Proof.
  apply (mcdi_v2_overflow MC_CMD_ALLOC_VIS (replicate 250 0) 8 mc_up mc_up_ready).
  - apply Forall_replicate. unfold is_byte. lia.
  - reflexivity.
  - rewrite length_replicate. lia.
  - lia.
Defined.

Lemma mcdi_init_fini_balanced_witness :
  wp sfc7120_mcdi_init (fun e w1 =>
    (e <> 0 /\ mcdi_down w1 /\ dma_state [] [] w1) \/
    (e = 0 /\ mcdi_ready w1 /\
     wp sfc7120_mcdi_fini (fun _ w2 => mcdi_down w2 /\ dma_state [] [] w2) w1)) cold1.
Proof.
  eapply wp_mono; [apply (mcdi_init_fini_balanced [] [] cold1 ltac:(done) cold1_dma (not_elem_of_nil NMcdi)) |].
  intros e w1 [H | (? & ? & _ & _ & _ & ?)]; [now left | now right].
Defined.

Lemma live_tr : tr_ready live_nic.
Proof. exact live_ready. Qed.

Lemma init_evq_effect_witness :
  wp (sfc7120_mcdi_init_evq 1 0x30000 512) (fun rc w' =>
    rc = EINVAL \/ exists req, w_cmds w' = w_cmds live_nic ++ [(MC_CMD_INIT_EVQ, req)] /\ get32 4 req = 1)
    live_nic.
Proof.
  eapply wp_mono; [apply (init_evq_effect 1 0x30000 live_nic live_tr); lia |].
  intros rc w' [(_ & -> & _) | (_ & req & ? & _ & _ & ? & _)]; [now left | right].
  exists req. split; assumption.
Defined.

Lemma init_queue_requests_witness :
  wp (sfc7120_mcdi_init_rxq 0 1 0x40000 512) (fun rc w' =>
    rc = EINVAL \/ exists req, w_cmds w' = w_cmds live_nic ++ [(MC_CMD_INIT_RXQ, req)]) live_nic /\
  wp (sfc7120_mcdi_init_txq 1 0 1 0x50000 512) (fun rc w' =>
    rc = EINVAL \/ exists req, w_cmds w' = w_cmds live_nic ++ [(MC_CMD_INIT_TXQ, req)]) live_nic.
Proof.
  destruct (init_queue_requests 1 0 1 0x40000 live_nic live_tr) as [Hrx _]; [lia .. |].
  destruct (init_queue_requests 1 0 1 0x50000 live_nic live_tr) as [_ Htx]; [lia .. |].
  split; [apply (wp_mono _ _ _ _ Hrx) | apply (wp_mono _ _ _ _ Htx)];
    (intros rc w' [(_ & -> & _) | (_ & req & ? & _)]; [now left | right; exists req; assumption]).
Defined.

Lemma query_failure_records_nothing_witness :
  wp sfc7120_mcdi_get_link (query_post live_nic) live_nic.
Proof. apply (query_failure_records_nothing 1 32 live_nic _ live_tr). set_solver. Defined.

Lemma phy_cfg_requests_fec_witness :
  wp sfc7120_mcdi_get_phy_cfg (fun rc w' => rc = 0 -> exists reported,
    Z.testbit (phy_supported_cap_mask (sc_link (w_sc w'))) 17
    = Z.testbit reported 17 || Z.testbit reported 16) live_nic.
Proof.
  eapply wp_mono; [apply (phy_cfg_requests_fec live_nic live_tr) |].
  intros rc w' H Hrc. destruct (H Hrc) as [c Hc]. exists c. rewrite (Hc 17) by lia.
  cbn. now rewrite !andb_false_r, !orb_false_r, andb_true_r.
Defined.

Lemma filter_remove_unicast_only_witness :
  wp sfc7120_mcdi_filter_remove (fun _ w' => exists req,
    w_cmds w' = w_cmds live_nic ++ [(MC_CMD_FILTER_OP, req)] /\
    get32 8 req * 2 ^ 32 + get32 4 req = rx_filter_handle (sc_fw (w_sc live_nic))) live_nic.
Proof.
  eapply wp_mono; [apply (filter_remove_unicast_only live_nic live_tr) |].
  - vm_compute. reflexivity.
  - vm_compute. intuition congruence.
  - intros ? w' (req & ? & _ & ? & _). exists req. split; assumption.
Defined.

Lemma sfc7120_ioctl_safe_witness :
  match sfc7120_ioctl (SFC7120_GET_MAC []) live_nic with
  | Some (_, w') => data_ok w' /\ w_owned w' = w_owned live_nic
  | None => exists req, SFC7120_GET_MAC [] = SFC7120_RX req
  end.
Proof.
  pose proof (sfc7120_ioctl_safe (SFC7120_GET_MAC []) live_nic live_ok) as H.
  destruct (sfc7120_ioctl (SFC7120_GET_MAC []) live_nic) as [[r w'] |]; [| apply H]. destruct H as (? & ? & _). auto.
Defined.

Lemma vi_info_sync_roundtrip_witness :
  wp (do* ioctl_set_evq_rptr (EvqSync 7 8 9); ioctl_get_vi_info) (fun v w' => data_ok w' /\
    (vi_evq_read_ptr v, vi_tx_head v, vi_rx_head v) = (7, 8, 9)) live_nic.
Proof.
  eapply wp_mono; [apply (vi_info_sync_roundtrip (EvqSync 7 8 9) live_nic live_ok) |].
  intros v w' (? & ->). auto.
Defined.

(** A frame of 60 bytes, all 5. *)
Definition tx60 : sfc7120_tx_req := TxReq (UserBuf true true 60 (fun _ => 5) None) 60 0.

Lemma live_tx_base : tx_base live_nic = 0x100000.
Proof. vm_compute. reflexivity. Qed.
Lemma live_rx_base : rx_base live_nic = 0x200000.
Proof. vm_compute. reflexivity. Qed.

Lemma tx_ioctl_effect_witness : wp (ioctl_tx tx60) (tx_ioctl_result tx60 live_nic) live_nic.
Proof.
  pose proof (tx_ioctl_effect tx60 live_nic live_ok eq_refl) as H. cbv zeta in H.
  change (tx_check tx60 =? 0) with true in H. rewrite live_tx_base in H. cbn in H.
  exact (proj2 (H ltac:(lia) ltac:(lia) ltac:(lia))).
Defined.

Lemma post_rx_buffers_seeds_ring_witness :
  wp sfc7120_post_rx_buffers (fun _ w' =>
    w_log w' = w_log live_nic ++ [(SFC7120_REG_DATA_RX_DESC_DBL, 511)]) live_nic.
Proof.
  eapply wp_mono; [apply (post_rx_buffers_seeds_ring live_nic (dk_wf _ live_ok)) |].
  - rewrite live_rx_base. lia.
  - rewrite live_rx_base. lia.
  - intros ? w' [? _]. assumption.
Defined.

(** The attached driver with a port event (link down, code 12 and sub-code 4)
    in its control queue, and with a transmit completion followed by a receive
    event in its data queue. *)
Definition with_evqs (ctl data : list Z) (w : world nic) : world nic :=
  w <| w_dma ::= fun m => m <| evq := ctl |> <| data_evq := data |> |>.
Definition link_down_ev : Z := 12 * 2 ^ 60 + 4 * 2 ^ 44.
Definition tx_ev : Z := SFC7120_EV_CODE_TX * 2 ^ 60.
Definition rx_ev : Z := 74.
Definition busy : world nic :=
  with_evqs (link_down_ev :: replicate 511 0) (tx_ev :: rx_ev :: replicate 510 0) live_nic.

Lemma with_evqs_ok ctl data w :
  data_ok w -> length ctl = 512%nat -> length data = 512%nat -> data_ok (with_evqs ctl data w).
Proof. intros [? [? ? ? ?] ?] ? ?. split; [done | now split | done]. Qed.

Lemma busy_ok : data_ok busy.
Proof. now apply with_evqs_ok; [exact live_ok | |]. Qed.

Lemma busy_events : pending (evq (w_dma (synced busy))) (evq_read_ptr (sc_rings (w_sc busy))) 512 = [link_down_ev].
Proof. vm_compute. reflexivity. Qed.
Lemma busy_live :
  db_vaddr (evq_ring (sc_dma (w_sc busy))) && negb (dying (sc_life (w_sc busy)))
  && evq_initialized (sc_fw (w_sc busy)) = true.
Proof. vm_compute. reflexivity. Qed.
Lemma busy_rptr : evq_read_ptr (sc_rings (w_sc busy)) = 0.
Proof. vm_compute. reflexivity. Qed.

Lemma isr_refines_witness :
  wp sfc7120_interrupt_handler (fun _ w' =>
    data_ok w' /\ link_up (sc_link (w_sc w')) = false /\ evq_read_ptr (sc_rings (w_sc w')) = 1 /\
    w_log w' = w_log busy ++ [(SFC7120_REG_EVQ_RPTR_DBL, 1)]) busy.
Proof.
  pose proof (isr_refines busy busy_ok) as H. cbv zeta in H. rewrite busy_events, busy_live in H.
  apply (wp_mono _ _ _ _ H). intros ? w' (? & _ & Hlk & Hr & _ & _ & Hl).
  rewrite Hlk, Hr, Hl, busy_rptr. split; [assumption |]. split; [reflexivity |]. split; reflexivity.
Defined.

Lemma nic_sync (x : nic * dma) : dev_sync x = x.
Proof. reflexivity. Qed.

Lemma rx_discards_tx_completions_witness :
  wp (rx_poll RX_POLL_TRIES 0) (fun r w' =>
    r = (Some (ev_rx_bytes rx_ev), 2) /\ data_evq_read_ptr (sc_rings (w_sc w')) = 2) busy.
Proof.
  apply (rx_discards_tx_completions [tx_ev] rx_ev [] busy nic_sync (dk_wf _ busy_ok) (dk_rings _ busy_ok)).
  - vm_compute. reflexivity.
  - repeat constructor.
  - reflexivity.
Defined.

Definition held_sc (w : world nic) : world nic :=
  w <| w_sc ::= fun sc => sc <| sc_life ::= fun l => l <| sc_mtx := MtxHeld |> |> |>.

Lemma held_sc_parts w : data_ok w ->
  w_wf (held_sc w) /\ rings_ok (sc_rings (w_sc (held_sc w))) /\ sc_mtx (sc_life (w_sc (held_sc w))) = MtxHeld.
Proof. now intros []. Qed.

(** A receive event while the head is at the last slot, whose prefix says
    65535 bytes. *)
Definition with_prefix (w : world nic) : world nic :=
  w <| w_sc ::= fun sc => sc <| sc_rings ::= fun r => r <| rx_head := 511 |> |> |>
    <| w_dma ::= fun m => m <| rx_mem := fun _ => 255 |> |>.

Lemma with_prefix_ok w : data_ok w -> data_ok (with_prefix w).
Proof.
  intros [? [? ? ? ?] [? ? ? ?]]. split; [done | split; try done; intros o; unfold is_byte; cbn; lia | split; cbn; done || lia].
Qed.

Definition overlong : world nic := with_prefix (with_evqs (replicate 512 0) (rx_ev :: replicate 511 0) live_nic).

Lemma overlong_ok : data_ok overlong.
Proof. exact (with_prefix_ok _ (with_evqs_ok (replicate 512 0) (rx_ev :: replicate 511 0) live_nic live_ok eq_refl eq_refl)). Qed.

Lemma overlong_run : exists w1, rx_wait overlong = Some (Some 74, w1) /\ rx_overread 74 w1.
Proof. eexists. split; [vm_compute; reflexivity | vm_compute; reflexivity]. Qed.

Lemma rx_overread_witness : sfc7120_ioctl (SFC7120_RX (RxReq 0 [] 0 0)) overlong = None.
Proof.
  destruct overlong_run as (w1 & H1 & H2).
  exact (rx_overread_faults (RxReq 0 [] 0 0) 74 overlong w1 overlong_ok H1 H2).
Defined.

Lemma live_rx_mem : forall o, rx_mem (w_dma live_nic) o = 0.
Proof. intros o. vm_compute. reflexivity. Qed.
Lemma live_evq : data_evq (w_dma live_nic) = replicate 512 EV_EMPTY.
Proof. vm_compute. reflexivity. Qed.

Lemma live_fit : frames_fit (w_dma live_nic).
Proof.
  split.
  - intros h _. rewrite !live_rx_mem. vm_compute. discriminate.
  - intros i Hi. rewrite live_evq. unfold arr_get. rewrite nth_lookup, lookup_replicate_2 by lia. vm_compute. discriminate.
Qed.

Lemma live_no_overread : ~ rx_overread 74 (held_sc live_nic).
Proof. vm_compute. discriminate. Qed.

Lemma rx_deliver_effect_witness :
  wp (rx_deliver 74 (RxReq 0 [] 0 0)) (fun r w' =>
    fst r = 0 /\ rx_length_received (snd r) = 60 /\ rx_head (sc_rings (w_sc w')) = 1) (held_sc live_nic).
Proof.
  destruct (held_sc_parts live_nic live_ok) as (Hw & Hr & Hm).
  pose proof (rx_deliver_effect 74 (RxReq 0 [] 0 0) (held_sc live_nic) Hm Hw Hr ltac:(lia) live_no_overread) as H.
  apply (wp_mono _ _ _ _ H). intros r w' (? & Hl & _ & _ & Hh & _).
  rewrite Hl, Hh. split; [assumption |]. split; vm_compute; reflexivity.
Defined.

Lemma live_split : exists ns base, mcdi_ready live_nic /\ dma_state (NMcdi :: ns) base live_nic /\ NMcdi ∉ ns.
Proof.
  destruct live_hw as [bufs [? ? Hs ? ? ? ? ?]]. exists (bufs ++ ring_names), (intr_res ++ attach_base).
  split; [assumption |]. split; [assumption |]. exact (mcdi_not_ring _ Hs).
Qed.

Lemma hw_teardown_order_witness :
  wp sfc7120_hw_teardown (fun _ w' => mcdi_down w' /\
    exists cs, w_cmds w' = w_cmds live_nic ++ cs /\ map fst cs = full_teardown) live_nic.
Proof.
  destruct live_split as (ns & base & Hr & Hd & Hn).
  eapply wp_mono; [apply (hw_teardown_order ns base live_nic Hr Hd Hn) |].
  intros ? w' (Hc & ? & _). split; [assumption |]. eexists. split; [exact Hc |]. vm_compute. reflexivity.
Defined.

Lemma hw_init_balanced_witness :
  wp (sfc7120_hw_init env0) (fun e w' =>
    (e = 0 /\ mcdi_ready w' /\ fw_granted (sc_fw (w_sc w'))) \/
    (e <> 0 /\ mcdi_down w' /\ dma_state [] [] w')) cold1.
Proof.
  eapply wp_mono; [apply (hw_init_balanced env0 [] [] cold1) |].
  - done.
  - exact cold1_dma.
  - apply not_elem_of_nil.
  - exact fw_zero_ok.
  - intros e w' (_ & _ & _ & _ & [(? & ? & _ & ?) | ?]); auto.
Defined.

Lemma attach_detach_balanced_witness :
  exists s1, sfc7120_fbsd_attach env0 node0 = Some (0, s1) /\ exists bufs,
    wp sfc7120_fbsd_detach (fun r s2 => r = 0 /\ gone bufs [RSliceCallback] (c_drv s2)) s1.
Proof.
  exists live_node. split; [exact live_run |].
  destruct (wp_result (attach_detach_balanced env0 node0 cold_boot eq_refl) live_run)
    as (bufs & _ & [[? _] | (_ & _ & Hd)]); [congruence |].
  exists bufs. apply (wp_mono _ _ _ _ Hd). intros r s2 (? & ? & _). auto.
Defined.

Lemma node0_null : cap_is_null (sealed_cap (c_sc node0)) = true.
Proof. reflexivity. Qed.

Lemma attach_region_table_witness :
  length (shared_mem_regs (c_sc live_node)) = 7%nat /\
  wp (run_events [EvMmap 3 mmap_ok 0 0x800000 0 None]) (fun _ s2 =>
    live (region_int SFC7120_MMIO_REGION_UNSLICED) (c_objs s2) = 0%nat) live_node.
Proof.
  destruct (wp_result (attach_region_table env0 node0 cold_boot eq_refl eq_refl node0_null eq_refl) live_run eq_refl)
    as (? & _ & H).
  split; [assumption | apply H, live_fit].
Defined.

(** A process attaches and maps the registers. *)
Definition live_attach : capio_event mcap sfc7120_cmd :=
  EvIoctl no_env CAPIO_ATTACH (CapReq user_a cap_null) (SFC7120_UNKNOWN 0).
Definition mmio_req : map_req mcap :=
  MapReq user_a (cap_seal user_a (create_sealing_key 0x1234)) (region_int SFC7120_MMIO_REGION) false [] 0.

Lemma mmio_mapped : exists s2 req' o s3,
  run_events [live_attach] live_node = Some (tt, s2) /\
  capio_mmap_single_extra 4 mmap_ok 0 0x800000 0 (Some mmio_req) s2 = Some ((0, Some req', Some o), s3) /\
  ob_memattr o = VM_MEMATTR_DEVICE.
Proof. do 4 eexists. split; [vm_compute; reflexivity |]. split; vm_compute; reflexivity. Qed.

Lemma mmio_grant_confined_witness : exists s2 req' o s3,
  run_events [live_attach] live_node = Some (tt, s2) /\
  capio_mmap_single_extra 4 mmap_ok 0 0x800000 0 (Some mmio_req) s2 = Some ((0, Some req', Some o), s3) /\
  confined_slices (mr_slice_definitions req').
Proof.
  destruct mmio_mapped as (s2 & req' & o & s3 & Hrun & Hmap & Hdev). exists s2, req', o, s3.
  split; [exact Hrun |]. split; [exact Hmap |].
  pose proof (wp_result (mmio_grant_confined env0 node0 cold_boot eq_refl eq_refl node0_null eq_refl) live_run
    eq_refl live_fit [live_attach]) as H.
  pose proof (wp_result (wp_result H Hrun 4 mmap_ok 0 0x800000 0 mmio_req) Hmap 0 req' o eq_refl Hdev) as Hc.
  apply Hc.
Defined.

Lemma attach_window_panics_witness :
  wp (attach_node env0) (fun e s1 => e = 0 ->
    capio_ioctl_handler no_env CAPIO_ATTACH (CapReq cap_null cap_null) (SFC7120_UNKNOWN 0) s1 = None)
    node0.
Proof.
  eapply wp_mono; [apply (attach_window_panics env0 node0 cold_boot eq_refl) |].
  intros e s1 H He. apply (H He).
Defined.
