(* ===== verification/UserLib.v ===== *)
(** * The user-space library: the direct data path

    [userlib/sfc7120_user.c] without its control path (which is in
    [UserInit]).  A process that has mapped the rings drives the NIC itself:
    it polls the data event queue, writes descriptors and rings the doorbells
    through the capabilities of the slice manifest.  The state is the
    library's handle [sfc7120_if] and, behind it, the memory and the device
    the kernel model runs in: the mapped regions are the kernel's DMA buffers.
    The process and the NIC run concurrently: before it loads from shared
    memory the device gets a turn.

    A store or load outside a mapped region, or through a slice that does not
    grant it, is a CHERI exception: [None]. *)

From S2P Require Import Prelude Uapi Desc Capio Softc DataPath.
Local Open Scope Z_scope.

(** ** The handle *)

Record sfc7120_if (cap : Type) := SfcIf {
  ui_fd : Z;
  ui_modmap_fd : Z;
  ui_cap_req : cap_req cap;
  ui_mac_addr : list Z;
  ui_tx_buffer : bool;                 (* each of these: non-NULL *)
  ui_rx_buffer : bool;
  ui_tx_desc_ring : bool;
  ui_rx_desc_ring : bool;
  ui_evq_ring : bool;
  ui_mmio_slices : option Z;           (* the block calloc returned *)
  ui_mmio_slices_len : Z;
  ui_vi_info : sfc7120_vi_info_req;
  ui_vi_info_valid : bool;
  ui_evq_read_ptr : Z;
  ui_used_poll : bool;
  ui_evq_civac : bool;
  ui_rx_window : Z;
  ui_rx_head : Z;
  ui_tx_head : Z;
  ui_region_maps : list (option Z * Z);
  ui_rx_ext_cookie : list (option Z);
  ui_cap_token : option Z;
}.
Arguments SfcIf {cap}. Arguments ui_fd {cap}. Arguments ui_modmap_fd {cap}.
Arguments ui_cap_req {cap}. Arguments ui_mac_addr {cap}. Arguments ui_tx_buffer {cap}.
Arguments ui_rx_buffer {cap}. Arguments ui_tx_desc_ring {cap}. Arguments ui_rx_desc_ring {cap}.
Arguments ui_evq_ring {cap}. Arguments ui_mmio_slices {cap}. Arguments ui_mmio_slices_len {cap}.
Arguments ui_vi_info {cap}. Arguments ui_vi_info_valid {cap}. Arguments ui_evq_read_ptr {cap}.
Arguments ui_used_poll {cap}. Arguments ui_evq_civac {cap}. Arguments ui_rx_window {cap}.
Arguments ui_rx_head {cap}. Arguments ui_tx_head {cap}. Arguments ui_region_maps {cap}.
Arguments ui_rx_ext_cookie {cap}. Arguments ui_cap_token {cap}.

#[export] Instance eta_sfc7120_if cap : Eta (sfc7120_if cap) := fun u =>
  SfcIf (ui_fd u) (ui_modmap_fd u) (ui_cap_req u) (ui_mac_addr u) (ui_tx_buffer u) (ui_rx_buffer u)
    (ui_tx_desc_ring u) (ui_rx_desc_ring u) (ui_evq_ring u) (ui_mmio_slices u) (ui_mmio_slices_len u)
    (ui_vi_info u) (ui_vi_info_valid u) (ui_evq_read_ptr u) (ui_used_poll u) (ui_evq_civac u)
    (ui_rx_window u) (ui_rx_head u) (ui_tx_head u) (ui_region_maps u) (ui_rx_ext_cookie u)
    (ui_cap_token u).

Record uworld (cap D : Type) := UWorld {
  u_if : sfc7120_if cap;
  u_w : world D;
}.
Arguments UWorld {cap D}. Arguments u_if {cap D}. Arguments u_w {cap D}.
#[export] Instance eta_uworld cap D : Eta (uworld cap D) := fun s => UWorld (u_if s) (u_w s).

Inductive sfc7120_ev_type := SFC7120_EV_RX | SFC7120_EV_TX | SFC7120_EV_OTHER.

Record sfc7120_ev := Ev {
  ue_type : sfc7120_ev_type;
  ue_tx_desc_idx : Z;
  ue_rx_bytes : Z;
  ue_raw : Z;
}.

(** How [sfc7120_poll] reports an event word. *)
Definition decode_ev (ev : Z) : sfc7120_ev :=
  let code := ev_code ev in
  if code =? 0 then Ev SFC7120_EV_RX 0 (ev_rx_bytes ev) ev
  else if code =? 2 then Ev SFC7120_EV_TX (ev_tx_index ev) 0 ev
  else Ev SFC7120_EV_OTHER 0 0 ev.

Section userlib.
Context {cap D : Type} `{!Device D}.
Abbreviation uworld := (uworld cap D).
Abbreviation sfc7120_if := (sfc7120_if cap).

Definition getu {A} (f : sfc7120_if -> A) : ST uworld A := gets (fun s => f (u_if s)).
Definition modu (f : sfc7120_if -> sfc7120_if) : ST uworld unit := modify (fun s => s <| u_if ::= f |>).

(** An access to the memory shared with the kernel and the NIC. *)
Definition shared {A} (m : ST (world D) A) : ST uworld A := fun s =>
  match m (u_w s) with
  | Some (a, w) => Some (a, s <| u_w := w |>)
  | None => None
  end.

(** The caller has the slice array and it reaches entry [i]. *)
Definition has_slice (i : sfc7120_mmio_slice_idx) (u : sfc7120_if) : bool :=
  match ui_mmio_slices u with Some _ => slice_int i <? ui_mmio_slices_len u | None => false end.

(** A 32-bit store to dword [k] of slice [i]: the capability must be writable
    and cover it. *)
Definition slice_store (i : sfc7120_mmio_slice_idx) (k v : Z) : ST uworld unit :=
  match sfc7120_reg_slices !! Z.to_nat (slice_int i) with
  | Some s =>
      do* kassert (fun _ => negb (sl_read_only s) && (0 <=? k) && (4 * k + 4 <=? sl_length s));
      shared (SFC7120_WRITE_REG (sl_offset s + 4 * k) v)
  | None => panic
  end.

Definition next_slot (h : Z) : Z := Z.land (u32 (h + 1)) (512 - 1).

(** ** sfc7120_poll *)

Fixpoint poll_loop (n : nat) : ST uworld (list sfc7120_ev) :=
  match n with
  | O => ret []
  | S n' =>
      let* rptr := getu ui_evq_read_ptr in
      do* shared sync_postread;
      let* ev := shared (ring_load data_evq rptr) in
      if ev_empty ev then ret []
      else
      do* shared (ring_store upd_data_evq rptr 0);
      do* modu (fun u => u <| ui_evq_read_ptr := next_slot rptr |>);
      let* rest := poll_loop n' in
      ret (decode_ev ev :: rest)
  end.

Definition sfc7120_poll (evs : bool) (max_evs : Z) : ST uworld (Z * list sfc7120_ev) :=
  if negb evs || (max_evs <=? 0) then ret (-1, [])
  else
  let* ready := getu (fun u => ui_evq_ring u && has_slice SFC7120_SLICE_DATA_EVQ_RPTR_DBL u) in
  if negb ready then ret (-1, [])
  else
  do* modu (fun u => u <| ui_used_poll := true |>);
  let* l := poll_loop (Z.to_nat max_evs) in
  let n := Z.of_nat (length l) in
  do* (if 0 <? n then
         let* rptr := getu ui_evq_read_ptr in
         slice_store SFC7120_SLICE_DATA_EVQ_RPTR_DBL 0 (Z.land rptr SFC7120_EVQ_RPTR_MASK)
       else ret tt);
  ret (n, l).

(** ** Receive *)

(** The frame length of slot [head], from its prefix or the event. *)
Definition slot_plen (head rx_bytes : Z) : ST uworld Z :=
  do* shared sync_postread;
  let* b8 := shared (rx_byte (rx_slot head + 8)) in
  let* b9 := shared (rx_byte (rx_slot head + 9)) in
  ret (rx_plen b8 b9 rx_bytes).

(** [Some (offset, length, bus address)] of the frame in the receive buffer. *)
Definition sfc7120_rx_peek (pkt_out : bool) (rx_bytes : Z) : ST uworld (Z * option (Z * Z * Z)) :=
  let* ready := getu (fun u => ui_rx_buffer u && ui_rx_desc_ring u && has_slice SFC7120_SLICE_RX_DESC_DBL u) in
  if negb pkt_out || negb ready then ret (-1, None)
  else
  do* modu (fun u => u <| ui_used_poll := true |>);
  let* head := getu ui_rx_head in
  let* plen := slot_plen head rx_bytes in
  let* base := getu (fun u => vi_rx_buffer_paddr (ui_vi_info u)) in
  ret (0, Some (rx_slot head + SFC7120_EF10_RX_PREFIX_LEN, plen,
                u64 (base + rx_slot head + SFC7120_EF10_RX_PREFIX_LEN))).

(** The producer value the window doorbell carries. *)
Definition rx_wptr (u : sfc7120_if) : Z :=
  Z.land (u32 (ui_rx_head u + ui_rx_window u)) (SFC7120_NUM_RX_DESC - 1).

Definition ring_rx_window : ST uworld unit :=
  let* wptr := getu rx_wptr in
  slice_store SFC7120_SLICE_RX_DESC_DBL 0 wptr.

Definition sfc7120_rx_release : ST uworld Z :=
  let* ready := getu (fun u => ui_rx_desc_ring u && has_slice SFC7120_SLICE_RX_DESC_DBL u) in
  if negb ready then ret (-1)
  else
  let* head := getu ui_rx_head in
  let* base := getu (fun u => vi_rx_buffer_paddr (ui_vi_info u)) in
  do* shared (ring_store upd_rx_ring head (rx_slot_desc base head));
  do* modu (fun u => u <| ui_rx_head := next_slot head |>);
  do* ring_rx_window;
  ret 0.

Definition bad_rx_buffer (paddr len : Z) : bool := (paddr =? 0) || (len =? 0) || (0x3fff <? len).

Definition set_cookie (i : Z) (cookie : option Z) (u : sfc7120_if) : sfc7120_if :=
  u <| ui_rx_ext_cookie ::= insert (Z.to_nat i) cookie |>.

Definition sfc7120_rx_release_paddr (paddr len : Z) (cookie : option Z) : ST uworld Z :=
  let* ready := getu (fun u => ui_rx_desc_ring u && has_slice SFC7120_SLICE_RX_DESC_DBL u) in
  if negb ready || bad_rx_buffer paddr len then ret (-1)
  else
  let* head := getu ui_rx_head in
  do* shared (ring_store upd_rx_ring head (ef10_desc len paddr));
  do* modu (set_cookie head cookie);
  do* modu (fun u => u <| ui_rx_head := next_slot head |>);
  do* ring_rx_window;
  ret 0.

(** [Some (cookie, length)]. *)
Definition sfc7120_rx_peek_ext (cookie_out : bool) (rx_bytes : Z) : ST uworld (Z * option (option Z * Z)) :=
  let* ready := getu (fun u => ui_rx_desc_ring u && has_slice SFC7120_SLICE_RX_DESC_DBL u) in
  if negb cookie_out || negb ready then ret (-1, None)
  else
  do* modu (fun u => u <| ui_used_poll := true |>);
  let* head := getu ui_rx_head in
  let* cookie := getu (fun u => nth (Z.to_nat head) (ui_rx_ext_cookie u) None) in
  let* mapped := getu ui_rx_buffer in
  let* plen := match cookie with
               | None => if mapped then slot_plen head rx_bytes else ret (rx_plen 0 0 rx_bytes)
               | Some _ => ret (rx_plen 0 0 rx_bytes)
               end in
  ret (0, Some (cookie, plen)).

Definition sfc7120_rx_release_paddr_nodbl (paddr len : Z) (cookie : option Z) : ST uworld Z :=
  let* mapped := getu ui_rx_desc_ring in
  if negb mapped || bad_rx_buffer paddr len then ret (-1)
  else
  let* tail := getu rx_wptr in
  do* shared (ring_store upd_rx_ring tail (ef10_desc len paddr));
  do* modu (set_cookie tail cookie);
  do* modu (fun u => u <| ui_rx_head := next_slot (ui_rx_head u) |>);
  ret 0.

Definition sfc7120_rx_flush : ST uworld unit :=
  let* ready := getu (has_slice SFC7120_SLICE_RX_DESC_DBL) in
  if negb ready then ret tt else ring_rx_window.

(** [buf] is the caller's buffer, by its capacity; the result carries what was
    copied into it. *)
Definition sfc7120_rx_recv (buf : option Z) (rx_bytes : Z) : ST uworld (Z * list Z) :=
  let* ready := getu (fun u => ui_rx_buffer u && ui_rx_desc_ring u && has_slice SFC7120_SLICE_RX_DESC_DBL u) in
  match buf with
  | Some room =>
      if negb ready then ret (-1, [])
      else
      do* modu (fun u => u <| ui_used_poll := true |>);
      let* head := getu ui_rx_head in
      let* plen := slot_plen head rx_bytes in
      let off := rx_slot head + SFC7120_EF10_RX_PREFIX_LEN in
      do* kassert (fun _ => plen <=? room);
      let* frame := shared (rx_load off plen) in
      let* base := getu (fun u => vi_rx_buffer_paddr (ui_vi_info u)) in
      do* shared (ring_store upd_rx_ring head (rx_slot_desc base head));
      do* modu (fun u => u <| ui_rx_head := next_slot head |>);
      do* slice_store SFC7120_SLICE_RX_DESC_DBL 0 (next_slot head);
      ret (0, frame)
  | None => ret (-1, [])
  end.

(** ** Transmit *)

Definition bad_tx_len (len : Z) : bool := (len =? 0) || (SFC7120_TX_BUFFER_SIZE <? len).

Definition sfc7120_tx_post_paddr_nodbl (paddr len : Z) : ST uworld Z :=
  let* mapped := getu ui_tx_desc_ring in
  if negb mapped || bad_tx_len len then ret (-1)
  else
  let* head := getu ui_tx_head in
  do* shared (ring_store upd_tx_ring head (ef10_desc len paddr));
  do* modu (fun u => u <| ui_tx_head := next_slot head |>);
  ret 0.

Definition sfc7120_tx_flush : ST uworld unit :=
  let* ready := getu (has_slice SFC7120_SLICE_TX_DESC_DBL) in
  if negb ready then ret tt
  else
  let* head := getu ui_tx_head in
  slice_store SFC7120_SLICE_TX_DESC_DBL 2 head.

(** The descriptor-inline push: the descriptor read back from slot [head],
    then the write pointer; the head advances. *)
Definition tx_push (head : Z) : ST uworld unit :=
  let wptr := next_slot head in
  let* desc := shared (ring_load tx_ring head) in
  do* slice_store SFC7120_SLICE_TX_DESC_DBL 0 (Z.land desc 0xffffffff);
  do* slice_store SFC7120_SLICE_TX_DESC_DBL 1 (Z.shiftr desc 32);
  do* slice_store SFC7120_SLICE_TX_DESC_DBL 2 wptr;
  modu (fun u => u <| ui_tx_head := next_slot head |>).

Definition sfc7120_tx_post_paddr (paddr len : Z) : ST uworld Z :=
  let* ready := getu (fun u => ui_tx_desc_ring u && has_slice SFC7120_SLICE_TX_DESC_DBL u) in
  if negb ready || bad_tx_len len then ret (-1)
  else
  do* modu (fun u => u <| ui_used_poll := true |>);
  let* head := getu ui_tx_head in
  do* shared (ring_store upd_tx_ring head (ef10_desc len paddr));
  do* tx_push head;
  ret 0.

(** memcpy of [len] bytes of the caller's buffer to offset [off] of the
    transmit buffer. *)
Definition copy_to_slot (buf : user_buf) (off len : Z) : ST uworld unit :=
  do* kassert (fun _ => (len <=? ub_len buf) && (0 <=? off) &&
                 (off + len <=? SFC7120_NUM_TX_DESC * SFC7120_TX_BUFFER_SIZE));
  shared (mod_dma (fun d => d <| tx_mem ::= store_bytes off len (ub_bytes buf) |>)).

Definition sfc7120_tx_post (buf : option user_buf) (len : Z) : ST uworld Z :=
  let* ready := getu (fun u => ui_tx_buffer u && ui_tx_desc_ring u && has_slice SFC7120_SLICE_TX_DESC_DBL u) in
  match buf with
  | Some buf =>
      if negb ready || bad_tx_len len then ret (-1)
      else
      do* modu (fun u => u <| ui_used_poll := true |>);
      let* head := getu ui_tx_head in
      do* copy_to_slot buf (tx_slot head) len;
      let* base := getu (fun u => vi_tx_buffer_paddr (ui_vi_info u)) in
      do* shared (ring_store upd_tx_ring head (ef10_desc len (u64 (base + tx_slot head))));
      do* tx_push head;
      ret 0
  | None => ret (-1)
  end.
End userlib.

(** ** Rules *)

Lemma next_slot_mod (h : Z) : 0 <= h < 2 ^ 32 - 1 -> next_slot h = (h + 1) mod 512.
Proof. intros. unfold next_slot. rewrite land_ring. unfold u32. now rewrite (Z.mod_small (h + 1)) by lia. Qed.

Lemma land_511_range (x : Z) : 0 <= Z.land x (512 - 1) < 512.
Proof. rewrite land_ring. apply Z.mod_pos_bound. lia. Qed.

Lemma next_slot_range (h : Z) : 0 <= next_slot h < 512.
Proof. apply land_511_range. Qed.

(** The register a store through a slice reaches, if it may. *)
Definition slice_reg (i : sfc7120_mmio_slice_idx) (k : Z) : option Z :=
  match sfc7120_reg_slices !! Z.to_nat (slice_int i) with
  | Some s => if negb (sl_read_only s) && (0 <=? k) && (4 * k + 4 <=? sl_length s)
              then Some (sl_offset s + 4 * k) else None
  | None => None
  end.

Lemma evq_slice_reg : slice_reg SFC7120_SLICE_DATA_EVQ_RPTR_DBL 0 = Some SFC7120_REG_DATA_EVQ_RPTR_DBL.
Proof. reflexivity. Qed.
Lemma rx_slice_reg : slice_reg SFC7120_SLICE_RX_DESC_DBL 0 = Some SFC7120_REG_DATA_RX_DESC_DBL.
Proof. reflexivity. Qed.
Lemma tx_slice_reg (k : Z) :
  0 <= k <= 2 -> slice_reg SFC7120_SLICE_TX_DESC_DBL k = Some (SFC7120_REG_DATA_TX_DESC_DBL + 4 * k).
Proof.
  intros Hk. unfold slice_reg. change (_ !! _) with (nth_error sfc7120_reg_slices 3). cbn [nth_error sfc7120_reg_slices].
  cbn [sl_read_only sl_length sl_offset negb andb]. now replace ((0 <=? k) && _) with true by lia.
Qed.

Section rules.
Context {cap D : Type} `{!Device D} `{!DeviceLaws D}.
Abbreviation uworld := (uworld cap D).
Abbreviation sfc7120_if := (sfc7120_if cap).
Implicit Types (s : uworld) (u : sfc7120_if).

Lemma wp_shared {A} (m : ST (world D) A) (Q : A -> uworld -> Prop) s :
  wp m (fun a w => Q a (s <| u_w := w |>)) (u_w s) -> wp (shared m) Q s.
Proof. unfold wp, shared. now destruct (m (u_w s)) as [[a w] |]. Qed.

Lemma wp_getu {A} (f : sfc7120_if -> A) (Q : A -> uworld -> Prop) s :
  Q (f (u_if s)) s -> wp (getu f) Q s.
Proof. done. Qed.

Lemma wp_modu f (Q : unit -> uworld -> Prop) s : Q tt (s <| u_if ::= f |>) -> wp (modu f) Q s.
Proof. done. Qed.

Lemma wp_slice_store i k v r (Q : unit -> uworld -> Prop) s :
  slice_reg i k = Some r -> w_wf (u_w s) ->
  (forall w, w_sc w = w_sc (u_w s) -> w_log w = w_log (u_w s) ++ [(r, u32 v)] -> w_wf w ->
     (w_dev w, w_dma w) = dev_write r (u32 v) (w_dev (u_w s), w_dma (u_w s)) -> Q tt (s <| u_w := w |>)) ->
  wp (slice_store i k v) Q s.
Proof.
  unfold slice_reg, slice_store. destruct (_ !! _) as [sl |]; [| done].
  destruct (_ && _) eqn:Hg; [| done]. intros [= <-] Hw HQ.
  apply wp_bind, wp_kassert; [done |]. apply wp_shared, wp_WRITE_REG_dev; [done |].
  intros. now apply HQ.
Qed.

(** ** Confinement

    Whatever a process does with the library, and whatever the NIC does
    meanwhile: its indices stay inside the rings, no access leaves the mapped
    regions, the kernel's state is not touched, and the only registers
    written are those the slice manifest grants. *)

Record if_ok u : Prop := {
  io_evq : 0 <= ui_evq_read_ptr u < 512;
  io_rx : 0 <= ui_rx_head u < 512;
  io_tx : 0 <= ui_tx_head u < 512;
  io_cookies : length (ui_rx_ext_cookie u) = 512%nat;
}.

Definition u_ok s : Prop := if_ok (u_if s) /\ w_wf (u_w s).

Record confined s s' : Prop := {
  cf_sc : w_sc (u_w s') = w_sc (u_w s);
  cf_log : exists l, w_log (u_w s') = w_log (u_w s) ++ l /\ Forall (fun e => user_writable (fst e) = true) l;
}.

Lemma confined_refl s s' :
  w_sc (u_w s') = w_sc (u_w s) -> w_log (u_w s') = w_log (u_w s) -> confined s s'.
Proof. intros H1 H2. split; [done |]. exists []. rewrite app_nil_r. auto. Qed.

Lemma confined_trans s1 s2 s3 : confined s1 s2 -> confined s2 s3 -> confined s1 s3.
Proof.
  intros [H1 (l1 & Hl1 & F1)] [H2 (l2 & Hl2 & F2)]. split; [congruence |].
  exists (l1 ++ l2). rewrite Hl2, Hl1, app_assoc. split; [done | now apply Forall_app].
Qed.

(** [safe m P]: from a good state [m] does not trap, ends in a good state
    having kept to its confinement, and returns a value satisfying [P]. *)
Definition safe {A} (m : ST uworld A) (P : A -> Prop) : Prop :=
  forall s, u_ok s -> wp m (fun a s' => P a /\ u_ok s' /\ confined s s') s.

Lemma safe_ret {A} (a : A) (P : A -> Prop) : P a -> safe (ret a) P.
Proof. intros HP s Hs. apply wp_ret. split; [done |]. split; [done |]. now apply confined_refl. Qed.

Lemma safe_bind {A B} (m : ST uworld B) (k : B -> ST uworld A) P P' :
  safe m P' -> (forall b, P' b -> safe (k b) P) -> safe (bind m k) P.
Proof.
  intros Hm Hk s Hs. apply wp_bind. eapply wp_mono; [exact (Hm s Hs) |].
  intros b s1 (Hb & H1 & C1). eapply wp_mono; [exact (Hk b Hb s1 H1) |].
  intros a s2 (Ha & H2 & C2). split; [done |]. split; [done |]. eapply confined_trans; eassumption.
Qed.

Lemma safe_getu {A} (f : sfc7120_if -> A) (P : A -> Prop) :
  (forall u, if_ok u -> P (f u)) -> safe (getu f) P.
Proof.
  intros HP s Hs. apply wp_getu. split; [apply HP, Hs |]. split; [done |]. now apply confined_refl.
Qed.

Lemma safe_modu f : (forall u, if_ok u -> if_ok (f u)) -> safe (modu f) (fun _ => True).
Proof.
  intros Hf s [Hi Hw]. apply wp_modu. split; [done |]. split; [split; [now apply Hf | done] |].
  now apply confined_refl.
Qed.

Lemma safe_load ring i : 0 <= i < 512 -> safe (shared (ring_load ring i)) (fun _ => True).
Proof.
  intros Hi s Hs. apply wp_shared, wp_ring_load; [done |]. split; [done |].
  destruct s. split; [done |]. now apply confined_refl.
Qed.

Lemma safe_store upd_ring i v :
  0 <= i < 512 -> (forall m, dma_wf m -> dma_wf (upd_ring (fun r => arr_set r i v) m)) ->
  safe (shared (ring_store upd_ring i v)) (fun _ => True).
Proof.
  intros Hi Hu s [Hif Hw]. apply wp_shared, wp_ring_store; [done |]. split; [done |].
  split; [split; [done | now apply Hu] |]. now apply confined_refl.
Qed.

Lemma safe_sync : safe (shared sync_postread) (fun _ => True).
Proof.
  intros s [Hif Hw]. apply wp_shared, wp_sync_postread; [done |]. intros d m Hm. split; [done |].
  split; [now split |]. now apply confined_refl.
Qed.

Lemma safe_rx_byte off : 0 <= off < RX_MEM_SIZE -> safe (shared (rx_byte off)) (fun _ => True).
Proof.
  intros Ho s Hs. apply wp_shared, wp_rx_byte; [done |]. split; [done |]. destruct s. split; [done |]. now apply confined_refl.
Qed.

Lemma slice_reg_writable i k r : slice_reg i k = Some r -> user_writable r = true.
Proof.
  unfold slice_reg. destruct (_ !! _) as [sl |] eqn:Hs; [| done]. destruct (_ && _) eqn:Hg; [| done].
  intros [= <-]. rewrite !andb_true_iff in Hg. destruct Hg as [[Hro Hk] Hlen].
  unfold user_writable. apply existsb_exists. exists sl. split; [apply list_elem_of_In; eauto using list_elem_of_lookup_2 |].
  unfold slice_covers. rewrite Hro. lia.
Qed.

Lemma safe_slice_store i k v r : slice_reg i k = Some r -> safe (slice_store i k v) (fun _ => True).
Proof.
  intros Hr s [Hif Hw]. apply (wp_slice_store i k v r); [done | done |].
  intros w Hsc Hl Hwf Hd. split; [done |]. split; [now split |]. split; [done |].
  exists [(r, u32 v)]. split; [done |]. constructor; [| constructor]. now apply (slice_reg_writable i k).
Qed.

(** One step of a [safe] goal: heads are in range when they are read. *)
Ltac usafe :=
  repeat lazymatch goal with
  | |- safe (ret _) _ => apply safe_ret; exact I
  | |- safe (if ?b then _ else _) _ => destruct b eqn:?
  | |- safe (match ?x with _ => _ end) _ => destruct x
  | |- safe (bind (getu ui_rx_head) _) _ =>
      apply (safe_bind _ _ _ (fun h => 0 <= h < 512)); [apply safe_getu; now intros ? [] | intros ? ?]
  | |- safe (bind (getu ui_tx_head) _) _ =>
      apply (safe_bind _ _ _ (fun h => 0 <= h < 512)); [apply safe_getu; now intros ? [] | intros ? ?]
  | |- safe (bind (getu ui_evq_read_ptr) _) _ =>
      apply (safe_bind _ _ _ (fun h => 0 <= h < 512)); [apply safe_getu; now intros ? [] | intros ? ?]
  | |- safe (bind (getu rx_wptr) _) _ =>
      apply (safe_bind _ _ _ (fun h => 0 <= h < 512)); [apply safe_getu; intros; apply land_511_range | intros ? ?]
  | |- safe (bind _ _) _ => apply (safe_bind _ _ _ (fun _ => True)); [| intros ? _]
  | |- safe (getu _) (fun _ => True) => now apply safe_getu
  | |- safe (modu _) _ =>
      apply safe_modu; let u := fresh "u" in intros u [? ? ? ?]; destruct u; split; cbn in *;
      rewrite ?length_insert; auto using next_slot_range
  | |- safe (shared (ring_load _ _)) _ => apply safe_load; assumption
  | |- safe (shared (ring_store _ _ _)) _ => apply safe_store; [assumption | auto with sfc]
  | |- safe (shared sync_postread) _ => apply safe_sync
  | |- safe (shared (rx_byte _)) _ => apply safe_rx_byte, slot_byte; [assumption | lia]
  | |- safe (slice_store _ _ _) _ => eapply safe_slice_store; reflexivity
  end.

Lemma safe_poll_loop n : safe (poll_loop n) (fun _ => True).
Proof.
  induction n as [| n IH]; cbn [poll_loop]; [usafe |].
  apply (safe_bind _ _ _ (fun h => 0 <= h < 512)); [apply safe_getu; now intros ? [] | intros rptr Hr].
  usafe. exact IH.
Qed.

Lemma safe_poll evs max_evs : safe (sfc7120_poll evs max_evs) (fun _ => True).
Proof. unfold sfc7120_poll. usafe. apply safe_poll_loop. Qed.

Lemma safe_slot_plen head rx_bytes : 0 <= head < 512 -> safe (slot_plen head rx_bytes) (fun _ => True).
Proof. intros. unfold slot_plen. usafe. Qed.

(** The length that is read. *)
Lemma wp_slot_plen head rx_bytes (Q : Z -> uworld -> Prop) s :
  0 <= head < 512 ->
  Q (frame_len (rx_mem (w_dma (synced (u_w s)))) head rx_bytes) (s <| u_w := synced (u_w s) |>) ->
  wp (slot_plen head rx_bytes) Q s.
Proof.
  intros Hh HQ. apply wp_bind, wp_shared, wp_synced.
  do 2 (apply wp_bind, wp_shared, wp_rx_byte; [now apply slot_byte |]). apply wp_ret. exact HQ.
Qed.

Lemma safe_rx_peek pkt_out rx_bytes : safe (sfc7120_rx_peek pkt_out rx_bytes) (fun _ => True).
Proof. unfold sfc7120_rx_peek. usafe. now apply safe_slot_plen. Qed.

Lemma safe_ring_rx_window : safe ring_rx_window (fun _ => True).
Proof. unfold ring_rx_window. usafe. Qed.

Lemma safe_rx_release : safe sfc7120_rx_release (fun _ => True).
Proof. unfold sfc7120_rx_release. usafe. apply safe_ring_rx_window. Qed.

Lemma safe_rx_release_paddr paddr len cookie : safe (sfc7120_rx_release_paddr paddr len cookie) (fun _ => True).
Proof. unfold sfc7120_rx_release_paddr, set_cookie. usafe. apply safe_ring_rx_window. Qed.

Lemma safe_rx_peek_ext cookie_out rx_bytes : safe (sfc7120_rx_peek_ext cookie_out rx_bytes) (fun _ => True).
Proof. unfold sfc7120_rx_peek_ext. usafe. now apply safe_slot_plen. Qed.

Lemma safe_rx_release_nodbl paddr len cookie :
  safe (sfc7120_rx_release_paddr_nodbl paddr len cookie) (fun _ => True).
Proof. unfold sfc7120_rx_release_paddr_nodbl, set_cookie. usafe. Qed.

Lemma safe_rx_flush : safe sfc7120_rx_flush (fun _ => True).
Proof. unfold sfc7120_rx_flush. usafe. apply safe_ring_rx_window. Qed.

Lemma safe_tx_nodbl paddr len : safe (sfc7120_tx_post_paddr_nodbl paddr len) (fun _ => True).
Proof. unfold sfc7120_tx_post_paddr_nodbl. usafe. Qed.

Lemma safe_tx_flush : safe sfc7120_tx_flush (fun _ => True).
Proof. unfold sfc7120_tx_flush. usafe. Qed.

Lemma safe_tx_push head : 0 <= head < 512 -> safe (tx_push head) (fun _ => True).
Proof. intros. unfold tx_push. cbv zeta. usafe. Qed.

Lemma safe_tx_post_paddr paddr len : safe (sfc7120_tx_post_paddr paddr len) (fun _ => True).
Proof. unfold sfc7120_tx_post_paddr. usafe. now apply safe_tx_push. Qed.

Lemma safe_copy_to_slot buf head len :
  0 <= head < 512 -> len <= 2048 -> len <= ub_len buf -> safe (copy_to_slot buf (tx_slot head) len) (fun _ => True).
Proof.
  intros Hh Hl Hb s [Hif Hw]. unfold copy_to_slot. apply wp_bind, wp_kassert.
  { unfold tx_slot, SFC7120_NUM_TX_DESC, SFC7120_TX_BUFFER_SIZE. lia. }
  apply wp_shared, wp_mod_dma. split; [done |]. split; [| now apply confined_refl].
  split; [done |]. destruct Hw. now split.
Qed.

Lemma safe_tx_post buf len : len <= ub_len buf -> safe (sfc7120_tx_post (Some buf) len) (fun _ => True).
Proof.
  intros Hl. unfold sfc7120_tx_post, bad_tx_len, SFC7120_TX_BUFFER_SIZE. usafe;
    [apply safe_copy_to_slot; lia | now apply safe_tx_push].
Qed.

(** Whatever the length, a transmit that returns has kept its confinement: it
    was refused, or the bytes were there. *)
Lemma tx_post_any buf len : forall s, u_ok s ->
  wpf (sfc7120_tx_post (Some buf) len) (fun _ s' => u_ok s' /\ confined s s') (ub_len buf < len) s.
Proof.
  intros s Hs. destruct (Z.le_gt_cases len (ub_len buf)) as [Hl | Hl].
  { apply wpf_wp. eapply wp_mono; [exact (safe_tx_post buf len Hl s Hs) |]. intros a s' (_ & H). exact H. }
  unfold sfc7120_tx_post. apply wpf_bind_wp, wp_getu.
  destruct (_ || _); [apply wpf_wp, wp_ret; split; [done | now apply confined_refl] |].
  apply wpf_bind_wp, wp_modu, wpf_bind_wp, wp_getu. unfold copy_to_slot. apply wpf_bind, wpf_bind, wpf_kassert; lia.
Qed.

(** A receive faults only when the frame does not fit the caller's buffer or
    leaves the receive buffer. *)
Definition recv_faults (room rx_bytes : Z) s : Prop :=
  let head := ui_rx_head (u_if s) in
  let plen := frame_len (rx_mem (w_dma (synced (u_w s)))) head rx_bytes in
  room < plen \/ RX_MEM_SIZE < rx_slot head + SFC7120_EF10_RX_PREFIX_LEN + plen.

Definition safe_outcome s (s' : uworld) : Prop := u_ok s' /\ confined s s'.

Lemma safe_outcome_of {A} (m : ST uworld A) s0 s :
  safe m (fun _ => True) -> u_ok s -> confined s0 s -> wp m (fun _ s' => safe_outcome s0 s') s.
Proof.
  intros Hm Hs Hc. eapply wp_mono; [exact (Hm s Hs) |]. intros a s' (_ & H1 & H2). split; [done |].
  eapply confined_trans; eassumption.
Qed.

Lemma rx_recv_outcome room rx_bytes s :
  u_ok s -> wpf (sfc7120_rx_recv (Some room) rx_bytes) (fun _ s' => safe_outcome s s') (recv_faults room rx_bytes s) s.
Proof.
  intros [Hi Hw]. pose proof (io_rx _ Hi) as Hh. unfold sfc7120_rx_recv, recv_faults. apply wpf_bind_wp, wp_getu.
  destruct (negb _); [apply wpf_wp, wp_ret; split; [done | now apply confined_refl] |].
  apply wpf_bind_wp, wp_modu, wpf_bind_wp, wp_getu. cbn [u_if upd ui_rx_head].
  set (head := ui_rx_head (u_if s)) in *. apply wpf_bind_wp, wp_slot_plen; [done |]. cbn [u_w upd].
  cbv zeta. set (plen := frame_len _ head rx_bytes). pose proof (slot_byte head 14 Hh ltac:(lia)) as H14.
  change SFC7120_EF10_RX_PREFIX_LEN with 14 in *.
  apply wpf_bind, wpf_kassert; intros Hroom; [| lia]. apply wpf_bind. unfold shared at 1, rx_load, wpf at 1, bind at 1, kassert.
  destruct ((0 <=? rx_slot head + 14) && _) eqn:Hfit; [| lia]. cbn. apply wpf_wp.
  match goal with |- wp _ _ ?s0 => set (s1 := s0) end.
  apply safe_outcome_of; [usafe | |].
  - split; [destruct Hi; now split | exact (synced_wf (u_w s) Hw)].
  - now apply confined_refl.
Qed.

(** The operations of the library. *)
Inductive user_op :=
  | UPoll (evs : bool) (max_evs : Z)
  | URxPeek (pkt_out : bool) (rx_bytes : Z)
  | URxRelease
  | URxReleasePaddr (paddr len : Z) (cookie : option Z)
  | URxPeekExt (cookie_out : bool) (rx_bytes : Z)
  | URxReleasePaddrNodbl (paddr len : Z) (cookie : option Z)
  | URxFlush
  | URxRecv (buf : option Z) (rx_bytes : Z)
  | UTxPostPaddrNodbl (paddr len : Z)
  | UTxFlush
  | UTxPostPaddr (paddr len : Z)
  | UTxPost (buf : option user_buf) (len : Z).

Definition run_user_op (op : user_op) : ST uworld unit :=
  match op with
  | UPoll evs n => do* sfc7120_poll evs n; ret tt
  | URxPeek b n => do* sfc7120_rx_peek b n; ret tt
  | URxRelease => do* sfc7120_rx_release; ret tt
  | URxReleasePaddr p n c => do* sfc7120_rx_release_paddr p n c; ret tt
  | URxPeekExt b n => do* sfc7120_rx_peek_ext b n; ret tt
  | URxReleasePaddrNodbl p n c => do* sfc7120_rx_release_paddr_nodbl p n c; ret tt
  | URxFlush => sfc7120_rx_flush
  | URxRecv b n => do* sfc7120_rx_recv b n; ret tt
  | UTxPostPaddrNodbl p n => do* sfc7120_tx_post_paddr_nodbl p n; ret tt
  | UTxFlush => sfc7120_tx_flush
  | UTxPostPaddr p n => do* sfc7120_tx_post_paddr p n; ret tt
  | UTxPost b n => do* sfc7120_tx_post b n; ret tt
  end.

Fixpoint run_user_ops (ops : list user_op) : ST uworld unit :=
  match ops with
  | [] => ret tt
  | op :: ops' => do* run_user_op op; run_user_ops ops'
  end.

(** The operations that can fault in a state: one that copies more bytes than
    the buffer of the caller has, and a receive as above. *)
Definition op_faults (op : user_op) s : Prop :=
  match op with
  | UTxPost (Some b) n => ub_len b < n
  | URxRecv (Some room) n => recv_faults room n s
  | _ => False
  end.

Lemma user_op_outcome op s :
  u_ok s -> wpf (run_user_op op) (fun _ s' => safe_outcome s s') (op_faults op s) s.
Proof.
  intros Hs. assert (safe (run_user_op op) (fun _ => True) ->
    wpf (run_user_op op) (fun _ s' => safe_outcome s s') (op_faults op s) s) as Hsafe.
  { intros H. apply wpf_wp, safe_outcome_of; [done | done | now apply confined_refl]. }
  destruct op as [| | | | | | | buf n | | | | buf n]; cbn [run_user_op op_faults].
  8: { destruct buf as [room |]; [| now apply wpf_wp, safe_outcome_of; [unfold sfc7120_rx_recv; usafe | | apply confined_refl]].
       apply wpf_bind. eapply wpf_mono; [now apply rx_recv_outcome | | done]. intros a s' H. exact H. }
  11: { destruct buf as [b |]; [| now apply wpf_wp, safe_outcome_of; [unfold sfc7120_tx_post; usafe | | apply confined_refl]].
        apply wpf_bind. eapply wpf_mono; [now apply tx_post_any | | done]. intros a s' H. exact H. }
  all: apply Hsafe; cbn [run_user_op]; usafe;
    auto using safe_poll, safe_rx_peek, safe_rx_release, safe_rx_release_paddr, safe_rx_peek_ext,
      safe_rx_release_nodbl, safe_rx_flush, safe_tx_nodbl, safe_tx_flush, safe_tx_post_paddr.
Qed.

Lemma user_ops_outcome ops : forall s0 s, u_ok s -> confined s0 s ->
  wpf (run_user_ops ops) (fun _ s' => safe_outcome s0 s')
    (exists pre op post s1, ops = pre ++ op :: post /\ run_user_ops pre s = Some (tt, s1) /\
       safe_outcome s0 s1 /\ op_faults op s1) s.
Proof.
  induction ops as [| op ops IH]; intros s0 s Hs Hc; cbn [run_user_ops]; [now apply wpf_wp, wp_ret |].
  pose proof (user_op_outcome op s Hs) as Hop. unfold wpf in Hop. unfold wpf, bind at 1.
  destruct (run_user_op op s) as [[[] s1] |] eqn:E.
  - destruct Hop as [Hs1 Hc1]. pose proof (confined_trans _ _ _ Hc Hc1) as Hc'.
    specialize (IH s0 s1 Hs1 Hc'). unfold wpf in IH. destruct (run_user_ops ops s1) as [[u s'] |]; [done |].
    destruct IH as (pre & op' & post & s2 & -> & Hr & ? & ?). exists (op :: pre), op', post, s2.
    split; [done |]. split; [| done]. cbn [run_user_ops]. unfold bind. now rewrite E.
  - now exists [], op, ops, s.
Qed.

(** C5. What a process can do with the library: any sequence of its
    operations, with the NIC doing anything meanwhile, keeps the three ring
    indices inside their rings, leaves the kernel's state alone, and writes only
    registers the slice manifest grants; so never the MC doorbell pair, the MC
    status word or the control queue's read pointer.  A capability fault stops
    the sequence, after such a run, only at a [sfc7120_tx_post] of more bytes
    than the caller's buffer has, or at a [sfc7120_rx_recv] of a frame that is
    longer than the caller's buffer or that the NIC reports as reaching beyond
    the receive buffer. *)
Theorem user_ops_confined ops s :
  if_ok (u_if s) -> w_wf (u_w s) ->
  let kept s' := if_ok (u_if s') /\ w_wf (u_w s') /\ w_sc (u_w s') = w_sc (u_w s) /\
    exists l, w_log (u_w s') = w_log (u_w s) ++ l /\
      Forall (fun e => user_writable (fst e) = true /\ ~ kernel_only (fst e)) l in
  match run_user_ops ops s with
  | Some (_, s') => kept s'
  | None => exists pre op post s1, ops = pre ++ op :: post /\
      run_user_ops pre s = Some (tt, s1) /\ kept s1 /\ op_faults op s1
  end.
Proof.
  intros Hi Hw kept. assert (forall s', safe_outcome s s' -> kept s') as Hkept.
  { intros s' [[Hi' Hw'] [Hsc (l & Hl & F)]]. do 3 (split; [assumption |]). exists l. split; [done |].
    eapply Forall_impl; [| exact F]. intros e He. split; [done |]. now apply user_writable_not_kernel. }
  pose proof (user_ops_outcome ops s s (conj Hi Hw) (confined_refl s s eq_refl eq_refl)) as H. unfold wpf in H.
  destruct (run_user_ops ops s) as [[u s'] |]; [now apply Hkept |].
  destruct H as (pre & op & post & s1 & ? & ? & ? & ?). exists pre, op, post, s1. auto.
Qed.
End rules.

(** ** The event queue as a FIFO

    The NIC posts event words at its write pointer, and only into slots it has
    been given back; it never takes one away.  [fifo x rptr q]: read from
    [rptr], the ring holds the events [q] and then only empty slots, up to the
    NIC's write pointer. *)

Class EvqProducer (D : Type) `{!Device D} := {
  ev_wptr : D -> Z;
}.

Record fifo {D} `{EvqProducer D} (x : D * dma) (rptr : Z) (q : list Z) : Prop := {
  ff_range : 0 <= rptr < 512;
  ff_len : (length q <= 512)%nat;
  ff_wptr : ev_wptr (fst x) = (rptr + Z.of_nat (length q)) mod 512;
  ff_nonempty : Forall (fun ev => ev_empty ev = false) q;
  ff_slots : forall k : nat, (k < 512)%nat ->
    match q !! k with
    | Some ev => arr_get (data_evq (snd x)) ((rptr + Z.of_nat k) mod 512) = ev
    | None => ev_empty (arr_get (data_evq (snd x)) ((rptr + Z.of_nat k) mod 512)) = true
    end;
}.

(** The device only appends. *)
Class EvqProducerLaws (D : Type) `{EvqProducer D} := {
  sync_posts : forall x rptr q, dma_wf (snd x) -> fifo x rptr q ->
    exists posted, fifo (dev_sync x) rptr (q ++ posted);
  write_posts : forall r v x rptr q, dma_wf (snd x) -> fifo x rptr q ->
    exists posted, fifo (dev_write r v x) rptr (q ++ posted);
}.

Section poll_fifo.
Context {cap D : Type} `{!Device D} `{!DeviceLaws D} `{!EvqProducer D} `{!EvqProducerLaws D}.
Abbreviation uworld := (uworld cap D).
Implicit Types (s : uworld).

Definition dev_of s : D * dma := (w_dev (u_w s), w_dma (u_w s)).

Lemma ring_shift (rptr : Z) (k : nat) :
  ((rptr + 1) mod 512 + Z.of_nat k) mod 512 = (rptr + Z.of_nat (S k)) mod 512.
Proof. rewrite Zplus_mod_idemp_l. f_equal. lia. Qed.

Lemma fifo_front x rptr q :
  fifo x rptr q ->
  match q with
  | ev :: _ => arr_get (data_evq (snd x)) rptr = ev /\ ev_empty ev = false
  | [] => ev_empty (arr_get (data_evq (snd x)) rptr) = true
  end.
Proof.
  intros [Hr _ _ Hne Hs]. specialize (Hs 0%nat ltac:(lia)).
  rewrite Z.add_0_r, Z.mod_small in Hs by lia. destruct q as [| ev q]; [exact Hs |].
  split; [exact Hs |]. now inversion Hne.
Qed.

Lemma fifo_pop d m rptr ev q :
  dma_wf m -> fifo (d, m) rptr (ev :: q) ->
  fifo (d, upd_data_evq (fun r => arr_set r rptr 0) m) ((rptr + 1) mod 512) q.
Proof.
  intros Hm [Hr Hl Hw Hne Hs]. cbn [fst snd length] in *. split; cbn [fst snd].
  - apply Z.mod_pos_bound. lia.
  - lia.
  - rewrite Hw, ring_shift. reflexivity.
  - now inversion Hne.
  - intros k Hk. rewrite ring_shift. destruct (decide (S k < 512)%nat) as [Hk' |].
    + specialize (Hs (S k) Hk'). cbn in Hs. unfold upd_data_evq. cbn [data_evq upd].
      rewrite arr_get_set_ne; [exact Hs | lia | apply Z.mod_pos_bound; lia |].
      intros E. rewrite <- (Z.mod_small rptr 512) in E at 1 by lia.
      apply (f_equal (fun z => (z - rptr) mod 512)) in E. rewrite Zminus_mod_idemp_l in E.
      rewrite Z.sub_diag in E. rewrite Zminus_mod_idemp_l in E.
      replace (rptr + Z.of_nat (S k) - rptr) with (Z.of_nat (S k)) in E by lia.
      rewrite !Z.mod_small in E by lia. lia.
    + replace (q !! k) with (@None Z) by (symmetry; apply lookup_ge_None_2; lia).
      replace (rptr + Z.of_nat (S k)) with (rptr + 1 * 512) by lia.
      rewrite Z.mod_add, Z.mod_small by lia. unfold upd_data_evq. cbn [data_evq upd].
      rewrite arr_get_set_eq; [reflexivity |]. destruct Hm as [_ [_ He] _ _]. rewrite He. lia.
Qed.

Lemma raw_decode (ev : Z) : ue_raw (decode_ev ev) = ev.
Proof. unfold decode_ev. now repeat destruct (_ =? _). Qed.

(** What a poll leaves alone. *)
Record poll_frame s s' : Prop := {
  pf_sc : w_sc (u_w s') = w_sc (u_w s);
  pf_if : u_if s' = (u_if s) <| ui_evq_read_ptr := ui_evq_read_ptr (u_if s') |>;
}.

Lemma poll_loop_fifo n : forall s q,
  fifo (dev_of s) (ui_evq_read_ptr (u_if s)) q -> w_wf (u_w s) ->
  wp (poll_loop n) (fun l s' => exists posted rest,
    q ++ posted = map ue_raw l ++ rest /\ l = map decode_ev (map ue_raw l) /\
    (length l = n \/ rest = []) /\ (length l <= n)%nat /\
    fifo (dev_of s') (ui_evq_read_ptr (u_if s')) rest /\
    ui_evq_read_ptr (u_if s') = (ui_evq_read_ptr (u_if s) + Z.of_nat (length l)) mod 512 /\
    w_wf (u_w s') /\ w_log (u_w s') = w_log (u_w s) /\ poll_frame s s') s.
Proof.
  induction n as [| n IH]; intros s q Hq Hw; cbn [poll_loop].
  - apply wp_ret. exists [], q. rewrite app_nil_r. cbn. rewrite Z.add_0_r, Z.mod_small by apply Hq.
    do 8 (split; [auto |]). destruct s as [[] ?]. now split.
  - apply wp_bind, wp_getu, wp_bind, wp_shared. set (rptr := ui_evq_read_ptr (u_if s)) in *.
    destruct (sync_posts (dev_of s) _ _ Hw Hq) as [p1 Hq1]. unfold sync_postread, dev_step. apply wp_modify.
    pose proof (dev_sync_wf (w_dev (u_w s), w_dma (u_w s)) Hw) as Hw1. unfold dev_of in Hq1.
    destruct (dev_sync (w_dev (u_w s), w_dma (u_w s))) as [d m]. cbn [fst snd] in Hq1, Hw1.
    apply wp_bind, wp_shared, wp_ring_load; [apply Hq |]. cbn [u_w w_dma upd].
    pose proof (fifo_front _ _ _ Hq1) as Hf. cbn [snd] in Hf. destruct (q ++ p1) as [| ev q1] eqn:E1.
    + rewrite Hf. apply wp_ret. exists p1, []. cbn. rewrite E1, Z.add_0_r, Z.mod_small by apply Hq.
      split; [done |]. split; [done |]. split; [now right |]. split; [lia |]. split; [exact Hq1 |].
      do 3 (split; [done |]). destruct s as [[] ?]. now split.
    + destruct Hf as [-> He]. rewrite He. apply wp_bind, wp_shared, wp_ring_store; [apply Hq |].
      apply wp_bind, wp_modu. apply wp_bind. pose proof (fifo_pop _ _ _ _ _ Hw1 Hq1) as Hp.
      assert (next_slot rptr = (rptr + 1) mod 512) as En by (apply next_slot_mod; pose proof (ff_range _ _ _ Hq); lia).
      rewrite <- En in Hp.
      eapply wp_mono; [apply (IH _ q1); [exact Hp | now apply arr_set_wf_data] |].
      intros l s' (p2 & rest & Ha & Hd & Hor & Hle & Hf' & Hr & Hw' & Hl & [Hsc Hif]). apply wp_ret.
      exists (p1 ++ p2), rest. rewrite app_assoc, E1. cbn. rewrite raw_decode, Ha, <- Hd.
      split; [done |]. split; [done |].
      split; [destruct Hor; auto |]. split; [lia |]. split; [exact Hf' |].
      split; [rewrite Hr; cbn; rewrite En; apply ring_shift |].
      do 2 (split; [done |]). split; [done |]. rewrite Hif. now destruct s as [[] ?].
Qed.

Lemma ack_value (p : Z) : 0 <= p < 512 -> u32 (Z.land p SFC7120_EVQ_RPTR_MASK) = p.
Proof.
  intros. unfold SFC7120_EVQ_RPTR_MASK, u32. rewrite land_0x7fff, !Z.mod_small; rewrite ?Z.mod_small; lia.
Qed.

(** C26. The event queue is a FIFO that loses nothing: with events [q] waiting,
    a poll for [max_evs] events, while the NIC posts more, reports a prefix of
    what was waiting and posted, in order and each decoded once; the rest stays
    in the ring.  Everything that was waiting is reported unless [max_evs] was
    reached.  The read pointer advances by the number of events, which one
    doorbell write acknowledges; with nothing to report none is made. *)
Theorem poll_fifo max_evs q s :
  fifo (dev_of s) (ui_evq_read_ptr (u_if s)) q -> w_wf (u_w s) -> 0 < max_evs ->
  ui_evq_ring (u_if s) = true -> has_slice SFC7120_SLICE_DATA_EVQ_RPTR_DBL (u_if s) = true ->
  wp (sfc7120_poll true max_evs) (fun r s' => exists posted rest,
    q ++ posted = map ue_raw (snd r) ++ rest /\ snd r = map decode_ev (map ue_raw (snd r)) /\
    fst r = Z.of_nat (length (snd r)) /\ fst r <= max_evs /\
    (fst r < max_evs -> (length q <= length (snd r))%nat) /\
    let rptr' := (ui_evq_read_ptr (u_if s) + fst r) mod 512 in
    fifo (dev_of s') rptr' rest /\
    u_if s' = (u_if s) <| ui_used_poll := true |> <| ui_evq_read_ptr := rptr' |> /\
    w_sc (u_w s') = w_sc (u_w s) /\
    w_log (u_w s') = w_log (u_w s) ++
      (if 0 <? fst r then [(SFC7120_REG_DATA_EVQ_RPTR_DBL, rptr')] else [])) s.
Proof.
  intros Hq Hw Hm Hring Hsl. unfold sfc7120_poll. replace (max_evs <=? 0) with false by lia. cbn [negb orb].
  apply wp_bind, wp_getu. rewrite Hring, Hsl. cbn [negb andb]. apply wp_bind, wp_modu. apply wp_bind.
  eapply wp_mono; [apply (poll_loop_fifo _ _ q); [exact Hq | exact Hw] |].
  intros l s1 (posted & rest & Ha & Hd & Hor & Hle & Hf & Hr & Hw1 & Hl & [Hsc Hif]). cbn in Hr, Hsc, Hl.
  assert (u_if s1 = (u_if s) <| ui_used_poll := true |> <| ui_evq_read_ptr := ui_evq_read_ptr (u_if s1) |>) as Hif1
    by (rewrite Hif; now destruct s as [[] ?]). clear Hif.
  assert (Z.of_nat (length l) < max_evs -> (length q <= length l)%nat) as Hall.
  { intros Hlt. destruct Hor as [| ->]; [lia |]. apply (f_equal length) in Ha.
    rewrite !length_app, length_map in Ha. cbn in Ha. lia. }
  apply wp_bind. destruct (Z.ltb_spec 0 (Z.of_nat (length l))) as [Hpos |].
  - apply wp_bind, wp_getu. apply (wp_slice_store _ _ _ _ _ _ evq_slice_reg Hw1).
    intros w Hscw Hlw Hww Hdw. apply wp_ret. destruct (write_posts SFC7120_REG_DATA_EVQ_RPTR_DBL
      (u32 (Z.land (ui_evq_read_ptr (u_if s1)) SFC7120_EVQ_RPTR_MASK)) (dev_of s1) _ _ Hw1 Hf) as [p2 Hf2].
    exists (posted ++ p2), (rest ++ p2). cbn [fst snd]. rewrite !app_assoc, Ha.
    do 3 (split; [done |]). split; [lia |]. split; [done |]. rewrite <- Hr.
    split; [unfold dev_of; cbn [u_w upd]; rewrite Hdw; exact Hf2 |]. split; [exact Hif1 |].
    split; [cbn; congruence |]. cbn. rewrite Hlw, Hl, ack_value; [now replace (0 <? _) with true by lia |].
    rewrite Hr. apply Z.mod_pos_bound. lia.
  - apply wp_ret, wp_ret. exists posted, rest. cbn [fst snd]. do 3 (split; [done |]). split; [lia |]. split; [done |].
    rewrite <- Hr. split; [exact Hf |]. split; [exact Hif1 |]. split; [done |].
    replace (0 <? _) with false by lia. now rewrite app_nil_r.
Qed.
End poll_fifo.

(** ** Transmit *)

Section user_tx.
Context {cap D : Type} `{!Device D} `{!DeviceLaws D}.
Abbreviation uworld := (uworld cap D).
Implicit Types (s : uworld).

Definition tx_ready s : Prop :=
  ui_tx_desc_ring (u_if s) = true /\ has_slice SFC7120_SLICE_TX_DESC_DBL (u_if s) = true.

(** The three doorbell writes that push descriptor [d] with write pointer [wptr]. *)
Definition push_desc (d wptr : Z) (x : D * dma) : D * dma :=
  dev_write SFC7120_REG_DATA_TX_WPTR_DBL wptr
    (dev_write (SFC7120_REG_DATA_TX_DESC_DBL + 4) (d / 2 ^ 32)
       (dev_write SFC7120_REG_DATA_TX_DESC_DBL (d mod 2 ^ 32) x)).

Lemma tx_push_spec head s :
  w_wf (u_w s) -> 0 <= head < 512 -> let d := arr_get (tx_ring (w_dma (u_w s))) head in 0 <= d < 2 ^ 64 ->
  wp (tx_push head) (fun _ s' =>
    u_if s' = (u_if s) <| ui_tx_head := (head + 1) mod 512 |> /\ w_sc (u_w s') = w_sc (u_w s) /\
    w_wf (u_w s') /\
    w_log (u_w s') = w_log (u_w s) ++ [(SFC7120_REG_DATA_TX_DESC_DBL, d mod 2 ^ 32);
      (SFC7120_REG_DATA_TX_DESC_DBL + 4, d / 2 ^ 32); (SFC7120_REG_DATA_TX_WPTR_DBL, (head + 1) mod 512)] /\
    (w_dev (u_w s'), w_dma (u_w s')) = push_desc d ((head + 1) mod 512) (w_dev (u_w s), w_dma (u_w s))) s.
Proof.
  intros Hw Hh d Hd. unfold tx_push. cbv zeta. rewrite next_slot_mod by lia.
  apply wp_bind, wp_shared, wp_ring_load; [done |]. fold d.
  assert (u32 (Z.land d 0xffffffff) = d mod 2 ^ 32) as E0.
  { rewrite land_0xffffffff. change 4294967296 with (2 ^ 32). unfold u32. apply Z.mod_mod. lia. }
  assert (u32 (Z.shiftr d 32) = d / 2 ^ 32) as E1.
  { rewrite Z.shiftr_div_pow2 by lia. unfold u32. apply Z.mod_small. split; [apply Z.div_pos; lia |].
    apply Z.div_lt_upper_bound; lia. }
  assert (u32 ((head + 1) mod 512) = (head + 1) mod 512) as E2.
  { unfold u32. apply Z.mod_small. pose proof (Z.mod_pos_bound (head + 1) 512). lia. }
  apply wp_bind, (wp_slice_store _ _ _ _ _ _ (tx_slice_reg 0 ltac:(lia))); [done |]. intros w0 Hs0 Hl0 Hw0 Hd0.
  apply wp_bind, (wp_slice_store _ _ _ _ _ _ (tx_slice_reg 1 ltac:(lia))); [done |]. intros w1 Hs1 Hl1 Hw1 Hd1.
  apply wp_bind, (wp_slice_store _ _ _ _ _ _ (tx_slice_reg 2 ltac:(lia))); [done |]. intros w2 Hs2 Hl2 Hw2 Hd2.
  apply wp_modu. cbn in *. rewrite E0, E1, E2 in *.
  change (SFC7120_REG_DATA_TX_DESC_DBL + 4 * 0) with SFC7120_REG_DATA_TX_DESC_DBL in *.
  change (SFC7120_REG_DATA_TX_DESC_DBL + 4 * 1) with (SFC7120_REG_DATA_TX_DESC_DBL + 4) in *.
  change (SFC7120_REG_DATA_TX_DESC_DBL + 4 * 2) with SFC7120_REG_DATA_TX_WPTR_DBL in *.
  split; [done |]. split; [congruence |]. split; [done |].
  split; [now rewrite Hl2, Hl1, Hl0, <- !app_assoc |]. unfold push_desc. rewrite Hd2, Hd1, Hd0. done.
Qed.

(** C28. The direct transmit is the kernel's: for the same packet, head and
    buffer address, [sfc7120_tx_post] leaves in shared memory exactly what the
    TX ioctl leaves there when it rings the doorbell, and rings it with the
    same write pointer; the only difference is that it first pushes the
    descriptor itself, as the two dwords of the word in the ring. *)
Theorem tx_post_matches_kernel buf len status s :
  let w := u_w s in
  let req := TxReq buf len status in
  let head := tx_head (sc_rings (w_sc w)) in
  w_wf w -> rings_ok (sc_rings (w_sc w)) -> tx_check req = 0 -> ub_fault buf = None ->
  ui_tx_head (u_if s) = head -> vi_tx_buffer_paddr (ui_vi_info (u_if s)) = tx_base w ->
  ui_tx_buffer (u_if s) = true -> tx_ready s ->
  exists m, let d := arr_get (tx_ring m) head in
    wp (tx_post req) (fun r w' => r = inr head /\
      (w_dev w', w_dma w') = dev_write SFC7120_REG_DATA_TX_WPTR_DBL ((head + 1) mod 512) (w_dev w, m)) w /\
    wp (sfc7120_tx_post (Some buf) len) (fun r s' => r = 0 /\
      u_if s' = (u_if s) <| ui_used_poll := true |> <| ui_tx_head := (head + 1) mod 512 |> /\
      w_sc (u_w s') = w_sc w /\
      (w_dev (u_w s'), w_dma (u_w s')) = push_desc d ((head + 1) mod 512) (w_dev w, m)) s.
Proof.
  intros w req head Hw Hr Hc Hf Hh Hb Htx [Hring Hsl]. pose proof (ro_tx _ Hr) as Hrange. fold head in Hrange.
  destruct (tx_check_ok req Hc) as (_ & _ & Hn0 & Hn & Hlen). cbn [tx_length tx_buf_addr req] in Hn0, Hn, Hlen.
  assert (dma_wf (tx_posted_dma req len head (tx_base w) (w_dma w))) as Hwf.
  { apply arr_set_wf_tx. destruct Hw as [? ? ? ?]. now split. }
  exists (tx_posted_dma req len head (tx_base w) (w_dma w)). split.
  - eapply wp_mono; [apply (tx_post_spec req w Hc Hw Hr) |]. intros [e | i] w' H; cbv beta in H.
    + destruct H as (_ & [n Hfn] & _). cbn in Hfn. congruence.
    + destruct H as (-> & _ & _ & _ & _ & _ & _ & _ & n & En & Hdev). rewrite (En Hf) in Hdev. auto.
  - unfold sfc7120_tx_post. apply wp_bind, wp_getu. rewrite Htx, Hring, Hsl.
    replace (bad_tx_len len) with false by (unfold bad_tx_len, SFC7120_TX_BUFFER_SIZE; lia). cbn [negb andb orb].
    apply wp_bind, wp_modu, wp_bind, wp_getu. cbn [u_if upd ui_tx_head]. rewrite Hh.
    apply wp_bind. unfold copy_to_slot. apply wp_bind, wp_kassert.
    { unfold tx_slot, SFC7120_NUM_TX_DESC, SFC7120_TX_BUFFER_SIZE. lia. }
    apply wp_shared, wp_mod_dma, wp_bind, wp_getu. cbn [u_if upd ui_vi_info]. rewrite Hb.
    apply wp_bind, wp_shared, wp_ring_store; [done |]. apply wp_bind.
    eapply wp_mono; [apply (tx_push_spec head); [exact Hwf | done |] |].
    + change (0 <= arr_get (arr_set (tx_ring (w_dma w)) head (ef10_desc len (u64 (tx_base w + tx_slot head)))) head < 2 ^ 64).
      rewrite arr_get_set_eq by (destruct Hw as [_ _ [-> _] _]; lia).
      pose proof (ef10_desc_bound len (u64 (tx_base w + tx_slot head))). lia.
    + intros ? s' (Hif & Hsc & _ & _ & Hdev). apply wp_ret. auto.
Qed.

(** A burst of [(bus address, length)] pairs, batched and one by one. *)
Fixpoint tx_batch (l : list (Z * Z)) : ST uworld unit :=
  match l with
  | [] => sfc7120_tx_flush
  | (paddr, len) :: l' => do* sfc7120_tx_post_paddr_nodbl paddr len; tx_batch l'
  end.

Fixpoint tx_each (l : list (Z * Z)) : ST uworld unit :=
  match l with
  | [] => ret tt
  | (paddr, len) :: l' => do* sfc7120_tx_post_paddr paddr len; tx_each l'
  end.

(** The ring and the head after the burst: a bad length is skipped. *)
Fixpoint posted_ring (l : list (Z * Z)) (ring : list Z) (head : Z) : list Z * Z :=
  match l with
  | [] => (ring, head)
  | (paddr, len) :: l' =>
      if bad_tx_len len then posted_ring l' ring head
      else posted_ring l' (arr_set ring head (ef10_desc len paddr)) ((head + 1) mod 512)
  end.

Definition tx_state s : list Z * Z := (tx_ring (w_dma (u_w s)), ui_tx_head (u_if s)).

Definition good_count (l : list (Z * Z)) : nat := length (List.filter (fun e => negb (bad_tx_len (snd e))) l).

Lemma tx_batch_spec l : forall s,
  w_wf (u_w s) -> 0 <= ui_tx_head (u_if s) < 512 -> tx_ready s ->
  (forall r v (x : D * dma), tx_ring (snd (dev_write r v x)) = tx_ring (snd x)) ->
  let final := posted_ring l (tx_ring (w_dma (u_w s))) (ui_tx_head (u_if s)) in
  wp (tx_batch l) (fun _ s' => tx_state s' = final /\
    w_log (u_w s') = w_log (u_w s) ++ [(SFC7120_REG_DATA_TX_WPTR_DBL, snd final)]) s.
Proof.
  induction l as [| [paddr len] l IH]; intros s Hw Hh [Hring Hsl] Hnic; cbn [tx_batch posted_ring].
  - unfold sfc7120_tx_flush. apply wp_bind, wp_getu. rewrite Hsl. cbn [negb]. apply wp_bind, wp_getu.
    apply (wp_slice_store _ _ _ _ _ _ (tx_slice_reg 2 ltac:(lia)) Hw). intros w Hsc Hl Hww Hd.
    change (SFC7120_REG_DATA_TX_DESC_DBL + 4 * 2) with SFC7120_REG_DATA_TX_WPTR_DBL in *.
    unfold tx_state. cbn. replace (w_dma w) with (snd (w_dev w, w_dma w)) by done. rewrite Hd, Hnic. cbn [snd].
    split; [done |]. rewrite Hl. unfold u32. now rewrite Z.mod_small by lia.
  - unfold sfc7120_tx_post_paddr_nodbl. apply wp_bind, wp_bind, wp_getu. rewrite Hring. cbn [negb orb].
    destruct (bad_tx_len len); [apply wp_ret; now apply IH |].
    apply wp_bind, wp_getu, wp_bind, wp_shared, wp_ring_store; [done |]. apply wp_bind, wp_modu, wp_ret.
    rewrite next_slot_mod by lia. eapply wp_mono; [apply IH |].
    + now apply arr_set_wf_tx.
    + cbn. apply Z.mod_pos_bound. lia.
    + now split.
    + exact Hnic.
    + intros ? s' H. exact H.
Qed.

Lemma posted_ring_none l : forall ring head, good_count l = 0%nat -> posted_ring l ring head = (ring, head).
Proof.
  induction l as [| [paddr len] l IH]; intros ring head; unfold good_count; cbn [List.filter snd posted_ring]; [done |].
  destruct (bad_tx_len len); [apply IH | done].
Qed.

Lemma tx_each_spec l : forall s,
  w_wf (u_w s) -> 0 <= ui_tx_head (u_if s) < 512 -> tx_ready s ->
  (forall r v (x : D * dma), tx_ring (snd (dev_write r v x)) = tx_ring (snd x)) ->
  let final := posted_ring l (tx_ring (w_dma (u_w s))) (ui_tx_head (u_if s)) in
  wp (tx_each l) (fun _ s' => tx_state s' = final /\
    (good_count l <> 0%nat ->
       exists l0, w_log (u_w s') = l0 ++ [(SFC7120_REG_DATA_TX_WPTR_DBL, snd final)]) /\
    (good_count l = 0%nat -> w_log (u_w s') = w_log (u_w s)) /\
    length (w_log (u_w s')) = (length (w_log (u_w s)) + 3 * good_count l)%nat) s.
Proof.
  induction l as [| [paddr len] l IH]; intros s Hw Hh [Hring Hsl] Hnic; cbn [tx_each posted_ring].
  - apply wp_ret. split; [done |]. unfold good_count. cbn. split; [done |]. split; [done | lia].
  - unfold sfc7120_tx_post_paddr. apply wp_bind, wp_bind, wp_getu. rewrite Hring, Hsl. cbn [negb andb orb].
    unfold good_count. cbn [List.filter snd].
    destruct (bad_tx_len len); cbn [negb]; [apply wp_ret; now apply IH |].
    apply wp_bind, wp_modu, wp_bind, wp_getu, wp_bind, wp_shared, wp_ring_store; [done |]. apply wp_bind.
    assert (length (tx_ring (w_dma (u_w s))) = 512%nat) as Hlen by (now destruct Hw as [_ _ [? _] _]).
    eapply wp_mono; [apply (tx_push_spec (ui_tx_head (u_if s))); [now apply arr_set_wf_tx | done |] |].
    { change (0 <= arr_get (arr_set (tx_ring (w_dma (u_w s))) (ui_tx_head (u_if s)) (ef10_desc len paddr)) (ui_tx_head (u_if s)) < 2 ^ 64).
      rewrite arr_get_set_eq by lia. pose proof (ef10_desc_bound len paddr). lia. }
    intros ? s1 (Hif & Hsc & Hw1 & Hl & Hdev). apply wp_ret.
    assert (tx_ring (w_dma (u_w s1)) = arr_set (tx_ring (w_dma (u_w s))) (ui_tx_head (u_if s)) (ef10_desc len paddr)) as Hr1.
    { replace (w_dma (u_w s1)) with (snd (w_dev (u_w s1), w_dma (u_w s1))) by done. rewrite Hdev.
      unfold push_desc. now rewrite !Hnic. }
    assert (ui_tx_head (u_if s1) = (ui_tx_head (u_if s) + 1) mod 512) as Hh1 by (now rewrite Hif).
    rewrite <- Hr1, <- Hh1. eapply wp_mono; [apply IH |].
    + done.
    + rewrite Hh1. apply Z.mod_pos_bound. lia.
    + unfold tx_ready. rewrite Hif. now split.
    + exact Hnic.
    + intros ? s' (H1 & H2 & H3 & H4). fold (good_count l) in *. cbn [length].
      split; [done |]. split.
      * intros _. destruct (good_count l) eqn:E; [| now apply H2]. rewrite (H3 eq_refl), Hl.
        rewrite (posted_ring_none l) by done. cbn [snd]. rewrite Hh1. eexists (_ ++ [_; _]).
        rewrite <- app_assoc. reflexivity.
      * split; [done |]. rewrite H4, Hl, length_app. cbn [length u_w w_log upd]. unfold good_count. cbn. lia.
Qed.

(** Batching transmits is an optimisation and nothing else: for a NIC
    that only reads the descriptor ring, a burst posted without doorbells and
    flushed once leaves the ring and the head that posting each frame with its
    own doorbells leaves, and its single doorbell carries the same final write
    pointer; it makes one register write where the other makes three per
    frame.  Both skip the same frames, those of a bad length. *)
Theorem tx_batch_equiv l s :
  w_wf (u_w s) -> 0 <= ui_tx_head (u_if s) < 512 -> tx_ready s ->
  (forall r v (x : D * dma), tx_ring (snd (dev_write r v x)) = tx_ring (snd x)) ->
  exists s1 s2, tx_batch l s = Some (tt, s1) /\ tx_each l s = Some (tt, s2) /\
    tx_ring (w_dma (u_w s1)) = tx_ring (w_dma (u_w s2)) /\
    ui_tx_head (u_if s1) = ui_tx_head (u_if s2) /\
    w_log (u_w s1) = w_log (u_w s) ++ [(SFC7120_REG_DATA_TX_WPTR_DBL, ui_tx_head (u_if s2))] /\
    length (w_log (u_w s2)) = (length (w_log (u_w s)) + 3 * good_count l)%nat /\
    (good_count l <> 0%nat ->
       exists l0, w_log (u_w s2) = l0 ++ [(SFC7120_REG_DATA_TX_WPTR_DBL, ui_tx_head (u_if s2))]).
Proof.
  intros Hw Hh Ht Hnic.
  destruct (proj1 (wp_run _ _ _) (tx_batch_spec l s Hw Hh Ht Hnic)) as ([] & s1 & E1 & T1 & L1).
  destruct (proj1 (wp_run _ _ _) (tx_each_spec l s Hw Hh Ht Hnic)) as ([] & s2 & E2 & T2 & L2 & _ & N2).
  exists s1, s2. do 2 (split; [done |]). rewrite <- T2 in T1, L1, L2. cbn [tx_state snd] in *.
  injection T1 as -> ->. auto.
Qed.
End user_tx.

(** ** Receive *)

Section user_rx.
Context {cap D : Type} `{!Device D} `{!DeviceLaws D}.
Abbreviation uworld := (uworld cap D).
Implicit Types (s : uworld).

(** A buffer the caller posts: bus address, length and the caller's handle. *)
Definition ext_buf : Type := Z * Z * option Z.

Fixpoint release_all (l : list ext_buf) : ST uworld unit :=
  match l with
  | [] => ret tt
  | (paddr, len, cookie) :: l' => do* sfc7120_rx_release_paddr_nodbl paddr len cookie; release_all l'
  end.

Definition slot_cookie (u : sfc7120_if cap) (i : Z) : option Z := nth (Z.to_nat i) (ui_rx_ext_cookie u) None.

(** Slot [j] holds the descriptor and the handle of [e]. *)
Definition slot_holds s (j : Z) (e : ext_buf) : Prop :=
  let '(paddr, len, cookie) := e in
  arr_get (rx_ring (w_dma (u_w s))) j = ef10_desc len paddr /\ slot_cookie (u_if s) j = cookie.

Definition slot_same s s' (j : Z) : Prop :=
  arr_get (rx_ring (w_dma (u_w s'))) j = arr_get (rx_ring (w_dma (u_w s))) j /\
  slot_cookie (u_if s') j = slot_cookie (u_if s) j.

Definition good_buf (e : ext_buf) : Prop := bad_rx_buffer (fst (fst e)) (snd (fst e)) = false.

(** What posting receive buffers leaves alone. *)
Record rx_frame s s' : Prop := {
  rf_if : u_if s' = (u_if s) <| ui_rx_head := ui_rx_head (u_if s') |>
                             <| ui_rx_ext_cookie := ui_rx_ext_cookie (u_if s') |>;
  rf_len : length (ui_rx_ext_cookie (u_if s')) = length (ui_rx_ext_cookie (u_if s));
  rf_wf : w_wf (u_w s');
  rf_log : w_log (u_w s') = w_log (u_w s);
}.

Definition rx_tail s (i : nat) : Z := (ui_rx_head (u_if s) + ui_rx_window (u_if s) + Z.of_nat i) mod 512.

Lemma rx_wptr_tail s :
  0 <= ui_rx_head (u_if s) < 512 -> 0 <= ui_rx_window (u_if s) < 512 -> rx_wptr (u_if s) = rx_tail s 0.
Proof.
  intros. unfold rx_wptr, rx_tail, SFC7120_NUM_RX_DESC. rewrite land_ring. unfold u32.
  rewrite Z.add_0_r, (Z.mod_small (_ + _) 4294967296) by lia. reflexivity.
Qed.

Lemma mod512_ne (a i : Z) : 0 < i < 512 -> (a + i) mod 512 <> a mod 512.
Proof.
  intros Hi E. apply (f_equal (fun z => (z - a) mod 512)) in E.
  rewrite !Zminus_mod_idemp_l in E. replace (a + i - a) with i in E by lia.
  rewrite Z.sub_diag, !Z.mod_small in E by lia. lia.
Qed.

Lemma release_one e s :
  let '(paddr, len, cookie) := e in
  if_ok (u_if s) -> w_wf (u_w s) -> 0 <= ui_rx_window (u_if s) < 512 -> ui_rx_desc_ring (u_if s) = true -> good_buf e ->
  wp (sfc7120_rx_release_paddr_nodbl paddr len cookie) (fun r s' => r = 0 /\
    ui_rx_head (u_if s') = (ui_rx_head (u_if s) + 1) mod 512 /\ slot_holds s' (rx_tail s 0) e /\
    (forall j, 0 <= j < 512 -> j <> rx_tail s 0 -> slot_same s s' j) /\ rx_frame s s') s.
Proof.
  destruct e as [[paddr len] cookie]. intros [_ Hrx _ Hc] Hw Hwin Hring Hg.
  unfold sfc7120_rx_release_paddr_nodbl. apply wp_bind, wp_getu. unfold good_buf in Hg. cbn [fst snd] in Hg.
  rewrite Hring, Hg. cbn [negb orb]. apply wp_bind, wp_getu. rewrite rx_wptr_tail by done. set (t := rx_tail s 0).
  assert (0 <= t < 512) as Ht by (apply Z.mod_pos_bound; lia).
  apply wp_bind, wp_shared, wp_ring_store; [done |]. apply wp_bind, wp_modu, wp_bind, wp_modu, wp_ret.
  cbn [u_if u_w upd ui_rx_head set_cookie]. rewrite next_slot_mod by (cbn; lia).
  split; [done |]. split; [done |]. split; [split |]; [| | split].
  - apply arr_get_set_eq. destruct Hw as [_ _ [_ ->] _]. lia.
  - unfold slot_cookie. cbn. apply nth_lookup_Some, list_lookup_insert_eq. lia.
  - intros j Hj Hne. split; [apply arr_get_set_ne; lia |]. unfold slot_cookie. cbn.
    rewrite !nth_lookup, list_lookup_insert_ne; [done | lia].
  - split; [now destruct s as [[] ?] | cbn; now rewrite length_insert | now apply arr_set_wf_rx | done].
Qed.

Lemma release_all_spec l : forall s,
  if_ok (u_if s) -> w_wf (u_w s) -> 0 <= ui_rx_window (u_if s) < 512 -> ui_rx_desc_ring (u_if s) = true ->
  Forall good_buf l ->
  wp (release_all l) (fun _ s' =>
    ui_rx_head (u_if s') = (ui_rx_head (u_if s) + Z.of_nat (length l)) mod 512 /\
    (forall i e, l !! i = Some e -> (length l - i <= 512)%nat -> slot_holds s' (rx_tail s i) e) /\
    (forall j, 0 <= j < 512 -> (forall i, (i < length l)%nat -> j <> rx_tail s i) -> slot_same s s' j) /\
    rx_frame s s') s.
Proof.
  induction l as [| e l IH]; intros s Hok Hw Hwin Hring Hg; cbn [release_all].
  - apply wp_ret. cbn. rewrite Z.add_0_r, Z.mod_small by apply Hok. split; [done |]. split; [done |].
    split; [now split |]. split; [now destruct s as [[] ?] | done | done | done].
  - inversion_clear Hg as [| ? ? He Hl]. pose proof (release_one e s) as Hone. destruct e as [[paddr len] cookie] eqn:Ee.
    apply wp_bind. eapply wp_mono; [now apply Hone |]. intros r s1 (_ & Hh1 & Hhold & Hsame & [Hif1 Hlen1 Hw1 Hlog1]).
    assert (ui_rx_window (u_if s1) = ui_rx_window (u_if s) /\ ui_rx_desc_ring (u_if s1) = ui_rx_desc_ring (u_if s)) as [Ew Er]
      by (rewrite Hif1; done).
    assert (if_ok (u_if s1)) as Hok1.
    { destruct Hok as [? ? ? ?]. split; try lia.
      - now rewrite Hif1.
      - rewrite Hh1. apply Z.mod_pos_bound. lia.
      - now rewrite Hif1. }
    assert (forall i, rx_tail s1 i = rx_tail s (S i)) as Etail.
    { intros i. unfold rx_tail. rewrite Ew, Hh1, <- Z.add_assoc, Zplus_mod_idemp_l. f_equal. lia. }
    eapply wp_mono; [apply (IH s1); [done | done | lia | congruence | done] |].
    intros _ s2 (Hh2 & Hall & Hrest & [Hif2 Hlen2 Hw2 Hlog2]). split; [| split; [| split]].
    + rewrite Hh2, Hh1, Zplus_mod_idemp_l. cbn [length]. f_equal. lia.
    + intros [| i] e' Hi Hle; cbn in Hi, Hle.
      * injection Hi as <-. destruct (Hrest (rx_tail s 0)) as [R1 R2]; [apply Z.mod_pos_bound; lia | |].
        { intros i Hi. rewrite Etail. unfold rx_tail. rewrite Z.add_0_r. intros E. symmetry in E. revert E.
          apply mod512_ne. lia. }
        destruct Hhold as [H1 H2]. split; congruence.
      * rewrite <- Etail. now apply Hall.
    + intros j Hj Hne. destruct (Hrest j Hj) as [R1 R2].
      { intros i Hi. rewrite Etail. apply Hne. cbn. lia. }
      destruct (Hsame j Hj (Hne 0%nat ltac:(cbn; lia))) as [S1 S2]. split; congruence.
    + split; [| congruence | done | congruence]. rewrite Hif2, Hif1. now destruct s as [[] ?].
Qed.

(** C34. Buffers posted by their bus address come back with their handle: once
    at least [rx_window] buffers have been posted without doorbells, the slot
    the next frame is read from holds the descriptor of the buffer posted
    [rx_window] buffers ago, and [sfc7120_rx_peek_ext] returns that buffer's
    handle.  So the handle always names the buffer the NIC was given. *)
Theorem rx_cookie_roundtrip l paddr len cookie rx_bytes s :
  if_ok (u_if s) -> w_wf (u_w s) -> 1 <= ui_rx_window (u_if s) < 512 ->
  ui_rx_desc_ring (u_if s) = true -> has_slice SFC7120_SLICE_RX_DESC_DBL (u_if s) = true ->
  Forall good_buf l -> (Z.to_nat (ui_rx_window (u_if s)) <= length l)%nat ->
  l !! (length l - Z.to_nat (ui_rx_window (u_if s)))%nat = Some (paddr, len, Some cookie) ->
  0 <= paddr < 2 ^ 48 -> 0 <= len ->
  wp (do* release_all l; sfc7120_rx_peek_ext true rx_bytes) (fun r s' =>
    r = (0, Some (Some cookie, rx_plen 0 0 rx_bytes)) /\
    desc_buf_addr (arr_get (rx_ring (w_dma (u_w s'))) (ui_rx_head (u_if s'))) = paddr /\
    desc_byte_cnt (arr_get (rx_ring (w_dma (u_w s'))) (ui_rx_head (u_if s'))) = len) s.
Proof.
  intros Hok Hw Hwin Hring Hsl Hg Hk Hi Hp Hn. apply wp_bind.
  eapply wp_mono; [apply (release_all_spec l s); [done | done | lia | done | done] |].
  intros _ s1 (Hh & Hall & _ & [Hif _ _ _]).
  assert (rx_tail s (length l - Z.to_nat (ui_rx_window (u_if s))) = ui_rx_head (u_if s1)) as Et.
  { rewrite Hh. unfold rx_tail. f_equal. lia. }
  destruct (Hall _ _ Hi ltac:(lia)) as [Hd Hc]. rewrite Et in Hd, Hc.
  assert (0 <= len <= 0x3fff) as Hlen.
  { apply (Forall_lookup_1 _ _ _ _ Hg) in Hi. unfold good_buf, bad_rx_buffer in Hi. cbn in Hi. lia. }
  unfold sfc7120_rx_peek_ext. apply wp_bind, wp_getu.
  replace (ui_rx_desc_ring (u_if s1)) with true by (rewrite Hif; done).
  replace (has_slice SFC7120_SLICE_RX_DESC_DBL (u_if s1)) with true by (rewrite Hif; done). cbn [negb andb orb].
  apply wp_bind, wp_modu, wp_bind, wp_getu, wp_bind, wp_getu. unfold slot_cookie in Hc.
  cbn [u_if upd ui_rx_head ui_rx_ext_cookie]. rewrite Hc. apply wp_bind, wp_getu, wp_bind, wp_ret, wp_ret.
  split; [done |]. cbn [u_w u_if upd ui_rx_head]. rewrite Hd.
  destruct (ef10_desc_exact len paddr) as [-> ->]; [lia | lia | done].
Qed.

(** The bytes of the frame in slot [head] of a synced memory. *)
Definition slot_frame (m : dma) (head rx_bytes : Z) : list Z :=
  load_bytes (rx_mem m) (rx_slot head + SFC7120_EF10_RX_PREFIX_LEN) (frame_len (rx_mem m) head rx_bytes).

(** The direct receive delivers what the kernel's does: for the same
    state, the same event and a frame that fits the caller's buffer and the
    mapped region, [sfc7120_rx_recv] returns the bytes the RX ioctl copies out
    and leaves the same descriptor ring when the doorbell is rung.  The
    doorbell values differ: the kernel writes the index just consumed, the
    library the next one. *)
Theorem rx_recv_matches_kernel room rx_bytes s :
  let w := u_w s in
  let head := rx_head (sc_rings (w_sc w)) in
  let plen := frame_len (rx_mem (w_dma (synced w))) head rx_bytes in
  w_wf w -> rings_ok (sc_rings (w_sc w)) -> sc_mtx (sc_life (w_sc w)) = MtxHeld ->
  ui_rx_head (u_if s) = head -> vi_rx_buffer_paddr (ui_vi_info (u_if s)) = rx_base w ->
  ui_rx_buffer (u_if s) = true -> ui_rx_desc_ring (u_if s) = true ->
  has_slice SFC7120_SLICE_RX_DESC_DBL (u_if s) = true ->
  plen <= room -> rx_slot head + 14 + plen <= 2 ^ 20 ->
  let frame := slot_frame (w_dma (synced w)) head rx_bytes in
  exists x,
    wp (rx_deliver rx_bytes (RxReq 0 [] 0 0)) (fun r w' => fst r = 0 /\ rx_raw_buffer (snd r) = frame /\
      (w_dev w', w_dma w') = dev_write SFC7120_REG_DATA_RX_DESC_DBL head x) w /\
    wp (sfc7120_rx_recv (Some room) rx_bytes) (fun r s' => r = (0, frame) /\
      ui_rx_head (u_if s') = (head + 1) mod 512 /\ w_sc (u_w s') = w_sc w /\
      (w_dev (u_w s'), w_dma (u_w s')) = dev_write SFC7120_REG_DATA_RX_DESC_DBL ((head + 1) mod 512) x) s.
Proof.
  intros w head plen Hw Hr Hm Hh Hb Hbuf Hring Hsl Hroom Hend frame.
  pose proof (ro_rx _ Hr) as Hrange. fold head in Hrange.
  pose proof (synced_wf w Hw) as Hws.
  exists (w_dev (synced w), upd_rx_ring (fun r => arr_set r head (rx_slot_desc (rx_base w) head)) (w_dma (synced w))).
  split.
  - eapply wp_mono; [eapply wpf_sound; [now apply (rx_deliver_spec rx_bytes (RxReq 0 [] 0 0) w) |] |].
    { unfold rx_overread. fold head plen. unfold RX_MEM_SIZE, SFC7120_NUM_RX_DESC, SFC7120_RX_BUFFER_SIZE.
      change SFC7120_EF10_RX_PREFIX_LEN with 14. lia. }
    intros r w' (_ & -> & _ & _ & _ & _ & Hd). split; [done |]. split; [done | exact Hd].
  - unfold sfc7120_rx_recv. apply wp_bind, wp_getu. rewrite Hbuf, Hring, Hsl. cbn [negb andb].
    apply wp_bind, wp_modu, wp_bind, wp_getu. cbn [u_if upd ui_rx_head]. rewrite Hh.
    apply wp_bind, wp_slot_plen; [done |]. cbn [u_w upd]. fold w plen.
    apply wp_bind, wp_kassert; [lia |]. pose proof (slot_byte head 14 Hrange ltac:(lia)).
    apply wp_bind, wp_shared, wp_rx_load; [change SFC7120_EF10_RX_PREFIX_LEN with 14; lia | |].
    { unfold RX_MEM_SIZE, SFC7120_EF10_RX_PREFIX_LEN, SFC7120_NUM_RX_DESC, SFC7120_RX_BUFFER_SIZE. lia. }
    apply wp_bind, wp_getu. cbn [u_if u_w upd ui_vi_info]. rewrite Hb.
    apply wp_bind, wp_shared, wp_ring_store; [done |]. apply wp_bind, wp_modu, wp_bind.
    rewrite next_slot_mod by lia. apply (wp_slice_store _ _ _ _ _ _ rx_slice_reg).
    { now apply arr_set_wf_rx. }
    intros w' Hsc Hl Hww Hd. apply wp_ret. split; [done |]. split; [done |]. split; [exact Hsc |].
    unfold u32 in Hd. rewrite Z.mod_small in Hd by (pose proof (Z.mod_pos_bound (head + 1) 512); lia). exact Hd.
Qed.
End user_rx.
