(* ===== verification/UserInit.v ===== *)
(** * The user-space library: opening and closing a session

    The control path of [userlib/sfc7120_user.c]: [map_region],
    [sfc7120_prefault], [sfc7120_init], [sfc7120_destroy] and the two ioctl
    wrappers.  What the C library and the kernel answer (open, malloc, the
    modmap and CAPIO ioctls, munmap) is the class [UserSys]; the descriptors,
    heap blocks and mappings the process holds are tracked, and freeing or
    closing what it does not hold is undefined behaviour: [None]. *)

From stdpp Require Import sets.
From S2P Require Import Prelude Uapi Desc Capio Softc DataPath UserLib.
Local Open Scope Z_scope.

Class UserSys (cap K : Type) := {
  cap_of_block : Z -> cap;                                       (* the capability malloc returns *)
  sys_open : bool -> K -> Z * K;                                 (* the device node, or /dev/modmap *)
  sys_close : Z -> K -> K;
  sys_alloc : K -> option Z * K;                                 (* malloc and calloc *)
  sys_get_slices : Z -> Z -> Z -> K -> option (Z * Z) * K;       (* MODMAPIOC_GET_SLICES: slices, length *)
  sys_map : Z -> Z -> Z -> cap_req cap -> option Z -> Z -> K -> option Z * K;  (* MODMAPIOC_MAP *)
  sys_munmap : Z -> Z -> K -> bool * K;
  sys_attach : Z -> cap_req cap -> K -> (bool * cap_req cap) * K;
  sys_goodbye : Z -> cap_req cap -> K -> K;
  sys_get_vi_info : Z -> cap_req cap -> K -> option sfc7120_vi_info_req * K;
  sys_get_mac : Z -> cap_req cap -> K -> option (list Z) * K;
  sys_set_evq_rptr : Z -> cap_req cap -> sfc7120_evq_sync_req -> K -> bool * K;
  sys_tx : Z -> cap_req cap -> sfc7120_tx_req -> K -> bool * K;
  sys_rx : Z -> cap_req cap -> sfc7120_rx_req -> K -> option sfc7120_rx_req * K;
}.

(** The calls whose order matters. *)
Inductive call :=
  | CAttach (granted : bool)
  | CMunmap (base len : Z) (ok : bool)
  | CSetEvqRptr (req : sfc7120_evq_sync_req)
  | CGoodbye
  | CClose (fd : Z).

(** The environment: SFC_EVQ_CIVAC is set; SFC_RX_WINDOW, as atoi reads it. *)
Record init_env := InitEnv {
  ie_civac : bool;
  ie_rx_window : option Z;
}.

Record ust (cap K : Type) := Ust {
  us_if : sfc7120_if cap;
  us_k : K;
  us_fds : list Z;
  us_heap : list Z;
  us_maps : list (Z * Z);
  us_trace : list call;
}.
Arguments Ust {cap K}. Arguments us_if {cap K}. Arguments us_k {cap K}. Arguments us_fds {cap K}.
Arguments us_heap {cap K}. Arguments us_maps {cap K}. Arguments us_trace {cap K}.
#[export] Instance eta_ust cap K : Eta (ust cap K) := fun s =>
  Ust (us_if s) (us_k s) (us_fds s) (us_heap s) (us_maps s) (us_trace s).

(** Take one element out of a list. *)
Fixpoint drop_one {A} `{!EqDecision A} (x : A) (l : list A) : list A :=
  match l with
  | [] => []
  | y :: l' => if decide (x = y) then l' else y :: drop_one x l'
  end.

Section user_init.
Context {cap K : Type} `{!UserSys cap K}.
Abbreviation ust := (ust cap K).
Abbreviation sfc7120_if := (sfc7120_if cap).

Definition geti {A} (f : sfc7120_if -> A) : ST ust A := gets (fun s => f (us_if s)).
Definition modi (f : sfc7120_if -> sfc7120_if) : ST ust unit := modify (fun s => s <| us_if ::= f |>).
Definition sys {A} (f : K -> A * K) : ST ust A := fun s =>
  let '(a, k) := f (us_k s) in Some (a, s <| us_k := k |>).
Definition trace (c : call) : ST ust unit := modify (fun s => s <| us_trace ::= fun t => t ++ [c] |>).

(** ** Calls that take or give back something *)

Definition open (modmap : bool) : ST ust Z :=
  let* fd := sys (sys_open modmap) in
  do* (if fd <? 0 then ret tt else modify (fun s => s <| us_fds ::= cons fd |>));
  ret fd.

Definition close (fd : Z) : ST ust unit :=
  do* kassert (fun s => bool_decide (fd ∈ us_fds s));
  do* modify (fun s => s <| us_fds ::= drop_one fd |>);
  do* trace (CClose fd);
  let* _ := sys (fun k => (tt, sys_close fd k)) in
  ret tt.

Definition malloc : ST ust (option Z) :=
  let* b := sys sys_alloc in
  match b with
  | Some b => do* modify (fun s => s <| us_heap ::= cons b |>); ret (Some b)
  | None => ret None
  end.

Definition free (b : option Z) : ST ust unit :=
  match b with
  | Some b =>
      do* kassert (fun s => bool_decide (b ∈ us_heap s));
      modify (fun s => s <| us_heap ::= drop_one b |>)
  | None => ret tt
  end.

Definition mmap_region (t : Z) (req : cap_req cap) (slices : option Z) (len : Z) : ST ust (option Z) :=
  let* modmap_fd := geti ui_modmap_fd in
  let* fd := geti ui_fd in
  let* a := sys (sys_map modmap_fd fd t req slices len) in
  match a with
  | Some a => do* modify (fun s => s <| us_maps ::= cons (a, len) |>); ret (Some a)
  | None => ret None
  end.

Definition munmap (base len : Z) : ST ust unit :=
  do* kassert (fun s => bool_decide ((base, len) ∈ us_maps s));
  let* ok := sys (sys_munmap base len) in
  do* trace (CMunmap base len ok);
  if ok : bool then modify (fun s => s <| us_maps ::= drop_one (base, len) |>) else ret tt.

(** ** map_region *)

Definition set_region (t : Z) (base : option Z) (len : Z) (u : sfc7120_if) : sfc7120_if :=
  u <| ui_region_maps ::= insert (Z.to_nat t) (base, len) |>.

(** [want_slices]: the caller passed a slice array pointer, which is always
    the handle's own [mmio_slices]. *)
Definition map_region (t : sfc7120_vm_map_type) (want_slices : bool) : ST ust (option Z) :=
  let map_type := region_int t in
  let* modmap_fd := geti ui_modmap_fd in
  let* fd := geti ui_fd in
  let* sizes := sys (sys_get_slices modmap_fd fd map_type) in
  match sizes with
  | None => ret None
  | Some (n_slices, region_len) =>
      if region_len =? 0 then ret None
      else
      let* slices := if want_slices then malloc else ret None in
      if want_slices && bool_decide (slices = None) then ret None
      else if negb want_slices && negb (n_slices =? 0) then ret None
      else
      let* req := geti ui_cap_req in
      let* addr := mmap_region map_type req slices region_len in
      match addr with
      | None => do* free slices; ret None
      | Some a =>
          do* (if want_slices
               then modi (fun u => u <| ui_mmio_slices := slices |> <| ui_mmio_slices_len := n_slices |>)
               else ret tt);
          do* modi (set_region map_type (Some a) region_len);
          ret (Some a)
      end
  end.

(** One byte of every page of the region: [n] pages from offset [off]. *)
Fixpoint prefault_loop (region_len : Z) (n : nat) (off : Z) : ST ust unit :=
  match n with
  | O => ret tt
  | S n' => do* kassert (fun _ => off <? region_len); prefault_loop region_len n' (off + 4096)
  end.

Definition sfc7120_prefault (t : sfc7120_vm_map_type) (len : Z) : ST ust unit :=
  let* r := geti (fun u => nth (Z.to_nat (region_int t)) (ui_region_maps u) (None, 0)) in
  prefault_loop (snd r) (Z.to_nat ((len + 4095) / 4096)) 0.

(** ** sfc7120_destroy *)

Fixpoint unmap_regions (n : nat) (i : Z) : ST ust unit :=
  match n with
  | O => ret tt
  | S n' =>
      let* r := geti (fun u => nth (Z.to_nat i) (ui_region_maps u) (None, 0)) in
      do* match r with
          | (Some base, len) => do* munmap base len; modi (set_region i None 0)
          | (None, _) => ret tt
          end;
      unmap_regions n' (i + 1)
  end.

Definition sfc7120_destroy : ST ust unit :=
  do* unmap_regions (Z.to_nat SFC7120_REGION_COUNT) 0;
  do* modi (fun u => u <| ui_tx_buffer := false |> <| ui_rx_buffer := false |> <| ui_tx_desc_ring := false |>
                       <| ui_rx_desc_ring := false |> <| ui_evq_ring := false |>);
  let* u := geti (fun u => u) in
  do* (if (0 <=? ui_fd u) && ui_vi_info_valid u && ui_used_poll u then
         let sync_req := EvqSync (ui_evq_read_ptr u) (ui_tx_head u) (ui_rx_head u) in
         do* trace (CSetEvqRptr sync_req);
         let* _ := sys (sys_set_evq_rptr (ui_fd u) (ui_cap_req u) sync_req) in
         ret tt
       else ret tt);
  do* (if 0 <=? ui_fd u then
         do* trace CGoodbye;
         let* _ := sys (fun k => (tt, sys_goodbye (ui_fd u) (ui_cap_req u) k)) in
         ret tt
       else ret tt);
  do* match ui_mmio_slices u with
      | Some b => do* free (Some b); modi (fun u => u <| ui_mmio_slices := None |> <| ui_mmio_slices_len := 0 |>)
      | None => ret tt
      end;
  do* match ui_cap_token u with
      | Some b => do* free (Some b); modi (fun u => u <| ui_cap_token := None |>)
      | None => ret tt
      end;
  do* (if 0 <=? ui_modmap_fd u then close (ui_modmap_fd u) else ret tt);
  if 0 <=? ui_fd u then close (ui_fd u) else ret tt.

(** ** sfc7120_init *)

Definition init_fail : ST ust Z := do* sfc7120_destroy; ret (-1).

(** Map a DMA region and note that it is there. *)
Definition map_step (t : sfc7120_vm_map_type) (set : sfc7120_if -> sfc7120_if) (next : ST ust Z) : ST ust Z :=
  let* a := map_region t false in
  match a with
  | None => init_fail
  | Some _ => do* modi set; next
  end.

Definition rx_window_of (w : option Z) : Z :=
  let v := match w with Some v => u32 v | None => 64 end in
  if (v <? 1) || (SFC7120_NUM_RX_DESC - 1 <? v) then 64 else v.

Definition init_info (env : init_env) : ST ust Z :=
  let* fd := geti ui_fd in
  let* req := geti ui_cap_req in
  let* vi := sys (sys_get_vi_info fd req) in
  match vi with
  | None => init_fail
  | Some vi =>
      do* modi (fun u => u <| ui_vi_info := vi |> <| ui_vi_info_valid := true |>
                           <| ui_evq_read_ptr := vi_evq_read_ptr vi |> <| ui_rx_head := vi_rx_head vi |>
                           <| ui_evq_civac := ie_civac env |> <| ui_rx_window := rx_window_of (ie_rx_window env) |>
                           <| ui_tx_head := vi_tx_head vi |>);
      let* mac := sys (sys_get_mac fd req) in
      match mac with
      | None => init_fail
      | Some mac => do* modi (fun u => u <| ui_mac_addr := mac |>); ret 0
      end
  end.

Definition init_tail (env : init_env) : ST ust Z :=
  do* sfc7120_prefault SFC7120_TX_BUFFER (SFC7120_NUM_TX_DESC * SFC7120_TX_BUFFER_SIZE);
  do* sfc7120_prefault SFC7120_RX_BUFFER (SFC7120_NUM_RX_DESC * SFC7120_RX_BUFFER_SIZE);
  do* sfc7120_prefault SFC7120_TX_DESC_RING (SFC7120_NUM_TX_DESC * 8);
  do* sfc7120_prefault SFC7120_RX_DESC_RING (SFC7120_NUM_RX_DESC * 8);
  do* sfc7120_prefault SFC7120_EVQ_RING (SFC7120_NUM_EVQ_ENTRY * 8);
  let* a := map_region SFC7120_MMIO_REGION true in
  match a with
  | None => init_fail
  | Some _ => init_info env
  end.

Definition init_regions (env : init_env) : ST ust Z :=
  map_step SFC7120_TX_BUFFER (fun u => u <| ui_tx_buffer := true |>) (
  map_step SFC7120_RX_BUFFER (fun u => u <| ui_rx_buffer := true |>) (
  map_step SFC7120_TX_DESC_RING (fun u => u <| ui_tx_desc_ring := true |>) (
  map_step SFC7120_RX_DESC_RING (fun u => u <| ui_rx_desc_ring := true |>) (
  map_step SFC7120_EVQ_RING (fun u => u <| ui_evq_ring := true |>) (
  init_tail env))))).

(** The token page, the attach, and all that needs them. *)
Definition init_attach (env : init_env) (fd : Z) : ST ust Z :=
  let* token := malloc in
  do* modi (fun u => u <| ui_cap_token := token |>);
  match token with
  | None => init_fail
  | Some b =>
      do* modi (fun u => u <| ui_cap_req ::= fun r => CapReq (cap_of_block b) (cr_sealed_cap r) |>);
      let* req := geti ui_cap_req in
      let* r := sys (sys_attach fd req) in
      let '(ok, req) := r in
      do* trace (CAttach ok);
      do* modi (fun u => u <| ui_cap_req := req |>);
      if ok : bool then init_regions env else init_fail
  end.

Definition reset_handle (u : sfc7120_if) : sfc7120_if :=
  u <| ui_fd := -1 |> <| ui_modmap_fd := -1 |> <| ui_tx_buffer := false |> <| ui_rx_buffer := false |>
    <| ui_tx_desc_ring := false |> <| ui_rx_desc_ring := false |> <| ui_evq_ring := false |>
    <| ui_mmio_slices := None |> <| ui_mmio_slices_len := 0 |> <| ui_vi_info_valid := false |>
    <| ui_evq_read_ptr := 0 |> <| ui_used_poll := false |> <| ui_rx_head := 0 |> <| ui_tx_head := 0 |>
    <| ui_region_maps := replicate (Z.to_nat SFC7120_REGION_COUNT) (None, 0) |>.

Definition sfc7120_init (env : init_env) : ST ust Z :=
  do* modi reset_handle;
  let* fd := open false in
  do* modi (fun u => u <| ui_fd := fd |>);
  if fd <? 0 then ret (-1)
  else
  let* modmap_fd := open true in
  do* modi (fun u => u <| ui_modmap_fd := modmap_fd |>);
  if modmap_fd <? 0 then init_fail
  else
  init_attach env fd.

(** ** The ioctl wrappers *)

Definition sfc7120_tx (buf : user_buf) (len : Z) : ST ust Z :=
  let* fd := geti ui_fd in
  let* req := geti ui_cap_req in
  let* ok := sys (sys_tx fd req (TxReq buf len 0)) in
  ret (if ok : bool then 0 else -1).

(** [copyout] is what copying to the caller's buffer answers; the result is
    the frame and its length. *)
Definition sfc7120_rx (copyout : Z) : ST ust (Z * option (list Z * Z)) :=
  let* fd := geti ui_fd in
  let* req := geti ui_cap_req in
  let* r := sys (sys_rx fd req (RxReq copyout [] 0 0)) in
  match r with
  | None => ret (-1, None)
  | Some q => ret (0, Some (rx_raw_buffer q, rx_length_received q))
  end.
End user_init.

(** ** What the handle owns *)

Definition opt_list {A} (o : option A) : list A := match o with Some a => [a] | None => [] end.
Definition owned_fd (fd : Z) : list Z := if 0 <=? fd then [fd] else [].
Definition region_list (r : option Z * Z) : list (Z * Z) :=
  match r with (Some b, len) => [(b, len)] | (None, _) => [] end.

Definition owned_fds {cap} (u : sfc7120_if cap) : list Z := owned_fd (ui_modmap_fd u) ++ owned_fd (ui_fd u).
Definition owned_heap {cap} (u : sfc7120_if cap) : list Z :=
  opt_list (ui_mmio_slices u) ++ opt_list (ui_cap_token u).
Definition owned_maps {cap} (u : sfc7120_if cap) : list (Z * Z) := flat_map region_list (ui_region_maps u).

(** Everything the process holds is what it held before ([F], [H], [M]) and
    what the handle records. *)
Record session {cap K} (F H : list Z) (M : list (Z * Z)) (s : ust cap K) : Prop := {
  ss_fds : us_fds s ≡ₚ owned_fds (us_if s) ++ F;
  ss_heap : us_heap s ≡ₚ owned_heap (us_if s) ++ H;
  ss_maps : us_maps s ≡ₚ owned_maps (us_if s) ++ M;
  ss_regions : length (ui_region_maps (us_if s)) = Z.to_nat SFC7120_REGION_COUNT;
}.

(** The regions munmap refused to unmap in a run of calls. *)
Definition refused : list call -> list (Z * Z) :=
  flat_map (fun c => match c with CMunmap base len false => [(base, len)] | _ => [] end).

(** The process holds what it held before ([F], [H], [M]); only the mappings
    munmap refused during the calls [tr] are left over. *)
Definition released {cap K} (F H : list Z) (M : list (Z * Z)) (tr : list call) (s : ust cap K) : Prop :=
  us_fds s ≡ₚ F /\ us_heap s ≡ₚ H /\ us_maps s ≡ₚ refused tr ++ M.

(** The munmap of each region of [l], with the kernel's answers. *)
Definition unmap_calls (l : list (Z * Z)) (oks : list bool) : list call :=
  zip_with (fun r ok => CMunmap (fst r) (snd r) ok) l oks.

(** The calls a teardown makes, in order. *)
Definition teardown_calls {cap} (u : sfc7120_if cap) (oks : list bool) : list call :=
  unmap_calls (owned_maps u) oks ++
  (if (0 <=? ui_fd u) && ui_vi_info_valid u && ui_used_poll u
   then [CSetEvqRptr (EvqSync (ui_evq_read_ptr u) (ui_tx_head u) (ui_rx_head u))] else []) ++
  (if 0 <=? ui_fd u then [CGoodbye] else []) ++
  map CClose (owned_fds u).

(** A teardown of the handle in [s] led to [s']: it unmapped every region the
    handle records, [oks] being munmap's answers. *)
Definition torn_down {cap K} (F H : list Z) (M : list (Z * Z)) (s s' : ust cap K) : Prop :=
  exists oks, length oks = length (owned_maps (us_if s)) /\
    us_trace s' = us_trace s ++ teardown_calls (us_if s) oks /\
    released F H M (teardown_calls (us_if s) oks) s'.

(** The bytes [sfc7120_init] touches of a region it has mapped. *)
Definition prefault_len (t : sfc7120_vm_map_type) : Z :=
  match t with
  | SFC7120_TX_BUFFER => SFC7120_NUM_TX_DESC * SFC7120_TX_BUFFER_SIZE
  | SFC7120_RX_BUFFER => SFC7120_NUM_RX_DESC * SFC7120_RX_BUFFER_SIZE
  | SFC7120_TX_DESC_RING => SFC7120_NUM_TX_DESC * 8
  | SFC7120_RX_DESC_RING => SFC7120_NUM_RX_DESC * 8
  | SFC7120_EVQ_RING => SFC7120_NUM_EVQ_ENTRY * 8
  | _ => 0
  end.

Section drop_one.
Context {A : Type} `{!EqDecision A}.
Implicit Types (x : A) (l : list A).

Lemma drop_one_cons x l : x ∈ l -> l ≡ₚ x :: drop_one x l.
Proof.
  induction l as [| y l IH]; cbn; [now intros ?%elem_of_nil |].
  intros [-> | Hx]%elem_of_cons; [now rewrite decide_True |].
  destruct (decide (x = y)) as [-> | _]; [reflexivity |].
  rewrite (IH Hx) at 1. apply Permutation_swap.
Qed.

Lemma perm_take x l l' : l ≡ₚ x :: l' -> x ∈ l /\ drop_one x l ≡ₚ l'.
Proof.
  intros Hl. assert (Hx : x ∈ l) by (rewrite Hl; apply elem_of_cons; now left).
  split; [exact Hx |]. apply (Permutation_cons_inv (a := x)).
  now rewrite <- (drop_one_cons _ _ Hx).
Qed.
End drop_one.

Section user_init_proofs.
Context {cap K : Type} `{!UserSys cap K}.
Abbreviation ust := (ust cap K).
Implicit Types (s : ust) (F H : list Z) (M : list (Z * Z)).

Lemma wp_sys {A} (f : K -> A * K) (Q : A -> ust -> Prop) s :
  Q (fst (f (us_k s))) (s <| us_k := snd (f (us_k s)) |>) -> wp (sys f) Q s.
Proof. unfold wp, sys. now destruct (f (us_k s)). Qed.

Lemma wp_close fd l (Q : unit -> ust -> Prop) s :
  us_fds s ≡ₚ fd :: l ->
  (forall s', us_if s' = us_if s -> us_fds s' ≡ₚ l -> us_heap s' = us_heap s -> us_maps s' = us_maps s ->
     us_trace s' = us_trace s ++ [CClose fd] -> Q tt s') ->
  wp (close fd) Q s.
Proof.
  intros [Hin Hl]%perm_take HQ. apply wp_bind, wp_kassert; [now apply bool_decide_eq_true |].
  apply wp_bind, wp_modify, wp_bind, wp_modify, wp_bind, wp_sys, wp_ret. now apply HQ.
Qed.

Lemma wp_free b l (Q : unit -> ust -> Prop) s :
  us_heap s ≡ₚ opt_list b ++ l ->
  (forall heap, heap ≡ₚ l -> Q tt (s <| us_heap := heap |>)) ->
  wp (free b) Q s.
Proof.
  destruct b as [b |]; cbn [opt_list app].
  - intros [Hin Hl]%perm_take HQ. apply wp_bind, wp_kassert; [now apply bool_decide_eq_true |].
    apply wp_modify. now apply HQ.
  - intros Hl HQ. apply wp_ret. specialize (HQ _ Hl). now destruct s.
Qed.

Section teardown.
Lemma wp_munmap base len l (Q : unit -> ust -> Prop) s :
  us_maps s ≡ₚ (base, len) :: l ->
  (forall s' ok, us_if s' = us_if s -> us_fds s' = us_fds s -> us_heap s' = us_heap s ->
     us_maps s' ≡ₚ refused [CMunmap base len ok] ++ l ->
     us_trace s' = us_trace s ++ [CMunmap base len ok] -> Q tt s') ->
  wp (munmap base len) Q s.
Proof.
  intros Hp HQ. pose proof (perm_take _ _ _ Hp) as [Hin Hl].
  apply wp_bind, wp_kassert; [now apply bool_decide_eq_true |].
  apply wp_bind, wp_sys, wp_bind, wp_modify. destruct (fst _) eqn:E.
  - apply wp_modify. apply (HQ _ true); done.
  - apply wp_ret. apply (HQ _ false); done.
Qed.

Lemma refused_app t t' : refused (t ++ t') = refused t ++ refused t'.
Proof. apply flat_map_app. Qed.

(** Only the munmaps of a teardown can be refused. *)
Lemma refused_teardown (u : sfc7120_if cap) oks : refused (teardown_calls u oks) = refused (unmap_calls (owned_maps u) oks).
Proof.
  unfold teardown_calls. rewrite !refused_app.
  assert (Hc : forall l, refused (map CClose l) = []) by (induction l; done).
  rewrite Hc. destruct (_ && ui_used_poll u), (0 <=? ui_fd u); cbn; now rewrite !app_nil_r.
Qed.

Lemma regions_from (rm : list (option Z * Z)) (i : nat) r :
  rm !! i = Some r -> flat_map region_list (drop i rm) = region_list r ++ flat_map region_list (drop (S i) rm).
Proof. intros Hr. now rewrite (drop_S _ _ _ Hr). Qed.

(** The munmap loop gives back what the table records from entry [i] on. *)
Lemma unmap_regions_spec n (i : nat) M s :
  let rm := ui_region_maps (us_if s) in
  (i + n)%nat = length rm ->
  us_maps s ≡ₚ flat_map region_list (drop i rm) ++ M ->
  wp (unmap_regions n (Z.of_nat i)) (fun _ s' =>
    (exists rm', us_if s' = (us_if s) <| ui_region_maps := rm' |>) /\
    us_fds s' = us_fds s /\ us_heap s' = us_heap s /\
    exists oks, length oks = length (flat_map region_list (drop i rm)) /\
      let tr := unmap_calls (flat_map region_list (drop i rm)) oks in
      us_maps s' ≡ₚ refused tr ++ M /\ us_trace s' = us_trace s ++ tr) s.
Proof.
  revert i M s. induction n as [| n IH]; intros i M s; cbn zeta; intros Hlen Hm.
  - apply wp_ret. rewrite drop_ge in * by lia. cbn in *.
    split_and!; [exists (ui_region_maps (us_if s)); now destruct s as [[] ] | done.. |].
    exists []. now rewrite app_nil_r.
  - cbn [unmap_regions]. apply wp_bind, wp_gets. rewrite Nat2Z.id.
    destruct (lookup_lt_is_Some_2 (ui_region_maps (us_if s)) i ltac:(lia)) as [r Hr].
    rewrite (nth_lookup_Some _ _ _ _ Hr). rewrite (regions_from _ _ _ Hr) in *.
    replace (Z.of_nat i + 1) with (Z.of_nat (S i)) by lia.
    destruct r as [[base |] len]; cbn [region_list app map fst snd] in *.
    + apply wp_bind, wp_bind. eapply wp_munmap; [exact Hm |]. intros s1 ok Hif Hf Hh Hm1 Ht.
      apply wp_modify. eapply wp_mono; [apply (IH _ (refused [CMunmap base len ok] ++ M)) |].
      * cbn. unfold set_region. cbn. rewrite Hif, length_insert. lia.
      * cbn. rewrite Hif, Nat2Z.id, drop_insert_lt by lia. rewrite Hm1. solve_Permutation.
      * cbn -[refused unmap_calls]. rewrite Hif, Nat2Z.id, drop_insert_lt by lia.
        intros _ s2 ([rm' E] & -> & -> & oks & Hl & Hm2 & ->).
        split_and!; [exists rm'; rewrite E; now destruct s as [[]] | done | done |].
        exists (ok :: oks). split; [cbn; now rewrite Hl |]. split; [| now rewrite Ht, <- app_assoc].
        rewrite Hm2. change (unmap_calls ((base, len) :: ?l) (ok :: oks)) with ([CMunmap base len ok] ++ unmap_calls l oks).
        rewrite refused_app. solve_Permutation.
    + apply wp_bind, wp_ret. eapply wp_mono; [apply (IH _ M); [lia | exact Hm] |]. auto.
Qed.

(** The three shapes of step the teardown is made of. *)
Lemma wp_call_if {A} (b : bool) c (f : K -> A * K) (Q : unit -> ust -> Prop) s :
  (forall k, Q tt (s <| us_k := k |> <| us_trace ::= fun t => t ++ (if b then [c] else []) |>)) ->
  wp (if b then do* trace c; let* _ := sys f in ret tt else ret tt) Q s.
Proof.
  intros HQ. destruct b.
  - apply wp_bind, wp_modify, wp_bind, wp_sys, wp_ret. apply HQ.
  - apply wp_ret. specialize (HQ (us_k s)). destruct s. cbn in HQ. now rewrite app_nil_r in HQ.
Qed.

Lemma wp_free_field o (f : sfc7120_if cap -> sfc7120_if cap) l (Q : unit -> ust -> Prop) s :
  us_heap s ≡ₚ opt_list o ++ l ->
  (forall s', us_fds s' = us_fds s -> us_heap s' ≡ₚ l -> us_maps s' = us_maps s -> us_trace s' = us_trace s ->
     Q tt s') ->
  wp (match o with Some b => do* free (Some b); modi f | None => ret tt end) Q s.
Proof.
  destruct o as [b |]; intros Hh HQ; [| now apply wp_ret, HQ].
  apply wp_bind. eapply wp_free; [exact Hh |]. intros heap Hheap. apply wp_modify. now apply HQ.
Qed.

Lemma wp_close_if fd l (Q : unit -> ust -> Prop) s :
  us_fds s ≡ₚ owned_fd fd ++ l ->
  (forall s', us_fds s' ≡ₚ l -> us_heap s' = us_heap s -> us_maps s' = us_maps s ->
     us_trace s' = us_trace s ++ map CClose (owned_fd fd) -> Q tt s') ->
  wp (if 0 <=? fd then close fd else ret tt) Q s.
Proof.
  unfold owned_fd. destruct (0 <=? fd); intros Hf HQ.
  - eapply wp_close; [exact Hf |]. intros s' _ ? ? ? ?. now apply HQ.
  - apply wp_ret, HQ; [exact Hf | done | done | now rewrite app_nil_r].
Qed.

Lemma destroy_spec F H M s : session F H M s -> wp sfc7120_destroy (fun _ s' => torn_down F H M s s') s.
Proof.
  intros [Hf Hh Hm Hl]. apply wp_bind.
  eapply wp_mono; [apply (unmap_regions_spec _ 0 M); [now rewrite Hl | exact Hm] |].
  intros _ s1 ([rm E1] & Ef1 & Eh1 & oks & Hoks & Hm1 & Et1). rewrite drop_0 in *.
  unfold owned_fds, owned_heap in *. rewrite <- app_assoc in Hf, Hh.
  apply wp_bind, wp_modify. rewrite <- Ef1 in Hf. rewrite <- Eh1 in Hh.
  apply wp_bind, wp_gets.
  set (s2 := s1 <| us_if ::= _ |>). 
  assert (Eu : us_if s2 = (us_if s) <| ui_region_maps := rm |> <| ui_tx_buffer := false |> <| ui_rx_buffer := false |>
    <| ui_tx_desc_ring := false |> <| ui_rx_desc_ring := false |> <| ui_evq_ring := false |>)
    by (cbn; now rewrite E1).
  rewrite Eu.
  apply wp_bind, wp_call_if. intros k1. apply wp_bind, wp_call_if. intros k2.
  apply wp_bind. eapply wp_free_field; [exact Hh |]. intros s3 Ef3 Hh3 Em3 Et3.
  apply wp_bind. eapply wp_free_field; [exact Hh3 |]. intros s4 Ef4 Hh4 Em4 Et4.
  apply wp_bind. eapply wp_close_if; [rewrite Ef4, Ef3; exact Hf |]. intros s5 Hf5 Eh5 Em5 Et5.
  eapply wp_close_if; [exact Hf5 |]. intros s6 Hf6 Eh6 Em6 Et6.
  exists oks. split; [exact Hoks |]. split.
  - rewrite Et6, Et5, Et4, Et3. unfold teardown_calls, owned_fds. rewrite map_app. cbn. rewrite Et1, !app_assoc. done.
  - split_and!; [exact Hf6 | now rewrite Eh6, Eh5 |]. rewrite refused_teardown. now rewrite Em6, Em5, Em4, Em3.
Qed.

Lemma init_fail_spec F H M s : session F H M s -> wp init_fail (fun r s' => r = -1 /\ torn_down F H M s s') s.
Proof.
  intros Hs. apply wp_bind. eapply wp_mono; [apply (destroy_spec _ _ _ _ Hs) |].
  intros ? s' Hd. now apply wp_ret.
Qed.

(** ** Opening *)

Lemma owned_maps_insert {u : sfc7120_if cap} (i : nat) a len len' :
  ui_region_maps u !! i = Some (None, len') ->
  flat_map region_list (<[i := (Some a, len)]> (ui_region_maps u)) ≡ₚ (a, len) :: owned_maps u.
Proof.
  unfold owned_maps. intros Hi. rewrite (insert_take_drop _ _ _ (lookup_lt_Some _ _ _ Hi)).
  rewrite <- (take_drop_middle _ _ _ Hi) at 3. rewrite !flat_map_app. cbn.
  now rewrite Permutation_middle.
Qed.

Lemma wp_malloc (Q : option Z -> ust -> Prop) s :
  (forall b k, Q b (s <| us_k := k |> <| us_heap ::= fun h => opt_list b ++ h |>)) -> wp malloc Q s.
Proof.
  intros HQ. apply wp_bind, wp_sys. destruct (fst _) as [b |] eqn:E.
  - apply wp_bind, wp_modify, wp_ret. apply (HQ (Some b)).
  - apply wp_ret. specialize (HQ None (snd (sys_alloc (us_k s)))). now destruct s.
Qed.

(** What [map_region] does to the handle when it succeeds. *)
Definition mapped (t : sfc7120_vm_map_type) (want : bool) (slices : option Z) (n len a : Z)
    (u : sfc7120_if cap) : sfc7120_if cap :=
  set_region (region_int t) (Some a) len
    (if want then u <| ui_mmio_slices := slices |> <| ui_mmio_slices_len := n |> else u).

(** The kernel's region table covers the buffers the library touches. *)
Hypothesis sizes_ok : forall m f t k n len,
  fst (sys_get_slices m f (region_int t) k) = Some (n, len) -> len = 0 \/ prefault_len t <= len.

Lemma mapped_session t want sl n len a s s' F H M :
  session F H M s ->
  ui_region_maps (us_if s) !! Z.to_nat (region_int t) = Some (None, 0) ->
  (want = true -> ui_mmio_slices (us_if s) = None) -> (want = false -> sl = None) ->
  us_if s' = mapped t want sl n len a (us_if s) ->
  us_fds s' = us_fds s -> us_heap s' ≡ₚ opt_list sl ++ us_heap s -> us_maps s' = (a, len) :: us_maps s ->
  session F H M s'.
Proof.
  intros [Hf Hh Hm Hl] Hnone Hw Hsl E1 Ef Eh Em.
  assert (Hr : ui_region_maps (us_if s') = <[Z.to_nat (region_int t) := (Some a, len)]> (ui_region_maps (us_if s)))
    by (rewrite E1; now destruct want).
  split.
  - rewrite Ef, Hf, E1. now destruct want.
  - rewrite Eh, Hh, E1. unfold owned_heap. destruct want; cbn; [now rewrite Hw, app_assoc | now rewrite Hsl].
  - rewrite Em, Hm. unfold owned_maps at 2. rewrite Hr, (owned_maps_insert _ _ _ _ Hnone). done.
  - rewrite Hr, length_insert. exact Hl.
Qed.

Lemma map_region_spec t want F H M s :
  session F H M s ->
  ui_region_maps (us_if s) !! Z.to_nat (region_int t) = Some (None, 0) ->
  (want = true -> ui_mmio_slices (us_if s) = None) ->
  wp (map_region t want) (fun r s' => session F H M s' /\ us_trace s' = us_trace s /\
    match r with
    | None => us_if s' = us_if s
    | Some a => exists slices n len, us_if s' = mapped t want slices n len a (us_if s) /\
        prefault_len t <= len /\ (want = true -> slices <> None)
    end) s.
Proof.
  intros Hs Hnone Hw. pose proof Hs as [Hf Hh Hm Hl]. unfold map_region. do 3 (apply wp_bind; first [apply wp_gets | apply wp_sys]).
  destruct (fst _) as [[n len] |] eqn:E; [| now apply wp_ret].
  apply sizes_ok in E. destruct (Z.eqb_spec len 0) as [_ | Hlen]; [now apply wp_ret |].
  destruct E as [-> | E]; [done |]. apply wp_bind.
  eapply (wp_mono _ (fun sl s1 => us_if s1 = us_if s /\ us_fds s1 = us_fds s /\
    us_heap s1 ≡ₚ opt_list sl ++ us_heap s /\ us_maps s1 = us_maps s /\ us_trace s1 = us_trace s /\
    (want = false -> sl = None))).
  { destruct want; [apply wp_malloc; now intros b k | now apply wp_ret]. }
  intros sl s1 (E1 & Ef & Hh1 & Em & Et & Hsl).
  assert (Hs1 : sl = None -> session F H M s1).
  { intros ->. split; rewrite ?E1, ?Ef, ?Em; try done. now rewrite Hh1. }
  destruct (want && bool_decide (sl = None)) eqn:Eb.
  { apply andb_true_iff in Eb as [_ Eb]. apply bool_decide_eq_true in Eb. apply wp_ret. auto. }
  destruct (negb want && negb (n =? 0)) eqn:Eb'.
  { apply andb_true_iff in Eb' as [Eb' _]. apply negb_true_iff in Eb'. apply wp_ret. auto. }
  apply wp_bind, wp_gets. apply wp_bind, wp_bind, wp_gets, wp_bind, wp_gets, wp_bind, wp_sys.
  destruct (fst _) as [a |].
  - assert (Hsl' : want = true -> sl <> None).
    { intros ->. cbn in Eb. now apply bool_decide_eq_false in Eb. }
    apply wp_bind, wp_modify, wp_ret, wp_bind.
    destruct want; [apply wp_modify | apply wp_ret]; apply wp_bind, wp_modify, wp_ret;
      (split_and!; [eapply (mapped_session t _ sl n len a s); cbn; rewrite ?E1, ?Em; eauto |
                    exact Et | exists sl, n, len; cbn; rewrite E1; auto]).
  - apply wp_ret, wp_bind. eapply wp_free; [exact Hh1 |]. intros heap Hheap. apply wp_ret.
    split_and!; [| exact Et | exact E1]. split; cbn; rewrite ?E1, ?Ef, ?Em; try done. now rewrite Hheap.
Qed.

Lemma prefault_loop_spec region_len n off (Q : unit -> ust -> Prop) s :
  off + 4096 * Z.of_nat n < region_len + 4096 -> Q tt s -> wp (prefault_loop region_len n off) Q s.
Proof.
  revert off. induction n as [| n IH]; intros off Hlen HQ; [now apply wp_ret |].
  apply wp_bind, wp_kassert; [apply Z.ltb_lt; lia |]. apply IH; [lia | exact HQ].
Qed.

(** Touching a mapped region page by page stays inside it. *)
Lemma prefault_spec t b len (Q : unit -> ust -> Prop) s :
  ui_region_maps (us_if s) !! Z.to_nat (region_int t) = Some (b, len) -> prefault_len t <= len -> 0 < prefault_len t ->
  Q tt s -> wp (sfc7120_prefault t (prefault_len t)) Q s.
Proof.
  intros Hr Hlen Hpos HQ. apply wp_bind, wp_gets. rewrite (nth_lookup_Some _ _ _ _ Hr).
  apply prefault_loop_spec; [| exact HQ]. cbn [snd]. zdiv.
Qed.

(** A step of the initialisation that only writes fields the teardown does not read. *)
Definition keeps (set : sfc7120_if cap -> sfc7120_if cap) : Prop := forall u,
  ui_fd (set u) = ui_fd u /\ ui_modmap_fd (set u) = ui_modmap_fd u /\ ui_region_maps (set u) = ui_region_maps u /\
  ui_mmio_slices (set u) = ui_mmio_slices u /\ ui_cap_token (set u) = ui_cap_token u.

Lemma keeps_session set F H M s s' :
  keeps set -> session F H M s -> us_if s' = set (us_if s) -> us_fds s' = us_fds s -> us_heap s' = us_heap s ->
  us_maps s' = us_maps s -> session F H M s'.
Proof.
  intros Hk [Hf Hh Hm Hl] E Ef Eh Em. destruct (Hk (us_if s)) as (K1 & K2 & K3 & K4 & K5).
  split; rewrite ?Ef, ?Eh, ?Em, E; unfold owned_fds, owned_heap, owned_maps; now rewrite ?K1, ?K2, ?K3, ?K4, ?K5.
Qed.

Section steps.
Context (F H : list Z) (M : list (Z * Z)) (Q : Z -> ust -> Prop) (s0 : ust).
(** What a failed step leaves. *)
Hypothesis on_fail : forall (u : sfc7120_if cap) oks s', ui_fd u = ui_fd (us_if s0) ->
  us_trace s' = us_trace s0 ++ teardown_calls u oks -> released F H M (teardown_calls u oks) s' -> Q (-1) s'.

Lemma fail_step s :
  session F H M s -> us_trace s = us_trace s0 -> ui_fd (us_if s) = ui_fd (us_if s0) -> wp init_fail Q s.
Proof.
  intros Hs Ht Hfd. eapply wp_mono; [apply (init_fail_spec _ _ _ _ Hs) |]. intros r s' (-> & oks & _ & Ht' & Hr).
  rewrite Ht in Ht'. eauto.
Qed.

Lemma map_step_spec t set next s :
  session F H M s -> us_trace s = us_trace s0 -> ui_fd (us_if s) = ui_fd (us_if s0) -> keeps set ->
  ui_region_maps (us_if s) !! Z.to_nat (region_int t) = Some (None, 0) ->
  (forall s' a len, session F H M s' -> us_trace s' = us_trace s0 -> prefault_len t <= len ->
     us_if s' = set (set_region (region_int t) (Some a) len (us_if s)) -> wp next Q s') ->
  wp (map_step t set next) Q s.
Proof.
  intros Hs Ht Hfd Hk Hn HQ. apply wp_bind.
  eapply wp_mono; [apply (map_region_spec t false _ _ _ _ Hs Hn); discriminate |].
  intros [a |] s1 (Hs1 & Ht1 & Hr).
  - destruct Hr as (sl & n & len & E & Hlen & _). apply wp_bind, wp_modify.
    eapply (HQ _ a len); [| cbn; now rewrite Ht1 | exact Hlen | cbn; now rewrite E].
    eapply (keeps_session set); [exact Hk | exact Hs1 | done..].
  - apply fail_step; [exact Hs1 | now rewrite Ht1 | now rewrite Hr].
Qed.
End steps.

(** ** A whole session *)

(** A handle the data path can use. *)
Record handle_ready (u : sfc7120_if cap) : Prop := {
  hr_fds : 0 <= ui_fd u /\ 0 <= ui_modmap_fd u;
  hr_maps : ui_tx_buffer u && ui_rx_buffer u && ui_tx_desc_ring u && ui_rx_desc_ring u && ui_evq_ring u = true;
  hr_slices : ui_mmio_slices u <> None;
  hr_info : ui_vi_info_valid u = true /\ ui_used_poll u = false;
  hr_heads : ui_evq_read_ptr u = vi_evq_read_ptr (ui_vi_info u) /\ ui_rx_head u = vi_rx_head (ui_vi_info u) /\
             ui_tx_head u = vi_tx_head (ui_vi_info u);
  hr_window : 1 <= ui_rx_window u <= 511;
}.

(** Between init and destroy: the data path changes neither what the process
    holds nor what the handle records of it. *)
Record used (s1 s2 : ust) : Prop := {
  ud_fds : us_fds s2 = us_fds s1;
  ud_heap : us_heap s2 = us_heap s1;
  ud_maps : us_maps s2 = us_maps s1;
  ud_fd : ui_fd (us_if s2) = ui_fd (us_if s1);
  ud_modmap_fd : ui_modmap_fd (us_if s2) = ui_modmap_fd (us_if s1);
  ud_regions : ui_region_maps (us_if s2) = ui_region_maps (us_if s1);
  ud_slices : ui_mmio_slices (us_if s2) = ui_mmio_slices (us_if s1);
  ud_token : ui_cap_token (us_if s2) = ui_cap_token (us_if s1);
}.

Lemma used_session F H M s1 s2 : used s1 s2 -> session F H M s1 -> session F H M s2.
Proof.
  intros [] [Hf Hh Hm Hl]. split; unfold owned_fds, owned_heap, owned_maps in *; congruence.
Qed.

(** From [s] to [s'] the process gave back what it took and every attach the
    kernel granted was followed by a GOODBYE. *)
Definition undone (s s' : ust) : Prop := exists tr, us_trace s' = us_trace s ++ tr /\
  released (us_fds s) (us_heap s) (us_maps s) tr s' /\
  forall pre post, tr = pre ++ CAttach true :: post -> CGoodbye ∈ post.

Lemma rx_window_of_range w : 1 <= rx_window_of w <= 511.
Proof.
  unfold rx_window_of. change (SFC7120_NUM_RX_DESC - 1) with 511. cbn zeta.
  set (v := match w with Some v => u32 v | None => 64 end).
  destruct (Z.ltb_spec v 1), (Z.ltb_spec 511 v); cbn; lia.
Qed.

Lemma no_attach (u : sfc7120_if cap) oks g : CAttach g ∉ teardown_calls u oks.
Proof.
  unfold teardown_calls. rewrite !elem_of_app, list_elem_of_fmap. intros [Hin | [Hin | [Hin | (? & ? & ?)]]]; try done.
  - apply elem_of_lookup_zip_with in Hin as (? & ? & ? & ? & _). done.
  - destruct (_ && ui_used_poll u); set_solver.
  - destruct (0 <=? ui_fd u); set_solver.
Qed.

Lemma goodbye_called (u : sfc7120_if cap) oks : 0 <= ui_fd u -> CGoodbye ∈ teardown_calls u oks.
Proof. intros Hfd. unfold teardown_calls. rewrite (proj2 (Z.leb_le _ _) Hfd). set_solver. Qed.

Lemma undone_calls (u : sfc7120_if cap) oks s s' :
  us_trace s' = us_trace s ++ teardown_calls u oks ->
  released (us_fds s) (us_heap s) (us_maps s) (teardown_calls u oks) s' -> undone s s'.
Proof.
  intros Ht Hr. exists (teardown_calls u oks). split_and!; [exact Ht | exact Hr |]. intros pre post E.
  destruct (no_attach u oks true). rewrite E. set_solver.
Qed.

Lemma undone_attach (u : sfc7120_if cap) oks ok s s' :
  0 <= ui_fd u -> us_trace s' = (us_trace s ++ [CAttach ok]) ++ teardown_calls u oks ->
  released (us_fds s) (us_heap s) (us_maps s) (teardown_calls u oks) s' -> undone s s'.
Proof.
  intros Hfd Ht Hr. exists (CAttach ok :: teardown_calls u oks). split_and!; [now rewrite Ht, <- app_assoc | exact Hr |].
  intros [| c pre] post [= _ E]; [rewrite <- E; now apply goodbye_called |].
  destruct (no_attach u oks true). rewrite E. set_solver.
Qed.

Section opening.
Context (F H : list Z) (M : list (Z * Z)) (Q : Z -> ust -> Prop) (s0 : ust) (env : init_env).
Hypothesis fds_open : 0 <= ui_fd (us_if s0) /\ 0 <= ui_modmap_fd (us_if s0).
Hypothesis on_fail : forall (u : sfc7120_if cap) oks s', ui_fd u = ui_fd (us_if s0) ->
  us_trace s' = us_trace s0 ++ teardown_calls u oks -> released F H M (teardown_calls u oks) s' -> Q (-1) s'.
Hypothesis on_ok : forall s', session F H M s' -> handle_ready (us_if s') -> Q 0 s'.

Lemma init_info_spec s :
  session F H M s -> us_trace s = us_trace s0 ->
  ui_fd (us_if s) = ui_fd (us_if s0) -> ui_modmap_fd (us_if s) = ui_modmap_fd (us_if s0) ->
  ui_tx_buffer (us_if s) && ui_rx_buffer (us_if s) && ui_tx_desc_ring (us_if s) && ui_rx_desc_ring (us_if s) &&
    ui_evq_ring (us_if s) = true ->
  ui_mmio_slices (us_if s) <> None -> ui_used_poll (us_if s) = false ->
  wp (init_info env) Q s.
Proof.
  intros Hs Ht Hfd Hmfd Hb Hsl Hp. unfold init_info.
  apply wp_bind, wp_gets, wp_bind, wp_gets, wp_bind, wp_sys. destruct (fst _) as [vi |].
  - set (seed := fun u : sfc7120_if cap => u <| ui_vi_info := vi |> <| ui_vi_info_valid := true |>
      <| ui_evq_read_ptr := vi_evq_read_ptr vi |> <| ui_rx_head := vi_rx_head vi |>
      <| ui_evq_civac := ie_civac env |> <| ui_rx_window := rx_window_of (ie_rx_window env) |>
      <| ui_tx_head := vi_tx_head vi |>).
    apply wp_bind, wp_modify, wp_bind, wp_sys. destruct (fst _) as [mac |].
    + apply wp_bind, wp_modify, wp_ret. apply on_ok.
      * eapply (keeps_session (fun u => (seed u) <| ui_mac_addr := mac |>)); [done | exact Hs | done..].
      * split; cbn; try done; [now rewrite Hfd, Hmfd | apply rx_window_of_range].
    + eapply (fail_step F H M Q s0 on_fail); [| exact Ht | exact Hfd].
      eapply (keeps_session seed); [done | exact Hs | done..].
  - eapply (fail_step F H M Q s0 on_fail); [| exact Ht | exact Hfd].
    eapply (keeps_session (fun u => u)); [done | exact Hs | done..].
Qed.

(** After the five DMA regions: touch them, map the registers, ask the kernel. *)
Lemma init_tail_spec s a0 a1 a3 a4 a5 l0 l1 l3 l4 l5 :
  session F H M s -> us_trace s = us_trace s0 ->
  ui_fd (us_if s) = ui_fd (us_if s0) -> ui_modmap_fd (us_if s) = ui_modmap_fd (us_if s0) ->
  ui_tx_buffer (us_if s) && ui_rx_buffer (us_if s) && ui_tx_desc_ring (us_if s) && ui_rx_desc_ring (us_if s) &&
    ui_evq_ring (us_if s) = true ->
  ui_mmio_slices (us_if s) = None -> ui_used_poll (us_if s) = false ->
  ui_region_maps (us_if s) =
    [(Some a0, l0); (Some a1, l1); (None, 0); (Some a3, l3); (Some a4, l4); (Some a5, l5); (None, 0)] ->
  prefault_len SFC7120_TX_BUFFER <= l0 -> prefault_len SFC7120_RX_BUFFER <= l1 ->
  prefault_len SFC7120_TX_DESC_RING <= l3 -> prefault_len SFC7120_RX_DESC_RING <= l4 ->
  prefault_len SFC7120_EVQ_RING <= l5 ->
  wp (init_tail env) Q s.
Proof.
  intros Hs Ht Hfd Hmfd Hb Hsl Hp Hr L0 L1 L3 L4 L5. unfold init_tail.
  apply wp_bind, (prefault_spec SFC7120_TX_BUFFER (Some a0) l0); [now rewrite Hr | done | done |].
  apply wp_bind, (prefault_spec SFC7120_RX_BUFFER (Some a1) l1); [now rewrite Hr | done | done |].
  apply wp_bind, (prefault_spec SFC7120_TX_DESC_RING (Some a3) l3); [now rewrite Hr | done | done |].
  apply wp_bind, (prefault_spec SFC7120_RX_DESC_RING (Some a4) l4); [now rewrite Hr | done | done |].
  apply wp_bind, (prefault_spec SFC7120_EVQ_RING (Some a5) l5); [now rewrite Hr | done | done |].
  apply wp_bind. eapply wp_mono; [apply (map_region_spec SFC7120_MMIO_REGION true _ _ _ _ Hs); [now rewrite Hr | done] |].
  intros [a |] s1 (Hs1 & Ht1 & Hif).
  - destruct Hif as (sl & n & len & E & _ & Hsome). rewrite Ht in Ht1.
    apply init_info_spec; rewrite ?E; cbn; auto.
  - eapply (fail_step F H M Q s0 on_fail); [exact Hs1 | now rewrite Ht1 | now rewrite Hif].
Qed.

Lemma init_regions_spec s :
  session F H M s -> us_trace s = us_trace s0 ->
  ui_fd (us_if s) = ui_fd (us_if s0) -> ui_modmap_fd (us_if s) = ui_modmap_fd (us_if s0) ->
  ui_region_maps (us_if s) = replicate (Z.to_nat SFC7120_REGION_COUNT) (None, 0) ->
  ui_mmio_slices (us_if s) = None -> ui_used_poll (us_if s) = false ->
  wp (init_regions env) Q s.
Proof.
  intros Hs Ht Hfd Hmfd Hr Hsl Hp. unfold init_regions.
  pose proof (map_step_spec F H M Q s0 on_fail) as step.
  eapply (step _ _ _ s); [done.. | now rewrite Hr |]. intros s1 a1 l1 Hs1 Ht1 L1 E1.
  eapply (step _ _ _ s1); [done.. | now rewrite E1 | done | rewrite E1; cbn; now rewrite Hr |].
  intros s2 a2 l2 Hs2 Ht2 L2 E2. rewrite E1 in E2.
  eapply (step _ _ _ s2); [done.. | now rewrite E2 | done | rewrite E2; cbn; now rewrite Hr |].
  intros s3 a3 l3 Hs3 Ht3 L3 E3. rewrite E2 in E3.
  eapply (step _ _ _ s3); [done.. | now rewrite E3 | done | rewrite E3; cbn; now rewrite Hr |].
  intros s4 a4 l4 Hs4 Ht4 L4 E4. rewrite E3 in E4.
  eapply (step _ _ _ s4); [done.. | now rewrite E4 | done | rewrite E4; cbn; now rewrite Hr |].
  intros s5 a5 l5 Hs5 Ht5 L5 E5. rewrite E4 in E5. clear E1 E2 E3 E4.
  apply (init_tail_spec s5 a1 a2 a3 a4 a5 l1 l2 l3 l4 l5); rewrite ?E5; cbn; auto. now rewrite Hr.
Qed.
End opening.

Lemma wp_open m (Q : Z -> ust -> Prop) s :
  (forall fd k, Q fd (s <| us_k := k |> <| us_fds ::= fun l => owned_fd fd ++ l |>)) -> wp (open m) Q s.
Proof.
  intros HQ. apply wp_bind, wp_sys. set (fd := fst _). specialize (HQ fd (snd (sys_open m (us_k s)))).
  unfold owned_fd in HQ. rewrite Z.ltb_antisym. destruct (0 <=? fd).
  - apply wp_bind, wp_modify, wp_ret, HQ.
  - apply wp_bind, wp_ret, wp_ret. now destruct s.
Qed.

(** What [sfc7120_init] on [s] leaves. *)
Definition session_post (s : ust) (r : Z) (s1 : ust) : Prop :=
  (r = -1 /\ undone s s1) \/
  (r = 0 /\ handle_ready (us_if s1) /\
   forall s2, used s1 s2 ->
     wp sfc7120_destroy (fun _ s3 => torn_down (us_fds s) (us_heap s) (us_maps s) s2 s3) s2).

Lemma session_post_fail s s1 :
  session (us_fds s) (us_heap s) (us_maps s) s1 -> us_trace s1 = us_trace s -> wp init_fail (session_post s) s1.
Proof.
  intros Hs Ht. eapply wp_mono; [apply (init_fail_spec _ _ _ _ Hs) |]. intros r s2 (-> & oks & _ & Ht2 & Hr).
  left. split; [done |]. rewrite Ht in Ht2. exact (undone_calls _ _ _ _ Ht2 Hr).
Qed.

Lemma init_attach_spec env s s1 :
  session (us_fds s) (us_heap s) (us_maps s) s1 -> us_trace s1 = us_trace s ->
  0 <= ui_fd (us_if s1) -> 0 <= ui_modmap_fd (us_if s1) ->
  ui_region_maps (us_if s1) = replicate (Z.to_nat SFC7120_REGION_COUNT) (None, 0) ->
  ui_mmio_slices (us_if s1) = None -> ui_cap_token (us_if s1) = None -> ui_used_poll (us_if s1) = false ->
  wp (init_attach env (ui_fd (us_if s1))) (session_post s) s1.
Proof.
  intros [Hf Hh Hm Hl] Ht Hfd Hmfd Hr Hsl Htok Hp. unfold init_attach.
  apply wp_bind, wp_malloc. intros b k. apply wp_bind, wp_modify.
  set (s2 := _ <| us_if ::= _ |>).
  assert (Hs2 : session (us_fds s) (us_heap s) (us_maps s) s2).
  { split; cbn; [exact Hf | | exact Hm | exact Hl]. rewrite Hh. unfold owned_heap. cbn. now rewrite Hsl, Htok. }
  destruct b as [b |]; [| now apply session_post_fail].
  apply wp_bind, wp_modify, wp_bind, wp_gets, wp_bind, wp_sys. destruct (fst _) as [ok req].
  apply wp_bind, wp_modify, wp_bind, wp_modify. set (s3 := _ <| us_if ::= fun u => u <| ui_cap_req := req |> |>).
  assert (Hs3 : session (us_fds s) (us_heap s) (us_maps s) s3)
    by (apply (keeps_session (fun u => u <| ui_cap_req := req |>) _ _ _ s2); done).
  assert (Hundo : forall (u : sfc7120_if cap) oks s', ui_fd u = ui_fd (us_if s3) ->
    us_trace s' = us_trace s3 ++ teardown_calls u oks ->
    released (us_fds s) (us_heap s) (us_maps s) (teardown_calls u oks) s' -> session_post s (-1) s').
  { intros u oks s' Eu Ht' Hrel. left. split; [done |]. apply (undone_attach u oks ok); [now rewrite Eu | | exact Hrel].
    rewrite Ht'. cbn. now rewrite Ht. }
  destruct ok.
  - apply (init_regions_spec (us_fds s) (us_heap s) (us_maps s) _ s3); try done.
    intros s' Hs' Hready. right. split_and!; [done | done |]. intros s4 Hu. apply destroy_spec.
    now apply (used_session _ _ _ s').
  - now apply (fail_step (us_fds s) (us_heap s) (us_maps s) _ s3).
Qed.

Lemma init_session_spec env s :
  ui_cap_token (us_if s) = None ->
  wp (sfc7120_init env) (session_post s) s.
Proof.
  intros Htok. unfold sfc7120_init.
  apply wp_bind, wp_modify, wp_bind, wp_open. intros fd k1. apply wp_bind, wp_modify.
  rewrite Z.ltb_antisym. unfold owned_fd. destruct (Z.leb_spec 0 fd) as [Hfd | Hfd]; cbn [negb].
  2: { apply wp_ret. left. split; [done |]. exists []. cbn. rewrite app_nil_r.
       split_and!; [done | done |]. now intros [| ? ?] ? [=]. }
  apply wp_bind, wp_open. intros mfd k2. apply wp_bind, wp_modify.
  set (s1 := _ <| us_if ::= fun u => u <| ui_modmap_fd := mfd |> |>).
  assert (Hs1 : session (us_fds s) (us_heap s) (us_maps s) s1).
  { split; [| unfold owned_heap; cbn; now rewrite Htok | done | done].
    cbn. unfold owned_fds. cbn. unfold owned_fd at 3. rewrite (proj2 (Z.leb_le _ _) Hfd). now rewrite <- app_assoc. }
  rewrite Z.ltb_antisym. destruct (Z.leb_spec 0 mfd); cbn [negb].
  - apply (init_attach_spec env s s1); done.
  - now apply session_post_fail.
Qed.

(** C29. A session of the user library gives back all it takes.  Two things are
    assumed: the caller's handle has a NULL [cap_token] (the struct was zeroed;
    [init_frees_stale_token] shows what happens otherwise), and the kernel never
    reports a region shorter than the bytes the library touches of it
    ([sizes_ok]; [Driver.attach_region_table] gives the lengths this driver
    reports).  Then [sfc7120_init], whatever the system calls answer, never
    frees or closes what the process does not hold and never touches a page
    beyond a region it has mapped.  When it fails, the process holds exactly what it
    held before and every attach the kernel granted was followed by a GOODBYE.
    When it succeeds the handle is ready for the data path, and however the
    data path is used, [sfc7120_destroy] calls munmap on every region in index
    order, tells the kernel the ring positions exactly when the session polled,
    says GOODBYE, closes both descriptors, and leaves the process with what it
    held before.  In both cases the only thing that can remain is a mapping whose
    munmap the kernel refused: the code reports the error and goes on. *)
Theorem user_session_balanced env s :
  ui_cap_token (us_if s) = None ->
  wp (sfc7120_init env) (session_post s) s.
Proof. apply init_session_spec. Qed.
End teardown.

Lemma unmap_none n i m s :
  ui_region_maps (us_if s) = replicate m (None, 0) -> unmap_regions n i s = Some (tt, s).
Proof.
  intros E. revert i. induction n as [| n IH]; intros i; [done |].
  cbn [unmap_regions]. unfold bind, geti, gets. rewrite E.
  assert (Hn : nth (Z.to_nat i) (replicate m (@None Z, 0)) (None, 0) = (None, 0)).
  { destruct (nth_in_or_default (Z.to_nat i) (replicate m (@None Z, 0)) (None, 0)) as [Hin | Hd]; [| exact Hd].
    now apply list_elem_of_In, elem_of_replicate in Hin as [-> _]. }
  rewrite Hn. apply IH.
Qed.

(** The handle must be zeroed first.  [sfc7120_init] does not set
    [cap_token] before the first [goto fail]: when /dev/modmap cannot be opened
    and the caller's struct holds a stale pointer there, the teardown frees a
    block the process does not own. *)
Theorem init_frees_stale_token env s b :
  ui_cap_token (us_if s) = Some b -> b ∉ us_heap s ->
  0 <= fst (sys_open false (us_k s)) -> fst (sys_open true (snd (sys_open false (us_k s)))) < 0 ->
  sfc7120_init env s = None.
Proof.
  intros Htok Hb Hfd Hmfd.
  destruct (sys_open false (us_k s)) as [fd k1] eqn:E1, (sys_open true k1) as [mfd k2] eqn:E2.
  cbn [fst snd] in Hfd, Hmfd. rewrite E2 in Hmfd. cbn [fst] in Hmfd.
  assert (T1 : (fd <? 0) = false) by lia. assert (T2 : (mfd <? 0) = true) by lia.
  assert (T3 : (0 <=? fd) = true) by lia.
  unfold sfc7120_init, open, sys, bind, modi, modify, ret, upd. cbn -[init_fail init_attach].
  repeat (first [rewrite E1 | rewrite E2 | rewrite T1 | rewrite T2]; cbn -[init_fail init_attach]).
  unfold init_fail, sfc7120_destroy, bind. erewrite unmap_none by reflexivity. cbn. rewrite T3. cbn. rewrite Htok.
  unfold kassert, bind. cbn. now rewrite bool_decide_eq_false_2.
Qed.
End user_init_proofs.
