(* ===== verification/UserModel.v ===== *)
(** * The user-space library on concrete sessions

    A NIC that posts the events it has been given, one at a time and only into
    free slots ([poster]); a handle on the attached driver of [Nic]; and a
    system that answers the library's calls.  The theorems of [UserLib] and
    [UserInit] are applied to them. *)

From stdpp Require Import sets.
From S2P Require Import Prelude Uapi Desc Capio CapioModel Softc DataPath Driver Nic UserLib UserInit.
Local Open Scope Z_scope.

(** ** A NIC that posts events *)

(** Its write pointer and the events still to come. *)
Definition poster : Type := Z * list Z.

Definition post_one (x : poster * dma) : poster * dma :=
  match x with
  | ((w, ev :: l), m) =>
      if ev_empty (arr_get (data_evq m) w) && negb (ev_empty ev) && (0 <=? w) && (w <? 512)
      then (((w + 1) mod 512, l), upd_data_evq (fun r => arr_set r w ev) m) else x
  | _ => x
  end.

#[export] Instance poster_device : Device poster := {
  dev_write _ _ x := x;
  dev_read _ x := (0, x);
  dev_delay _ x := x;
  dev_sync x := post_one x;
}.

#[export] Instance poster_laws : DeviceLaws poster.
Proof.
  split; try done. intros [[w [| ev l]] m] H; [exact H |]. cbn [dev_sync poster_device post_one].
  destruct (_ && _ && _ && _); [| exact H]. destruct H as [? [? ?] ? ?].
  split; cbn; try done. unfold arr_set. now rewrite length_insert.
Qed.

#[export] Instance poster_evq : EvqProducer poster := { ev_wptr d := fst d }.

Lemma fifo_post (w ev rptr : Z) (l q : list Z) m :
  dma_wf m -> fifo ((w, ev :: l), m) rptr q -> ev_empty (arr_get (data_evq m) w) = true -> ev_empty ev = false ->
  fifo (((w + 1) mod 512, l), upd_data_evq (fun r => arr_set r w ev) m) rptr (q ++ [ev]).
Proof.
  intros [_ [_ Hlen] _ _] [Hr Hl Hw Hne Hs] Hempty Hev. cbn [ev_wptr poster_evq fst snd] in *.
  assert (Hq : (length q < 512)%nat).
  { destruct (decide (length q = 512%nat)) as [E |]; [| lia]. exfalso.
    specialize (Hs 0%nat ltac:(lia)). destruct q as [| e q]; [done |]. cbn in Hs. inversion Hne; subst e.
    rewrite E in Hw. replace w with ((rptr + Z.of_nat 0) mod 512) in Hempty by (rewrite Hw; zdiv). congruence. }
  split; rewrite ?length_app; cbn [length ev_wptr poster_evq fst snd]; [done | lia | rewrite Hw; zdiv | |].
  - apply Forall_app. auto.
  - intros k Hk. specialize (Hs k Hk).
    change (data_evq (upd_data_evq (fun r => arr_set r w ev) m)) with (arr_set (data_evq m) w ev).
    destruct (decide (k = length q)) as [-> | Hne'].
    + rewrite lookup_app_r, Nat.sub_diag by lia. cbn. rewrite <- Hw. apply arr_get_set_eq. rewrite Hlen. zdiv.
    + rewrite arr_get_set_ne by (rewrite ?Hw; zdiv).
      destruct (decide (k < length q)%nat); [now rewrite lookup_app_l by lia |].
      rewrite lookup_ge_None_2 in Hs by lia. rewrite lookup_ge_None_2; [done |]. rewrite length_app. cbn. lia.
Qed.

#[export] Instance poster_evq_laws : EvqProducerLaws poster.
Proof.
  split.
  - intros [[w [| ev l]] m] rptr q Hwf Hf; [exists []; now rewrite app_nil_r |].
    cbn [dev_sync poster_device post_one].
    destruct (_ && _ && _ && _) eqn:E; [| exists []; now rewrite app_nil_r].
    exists [ev]. apply fifo_post; [exact Hwf | exact Hf | |]; destruct (ev_empty ev), (ev_empty (arr_get _ _)); done.
  - intros r v x rptr q _ Hf. exists []. now rewrite app_nil_r.
Qed.

(** ** A handle on the attached driver *)

Definition live_info : sfc7120_vi_info_req := ViInfo 0x100000 0x200000 0 1 0 0 512 512 512 0 0 0.

Definition uif : sfc7120_if mcap :=
  SfcIf 3 4 (CapReq cap_null cap_null) (replicate 6 0) true true true true true (Some 1) 5 live_info true 0 false false
    64 0 0 (replicate 7 (None, 0)) (replicate 512 None) (Some 2).

Definition live_user (w : world nic) : uworld mcap nic := UWorld uif w.

Lemma uif_ok : if_ok uif.
Proof. split; cbn; try lia. reflexivity. Qed.

#[local] Opaque live_node live_nic.

(** One of each kind of step a program makes. *)
Definition user_program : list user_op :=
  [UPoll true 8; UTxPost (Some (UserBuf true true 60 (fun _ => 5) None)) 60; UTxPostPaddr 0x300000 60;
   UTxPostPaddrNodbl 0x300000 60; UTxFlush; URxPeek true 74; URxRelease; URxReleasePaddr 0x400000 2048 (Some 9);
   URxPeekExt true 74; URxReleasePaddrNodbl 0x400000 2048 (Some 9); URxFlush; URxRecv (Some 2048) 74].

Lemma user_ops_confined_witness :
  match run_user_ops user_program (live_user live_nic) with
  | Some (_, s') => if_ok (u_if s') /\ w_sc (u_w s') = w_sc live_nic
  | None => exists pre op post s1, user_program = pre ++ op :: post /\
      run_user_ops pre (live_user live_nic) = Some (tt, s1) /\ op_faults op s1
  end.
Proof.
  pose proof (user_ops_confined user_program (live_user live_nic) uif_ok (dk_wf _ live_ok)) as H. cbv zeta in H.
  destruct (run_user_ops user_program (live_user live_nic)) as [[u s'] |].
  - destruct H as (? & _ & ? & _). auto.
  - destruct H as (pre & op & post & s1 & ? & ? & _ & ?). exists pre, op, post, s1. auto.
Defined.

(** With this NIC the program runs to its end. *)
Example user_program_runs : match run_user_ops user_program (live_user live_nic) with Some _ => true | None => false end = true.
Proof. vm_compute. reflexivity. Qed.

(** Two events wait and the NIC still has a third. *)
Definition rx_word : Z := 74.
Definition tx_word : Z := 0x2000000000000001.
Definition evq_dma : dma := upd_data_evq (fun r => arr_set (arr_set r 0 tx_word) 1 rx_word) dma0.
Definition poster_world : world poster := World softc_zero evq_dma (2, [rx_word]) [] 0 [] [] [].
Definition poster_user : uworld mcap poster := UWorld uif poster_world.

Lemma evq_dma_wf : dma_wf evq_dma.
Proof. destruct dma0_wf. now split. Qed.

Lemma evq_empty_from k : (2 <= k < 512)%nat -> ev_empty (arr_get (data_evq evq_dma) ((0 + Z.of_nat k) mod 512)) = true.
Proof.
  intros Hk. rewrite Z.mod_small by lia.
  change (data_evq evq_dma) with (arr_set (arr_set (replicate 512 0) 0 tx_word) 1 rx_word).
  rewrite !arr_get_set_ne by lia. unfold arr_get. now rewrite nth_lookup, lookup_replicate_2 by lia.
Qed.

Lemma poster_fifo : fifo (dev_of poster_user) 0 [tx_word; rx_word].
Proof.
  split; [lia | cbn; lia | reflexivity | repeat constructor |].
  intros k Hk. destruct k as [| [| k]]; [reflexivity | reflexivity |]. apply evq_empty_from. lia.
Qed.

Lemma poll_fifo_witness :
  wp (sfc7120_poll true 8) (fun r s' => (2 <= length (snd r))%nat \/ 8 <= fst r) poster_user.
Proof.
  eapply wp_mono; [apply (poll_fifo 8 [tx_word; rx_word] poster_user poster_fifo evq_dma_wf); [lia | done | done] |].
  intros r s' (posted & rest & _ & _ & _ & _ & H & _). cbn in H.
  destruct (Z.lt_ge_cases (fst r) 8); [left; auto | now right].
Defined.

Lemma tx_post_matches_kernel_witness :
  exists m, wp (sfc7120_tx_post (Some (tx_buf_addr tx60)) 60) (fun r s' => r = 0 /\
    (w_dev (u_w s'), w_dma (u_w s')) =
      push_desc (arr_get (tx_ring m) 0) 1 (w_dev live_nic, m)) (live_user live_nic).
Proof.
  assert (Hh : tx_head (sc_rings (w_sc live_nic)) = 0) by (vm_compute; reflexivity).
  destruct (tx_post_matches_kernel (tx_buf_addr tx60) 60 0 (live_user live_nic)) as (m & _ & H).
  - exact (dk_wf _ live_ok).
  - exact (dk_rings _ live_ok).
  - reflexivity.
  - reflexivity.
  - now symmetry.
  - symmetry. exact live_tx_base.
  - reflexivity.
  - split; reflexivity.
  - exists m. cbn [u_w live_user] in H. rewrite Hh in H. apply (wp_mono _ _ _ _ H). intros r s' (? & _ & _ & ?). auto.
Defined.

Lemma tx_batch_equiv_witness :
  exists s1 s2, tx_batch [(0x300000, 60); (0x300800, 0); (0x301000, 1500)] (live_user live_nic) = Some (tt, s1) /\
    tx_each [(0x300000, 60); (0x300800, 0); (0x301000, 1500)] (live_user live_nic) = Some (tt, s2) /\
    tx_ring (w_dma (u_w s1)) = tx_ring (w_dma (u_w s2)).
Proof.
  destruct (tx_batch_equiv [(0x300000, 60); (0x300800, 0); (0x301000, 1500)] (live_user live_nic))
    as (s1 & s2 & ? & ? & ? & _).
  - exact (dk_wf _ live_ok).
  - cbn. lia.
  - split; reflexivity.
  - intros r v [p m]. cbn. now destruct (r =? _).
  - exists s1, s2. auto.
Defined.

(** Sixty-four buffers, one window, each with its own handle. *)
Definition ext_bufs : list ext_buf := map (fun k => (0x400000 + 2048 * Z.of_nat k, 2048, Some (Z.of_nat k))) (seq 0 64).

Lemma ext_bufs_good : Forall good_buf ext_bufs.
Proof. repeat constructor. Qed.

Lemma rx_cookie_roundtrip_witness :
  wp (do* release_all ext_bufs; sfc7120_rx_peek_ext true 74) (fun r _ => r = (0, Some (Some 0, 60)))
    (live_user live_nic).
Proof.
  eapply wp_mono; [apply (rx_cookie_roundtrip ext_bufs 0x400000 2048 0 74 (live_user live_nic)
    uif_ok (dk_wf _ live_ok)) |].
  - cbn. lia.
  - reflexivity.
  - reflexivity.
  - exact ext_bufs_good.
  - vm_compute. lia.
  - reflexivity.
  - lia.
  - lia.
  - now intros r s' (-> & _).
Defined.

Lemma live_plen : frame_len (rx_mem (w_dma (synced (held_sc live_nic)))) 0 74 = 60.
Proof. vm_compute. reflexivity. Qed.

Lemma held_rx_base : rx_base (held_sc live_nic) = 0x200000.
Proof. vm_compute. reflexivity. Qed.

Lemma rx_recv_matches_kernel_witness :
  wp (sfc7120_rx_recv (Some 2048) 74) (fun r s' => fst r = 0 /\ ui_rx_head (u_if s') = 1) (live_user (held_sc live_nic)).
Proof.
  destruct (held_sc_parts live_nic live_ok) as (Hw & Hr & Hm).
  assert (Hh : rx_head (sc_rings (w_sc (held_sc live_nic))) = 0) by (vm_compute; reflexivity).
  destruct (rx_recv_matches_kernel 2048 74 (live_user (held_sc live_nic)) Hw Hr Hm) as (x & _ & H).
  - now symmetry.
  - exact (eq_sym held_rx_base).
  - reflexivity.
  - reflexivity.
  - reflexivity.
  - cbn [u_w live_user]. rewrite Hh, live_plen. lia.
  - cbn [u_w live_user]. rewrite Hh, live_plen. unfold rx_slot. vm_compute. congruence.
  - cbn [u_w live_user] in H. rewrite Hh in H. apply (wp_mono _ _ _ _ H). intros r s' (-> & -> & _). split; reflexivity.
Defined.

(** ** A system that answers the library's calls *)

(** Its state: whether /dev/modmap can be opened. *)
#[export] Instance plain_sys : UserSys Z bool := {
  cap_of_block b := b;
  sys_open modmap k := (if modmap : bool then (if k : bool then 4 else -1) else 3, k);
  sys_close _ k := k;
  sys_alloc k := (Some 77, k);
  sys_get_slices _ _ t k := (Some (if t =? 2 then 5 else 0, 0x200000), k);
  sys_map _ _ t _ _ _ k := (Some (0x10000000 + t * 0x1000000), k);
  sys_munmap _ _ k := (true, k);
  sys_attach _ r k := ((true, r), k);
  sys_goodbye _ _ k := k;
  sys_get_vi_info _ _ k := (Some live_info, k);
  sys_get_mac _ _ k := (Some (replicate 6 2), k);
  sys_set_evq_rptr _ _ _ k := (true, k);
  sys_tx _ _ _ k := (true, k);
  sys_rx _ _ _ k := (None, k);
}.

(** A handle with [token] where the caller's memory had it. *)
Definition fresh_handle (token : option Z) : sfc7120_if Z :=
  SfcIf 0 0 (CapReq 0 0) [] false false false false false None 0 live_info false 0 false false 0 0 0 []
    (replicate 512 None) token.
Definition process (modmap : bool) (token : option Z) : ust Z bool := Ust (fresh_handle token) modmap [0; 1; 2] [] [] [].

Lemma plain_sizes (m f : Z) t (k : bool) (n len : Z) :
  fst (sys_get_slices m f (region_int t) k) = Some (n, len) -> len = 0 \/ prefault_len t <= len.
Proof. intros [= _ <-]. right. destruct t; vm_compute; congruence. Qed.

Definition init_code (r : option (Z * ust Z bool)) : option Z := match r with Some (z, _) => Some z | None => None end.

(** The session opens, and the theorem's second case applies to it. *)
Lemma user_session_balanced_witness :
  init_code (sfc7120_init (InitEnv false None) (process true None)) = Some 0 /\
  wp (sfc7120_init (InitEnv false None)) (session_post (process true None)) (process true None).
Proof.
  split; [vm_compute; reflexivity |].
  apply (user_session_balanced plain_sizes (InitEnv false None) (process true None)).
  reflexivity.
Defined.

Lemma init_frees_stale_token_witness : sfc7120_init (InitEnv false None) (process false (Some 5)) = None.
Proof.
  apply (init_frees_stale_token (InitEnv false None) (process false (Some 5)) 5).
  - reflexivity.
  - apply not_elem_of_nil.
  - cbn. lia.
  - cbn. lia.
Defined.
