(* ===== verification/Pmd.v ===== *)
(** * The DPDK poll-mode driver: bursts

    The receive and transmit bursts of [fstack-capio/rte_eth_capio.c] over the
    user-space library of [UserLib].  DPDK's mbuf pool is the class [Mempool];
    an mbuf is its address, and the ones taken out of the pool and not yet
    given back are tracked: freeing any other is undefined behaviour, [None],
    as is copying past the end of a buffer. *)

From stdpp Require Import sets.
From S2P Require Import Prelude Uapi Desc Capio Softc DataPath UserLib UserInit.
Local Open Scope Z_scope.

Definition CAPIO_MAX_BURST : Z := 32.
Definition CAPIO_MIN_TX_FRAME : Z := 60.

Class Mempool (P : Type) := {
  pool_bulk : P -> option (list Z) * P;    (* rte_pktmbuf_alloc_bulk of 64 *)
  pool_alloc : P -> option Z * P;          (* rte_pktmbuf_alloc *)
  mb_iova : Z -> Z;                        (* rte_mbuf_data_iova_default *)
  mb_room : Z -> Z;                        (* rte_pktmbuf_tailroom of a fresh mbuf *)
}.

(** [rq_stash]: the entries below [nstash], the last one first. *)
Record capio_rx_queue := RxQ {
  rq_stash : list Z;
  rq_pkts : Z;
  rq_bytes : Z;
  rq_nombuf : Z;
}.
#[export] Instance eta_capio_rx_queue : Eta capio_rx_queue := fun q =>
  RxQ (rq_stash q) (rq_pkts q) (rq_bytes q) (rq_nombuf q).

Record capio_tx_queue := TxQ {
  tq_inflight : list (option Z);
  tq_last_freed : Z;
  tq_inflight_cnt : Z;
  tq_pkts : Z;
  tq_bytes : Z;
  tq_dropped : Z;
}.
#[export] Instance eta_capio_tx_queue : Eta capio_tx_queue := fun q =>
  TxQ (tq_inflight q) (tq_last_freed q) (tq_inflight_cnt q) (tq_pkts q) (tq_bytes q) (tq_dropped q).

Record capio_internals (cap D P : Type) := Pi {
  pi_tx_copy_mode : bool;
  pi_sfc : uworld cap D;
  pi_rxq : capio_rx_queue;
  pi_txq : capio_tx_queue;
  pi_pool : P;
  pi_owned : list Z;
}.
Arguments Pi {cap D P}. Arguments pi_tx_copy_mode {cap D P}. Arguments pi_sfc {cap D P}.
Arguments pi_rxq {cap D P}. Arguments pi_txq {cap D P}. Arguments pi_pool {cap D P}. Arguments pi_owned {cap D P}.
#[export] Instance eta_capio_internals cap D P : Eta (capio_internals cap D P) := fun s =>
  Pi (pi_tx_copy_mode s) (pi_sfc s) (pi_rxq s) (pi_txq s) (pi_pool s) (pi_owned s).

(** An mbuf the application sends: its segments by length and contents. *)
Record tx_mbuf := TxMbuf {
  tm_addr : Z;
  tm_iova : Z;                             (* rte_mbuf_data_iova *)
  tm_pkt_len : Z;
  tm_segs : list (Z * (Z -> Z));
}.

Section pmd.
Context {cap D P : Type} `{!Device D} `{!Mempool P}.
Abbreviation pmd := (capio_internals cap D P).

Definition sfc {A} (m : ST (uworld cap D) A) : ST pmd A := fun s =>
  match m (pi_sfc s) with
  | Some (a, u) => Some (a, s <| pi_sfc := u |>)
  | None => None
  end.
Definition pool {A} (f : P -> A * P) : ST pmd A := fun s =>
  let '(a, p) := f (pi_pool s) in Some (a, s <| pi_pool := p |>).
Definition mod_rxq (f : capio_rx_queue -> capio_rx_queue) : ST pmd unit := modify (fun s => s <| pi_rxq ::= f |>).
Definition mod_txq (f : capio_tx_queue -> capio_tx_queue) : ST pmd unit := modify (fun s => s <| pi_txq ::= f |>).
Definition own (l : list Z) : ST pmd unit := modify (fun s => s <| pi_owned ::= app l |>).

Definition rte_pktmbuf_free (m : Z) : ST pmd unit :=
  do* kassert (fun s => bool_decide (m ∈ pi_owned s));
  modify (fun s => s <| pi_owned ::= drop_one m |>).

Definition capio_post_mbuf (m : Z) : ST pmd Z :=
  let room := u16 (mb_room m) in
  let room := if SFC7120_RX_BUFFER_SIZE <? room then SFC7120_RX_BUFFER_SIZE else room in
  sfc (sfc7120_rx_release_paddr_nodbl (mb_iova m) room (Some m)).

Definition capio_mbuf_get : ST pmd (option Z) :=
  let* stash := gets (fun s => rq_stash (pi_rxq s)) in
  match stash with
  | m :: rest => do* mod_rxq (fun q => q <| rq_stash := rest |>); ret (Some m)
  | [] =>
      let* l := pool pool_bulk in
      match l with
      | None =>
          let* m := pool pool_alloc in
          do* own (opt_list m);
          ret m
      | Some l =>
          do* own l;
          match reverse l with
          | m :: rest => do* mod_rxq (fun q => q <| rq_stash := rest |>); ret (Some m)
          | [] => panic
          end
      end
  end.

(** ** Transmit completions *)

(** The [while (f != done)] loop; each turn moves [f] on by one slot. *)
Fixpoint reap_loop (fuel : nat) (f done : Z) : ST pmd unit :=
  if f =? done then ret tt
  else
  match fuel with
  | O => panic
  | S fuel' =>
      let f := Z.land (u32 (f + 1)) (SFC7120_NUM_TX_DESC - 1) in
      let* m := gets (fun s => nth (Z.to_nat f) (tq_inflight (pi_txq s)) None) in
      do* match m with
          | Some m => do* rte_pktmbuf_free m; mod_txq (fun q => q <| tq_inflight ::= insert (Z.to_nat f) None |>)
          | None => ret tt
          end;
      do* mod_txq (fun q => if 0 <? tq_inflight_cnt q then q <| tq_inflight_cnt ::= fun c => c - 1 |> else q);
      reap_loop fuel' f done
  end.

Definition REAP_FUEL : nat := 511.

Definition reap (tx_desc_idx : Z) : ST pmd unit :=
  let done := Z.land tx_desc_idx (SFC7120_NUM_TX_DESC - 1) in
  let* f := gets (fun s => tq_last_freed (pi_txq s)) in
  do* reap_loop REAP_FUEL f done;
  mod_txq (fun q => q <| tq_last_freed := done |>).

(** ** eth_capio_rx *)

(** What one event comes to: leave the loop, nothing, or an mbuf and its length. *)
Inductive rx_step := RxBreak | RxNext | RxOut (m len : Z).

Definition count_rx (len : Z) : ST pmd unit :=
  mod_rxq (fun q => q <| rq_pkts ::= fun n => u64 (n + 1) |> <| rq_bytes ::= fun n => u64 (n + len) |>).
Definition count_nombuf : ST pmd unit := mod_rxq (fun q => q <| rq_nombuf ::= fun n => u64 (n + 1) |>).

Definition rx_finish (m repl len : Z) : ST pmd rx_step :=
  if len =? 0 then
    do* rte_pktmbuf_free m;
    do* capio_post_mbuf repl;
    ret RxNext
  else
    do* capio_post_mbuf repl;
    do* count_rx len;
    ret (RxOut m (u16 len)).

(** A slot that still holds a library buffer; [copy] is CAPIO_RX_COPY. *)
Definition rx_copied (copy : bool) (m rx_bytes : Z) : ST pmd rx_step :=
  let* r := sfc (sfc7120_rx_peek true rx_bytes) in
  let '(pkt, plen, _) := default (0, 0, 0) (snd r) in
  if negb (fst r =? 0) || (plen =? 0) then
    do* rte_pktmbuf_free m;
    do* sfc sfc7120_rx_release;
    ret RxNext
  else
  let* repl := capio_mbuf_get in
  match repl with
  | None =>
      do* count_nombuf;
      do* rte_pktmbuf_free m;
      do* sfc sfc7120_rx_release;
      ret RxNext
  | Some repl =>
      do* kassert (fun _ => (plen <=? mb_room m) && (pkt + plen <=? SFC7120_NUM_RX_DESC * SFC7120_RX_BUFFER_SIZE));
      if copy then
        do* rte_pktmbuf_free repl;
        do* sfc sfc7120_rx_release;
        do* count_rx plen;
        ret (RxOut m (u16 plen))
      else rx_finish m repl plen
  end.

Definition rx_packet (copy : bool) (rx_bytes : Z) : ST pmd rx_step :=
  let* r := sfc (sfc7120_rx_peek_ext true rx_bytes) in
  if negb (fst r =? 0) then ret RxBreak
  else
  let '(cookie, len) := default (None, 0) (snd r) in
  let* repl := capio_mbuf_get in
  match repl with
  | None =>
      do* count_nombuf;
      do* match cookie with
          | Some m => capio_post_mbuf m
          | None => sfc sfc7120_rx_release
          end;
      ret RxNext
  | Some repl =>
      match (if copy then None else cookie) with
      | None => rx_copied copy repl rx_bytes
      | Some m => rx_finish m repl len
      end
  end.

Definition rx_event (copy : bool) (ev : sfc7120_ev) : ST pmd rx_step :=
  match ue_type ev with
  | SFC7120_EV_RX => rx_packet copy (ue_rx_bytes ev)
  | SFC7120_EV_TX => do* reap (ue_tx_desc_idx ev); ret RxNext
  | SFC7120_EV_OTHER => ret RxNext
  end.

Fixpoint rx_events (copy : bool) (evs : list sfc7120_ev) : ST pmd (list (Z * Z)) :=
  match evs with
  | [] => ret []
  | ev :: evs' =>
      let* r := rx_event copy ev in
      match r with
      | RxBreak => ret []
      | RxNext => rx_events copy evs'
      | RxOut m len => let* rest := rx_events copy evs' in ret ((m, len) :: rest)
      end
  end.

Definition eth_capio_rx (copy : bool) (nb_bufs : Z) : ST pmd (list (Z * Z)) :=
  if nb_bufs =? 0 then ret []
  else
  let nb_bufs := if CAPIO_MAX_BURST <? nb_bufs then CAPIO_MAX_BURST else nb_bufs in
  let* r := sfc (UserLib.sfc7120_poll true nb_bufs) in
  if fst r <=? 0 then ret []
  else
  let* out := rx_events copy (snd r) in
  do* sfc sfc7120_rx_flush;
  ret out.

(** ** eth_capio_tx *)

(** Copy the segments one after the other into [linbuf]. *)
Fixpoint linearize (segs : list (Z * (Z -> Z))) (off : Z) (linbuf : Z -> Z) : ST pmd (Z * (Z -> Z)) :=
  match segs with
  | [] => ret (off, linbuf)
  | (len, bytes) :: segs' =>
      do* kassert (fun _ => off + len <=? SFC7120_TX_BUFFER_SIZE);
      linearize segs' (off + len) (store_bytes off len bytes linbuf)
  end.

Definition zero_bytes : Z -> Z := fun _ => 0.
Definition local_buf (len : Z) (bytes : Z -> Z) : option user_buf := Some (UserBuf true true len bytes None).

Definition count_tx (len : Z) : ST pmd unit :=
  mod_txq (fun q => q <| tq_pkts ::= fun n => u64 (n + 1) |> <| tq_bytes ::= fun n => u64 (n + len) |>).
Definition count_inflight : ST pmd unit := mod_txq (fun q => q <| tq_inflight_cnt ::= fun n => u32 (n + 1) |>).
Definition count_dropped : ST pmd unit := mod_txq (fun q => q <| tq_dropped ::= fun n => u64 (n + 1) |>).

(** A chained mbuf, through the copying post. *)
Definition tx_chain (m : tx_mbuf) : ST pmd unit :=
  do* (if tm_pkt_len m <=? SFC7120_TX_BUFFER_SIZE then
         let* r := linearize (tm_segs m) 0 zero_bytes in
         let '(off, linbuf) := r in
         let '(off, linbuf) :=
           if off <? CAPIO_MIN_TX_FRAME
           then (CAPIO_MIN_TX_FRAME, store_bytes off (CAPIO_MIN_TX_FRAME - off) zero_bytes linbuf)
           else (off, linbuf) in
         let* e := sfc (sfc7120_tx_post (local_buf SFC7120_TX_BUFFER_SIZE linbuf) off) in
         if e =? 0 then count_tx off else count_dropped
       else count_dropped);
  rte_pktmbuf_free (tm_addr m).

(** Drop [m] and leave the loop. *)
Definition tx_stop (m : tx_mbuf) : ST pmd bool :=
  do* count_dropped;
  do* rte_pktmbuf_free (tm_addr m);
  ret false.

(** Post a copy of the frame and free the mbuf at once. *)
Definition tx_copied (m : tx_mbuf) (buf : option user_buf) (len : Z) : ST pmd bool :=
  let* e := sfc (sfc7120_tx_post buf len) in
  if negb (e =? 0) then tx_stop m
  else
  do* rte_pktmbuf_free (tm_addr m);
  do* count_tx len;
  do* count_inflight;
  ret true.

(** One mbuf; [false] leaves the loop. *)
Definition tx_one (m : tx_mbuf) : ST pmd bool :=
  match tm_segs m with
  | [(data_len, bytes)] =>
      let len := tm_pkt_len m in
      let* cnt := gets (fun s => tq_inflight_cnt (pi_txq s)) in
      if SFC7120_NUM_TX_DESC - 16 <=? cnt then tx_stop m
      else if len <? CAPIO_MIN_TX_FRAME then
        tx_copied m (local_buf CAPIO_MIN_TX_FRAME (store_bytes 0 len bytes zero_bytes)) CAPIO_MIN_TX_FRAME
      else
      let* copy_mode := gets pi_tx_copy_mode in
      if copy_mode : bool then tx_copied m (local_buf data_len bytes) len
      else
      let* slot := gets (fun s => Z.land (ui_tx_head (u_if (pi_sfc s))) (SFC7120_NUM_TX_DESC - 1)) in
      let* e := sfc (sfc7120_tx_post_paddr_nodbl (tm_iova m) len) in
      if negb (e =? 0) then tx_stop m
      else
      do* mod_txq (fun q => q <| tq_inflight ::= insert (Z.to_nat slot) (Some (tm_addr m)) |>);
      do* count_tx len;
      do* count_inflight;
      ret true
  | _ => do* tx_chain m; ret true
  end.

(** The number of mbufs gone through. *)
Fixpoint tx_loop (bufs : list tx_mbuf) : ST pmd Z :=
  match bufs with
  | [] => ret 0
  | m :: bufs' =>
      let* more := tx_one m in
      if more : bool then let* n := tx_loop bufs' in ret (n + 1) else ret 0
  end.

Definition eth_capio_tx (bufs : list tx_mbuf) : ST pmd Z :=
  let* i := tx_loop bufs in
  do* (if 0 <? i then sfc sfc7120_tx_flush else ret tt);
  ret i.

(** ** Statistics *)

Definition eth_stats_reset : ST pmd Z :=
  do* mod_rxq (fun q => q <| rq_pkts := 0 |> <| rq_bytes := 0 |> <| rq_nombuf := 0 |>);
  do* mod_txq (fun q => q <| tq_pkts := 0 |> <| tq_bytes := 0 |> <| tq_dropped := 0 |>
                          <| tq_last_freed := SFC7120_NUM_TX_DESC - 1 |> <| tq_inflight_cnt := 0 |>);
  ret 0.
End pmd.

(** ** What the theorems assume of DPDK and of the NIC *)

(** Mbufs are addressable and have room for a receive buffer; a bulk
    allocation is all or nothing. *)
Class MempoolLaws (P : Type) `{!Mempool P} := {
  bulk_all : forall p l, fst (pool_bulk p) = Some l -> length l = 64%nat;
  iova_ok : forall m, 0 < mb_iova m;
  room_ok : forall m, SFC7120_RX_BUFFER_SIZE <= mb_room m < 2 ^ 16;
}.

Section ring.
Context {cap D : Type} `{!Device D} `{!DeviceLaws D} `{!FrameLaws D}.
Abbreviation uworld := (uworld cap D).
Implicit Types (s : uworld) (u : sfc7120_if cap).

(** A session that receives with a window of [w] descriptors. *)
Record ring_ok (w : Z) s : Prop := {
  ro_if : if_ok (u_if s);
  ro_wf : w_wf (u_w s);
  ro_fit : frames_fit (w_dma (u_w s));
  ro_window : ui_rx_window (u_if s) = w;
  ro_maps : ui_rx_buffer (u_if s) && ui_rx_desc_ring (u_if s) && ui_evq_ring (u_if s) = true;
  ro_slices : has_slice SFC7120_SLICE_RX_DESC_DBL (u_if s) && has_slice SFC7120_SLICE_DATA_EVQ_RPTR_DBL (u_if s) = true;
}.

(** The receive side of the handle is as it was. *)
Definition same_rx s s' : Prop :=
  ui_rx_head (u_if s') = ui_rx_head (u_if s) /\ ui_rx_ext_cookie (u_if s') = ui_rx_ext_cookie (u_if s).

Lemma wp_sync_fit (Q : unit -> uworld -> Prop) s :
  w_wf (u_w s) -> frames_fit (w_dma (u_w s)) ->
  (forall w, w_wf w -> frames_fit (w_dma w) -> Q tt (s <| u_w := w |>)) -> wp (shared sync_postread) Q s.
Proof.
  intros Hw Hf HQ. apply wp_shared, wp_modify. cbn [w_dev w_dma].
  pose proof (dev_sync_wf (w_dev (u_w s), w_dma (u_w s)) Hw) as Hwf.
  pose proof (sync_fits (w_dev (u_w s), w_dma (u_w s)) Hw Hf) as Hfit.
  destruct (dev_sync _) as [d m]. now apply HQ.
Qed.

Lemma wp_store_fit i k v r (Q : unit -> uworld -> Prop) s :
  slice_reg i k = Some r -> w_wf (u_w s) -> frames_fit (w_dma (u_w s)) ->
  (forall w, w_wf w -> frames_fit (w_dma w) -> Q tt (s <| u_w := w |>)) -> wp (slice_store i k v) Q s.
Proof.
  intros Hr Hw Hf HQ. apply (wp_slice_store i k v r); [done | done |]. intros w _ _ Hwf Hd. apply HQ; [done |].
  apply (f_equal snd) in Hd. cbn in Hd. rewrite Hd. now apply write_fits.
Qed.

Lemma slot_plen_spec head n s :
  w_wf (u_w s) -> frames_fit (w_dma (u_w s)) -> 0 <= head < 512 -> 0 <= n <= 2048 ->
  wp (slot_plen head n) (fun plen s' => 0 <= plen <= 2034 /\ u_if s' = u_if s /\
    w_wf (u_w s') /\ frames_fit (w_dma (u_w s'))) s.
Proof.
  intros Hw Hf Hh Hn. apply wp_bind, wp_sync_fit; [done | done |]. intros w Hw1 Hf1.
  do 2 (apply wp_bind, wp_shared, wp_rx_byte; [now apply slot_byte |]). apply wp_ret.
  split; [| done]. apply rx_plen_fits; [| done]. now apply Hf1.
Qed.

(** The flags one by one. *)
Lemma ring_flags w s : ring_ok w s ->
  ui_rx_buffer (u_if s) = true /\ ui_rx_desc_ring (u_if s) = true /\ ui_evq_ring (u_if s) = true /\
  has_slice SFC7120_SLICE_RX_DESC_DBL (u_if s) = true /\ has_slice SFC7120_SLICE_DATA_EVQ_RPTR_DBL (u_if s) = true.
Proof. intros [_ _ _ _ Hm Hs]. apply andb_prop in Hm as [[? ?]%andb_prop ?], Hs as [? ?]. auto. Qed.

Lemma ring_ok_intro w s s' :
  ring_ok w s -> if_ok (u_if s') -> w_wf (u_w s') -> frames_fit (w_dma (u_w s')) ->
  ui_rx_window (u_if s') = ui_rx_window (u_if s) -> ui_rx_buffer (u_if s') = ui_rx_buffer (u_if s) ->
  ui_rx_desc_ring (u_if s') = ui_rx_desc_ring (u_if s) -> ui_evq_ring (u_if s') = ui_evq_ring (u_if s) ->
  ui_mmio_slices (u_if s') = ui_mmio_slices (u_if s) -> ui_mmio_slices_len (u_if s') = ui_mmio_slices_len (u_if s) ->
  ring_ok w s'.
Proof.
  intros [? ? ? ? ? ?] ? ? ? E1 E2 E3 E4 E5 E6. split; unfold has_slice in *; now rewrite ?E1, ?E2, ?E3, ?E4, ?E5, ?E6.
Qed.

Lemma peek_ext_spec w n s :
  ring_ok w s -> 0 <= n <= 2048 ->
  wp (sfc7120_rx_peek_ext true n) (fun r s' => ring_ok w s' /\ same_rx s s' /\
    exists len, r = (0, Some (slot_cookie (u_if s) (ui_rx_head (u_if s)), len)) /\ 0 <= len <= 2034) s.
Proof.
  intros Hs Hn. destruct (ring_flags w s Hs) as (Hrxb & Hrxd & _ & Hs1 & _).
  pose proof Hs as [Hif Hw Hf _ _ _]. unfold sfc7120_rx_peek_ext.
  apply wp_bind, wp_getu. rewrite Hrxd, Hs1. cbn [negb andb orb].
  apply wp_bind, wp_modu. set (s1 := s <| u_if ::= _ |>). do 3 apply wp_bind, wp_getu.
  change (ui_rx_buffer (u_if s1)) with (ui_rx_buffer (u_if s)). rewrite Hrxb. apply wp_bind.
  change (ui_rx_head (u_if s1)) with (ui_rx_head (u_if s)).
  assert (wp (slot_plen (ui_rx_head (u_if s)) n) (fun plen s' => 0 <= plen <= 2034 /\ u_if s' = u_if s1 /\
    w_wf (u_w s') /\ frames_fit (w_dma (u_w s'))) s1) as Hlib by (apply slot_plen_spec; try done; apply Hif).
  assert (wp (ret (rx_plen 0 0 n)) (fun plen s' => 0 <= plen <= 2034 /\ u_if s' = u_if s1 /\
    w_wf (u_w s') /\ frames_fit (w_dma (u_w s'))) s1) as Hext.
  { apply wp_ret. split; [| done]. now apply rx_plen_fits. }
  eapply wp_mono; [destruct (nth _ _ _); [exact Hext | exact Hlib] |].
  intros plen s2 (Hp & E & Hw2 & Hf2). apply wp_ret. split; [| split].
  - apply (ring_ok_intro w s); try done; rewrite E; try done. now destruct Hif.
  - unfold same_rx. now rewrite E.
  - now exists plen.
Qed.

Lemma rx_peek_spec w n s :
  ring_ok w s -> 0 <= n <= 2048 ->
  wp (sfc7120_rx_peek true n) (fun r s' => ring_ok w s' /\ same_rx s s' /\
    exists plen pa, r = (0, Some (rx_slot (ui_rx_head (u_if s)) + 14, plen, pa)) /\ 0 <= plen <= 2034) s.
Proof.
  intros Hs Hn. destruct (ring_flags w s Hs) as (Hrxb & Hrxd & _ & Hs1 & _).
  pose proof Hs as [Hif Hw Hf _ _ _]. unfold sfc7120_rx_peek.
  apply wp_bind, wp_getu. rewrite Hrxb, Hrxd, Hs1. cbn [negb andb orb].
  apply wp_bind, wp_modu. set (s1 := s <| u_if ::= _ |>). apply wp_bind, wp_getu, wp_bind.
  change (ui_rx_head (u_if s1)) with (ui_rx_head (u_if s)).
  eapply wp_mono; [apply slot_plen_spec; [done | done | apply Hif | done] |].
  intros plen s2 (Hp & E & Hw2 & Hf2). apply wp_bind, wp_getu, wp_ret. split; [| split].
  - apply (ring_ok_intro w s); try done; rewrite E; try done. now destruct Hif.
  - unfold same_rx. now rewrite E.
  - now exists plen, (u64 (vi_rx_buffer_paddr (ui_vi_info (u_if s2)) + rx_slot (ui_rx_head (u_if s)) + SFC7120_EF10_RX_PREFIX_LEN)).
Qed.

Lemma ring_window_spec w s :
  ring_ok w s -> wp ring_rx_window (fun _ s' => ring_ok w s' /\ u_if s' = u_if s) s.
Proof.
  intros Hs. pose proof Hs as [Hif Hw Hf _ _ _]. apply wp_bind, wp_getu.
  eapply (wp_store_fit _ _ _ SFC7120_REG_DATA_RX_DESC_DBL); [reflexivity | done | done |]. intros w' Hw' Hf'.
  split; [| done]. now apply (ring_ok_intro w s).
Qed.

Lemma rx_flush_spec w s :
  ring_ok w s -> wp sfc7120_rx_flush (fun _ s' => ring_ok w s' /\ same_rx s s') s.
Proof.
  intros Hs. destruct (ring_flags w s Hs) as (_ & _ & _ & Hs1 & _). apply wp_bind, wp_getu. rewrite Hs1. cbn [negb].
  eapply wp_mono; [now apply (ring_window_spec w) |]. intros _ s' [H E]. split; [done |]. unfold same_rx. now rewrite E.
Qed.

Lemma next_slot_head s : if_ok (u_if s) -> next_slot (ui_rx_head (u_if s)) = (ui_rx_head (u_if s) + 1) mod 512.
Proof. intros []. apply next_slot_mod. lia. Qed.

(** Giving the library's own buffer back. *)
Lemma rx_release_spec w s :
  ring_ok w s ->
  wp sfc7120_rx_release (fun _ s' => ring_ok w s' /\ ui_rx_head (u_if s') = (ui_rx_head (u_if s) + 1) mod 512 /\
    ui_rx_ext_cookie (u_if s') = ui_rx_ext_cookie (u_if s)) s.
Proof.
  intros Hs. destruct (ring_flags w s Hs) as (_ & Hrxd & _ & Hs1 & _). pose proof Hs as [Hif Hw Hf _ _ _].
  apply wp_bind, wp_getu. rewrite Hrxd, Hs1. cbn [negb andb].
  apply wp_bind, wp_getu, wp_bind, wp_getu, wp_bind, wp_shared, wp_ring_store; [apply Hif |].
  apply wp_bind, wp_modu, wp_bind. rewrite next_slot_head by done.
  set (s1 := _ <| u_if ::= _ |>).
  eapply wp_mono; [apply (ring_window_spec w s1) |].
  - apply (ring_ok_intro w s); try done.
    + destruct Hif. split; try done. cbn. apply Z.mod_pos_bound. lia.
    + now apply arr_set_wf_rx.
    + now apply fits_rx_ring.
  - intros _ s2 [H2 E]. apply wp_ret. split; [done |]. now rewrite E.
Qed.

(** Posting an mbuf at the tail of the window. *)
Lemma rx_post_spec w paddr len m s :
  ring_ok w s -> 0 <= w < 512 -> bad_rx_buffer paddr len = false ->
  wp (sfc7120_rx_release_paddr_nodbl paddr len (Some m)) (fun _ s' => ring_ok w s' /\
    ui_rx_head (u_if s') = (ui_rx_head (u_if s) + 1) mod 512 /\
    ui_rx_ext_cookie (u_if s') = <[Z.to_nat ((ui_rx_head (u_if s) + w) mod 512) := Some m]> (ui_rx_ext_cookie (u_if s))) s.
Proof.
  intros Hs Hwin Hb. destruct (ring_flags w s Hs) as (_ & Hrxd & _ & _ & _). pose proof Hs as [Hif Hw Hf Ew _ _].
  apply wp_bind, wp_getu. rewrite Hrxd, Hb. cbn [negb orb]. apply wp_bind, wp_getu.
  rewrite rx_wptr_tail by (rewrite ?Ew; apply Hif || done). unfold rx_tail. rewrite Ew, Z.add_0_r.
  apply wp_bind, wp_shared, wp_ring_store; [apply Z.mod_pos_bound; lia |].
  apply wp_bind, wp_modu, wp_bind, wp_modu, wp_ret.
  split; [| split; [cbn; now rewrite next_slot_head | done]]. apply (ring_ok_intro w s); try done.
  - destruct Hif. split; try done; cbn; [apply next_slot_range | now rewrite length_insert].
  - now apply arr_set_wf_rx.
  - now apply fits_rx_ring.
Qed.

Definition ev_fits (ev : sfc7120_ev) : Prop := 0 <= ue_rx_bytes ev <= 2048.

Lemma decode_ev_fits ev : (ev_code ev = SFC7120_EV_CODE_RX -> ev_rx_bytes ev <= 2048) -> ev_fits (decode_ev ev).
Proof.
  intros H. unfold ev_fits, decode_ev. destruct (Z.eqb_spec (ev_code ev) 0) as [Hc | _]; [| destruct (_ =? 2)]; cbn; try lia.
  split; [| now apply H]. unfold ev_rx_bytes. apply Z.land_nonneg. lia.
Qed.

Lemma poll_loop_fits w n : forall s, ring_ok w s ->
  wp (poll_loop n) (fun l s' => ring_ok w s' /\ same_rx s s' /\ Forall ev_fits l /\ (length l <= n)%nat) s.
Proof.
  induction n as [| n IH]; intros s Hs; cbn [poll_loop].
  { apply wp_ret. repeat split; try constructor; apply Hs. }
  pose proof Hs as [Hif Hw Hf _ _ _]. apply wp_bind, wp_getu, wp_bind, wp_sync_fit; [done | done |]. intros w1 Hw1 Hf1.
  apply wp_bind, wp_shared, wp_ring_load; [apply Hif |].
  set (rptr := ui_evq_read_ptr (u_if s)). assert (0 <= rptr < 512) as Hr by apply Hif.
  destruct (ev_empty _).
  { apply wp_ret. split; [now apply (ring_ok_intro w s) |]. repeat split; [constructor | cbn; lia]. }
  apply wp_bind, wp_shared, wp_ring_store; [exact Hr |]. apply wp_bind, wp_modu, wp_bind.
  eapply wp_mono; [apply IH |].
  - apply (ring_ok_intro w s); try done.
    + destruct Hif. split; try done. apply next_slot_range.
    + cbn. now apply arr_set_wf_data.
    + cbn. now apply fits_consume.
  - intros l s2 (H2 & Hsame & HF & Hl). apply wp_ret. split; [done |]. split; [exact Hsame |].
    split; [| cbn; lia]. constructor; [| done]. apply decode_ev_fits. now apply Hf1.
Qed.

Lemma poll_fits w max s :
  ring_ok w s -> 0 < max ->
  wp (UserLib.sfc7120_poll true max) (fun r s' => ring_ok w s' /\ same_rx s s' /\ Forall ev_fits (snd r) /\
    Z.of_nat (length (snd r)) <= max) s.
Proof.
  intros Hs Hm. destruct (ring_flags w s Hs) as (_ & _ & Hevq & _ & Hs2). unfold sfc7120_poll.
  replace (negb true || (max <=? 0)) with false by lia. apply wp_bind, wp_getu. rewrite Hevq, Hs2. cbn [negb andb].
  apply wp_bind, wp_modu, wp_bind. eapply wp_mono; [apply (poll_loop_fits w) |].
  { apply (ring_ok_intro w s); try done; [| apply Hs..]. now destruct Hs as [[] ? ? ? ? ?]. }
  intros l s1 (H1 & Hsame & HF & Hl). pose proof H1 as [Hif Hw Hf _ _ _]. apply wp_bind. destruct (0 <? _).
  - apply wp_bind, wp_getu. eapply (wp_store_fit _ _ _ SFC7120_REG_DATA_EVQ_RPTR_DBL); [reflexivity | done | done |].
    intros w2 Hw2 Hf2. apply wp_ret. split; [now apply (ring_ok_intro w s1) |]. repeat split; try apply Hsame; [exact HF | cbn; lia].
  - apply wp_ret, wp_ret. split; [done |]. repeat split; try apply Hsame; [exact HF | cbn; lia].
Qed.
End ring.

(** ** The mbufs in the receive ring

    The slots from [rx_head] on, one window of them, name the mbufs the NIC
    has; what the others name was handed out a lap ago. *)

Section window.
Context {cap : Type}.
Implicit Types (u : sfc7120_if cap).

Definition win_slot u (k : Z) : Z := (ui_rx_head u + k) mod 512.

Definition live_cookies (w : Z) u : list Z :=
  flat_map (fun k => opt_list (slot_cookie u (win_slot u (Z.of_nat k)))) (seq 0 (Z.to_nat w)).

(** A slot of the window that names no mbuf has no mbuf in any slot a multiple
    of the window away: those are the ones it is posted to, lap after lap. *)
Definition class_ok (w : Z) u : Prop := forall k, 0 <= k < w ->
  slot_cookie u (win_slot u k) = None -> forall j, slot_cookie u (win_slot u (k + w * j)) = None.

(** [u'] is [u] with the head one further and [x] at the tail of the window. *)
Record advanced (w : Z) u u' (x : option Z) : Prop := {
  av_head : ui_rx_head u' = (ui_rx_head u + 1) mod 512;
  av_tail : slot_cookie u' (win_slot u w) = x;
  av_rest : forall i, 0 <= i < 512 -> i <> win_slot u w -> slot_cookie u' i = slot_cookie u i;
}.

Lemma win_slot_range u k : 0 <= win_slot u k < 512.
Proof. apply Z.mod_pos_bound. lia. Qed.

Lemma advanced_slot w u u' x k : advanced w u u' x -> win_slot u' k = win_slot u (k + 1).
Proof. intros [Hh _ _]. unfold win_slot. rewrite Hh, Zplus_mod_idemp_l. f_equal. lia. Qed.

Lemma win_slot_inj u a b : win_slot u a = win_slot u b -> (512 | a - b).
Proof.
  unfold win_slot. intros E. apply Z.mod_divide; [lia |]. apply (f_equal (fun z => (z - ui_rx_head u) mod 512)) in E.
  rewrite !Zminus_mod_idemp_l in E. rewrite !Z.add_simpl_l in E. rewrite Zminus_mod, E, Z.sub_diag. reflexivity.
Qed.

Lemma win_slot_ne u w k : 0 < k < w -> w < 512 -> win_slot u k <> win_slot u w.
Proof. intros Hk Hw E. apply win_slot_inj in E as [z Hz]. lia. Qed.

Lemma flat_map_seq_S {A} (f : nat -> list A) n : flat_map f (seq 1 n) = flat_map (fun k => f (S k)) (seq 0 n).
Proof. rewrite <- seq_shift, flat_map_concat_map, map_map, <- flat_map_concat_map. reflexivity. Qed.

(** One step of the window: the mbuf at the head leaves, [x] comes in. *)
Lemma live_advance w u u' x :
  0 < w < 512 -> advanced w u u' x ->
  opt_list (slot_cookie u (win_slot u 0)) ++ live_cookies w u' ≡ₚ opt_list x ++ live_cookies w u.
Proof.
  intros Hw Ha. unfold live_cookies. replace (Z.to_nat w) with (S (Z.to_nat w - 1)) by lia. set (n := (Z.to_nat w - 1)%nat).
  rewrite seq_S at 1. rewrite flat_map_app. cbn [seq flat_map Nat.add]. rewrite app_nil_r, flat_map_seq_S.
  rewrite (advanced_slot _ _ _ _ _ Ha). replace (Z.of_nat n + 1) with w by lia. rewrite (av_tail _ _ _ _ Ha).
  assert (E : flat_map (fun k => opt_list (slot_cookie u' (win_slot u' (Z.of_nat k)))) (seq 0 n) =
              flat_map (fun k => opt_list (slot_cookie u (win_slot u (Z.of_nat (S k))))) (seq 0 n)).
  { rewrite !flat_map_concat_map. f_equal. apply map_ext_in. intros k Hk%in_seq.
    rewrite (advanced_slot _ _ _ _ _ Ha), (av_rest _ _ _ _ Ha); [now rewrite Nat2Z.inj_succ | apply win_slot_range |].
    apply win_slot_ne; lia. }
  rewrite E. change (Z.of_nat 0) with 0. solve_Permutation.
Qed.

Lemma class_advance w u u' x :
  0 < w < 512 -> (w | 512) -> class_ok w u -> advanced w u u' x ->
  (x = None -> forall j, slot_cookie u (win_slot u (w * j)) = None) -> class_ok w u'.
Proof.
  intros Hw Hdiv Hc Ha Hx k Hk Hnone j. rewrite (advanced_slot _ _ _ _ _ Ha) in Hnone.
  rewrite (advanced_slot _ _ _ _ _ Ha). destruct (decide (k + 1 = w)) as [E | Hne].
  - rewrite E, (av_tail _ _ _ _ Ha) in Hnone.
    destruct (decide (win_slot u (k + w * j + 1) = win_slot u w)) as [Es | Ns].
    + now rewrite Es, (av_tail _ _ _ _ Ha).
    + rewrite (av_rest _ _ _ _ Ha) by (apply win_slot_range || done).
      replace (k + w * j + 1) with (w * (j + 1)) by lia. auto.
  - rewrite (av_rest _ _ _ _ Ha) in Hnone by (apply win_slot_range || (apply win_slot_ne; lia)).
    rewrite (av_rest _ _ _ _ Ha); [| apply win_slot_range |].
    + replace (k + w * j + 1) with (k + 1 + w * j) by lia. apply Hc; [lia | done].
    + intros Es. apply win_slot_inj in Es. destruct (Z.divide_trans _ _ _ Hdiv Es) as [z Hz].
      assert (Ek : k + 1 = w * (z - j + 1)) by lia. assert (k + 1 < w) by lia.
      destruct (Z.le_gt_cases (z - j + 1) 0); nia.
Qed.
End window.

(** ** Transmit completions *)

Definition held_mbufs (q : list (option Z)) : list Z := flat_map opt_list q.

Lemma held_take (i : nat) m q : q !! i = Some (Some m) -> held_mbufs q ≡ₚ m :: held_mbufs (<[i := None]> q).
Proof.
  intros Hi. unfold held_mbufs. rewrite (insert_take_drop _ _ _ (lookup_lt_Some _ _ _ Hi)).
  rewrite <- (take_drop_middle _ _ _ Hi) at 1. rewrite !flat_map_app. cbn. now rewrite Permutation_middle.
Qed.

(** Slot [i] is one of (f, done], around the ring. *)
Definition reaped (f done i : Z) : bool := (1 <=? (i - f) mod 512) && ((i - f) mod 512 <=? (done - f) mod 512).

Lemma reaped_step f done i :
  0 <= f < 512 -> 0 <= done < 512 -> 0 <= i < 512 -> f <> done ->
  reaped f done i = (i =? (f + 1) mod 512) || reaped ((f + 1) mod 512) done i.
Proof. intros. unfold reaped. zdiv. Qed.

Section completions.
Context {cap D P : Type} `{!Device D} `{!Mempool P}.
Abbreviation pmd := (capio_internals cap D P).
Implicit Types (s : pmd).

(** The transmit queue after reaping from [f] to [done]. *)
Definition reaped_queue (f done : Z) (q q' : capio_tx_queue) : Prop :=
  q' = q <| tq_inflight := tq_inflight q' |> <| tq_inflight_cnt := tq_inflight_cnt q' |> /\
  length (tq_inflight q') = 512%nat /\
  (forall i, 0 <= i < 512 -> nth (Z.to_nat i) (tq_inflight q') None =
     if reaped f done i then None else nth (Z.to_nat i) (tq_inflight q) None) /\
  tq_inflight_cnt q' = Z.max 0 (tq_inflight_cnt q - (done - f) mod 512).

Lemma wp_mbuf_free m l (Q : unit -> pmd -> Prop) s :
  pi_owned s ≡ₚ m :: l -> (forall o, o ≡ₚ l -> Q tt (s <| pi_owned := o |>)) -> wp (rte_pktmbuf_free m) Q s.
Proof.
  intros [Hin Hl]%perm_take HQ. apply wp_bind, wp_kassert; [now apply bool_decide_eq_true |].
  apply wp_modify. now apply HQ.
Qed.

Lemma wp_count_down (Q : unit -> pmd -> Prop) s :
  0 <= tq_inflight_cnt (pi_txq s) ->
  Q tt (s <| pi_txq ::= fun q => q <| tq_inflight_cnt ::= fun c => Z.max 0 (c - 1) |> |>) ->
  wp (mod_txq (fun q => if 0 <? tq_inflight_cnt q then q <| tq_inflight_cnt ::= fun c => c - 1 |> else q)) Q s.
Proof.
  intros Hc HQ. apply wp_modify. destruct s as [? ? ? [? ? c ? ? ?] ? ?]. cbn in *.
  destruct (Z.ltb_spec 0 c); cbn; [now replace (c - 1) with (Z.max 0 (c - 1)) by lia |].
  now replace (Z.max 0 (c - 1)) with c in HQ by lia.
Qed.

(** One turn: slot [f] is emptied, its mbuf freed, the count lowered. *)
Lemma reap_turn f A s (Q : unit -> pmd -> Prop) (k : ST pmd unit) :
  0 <= f < 512 -> length (tq_inflight (pi_txq s)) = 512%nat -> 0 <= tq_inflight_cnt (pi_txq s) ->
  pi_owned s ≡ₚ held_mbufs (tq_inflight (pi_txq s)) ++ A ->
  (forall o, o ≡ₚ held_mbufs (<[Z.to_nat f := None]> (tq_inflight (pi_txq s))) ++ A ->
     wp k Q (s <| pi_owned := o |> <| pi_txq ::= fun q => q <| tq_inflight ::= insert (Z.to_nat f) None |>
                                       <| tq_inflight_cnt ::= fun c => Z.max 0 (c - 1) |> |>)) ->
  wp (let* m := gets (fun s => nth (Z.to_nat f) (tq_inflight (pi_txq s)) None) in
      do* match m with
          | Some m => do* rte_pktmbuf_free m; mod_txq (fun q => q <| tq_inflight ::= insert (Z.to_nat f) None |>)
          | None => ret tt
          end;
      do* mod_txq (fun q => if 0 <? tq_inflight_cnt q then q <| tq_inflight_cnt ::= fun c => c - 1 |> else q);
      k) Q s.
Proof.
  intros Hf Hlen Hcnt Ho HQ. apply wp_bind, wp_gets.
  destruct (lookup_lt_is_Some_2 (tq_inflight (pi_txq s)) (Z.to_nat f) ltac:(lia)) as [[m |] Hi];
    rewrite (nth_lookup_Some _ _ _ _ Hi); apply wp_bind.
  - rewrite (held_take _ _ _ Hi) in Ho. apply wp_bind. eapply wp_mbuf_free; [exact Ho |]. intros o Hp.
    apply wp_modify, wp_bind, wp_count_down; [done |]. now apply HQ.
  - apply wp_ret, wp_bind, wp_count_down; [done |]. rewrite <- (list_insert_id _ _ _ Hi) in Ho. specialize (HQ _ Ho). cbn in HQ.
    rewrite (list_insert_id _ _ _ Hi) in HQ. now destruct s as [? ? ? [] ? ?].
Qed.

Lemma reap_loop_spec A done fuel : forall f s,
  0 <= f < 512 -> 0 <= done < 512 -> (done - f) mod 512 <= Z.of_nat fuel ->
  length (tq_inflight (pi_txq s)) = 512%nat -> 0 <= tq_inflight_cnt (pi_txq s) ->
  pi_owned s ≡ₚ held_mbufs (tq_inflight (pi_txq s)) ++ A ->
  wp (reap_loop fuel f done) (fun _ s' =>
    s' = s <| pi_owned := pi_owned s' |> <| pi_txq := pi_txq s' |> /\
    reaped_queue f done (pi_txq s) (pi_txq s') /\
    pi_owned s' ≡ₚ held_mbufs (tq_inflight (pi_txq s')) ++ A) s.
Proof.
  induction fuel as [| fuel IH]; intros f s Hf Hd Hfuel Hlen Hcnt Ho; cbn [reap_loop].
  all: destruct (Z.eqb_spec f done) as [<- | Hne].
  1, 3: apply wp_ret; split; [now destruct s |]; split; [| done]; split; [now destruct (pi_txq s) |];
    split; [done |]; split; [| rewrite Z.sub_diag, Z.mod_0_l; lia];
    intros i Hi; unfold reaped; rewrite Z.sub_diag, Z.mod_0_l by lia; now replace (_ && _) with false by lia.
  - exfalso. zdiv.
  - cbv zeta. replace (Z.land (u32 (f + 1)) (SFC7120_NUM_TX_DESC - 1)) with ((f + 1) mod 512)
      by (symmetry; apply (next_slot_mod f); lia).
    set (g := (f + 1) mod 512). assert (0 <= g < 512) by (apply Z.mod_pos_bound; lia).
    apply (reap_turn g A); [done.. |]. intros o Hp. eapply wp_mono; [apply IH |]; cbn; try done.
    + subst g. zdiv.
    + now rewrite length_insert.
    + lia.
    + intros _ s' (E & (Eq & Hl & Hn & Hc) & Ho'). split; [rewrite E; now destruct s as [? ? ? [] ? ?] |].
      split; [| done]. split; [rewrite Eq; now destruct (pi_txq s) |]. split; [done |]. cbn in Hc, Hn. split.
      * intros i Hi. rewrite Hn, (reaped_step f done i) by done. fold g.
        destruct (Z.eqb_spec i g) as [-> | Hig]; cbn [orb].
        { destruct (reaped g done g); [done |]. apply nth_lookup_Some, list_lookup_insert_eq. lia. }
        destruct (reaped g done i); [done |]. rewrite !nth_lookup, list_lookup_insert_ne; [done | lia].
      * rewrite Hc. subst g. zdiv.
Qed.

(** C31. Transmit completions: handling a completion event always returns,
    and frees exactly the mbufs in the slots after the last one freed up to
    the one the event names, each once; every other mbuf in flight stays, and
    the count of posted descriptors goes down by as many (never below zero). *)
Theorem reap_exact idx A s :
  length (tq_inflight (pi_txq s)) = 512%nat -> 0 <= tq_last_freed (pi_txq s) < 512 ->
  0 <= tq_inflight_cnt (pi_txq s) ->
  pi_owned s ≡ₚ held_mbufs (tq_inflight (pi_txq s)) ++ A ->
  wp (reap idx) (fun _ s' =>
    s' = s <| pi_owned := pi_owned s' |> <| pi_txq := pi_txq s' |> /\
    tq_last_freed (pi_txq s') = idx mod 512 /\
    reaped_queue (tq_last_freed (pi_txq s)) (idx mod 512) (pi_txq s)
      ((pi_txq s') <| tq_last_freed := tq_last_freed (pi_txq s) |>) /\
    pi_owned s' ≡ₚ held_mbufs (tq_inflight (pi_txq s')) ++ A) s.
Proof.
  intros Hl Hf Hc Ho. unfold reap. change (Z.land idx (SFC7120_NUM_TX_DESC - 1)) with (Z.land idx (512 - 1)).
  rewrite land_ring. apply wp_bind, wp_gets, wp_bind.
  eapply wp_mono; [apply (reap_loop_spec A); try done; [apply Z.mod_pos_bound; lia | unfold REAP_FUEL; zdiv] |].
  intros _ s1 (E & (Eq & Hl1 & Hn & Hc1) & Ho1). apply wp_modify. split; [rewrite E; now destruct s |].
  split; [done |]. split; [| exact Ho1]. split; [cbn; rewrite Eq; now destruct (pi_txq s) | now cbn].
Qed.
End completions.

(** ** Receiving conserves mbufs *)

Section receive.
Context {cap D P : Type} `{!Device D} `{!DeviceLaws D} `{!FrameLaws D} `{!Mempool P} `{!MempoolLaws P}.
Abbreviation pmd := (capio_internals cap D P).
Implicit Types (s : pmd).
Context (copy : bool) (w : Z).

Definition handle s : sfc7120_if cap := u_if (pi_sfc s).

(** The driver's state apart from who owns what. *)
Record pmd_rings s : Prop := {
  pr_ring : ring_ok w (pi_sfc s);
  pr_class : class_ok w (handle s);
  pr_copy : copy = true -> forall i, 0 <= i < 512 -> slot_cookie (handle s) i = None;
  pr_tx : length (tq_inflight (pi_txq s)) = 512%nat /\ 0 <= tq_last_freed (pi_txq s) < 512 /\
          0 <= tq_inflight_cnt (pi_txq s);
}.

(** Every mbuf out of the pool is in exactly one place: the stash, the receive
    ring, a transmit slot, or with the application, which has [A]. *)
Record pmd_ok (A : list Z) s : Prop := {
  po_rings : pmd_rings s;
  po_owned : pi_owned s ≡ₚ rq_stash (pi_rxq s) ++ live_cookies w (handle s) ++
                           held_mbufs (tq_inflight (pi_txq s)) ++ A;
}.

Lemma wp_sfc {A} (m : ST (uworld cap D) A) (Q : A -> pmd -> Prop) s :
  wp m (fun a u => Q a (s <| pi_sfc := u |>)) (pi_sfc s) -> wp (sfc m) Q s.
Proof. unfold wp, sfc. now destruct (m (pi_sfc s)) as [[a u] |]. Qed.

Lemma wp_pool {A} (f : P -> A * P) (Q : A -> pmd -> Prop) s :
  Q (fst (f (pi_pool s))) (s <| pi_pool := snd (f (pi_pool s)) |>) -> wp (pool f) Q s.
Proof. unfold wp, pool. now destruct (f (pi_pool s)). Qed.

Lemma pmd_ok_perm A A' s : A ≡ₚ A' -> pmd_ok A s -> pmd_ok A' s.
Proof. intros E [Hr Ho]. split; [done |]. now rewrite Ho, E. Qed.

Lemma mbuf_get_spec A s :
  pmd_ok A s -> wp capio_mbuf_get (fun r s' => pmd_ok (opt_list r ++ A) s' /\ pi_sfc s' = pi_sfc s) s.
Proof.
  intros [[Hr Hc Hcp Ht] Ho]. apply wp_bind, wp_gets. destruct (rq_stash (pi_rxq s)) as [| m rest] eqn:Es.
  - apply wp_bind, wp_pool. pose proof (bulk_all (pi_pool s)) as Hb. destruct (fst _) as [l |].
    + specialize (Hb l eq_refl). apply wp_bind, wp_modify. destruct (reverse l) as [| m rest] eqn:El.
      { apply (f_equal length) in El. rewrite length_reverse in El. cbn in El. lia. }
      apply wp_bind, wp_modify, wp_ret. split; [| done]. split; [now split |]. unfold handle in *. cbn in *.
      rewrite Ho, <- (reverse_Permutation l), El. cbn. solve_Permutation.
    + apply wp_bind, wp_pool, wp_bind, wp_modify, wp_ret. split; [| done]. split; [now split |]. unfold handle in *. cbn in *.
      rewrite Es, Ho. cbn. solve_Permutation.
  - apply wp_bind, wp_modify, wp_ret. split; [| done]. split; [now split |]. unfold handle in *. cbn in *. rewrite Ho. solve_Permutation.
Qed.

Lemma mbuf_free_spec m A s :
  pmd_ok (m :: A) s -> wp (rte_pktmbuf_free m) (fun _ s' => pmd_ok A s' /\ pi_sfc s' = pi_sfc s) s.
Proof.
  intros [[Hr Hc Hcp Ht] Ho]. apply (wp_mbuf_free m (rq_stash (pi_rxq s) ++ live_cookies w (handle s) ++ held_mbufs (tq_inflight (pi_txq s)) ++ A));
    [rewrite Ho; solve_Permutation |].
  intros o Hp. split; [| done]. split; [now split |]. exact Hp.
Qed.

Lemma count_rxq_spec f A s :
  (forall q, rq_stash (f q) = rq_stash q) -> pmd_ok A s ->
  wp (mod_rxq f) (fun _ s' => pmd_ok A s' /\ pi_sfc s' = pi_sfc s) s.
Proof.
  intros Hf [[Hr Hc Hcp Ht] Ho]. apply wp_modify. split; [| done]. split; [now split |]. cbn. now rewrite Hf.
Qed.

Hypothesis window : 0 < w < 512 /\ (w | 512).

Lemma head_slot s : ring_ok w (pi_sfc s) -> win_slot (handle s) 0 = ui_rx_head (handle s).
Proof. intros [[_ Hh _ _] _ _ _ _ _]. unfold win_slot. rewrite Z.add_0_r. now apply Z.mod_small. Qed.

Lemma insert_advanced (u u' : sfc7120_if cap) m :
  length (ui_rx_ext_cookie u) = 512%nat -> ui_rx_head u' = (ui_rx_head u + 1) mod 512 ->
  ui_rx_ext_cookie u' = <[Z.to_nat (win_slot u w) := Some m]> (ui_rx_ext_cookie u) -> advanced w u u' (Some m).
Proof.
  intros Hl Hh Hc. pose proof (win_slot_range u w). split; [done | |].
  - unfold slot_cookie. rewrite Hc. apply nth_lookup_Some, list_lookup_insert_eq. lia.
  - intros i Hi Hne. unfold slot_cookie. rewrite Hc, !nth_lookup, list_lookup_insert_ne; [done | lia].
Qed.

(** Posting [m] at the tail: the mbuf at the head leaves the ring. *)
Lemma post_mbuf_spec m s :
  pmd_rings s -> copy = false ->
  wp (capio_post_mbuf m) (fun _ s' => pmd_rings s' /\
    s' = s <| pi_sfc := pi_sfc s' |> /\
    opt_list (slot_cookie (handle s) (ui_rx_head (handle s))) ++ live_cookies w (handle s') ≡ₚ
      m :: live_cookies w (handle s)) s.
Proof.
  intros [Hr Hc Hcp Ht] Hcopy. destruct window as [Hw Hd]. unfold capio_post_mbuf. cbv zeta.
  pose proof (iova_ok m). pose proof (room_ok m) as Hroom. change SFC7120_RX_BUFFER_SIZE with 2048 in *.
  replace (u16 (mb_room m)) with (mb_room m) by (unfold u16; rewrite Z.mod_small; lia).
  apply wp_sfc. eapply wp_mono; [apply (rx_post_spec w); [done | lia |] |].
  { unfold bad_rx_buffer. destruct (Z.ltb_spec 2048 (mb_room m)); lia. }
  intros _ u' (Hr' & Hh & Hck). assert (Ha : advanced w (handle s) (u_if u') (Some m)).
  { apply insert_advanced; [apply Hr | done | exact Hck]. }
  split; [split; cbn; try done |].
  - apply (class_advance w (handle s) (u_if u') (Some m)); done.
  - congruence.
  - split; [now destruct s |]. rewrite <- head_slot by done. exact (live_advance w _ _ _ Hw Ha).
Qed.

(** Giving back a library buffer: no mbuf moves. *)
Lemma release_spec A s :
  pmd_ok A s -> slot_cookie (handle s) (ui_rx_head (handle s)) = None ->
  wp (sfc sfc7120_rx_release) (fun _ s' => pmd_ok A s') s.
Proof.
  intros [[Hr Hc Hcp Ht] Ho] Hnone. destruct window as [Hw Hd]. rewrite <- head_slot in Hnone by done.
  pose proof (Hc 0 ltac:(lia) Hnone) as Hall.
  apply wp_sfc. eapply wp_mono; [now apply (rx_release_spec w) |]. intros _ u' (Hr' & Hh & Hck).
  assert (Ha : advanced w (handle s) (u_if u') None).
  { split; [done | |]; intros; unfold slot_cookie; rewrite Hck; [| done].
    specialize (Hall 1). rewrite Z.mul_1_r in Hall. exact Hall. }
  split.
  - split; cbn; try done.
    + apply (class_advance w (handle s) (u_if u') None); done.
    + intros Hcopy i Hi. unfold handle, slot_cookie. cbn. rewrite Hck. exact (Hcp Hcopy i Hi).
  - pose proof (live_advance w _ _ _ Hw Ha) as Hl. rewrite Hnone in Hl. cbn in Hl. unfold handle in *. cbn. now rewrite Ho, Hl.
Qed.

(** Posting a replacement makes the mbuf at the head the application's. *)
Lemma post_repl_spec m A s :
  pmd_ok (m :: A) s -> copy = false ->
  wp (capio_post_mbuf m) (fun _ s' =>
    pmd_ok (opt_list (slot_cookie (handle s) (ui_rx_head (handle s))) ++ A) s') s.
Proof.
  intros [Hr Ho] Hcopy. eapply wp_mono; [now apply post_mbuf_spec |]. intros _ s' (Hr' & E & Hl).
  split; [done |]. replace (pi_owned s') with (pi_owned s) by now rewrite E.
  replace (rq_stash (pi_rxq s')) with (rq_stash (pi_rxq s)) by now rewrite E.
  replace (pi_txq s') with (pi_txq s) by now rewrite E.
  transitivity (rq_stash (pi_rxq s) ++ held_mbufs (tq_inflight (pi_txq s)) ++ A ++ m :: live_cookies w (handle s));
    [rewrite Ho | rewrite <- Hl]; solve_Permutation.
Qed.

(** Posting the mbuf at the head again: nothing changes hands. *)
Lemma post_again_spec m A s :
  pmd_ok A s -> copy = false -> slot_cookie (handle s) (ui_rx_head (handle s)) = Some m ->
  wp (capio_post_mbuf m) (fun _ s' => pmd_ok A s') s.
Proof.
  intros [Hr Ho] Hcopy Hm. eapply wp_mono; [now apply post_mbuf_spec |]. intros _ s' (Hr' & E & Hl).
  split; [done |]. rewrite Hm in Hl. cbn in Hl. apply Permutation_cons_inv in Hl. rewrite Hl. now rewrite E.
Qed.

(** What handling one event may leave. *)
Definition step_ok (A : list Z) (r : rx_step) s : Prop :=
  match r with
  | RxBreak => False
  | RxNext => pmd_ok A s
  | RxOut m len => pmd_ok (m :: A) s /\ 1 <= len <= 2034
  end.

Lemma rx_finish_spec m repl len A s :
  pmd_ok (repl :: m :: A) s -> copy = false -> 0 <= len <= 2034 ->
  slot_cookie (handle s) (ui_rx_head (handle s)) = None -> wp (rx_finish m repl len) (step_ok A) s.
Proof.
  intros Hs Hcopy Hlen Hnone. unfold rx_finish. destruct (Z.eqb_spec len 0) as [_ | Hne].
  - apply wp_bind. eapply wp_mono; [apply mbuf_free_spec; eapply pmd_ok_perm; [apply Permutation_swap | exact Hs] |].
    intros _ s1 [H1 E1]. apply wp_bind. eapply wp_mono; [apply post_repl_spec; [exact H1 | done] |].
    intros ? s2 H2. apply wp_ret. unfold handle in *. rewrite E1, Hnone in H2. exact H2.
  - apply wp_bind. eapply wp_mono; [apply post_repl_spec; [exact Hs | done] |]. rewrite Hnone. intros _ s1 H1.
    apply wp_bind. eapply wp_mono; [apply count_rxq_spec; [done | exact H1] |]. intros _ s2 [H2 _]. apply wp_ret.
    split; [done |]. unfold u16. rewrite Z.mod_small; lia.
Qed.

(** The mbuf the NIC wrote to is the one at the head. *)
Lemma rx_finish_ext_spec m repl len A s :
  pmd_ok (repl :: A) s -> copy = false -> 0 <= len <= 2034 ->
  slot_cookie (handle s) (ui_rx_head (handle s)) = Some m -> wp (rx_finish m repl len) (step_ok A) s.
Proof.
  intros Hs Hcopy Hlen Hm. unfold rx_finish. destruct (Z.eqb_spec len 0) as [_ | Hne].
  - destruct Hs as [Hr Ho]. apply wp_bind. destruct window as [Hw _].
    assert (Hlive : m ∈ live_cookies w (handle s)).
    { unfold live_cookies. apply list_elem_of_In, in_flat_map. exists 0%nat. split; [apply in_seq; lia |].
      change (Z.of_nat 0) with 0. rewrite head_slot, Hm by apply Hr. now left. }
    apply elem_of_Permutation in Hlive as [live' Hlive].
    apply (wp_mbuf_free m (rq_stash (pi_rxq s) ++ live' ++ held_mbufs (tq_inflight (pi_txq s)) ++ repl :: A));
      [rewrite Ho, Hlive; solve_Permutation |].
    intros o Hp. apply wp_bind. eapply wp_mono; [apply post_mbuf_spec; [| done]; now destruct Hr |].
    intros _ s' (Hr' & E & Hl). apply wp_ret. split; [done |].
    unfold handle in Hl, Hm, Hlive. cbn in Hl. rewrite Hm, Hlive in Hl. cbn in Hl.
    rewrite Permutation_swap in Hl. apply Permutation_cons_inv in Hl. unfold handle. rewrite Hl. rewrite E. cbn.
    rewrite Hp. solve_Permutation.
  - apply wp_bind. eapply wp_mono; [apply post_repl_spec; [exact Hs | done] |]. rewrite Hm. intros _ s1 H1.
    apply wp_bind. eapply wp_mono; [apply count_rxq_spec; [done | exact H1] |]. intros _ s2 [H2 _]. apply wp_ret.
    split; [done |]. unfold u16. rewrite Z.mod_small; lia.
Qed.

Definition head_cookie s : option Z := slot_cookie (handle s) (ui_rx_head (handle s)).

Lemma same_rx_ok A s u' :
  pmd_ok A s -> ring_ok w u' -> same_rx (pi_sfc s) u' ->
  pmd_ok A (s <| pi_sfc := u' |>) /\ head_cookie (s <| pi_sfc := u' |>) = head_cookie s.
Proof.
  intros [[Hr Hc Hcp Ht] Ho] Hr' [Eh Ec].
  assert (Es : forall i, slot_cookie (u_if u') i = slot_cookie (handle s) i) by (intros; unfold slot_cookie, handle; now rewrite Ec).
  assert (Ew : forall k, win_slot (u_if u') k = win_slot (handle s) k) by (intros; unfold win_slot, handle; now rewrite Eh).
  split; [| unfold head_cookie, handle in *; cbn; rewrite Es; cbn; now rewrite Eh]. split.
  - split; cbn; try done.
    + intros k Hk Hn j. unfold handle in *. cbn in *. rewrite Es, Ew in *. now apply Hc.
    + intros Hcopy i Hi. unfold handle in *. cbn. rewrite Es. now apply Hcp.
  - replace (live_cookies w (handle (s <| pi_sfc := u' |>))) with (live_cookies w (handle s)); [exact Ho |].
    unfold live_cookies. rewrite !flat_map_concat_map. f_equal. apply map_ext. intros k.
    unfold handle in *. cbn. now rewrite Es, Ew.
Qed.

Lemma same_sfc_cookie s s' : pi_sfc s' = pi_sfc s -> head_cookie s' = head_cookie s.
Proof. intros E. unfold head_cookie, handle. now rewrite E. Qed.

Lemma slot_room head plen : 0 <= head < 512 -> plen <= 2034 ->
  (rx_slot head + 14 + plen <=? SFC7120_NUM_RX_DESC * SFC7120_RX_BUFFER_SIZE) = true.
Proof. intros. unfold rx_slot, SFC7120_NUM_RX_DESC, SFC7120_RX_BUFFER_SIZE. lia. Qed.

(** Drop [m] and give the library's buffer back. *)
Lemma drop_frame_spec m A s :
  pmd_ok (m :: A) s -> head_cookie s = None ->
  wp (do* rte_pktmbuf_free m; do* sfc sfc7120_rx_release; ret RxNext) (step_ok A) s.
Proof.
  intros Hs Hn. apply wp_bind. eapply wp_mono; [apply mbuf_free_spec; exact Hs |]. intros _ s1 [H1 E1].
  apply wp_bind. eapply wp_mono; [apply (release_spec A); [done | exact (eq_trans (same_sfc_cookie _ _ E1) Hn)] |].
  intros ? s2 H2. now apply wp_ret.
Qed.

Lemma rx_copied_spec m n A s :
  pmd_ok (m :: A) s -> head_cookie s = None -> 0 <= n <= 2048 -> wp (rx_copied copy m n) (step_ok A) s.
Proof.
  intros Hs Hnone Hn. unfold rx_copied. apply wp_bind, wp_sfc.
  eapply wp_mono; [apply (rx_peek_spec w); [apply Hs | done] |].
  intros ? u1 (Hr1 & Hsame & plen & pa & -> & Hp). cbn [fst snd default id].
  destruct (same_rx_ok _ _ _ Hs Hr1 Hsame) as [H1 Hc1]. rewrite Hnone in Hc1.
  change (negb (0 =? 0)) with false. cbn [orb].
  destruct (Z.eqb_spec plen 0) as [_ | Hne]; [now apply drop_frame_spec |].
  apply wp_bind. eapply wp_mono; [apply mbuf_get_spec; exact H1 |]. intros repl s2 [H2 E2].
  pose proof (same_sfc_cookie _ _ E2) as Hc2. rewrite Hc1 in Hc2.
  destruct repl as [repl |].
  - apply wp_bind, wp_kassert.
    { pose proof (room_ok m) as Hroom. change SFC7120_RX_BUFFER_SIZE with 2048 in Hroom.
      rewrite slot_room; [lia | apply (ro_if _ _ (pr_ring _ (po_rings _ _ Hs))) | lia]. }
    destruct copy eqn:Ecopy.
    + apply wp_bind. eapply wp_mono; [apply mbuf_free_spec; exact H2 |]. intros _ s3 [H3 E3].
      apply wp_bind. eapply wp_mono; [apply (release_spec (m :: A)); [done |] |].
      { exact (eq_trans (same_sfc_cookie _ _ E3) Hc2). }
      intros ? s4 H4. apply wp_bind. eapply wp_mono; [apply count_rxq_spec; [done | exact H4] |].
      intros _ s5 [H5 _]. apply wp_ret. split; [done |]. unfold u16. rewrite Z.mod_small; lia.
    + apply rx_finish_spec; done.
  - apply wp_bind. eapply wp_mono; [apply count_rxq_spec; [done | exact H2] |]. intros _ s3 [H3 E3].
    apply drop_frame_spec; [done |]. now rewrite (same_sfc_cookie _ _ E3).
Qed.

Lemma rx_packet_spec n A s : pmd_ok A s -> 0 <= n <= 2048 -> wp (rx_packet copy n) (step_ok A) s.
Proof.
  intros Hs Hn. unfold rx_packet. apply wp_bind, wp_sfc.
  eapply wp_mono; [apply (peek_ext_spec w); [apply Hs | done] |].
  intros ? u1 (Hr1 & Hsame & len & -> & Hlen). cbn [fst snd default id].
  change (negb (0 =? 0)) with false. cbv iota. fold (handle s). fold (head_cookie s).
  destruct (same_rx_ok _ _ _ Hs Hr1 Hsame) as [H1 Hc1].
  apply wp_bind. eapply wp_mono; [apply mbuf_get_spec; exact H1 |]. intros repl s2 [H2 E2].
  assert (Hc2 : head_cookie s2 = head_cookie s) by (rewrite <- Hc1; now apply same_sfc_cookie).
  assert (Hcopy : head_cookie s <> None -> copy = false).
  { intros Hne. destruct copy eqn:E; [| done]. destruct Hne.
    apply (pr_copy _ (po_rings _ _ Hs) E), (ro_if _ _ (pr_ring _ (po_rings _ _ Hs))). }
  destruct repl as [repl |].
  - destruct (head_cookie s) as [m |] eqn:Em.
    + specialize (Hcopy ltac:(done)). replace (if copy then None else Some m) with (Some m) by now rewrite Hcopy.
      now apply rx_finish_ext_spec.
    + replace (if copy then None else None) with (@None Z) by now destruct copy. now apply rx_copied_spec.
  - apply wp_bind. eapply wp_mono; [apply count_rxq_spec; [done | exact H2] |]. intros _ s3 [H3 E3].
    pose proof (eq_trans (same_sfc_cookie _ _ E3) Hc2) as Hc3. apply wp_bind.
    destruct (head_cookie s) as [m |] eqn:Em.
    + eapply wp_mono; [apply (post_again_spec m A); [done | now apply Hcopy | exact Hc3] |]. intros ? s4 H4. now apply wp_ret.
    + eapply wp_mono; [apply (release_spec A); [done | exact Hc3] |]. intros ? s4 H4. now apply wp_ret.
Qed.

Lemma reap_keeps idx A s : pmd_ok A s -> wp (reap idx) (fun _ s' => pmd_ok A s') s.
Proof.
  intros [[Hr Hc Hcp (Hl & Hf & Hcnt)] Ho]. unfold reap. change (SFC7120_NUM_TX_DESC - 1) with (512 - 1).
  rewrite land_ring. apply wp_bind, wp_gets, wp_bind.
  eapply wp_mono; [apply (reap_loop_spec (rq_stash (pi_rxq s) ++ live_cookies w (handle s) ++ A)); try done;
    [apply Z.mod_pos_bound; lia | unfold REAP_FUEL; zdiv | rewrite Ho; solve_Permutation] |].
  intros _ s1 (E & (_ & Hl1 & _ & Hc1) & Ho1). apply wp_modify.
  assert (Es : pi_sfc s1 = pi_sfc s /\ pi_rxq s1 = pi_rxq s) by (rewrite E; done). destruct Es as [Es Eq].
  split.
  - split; unfold handle in *; cbn; rewrite ?Es; try done. split; [done |]. split; [apply Z.mod_pos_bound; lia | lia].
  - unfold handle in *. cbn. rewrite Es, Eq, Ho1. solve_Permutation.
Qed.

Lemma rx_events_spec evs : forall A s, pmd_ok A s -> Forall ev_fits evs ->
  wp (rx_events copy evs) (fun out s' => pmd_ok (map fst out ++ A) s' /\ (length out <= length evs)%nat /\
    Forall (fun e => 1 <= snd e <= 2034) out) s.
Proof.
  induction evs as [| ev evs IH]; intros A s Hs HF; cbn [rx_events].
  { apply wp_ret. auto. }
  inversion_clear HF as [| ? ? Hev HF']. apply wp_bind. eapply (wp_mono _ (step_ok A)).
  { unfold rx_event. destruct (ue_type ev); [now apply rx_packet_spec | | now apply wp_ret].
    apply wp_bind. eapply wp_mono; [apply (reap_keeps _ A); done |]. intros ? s1 H1. now apply wp_ret. }
  intros [| | m len] s1 H1; [done | |].
  - eapply wp_mono; [now apply (IH A) |]. intros out s2 (H2 & Hl & Ho). cbn. split; [done |]. split; [lia | done].
  - destruct H1 as [H1 Hlen]. apply wp_bind. eapply wp_mono; [now apply (IH (m :: A)) |].
    intros out s2 (H2 & Hl & Ho). apply wp_ret. cbn. split; [| split; [lia | now constructor]].
    eapply pmd_ok_perm; [| exact H2]. symmetry. apply Permutation_middle.
Qed.

(** C30. A receive burst loses and duplicates no mbuf.  With a window that
    divides the ring (the default 64 does), while the NIC writes frames that
    fit their buffers and allocation fails whenever it likes, the burst runs
    without a fault or a double free and returns at most as many mbufs as
    asked for (32 at most), each with a length between 1 and 2034; and every
    mbuf out of the pool is again in exactly one place: the stash, the window
    of the receive ring, a transmit slot, or with the application, which has
    gained exactly the mbufs returned. *)
Theorem rx_burst_conserves nb_bufs A s :
  pmd_ok A s -> 0 <= nb_bufs ->
  wp (eth_capio_rx copy nb_bufs) (fun out s' => pmd_ok (map fst out ++ A) s' /\
    Z.of_nat (length out) <= Z.min nb_bufs 32 /\ Forall (fun e => 1 <= snd e <= 2034) out) s.
Proof.
  intros Hs Hnb. unfold eth_capio_rx. destruct (Z.eqb_spec nb_bufs 0) as [-> | Hne].
  { apply wp_ret. now split. }
  cbv zeta. replace (if CAPIO_MAX_BURST <? nb_bufs then CAPIO_MAX_BURST else nb_bufs) with (Z.min nb_bufs 32)
    by (unfold CAPIO_MAX_BURST; destruct (Z.ltb_spec 32 nb_bufs); lia).
  apply wp_bind, wp_sfc. eapply wp_mono; [apply (poll_fits w); [apply Hs | lia] |].
  intros r u1 (Hr1 & Hsame & HF & Hlen). destruct (same_rx_ok _ _ _ Hs Hr1 Hsame) as [H1 _].
  destruct (fst r <=? 0).
  { apply wp_ret. split; [done |]. split; [cbn; lia | constructor]. }
  apply wp_bind. eapply wp_mono; [now apply (rx_events_spec _ A) |]. intros out s2 (H2 & Hl & Ho).
  apply wp_bind, wp_sfc. eapply wp_mono; [apply (rx_flush_spec w); apply H2 |]. intros _ u3 [Hr3 Hsame3].
  apply wp_ret. split; [now apply same_rx_ok | split; [lia | done]].
Qed.
End receive.

(** ** Transmitting *)

Section transmit.
Context {cap D P : Type} `{!Device D} `{!DeviceLaws D} `{!Mempool P}.
Abbreviation pmd := (capio_internals cap D P).
Implicit Types (s : pmd).

(** A frame of one segment that needs no padding. *)
Definition plain_frame (m : tx_mbuf) : Prop :=
  (exists seg, tm_segs m = [seg]) /\ CAPIO_MIN_TX_FRAME <= tm_pkt_len m <= SFC7120_TX_BUFFER_SIZE.

Record tx_idle s : Prop := {
  ti_wf : w_wf (u_w (pi_sfc s));
  ti_head : 0 <= ui_tx_head (u_if (pi_sfc s)) < 512;
  ti_ready : tx_ready (pi_sfc s);
  ti_slots : length (tq_inflight (pi_txq s)) = 512%nat;
  ti_count : 0 <= tq_inflight_cnt (pi_txq s);
  ti_mode : pi_tx_copy_mode s = false;
}.

Definition tx_at s (k : nat) : Z := (ui_tx_head (u_if (pi_sfc s)) + Z.of_nat k) mod 512.

(** Slot [j] carries [m]: its descriptor, and the mbuf kept for completion. *)
Definition tx_slot_holds s (j : Z) (m : tx_mbuf) : Prop :=
  arr_get (tx_ring (w_dma (u_w (pi_sfc s)))) j = ef10_desc (tm_pkt_len m) (tm_iova m) /\
  nth (Z.to_nat j) (tq_inflight (pi_txq s)) None = Some (tm_addr m).

Definition tx_slot_same s s' (j : Z) : Prop :=
  arr_get (tx_ring (w_dma (u_w (pi_sfc s')))) j = arr_get (tx_ring (w_dma (u_w (pi_sfc s)))) j /\
  nth (Z.to_nat j) (tq_inflight (pi_txq s')) None = nth (Z.to_nat j) (tq_inflight (pi_txq s)) None.

(** [n] frames posted, and no doorbell rung. *)
Record tx_posted (n : nat) s s' : Prop := {
  tp_owned : pi_owned s' = pi_owned s;
  tp_head : ui_tx_head (u_if (pi_sfc s')) = tx_at s n;
  tp_count : tq_inflight_cnt (pi_txq s') = tq_inflight_cnt (pi_txq s) + Z.of_nat n;
  tp_log : w_log (u_w (pi_sfc s')) = w_log (u_w (pi_sfc s));
  tp_rest : forall j, 0 <= j < 512 -> (forall k, (k < n)%nat -> j <> tx_at s k) -> tx_slot_same s s' j;
}.

Lemma tx_one_plain m s :
  plain_frame m -> tx_idle s -> tq_inflight_cnt (pi_txq s) < 496 ->
  wp (tx_one m) (fun r s' => r = true /\ tx_idle s' /\ tx_posted 1 s s' /\ tx_slot_holds s' (tx_at s 0) m) s.
Proof.
  intros [[seg Hseg] Hlen] [Hw Hh [Hring Hsl] Hq Hc Hmode] Hcnt. unfold tx_one. rewrite Hseg. destruct seg as [dl bytes].
  cbv zeta. apply wp_bind, wp_gets. unfold CAPIO_MIN_TX_FRAME, SFC7120_TX_BUFFER_SIZE, SFC7120_NUM_TX_DESC in *.
  replace (512 - 16 <=? _) with false by lia. replace (tm_pkt_len m <? 60) with false by lia.
  apply wp_bind, wp_gets. rewrite Hmode. apply wp_bind, wp_gets. rewrite land_ring, Z.mod_small by done.
  set (head := ui_tx_head (u_if (pi_sfc s))) in *. assert (Hat : tx_at s 0 = head).
  { unfold tx_at. fold head. rewrite Z.add_0_r. now apply Z.mod_small. }
  apply wp_bind, wp_sfc. unfold sfc7120_tx_post_paddr_nodbl. apply wp_bind, wp_getu. rewrite Hring.
  replace (bad_tx_len (tm_pkt_len m)) with false by (unfold bad_tx_len, SFC7120_TX_BUFFER_SIZE; lia). cbn [negb orb].
  apply wp_bind, wp_getu, wp_bind, wp_shared, wp_ring_store; [done |]. apply wp_bind, wp_modu, wp_ret.
  change (negb (0 =? 0)) with false. cbv iota. apply wp_bind, wp_modify, wp_bind, wp_modify, wp_bind, wp_modify, wp_ret.
  fold head. rewrite next_slot_mod by lia. split; [done |]. split; [| split].
  - split; cbn; try done.
    + now apply arr_set_wf_tx.
    + apply Z.mod_pos_bound. lia.
    + now rewrite length_insert.
    + apply Z.mod_pos_bound. lia.
  - split; cbn; try done.
    + unfold u32. rewrite Z.mod_small; lia.
    + intros j Hj Hne. specialize (Hne 0%nat ltac:(lia)). rewrite Hat in Hne. split; cbn.
      * apply arr_get_set_ne; lia.
      * rewrite !nth_lookup, list_lookup_insert_ne; [done | lia].
  - rewrite Hat. split; cbn.
    + apply arr_get_set_eq. destruct Hw as [_ _ [-> _] _]. lia.
    + apply nth_lookup_Some, list_lookup_insert_eq. lia.
Qed.

Lemma tx_at_next s s1 k : tx_posted 1 s s1 -> tx_at s1 k = tx_at s (S k).
Proof. intros [_ Hh _ _ _]. unfold tx_at in *. rewrite Hh, Zplus_mod_idemp_l. f_equal. lia. Qed.

Lemma tx_at_ne s k : (0 < k < 512)%nat -> tx_at s 0 <> tx_at s k.
Proof.
  intros Hk E. unfold tx_at in E. rewrite Z.add_0_r in E. symmetry in E. revert E. apply mod512_ne. lia.
Qed.

Lemma tx_posted_trans n s s1 s2 : tx_posted 1 s s1 -> tx_posted n s1 s2 -> tx_posted (S n) s s2.
Proof.
  intros H1 [Ho Hh Hc Hl Hr]. pose proof H1 as [Ho1 Hh1 Hc1 Hl1 Hr1]. split; [congruence | | lia | congruence |].
  - rewrite Hh. now apply tx_at_next.
  - intros j Hj Hne. destruct (Hr j Hj) as [R1 R2].
    { intros k Hk. rewrite (tx_at_next s s1) by done. apply Hne. lia. }
    destruct (Hr1 j Hj) as [S1 S2]; [intros k Hk; apply Hne; lia |]. split; congruence.
Qed.

Lemma tx_loop_plain bufs : forall s,
  Forall plain_frame bufs -> tx_idle s -> tq_inflight_cnt (pi_txq s) + Z.of_nat (length bufs) <= 496 ->
  wp (tx_loop bufs) (fun r s' => r = Z.of_nat (length bufs) /\ tx_idle s' /\ tx_posted (length bufs) s s' /\
    forall k m, bufs !! k = Some m -> tx_slot_holds s' (tx_at s k) m) s.
Proof.
  induction bufs as [| m bufs IH]; intros s HF Hi Hcnt; cbn [tx_loop length] in *.
  - apply wp_ret. split; [done |]. split; [done |]. split; [| now intros k m ?].
    destruct Hi. split; try done; [| lia]. unfold tx_at. rewrite Z.add_0_r. now rewrite Z.mod_small.
  - inversion_clear HF as [| ? ? Hm HF']. apply wp_bind.
    eapply wp_mono; [apply tx_one_plain; [done | done | lia] |]. intros r s1 (-> & Hi1 & Hp1 & Hhold).
    apply wp_bind. pose proof (tp_count _ _ _ Hp1) as Hc1. pose proof (ti_count _ Hi).
    eapply wp_mono; [apply IH; [done | done | lia] |].
    intros r s2 (-> & Hi2 & Hp2 & Hall). apply wp_ret. split; [lia |]. split; [done |].
    split; [now apply (tx_posted_trans _ s s1) |]. intros [| k] m' Hk; cbn in Hk.
    + injection Hk as <-. destruct (tp_rest _ _ _ Hp2 (tx_at s 0)) as [R1 R2].
      * apply Z.mod_pos_bound. lia.
      * intros k Hk. rewrite (tx_at_next s s1) by done. apply tx_at_ne. lia.
      * destruct Hhold. split; congruence.
    + rewrite <- (tx_at_next s s1) by done. now apply Hall.
Qed.

Lemma tx_burst_spec bufs s :
  Forall plain_frame bufs -> tx_idle s -> (0 < length bufs)%nat ->
  tq_inflight_cnt (pi_txq s) + Z.of_nat (length bufs) <= 496 ->
  wp (eth_capio_tx bufs) (fun r s' => r = Z.of_nat (length bufs) /\ pi_owned s' = pi_owned s /\
    exists s1, (forall k m, bufs !! k = Some m -> tx_slot_holds s1 (tx_at s k) m) /\
      w_log (u_w (pi_sfc s1)) = w_log (u_w (pi_sfc s)) /\ pi_txq s' = pi_txq s1 /\
      w_log (u_w (pi_sfc s')) =
        w_log (u_w (pi_sfc s)) ++ [(SFC7120_REG_DATA_TX_WPTR_DBL, tx_at s (length bufs))] /\
      (w_dev (u_w (pi_sfc s')), w_dma (u_w (pi_sfc s'))) =
        dev_write SFC7120_REG_DATA_TX_WPTR_DBL (tx_at s (length bufs)) (w_dev (u_w (pi_sfc s1)), w_dma (u_w (pi_sfc s1)))) s.
Proof.
  intros HF Hi Hn Hcnt. apply wp_bind. eapply wp_mono; [now apply tx_loop_plain |].
  intros r s1 (-> & [Hw Hh [Hr Hsl] _ _ _] & [Ho Hhead _ Hl _] & Hall).
  apply wp_bind. replace (0 <? Z.of_nat (length bufs)) with true by lia. apply wp_sfc.
  unfold sfc7120_tx_flush. apply wp_bind, wp_getu. rewrite Hsl. cbn [negb]. apply wp_bind, wp_getu.
  apply (wp_slice_store _ _ _ _ _ _ (tx_slice_reg 2 ltac:(lia)) Hw). intros w' _ Hl' _ Hd.
  change (SFC7120_REG_DATA_TX_DESC_DBL + 4 * 2) with SFC7120_REG_DATA_TX_WPTR_DBL in *.
  replace (u32 (ui_tx_head (u_if (pi_sfc s1)))) with (tx_at s (length bufs)) in *
    by (unfold u32; rewrite Z.mod_small by lia; now rewrite Hhead).
  apply wp_ret. split; [done |]. split; [exact Ho |]. exists s1. rewrite Hl in Hl'. auto.
Qed.

(** Zero-copy transmit keeps what the NIC reads: a burst of plain frames
    that fits under the limit is accepted whole; when its single doorbell is
    rung, with the write pointer just past the last frame, each frame's
    descriptor names its mbuf's address and length, that same mbuf is recorded
    in its slot for completion, and none has been freed. *)
Theorem tx_burst_plain bufs s :
  Forall plain_frame bufs -> tx_idle s -> (0 < length bufs)%nat ->
  tq_inflight_cnt (pi_txq s) + Z.of_nat (length bufs) <= 496 ->
  wp (eth_capio_tx bufs) (fun r s' => r = Z.of_nat (length bufs) /\ pi_owned s' = pi_owned s /\
    exists s1, (forall k m, bufs !! k = Some m -> tx_slot_holds s1 (tx_at s k) m) /\
      w_log (u_w (pi_sfc s1)) = w_log (u_w (pi_sfc s)) /\ pi_txq s' = pi_txq s1 /\
      w_log (u_w (pi_sfc s')) =
        w_log (u_w (pi_sfc s)) ++ [(SFC7120_REG_DATA_TX_WPTR_DBL, tx_at s (length bufs))] /\
      (w_dev (u_w (pi_sfc s')), w_dma (u_w (pi_sfc s'))) =
        dev_write SFC7120_REG_DATA_TX_WPTR_DBL (tx_at s (length bufs)) (w_dev (u_w (pi_sfc s1)), w_dma (u_w (pi_sfc s1)))) s.
Proof. apply tx_burst_spec. Qed.

(** A full ring loses an mbuf to two owners: with 496 descriptors
    outstanding the burst frees the frame it cannot post and returns 0, so the
    application, which by DPDK's contract still owns what was not sent, frees
    it again. *)
Theorem tx_full_frees_unsent m rest seg A s :
  tm_segs m = [seg] -> 496 <= tq_inflight_cnt (pi_txq s) ->
  pi_owned s ≡ₚ tm_addr m :: A -> tm_addr m ∉ A ->
  wp (eth_capio_tx (m :: rest)) (fun r s' => r = 0 /\ pi_owned s' ≡ₚ A /\ rte_pktmbuf_free (tm_addr m) s' = None) s.
Proof.
  intros Hseg Hcnt Ho Hm. apply wp_bind. cbn [tx_loop]. apply wp_bind. unfold tx_one. rewrite Hseg. destruct seg.
  cbv zeta. apply wp_bind, wp_gets. unfold SFC7120_NUM_TX_DESC. replace (512 - 16 <=? _) with true by lia.
  apply wp_bind, wp_modify, wp_bind. eapply wp_mbuf_free; [exact Ho |]. intros o Hp.
  apply wp_ret, wp_ret, wp_bind, wp_ret, wp_ret. split; [done |]. split; [exact Hp |].
  unfold rte_pktmbuf_free, bind, kassert. cbn. rewrite bool_decide_eq_false_2; [done |]. now rewrite Hp.
Qed.
End transmit.
