(* ===== verification/PmdDev.v ===== *)
(** * The DPDK poll-mode driver: probe, close and remove

    The control path of [fstack-capio/rte_eth_capio.c]: [eth_dev_capio_create],
    [rte_pmd_capio_probe], [eth_dev_close] and [rte_pmd_capio_remove], over the
    session of [UserInit].  What DPDK answers is in [probe_env]; the ethdev
    port, the parsed arguments and the mbufs the port's private data holds are
    tracked. *)

From stdpp Require Import sets.
From S2P Require Import Prelude Uapi Desc Capio Softc DataPath UserLib UserInit.
Local Open Scope Z_scope.


Record probe_env := ProbeEnv {
  pe_params : bool;         (* the device has arguments *)
  pe_kvlist : bool;         (* rte_kvargs_parse succeeds *)
  pe_vdev : bool;           (* rte_eth_vdev_allocate succeeds *)
  pe_tx_copy : bool;        (* CAPIO_TX_COPY is set *)
  pe_init : init_env;
}.

Record port (cap K : Type) := Port {
  pt_us : ust cap K;
  pt_allocated : bool;
  pt_started : bool;
  pt_tx_copy_mode : bool;
  pt_mac : list Z;
  pt_kvlists : nat;
  (* the mbufs only the private data refers to: the receive queue's stash, the
     cookies of the receive ring, the transmit queue's inflight table *)
  pt_mbufs : list Z;
  (* mbufs of the pool that nothing refers to any more *)
  pt_lost : list Z;
}.
Arguments Port {cap K}. Arguments pt_us {cap K}. Arguments pt_allocated {cap K}. Arguments pt_started {cap K}.
Arguments pt_tx_copy_mode {cap K}. Arguments pt_mac {cap K}. Arguments pt_kvlists {cap K}.
Arguments pt_mbufs {cap K}. Arguments pt_lost {cap K}.
#[export] Instance eta_port cap K : Eta (port cap K) := fun p =>
  Port (pt_us p) (pt_allocated p) (pt_started p) (pt_tx_copy_mode p) (pt_mac p) (pt_kvlists p) (pt_mbufs p) (pt_lost p).

Section pmd_dev.
Context {cap K : Type} `{!UserSys cap K}.
(** What a zeroed capability and a zeroed [vi_info] are. *)
Context (null : cap) (no_info : sfc7120_vi_info_req).
Abbreviation port := (port cap K).

Definition lib {A} (m : ST (ust cap K) A) : ST port A := fun p =>
  match m (pt_us p) with
  | Some (a, s) => Some (a, p <| pt_us := s |>)
  | None => None
  end.
Definition modp (f : port -> port) : ST port unit := modify f.

(** memset of the private data. *)
Definition zero_handle : sfc7120_if cap :=
  SfcIf 0 0 (CapReq null null) (replicate 6 0) false false false false false None 0 no_info false 0 false false
    0 0 0 (replicate 7 (None, 0)) (replicate 512 None) None.

(** rte_eth_dev_release_port: the port is free again and its private data is
    returned to the allocator, with whatever pointers it still holds. *)
Definition rte_eth_dev_release_port : ST port unit :=
  modp (fun p => p <| pt_allocated := false |> <| pt_lost := pt_lost p ++ pt_mbufs p |> <| pt_mbufs := [] |>).

Definition eth_dev_capio_create (env : probe_env) : ST port Z :=
  if negb (pe_vdev env) then ret (- ENOMEM)
  else
  do* modp (fun p => p <| pt_allocated := true |> <| pt_started := false |> <| pt_tx_copy_mode := false |>
                       <| pt_mac := replicate 6 0 |> <| pt_mbufs := [] |> <| pt_us ::= fun s => s <| us_if := zero_handle |> |>);
  let* r := lib (sfc7120_init (pe_init env)) in
  if negb (r =? 0) then
    do* modp (fun p => p <| pt_tx_copy_mode := pe_tx_copy env |>);
    do* rte_eth_dev_release_port;
    ret (- EIO)
  else
  do* modp (fun p => p <| pt_mac := ui_mac_addr (us_if (pt_us p)) |> <| pt_started := true |>);
  ret 0.

Definition rte_pmd_capio_probe (env : probe_env) : ST port Z :=
  if pe_params env && negb (pe_kvlist env) then ret (- EINVAL)
  else
  do* modp (fun p => if pe_params env then p <| pt_kvlists ::= S |> else p);
  let* r := eth_dev_capio_create env in
  do* modp (fun p => if pe_params env then p <| pt_kvlists ::= Nat.pred |> else p);
  ret r.

(** [primary]: this is the primary process. *)
Definition eth_dev_close (primary : bool) : ST port Z :=
  if negb primary then ret 0
  else
  let* started := gets pt_started in
  do* (if started : bool then do* lib sfc7120_destroy; modp (fun p => p <| pt_started := false |>) else ret tt);
  ret 0.

Definition rte_pmd_capio_remove (primary : bool) : ST port Z :=
  let* allocated := gets pt_allocated in
  if negb allocated then ret 0
  else
  do* eth_dev_close primary;
  do* rte_eth_dev_release_port;
  ret 0.

(** ** A port's life *)

Lemma wp_lib {A} (m : ST (ust cap K) A) (Q : A -> port -> Prop) p :
  wp m (fun a s => Q a (p <| pt_us := s |>)) (pt_us p) -> wp (lib m) Q p.
Proof. unfold wp, lib. now destruct (m (pt_us p)) as [[a s] |]. Qed.

(** No port, no parsed arguments, and of the pool's mbufs [lost] are lost. *)
Record port_free (lost : list Z) (p : port) : Prop := {
  pf_port : pt_allocated p = false;
  pf_kvlists : pt_kvlists p = 0%nat;
  pf_mbufs : pt_mbufs p = [];
  pf_lost : pt_lost p = lost;
}.

(** What removing [q] leaves when the process held [s] before the probe. *)
Definition removed (s : ust cap K) (q : port) (r : Z) (p' : port) : Prop :=
  r = 0 /\ torn_down (us_fds s) (us_heap s) (us_maps s) (pt_us q) (pt_us p') /\
  port_free (pt_lost q ++ pt_mbufs q) p' /\ rte_pmd_capio_remove true p' = Some (0, p').

(** A probed port, and what removing it leaves after any use: the data path
    changes the state of the library as [used] says, and puts any mbufs into
    the queues. *)
Record port_live (s : ust cap K) (lost : list Z) (p : port) : Prop := {
  pl_ready : handle_ready (us_if (pt_us p));
  pl_mac : pt_mac p = ui_mac_addr (us_if (pt_us p));
  pl_flags : pt_allocated p = true /\ pt_started p = true /\ pt_kvlists p = 0%nat;
  pl_mode : pt_tx_copy_mode p = false;
  pl_mbufs : pt_mbufs p = [] /\ pt_lost p = lost;
  pl_remove : forall s2 mbufs, used (pt_us p) s2 ->
    let q := p <| pt_us := s2 |> <| pt_mbufs := mbufs |> in wp (rte_pmd_capio_remove true) (removed s q) q;
}.

Hypothesis sizes_ok : forall m f t k n len,
  fst (sys_get_slices m f (region_int t) k) = Some (n, len) -> len = 0 \/ prefault_len t <= len.

Lemma remove_live s p :
  pt_allocated p = true -> pt_started p = true -> pt_kvlists p = 0%nat ->
  wp sfc7120_destroy (fun _ s3 => torn_down (us_fds s) (us_heap s) (us_maps s) (pt_us p) s3) (pt_us p) ->
  wp (rte_pmd_capio_remove true) (removed s p) p.
Proof.
  intros Ha Hs Hk Hd. apply wp_bind, wp_gets. rewrite Ha. cbn [negb].
  apply wp_bind. unfold eth_dev_close. cbn [negb]. apply wp_bind, wp_gets. rewrite Hs.
  apply wp_bind, wp_bind, wp_lib. eapply wp_mono; [exact Hd |]. intros ? s3 Ht.
  apply wp_modify, wp_ret, wp_bind, wp_modify, wp_ret. split_and!; [done | exact Ht | now split | done].
Qed.

Lemma undone_refl (s : ust cap K) : undone s s.
Proof. exists []. rewrite app_nil_r. split_and!; [done | done |]. now intros [| ? ?] ? [=]. Qed.

(** C32. Probing a port, when no port of that name exists and the kernel reports no
    region shorter than the bytes the library touches of it ([sizes_ok]),
    either fails or yields a running port with the card's MAC.  When it fails,
    no port, no parsed arguments and no mbufs are left behind, the process holds the
    descriptors, blocks and mappings it held before, and an attach the kernel
    granted was followed by a GOODBYE.  A running port transmits without
    copying whatever the environment asks for (CAPIO_TX_COPY is read only on
    the failing path).  However it is used, removing it tears the
    session down as [sfc7120_destroy] does (descriptors, blocks, mappings, GOODBYE; a
    mapping remains only if its munmap is refused), releases the port, and a second
    remove does nothing.  Removal does not give the mbufs back: every one that
    was in the stash, in the receive ring or in flight is lost to the pool. *)
Theorem pmd_probe_remove_balanced env p :
  pt_allocated p = false -> pt_kvlists p = 0%nat -> pt_mbufs p = [] ->
  wp (rte_pmd_capio_probe env) (fun r p1 =>
    (r <> 0 /\ undone (pt_us p) (pt_us p1) /\ port_free (pt_lost p) p1) \/
    (r = 0 /\ port_live (pt_us p) (pt_lost p) p1)) p.
Proof.
  intros Ha Hk Hb. unfold rte_pmd_capio_probe.
  destruct (pe_params env && negb (pe_kvlist env)).
  { apply wp_ret. left. split_and!; [done | apply undone_refl | now split]. }
  apply wp_bind, wp_modify, wp_bind. unfold eth_dev_capio_create. destruct (negb (pe_vdev env)).
  { apply wp_ret, wp_bind, wp_modify, wp_ret. left.
    split; [done |]. destruct (pe_params env); (split; [apply undone_refl | now split]). }
  apply wp_bind, wp_modify, wp_bind, wp_lib. set (p1 := _ <| pt_us ::= _ |>).
  eapply wp_mono; [apply (init_session_spec sizes_ok (pe_init env)); now destruct (pe_params env) |].
  intros r s1 [(-> & Hrel) | (-> & Hready & Hd)].
  - change (negb (-1 =? 0)) with true. cbv iota.
    apply wp_bind, wp_modify, wp_bind, wp_modify, wp_ret, wp_bind, wp_modify, wp_ret. left. split; [done |].
    destruct (pe_params env); (split; [exact Hrel | split; cbn; now rewrite ?Hk, ?app_nil_r]).
  - change (negb (0 =? 0)) with false. cbv iota. apply wp_bind, wp_modify, wp_ret, wp_bind, wp_modify, wp_ret.
    right. split; [done |].
    assert (Hrem : forall q, pt_allocated q = true -> pt_started q = true -> pt_kvlists q = 0%nat ->
      used s1 (pt_us q) -> wp (rte_pmd_capio_remove true) (removed (pt_us p) q) q).
    { intros q ? ? ? Hu. apply remove_live; try done. specialize (Hd _ Hu). now destruct (pe_params env). }
    destruct (pe_params env); split; cbn; try done; try (now rewrite ?Hk);
      intros s2 mbufs Hu; apply Hrem; cbn; try done; now rewrite Hk.
Qed.
End pmd_dev.
