(* ===== verification/PmdModel.v ===== *)
(** * The DPDK driver on concrete states

    A pool of numbered mbufs and the controller of [Nic] with two events in its
    queue; the theorems of [Pmd] and [PmdDev] applied to them. *)

From stdpp Require Import sets.
From S2P Require Import Prelude Uapi Desc Capio CapioModel Softc DataPath Driver Nic UserLib UserInit UserModel Pmd PmdDev.
Local Open Scope Z_scope.

(** A pool that hands out mbufs by number. *)
#[export] Instance counter_pool : Mempool Z := {
  pool_bulk p := (Some (map (fun k => p + Z.of_nat k) (seq 0 64)), p + 64);
  pool_alloc p := (Some p, p + 1);
  mb_iova m := 0x1000000 + 4096 * Z.abs m;
  mb_room _ := 2048;
}.

#[export] Instance counter_pool_laws : MempoolLaws Z.
Proof.
  split.
  - intros p l [= <-]. reflexivity.
  - intros m. cbn. lia.
  - intros m. cbn. unfold SFC7120_RX_BUFFER_SIZE. lia.
Qed.

#[export] Instance nic_frames : FrameLaws nic.
Proof.
  split; [done |]. intros r v [p m] _ Hf. cbn. destruct (r =? _); [| exact Hf]. now destruct Hf.
Qed.

(** ** Receive *)

Lemma evq_dma_fits : frames_fit evq_dma.
Proof.
  split; [intros h _; vm_compute; congruence |]. intros i Hi.
  change (data_evq evq_dma) with (arr_set (arr_set (replicate 512 0) 0 tx_word) 1 rx_word).
  destruct (decide (i = 1)) as [-> |]; [vm_compute; congruence |]. rewrite arr_get_set_ne by lia.
  destruct (decide (i = 0)) as [-> |]; [vm_compute; congruence |]. rewrite arr_get_set_ne by lia.
  unfold arr_get. rewrite nth_lookup, lookup_replicate_2 by lia. vm_compute. congruence.
Qed.

Definition idle_txq : capio_tx_queue := TxQ (replicate 512 None) 0 0 0 0 0.
Definition rx_port : capio_internals mcap nic Z :=
  Pi false (UWorld uif (World softc_zero evq_dma yes_nic [] 0 [] [] [])) (RxQ [] 0 0 0) idle_txq 100 [].

Lemma no_cookies i : slot_cookie uif i = None.
Proof.
  unfold slot_cookie. change (ui_rx_ext_cookie uif) with (replicate 512 (@None Z)).
  rewrite nth_lookup. destruct (replicate 512 None !! Z.to_nat i) as [c |] eqn:E; [| done].
  now apply lookup_replicate in E as [-> _].
Qed.

Lemma rx_port_ok : pmd_ok false 64 [] rx_port.
Proof.
  split.
  - split; [| intros k _ _ j; apply no_cookies | done | now vm_compute].
    split; [exact uif_ok | exact evq_dma_wf | exact evq_dma_fits | done | done | done].
  - vm_compute. constructor.
Qed.

Lemma window_64 : 0 < 64 < 512 /\ (64 | 512).
Proof. split; [lia |]. now exists 8. Qed.

Definition burst_result (r : option (list (Z * Z) * capio_internals mcap nic Z)) : option (list (Z * Z)) :=
  match r with Some (out, _) => Some out | None => None end.

(** One frame of 60 bytes comes back. *)
Lemma rx_burst_conserves_witness :
  burst_result (eth_capio_rx false 8 rx_port) = Some [(163, 60)] /\
  wp (eth_capio_rx false 8) (fun out s' => pmd_ok false 64 (map fst out ++ []) s') rx_port.
Proof.
  split; [vm_compute; reflexivity |].
  eapply wp_mono; [apply (rx_burst_conserves false 64 window_64 8 [] rx_port rx_port_ok); lia |].
  now intros out s' (? & _).
Defined.

(** ** Completions *)

(** Mbufs 7, 8 and 9 in slots 1, 2 and 3. *)
Definition busy_txq : capio_tx_queue := TxQ (None :: Some 7 :: Some 8 :: Some 9 :: replicate 508 None) 0 3 0 0 0.
Definition busy_port : capio_internals mcap nic Z := rx_port <| pi_txq := busy_txq |> <| pi_owned := [9; 8; 7] |>.

Lemma reap_exact_witness :
  wp (reap 2) (fun _ s' => tq_last_freed (pi_txq s') = 2 /\
    nth 2 (tq_inflight (pi_txq s')) None = None /\ nth 3 (tq_inflight (pi_txq s')) None = Some 9) busy_port.
Proof.
  eapply wp_mono; [apply (reap_exact 2 [] busy_port) |].
  - reflexivity.
  - vm_compute. intuition congruence.
  - vm_compute. congruence.
  - change (pi_owned busy_port) with [9; 8; 7]. change (held_mbufs (tq_inflight (pi_txq busy_port))) with [7; 8; 9].
    cbn. solve_Permutation.
  - intros _ s' (_ & Hl & (_ & _ & Hn & _) & _). split; [exact Hl |]. cbn in Hn.
    split; [exact (Hn 2 ltac:(lia)) | exact (Hn 3 ltac:(lia))].
Defined.

(** ** Transmit *)

Definition frame (m : Z) : tx_mbuf := TxMbuf m (0x1000000 + 4096 * m) 60 [(60, fun _ => 5)].

Lemma frame_plain m : plain_frame (frame m).
Proof. split; [now eexists |]. vm_compute. intuition congruence. Qed.

Lemma rx_port_idle : tx_idle rx_port.
Proof. split; [exact evq_dma_wf | cbn; lia | split; reflexivity | reflexivity | cbn; lia | reflexivity]. Qed.

Lemma tx_burst_plain_witness :
  wp (eth_capio_tx [frame 1; frame 2]) (fun r s' => r = 2 /\ pi_owned s' = pi_owned rx_port) rx_port.
Proof.
  eapply wp_mono; [apply (tx_burst_plain [frame 1; frame 2] rx_port) |].
  - repeat constructor; apply frame_plain.
  - exact rx_port_idle.
  - cbn. lia.
  - vm_compute. congruence.
  - now intros r s' (? & ? & _).
Defined.

Definition full_port : capio_internals mcap nic Z :=
  rx_port <| pi_txq := idle_txq <| tq_inflight_cnt := 496 |> |> <| pi_owned := [1] |>.

Lemma tx_full_frees_unsent_witness :
  wp (eth_capio_tx [frame 1]) (fun r s' => r = 0 /\ rte_pktmbuf_free 1 s' = None) full_port.
Proof.
  eapply wp_mono; [apply (tx_full_frees_unsent (frame 1) [] (60, fun _ => 5) [] full_port) |].
  - reflexivity.
  - vm_compute. congruence.
  - reflexivity.
  - apply not_elem_of_nil.
  - now intros r s' (? & _ & ?).
Defined.

(** ** Probe and remove *)

Definition new_port : port Z bool := Port (process true None) false false false [] 0 [] [].
Definition probe0 : probe_env := ProbeEnv true true true true (InitEnv false None).
Definition probe_code (r : option (Z * port Z bool)) : option Z := match r with Some (z, _) => Some z | None => None end.

Lemma pmd_probe_remove_balanced_witness :
  probe_code (rte_pmd_capio_probe 0 live_info probe0 new_port) = Some 0 /\
  wp (rte_pmd_capio_probe 0 live_info probe0) (fun r p1 =>
    (r <> 0 /\ undone (pt_us new_port) (pt_us p1) /\ port_free (pt_lost new_port) p1) \/
    (r = 0 /\ port_live (pt_us new_port) (pt_lost new_port) p1)) new_port.
Proof.
  split; [vm_compute; reflexivity |].
  apply (pmd_probe_remove_balanced 0 live_info plain_sizes probe0 new_port); reflexivity.
Defined.

(** ** Why the window must divide the ring

    Frames arrive one after the other and allocation fails for some of them.
    With a window of 100 descriptors and six failures, one per window, the
    driver hands out the same mbuf twice: at frame 100 and, from the stale
    cookie of the slot that was not posted again, at frame 612. *)

(** The next mbuf, and whether the pool is empty. *)
#[export] Instance flaky_pool : Mempool (Z * bool) := {
  pool_bulk p := (None, p);
  pool_alloc p := if snd p : bool then (None, p) else (Some (fst p), (fst p + 1, false));
  mb_iova m := 0x1000000 + 4096 * Z.abs m;
  mb_room _ := 2048;
}.

Definition window_port (w : Z) : capio_internals mcap nic (Z * bool) :=
  Pi false (UWorld (uif <| ui_rx_window := w |>) (World softc_zero dma0 yes_nic [] 0 [] [] [])) (RxQ [] 0 0 0)
    idle_txq (1000, false) [].

(** [n] frames from number [k]; allocation fails for the frames [fails] says.
    The result: the frames delivered and their mbufs, the last one first. *)
Fixpoint receive_frames (fails : Z -> bool) (n : nat) (k : Z) (s : capio_internals mcap nic (Z * bool))
    (acc : list (Z * Z)) : option (list (Z * Z)) :=
  match n with
  | O => Some acc
  | S n' =>
      match rx_packet false 74 (s <| pi_pool ::= fun p => (fst p, fails k) |>) with
      | Some (RxOut m _, s') => receive_frames fails n' (k + 1) s' ((k, m) :: acc)
      | Some (_, s') => receive_frames fails n' (k + 1) s' acc
      | None => None
      end
  end.

(** The frames whose mbuf was delivered more than once. *)
Definition delivered_twice (l : list (Z * Z)) : list (Z * Z) :=
  List.filter (fun e => negb (length (List.filter (fun e' => snd e' =? snd e)%Z l) =? 1)%nat) l.

Definition one_per_window (w k : Z) : bool := (k mod w =? 12) && (k <=? 512).

Lemma window_100_delivers_twice :
  option_map delivered_twice (receive_frames (one_per_window 100) 620 0 (window_port 100) []) =
    Some [(612, 1001); (100, 1001)].
Proof. vm_compute. reflexivity. Qed.

Lemma window_64_delivers_once :
  option_map delivered_twice (receive_frames (one_per_window 64) 1200 0 (window_port 64) []) = Some [].
Proof. vm_compute. reflexivity. Qed.

(** Resetting the statistics also moves [last_freed] to the last slot.  Here
    slots 506 to 511 and 0 to 2 are in flight and the NIC completes slot 507:
    without the reset its mbuf and the one before are freed, after it those of
    slots 0 to 2, which the NIC has not sent yet, are freed too. *)
Definition wrapped_txq : capio_tx_queue :=
  TxQ (map (fun i => if (i <? 3)%nat || (505 <? i)%nat then Some (Z.of_nat i) else None) (seq 0 512)) 505 9 9 540 0.
Definition wrapped_port : capio_internals mcap nic Z :=
  rx_port <| pi_txq := wrapped_txq |> <| pi_owned := [0; 1; 2; 506; 507; 508; 509; 510; 511] |>.

Example stats_reset_frees_unsent :
  option_map (fun r => pi_owned (snd r)) (reap 507 wrapped_port) = Some [0; 1; 2; 508; 509; 510; 511] /\
  option_map (fun r => pi_owned (snd r)) ((do* eth_stats_reset; reap 507) wrapped_port) = Some [508; 509; 510; 511].
Proof. vm_compute. split; reflexivity. Qed.
