(* ===== verification/Mbuf.v ===== *)
(** * The mbuf chain operations of the network stack

    [fstack-capio/modified-sources/freebsd/kern/uipc_mbuf.c], the mbuf library
    of the FreeBSD stack that F-Stack links into user space.  An mbuf is a
    descriptor of some bytes of a data area: the area inside the mbuf itself
    ([m_dat]) or an external cluster ([M_EXT]), which several mbufs may share
    and which carries a reference count.

    The state holds every data area, keyed by an identity, and the reference
    counts of the clusters; a chain linked through [m_next] is the list of its
    mbufs, and the empty list is the null pointer.  A read or a write outside
    the area the mbuf's [m_data] capability covers faults, like a failed
    [KASSERT].  Mbufs with unmapped pages ([M_EXTPG]) are not modelled.

    The allocator, [m_free] and the macros of [sys/mbuf.h] are not part of
    the sources: they are the class [MbufSys], and what the code relies on of
    them is the class [MbufLaws]. *)

From stdpp Require Import gmap.
From S2P Require Import Prelude.

(** ** Data *)

Record storage := Storage {
  st_base : Z;                (* address of the first byte *)
  st_bytes : list Z
}.

(** The flags the code looks at; the others are [M_OTHER]. *)
Inductive mflag := M_EXT | M_PKTHDR | M_RDONLY | M_OTHER (n : nat).

Definition mflags : Type := mflag -> bool.

Definition fl_none : mflags := fun _ => false.
Definition fl_and (f g : mflags) : mflags := fun x => f x && g x.
Definition fl_or (f g : mflags) : mflags := fun x => f x || g x.
Definition fl_clear_pkthdr (f : mflags) : mflags :=
  fun x => match x with M_PKTHDR => false | _ => f x end.
Definition fl_clear_rdonly (f : mflags) : mflags :=
  fun x => match x with M_RDONLY => false | _ => f x end.
Definition fl_only_ext (f : mflags) : mflags :=
  fun x => match x with M_EXT => f x | _ => false end.
Definition fl_ext_rdonly (f : mflags) : mflags :=
  fun x => match x with M_EXT | M_RDONLY => f x | _ => false end.

Record pkthdr := Pkthdr {
  ph_len : Z;
  ph_rcvif : Z;
  ph_snd_tag : option Z;      (* set when csum_flags has CSUM_SND_TAG *)
  ph_tags : list Z;
  ph_rsstype : Z
}.

#[export] Instance pkthdr_eta : Eta pkthdr := fun r =>
  Pkthdr (ph_len r) (ph_rcvif r) (ph_snd_tag r) (ph_tags r) (ph_rsstype r).

(** What [bzero] leaves in a packet header. *)
Definition pkthdr_zero : pkthdr := Pkthdr 0 0 None [] 0.

Record mbuf := Mbuf {
  m_sid : nat;                (* the data area m_data points into *)
  m_data : Z;                 (* offset of m_data in that area *)
  m_len : Z;
  m_flags : mflags;
  m_type : Z;
  m_pkthdr : pkthdr           (* meaningful when M_PKTHDR is set *)
}.

#[export] Instance mbuf_eta : Eta mbuf := fun r =>
  Mbuf (m_sid r) (m_data r) (m_len r) (m_flags r) (m_type r) (m_pkthdr r).

(** The state: the data areas, the clusters' reference counts, and whatever
    the allocator keeps for itself. *)
Record mstate (P : Type) := Mstate {
  ms_mem : gmap nat storage;
  ms_ref : gmap nat Z;
  ms_pool : P
}.
Arguments Mstate {P} _ _ _.
Arguments ms_mem {P} _.
Arguments ms_ref {P} _.
Arguments ms_pool {P} _.

#[export] Instance mstate_eta {P} : Eta (mstate P) := fun r =>
  Mstate (ms_mem r) (ms_ref r) (ms_pool r).

(** ** What [sys/mbuf.h] and the allocator provide *)

Class MbufSys (P : Type) := {
  MLEN : Z;                   (* data area of a plain mbuf *)
  MHLEN : Z;                  (* what a packet header leaves of it *)
  MCLBYTES : Z;
  MINCLSIZE : Z;
  max_protohdr : Z;
  max_linkhdr : Z;
  M_COPYALL : Z;
  MT_DATA : Z;
  M_COPYFLAGS : mflags;
  M_DEMOTEFLAGS : mflags;
  M_HASHTYPE_INNER : Z;
  M_HASHTYPE_NONE : Z;
  m_get : Z -> ST (mstate P) (option mbuf);
  m_gethdr : Z -> ST (mstate P) (option mbuf);
  m_getcl : Z -> bool -> ST (mstate P) (option mbuf);  (* with M_PKTHDR? *)
  m_free : mbuf -> ST (mstate P) unit;
  m_freem : list mbuf -> ST (mstate P) unit;
  m_tag_copy_chain : list Z -> ST (mstate P) (option (list Z));
  m_snd_tag_ref : Z -> ST (mstate P) unit;
  M_WRITABLE : mstate P -> mbuf -> bool;
  M_TRAILINGSPACE : mstate P -> mbuf -> Z;
  M_SIZE : mstate P -> mbuf -> Z;
  M_ALIGN : mbuf -> Z -> Z    (* the new m_data *)
}.

Definition has (f : mflag) (m : mbuf) : bool := m_flags m f.

(** ** Access to the data *)

Section access.
Context {P : Type}.

(** [bcopy (mtod (m) + off, dst, n)]: the bytes read. *)
Definition m_read (m : mbuf) (off n : Z) : ST (mstate P) (list Z) :=
  fun s =>
    match ms_mem s !! m_sid m with
    | Some st =>
        let o := m_data m + off in
        if (0 <=? o) && (0 <=? n) && (o + n <=? Z.of_nat (length (st_bytes st)))
        then Some (buf_read (st_bytes st) (Z.to_nat o) (Z.to_nat n), s)
        else None
    | None => None
    end.

(** [bcopy (src, mtod (m) + off, |src|)]. *)
Definition m_write (m : mbuf) (off : Z) (src : list Z) : ST (mstate P) unit :=
  fun s =>
    match ms_mem s !! m_sid m with
    | Some st =>
        let o := m_data m + off in
        if (0 <=? o) && (o + Z.of_nat (length src) <=? Z.of_nat (length (st_bytes st)))
        then Some (tt, s <| ms_mem ::= <[m_sid m := Storage (st_base st)
                       (buf_write (st_bytes st) (Z.to_nat o) src)]> |>)
        else None
    | None => None
    end.

(** The bytes an mbuf, and a chain, stand for. *)
Definition mb_bytes (s : mstate P) (m : mbuf) : list Z :=
  match ms_mem s !! m_sid m with
  | Some st => buf_read (st_bytes st) (Z.to_nat (m_data m)) (Z.to_nat (m_len m))
  | None => []
  end.

Definition chain_bytes (s : mstate P) (ch : list mbuf) : list Z :=
  ch ≫= mb_bytes s.
End access.

(** ** Operations *)

Section ops.
Context {P : Type} {MS : MbufSys P}.
Notation M := (ST (mstate P)).

(** Where [m_pktdat] starts in the mbuf's data area. *)
Definition PKTDAT : Z := MLEN - MHLEN.

(** [m_length (m, NULL)], in unsigned arithmetic. *)
Fixpoint m_length_from (len : Z) (ch : list mbuf) : Z :=
  match ch with
  | [] => len
  | m :: r => m_length_from (u32 (len + m_len m)) r
  end.

Definition m_length (ch : list mbuf) : Z := m_length_from 0 ch.

(** Stores the chain's length in the packet header of its first mbuf; without
    [M_PKTHDR] the store would land in packet data. *)
Definition m_fixhdr (ch : list mbuf) : M (Z * list mbuf) :=
  match ch with
  | [] => panic
  | m0 :: r =>
      do* kassert (fun _ => has M_PKTHDR m0);
      let len := m_length ch in
      ret (len, m0 <| m_pkthdr ::= fun h => h <| ph_len := len |> |> :: r)
  end.

(** The mbuf at index [i] of the chain and the offset in it. *)
Fixpoint m_getptr_from (i : nat) (m : mbuf) (r : list mbuf) (loc : Z) : option (nat * Z) :=
  if loc <? 0 then None
  else if loc <? m_len m then Some (i, loc)
  else
    let loc := loc - m_len m in
    match r with
    | [] => if loc =? 0 then Some (i, m_len m) else None
    | m' :: r' => m_getptr_from (S i) m' r' loc
    end.

Definition m_getptr (m : mbuf) (r : list mbuf) (loc : Z) : option (nat * Z) :=
  m_getptr_from 0 m r loc.

(** The loop that [m_copym], [m_copydata] and [m_apply] open with: find the
    mbuf that holds byte [off]. *)
Fixpoint m_seek (ch : list mbuf) (off : Z) : option (list mbuf * Z) :=
  if 0 <? off then
    match ch with
    | [] => None
    | m :: r => if off <? m_len m then Some (ch, off) else m_seek r (off - m_len m)
    end
  else Some (ch, off).

Fixpoint m_copydata_loop (ch : list mbuf) (off len : Z) : M (list Z) :=
  if 0 <? len then
    match ch with
    | [] => panic
    | m :: r =>
        let count := Z.min (m_len m - off) len in
        let* b := m_read m off count in
        let* b' := m_copydata_loop r 0 (len - count) in
        ret (b ++ b')
    end
  else ret [].

(** The bytes stored at [cp]. *)
Definition m_copydata (ch : list mbuf) (off len : Z) : M (list Z) :=
  do* kassert (fun _ => 0 <=? off);
  do* kassert (fun _ => 0 <=? len);
  match m_seek ch off with
  | None => panic
  | Some (ch', off') => m_copydata_loop ch' off' len
  end.

(** The callback [f] gets a pointer to [count] bytes and the caller's [arg],
    which it may update; a non-zero result ends the walk. *)
Section apply.
Context {A : Type} (f : A -> list Z -> Z * A).

Fixpoint m_apply_loop (ch : list mbuf) (off len : Z) (arg : A) : M (Z * A) :=
  if 0 <? len then
    match ch with
    | [] => panic
    | m :: r =>
        let count := Z.min (m_len m - off) len in
        let* b := m_read m off count in
        let (rval, arg) := f arg b in
        if rval =? 0 then m_apply_loop r 0 (len - count) arg
        else ret (rval, arg)
    end
  else ret (0, arg).

Definition m_apply (ch : list mbuf) (off len : Z) (arg : A) : M (Z * A) :=
  do* kassert (fun _ => 0 <=? off);
  do* kassert (fun _ => 0 <=? len);
  match m_seek ch off with
  | None => panic
  | Some (ch', off') => m_apply_loop ch' off' len arg
  end.
End apply.

(** *** Packet headers *)

Definition m_demote_pkthdr (m : mbuf) : M mbuf :=
  do* kassert (fun _ => has M_PKTHDR m);
  do* kassert (fun _ => match ph_snd_tag (m_pkthdr m) with None => true | _ => false end);
  ret (m <| m_flags ::= fl_clear_pkthdr |> <| m_pkthdr := pkthdr_zero |>).

Fixpoint m_demote_loop (flags : mflags) (ch : list mbuf) : M (list mbuf) :=
  match ch with
  | [] => ret []
  | m :: r =>
      let* m := if has M_PKTHDR m then m_demote_pkthdr m else ret m in
      let m := m <| m_flags ::= fun f => fl_and f flags |> in
      let* r := m_demote_loop flags r in
      ret (m :: r)
  end.

Definition m_demote (ch : list mbuf) (all : bool) (flags : mflags) : M (list mbuf) :=
  let flags := fl_or flags M_DEMOTEFLAGS in
  if all then m_demote_loop flags ch
  else match ch with
       | [] => panic
       | m0 :: r => let* r := m_demote_loop flags r in ret (m0 :: r)
       end.

(** [to] and [from] after the call. *)
Definition m_move_pkthdr (to from : mbuf) : mbuf * mbuf :=
  let to := to <| m_flags := fl_or (fl_and (m_flags from) M_COPYFLAGS)
                                   (fl_only_ext (m_flags to)) |> in
  let to := if has M_EXT to then to else to <| m_data := PKTDAT |> in
  let to := to <| m_pkthdr := m_pkthdr from |> in
  let from := from <| m_pkthdr ::= fun h => h <| ph_tags := [] |> |>
                   <| m_flags ::= fl_clear_pkthdr |> in
  (to, from <| m_pkthdr ::= fun h => h <| ph_snd_tag := None |> |>).

(** [to] after the call, and whether the tags could be copied. *)
Definition m_dup_pkthdr (to from : mbuf) : M (bool * mbuf) :=
  let to := to <| m_flags := fl_or (fl_and (m_flags from) M_COPYFLAGS)
                                   (fl_only_ext (m_flags to)) |> in
  let to := if has M_EXT to then to else to <| m_data := PKTDAT |> in
  let to := to <| m_pkthdr := m_pkthdr from |> in
  do* match ph_snd_tag (m_pkthdr from) with Some t => m_snd_tag_ref t | None => ret tt end;
  let to := to <| m_pkthdr ::= fun h => h <| ph_tags := [] |> |> in
  let* tags := m_tag_copy_chain (ph_tags (m_pkthdr from)) in
  match tags with
  | None => ret (false, to)
  | Some t => ret (true, to <| m_pkthdr ::= fun h => h <| ph_tags := t |> |>)
  end.

Definition m_prepend (ch : list mbuf) (len : Z) : M (list mbuf) :=
  match ch with
  | [] => panic
  | m :: r =>
      let* mn := if has M_PKTHDR m then m_gethdr (m_type m) else m_get (m_type m) in
      match mn with
      | None => do* m_freem ch; ret []
      | Some mn =>
          let (mn, m) := if has M_PKTHDR m then m_move_pkthdr mn m else (mn, m) in
          let* size := gets (fun s => M_SIZE s mn) in
          let mn := if len <? size then mn <| m_data := M_ALIGN mn len |> else mn in
          ret (mn <| m_len := len |> :: m :: r)
      end
  end.

(** *** Sharing and copying *)

(** [n] after the call: it describes [m]'s cluster, whose reference count
    goes up by one. *)
Definition mb_dupcl (n m : mbuf) : M mbuf :=
  do* kassert (fun _ => has M_EXT m);
  do* kassert (fun _ => negb (has M_EXT n));
  do* modify (fun s => s <| ms_ref ::=
                alter (fun c => c + 1) (m_sid m) |>);
  ret (n <| m_sid := m_sid m |>
         <| m_flags := fl_or (m_flags n) (fl_ext_rdonly (m_flags m)) |>).

(** The body [m_copym] and [m_copypacket] share: [len] bytes at [off] of [m]
    become the data of the fresh mbuf [n], by sharing the cluster or by
    copying. *)
Definition m_copy_data (n m : mbuf) (off : Z) : M mbuf :=
  if has M_EXT m then mb_dupcl (n <| m_data := m_data m + off |>) m
  else
    let* b := m_read m off (m_len n) in
    do* m_write n 0 b;
    ret n.

(** The mbuf for the next piece, with the packet header of [m] when that is
    copied; the flag says whether the header's tags could be copied. *)
Definition m_copym_get (copyhdr : bool) (m : mbuf) : M (option (bool * mbuf)) :=
  let* on := if copyhdr then m_gethdr (m_type m) else m_get (m_type m) in
  match on with
  | None => ret None
  | Some n => let* hdr := if copyhdr then m_dup_pkthdr n m else ret (true, n) in ret (Some hdr)
  end.

(** One round of the loop of [m_copym]: the mbuf that holds the next piece, up
    to [len] bytes of [m] from [off] on. *)
Definition m_copym_piece (off0 : Z) (m : mbuf) (off len : Z) (copyhdr : bool) :
    M (option (bool * mbuf)) :=
  let* on := m_copym_get copyhdr m in
  match on with
  | None => ret None
  | Some (false, n) => ret (Some (false, n))
  | Some (true, n) =>
      let n := if copyhdr
               then n <| m_pkthdr ::= fun h => h <| ph_len :=
                           if len =? M_COPYALL then ph_len h - off0 else len |> |>
               else n in
      let n := n <| m_len := Z.min len (m_len m - off) |> in
      let* n := m_copy_data n m off in
      ret (Some (true, n))
  end.

Fixpoint m_copym_loop (off0 : Z) (ch : list mbuf) (off len : Z) (copyhdr : bool)
    (top : list mbuf) : M (list mbuf) :=
  if 0 <? len then
    match ch with
    | [] => do* kassert (fun _ => len =? M_COPYALL); ret top
    | m :: r =>
        let* on := m_copym_piece off0 m off len copyhdr in
        match on with
        | None => do* m_freem top; ret []
        | Some (false, n) => do* m_freem (top ++ [n]); ret []
        | Some (true, n) =>
            m_copym_loop off0 r 0 (if len =? M_COPYALL then len else len - m_len n)
                         false (top ++ [n])
        end
    end
  else ret top.

Definition m_copym (ch : list mbuf) (off0 len : Z) : M (list mbuf) :=
  do* kassert (fun _ => 0 <=? off0);
  do* kassert (fun _ => 0 <=? len);
  let copyhdr := match ch with m :: _ => (off0 =? 0) && has M_PKTHDR m | [] => false end in
  match m_seek ch off0 with
  | None => panic
  | Some (ch', off) => m_copym_loop off0 ch' off len copyhdr []
  end.

Fixpoint m_copypacket_loop (ch top : list mbuf) : M (list mbuf) :=
  match ch with
  | [] => ret top
  | m :: r =>
      let* oo := m_get (m_type m) in
      match oo with
      | None => do* m_freem top; ret []
      | Some n =>
          let* n := m_copy_data (n <| m_len := m_len m |>) m 0 in
          m_copypacket_loop r (top ++ [n])
      end
  end.

Definition m_copypacket (ch : list mbuf) : M (list mbuf) :=
  match ch with
  | [] => panic
  | m :: r =>
      let* on := m_get (m_type m) in
      match on with
      | None => do* m_freem []; ret []
      | Some n =>
          let* hdr := m_dup_pkthdr n m in
          let (ok, n) := hdr in
          if ok then
            let n := n <| m_len := m_len m |> in
            let* n := if has M_EXT m then m_copy_data n m 0
                      else m_copy_data (n <| m_data := PKTDAT + (m_data m - PKTDAT) |>) m 0 in
            m_copypacket_loop r [n]
          else do* m_freem [n]; ret []
      end
  end.

(** [m_dup]'s inner loop: fill the fresh mbuf [n], of [nsize] bytes, from the
    chain.  When a chunk does not end at the end of its mbuf it filled [n]. *)
Fixpoint m_dup_fill (n : mbuf) (nsize : Z) (ch : list mbuf) (moff remain : Z) :
    M (mbuf * list mbuf * Z * Z) :=
  if m_len n <? nsize then
    match ch with
    | [] => ret (n, [], moff, remain)
    | m :: r =>
        let chunk := Z.min (nsize - m_len n) (m_len m - moff) in
        let* b := m_copydata ch moff chunk in
        do* m_write n (m_len n) b;
        let n := n <| m_len ::= Z.add chunk |> in
        if moff + chunk =? m_len m then m_dup_fill n nsize r 0 (remain - chunk)
        else ret (n, ch, moff + chunk, remain - chunk)
    end
  else ret (n, ch, moff, remain).

(** The mbuf for the next bytes, and how many of them it takes; the first one
    gets a copy of the packet header, which can fail. *)
Definition m_dup_get (m0 : mbuf) (remain : Z) (first : bool) : M (option (bool * mbuf * Z)) :=
  let* on := if MINCLSIZE <=? remain then m_getcl (m_type m0) false else m_get (m_type m0) in
  let nsize := if MINCLSIZE <=? remain then MCLBYTES else MLEN in
  match on with
  | None => ret None
  | Some n =>
      let* hdr := if first then m_dup_pkthdr n m0 else ret (true, n) in
      let (ok, n) := hdr : bool * mbuf in
      if ok then
        let nsize := if first && negb (has M_EXT n) then MHLEN else nsize in
        let n := if first then n <| m_flags ::= fl_clear_rdonly |> else n in
        ret (Some (true, n <| m_len := 0 |>, nsize))
      else ret (Some (false, n, nsize))
  end.

Fixpoint m_dup_loop (fuel : nat) (m0 : mbuf) (ch : list mbuf) (moff remain : Z)
    (top : list mbuf) : M (list mbuf) :=
  let first := match top with [] => true | _ => false end in
  if (0 <? remain) || first then
    match fuel with
    | O => panic
    | S fuel =>
        let* on := m_dup_get m0 remain first in
        match on with
        | None => do* m_freem top; ret []
        | Some (false, n, _) => do* m_free n; do* m_freem top; ret []
        | Some (true, n, nsize) =>
            let* res := m_dup_fill n nsize ch moff remain in
            let '(n, ch, moff, remain) := res in
            let left := match ch with [] => false | _ => true end in
            do* kassert (fun _ => (0 <? remain) && left || (remain =? 0) && negb left);
            m_dup_loop fuel m0 ch moff remain (top ++ [n])
        end
    end
  else ret top.

(** Each round but the last copies at least one byte. *)
Definition m_dup (ch : list mbuf) : M (list mbuf) :=
  match ch with
  | [] => ret []
  | m0 :: _ =>
      do* kassert (fun _ => has M_PKTHDR m0);
      let remain := ph_len (m_pkthdr m0) in
      m_dup_loop (S (Z.to_nat remain)) m0 ch 0 remain []
  end.

(** *** Joining and trimming *)

(** [m_cat]'s second loop; [m] is the last mbuf of the first chain. *)
Fixpoint m_cat_last (m : mbuf) (n : list mbuf) : M (list mbuf) :=
  match n with
  | [] => ret [m]
  | n1 :: n' =>
      let* s := gets id in
      if negb (M_WRITABLE s m) || (M_TRAILINGSPACE s m <? m_len n1) then ret (m :: n)
      else
        let* b := m_read n1 0 (m_len n1) in
        do* m_write m (m_len m) b;
        do* m_free n1;
        m_cat_last (m <| m_len ::= Z.add (m_len n1) |>) n'
  end.

(** The first chain after the call. *)
Fixpoint m_cat (m n : list mbuf) : M (list mbuf) :=
  match m with
  | [] => panic
  | [last] => m_cat_last last n
  | m1 :: m' => let* r := m_cat m' n in ret (m1 :: r)
  end.

Definition m_catpkt (m n : list mbuf) : M (list mbuf) :=
  match m, n with
  | m1 :: m', n1 :: _ =>
      do* kassert (fun _ => has M_PKTHDR m1);
      do* kassert (fun _ => has M_PKTHDR n1);
      let m1 := m1 <| m_pkthdr ::= fun h => h <| ph_len ::= Z.add (ph_len (m_pkthdr n1)) |> |> in
      let* n := m_demote n true fl_none in
      m_cat (m1 :: m') n
  | _, _ => panic
  end.

(** Trim [len] bytes from the head; the second component is what could not be
    trimmed. *)
Fixpoint m_adj_head (ch : list mbuf) (len : Z) : list mbuf * Z :=
  match ch with
  | [] => ([], len)
  | m :: r =>
      if 0 <? len then
        if m_len m <=? len then
          let (r, left) := m_adj_head r (len - m_len m) in
          (m <| m_len := 0 |> :: r, left)
        else (m <| m_len := m_len m - len |> <| m_data ::= Z.add len |> :: r, 0)
      else (ch, len)
  end.

Definition upd_first (f : mbuf -> mbuf) (ch : list mbuf) : list mbuf :=
  match ch with [] => [] | m :: r => f m :: r end.

(** The walk to the end of a chain: the mbufs before the last one, and it. *)
Fixpoint split_last (ch : list mbuf) : option (list mbuf * mbuf) :=
  match ch with
  | [] => None
  | [m] => Some ([], m)
  | m :: r => match split_last r with Some (p, l) => Some (m :: p, l) | None => None end
  end.

(** [mp->m_pkthdr.len] set to [f] of its value, when the mbuf has one. *)
Definition set_pktlen (f : Z -> Z) (m : mbuf) : mbuf :=
  if has M_PKTHDR m then m <| m_pkthdr ::= fun h => h <| ph_len ::= f |> |> else m.

(** Truncate the chain after [count] bytes. *)
Fixpoint m_adj_truncate (ch : list mbuf) (count : Z) : M (list mbuf) :=
  match ch with
  | [] => ret []
  | m :: r =>
      if count <=? m_len m then
        do* match r with [] => ret tt | _ => m_freem r end;
        ret [m <| m_len := count |>]
      else let* r := m_adj_truncate r (count - m_len m) in ret (m :: r)
  end.

Definition sum_len (ch : list mbuf) : Z := foldr (fun m a => m_len m + a) 0 ch.

Definition m_adj (ch : list mbuf) (req_len : Z) : M (list mbuf) :=
  match split_last ch with
  | None => ret []
  | Some (pre, m) =>
      if 0 <=? req_len then
        let (ch, left) := m_adj_head ch req_len in
        ret (upd_first (set_pktlen (fun l => l - (req_len - left))) ch)
      else
        let len := - req_len in
        let count := sum_len ch in
        if len <=? m_len m then
          ret (upd_first (set_pktlen (fun l => l - len))
                 (pre ++ [m <| m_len := m_len m - len |>]))
        else
          let count := if count - len <? 0 then 0 else count - len in
          m_adj_truncate (upd_first (set_pktlen (fun _ => count)) ch) count
  end.

Definition m_adj_decap (ch : list mbuf) (len : Z) : M (list mbuf) :=
  let* ch := m_adj ch len in
  ret (upd_first (fun mp =>
         if has M_PKTHDR mp then
           mp <| m_pkthdr ::= fun h => h <| ph_rsstype :=
              if negb (Z.land (ph_rsstype h) M_HASHTYPE_INNER =? 0)
              then Z.land (ph_rsstype h) (Z.lnot M_HASHTYPE_INNER)
              else M_HASHTYPE_NONE |> |>
         else mp) ch).

(** *** Making data contiguous *)

(** One round of the copy loop of [m_pullup] and [m_copyup]: [count] bytes move
    from the chain's first mbuf [n1] into [m]; an emptied mbuf is freed. *)
Definition m_pull_one (m n1 : mbuf) (n' : list mbuf) (count : Z) : M (mbuf * list mbuf) :=
  let* b := m_read n1 0 count in
  do* m_write m (m_len m) b;
  let m := m <| m_len ::= Z.add count |> in
  let n1 := n1 <| m_len := m_len n1 - count |> in
  if negb (m_len n1 =? 0) then ret (m, n1 <| m_data ::= Z.add count |> :: n')
  else do* m_free n1; ret (m, n').

(** The loop: bytes move from the chain [n] into [m], which has [space] bytes
    left, until [len] are there. *)
Fixpoint m_pull_loop (fuel : nat) (m : mbuf) (n : list mbuf) (len space : Z) :
    M (mbuf * list mbuf * Z) :=
  match fuel, n with
  | S fuel, n1 :: n' =>
      let count := Z.min (Z.min (Z.max len max_protohdr) space) (m_len n1) in
      let* mn := m_pull_one m n1 n' count in
      let (m, n) := mn : mbuf * list mbuf in
      let len := len - count in
      match n with
      | [] => ret (m, [], len)
      | _ => if 0 <? len then m_pull_loop fuel m n len (space - count) else ret (m, n, len)
      end
  | _, _ => panic
  end.

(** What follows the loop. *)
Definition m_pull_finish (res : mbuf * list mbuf * Z) : M (list mbuf) :=
  let '(m, n, len) := res in
  if 0 <? len then do* m_free m; do* m_freem n; ret []
  else ret (m :: n).

(** Each round of the loop frees an mbuf or is the last one. *)
Definition m_pullup (n : list mbuf) (len : Z) : M (list mbuf) :=
  match n with
  | [] => panic
  | n1 :: n' =>
      if negb (has M_EXT n1) && (m_data n1 + len <? MLEN) &&
         match n' with [] => false | _ => true end
      then
        if len <=? m_len n1 then ret n
        else
          let space := MLEN - (m_data n1 + m_len n1) in
          let* res := m_pull_loop (length n') n1 n' (len - m_len n1) space in
          m_pull_finish res
      else if MHLEN <? len then do* m_freem n; ret []
      else
        let* om := m_get (m_type n1) in
        match om with
        | None => do* m_freem n; ret []
        | Some m =>
            let (m, n1) := if has M_PKTHDR n1 then m_move_pkthdr m n1 else (m, n1) in
            let space := MLEN - (m_data m + m_len m) in
            let* res := m_pull_loop (length n) m (n1 :: n') len space in
            m_pull_finish res
        end
  end.

Definition m_copyup (n : list mbuf) (len dstoff : Z) : M (list mbuf) :=
  match n with
  | [] => if MHLEN - dstoff <? len then do* m_freem n; ret [] else panic
  | n1 :: n' =>
      if MHLEN - dstoff <? len then do* m_freem n; ret []
      else
        let* om := m_get (m_type n1) in
        match om with
        | None => do* m_freem n; ret []
        | Some m =>
            let (m, n1) := if has M_PKTHDR n1 then m_move_pkthdr m n1 else (m, n1) in
            let m := m <| m_data ::= Z.add dstoff |> in
            let space := MLEN - (m_data m + m_len m) in
            let* res := m_pull_loop (length n) m (n1 :: n') len space in
            m_pull_finish res
        end
  end.

(** *** Splitting *)

(** The mbuf the cut falls in: the mbufs before it, it, those after it, and
    the offset of the cut in it. *)
Fixpoint m_split_seek (ch : list mbuf) (len : Z) :
    option (list mbuf * mbuf * list mbuf * Z) :=
  match ch with
  | [] => None
  | m :: r =>
      if m_len m <? len then
        match m_split_seek r (len - m_len m) with
        | Some (pre, m', post, len') => Some (m :: pre, m', post, len')
        | None => None
        end
      else Some ([], m, r, len)
  end.

(** The packet header of the tail, from that of the head. *)
Definition m_split_hdr (h0 : pkthdr) (len0 : Z) (n : mbuf) : M mbuf :=
  let* n := match ph_snd_tag h0 with
            | Some t => do* m_snd_tag_ref t;
                        ret (n <| m_pkthdr ::= fun h => h <| ph_snd_tag := Some t |> |>)
            | None => ret (n <| m_pkthdr ::= fun h => h <| ph_rcvif := ph_rcvif h0 |> |>)
            end in
  ret (n <| m_pkthdr ::= fun h => h <| ph_len := ph_len h0 - len0 |> |>).

(** From the label [extpacket]: the bytes of [m] from [len] on become [n]'s. *)
Definition m_split_extpacket (pre : list mbuf) (m : mbuf) (post : list mbuf)
    (n : mbuf) (len remain : Z) : M (list mbuf * list mbuf) :=
  let* n := if has M_EXT m then mb_dupcl (n <| m_data := m_data m + len |>) m
            else let* b := m_read m len remain in
                 do* m_write n 0 b; ret n in
  ret (pre ++ [m <| m_len := len |>], n <| m_len := remain |> :: post).

(** The head and the tail after the call; the call made for an mbuf that is
    not the first never makes another one. *)
Fixpoint m_split_rec (fuel : nat) (ch : list mbuf) (len0 : Z) : M (list mbuf * list mbuf) :=
  match fuel with
  | O => panic
  | S fuel =>
  match m_split_seek ch len0 with
  | None => ret (ch, [])
  | Some (pre, m, post, len) =>
      let remain := m_len m - len in
      let m0 := match pre with [] => m | m0 :: _ => m0 end in
      if has M_PKTHDR m0 then
        let* on := m_gethdr (m_type m0) in
        match on with
        | None => ret (ch, [])
        | Some n =>
            let setlen := set_pktlen (fun _ => len0) in
            if remain =? 0 then
              let* n := m_split_hdr (m_pkthdr m0) len0 n in
              ret (upd_first setlen (pre ++ [m]), n :: post)
            else
              let* n := m_split_hdr (m_pkthdr m0) len0 n in
              let pre' := upd_first setlen pre in
              let m := match pre with [] => setlen m | _ => m end in
              if has M_EXT m then m_split_extpacket pre' m post n len remain
              else if MHLEN <? remain then
                let n := n <| m_data := M_ALIGN n 0 |> in
                let* sub := m_split_rec fuel (m :: post) len in
                let (mch, next) := sub in
                match next with
                | [] => do* m_free n; ret (pre' ++ mch, [])
                | _ => ret (pre' ++ mch, n <| m_len := 0 |> :: next)
                end
              else
                m_split_extpacket pre' m post (n <| m_data := M_ALIGN n remain |>) len remain
        end
      else if remain =? 0 then ret (pre ++ [m], post)
      else
        let* on := m_get (m_type m) in
        match on with
        | None => ret (ch, [])
        | Some n =>
            m_split_extpacket pre m post (n <| m_data := M_ALIGN n remain |>) len remain
        end
  end
  end.

Definition m_split (ch : list mbuf) (len0 : Z) : M (list mbuf * list mbuf) :=
  m_split_rec 2 ch len0.

(** *** Buffers to mbufs *)

(** How [m_devget] sets up a new mbuf for the next of [totlen] bytes: the first
    one carries the packet header, and a small packet leaves room for a link
    header in front. *)
Definition m_devget_setup (first cl : bool) (ifp totlen off : Z) (m : mbuf) : mbuf :=
  let len := if cl then MCLBYTES else if first then MHLEN else MLEN in
  let shift := first && negb cl && (totlen + off + max_linkhdr <=? MHLEN) in
  let m := if shift then m <| m_data ::= Z.add max_linkhdr |> else m in
  let len := if shift then len - max_linkhdr else len in
  let m := if first
           then m <| m_pkthdr ::= fun h => h <| ph_rcvif := ifp |> <| ph_len := totlen |> |>
           else m in
  let m := if negb (off =? 0) then m <| m_data ::= Z.add off |> else m in
  let len := if negb (off =? 0) then len - off else len in
  m <| m_len := Z.min totlen len |>.

(** [copy] is the driver's routine that fetches bytes from the device, [None]
    for [bcopy]; [buf] holds the [totlen] bytes still to come. *)
Fixpoint m_devget_loop (fuel : nat) (copy : option (list Z -> list Z)) (ifp : Z)
    (buf : list Z) (off : Z) (top : list mbuf) : M (list mbuf) :=
  let totlen := Z.of_nat (length buf) in
  if 0 <? totlen then
    match fuel with
    | O => panic
    | S fuel =>
        let first := match top with [] => true | _ => false end in
        let cl := MINCLSIZE <=? totlen + off in
        let* om := if cl then m_getcl MT_DATA first
                   else if first then m_gethdr MT_DATA else m_get MT_DATA in
        match om with
        | None => if first then ret [] else do* m_freem top; ret []
        | Some m =>
            let m := m_devget_setup first cl ifp totlen off m in
            let k := Z.to_nat (m_len m) in
            do* m_write m 0 (match copy with Some f => f (take k buf) | None => take k buf end);
            m_devget_loop fuel copy ifp (drop k buf) 0 (top ++ [m])
        end
    end
  else ret top.

Definition m_devget (buf : list Z) (off : Z) (ifp : Z) (copy : option (list Z -> list Z)) :
    M (list mbuf) :=
  if (off <? 0) || (MHLEN <? off) then ret []
  else m_devget_loop (S (length buf)) copy ifp buf off [].

(** [m_copyback]'s first loop: walk to the mbuf that holds byte [off],
    extending the chain with zeroed mbufs.  [pre] are the mbufs passed, [m]
    the current one, [r] those after it; no position when an allocation
    failed. *)
Fixpoint m_copyback_seek (fuel : nat) (pre : list mbuf) (m : mbuf) (r : list mbuf)
    (off len totlen : Z) : M (list mbuf * mbuf * list mbuf * Z * Z * bool) :=
  if m_len m <? off then
    match fuel with
    | O => panic
    | S fuel =>
        let off := off - m_len m in
        let totlen := totlen + m_len m in
        match r with
        | m' :: r' => m_copyback_seek fuel (pre ++ [m]) m' r' off len totlen
        | [] =>
            let* on := m_get (m_type m) in
            match on with
            | None => ret (pre, m, r, off, totlen, false)
            | Some n =>
                do* m_write n 0 (replicate (Z.to_nat MLEN) 0);
                let n := n <| m_len := Z.min MLEN (len + off) |> in
                m_copyback_seek fuel (pre ++ [m]) n [] off len totlen
            end
        end
    end
  else ret (pre, m, r, off, totlen, true).

(** The last mbuf of the chain is extended into its trailing space. *)
Definition m_copyback_extend (s : mstate P) (m : mbuf) (r : list mbuf) (off len : Z) : mbuf :=
  match r with
  | [] => if m_len m - off <? len
          then m <| m_len ::= Z.add (Z.min (len - (m_len m - off)) (M_TRAILINGSPACE s m)) |>
          else m
  | _ => m
  end.

(** Its second loop: [cp] are the bytes still to store. *)
Fixpoint m_copyback_loop (fuel : nat) (pre : list mbuf) (m : mbuf) (r : list mbuf)
    (off : Z) (cp : list Z) (totlen : Z) : M (list mbuf * Z) :=
  let len := Z.of_nat (length cp) in
  if 0 <? len then
    match fuel with
    | O => panic
    | S fuel =>
        let* s := gets id in
        let m := m_copyback_extend s m r off len in
        let mlen := Z.min (m_len m - off) len in
        do* m_write m off (take (Z.to_nat mlen) cp);
        let cp := drop (Z.to_nat mlen) cp in
        let len := len - mlen in
        let totlen := totlen + (mlen + off) in
        if len =? 0 then ret (pre ++ m :: r, totlen)
        else
          match r with
          | m' :: r' => m_copyback_loop fuel (pre ++ [m]) m' r' 0 cp totlen
          | [] =>
              let* on := m_get (m_type m) in
              match on with
              | None => ret (pre ++ [m], totlen)
              | Some n =>
                  m_copyback_loop fuel (pre ++ [m]) (n <| m_len := Z.min MLEN len |>) []
                                  0 cp totlen
              end
          end
    end
  else ret (pre ++ m :: r, totlen).

(** The chain after the call.  A round of either loop leaves one of the
    chain's mbufs behind or deals with at least one byte. *)
Definition m_copyback (m0 : list mbuf) (off : Z) (cp : list Z) : M (list mbuf) :=
  match m0 with
  | [] => ret []
  | m :: r =>
      let len := Z.of_nat (length cp) in
      let* pos := m_copyback_seek (S (length r + Z.to_nat off)) [] m r off len 0 in
      let '(pre, m, r, off, totlen, found) := pos in
      let* res := if found : bool then m_copyback_loop (S (length r + length cp)) pre m r off cp totlen
                  else ret (pre ++ m :: r, totlen) in
      let (ch, totlen) := res : list mbuf * Z in
      ret (upd_first (set_pktlen (fun l => if l <? totlen then totlen else l)) ch)
  end.

(** [m_append]'s loop: the mbufs allocated and the bytes that did not fit. *)
Fixpoint m_append_loop (fuel : nat) (ty : Z) (cp : list Z) : M (list mbuf * list Z) :=
  match fuel, cp with
  | _, [] => ret ([], [])
  | O, _ => panic
  | S fuel, _ =>
      let* on := m_get ty in
      match on with
      | None => ret ([], cp)
      | Some n =>
          let n := n <| m_len := Z.min MLEN (Z.of_nat (length cp)) |> in
          let k := Z.to_nat (m_len n) in
          do* m_write n 0 (take k cp);
          let* res := m_append_loop fuel (m_type n) (drop k cp) in
          let (l, left) := res : list mbuf * list Z in
          ret (n :: l, left)
      end
  end.

(** Whether all of [cp] was appended, and the chain after the call. *)
Definition m_append (m0 : list mbuf) (cp : list Z) : M (bool * list mbuf) :=
  match split_last m0 with
  | None => panic
  | Some (pre, m) =>
      let* space := gets (fun s => M_TRAILINGSPACE s m) in
      let k := if 0 <? space then Z.min space (Z.of_nat (length cp)) else 0 in
      do* if 0 <? space then m_write m (m_len m) (take (Z.to_nat k) cp) else ret tt;
      let m := m <| m_len ::= Z.add k |> in
      let* res := m_append_loop (length cp) (m_type m) (drop (Z.to_nat k) cp) in
      let (l, left) := res : list mbuf * list Z in
      let done := Z.of_nat (length cp) - Z.of_nat (length left) in
      ret (match left with [] => true | _ => false end,
           upd_first (set_pktlen (Z.add done)) (pre ++ m :: l))
  end.

(** *** Defragmenting *)

Fixpoint m_defrag_loop (fuel : nat) (m0 : list mbuf) (total progress : Z)
    (final : list mbuf) (new : option mbuf) : M (list mbuf) :=
  if progress <? total then
    match fuel with
    | O => panic
    | S fuel =>
        let length := Z.min (total - progress) MCLBYTES in
        let* on := match new with
                   | Some m => ret (Some m)
                   | None => if MLEN <? length then m_getcl MT_DATA false else m_get MT_DATA
                   end in
        match on with
        | None => do* m_freem final; ret []
        | Some m =>
            let* b := m_copydata m0 progress length in
            do* m_write m 0 b;
            let m := m <| m_len := length |> in
            let* final := match new with
                          | Some _ => ret [m]
                          | None => m_cat final [m]
                          end in
            m_defrag_loop fuel m0 total (progress + length) final None
        end
    end
  else ret final.

(** The mbuf the new chain starts with, and whether its packet header could be
    copied. *)
Definition m_defrag_first (m : mbuf) (total : Z) : M (option (bool * mbuf)) :=
  let* on := if MHLEN <? total then m_getcl MT_DATA true else m_gethdr MT_DATA in
  match on with
  | None => ret None
  | Some final => let* hdr := m_dup_pkthdr final m in ret (Some hdr)
  end.

(** The chain returned and the original one, which is empty once freed. *)
Definition m_defrag (m0 : list mbuf) : M (list mbuf * list mbuf) :=
  match m0 with
  | [] => panic
  | m :: _ =>
      if negb (has M_PKTHDR m) then ret (m0, [])
      else
        let* fh := m_fixhdr m0 in
        let (total, m0) := fh : Z * list mbuf in
        match m0 with
        | [] => panic
        | m :: _ =>
            let* on := m_defrag_first m total in
            match on with
            | None => ret ([], m0)
            | Some (false, final) => do* m_freem [final]; ret ([], m0)
            | Some (true, final) =>
                let* res := m_defrag_loop (Z.to_nat total) m0 total 0 [final] (Some final) in
                match res with
                | [] => ret ([], m0)
                | _ => do* m_freem m0; ret (res, [])
                end
            end
        end
  end.

(** [m_collapse]'s first part, from [m] on: merge each mbuf into the one
    before it while there is room.  The flag says that the chain has few
    enough fragments. *)
Fixpoint m_collapse_merge (maxfrags : Z) (m : mbuf) (r : list mbuf) (curfrags : Z) :
    M (bool * list mbuf * Z) :=
  match r with
  | [] => ret (false, [m], curfrags)
  | n :: r' =>
      let* s := gets id in
      if M_WRITABLE s m && (m_len n <? M_TRAILINGSPACE s m) then
        let* b := m_copydata r 0 (m_len n) in
        do* m_write m (m_len m) b;
        let m := m <| m_len ::= Z.add (m_len n) |> in
        let curfrags := curfrags - 1 in
        do* m_free n;
        if curfrags <=? maxfrags then ret (true, m :: r', curfrags)
        else m_collapse_merge maxfrags m r' curfrags
      else
        let* res := m_collapse_merge maxfrags n r' curfrags in
        let '(done, l, c) := res : bool * list mbuf * Z in
        ret (done, m :: l, c)
  end.

(** Two neighbours that fit one cluster: the mbufs before them, the two, and
    those after them. *)
Fixpoint m_collapse_find (l : list mbuf) : option (list mbuf * mbuf * mbuf * list mbuf) :=
  match l with
  | n :: ((n2 :: r) as l') =>
      if m_len n + m_len n2 <? MCLBYTES then Some ([], n, n2, r)
      else match m_collapse_find l' with
           | Some (p, a, b, q) => Some (n :: p, a, b, q)
           | None => None
           end
  | _ => None
  end.

(** Replace the neighbours [n] and [n2], which [q] follows, by a cluster. *)
Definition m_collapse_cluster (n n2 : mbuf) (q : list mbuf) : M (option mbuf) :=
  let* om := m_getcl MT_DATA false in
  match om with
  | None => ret None
  | Some c =>
      let* b1 := m_copydata (n :: n2 :: q) 0 (m_len n) in
      do* m_write c 0 b1;
      let* b2 := m_copydata (n2 :: q) 0 (m_len n2) in
      do* m_write c (m_len n) b2;
      do* m_free n;
      do* m_free n2;
      ret (Some (c <| m_len := m_len n + m_len n2 |>))
  end.

(** [m_collapse] from the label [again]: [pre] are the mbufs before [m]. *)
Fixpoint m_collapse_again (fuel : nat) (maxfrags : Z) (pre : list mbuf) (m : mbuf)
    (r : list mbuf) (curfrags : Z) : M (bool * list mbuf) :=
  match fuel with
  | O => panic
  | S fuel =>
      let* res := m_collapse_merge maxfrags m r curfrags in
      let '(done, l, curfrags) := res : bool * list mbuf * Z in
      let ch := pre ++ l in
      if done then ret (true, ch)
      else
        do* kassert (fun _ => 1 <? maxfrags);
        match ch with
        | [] => panic
        | m0 :: ch' =>
            match m_collapse_find ch' with
            | None => ret (false, ch)
            | Some (p, n, n2, q) =>
                let* oc := m_collapse_cluster n n2 q in
                match oc with
                | None => ret (false, ch)
                | Some c =>
                    let curfrags := curfrags + 1 - 1 - 1 in
                    if curfrags <=? maxfrags then ret (true, m0 :: p ++ c :: q)
                    else m_collapse_again fuel maxfrags (m0 :: p) c q curfrags
                end
            end
        end
  end.

(** Whether the chain is returned, and the chain; a mapped mbuf is one
    fragment, and every round but the last merges two mbufs. *)
Definition m_collapse (m0 : list mbuf) (maxfrags : Z) : M (bool * list mbuf) :=
  match m0 with
  | [] => panic
  | m :: r => m_collapse_again (length m0) maxfrags [] m r (Z.of_nat (length m0))
  end.
End ops.
