(* ===== verification/MbufSpec.v ===== *)
(** * Specification of the mbuf operations

    The invariant [owned]: the mbufs of every live chain describe bytes inside
    their data areas, clear of the packet header, and no cluster has more
    users than its reference count says.  What the code relies on of the
    allocator and of the macros of [sys/mbuf.h] is stated against it
    ([MbufLaws]).  Each operation of [Mbuf.v] is then specified on byte
    strings: what the chain holds afterwards, that the invariant is kept, and
    that no other chain changes, not even one that shares clusters. *)

From stdpp Require Import gmap.
From S2P Require Import Prelude Mbuf.

Section invariant.
Context {P : Type} {MS : MbufSys P}.
Implicit Types (s : mstate P) (m : mbuf) (l : list mbuf).

Definition ref_of s (sid : nat) : Z := default 0 (ms_ref s !! sid).

Definition st_size s (sid : nat) : Z :=
  match ms_mem s !! sid with Some st => Z.of_nat (length (st_bytes st)) | None => 0 end.

(** Where the data of an mbuf may start. *)
Definition m_start m : Z :=
  if negb (has M_EXT m) && has M_PKTHDR m then PKTDAT else 0.

Record mb_ok s m : Prop := {
  ok_area : is_Some (ms_mem s !! m_sid m);
  ok_start : 0 <= m_start m <= m_data m;
  ok_len : 0 <= m_len m;
  ok_end : m_data m + m_len m <= st_size s (m_sid m);
  ok_inline : has M_EXT m = false ->
    st_size s (m_sid m) = MLEN /\ ref_of s (m_sid m) = 1
}.

Definition uses (sid : nat) l : nat := length (filter (fun m => m_sid m = sid) l).

Definition owned s l : Prop :=
  Forall (mb_ok s) l /\ forall sid, Z.of_nat (uses sid l) <= ref_of s sid.

(** The bytes of these mbufs, and the size of their areas, are the same. *)
Definition same s s' l : Prop :=
  Forall (fun m => mb_bytes s' m = mb_bytes s m /\
                   st_size s' (m_sid m) = st_size s (m_sid m)) l.

(** No area of these mbufs got a user. *)
Definition no_new_users s s' l : Prop :=
  Forall (fun m => ref_of s' (m_sid m) <= ref_of s (m_sid m)) l.
End invariant.

(** ** What the code relies on *)

Class MbufLaws (P : Type) {MS : MbufSys P} := {
  (** Allocation may fail: it does not when [how] is [M_WAITOK]. *)
  may_fail : Prop;

  law_sizes : 0 < MHLEN <= MLEN /\ MHLEN < MCLBYTES;
  law_headroom : 0 <= max_protohdr /\ 0 <= max_linkhdr;
  law_copyflags : M_COPYFLAGS M_PKTHDR = true /\ M_COPYFLAGS M_EXT = false;
  law_demoteflags : M_DEMOTEFLAGS M_EXT = true;

  (** An allocation either fails or returns an empty mbuf whose data area
      nothing else uses; the live chains are unaffected. *)
  law_get (k : Z -> ST (mstate P) (option mbuf)) (ext hdr : bool) (ty : Z) s l :
    k = m_get /\ ext = false /\ hdr = false \/
    k = m_gethdr /\ ext = false /\ hdr = true \/
    (k = fun ty => m_getcl ty hdr) /\ ext = true ->
    owned s l ->
    wp (k ty) (fun r s' =>
      same s s' l /\ no_new_users s s' l /\
      match r with
      | None => owned s' l /\ may_fail
      | Some m =>
          owned s' (m :: l) /\ ref_of s' (m_sid m) = 1 /\
          st_size s' (m_sid m) = (if ext then MCLBYTES else MLEN) /\
          m_data m = m_start m /\ m_len m = 0 /\ m_type m = ty /\
          has M_EXT m = ext /\ has M_PKTHDR m = hdr /\ has M_RDONLY m = false /\
          (hdr = true -> m_pkthdr m = pkthdr_zero)
      end) s;

  (** Freeing an mbuf gives up its own use of its data area, no other. *)
  law_free m s l :
    owned s (m :: l) ->
    wp (m_free m) (fun _ s' => owned s' l /\ same s s' l /\ no_new_users s s' l) s;
  law_freem ch s l :
    owned s (ch ++ l) ->
    wp (m_freem ch) (fun _ s' => owned s' l /\ same s s' l /\ no_new_users s s' l) s;

  (** Packet tags and send tags live outside the data areas. *)
  law_tags t s l :
    owned s l ->
    wp (m_tag_copy_chain t) (fun r s' => (r = None -> may_fail) /\ owned s' l /\ same s s' l /\
                               ms_mem s' = ms_mem s /\ ms_ref s' = ms_ref s) s;
  law_snd_tag t s l :
    owned s l ->
    wp (m_snd_tag_ref t) (fun _ s' => owned s' l /\ same s s' l /\
                            ms_mem s' = ms_mem s /\ ms_ref s' = ms_ref s) s;

  (** It is safe to write to a data area with a single user. *)
  law_writable s m : mb_ok s m -> M_WRITABLE s m = true -> ref_of s (m_sid m) <= 1;
  law_trailing s m :
    mb_ok s m ->
    M_TRAILINGSPACE s m =
      if M_WRITABLE s m then st_size s (m_sid m) - (m_data m + m_len m) else 0;
  law_size s m : mb_ok s m -> M_SIZE s m = st_size s (m_sid m) - m_start m;
  law_align s m len :
    mb_ok s m -> 0 <= len <= st_size s (m_sid m) - m_start m ->
    m_start m <= M_ALIGN m len /\ M_ALIGN m len + len <= st_size s (m_sid m)
}.

(** ** Byte buffers *)

Lemma buf_read_app (b : list Z) (o n k : nat) :
  buf_read b o n ++ buf_read b (o + n) k = buf_read b o (n + k).
Proof.
  unfold buf_read. rewrite <- drop_drop. now rewrite take_take_drop.
Qed.

Lemma buf_read_over (b src : list Z) (d n o : Z) :
  0 <= d -> 0 <= n -> 0 <= o -> o + Z.of_nat (length src) <= n ->
  d + n <= Z.of_nat (length b) ->
  buf_read (buf_write b (Z.to_nat (d + o)) src) (Z.to_nat d) (Z.to_nat n) =
  take (Z.to_nat o) (buf_read b (Z.to_nat d) (Z.to_nat n)) ++ src ++
  drop (Z.to_nat o + length src) (buf_read b (Z.to_nat d) (Z.to_nat n)).
Proof.
  intros Hd Hn Ho Hle Hb. set (k := (Z.to_nat n - Z.to_nat o - length src)%nat).
  replace (Z.to_nat n) with (Z.to_nat o + (length src + k))%nat at 1 by lia.
  rewrite <- !buf_read_app. f_equal; [| f_equal].
  - rewrite buf_read_write_disjoint by lia. unfold buf_read. rewrite take_take. f_equal. lia.
  - replace (Z.to_nat d + Z.to_nat o)%nat with (Z.to_nat (d + o)) by lia.
    apply buf_read_write. lia.
  - rewrite buf_read_write_disjoint by lia. unfold buf_read.
    rewrite skipn_firstn_comm, drop_drop. f_equal; [lia |]. f_equal. lia.
Qed.

(** A write that starts inside the [n] bytes at [d] and may end behind them. *)
Lemma buf_read_at (b src : list Z) (d n o : Z) :
  0 <= d -> 0 <= o <= n -> d + n <= Z.of_nat (length b) ->
  d + o + Z.of_nat (length src) <= Z.of_nat (length b) ->
  buf_read (buf_write b (Z.to_nat (d + o)) src) (Z.to_nat d)
    (Z.to_nat (Z.max n (o + Z.of_nat (length src)))) =
  take (Z.to_nat o) (buf_read b (Z.to_nat d) (Z.to_nat n)) ++ src ++
  drop (Z.to_nat o + length src) (buf_read b (Z.to_nat d) (Z.to_nat n)).
Proof.
  intros Hd Ho Hb Hs. destruct (Z.le_gt_cases (o + Z.of_nat (length src)) n) as [Hle | Hgt].
  - rewrite Z.max_l by lia. apply buf_read_over; lia.
  - rewrite Z.max_r by lia. rewrite (drop_ge (buf_read _ _ _)) by (rewrite length_buf_read; lia).
    rewrite app_nil_r. replace (Z.to_nat (o + Z.of_nat (length src))) with (Z.to_nat o + length src)%nat by lia.
    rewrite <- buf_read_app. f_equal.
    + rewrite buf_read_write_disjoint by lia. unfold buf_read. rewrite take_take. f_equal. lia.
    + replace (Z.to_nat d + Z.to_nat o)%nat with (Z.to_nat (d + o)) by lia. apply buf_read_write. lia.
Qed.

(** ** The invariant *)

Section lemmas.
Context {P : Type} {MS : MbufSys P}.
Implicit Types (s : mstate P) (m : mbuf) (ch l : list mbuf).

#[export] Instance uses_perm sid : Proper ((≡ₚ) ==> (=)) (uses sid).
Proof. intros l l' Hp. unfold uses. now rewrite Hp. Qed.

#[export] Instance owned_perm s : Proper ((≡ₚ) ==> iff) (owned s).
Proof. intros l l' Hp. unfold owned. split; intros [H1 H2]; split.
  - now rewrite <- Hp.
  - intros. rewrite <- Hp. apply H2.
  - now rewrite Hp.
  - intros. rewrite Hp. apply H2.
Qed.

Lemma uses_cons sid m l :
  uses sid (m :: l) = ((if decide (m_sid m = sid) then 1 else 0) + uses sid l)%nat.
Proof. unfold uses. rewrite filter_cons. now destruct (decide (m_sid m = sid)). Qed.

Lemma uses_app sid l l' : uses sid (l ++ l') = (uses sid l + uses sid l')%nat.
Proof. induction l; [done |]. simpl. rewrite !uses_cons. lia. Qed.

Lemma uses_0 sid l : uses sid l = O <-> Forall (fun m => m_sid m <> sid) l.
Proof.
  induction l as [| m l IH]; [done |]. rewrite uses_cons, Forall_cons_iff, <- IH.
  destruct (decide (m_sid m = sid)); intuition lia.
Qed.

Lemma owned_cons s m l : owned s (m :: l) -> mb_ok s m /\ owned s l.
Proof.
  intros [[Hm Hl]%Forall_cons_iff H]. split; [done |]. split; [done |].
  intros sid. specialize (H sid). rewrite uses_cons in H. lia.
Qed.

Lemma owned_app_r s l l' : owned s (l ++ l') -> owned s l'.
Proof. induction l; [done |]. intros [_ H]%owned_cons. auto. Qed.

Lemma owned_app_l s l l' : owned s (l ++ l') -> owned s l.
Proof. rewrite Permutation_app_comm. apply owned_app_r. Qed.

Lemma owned_swap s m m' l : owned s (m :: m' :: l) -> owned s (m' :: m :: l).
Proof. apply owned_perm. solve_Permutation. Qed.

Lemma owned_mid s m ch l : owned s (ch ++ m :: l) <-> owned s (m :: ch ++ l).
Proof. apply owned_perm. solve_Permutation. Qed.

Lemma owned_ok s m l : owned s (m :: l) -> mb_ok s m.
Proof. now intros [? _]%owned_cons. Qed.

(** A data area with one user: no other live mbuf describes it. *)
Lemma owned_unique s m l :
  owned s (m :: l) -> ref_of s (m_sid m) <= 1 ->
  Forall (fun m' => m_sid m' <> m_sid m) l.
Proof.
  intros [_ H] Hr. apply uses_0. specialize (H (m_sid m)).
  rewrite uses_cons, decide_True in H by done. lia.
Qed.

Lemma owned_ref_pos s m l : owned s (m :: l) -> 1 <= ref_of s (m_sid m).
Proof.
  intros [_ H]. specialize (H (m_sid m)). rewrite uses_cons, decide_True in H by done. lia.
Qed.

Lemma same_refl s l : same s s l.
Proof. apply Forall_true. done. Qed.

Lemma same_trans s1 s2 s3 l : same s1 s2 l -> same s2 s3 l -> same s1 s3 l.
Proof.
  unfold same. rewrite !Forall_forall. intros H1 H2 m Hm.
  destruct (H1 m Hm), (H2 m Hm). split; congruence.
Qed.

Lemma same_app s s' l l' : same s s' (l ++ l') <-> same s s' l /\ same s s' l'.
Proof. apply Forall_app. Qed.

Lemma same_cons s s' m l :
  same s s' (m :: l) <->
  (mb_bytes s' m = mb_bytes s m /\ st_size s' (m_sid m) = st_size s (m_sid m)) /\ same s s' l.
Proof. apply Forall_cons_iff. Qed.

Lemma chain_bytes_cons s m l : chain_bytes s (m :: l) = mb_bytes s m ++ chain_bytes s l.
Proof. done. Qed.

Lemma chain_bytes_nil s : chain_bytes s [] = [].
Proof. done. Qed.

Lemma chain_bytes_app s l l' : chain_bytes s (l ++ l') = chain_bytes s l ++ chain_bytes s l'.
Proof. apply bind_app. Qed.

Lemma same_chain s s' l : same s s' l -> chain_bytes s' l = chain_bytes s l.
Proof.
  induction 1 as [| m l [Hm _] _ IH]; [done |]. now rewrite !chain_bytes_cons, Hm, IH.
Qed.

Lemma nnu_trans s1 s2 s3 l :
  no_new_users s1 s2 l -> no_new_users s2 s3 l -> no_new_users s1 s3 l.
Proof.
  unfold no_new_users. rewrite !Forall_forall. intros H1 H2 m Hm.
  specialize (H1 m Hm). specialize (H2 m Hm). lia.
Qed.

(** The bytes depend on nothing but the area, the offset and the length. *)
Lemma mb_bytes_ext s m m' :
  m_sid m' = m_sid m -> m_data m' = m_data m -> m_len m' = m_len m ->
  mb_bytes s m' = mb_bytes s m.
Proof. unfold mb_bytes. now intros -> -> ->. Qed.

Lemma m_start_ext m m' :
  has M_EXT m' = has M_EXT m -> has M_PKTHDR m' = has M_PKTHDR m -> m_start m' = m_start m.
Proof. unfold m_start. now intros -> ->. Qed.

Lemma mb_bytes_mem s s' m : ms_mem s' = ms_mem s -> mb_bytes s' m = mb_bytes s m.
Proof. unfold mb_bytes. now intros ->. Qed.

Lemma length_mb_bytes s m : mb_ok s m -> Z.of_nat (length (mb_bytes s m)) = m_len m.
Proof.
  intros [[st Hst] H2 H3 H4 _]. unfold mb_bytes, st_size in *. rewrite Hst in *.
  rewrite length_buf_read; lia.
Qed.

Lemma length_chain_bytes s l :
  Forall (mb_ok s) l -> Z.of_nat (length (chain_bytes s l)) = sum_len l.
Proof.
  induction 1 as [| m l Hm _ IH]; [done |]. rewrite chain_bytes_cons. simpl.
  rewrite length_app, Nat2Z.inj_add, length_mb_bytes by done. now rewrite IH.
Qed.

Lemma mb_bytes_0 s m : m_len m = 0 -> mb_bytes s m = [].
Proof. unfold mb_bytes. intros ->. now destruct (ms_mem s !! m_sid m). Qed.

(** Another description of the same area. *)
Lemma owned_replace s m m' l :
  owned s (m :: l) -> m_sid m' = m_sid m -> mb_ok s m' -> owned s (m' :: l).
Proof.
  intros [[_ Hl]%Forall_cons_iff H] Hs Hok. split; [now constructor |].
  intros sid. specialize (H sid). rewrite uses_cons in *. now rewrite Hs.
Qed.

(** [m'] describes fewer bytes of the area than [m], or the same number. *)
Lemma mb_ok_narrow s m m' :
  mb_ok s m -> m_sid m' = m_sid m -> has M_EXT m' = has M_EXT m ->
  0 <= m_start m' <= m_data m' -> 0 <= m_len m' ->
  m_data m' + m_len m' <= st_size s (m_sid m) -> mb_ok s m'.
Proof. intros [H1 H2 H3 H4 H5] Hs He ???. now split; rewrite ?Hs, ?He. Qed.

(** *** Reads *)

Lemma m_read_wp s m off n :
  mb_ok s m -> 0 <= off -> 0 <= n -> off + n <= m_len m ->
  m_read m off n s = Some (take (Z.to_nat n) (drop (Z.to_nat off) (mb_bytes s m)), s).
Proof.
  intros [[st Hst] H2 H3 H4 _] Hoff Hn Hle. unfold m_read, mb_bytes, st_size in *.
  rewrite Hst in *. rewrite (proj2 (Z.leb_le 0 (m_data m + off))) by lia.
  rewrite (proj2 (Z.leb_le 0 n)), (proj2 (Z.leb_le _ (Z.of_nat _))) by lia. simpl.
  f_equal. f_equal. unfold buf_read.
  rewrite skipn_firstn_comm, take_take, drop_drop. f_equal; [lia | f_equal; lia].
Qed.

Lemma m_read_all s m :
  mb_ok s m -> m_read m 0 (m_len m) s = Some (mb_bytes s m, s).
Proof.
  intros Hok. pose proof (ok_len _ _ Hok). rewrite m_read_wp by (done || lia).
  rewrite drop_0, take_ge; [done |]. pose proof (length_mb_bytes _ _ Hok). lia.
Qed.

(** *** Writes *)

(** [s'] is [s] but for the bytes of one area. *)
Record stored s s' (sid : nat) : Prop := {
  sd_ref : ms_ref s' = ms_ref s;
  sd_size k : st_size s' k = st_size s k;
  sd_some k : is_Some (ms_mem s !! k) -> is_Some (ms_mem s' !! k);
  sd_other k : k <> sid -> ms_mem s' !! k = ms_mem s !! k
}.

Lemma stored_ok s s' sid m : stored s s' sid -> mb_ok s m -> mb_ok s' m.
Proof.
  intros [Hr Hz Hs _] [H1 H2 H3 H4 H5]. split; rewrite ?Hz; auto.
  unfold ref_of in *. now rewrite Hr.
Qed.

Lemma stored_owned s s' sid l : stored s s' sid -> owned s l -> owned s' l.
Proof.
  intros Hs [H1 H2]. split.
  - eapply Forall_impl; [| exact H1]. intros m. now apply stored_ok with (sid := sid).
  - intros k. unfold ref_of. rewrite (sd_ref _ _ _ Hs). apply H2.
Qed.

Lemma stored_same s s' sid l :
  stored s s' sid -> Forall (fun m => m_sid m <> sid) l -> same s s' l.
Proof.
  intros Hs Hl. eapply Forall_impl; [| exact Hl]. intros m Hm. simpl in Hm.
  unfold mb_bytes, st_size. now rewrite (sd_other _ _ _ Hs).
Qed.

Lemma m_write_stored s m off src :
  mb_ok s m -> 0 <= off ->
  m_data m + off + Z.of_nat (length src) <= st_size s (m_sid m) ->
  exists st s', ms_mem s !! m_sid m = Some st /\ m_write m off src s = Some (tt, s') /\
    stored s s' (m_sid m) /\
    ms_mem s' !! m_sid m = Some (Storage (st_base st)
      (buf_write (st_bytes st) (Z.to_nat (m_data m + off)) src)).
Proof.
  intros [[st Hst] H2 H3 H4 _] Hoff Hle. unfold m_write, st_size in *. rewrite Hst in *.
  rewrite (proj2 (Z.leb_le 0 (m_data m + off))), (proj2 (Z.leb_le _ (Z.of_nat _))) by lia.
  simpl. exists st. eexists. split_and!; [done | reflexivity | | simpl; apply lookup_insert_eq].
  split; simpl; [done | | |]; intros k; unfold st_size; simpl;
    destruct (decide (k = m_sid m)) as [-> | Hk];
    rewrite ?lookup_insert_eq, ?lookup_insert_ne by done; try done.
  rewrite Hst. simpl. now rewrite length_buf_write.
Qed.

(** Bytes put after the data of [m] become its data once [m_len] says so. *)
Lemma m_write_append s m m' l src :
  owned s (m :: l) -> ref_of s (m_sid m) <= 1 ->
  m_data m + m_len m + Z.of_nat (length src) <= st_size s (m_sid m) ->
  m_sid m' = m_sid m -> m_data m' = m_data m -> m_start m' = m_start m ->
  has M_EXT m' = has M_EXT m -> m_len m' = m_len m + Z.of_nat (length src) ->
  wp (m_write m (m_len m) src) (fun _ s' =>
    owned s' (m' :: l) /\ same s s' l /\ mb_bytes s' m' = mb_bytes s m ++ src /\
    stored s s' (m_sid m)) s.
Proof.
  intros Hown Hr Hle Hs Hd Hst He Hl. pose proof (owned_ok _ _ _ Hown) as Hok.
  destruct (m_write_stored s m (m_len m) src) as (st & s' & Hm & Hw & Hsd & Hm'); auto.
  { apply Hok. }
  unfold wp. rewrite Hw. split_and!; [| | | exact Hsd].
  - eapply owned_replace; [eapply stored_owned; eassumption | done |].
    eapply stored_ok; [exact Hsd |].
    apply (mb_ok_narrow s m); auto; try rewrite ?Hst, ?Hd; try apply Hok; try lia.
    pose proof (ok_len _ _ Hok). lia.
  - eapply stored_same; [exact Hsd |]. now apply (owned_unique s).
  - destruct Hok as [_ H2 H3 H4 _]. unfold mb_bytes, st_size in *.
    rewrite Hs, Hd, Hl, Hm', Hm in *. simpl.
    replace (Z.to_nat (m_len m + Z.of_nat (length src)))
      with (Z.to_nat (m_len m) + length src)%nat by lia.
    rewrite <- buf_read_app. f_equal.
    + apply buf_read_write_disjoint. lia.
    + replace (Z.to_nat (m_data m) + Z.to_nat (m_len m))%nat
        with (Z.to_nat (m_data m + m_len m)) by lia.
      apply buf_read_write. lia.
Qed.

(** Bytes stored from inside the data of [m] on, possibly past its end. *)
Lemma m_write_at s m m' l off src :
  owned s (m :: l) -> ref_of s (m_sid m) <= 1 ->
  0 <= off <= m_len m -> m_data m + off + Z.of_nat (length src) <= st_size s (m_sid m) ->
  m_sid m' = m_sid m -> m_data m' = m_data m -> m_start m' = m_start m ->
  has M_EXT m' = has M_EXT m -> m_len m' = Z.max (m_len m) (off + Z.of_nat (length src)) ->
  wp (m_write m' off src) (fun _ s' =>
    owned s' (m' :: l) /\ same s s' l /\
    mb_bytes s' m' = take (Z.to_nat off) (mb_bytes s m) ++ src ++
                     drop (Z.to_nat off + length src) (mb_bytes s m) /\
    stored s s' (m_sid m)) s.
Proof.
  intros Hown Hr Hoff Hle Hs Hd Hst He Hl. pose proof (owned_ok _ _ _ Hown) as Hok.
  assert (m_write m' off src = m_write (P := P) m off src) as -> by (unfold m_write; now rewrite Hs, Hd).
  destruct (m_write_stored s m off src) as (st & s' & Hm & Hw & Hsd & Hm'); auto; [lia |].
  pose proof (ok_end _ _ Hok) as Hen. unfold wp. rewrite Hw. split_and!; [| | | exact Hsd].
  - eapply owned_replace; [eapply stored_owned; eassumption | done |].
    eapply stored_ok; [exact Hsd |].
    apply (mb_ok_narrow s m); auto; rewrite ?Hst, ?Hd; try apply Hok; lia.
  - eapply stored_same; [exact Hsd |]. now apply (owned_unique s).
  - destruct Hok as [_ H2 H3 H4 _]. unfold mb_bytes, st_size in *.
    rewrite Hs, Hd, Hl, Hm', Hm in *. simpl. apply buf_read_at; lia.
Qed.
End lemmas.

#[global] Arguments sum_len : simpl never.
#[global] Arguments chain_bytes : simpl never.

(** ** Operations that only read *)

Section readers.
Context {P : Type} {MS : MbufSys P}.
Implicit Types (s : mstate P) (m : mbuf) (ch l : list mbuf).

Lemma sum_len_cons m ch : sum_len (m :: ch) = m_len m + sum_len ch.
Proof. done. Qed.

Lemma sum_len_nil : sum_len [] = 0.
Proof. done. Qed.

Ltac sl := simpl in *; rewrite ?sum_len_cons, ?sum_len_nil in *.

Lemma sum_len_app ch l : sum_len (ch ++ l) = sum_len ch + sum_len l.
Proof. induction ch as [| m ch IH]; [done |]. simpl. rewrite !sum_len_cons. lia. Qed.

Lemma sum_len_nonneg s ch : Forall (mb_ok s) ch -> 0 <= sum_len ch.
Proof. intros H. rewrite <- (length_chain_bytes s ch H). lia. Qed.

Lemma m_length_from_sum s ch a :
  Forall (mb_ok s) ch -> 0 <= a -> a + sum_len ch < 2 ^ 32 ->
  m_length_from a ch = a + sum_len ch.
Proof.
  intros H. revert a. induction H as [| m r Hm Hr IH]; intros a Ha Hlt; sl; [lia |].
  pose proof (sum_len_nonneg s r Hr). pose proof (ok_len _ _ Hm).
  unfold u32. rewrite Z.mod_small by lia. rewrite IH; lia.
Qed.

Lemma m_length_sum s ch :
  Forall (mb_ok s) ch -> sum_len ch < 2 ^ 32 -> m_length ch = sum_len ch.
Proof. intros. unfold m_length. rewrite (m_length_from_sum s); auto; lia. Qed.

Lemma drop_mb s m ch (k : Z) :
  mb_ok s m -> m_len m <= k ->
  drop (Z.to_nat k) (chain_bytes s (m :: ch)) =
  drop (Z.to_nat (k - m_len m)) (chain_bytes s ch).
Proof.
  intros Hm Hk. rewrite chain_bytes_cons. pose proof (length_mb_bytes _ _ Hm).
  rewrite drop_app_ge by lia. f_equal. lia.
Qed.

Lemma m_seek_spec s ch off :
  Forall (mb_ok s) ch -> 0 <= off <= sum_len ch ->
  exists pre ch' off', m_seek ch off = Some (ch', off') /\ ch = pre ++ ch' /\ 0 <= off' /\
    match ch' with [] => off' = 0 | m :: _ => off' = 0 \/ off' < m_len m end /\
    sum_len ch' - off' = sum_len ch - off /\
    drop (Z.to_nat off) (chain_bytes s ch) = drop (Z.to_nat off') (chain_bytes s ch').
Proof.
  intros H. revert off. induction H as [| m r Hm Hr IH]; intros off [H0 Hle]; sl.
  - exists [], [], off. simpl. destruct (Z.ltb_spec 0 off); [lia |]. split_and!; auto; lia.
  - simpl. destruct (Z.ltb_spec 0 off); [| exists [], (m :: r), off; split_and!; auto; lia].
    destruct (Z.ltb_spec off (m_len m)); [exists [], (m :: r), off; split_and!; auto; lia |].
    destruct (IH (off - m_len m)) as (pre & ch' & off' & Q1 & -> & Q3 & Q4 & Q5 & Q6); [lia |].
    exists (m :: pre), ch', off'. split_and!; auto; [lia |].
    rewrite <- Q6. now apply drop_mb.
Qed.

Lemma m_seek_short s ch off :
  Forall (mb_ok s) ch -> sum_len ch < off -> m_seek ch off = None.
Proof.
  intros H. revert off. induction H as [| m r Hm Hr IH]; intros off Hlt; sl.
  - now rewrite (proj2 (Z.ltb_lt 0 off)).
  - pose proof (sum_len_nonneg s r Hr). pose proof (ok_len _ _ Hm).
    rewrite (proj2 (Z.ltb_lt 0 off)), (proj2 (Z.ltb_ge off _)) by lia. apply IH. lia.
Qed.

(** The part of a range that lies in the first mbuf, and the rest. *)
Lemma take_drop_mb s m ch (off n : Z) :
  mb_ok s m -> 0 <= off <= m_len m -> 0 <= n ->
  take (Z.to_nat n) (drop (Z.to_nat off) (chain_bytes s (m :: ch))) =
  take (Z.to_nat (Z.min (m_len m - off) n)) (drop (Z.to_nat off) (mb_bytes s m)) ++
  take (Z.to_nat (n - Z.min (m_len m - off) n)) (chain_bytes s ch).
Proof.
  intros Hm Ho Hn. pose proof (length_mb_bytes _ _ Hm). rewrite chain_bytes_cons.
  rewrite drop_app_le by lia. rewrite take_app, length_drop. f_equal.
  - destruct (Z.le_gt_cases n (m_len m - off)); [f_equal; lia |].
    rewrite !take_ge; rewrite ?length_drop; auto; lia.
  - f_equal. lia.
Qed.

Lemma m_copydata_loop_spec s ch off len :
  Forall (mb_ok s) ch -> 0 <= off -> 0 <= len <= sum_len ch - off ->
  match ch with [] => off = 0 | m :: _ => off = 0 \/ off < m_len m end ->
  m_copydata_loop ch off len s =
    Some (take (Z.to_nat len) (drop (Z.to_nat off) (chain_bytes s ch)), s).
Proof.
  intros H. revert off len. induction H as [| m r Hm Hr IH]; intros off len Ho Hl Hh;
    sl; destruct (Z.ltb_spec 0 len); try lia;
    try (replace len with 0 by lia; done).
  pose proof (ok_len _ _ Hm). pose proof (sum_len_nonneg s r Hr). unfold bind.
  rewrite m_read_wp by (done || lia). rewrite IH; [| lia | lia |].
  - unfold ret. f_equal. f_equal. rewrite take_drop_mb by (done || lia).
    now rewrite drop_0.
  - destruct r; auto.
Qed.

Lemma m_copydata_spec s ch off len :
  Forall (mb_ok s) ch -> 0 <= off -> 0 <= len -> off + len <= sum_len ch ->
  m_copydata ch off len s =
    Some (take (Z.to_nat len) (drop (Z.to_nat off) (chain_bytes s ch)), s).
Proof.
  intros H Ho Hl Hle.
  destruct (m_seek_spec s ch off H) as (pre & ch' & off' & Q1 & Q2 & Q3 & Q4 & Q5 & Q6); [lia |].
  unfold m_copydata, bind, kassert. rewrite !(proj2 (Z.leb_le 0 _)) by done. rewrite Q1.
  rewrite m_copydata_loop_spec; auto; [now rewrite Q6 | | lia].
  subst ch. now apply Forall_app in H as [_ H].
Qed.

(** Asked for bytes the chain does not have, [m_copydata] panics. *)
Lemma m_copydata_short s ch off len :
  Forall (mb_ok s) ch -> 0 <= off -> 0 < len -> sum_len ch < off + len ->
  m_copydata ch off len s = None.
Proof.
  intros H Ho Hl Hlt. unfold m_copydata, bind, kassert.
  rewrite !(proj2 (Z.leb_le 0 _)) by lia.
  destruct (Z.le_gt_cases off (sum_len ch)); [| now rewrite (m_seek_short s) by (done || lia)].
  destruct (m_seek_spec s ch off H) as (pre & ch' & off' & Q1 & Q2 & Q3 & Q4 & Q5 & Q6); [lia |].
  rewrite Q1. assert (sum_len ch' < off' + len) as Hs by lia. clear Q1 Q5 Q6.
  subst ch. apply Forall_app in H as [_ H]. clear Hlt H0.
  revert off' len Hl Q3 Q4 Hs. induction H as [| m r Hm Hr IH]; intros off' len Hl Q3 Q4 Hs;
    sl; rewrite (proj2 (Z.ltb_lt 0 len)) by lia; [done |].
  pose proof (ok_len _ _ Hm). unfold bind. pose proof (sum_len_nonneg s r Hr).
  rewrite m_read_wp by (done || lia). rewrite IH; [done | lia | lia | destruct r; auto | lia].
Qed.

(** A callback that does not mind how the bytes are cut up sees the range as
    one buffer. *)
Lemma m_apply_spec {A} (f : A -> list Z -> Z * A) s ch off len arg :
  (forall a, f a [] = (0, a)) ->
  (forall a x y, f a (x ++ y) =
     let (r, a') := f a x in if r =? 0 then f a' y else (r, a')) ->
  Forall (mb_ok s) ch -> 0 <= off -> 0 <= len -> off + len <= sum_len ch ->
  m_apply f ch off len arg s =
    Some (f arg (take (Z.to_nat len) (drop (Z.to_nat off) (chain_bytes s ch))), s).
Proof.
  intros Hf0 Hf H Ho Hl Hle.
  destruct (m_seek_spec s ch off H) as (pre & ch' & off' & Q1 & Q2 & Q3 & Q4 & Q5 & Q6); [lia |].
  unfold m_apply, bind, kassert. rewrite !(proj2 (Z.leb_le 0 _)) by done. rewrite Q1, Q6.
  assert (len <= sum_len ch' - off') as Hs by lia. clear Q1 Q5 Q6.
  subst ch. apply Forall_app in H as [_ H]. clear Hle.
  revert off' len arg Hl Q3 Q4 Hs.
  induction H as [| m r Hm Hr IH]; intros off' len arg Hl Q3 Q4 Hs;
    sl; destruct (Z.ltb_spec 0 len); try lia;
    try (replace len with 0 by lia; unfold ret; now rewrite Hf0).
  pose proof (ok_len _ _ Hm). pose proof (sum_len_nonneg s r Hr). unfold bind.
  rewrite m_read_wp by (done || lia). rewrite take_drop_mb, Hf by (done || lia).
  destruct (f arg _) as [rv a'] eqn:Hfa. destruct (rv =? 0); [| done].
  rewrite IH; [now rewrite drop_0 | lia | lia | destruct r; auto | lia].
Qed.

Lemma m_getptr_from_spec s i m r loc :
  Forall (mb_ok s) (m :: r) -> 0 <= loc <= sum_len (m :: r) ->
  exists k m' o, m_getptr_from i m r loc = Some ((i + k)%nat, o) /\
    (m :: r) !! k = Some m' /\ 0 <= o <= m_len m' /\ loc = sum_len (take k (m :: r)) + o.
Proof.
  revert i m loc. induction r as [| m1 r IH]; intros i m loc [Hm Hr]%Forall_cons_iff Hl;
    pose proof (ok_len _ _ Hm); sl; rewrite (proj2 (Z.ltb_ge loc 0)) by lia.
  - exists O, m. destruct (Z.ltb_spec loc (m_len m)).
    + exists loc. rewrite Nat.add_0_r. split_and!; auto; sl; lia.
    + rewrite (proj2 (Z.eqb_eq (loc - m_len m) 0)) by lia.
      exists (m_len m). rewrite Nat.add_0_r. split_and!; auto; sl; lia.
  - destruct (Z.ltb_spec loc (m_len m)).
    + exists O, m, loc. rewrite Nat.add_0_r. split_and!; auto; sl; lia.
    + destruct (IH (S i) m1 (loc - m_len m)) as (k & m' & o & -> & Q2 & Q3 & Q4); [done | sl; lia |].
      exists (S k), m', o. split_and!; auto; [f_equal; f_equal; lia | lia | lia | rewrite ?sum_len_cons in *; sl; lia].
Qed.

Lemma m_getptr_from_none s i m r loc :
  Forall (mb_ok s) (m :: r) -> loc < 0 \/ sum_len (m :: r) < loc ->
  m_getptr_from i m r loc = None.
Proof.
  revert i m loc. induction r as [| m1 r IH]; intros i m loc [Hm Hr]%Forall_cons_iff Hl;
    pose proof (ok_len _ _ Hm); sl; destruct (Z.ltb_spec loc 0); try done.
  - rewrite (proj2 (Z.ltb_ge loc _)), (proj2 (Z.eqb_neq _ 0)) by lia. done.
  - pose proof (sum_len_nonneg s _ Hr) as Hs. sl.
    rewrite (proj2 (Z.ltb_ge loc _)) by lia. apply IH; [done | sl; lia].
Qed.
End readers.
