(* ===== verification/MbufOps.v ===== *)
(** * The mbuf operations meet their specification

    The proofs, operation by operation, that the functions of [Mbuf.v] that
    change chains do what [MbufSpec.v] states: they keep [owned], leave every
    other chain alone, keep the packet header's length right, and hold the
    bytes they should.  The lemmas named [*_wp] are the ones the theorems at
    the end of the development's mbuf part are made of. *)

From stdpp Require Import gmap.
From S2P Require Import Prelude Mbuf MbufSpec.

(** The length in the packet header is that of the chain. *)
Definition pktlen_ok (ch : list mbuf) : Prop :=
  match ch with
  | m :: _ => has M_PKTHDR m = true -> ph_len (m_pkthdr m) = sum_len ch
  | [] => True
  end.

Section chains.
Context {P : Type} {MS : MbufSys P}.
Implicit Types (s : mstate P) (m : mbuf) (ch l : list mbuf).

(** Chains that describe the same areas, mbuf by mbuf. *)
Definition alike s ch ch' : Prop :=
  Forall2 (fun m m' => m_sid m' = m_sid m /\ mb_ok s m') ch ch'.

Lemma alike_owned s ch ch' l : alike s ch ch' -> owned s (ch ++ l) -> owned s (ch' ++ l).
Proof.
  intros H. revert l. induction H as [| m m' r r' [Hs Hok] _ IH]; intros l Ho; [done |].
  simpl in *. apply owned_replace with (m := m); auto.
  assert (m :: r' ++ l ≡ₚ r' ++ m :: l) as -> by solve_Permutation.
  apply IH. revert Ho. apply owned_perm. solve_Permutation.
Qed.

Lemma alike_refl s ch : Forall (mb_ok s) ch -> alike s ch ch.
Proof. induction 1; constructor; auto. Qed.

Lemma mb_ok_pktlen s f m : mb_ok s m -> mb_ok s (set_pktlen f m).
Proof.
  unfold set_pktlen. intros H. destruct (has M_PKTHDR m) eqn:E; [| done].
  destruct H as [H1 H2 H3 H4 H5]. now split.
Qed.

Lemma alike_pktlen s f ch ch' : alike s ch ch' -> alike s ch (upd_first (set_pktlen f) ch').
Proof.
  destruct 1 as [| m m' r r' [Hs Hok] H]; simpl; constructor; auto.
  split; [| now apply mb_ok_pktlen]. rewrite <- Hs. unfold set_pktlen. now destruct (has M_PKTHDR m').
Qed.

Lemma bytes_pktlen s f ch : chain_bytes s (upd_first (set_pktlen f) ch) = chain_bytes s ch.
Proof.
  destruct ch as [| m r]; [done |]. simpl. rewrite !chain_bytes_cons. f_equal.
  unfold set_pktlen. now destruct (has M_PKTHDR m).
Qed.

Lemma sum_len_pktlen f ch : sum_len (upd_first (set_pktlen f) ch) = sum_len ch.
Proof.
  destruct ch as [| m r]; [done |]. simpl. rewrite !sum_len_cons. f_equal.
  unfold set_pktlen. now destruct (has M_PKTHDR m).
Qed.

Lemma pktlen_ok_set f ch :
  match ch with m :: _ => has M_PKTHDR m = true -> f (ph_len (m_pkthdr m)) = sum_len ch
              | [] => True end ->
  pktlen_ok (upd_first (set_pktlen f) ch).
Proof.
  destruct ch as [| m r]; [done |]. unfold pktlen_ok. simpl. intros H Hp.
  pose proof (sum_len_pktlen f (m :: r)) as Hs. simpl in Hs. rewrite Hs. clear Hs.
  unfold set_pktlen in *. destruct (has M_PKTHDR m) eqn:E; [| congruence]. simpl. now apply H.
Qed.

Lemma split_last_app ch m : split_last (ch ++ [m]) = Some (ch, m).
Proof.
  induction ch as [| a [| b r] IH]; [done | done |].
  change (split_last ((a :: b :: r) ++ [m]))
    with (match split_last ((b :: r) ++ [m]) with
          | Some (p, x) => Some (a :: p, x) | None => None end).
  now rewrite IH.
Qed.

Lemma split_last_spec ch pre m : split_last ch = Some (pre, m) -> ch = pre ++ [m].
Proof.
  destruct ch as [| a ch] using rev_ind; [done |]. rewrite split_last_app. now intros [= <- <-].
Qed.

Lemma split_last_none ch : split_last ch = None -> ch = [].
Proof.
  destruct ch as [| a ch] using rev_ind; [done |]. now rewrite split_last_app.
Qed.

(** *** Trimming *)

Lemma m_adj_head_spec s ch len :
  Forall (mb_ok s) ch -> 0 <= len ->
  let r := m_adj_head ch len in
  alike s ch r.1 /\ chain_bytes s r.1 = drop (Z.to_nat len) (chain_bytes s ch) /\
  r.2 = Z.max 0 (len - sum_len ch) /\ sum_len r.1 = Z.max 0 (sum_len ch - len) /\
  match ch, r.1 with
  | m :: _, m' :: _ => m_flags m' = m_flags m /\ m_pkthdr m' = m_pkthdr m
  | _, _ => True
  end.
Proof.
  intros H. revert len. induction H as [| m r Hm Hr IH]; intros len Hlen; cbn zeta; simpl.
  - rewrite chain_bytes_nil, drop_nil, sum_len_nil. split_and!; [constructor | done | lia | lia | done].
  - pose proof (sum_len_nonneg s r Hr). pose proof (ok_len _ _ Hm).
    rewrite sum_len_cons. destruct (Z.ltb_spec 0 len) as [Hp | Hz]; simpl.
    2: { replace len with 0 by lia. rewrite drop_0, sum_len_cons.
         split_and!; try done; try lia. apply alike_refl. now constructor. }
    destruct (Z.leb_spec (m_len m) len).
    + specialize (IH (len - m_len m)). destruct (m_adj_head r (len - m_len m)) as [r' left].
      destruct IH as (I1 & I2 & I3 & I4 & _); [lia |]. simpl in *.
      rewrite drop_mb, <- I2 by done. rewrite chain_bytes_cons, mb_bytes_0, sum_len_cons by done.
      split_and!; simpl; try done; try lia. constructor; [| done].
      split; [done |]. destruct Hm as [Q1 Q2 Q3 Q4 Q5].
      split; simpl; auto; lia.
    + simpl. rewrite sum_len_cons, !chain_bytes_cons. simpl. split_and!; try done; try lia.
      * constructor; [| now apply alike_refl]. split; [done |].
        pose proof (ok_start _ _ Hm). pose proof (ok_end _ _ Hm).
        apply (mb_ok_narrow s m); auto; [| simpl; lia | simpl; lia].
        change (0 <= m_start m <= len + m_data m). lia.
      * pose proof (length_mb_bytes _ _ Hm). rewrite drop_app_le by lia. f_equal.
        destruct Hm as [[st Hst] Q2 Q3 Q4 _]. unfold mb_bytes, st_size in *. simpl.
        rewrite Hst in *. unfold buf_read. rewrite skipn_firstn_comm, drop_drop.
        f_equal; [lia | f_equal; lia].
Qed.

(** Keep the first [n] bytes of [m]. *)
Lemma mb_ok_short s m n :
  mb_ok s m -> 0 <= n <= m_len m -> mb_ok s (m <| m_len := n |>).
Proof.
  intros H Hn. pose proof (ok_end _ _ H). pose proof (ok_start _ _ H).
  apply (mb_ok_narrow s m); simpl; auto; lia.
Qed.

Lemma mb_bytes_short s m n :
  0 <= n <= m_len m -> mb_bytes s (m <| m_len := n |>) = take (Z.to_nat n) (mb_bytes s m).
Proof.
  intros Hn. unfold mb_bytes. simpl. destruct (ms_mem s !! m_sid m); [| now rewrite take_nil].
  unfold buf_read. rewrite take_take. f_equal. lia.
Qed.
End chains.

Section trims.
Context {P : Type} {MS : MbufSys P} {ML : MbufLaws P}.
Implicit Types (s : mstate P) (m : mbuf) (ch l : list mbuf).

Lemma owned_forall_ok s ch l : owned s (ch ++ l) -> Forall (mb_ok s) ch.
Proof. intros [H _]. now apply Forall_app in H as [H _]. Qed.

Lemma m_adj_truncate_wp s ch l count :
  owned s (ch ++ l) -> ch <> [] -> 0 <= count <= sum_len ch ->
  wp (m_adj_truncate ch count) (fun ch' s' =>
    owned s' (ch' ++ l) /\ same s s' l /\
    chain_bytes s' ch' = take (Z.to_nat count) (chain_bytes s ch) /\
    sum_len ch' = count /\
    match ch, ch' with
    | m :: _, m' :: _ => m_flags m' = m_flags m /\ m_pkthdr m' = m_pkthdr m
    | _, _ => False
    end) s.
Proof.
  revert s l count. induction ch as [| m r IH]; intros s l count Ho Hne Hc; [done |].
  clear Hne. simpl in Ho. pose proof (owned_ok _ _ _ Ho) as Hm.
  pose proof (ok_len _ _ Hm). pose proof (length_mb_bytes _ _ Hm) as Hlen.
  pose proof (owned_forall_ok _ (m :: r) _ Ho) as Hall. simpl.
  destruct (Z.leb_spec count (m_len m)) as [Hle | Hgt].
  - set (m' := m <| m_len := count |>).
    assert (owned s (r ++ m' :: l)) as Ho'.
    { assert (r ++ m' :: l ≡ₚ m' :: r ++ l) as -> by solve_Permutation.
      eapply owned_replace; [exact Ho | done | now apply mb_ok_short]. }
    apply wp_bind. apply wp_mono with
      (Q := fun _ s' => owned s' (m' :: l) /\ same s s' (m' :: l)).
    { destruct r as [| m1 r]; [apply wp_ret; split; [exact Ho' | apply same_refl] |].
      eapply wp_mono; [apply law_freem; exact Ho' | tauto]. }
    intros ? s' [H1 [[H2 H2'] H3]%same_cons]. apply wp_ret.
    split_and!; auto; [| rewrite sum_len_cons, sum_len_nil; simpl; lia].
    change (chain_bytes s' [m'] = take (Z.to_nat count) (chain_bytes s (m :: r))).
    rewrite !chain_bytes_cons, chain_bytes_nil, app_nil_r, H2, take_app_le by lia.
    now apply mb_bytes_short.
  - apply wp_bind. rewrite sum_len_cons in Hc.
    assert (r <> []) as Hr.
    { intros ->. rewrite sum_len_nil in Hc. lia. }
    eapply wp_mono.
    { apply (IH s (m :: l) (count - m_len m)); [| done | lia].
      revert Ho. apply owned_perm. solve_Permutation. }
    intros r' s' (H1 & [[H2 H2'] H3]%same_cons & H4 & H5 & _). apply wp_ret. split_and!; auto.
    + revert H1. simpl. apply owned_perm. solve_Permutation.
    + rewrite !chain_bytes_cons, H2, H4, take_app_ge by lia. do 2 f_equal. lia.
    + rewrite sum_len_cons. lia.
Qed.

(** [m_adj] drops bytes at one end of the chain and keeps the header's length
    right. *)
Lemma m_adj_wp s ch l req_len :
  owned s (ch ++ l) ->
  wp (m_adj ch req_len) (fun ch' s' =>
    owned s' (ch' ++ l) /\ same s s' l /\
    chain_bytes s' ch' =
      (if 0 <=? req_len then drop (Z.to_nat req_len) (chain_bytes s ch)
       else take (Z.to_nat (sum_len ch + req_len)) (chain_bytes s ch)) /\
    (pktlen_ok ch -> pktlen_ok ch')) s.
Proof.
  intros Ho. pose proof (owned_forall_ok _ _ _ Ho) as Hall. unfold m_adj.
  destruct (split_last ch) as [[pre m] |] eqn:Hsl.
  2: { apply split_last_none in Hsl as ->. apply wp_ret. rewrite chain_bytes_nil, drop_nil, take_nil.
       split_and!; [done | apply same_refl | now destruct (0 <=? req_len) | done]. }
  apply split_last_spec in Hsl. pose proof (sum_len_nonneg s ch Hall).
  pose proof (length_chain_bytes s ch Hall) as Hlen.
  destruct (Z.leb_spec 0 req_len) as [Hp | Hn].
  - destruct (m_adj_head_spec s ch req_len Hall Hp) as (H1 & H2 & H3 & H4 & H5).
    destruct (m_adj_head ch req_len) as [ch' left]. simpl in *. apply wp_ret.
    split_and!; [| apply same_refl | now rewrite bytes_pktlen |].
    + eapply alike_owned; [apply alike_pktlen; exact H1 | done].
    + intros Hpk. apply pktlen_ok_set. destruct ch' as [| m' r']; [done |].
      destruct ch as [| m0 r]; [now destruct pre |]. destruct H5 as [H5 H6]. intros Hh.
      rewrite H6, Hpk by (unfold has in *; congruence). rewrite H4, H3. lia.
  - destruct (Z.leb_spec (- req_len) (m_len m)) as [Hle | Hgt].
    + subst ch. rewrite sum_len_app, sum_len_cons, sum_len_nil in *.
      apply Forall_app in Hall as [Hpre [Hm _]%Forall_cons_iff].
      pose proof (sum_len_nonneg s pre Hpre) as Hsp.
      pose proof (length_chain_bytes s pre Hpre) as Hlp.
      assert (alike s (pre ++ [m]) (pre ++ [m <| m_len := m_len m - - req_len |>])) as Hal.
      { apply Forall2_app; [now apply alike_refl |]. constructor; [| constructor].
        split; [done |]. apply mb_ok_short; [done | lia]. }
      apply wp_ret. split_and!; [| apply same_refl | |].
      * eapply alike_owned; [apply alike_pktlen; exact Hal | done].
      * rewrite bytes_pktlen, !chain_bytes_app, !chain_bytes_cons, chain_bytes_nil, !app_nil_r.
        rewrite mb_bytes_short, take_app_ge by lia. do 2 f_equal. lia.
      * intros Hpk. apply pktlen_ok_set. destruct pre as [| m0 r]; simpl in *.
        -- intros Hh. rewrite Hpk by done. rewrite !sum_len_cons, !sum_len_nil. simpl. lia.
        -- intros Hh. rewrite Hpk by done. rewrite !sum_len_cons, !sum_len_app, !sum_len_cons.
           simpl. lia.
    + set (count := if sum_len ch - - req_len <? 0 then 0 else sum_len ch - - req_len).
      assert (count = Z.max 0 (sum_len ch + req_len)) as Hcount.
      { unfold count. destruct (Z.ltb_spec (sum_len ch - - req_len) 0); lia. }
      eapply wp_mono; [apply (m_adj_truncate_wp s _ l count) |].
      * eapply alike_owned; [apply alike_pktlen, alike_refl; exact Hall | done].
      * subst ch. now destruct pre.
      * rewrite sum_len_pktlen. lia.
      * intros ch' s' (H1 & H2 & H3 & H4 & H5). split_and!; auto.
        -- rewrite H3, bytes_pktlen. f_equal. lia.
        -- intros _. destruct ch' as [| m' r']; [done |]. intros Hh.
           rewrite H4. destruct ch as [| m0 r]; [now destruct pre |]. simpl in H5.
           destruct H5 as [H5 H6]. rewrite H6. unfold set_pktlen in *.
           destruct (has M_PKTHDR m0) eqn:E; [done | unfold has in *; congruence].
Qed.
End trims.

(** *** Joining *)

Section joins.
Context {P : Type} {MS : MbufSys P} {ML : MbufLaws P}.
Implicit Types (s : mstate P) (m : mbuf) (ch l : list mbuf).

(** Room the code may write to after the data of [m]. *)
Lemma trailing_room s m :
  mb_ok s m -> 0 <= M_TRAILINGSPACE s m /\
  m_data m + m_len m + M_TRAILINGSPACE s m <= st_size s (m_sid m) /\
  (0 < M_TRAILINGSPACE s m -> M_WRITABLE s m = true).
Proof.
  intros H. pose proof (ok_end _ _ H). rewrite (law_trailing s m H).
  destruct (M_WRITABLE s m); split_and!; auto; lia.
Qed.

(** Move the bytes of [n1] behind those of [m], then free [n1]. *)
Lemma splat_wp s m m' n1 l (b : list Z) :
  owned s (m :: n1 :: l) -> M_WRITABLE s m = true -> m_len n1 <= M_TRAILINGSPACE s m ->
  b = mb_bytes s n1 -> m' = m <| m_len ::= Z.add (m_len n1) |> ->
  wp (do* m_write m (m_len m) b; m_free n1) (fun _ s' =>
    owned s' (m' :: l) /\ same s s' l /\
    mb_bytes s' m' = mb_bytes s m ++ mb_bytes s n1) s.
Proof.
  intros Ho Hw Ht -> ->. pose proof (owned_ok _ _ _ Ho) as Hm.
  assert (mb_ok s n1) as Hn1 by (apply owned_cons in Ho as [_ Ho]; now apply owned_ok in Ho).
  pose proof (length_mb_bytes _ _ Hn1). destruct (trailing_room s m Hm) as (T1 & T2 & _).
  apply wp_bind. set (m' := m <| m_len ::= Z.add (m_len n1) |>). eapply wp_mono.
  { apply (m_write_append s m m' (n1 :: l)); auto; [now apply law_writable | lia |].
    simpl. lia. }
  intros ? s1 (H1 & [_ H2]%same_cons & H3 & _). eapply wp_mono.
  { apply (law_free n1 s1 (m' :: l)). revert H1. apply owned_perm. solve_Permutation. }
  intros ? s2 (H4 & [[H5 _] H6]%same_cons & _). split_and!; auto.
  - eapply same_trans; eassumption.
  - now rewrite H5.
Qed.

Lemma m_cat_last_wp s m n l :
  owned s (m :: n ++ l) ->
  wp (m_cat_last m n) (fun r s' =>
    owned s' (r ++ l) /\ same s s' l /\
    chain_bytes s' r = mb_bytes s m ++ chain_bytes s n /\
    match r with
    | m' :: _ => m_flags m' = m_flags m /\ m_pkthdr m' = m_pkthdr m
    | [] => False
    end) s.
Proof.
  revert s m. induction n as [| n1 n IH]; intros s m Ho; simpl.
  - apply wp_ret. split_and!; auto. apply same_refl.
  - apply wp_bind, wp_gets. unfold id.
    destruct (negb (M_WRITABLE s m) || (M_TRAILINGSPACE s m <? m_len n1)) eqn:E.
    { apply wp_ret. split_and!; auto. apply same_refl. }
    apply orb_false_elim in E as [Hw Ht]. apply negb_false_iff in Hw. apply Z.ltb_ge in Ht.
    simpl in Ho. assert (mb_ok s n1) as Hn1.
    { apply owned_cons in Ho as [_ Ho]; now apply owned_ok in Ho. }
    apply wp_bind. unfold wp at 1. rewrite m_read_all by done.
    set (m' := m <| m_len ::= Z.add (m_len n1) |>).
    pose proof (splat_wp s m m' n1 (n ++ l) _ Ho Hw Ht eq_refl eq_refl) as Hsp.
    apply wp_bind. unfold wp at 1 in Hsp. unfold bind in Hsp. unfold wp at 1.
    destruct (m_write m (m_len m) (mb_bytes s n1) s) as [[[] s1] |]; [| done].
    apply wp_bind. eapply wp_mono; [exact Hsp |].
    intros ? s2 (H1 & [H2 H3]%same_app & H4). eapply wp_mono; [now apply IH |].
    intros r s3 (H5 & H6 & H7 & H8). split_and!; auto.
    + eapply same_trans; eassumption.
    + rewrite H7, chain_bytes_cons, (same_chain _ _ _ H2), app_assoc. f_equal. exact H4.
Qed.

Lemma m_cat_wp s (m n l : list mbuf) :
  m <> [] -> owned s (m ++ n ++ l) ->
  wp (m_cat m n) (fun r s' =>
    owned s' (r ++ l) /\ same s s' l /\
    chain_bytes s' r = chain_bytes s m ++ chain_bytes s n /\
    match m, r with
    | m1 :: _, m1' :: _ => m_flags m1' = m_flags m1 /\ m_pkthdr m1' = m_pkthdr m1
    | _, _ => False
    end) s.
Proof.
  revert l. induction m as [| m1 m IH]; intros l Hne Ho; [done |]. clear Hne.
  destruct m as [| m2 m].
  - eapply wp_mono; [now apply (m_cat_last_wp s m1 n l) |].
    intros r s' (H1 & H2 & H3 & H4). split_and!; auto.
    now rewrite chain_bytes_cons, chain_bytes_nil, app_nil_r.
  - change (m_cat (m1 :: m2 :: m) n) with (let* r := m_cat (m2 :: m) n in ret (m1 :: r)).
    apply wp_bind. eapply wp_mono.
    { apply (IH (m1 :: l)); [done |]. revert Ho. apply owned_perm. solve_Permutation. }
    intros r s' (H1 & [[H2 _] H3]%same_cons & H4 & _). apply wp_ret. split_and!; auto.
    + revert H1. apply owned_perm. simpl. solve_Permutation.
    + rewrite !(chain_bytes_cons _ m1), H2, H4. now rewrite app_assoc.
Qed.

(** *** Packet headers *)

(** Flags may change, as long as no header appears. *)
Lemma mb_ok_flags s m m' :
  mb_ok s m -> m_sid m' = m_sid m -> m_data m' = m_data m -> m_len m' = m_len m ->
  has M_EXT m' = has M_EXT m -> (has M_PKTHDR m' = true -> has M_PKTHDR m = true) ->
  mb_ok s m'.
Proof.
  intros H Hs Hd Hl He Hp. pose proof (ok_start _ _ H) as Hst. pose proof (ok_end _ _ H).
  pose proof (ok_len _ _ H). apply (mb_ok_narrow s m); auto; [| lia | lia].
  rewrite Hd. unfold m_start in *. rewrite He.
  destruct (negb (has M_EXT m)); simpl in *; [| lia].
  destruct (has M_PKTHDR m'); [rewrite Hp in Hst by done; lia | lia].
Qed.

Lemma m_demote_all_wp s ch :
  Forall (mb_ok s) ch ->
  Forall (fun m => has M_PKTHDR m = true -> ph_snd_tag (m_pkthdr m) = None) ch ->
  wp (m_demote ch true fl_none) (fun ch' s' =>
    s' = s /\ alike s ch ch' /\ chain_bytes s ch' = chain_bytes s ch /\
    sum_len ch' = sum_len ch /\
    Forall (fun m => has M_PKTHDR m = false) ch') s.
Proof.
  unfold m_demote. induction ch as [| m r IH];
    intros [Hm Hr]%Forall_cons_iff [Hs Hr']%Forall_cons_iff || intros _ _; simpl.
  { apply wp_ret. split_and!; try done; constructor. }
  apply wp_bind. apply wp_mono with (Q := fun m' s' => s' = s /\
    m_sid m' = m_sid m /\ mb_ok s m' /\ mb_bytes s m' = mb_bytes s m /\
    m_len m' = m_len m /\ has M_PKTHDR m' = false).
  { destruct (has M_PKTHDR m) eqn:E; [| apply wp_ret; split_and!; auto].
    unfold m_demote_pkthdr. apply wp_bind, wp_kassert; [done |].
    apply wp_bind, wp_kassert; [now rewrite Hs |]. apply wp_ret.
    split_and!; auto. now apply (mb_ok_flags s m). }
  intros m' ? (-> & M1 & M2 & M3 & M4 & M5).
  set (m2 := m' <| m_flags ::= fun f => fl_and f (fl_or fl_none M_DEMOTEFLAGS) |>).
  assert (has M_PKTHDR m2 = false) as Hp2.
  { unfold m2, has in *. simpl. unfold fl_and. now rewrite M5. }
  assert (mb_ok s m2) as Hok2.
  { apply (mb_ok_flags s m'); auto; [| congruence]. unfold m2, has. simpl. unfold fl_and, fl_or.
    now rewrite law_demoteflags, orb_true_r, andb_true_r. }
  apply wp_bind. eapply wp_mono; [now apply IH |].
  intros r' ? (-> & H2 & H3 & H4 & H5). apply wp_ret. split_and!; auto.
  - constructor; [now split | done].
  - rewrite !chain_bytes_cons, H3. f_equal. rewrite <- M3. now apply mb_bytes_ext.
  - rewrite !sum_len_cons. unfold m2. simpl. lia.
Qed.

Lemma m_catpkt_wp s (m n l : list mbuf) :
  owned s (m ++ n ++ l) ->
  match m, n with m1 :: _, n1 :: _ => has M_PKTHDR m1 && has M_PKTHDR n1 | _, _ => false end = true ->
  Forall (fun x => has M_PKTHDR x = true -> ph_snd_tag (m_pkthdr x) = None) n ->
  wp (m_catpkt m n) (fun r s' =>
    owned s' (r ++ l) /\ same s s' l /\
    chain_bytes s' r = chain_bytes s m ++ chain_bytes s n /\
    (pktlen_ok m -> pktlen_ok n -> pktlen_ok r)) s.
Proof.
  intros Ho Hh Hs. destruct m as [| m1 m]; [done |]. destruct n as [| n1 n]; [done |].
  apply andb_prop in Hh as [Hh1 Hh2]. unfold m_catpkt.
  apply wp_bind, wp_kassert; [done |]. apply wp_bind, wp_kassert; [done |]. apply wp_bind.
  pose proof (owned_forall_ok s (n1 :: n) l (owned_app_r _ _ _ Ho)) as Hn.
  pose proof (owned_forall_ok s (m1 :: m) _ Ho) as Hm.
  eapply wp_mono; [now apply m_demote_all_wp |]. intros n' ? (-> & H1 & H2 & H3 & H4).
  set (m1' := m1 <| m_pkthdr ::= fun h =>
    h <| ph_len ::= Z.add (ph_len (m_pkthdr n1)) |> |>).
  assert (owned s ((m1' :: m) ++ n' ++ l)) as Ho'.
  { apply (alike_owned s (m1 :: m) (m1' :: m)).
    - constructor; [| apply alike_refl; now apply Forall_cons_iff in Hm as [_ Hm]].
      apply Forall_cons_iff in Hm as [[Q1 Q2 Q3 Q4 Q5] _]. split; [done | now split].
    - assert ((m1 :: m) ++ n' ++ l ≡ₚ n' ++ (m1 :: m) ++ l) as -> by solve_Permutation.
      apply (alike_owned s (n1 :: n)); [done |].
      revert Ho. apply owned_perm. solve_Permutation. }
  eapply wp_mono; [now apply (m_cat_wp s (m1' :: m) n' l) |].
  intros r s' (Q1 & Q2 & Q3 & Q4). rewrite H2 in Q3. split_and!; auto.
  intros Hp1 Hp2. destruct r as [| r1 r]; [done |]. intros Hr. destruct Q4 as [Q4 Q5].
  rewrite Q5. unfold m1'. simpl. rewrite Hp1, Hp2 by done.
  rewrite <- (length_chain_bytes s' (r1 :: r)), Q3 by now apply owned_forall_ok in Q1.
  pose proof (owned_forall_ok _ _ _ Ho').
  rewrite length_app, Nat2Z.inj_add, !length_chain_bytes by done.
  change (sum_len (m1' :: m)) with (sum_len (m1 :: m)). lia.
Qed.
End joins.

(** *** Making data contiguous *)

Section pulls.
Context {P : Type} {MS : MbufSys P} {ML : MbufLaws P}.
Implicit Types (s : mstate P) (m : mbuf) (ch l : list mbuf).

(** Drop [k] bytes from the front of [m]. *)
Lemma mb_ok_advance s m k :
  mb_ok s m -> 0 <= k <= m_len m ->
  mb_ok s (m <| m_len := m_len m - k |> <| m_data ::= Z.add k |>).
Proof.
  intros H Hk. pose proof (ok_start _ _ H). pose proof (ok_end _ _ H).
  apply (mb_ok_narrow s m); auto; [| simpl; lia | simpl; lia].
  change (0 <= m_start m <= k + m_data m). lia.
Qed.

Lemma mb_bytes_advance s m k :
  mb_ok s m -> 0 <= k <= m_len m ->
  mb_bytes s (m <| m_len := m_len m - k |> <| m_data ::= Z.add k |>) =
  drop (Z.to_nat k) (mb_bytes s m).
Proof.
  intros [[st Hst] H2 H3 H4 _] Hk. unfold mb_bytes, st_size in *. simpl. rewrite Hst in *.
  unfold buf_read. rewrite skipn_firstn_comm, drop_drop. f_equal; [lia | f_equal; lia].
Qed.

(** The descriptor of the chain's head while bytes are pulled into it. *)
Definition head_of m m' : Prop :=
  m_sid m' = m_sid m /\ m_data m' = m_data m /\ m_flags m' = m_flags m /\
  m_pkthdr m' = m_pkthdr m.

Lemma m_pull_one_wp s m n1 n l count :
  owned s (m :: n1 :: n ++ l) -> has M_EXT m = false -> 0 <= count <= m_len n1 ->
  m_data m + m_len m + count <= st_size s (m_sid m) ->
  wp (m_pull_one m n1 n count) (fun r s' =>
    owned s' (r.1 :: r.2 ++ l) /\ same s s' l /\
    chain_bytes s' (r.1 :: r.2) = chain_bytes s (m :: n1 :: n) /\
    st_size s' (m_sid m) = st_size s (m_sid m) /\
    head_of m r.1 /\ m_len r.1 = m_len m + count /\
    if m_len n1 =? count then r.2 = n else r.2 <> []) s.
Proof.
  intros Ho He Hc Hsp. pose proof (owned_ok _ _ _ Ho) as Hm.
  assert (mb_ok s n1) as Hn1 by (apply owned_cons in Ho as [_ Ho]; now apply owned_ok in Ho).
  pose proof (length_mb_bytes _ _ Hn1) as Hl1. unfold m_pull_one.
  apply wp_bind. unfold wp at 1. rewrite m_read_wp by (done || lia). rewrite drop_0.
  set (b := take (Z.to_nat count) (mb_bytes s n1)).
  assert (Z.of_nat (length b) = count) as Hb by (unfold b; rewrite length_take; lia).
  apply wp_bind. set (m' := m <| m_len ::= Z.add count |>). eapply wp_mono.
  { apply (m_write_append s m m' (n1 :: n ++ l)); auto; [apply Hm in He as [_ He]; lia | lia |].
    unfold m'. simpl. lia. }
  intros ? s1 (H1 & [[H2 H2'] [H3 H4]%same_app]%same_cons & H5 & H6).
  pose proof (sd_size _ _ _ H6 (m_sid m)) as Hsz. clear H6.
  assert (mb_ok s1 n1) as Hn1' by (apply owned_cons in H1 as [_ H1]; now apply owned_ok in H1).
  cbn zeta. cbn [m_len upd].
  destruct (Z.eqb_spec (m_len n1) count) as [Hz | Hnz].
  - rewrite (proj2 (Z.eqb_eq (m_len n1 - count) 0)) by lia.
    assert (b = mb_bytes s n1) as Hball by (unfold b; apply take_ge; lia).
    apply wp_bind. eapply wp_mono.
    { apply (law_free _ s1 (m' :: n ++ l)).
      apply (owned_replace s1 n1); [| done | apply mb_ok_short; [done | lia]].
      now apply owned_swap. }
    intros ? s2 (F1 & [[F2 F2'] [F3 F4]%same_app]%same_cons & _). apply wp_ret. cbn [fst snd].
    split_and!; auto; [eapply same_trans; eassumption | | | now repeat split | unfold m'; simpl; lia].
    + rewrite !chain_bytes_cons, F2, H5, Hball, (same_chain _ _ _ F3), (same_chain _ _ _ H3).
      now rewrite app_assoc.
    + change (m_sid m) with (m_sid m'). now rewrite F2'.
  - rewrite (proj2 (Z.eqb_neq (m_len n1 - count) 0)) by lia. apply wp_ret. cbn [fst snd].
    set (n1' := n1 <| m_len := m_len n1 - count |> <| m_data ::= Z.add count |>).
    split_and!; auto; [| | now repeat split | unfold m'; simpl; lia].
    + change (owned s1 (m' :: n1' :: n ++ l)). apply owned_swap.
      apply (owned_replace s1 n1); [now apply owned_swap | done | now apply mb_ok_advance].
    + change (chain_bytes s1 (m' :: n1' :: n) = chain_bytes s (m :: n1 :: n)).
      assert (mb_bytes s1 n1' = drop (Z.to_nat count) (mb_bytes s1 n1)) as Hadv
        by now apply mb_bytes_advance.
      rewrite !chain_bytes_cons, H5, Hadv, H2, (same_chain _ _ _ H3), <- app_assoc.
      f_equal. unfold b.
      now rewrite app_assoc, take_drop.
Qed.

Lemma m_pull_loop_wp fuel s m n l len space :
  owned s (m :: n ++ l) -> n <> [] -> has M_EXT m = false -> (length n <= fuel)%nat ->
  0 <= len <= space -> m_data m + m_len m + space <= st_size s (m_sid m) ->
  wp (m_pull_loop fuel m n len space) (fun r s' =>
    owned s' (r.1.1 :: r.1.2 ++ l) /\ same s s' l /\
    chain_bytes s' (r.1.1 :: r.1.2) = chain_bytes s (m :: n) /\
    head_of m r.1.1 /\ m_len r.1.1 + r.2 = m_len m + len /\
    (0 < r.2 <-> sum_len n < len)) s.
Proof.
  revert s m n len space. induction fuel as [| fuel IH]; intros s m n len space
    Ho Hne He Hf Hl Hsp; [destruct n; simpl in *; [done | lia] |].
  destruct n as [| n1 n]; [done |]. clear Hne. simpl in Ho.
  pose proof (owned_cons _ _ _ Ho) as [_ Ho']. pose proof (owned_cons _ _ _ Ho') as [Hn1 Ho''].
  pose proof (sum_len_nonneg s n (owned_forall_ok _ _ _ Ho'')) as Hsn. clear Ho' Ho''.
  pose proof (ok_len _ _ Hn1) as Hl1. pose proof law_headroom as [Hmp _]. cbn [m_pull_loop].
  set (count := Z.min (Z.min (Z.max len max_protohdr) space) (m_len n1)).
  assert (0 <= count <= m_len n1 /\ count <= space /\ (m_len n1 <> count -> len <= count))
    as (Hc & Hcs & Hcl) by (unfold count; lia).
  apply wp_bind. eapply wp_mono; [apply (m_pull_one_wp s m n1 n l count); auto; lia |].
  intros [m' n'] s1 (H1 & H2 & H3 & H4 & H5 & H6 & H7). cbn [fst snd] in *.
  rewrite sum_len_cons. destruct n' as [| n2 n'].
  { destruct (Z.eqb_spec (m_len n1) count) as [Hz | Hnz]; [subst n | done].
    rewrite sum_len_nil in *. apply wp_ret. cbn [fst snd]. split_and!; auto; lia. }
  destruct (Z.ltb_spec 0 (len - count)) as [Hlt | Hge].
  - destruct (Z.eqb_spec (m_len n1) count) as [Hz | Hnz]; [subst n | lia].
    destruct H5 as (S1 & S2 & S3 & S4). eapply wp_mono.
    { apply (IH s1 m' (n2 :: n')); auto; [unfold has in *; congruence | simpl in *; lia | lia |].
      rewrite S1, S2, H4. lia. }
    intros [[ma na] la] s2 (I1 & I2 & I3 & (I4 & I5 & I6 & I7) & I8 & I9).
    cbn [fst snd] in *.
    split_and!; auto; [eapply same_trans; eassumption | congruence | | lia | lia].
    unfold head_of. split_and!; congruence.
  - apply wp_ret. cbn [fst snd]. split_and!; auto; lia.
Qed.
End pulls.

Section pullup.
Context {P : Type} {MS : MbufSys P} {ML : MbufLaws P}.
Implicit Types (s : mstate P) (m : mbuf) (ch l : list mbuf).

(** What an allocation of a mbuf without cluster gives. *)
Definition is_fresh s m (hdr : bool) : Prop :=
  ref_of s (m_sid m) = 1 /\ st_size s (m_sid m) = MLEN /\ m_data m = m_start m /\
  m_len m = 0 /\ has M_EXT m = false /\ has M_PKTHDR m = hdr.

Lemma m_get_wp s ty l :
  owned s l ->
  wp (m_get ty) (fun r s' => same s s' l /\ no_new_users s s' l /\
    match r with
    | None => owned s' l /\ may_fail
    | Some m => owned s' (m :: l) /\ is_fresh s' m false /\ m_type m = ty
    end) s.
Proof.
  intros Ho. eapply wp_mono; [apply (law_get m_get false false ty s l); auto |].
  intros [m |] s' (H1 & H2 & H3); split_and!; auto; try tauto.
  destruct H3 as (H3 & H4 & H5 & H6 & H7 & H8 & H9 & H10 & _). now split_and!.
Qed.

Lemma m_gethdr_wp s ty l :
  owned s l ->
  wp (m_gethdr ty) (fun r s' => same s s' l /\ no_new_users s s' l /\
    match r with
    | None => owned s' l /\ may_fail
    | Some m => owned s' (m :: l) /\ is_fresh s' m true /\ m_type m = ty /\
                m_pkthdr m = pkthdr_zero
    end) s.
Proof.
  intros Ho. eapply wp_mono; [apply (law_get m_gethdr false true ty s l); auto |].
  intros [m |] s' (H1 & H2 & H3); split_and!; auto; try tauto.
  destruct H3 as (H3 & H4 & H5 & H6 & H7 & H8 & H9 & H10 & _). now split_and!.
Qed.

Lemma fl_copy_ext f g : fl_or (fl_and f M_COPYFLAGS) (fl_only_ext g) M_EXT = g M_EXT.
Proof. unfold fl_or, fl_and. rewrite (proj2 law_copyflags). now rewrite andb_false_r. Qed.

Lemma fl_copy_pkthdr f g : fl_or (fl_and f M_COPYFLAGS) (fl_only_ext g) M_PKTHDR = f M_PKTHDR.
Proof. unfold fl_or, fl_and. rewrite (proj1 law_copyflags). now rewrite andb_true_r, orb_false_r. Qed.

(** The header moves to a fresh mbuf; the data stay where they were. *)
Lemma m_move_pkthdr_spec s n1 m l :
  owned s (m :: n1 :: l) -> is_fresh s m (has M_PKTHDR m) -> has M_PKTHDR n1 = true ->
  let r := m_move_pkthdr m n1 in
  owned s (r.1 :: r.2 :: l) /\ mb_bytes s r.2 = mb_bytes s n1 /\ m_len r.2 = m_len n1 /\
  has M_EXT r.2 = has M_EXT n1 /\ has M_PKTHDR r.2 = false /\
  has M_EXT r.1 = false /\ has M_PKTHDR r.1 = true /\ m_sid r.1 = m_sid m /\
  m_len r.1 = 0 /\ m_data r.1 = PKTDAT /\ m_start r.1 = PKTDAT /\ m_pkthdr r.1 = m_pkthdr n1.
Proof.
  intros Ho (F1 & F2 & F3 & F4 & F5 & F6) Hh. cbn zeta.
  pose proof (owned_cons _ _ _ Ho) as [Hm Ho']. pose proof (owned_ok _ _ _ Ho') as Hn.
  set (to := Mbuf (m_sid m) PKTDAT (m_len m)
    (fl_or (fl_and (m_flags n1) M_COPYFLAGS) (fl_only_ext (m_flags m))) (m_type m) (m_pkthdr n1)).
  set (from := n1 <| m_pkthdr ::= fun h => h <| ph_tags := [] |> |>
    <| m_flags ::= fl_clear_pkthdr |> <| m_pkthdr ::= fun h => h <| ph_snd_tag := None |> |>).
  assert (m_move_pkthdr m n1 = (to, from)) as ->.
  { unfold m_move_pkthdr. cbn zeta. unfold has in *. cbn [m_flags upd].
    rewrite fl_copy_ext, F5. reflexivity. }
  cbn [fst snd].
  assert (has M_EXT to = false) as T1 by (unfold to, has; simpl; now rewrite fl_copy_ext).
  assert (has M_PKTHDR to = true) as T2 by (unfold to, has; simpl; now rewrite fl_copy_pkthdr).
  assert (m_start to = PKTDAT) as T3 by (unfold m_start; now rewrite T1, T2).
  assert (m_len to = 0) as T4 by exact F4.
  pose proof law_sizes as [Hs1 Hs2].
  split_and!; auto.
  apply (owned_replace s m); [| done |].
  - apply owned_swap. apply (owned_replace s n1); [now apply owned_swap | done |].
    apply (mb_ok_flags s n1); auto.
  - apply (mb_ok_narrow s m); [exact Hm | done | now rewrite T1, F5 | | lia |].
    + rewrite T3. unfold to, PKTDAT. simpl. lia.
    + rewrite T4, F2. unfold to, PKTDAT. simpl. lia.
Qed.

(** What [m_pullup] and [m_copyup] promise: nothing left of the chain, or the
    same bytes with the first [len] of them contiguous. *)
Definition pulled s s' n l (len : Z) (fail : Prop) r : Prop :=
  owned s' (r ++ l) /\ same s s' l /\
  match r with
  | [] => fail \/ sum_len n < len
  | m :: _ => chain_bytes s' r = chain_bytes s n /\ len <= m_len m /\ len <= sum_len n /\
              (pktlen_ok n -> pktlen_ok r)
  end.

(** From the copy loop to the end of the function, for a loop that fills [m]
    from [n] in a state [s1] reached from [s]. *)
Lemma m_pull_tail_wp s s1 m n n0 l fuel len0 len space fail :
  owned s1 (m :: n ++ l) -> n <> [] -> has M_EXT m = false -> (length n <= fuel)%nat ->
  0 <= len <= space -> m_data m + m_len m + space <= st_size s1 (m_sid m) ->
  same s s1 l -> chain_bytes s1 (m :: n) = chain_bytes s n0 ->
  sum_len (m :: n) = sum_len n0 -> len0 = m_len m + len ->
  (pktlen_ok n0 -> pktlen_ok (m :: n)) ->
  wp (let* res := m_pull_loop fuel m n len space in m_pull_finish res)
     (fun r s' => pulled s s' n0 l len0 fail r) s1.
Proof.
  intros Ho Hne He Hf Hl Hsp Hsl Hb Hsum -> Hpk. apply wp_bind.
  eapply wp_mono; [now apply (m_pull_loop_wp fuel s1 m n l len space) |].
  intros [[m' n'] len'] s2 (H1 & H2 & H3 & (S1 & S2 & S3 & S4) & H5 & H6). cbn [fst snd] in *.
  assert (same s s2 l) as Hsl2 by (eapply same_trans; eassumption).
  rewrite sum_len_cons in Hsum. unfold m_pull_finish.
  destruct (Z.ltb_spec 0 len') as [Hlt | Hge].
  - apply wp_bind. eapply wp_mono; [apply (law_free m' s2 (n' ++ l)); done |].
    intros ? s3 (F1 & [_ F2]%same_app & _). apply wp_bind.
    eapply wp_mono; [apply (law_freem n' s3 l); done |].
    intros ? s4 (F3 & F4 & _). apply wp_ret. unfold pulled. split_and!; auto.
    + eapply same_trans; [| exact F4]. eapply same_trans; eassumption.
    + right. apply H6 in Hlt. lia.
  - apply wp_ret. unfold pulled. split_and!; auto; [congruence | lia | lia |].
    intros Hp. specialize (Hpk Hp). unfold pktlen_ok, has in *. rewrite S3, S4. intros Hh.
    rewrite Hpk by done.
    rewrite <- (length_chain_bytes s2 (m' :: n')), H3, length_chain_bytes; auto.
    + now apply (owned_forall_ok s1 (m :: n) l).
    + now apply (owned_forall_ok s2 (m' :: n') l).
Qed.

Lemma length_sum_chain s s' n n' l l' :
  owned s (n ++ l) -> owned s' (n' ++ l') -> chain_bytes s n = chain_bytes s' n' ->
  sum_len n = sum_len n'.
Proof.
  intros H1 H2 Hb. rewrite <- (length_chain_bytes s n), Hb, length_chain_bytes; auto.
  - eapply owned_forall_ok; exact H2.
  - eapply owned_forall_ok; exact H1.
Qed.

(** The mbuf a pull goes into when the chain's head will not do: a fresh one,
    with the packet header if the chain has one. *)
Lemma m_pull_fresh s s1 n1 n m l :
  owned s1 (m :: n1 :: n ++ l) -> is_fresh s1 m false -> same s s1 (n1 :: n ++ l) ->
  let r := if has M_PKTHDR n1 then m_move_pkthdr m n1 else (m, n1) in
  owned s1 (r.1 :: r.2 :: n ++ l) /\ has M_EXT r.1 = false /\ m_len r.1 = 0 /\
  m_start r.1 <= m_data r.1 /\ m_data r.1 <= PKTDAT /\ st_size s1 (m_sid r.1) = MLEN /\
  chain_bytes s1 (r.1 :: r.2 :: n) = chain_bytes s (n1 :: n) /\
  sum_len (r.1 :: r.2 :: n) = sum_len (n1 :: n) /\
  (pktlen_ok (n1 :: n) -> pktlen_ok (r.1 :: r.2 :: n)).
Proof.
  intros Ho Hf [[Hs1 _] [Hs2 _]%same_app]%same_cons. cbn zeta. destruct Hf as (F1 & F2 & F3 & F4 & F5 & F6).
  pose proof law_sizes as [? _]. destruct (has M_PKTHDR n1) eqn:E.
  - destruct (m_move_pkthdr_spec s1 n1 m (n ++ l)) as
      (H1 & H2 & H3 & H4 & H5 & H6 & H7 & H8 & H9 & H10 & H11 & H12); auto.
    { unfold is_fresh. rewrite F6. now split_and!. }
    destruct (m_move_pkthdr m n1) as [to from]. cbn [fst snd] in *.
    rewrite !chain_bytes_cons, (mb_bytes_0 s1 to), H2, Hs1, (same_chain _ _ _ Hs2) by done.
    rewrite H8, H10, H11, !sum_len_cons. split_and!; auto; try lia.
    unfold pktlen_ok. rewrite H12, !sum_len_cons. intros Hp _. rewrite (Hp E). lia.
  - cbn [fst snd]. rewrite !chain_bytes_cons, (mb_bytes_0 s1 m), Hs1, (same_chain _ _ _ Hs2) by done.
    assert (m_start m = 0) as Hst by (unfold m_start; now rewrite F6, andb_false_r).
    rewrite F3, Hst, !sum_len_cons. split_and!; auto; try lia; [unfold PKTDAT; lia |].
    intros _. unfold pktlen_ok. congruence.
Qed.

Lemma m_pullup_wp s n l len :
  owned s (n ++ l) -> n <> [] -> 0 <= len ->
  wp (m_pullup n len) (fun r s' =>
    pulled s s' n l len (MHLEN < len \/ may_fail) r) s.
Proof.
  intros Ho Hne Hlen. destruct n as [| n1 n]; [done |]. clear Hne. unfold m_pullup.
  pose proof (owned_ok _ _ _ Ho) as Hn1. pose proof law_sizes as [Hsz _].
  destruct (negb (has M_EXT n1) && _ && _) eqn:E.
  - apply andb_prop in E as [E En]. apply andb_prop in E as [E1 E2].
    apply negb_true_iff in E1. apply Z.ltb_lt in E2.
    destruct (Z.leb_spec len (m_len n1)) as [Hle | Hgt].
    { apply wp_ret. pose proof (sum_len_nonneg s n (owned_forall_ok _ _ _ (proj2 (owned_cons _ _ _ Ho)))).
      unfold pulled. rewrite sum_len_cons. split_and!; auto; [apply same_refl | lia]. }
    pose proof (ok_inline _ _ Hn1 E1) as [Hin _].
    apply (m_pull_tail_wp s s n1 n (n1 :: n) l); auto; [now destruct n | lia | lia | apply same_refl | lia].
  - clear E. destruct (Z.ltb_spec MHLEN len) as [Hgt | Hle].
    { apply wp_bind. eapply wp_mono; [apply (law_freem (n1 :: n) s l); done |].
      intros ? s' (H1 & H2 & _). apply wp_ret. split_and!; auto. }
    apply wp_bind.
    eapply wp_mono; [apply (m_get_wp s (m_type n1) ((n1 :: n) ++ l)); exact Ho |]. intros [m |] s1.
    + intros (G1 & _ & G2 & G3 & _). simpl in G1, G2.
      destruct (m_pull_fresh s s1 n1 n m l G2 G3 G1) as (Q1 & Q2 & Q3 & Q4 & Q5 & Q6 & Q7 & Q8 & Q9).
      destruct (if has M_PKTHDR n1 then _ else _) as [m' n1']. cbn [fst snd] in *.
      rewrite Q3. unfold PKTDAT in Q5.
      apply (m_pull_tail_wp s s1 m' (n1' :: n) (n1 :: n) l); auto; try lia.
      apply same_cons in G1 as [_ [_ G1]%same_app]. done.
    + intros (G1 & _ & G2 & Hmf). apply wp_bind.
      eapply wp_mono; [apply (law_freem (n1 :: n) s1 l); done |].
      intros ? s' (H1 & H2 & _). apply wp_ret. split_and!; auto.
      eapply same_trans; [| exact H2]. now apply same_app in G1 as [_ G1].
Qed.

Lemma m_copyup_wp s n l len dstoff :
  owned s (n ++ l) -> n <> [] -> 0 <= len -> 0 <= dstoff ->
  wp (m_copyup n len dstoff) (fun r s' =>
    pulled s s' n l len
      (MHLEN - dstoff < len \/ may_fail) r) s.
Proof.
  intros Ho Hne Hlen Hoff. destruct n as [| n1 n]; [done |]. clear Hne. unfold m_copyup.
  pose proof law_sizes as [Hsz _].
  destruct (Z.ltb_spec (MHLEN - dstoff) len) as [Hgt | Hle].
  { apply wp_bind. eapply wp_mono; [apply (law_freem (n1 :: n) s l); done |].
    intros ? s' (H1 & H2 & _). apply wp_ret. split_and!; auto. }
  apply wp_bind.
  eapply wp_mono; [apply (m_get_wp s (m_type n1) ((n1 :: n) ++ l)); exact Ho |]. intros [m |] s1.
  - intros (G1 & _ & G2 & G3 & _). simpl in G1, G2.
    destruct (m_pull_fresh s s1 n1 n m l G2 G3 G1) as (Q1 & Q2 & Q3 & Q4 & Q5 & Q6 & Q7 & Q8 & Q9).
    destruct (if has M_PKTHDR n1 then _ else _) as [m1 n1']. cbn [fst snd] in *.
    set (m' := m1 <| m_data ::= Z.add dstoff |>). unfold PKTDAT in Q5.
    assert (mb_ok s1 m') as Hok.
    { pose proof (owned_ok _ _ _ Q1) as Hm1. pose proof (ok_start _ _ Hm1).
      apply (mb_ok_narrow s1 m1); auto; [| unfold m'; simpl; lia | unfold m'; simpl; lia].
      change (0 <= m_start m1 <= dstoff + m_data m1). lia. }
    apply (m_pull_tail_wp s s1 m' (n1' :: n) (n1 :: n) l); auto; try (unfold m'; simpl; lia).
    + now apply (owned_replace s1 m1).
    + apply same_cons in G1 as [_ [_ G1]%same_app]. done.
    + rewrite <- Q7, !chain_bytes_cons. f_equal. now rewrite !mb_bytes_0.
  - intros (G1 & _ & G2 & Hmf). apply wp_bind.
    eapply wp_mono; [apply (law_freem (n1 :: n) s1 l); done |].
    intros ? s' (H1 & H2 & _). apply wp_ret. split_and!; auto.
    eapply same_trans; [| exact H2]. now apply same_app in G1 as [_ G1].
Qed.

(** C24. [m_pullup] returns the same bytes with the first [len] of them in one
    mbuf and the packet length kept; it frees the chain and returns null only
    when the chain is shorter than [len], [len] exceeds what an mbuf with a
    packet header holds, or an allocation failed. *)
Theorem m_pullup_contiguous s n l len :
  owned s (n ++ l) -> n <> [] -> 0 <= len ->
  wp (m_pullup n len) (fun r s' =>
    owned s' (r ++ l) /\ same s s' l /\
    match r with
    | [] => MHLEN < len \/ may_fail \/ sum_len n < len
    | m :: _ => chain_bytes s' r = chain_bytes s n /\
                take (Z.to_nat len) (mb_bytes s' m) = take (Z.to_nat len) (chain_bytes s n) /\
                (pktlen_ok n -> pktlen_ok r)
    end) s.
Proof.
  intros Ho Hne Hl. eapply wp_mono; [apply (m_pullup_wp s n l len Ho Hne Hl) |].
  intros r s' (H1 & H2 & H3). split_and!; auto. destruct r as [| m r]; [tauto |].
  destruct H3 as (H3 & H4 & _ & H5). split_and!; auto. rewrite <- H3, chain_bytes_cons.
  pose proof (length_mb_bytes s' m (owned_ok _ _ _ H1)). now rewrite take_app_le by lia.
Qed.
End pullup.

(** *** Prepending and appending *)

Section append.
Context {P : Type} {MS : MbufSys P} {ML : MbufLaws P}.
Implicit Types (s : mstate P) (m : mbuf) (ch l : list mbuf).

(** An empty mbuf with an area of its own gets its data. *)
Lemma fill_wp s m n l src :
  owned s (m :: l) -> ref_of s (m_sid m) <= 1 -> m_len m = 0 ->
  m_sid n = m_sid m -> m_data n = m_data m -> m_start n = m_start m ->
  has M_EXT n = has M_EXT m -> m_len n = Z.of_nat (length src) ->
  m_data m + Z.of_nat (length src) <= st_size s (m_sid m) ->
  wp (m_write n 0 src) (fun _ s' =>
    owned s' (n :: l) /\ same s s' l /\ mb_bytes s' n = src /\ stored s s' (m_sid m)) s.
Proof.
  intros Ho Hr H0 Hs Hd Hst He Hl Hsp.
  assert (m_write (P := P) n 0 src = m_write m (m_len m) src) as ->.
  { unfold m_write. now rewrite Hs, Hd, H0. }
  eapply wp_mono; [apply (m_write_append s m n l src); auto; lia |].
  intros ? s' (H1 & H2 & H3 & H4). rewrite (mb_bytes_0 s m H0) in H3. now split_and!.
Qed.

Lemma fresh_room s m hdr :
  is_fresh s m hdr -> m_data m + (if hdr then MHLEN else MLEN) = MLEN.
Proof.
  intros (_ & _ & -> & _ & F5 & F6). unfold m_start, PKTDAT. rewrite F5, F6.
  destruct hdr; simpl; lia.
Qed.

Lemma m_prepend_wp s ch l len :
  owned s (ch ++ l) -> ch <> [] -> 0 <= len <= MHLEN ->
  wp (m_prepend ch len) (fun r s' =>
    owned s' (r ++ l) /\ same s s' l /\
    match ch, r with
    | m0 :: _, m :: _ :: _ =>
        m_len m = len /\ chain_bytes s' r = mb_bytes s' m ++ chain_bytes s ch /\
        has M_PKTHDR m = has M_PKTHDR m0 /\
        (has M_PKTHDR m0 = true -> m_pkthdr m = m_pkthdr m0)
    | _, _ => r = [] /\ may_fail
    end) s.
Proof.
  intros Ho Hne Hlen. destruct ch as [| m0 ch]; [done |]. clear Hne. unfold m_prepend.
  pose proof law_sizes as [Hsz _]. apply wp_bind.
  apply wp_mono with (Q := fun r s1 => same s s1 (m0 :: ch ++ l) /\
    match r with
    | None => owned s1 (m0 :: ch ++ l) /\ may_fail
    | Some m => owned s1 (m :: m0 :: ch ++ l) /\ is_fresh s1 m (has M_PKTHDR m0)
    end).
  { destruct (has M_PKTHDR m0); (eapply wp_mono; [apply m_get_wp || apply m_gethdr_wp; exact Ho |]);
      intros [m |] s1; simpl; tauto. }
  intros [m |] s1 [H1 H2].
  - destruct H2 as [H2 H3]. apply same_cons in H1 as [[H1 _] [H4 H5]%same_app].
    assert (exists m1 m1', (if has M_PKTHDR m0 then m_move_pkthdr m m0 else (m, m0)) = (m1, m1') /\
      owned s1 (m1 :: m1' :: ch ++ l) /\ mb_bytes s1 m1' = mb_bytes s1 m0 /\ m_len m1 = 0 /\
      st_size s1 (m_sid m1) = MLEN /\ m_data m1 = m_start m1 /\ m_start m1 <= PKTDAT /\
      has M_EXT m1 = false /\
      has M_PKTHDR m1 = has M_PKTHDR m0 /\
      (has M_PKTHDR m0 = true -> m_pkthdr m1 = m_pkthdr m0)) as
      (m1 & m1' & -> & Q1 & Q2 & Q3 & Q4 & Q5 & Q6 & Q7 & Q8 & Q9).
    { destruct H3 as (F1 & F2 & F3 & F4 & F5 & F6). destruct (has M_PKTHDR m0) eqn:E.
      - destruct (m_move_pkthdr_spec s1 m0 m (ch ++ l)) as
          (R1 & R2 & R3 & R4 & R5 & R6 & R7 & R8 & R9 & R10 & R11 & R12); auto.
        { unfold is_fresh. rewrite F6. now split_and!. }
        destruct (m_move_pkthdr m m0) as [a b]. exists a, b. cbn [fst snd] in *.
        rewrite R8, R10, R11. split_and!; auto. lia.
      - exists m, m0. assert (m_start m = 0) as Hst by (unfold m_start; now rewrite F6, andb_false_r).
        rewrite Hst. unfold PKTDAT. split_and!; auto; try congruence; lia. }
    pose proof (owned_ok _ _ _ Q1) as Hm1. unfold PKTDAT in Q6.
    apply wp_bind, wp_gets. rewrite (law_size s1 m1 Hm1), Q4. apply wp_ret.
    assert (mb_ok s1 ((if len <? MLEN - m_start m1 then m1 <| m_data := M_ALIGN m1 len |> else m1)
                        <| m_len := len |>)) as Hok.
    { destruct (law_align s1 m1 len Hm1) as [A1 A2]; [rewrite Q4; lia |]. rewrite Q4 in A2.
      pose proof (ok_start _ _ Hm1).
      destruct (len <? MLEN - m_start m1); (apply (mb_ok_narrow s1 m1);
        [exact Hm1 | done | done | | simpl; lia | simpl; lia]).
      - change (0 <= m_start m1 <= M_ALIGN m1 len). lia.
      - change (0 <= m_start m1 <= m_data m1). lia. }
    split_and!; auto.
    + simpl. apply (owned_replace s1 m1); auto. now destruct (len <? MLEN - m_start m1).
    + rewrite (chain_bytes_cons s1), chain_bytes_cons, chain_bytes_cons.
      now rewrite Q2, H1, (same_chain _ _ _ H4).
    + rewrite <- Q8. now destruct (len <? MLEN - m_start m1).
    + intros Hh. rewrite <- (Q9 Hh). now destruct (len <? MLEN - m_start m1).
  - destruct H2 as [H2 Hmf]. apply wp_bind. eapply wp_mono; [apply (law_freem (m0 :: ch) s1 l); exact H2 |].
    intros ? s' (F1 & F2 & _). apply wp_ret. split_and!; auto.
    eapply same_trans; [| exact F2]. now apply same_cons in H1 as [_ [_ H1]%same_app].
Qed.

Lemma m_append_loop_wp fuel s ty cp l :
  owned s l -> (length cp <= fuel)%nat ->
  wp (m_append_loop fuel ty cp) (fun r s' =>
    owned s' (r.1 ++ l) /\ same s s' l /\ cp = chain_bytes s' r.1 ++ r.2 /\
    (r.2 = [] \/ may_fail)) s.
Proof.
  revert s ty cp l. induction fuel as [| fuel IH]; intros s ty cp l Ho Hf;
    (destruct cp as [| c cp]; [apply wp_ret; split_and!; auto; apply same_refl |]);
    [simpl in Hf; lia |].
  pose proof law_sizes as [Hsz _]. cbn [m_append_loop]. apply wp_bind.
  eapply wp_mono; [apply (m_get_wp s ty l); exact Ho |]. intros [m |] s1.
  - intros (H1 & _ & H2 & H3 & _). pose proof (fresh_room _ _ _ H3) as Hroom. simpl in Hroom.
    destruct H3 as (F1 & F2 & F3 & F4 & F5 & F6). cbn zeta.
    set (n := m <| m_len := Z.min MLEN (Z.of_nat (length (c :: cp))) |>).
    set (k := Z.to_nat (m_len n)).
    assert (k = Nat.min (Z.to_nat MLEN) (length (c :: cp))) as Hk by (unfold k, n; simpl; lia).
    apply wp_bind. eapply wp_mono.
    { apply (fill_wp s1 m n l (take k (c :: cp))); auto; rewrite ?length_take; [lia | | lia].
      unfold k, n. cbn [m_len upd]. lia. }
    intros ? s2 (W1 & W2 & W3 & _). apply wp_bind. eapply wp_mono.
    { apply (IH s2 (m_type n) (drop k (c :: cp)) (n :: l)); auto.
      rewrite length_drop. simpl in *. lia. }
    intros [ns left] s3 (I1 & [[I2 _] I3]%same_cons & I4 & I5). cbn [fst snd] in *. apply wp_ret.
    split_and!; [| | | exact I5].
    + now apply owned_mid in I1.
    + eapply same_trans; [exact H1 |]. eapply same_trans; eassumption.
    + cbn [fst snd]. rewrite chain_bytes_cons, I2, W3, <- app_assoc, <- I4. now rewrite take_drop.
  - intros (H1 & _ & H2 & Hmf). apply wp_ret. split_and!; auto.
Qed.

(** What fits into the trailing space of the last mbuf. *)
Lemma m_append_space_wp s m l (cp : list Z) :
  owned s (m :: l) ->
  let sp := M_TRAILINGSPACE s m in
  let k := if 0 <? sp then Z.min sp (Z.of_nat (length cp)) else 0 in
  let m' := m <| m_len ::= Z.add k |> in
  wp (if 0 <? sp then m_write m (m_len m) (take (Z.to_nat k) cp) else ret tt) (fun _ s1 =>
    owned s1 (m' :: l) /\ same s s1 l /\ mb_bytes s1 m' = mb_bytes s m ++ take (Z.to_nat k) cp) s.
Proof.
  intros Ho. cbn zeta. pose proof (owned_ok _ _ _ Ho) as Hm.
  destruct (trailing_room s m Hm) as (T1 & T2 & T3). set (sp := M_TRAILINGSPACE s m) in *.
  destruct (Z.ltb_spec 0 sp) as [Hlt | Hge].
  - set (k := Z.min sp (Z.of_nat (length cp))). set (m' := m <| m_len ::= Z.add k |>).
    eapply wp_mono; [apply (m_write_append s m m' l); auto |].
    + apply law_writable; auto.
    + rewrite length_take. lia.
    + unfold m'. rewrite length_take. cbn [m_len upd]. lia.
    + intros ? s1 (W1 & W2 & W3 & _). now split_and!.
  - apply wp_ret. split_and!; [| apply same_refl | simpl; rewrite take_0, app_nil_r; now apply mb_bytes_ext].
    apply (owned_replace s m); auto. apply (mb_ok_flags s m); auto.
Qed.

(** The header of a chain whose last mbufs changed. *)
Lemma pktlen_ok_add (pre : list mbuf) m m' ns k :
  m_flags m' = m_flags m -> m_pkthdr m' = m_pkthdr m -> pktlen_ok (pre ++ [m]) ->
  sum_len (pre ++ m' :: ns) = k + sum_len (pre ++ [m]) ->
  pktlen_ok (upd_first (set_pktlen (Z.add k)) (pre ++ m' :: ns)).
Proof.
  intros Hf Hh Hp Hs. apply pktlen_ok_set. rewrite Hs. destruct pre as [| x pre]; simpl in *.
  - intros Hm. rewrite Hh, Hp; [done |]. unfold has in *. congruence.
  - intros Hm. now rewrite Hp.
Qed.

Lemma m_append_wp s ch cp l :
  owned s (ch ++ l) -> ch <> [] ->
  wp (m_append ch cp) (fun r s' =>
    owned s' (r.2 ++ l) /\ same s s' l /\
    (exists added left, cp = added ++ left /\
       chain_bytes s' r.2 = chain_bytes s ch ++ added /\ (r.1 = true <-> left = []) /\
       (left = [] \/ may_fail)) /\
    (pktlen_ok ch -> pktlen_ok r.2)) s.
Proof.
  intros Ho Hne. unfold m_append. destruct (split_last ch) as [[pre m] |] eqn:Hsl;
    [apply split_last_spec in Hsl as -> | now apply split_last_none in Hsl].
  clear Hne. pose proof (length_chain_bytes _ _ (owned_forall_ok _ _ _ Ho)) as Hl1.
  apply wp_bind, wp_gets. rewrite <- app_assoc in Ho. simpl in Ho. apply owned_mid in Ho.
  pose proof (m_append_space_wp s m (pre ++ l) cp Ho) as Hw. cbn zeta in Hw |- *.
  set (k := if 0 <? M_TRAILINGSPACE s m then _ else 0) in *. set (m' := m <| m_len ::= Z.add k |>) in *.
  apply wp_bind. eapply wp_mono; [exact Hw |]. clear Hw.
  intros ? s1 (H1 & [H2 H3]%same_app & H4). apply wp_bind. eapply wp_mono.
  { apply (m_append_loop_wp (length cp) s1 (m_type m') (drop (Z.to_nat k) cp) (m' :: pre ++ l)); auto.
    rewrite length_drop. lia. }
  intros [ns left] s2 (I1 & [[I2 _] [I3 I4]%same_app]%same_cons & I5 & I6). cbn [fst snd] in *.
  apply wp_ret. cbn [fst snd]. set (added := take (Z.to_nat k) cp ++ chain_bytes s2 ns).
  assert (owned s2 ((pre ++ m' :: ns) ++ l)) as Ho2 by (revert I1; apply owned_perm; solve_Permutation).
  assert (chain_bytes s2 (pre ++ m' :: ns) = chain_bytes s (pre ++ [m]) ++ added) as Hb.
  { unfold added. rewrite !chain_bytes_app, !chain_bytes_cons, chain_bytes_nil, app_nil_r.
    rewrite (same_chain _ _ _ I3), (same_chain _ _ _ H2), I2, H4. now rewrite <- !app_assoc. }
  assert (cp = added ++ left) as Hcp by (unfold added; now rewrite <- app_assoc, <- I5, take_drop).
  split_and!.
  - eapply alike_owned; [apply alike_pktlen, alike_refl | exact Ho2]. now apply owned_forall_ok in Ho2.
  - eapply same_trans; eassumption.
  - exists added, left. rewrite bytes_pktlen. split_and!; auto. destruct left; split; done.
  - intros Hp. apply (pktlen_ok_add pre m m'); auto.
    rewrite <- (length_chain_bytes _ _ (owned_forall_ok _ _ _ Ho2)), Hb, length_app.
    rewrite (f_equal length Hcp), length_app. lia.
Qed.
End append.
