(* ===== verification/MbufCopy.v ===== *)
(** * Splitting and copying mbuf chains

    [m_split], [m_copym], [m_copypacket], [m_dup] and [m_devget] of
    [uipc_mbuf.c]: the operations that make a second chain, by sharing
    clusters or by copying bytes. *)

From stdpp Require Import gmap.
From S2P Require Import Prelude Mbuf MbufSpec MbufOps.

Section share.
Context {P : Type} {MS : MbufSys P} {ML : MbufLaws P}.
Implicit Types (s : mstate P) (m n : mbuf) (ch l : list mbuf).

(** The data area inside an mbuf is not that of another one. *)
Lemma inline_other s m l :
  owned s (m :: l) -> Forall (fun x => has M_EXT x = false -> m_sid x <> m_sid m) l.
Proof.
  intros Ho. apply Forall_forall. intros x Hx He Hs.
  apply list_elem_of_In in Hx. apply elem_of_Permutation in Hx as [l' Hl].
  assert (owned s (x :: m :: l')) as Ho' by (revert Ho; apply owned_perm; rewrite Hl; solve_Permutation).
  pose proof (owned_ok _ _ _ Ho') as Hok. destruct (ok_inline _ _ Hok He) as [_ Hr].
  pose proof (owned_unique _ _ _ Ho' ltac:(lia)) as [Hne _]%Forall_cons_iff. congruence.
Qed.

(** One more mbuf [x] describes the cluster of [m]. *)
Lemma share_owned s s' m x l :
  owned s (m :: l) -> has M_EXT m = true ->
  ms_mem s' = ms_mem s -> ms_ref s' = alter (fun c => c + 1) (m_sid m) (ms_ref s) ->
  m_sid x = m_sid m -> has M_EXT x = true -> 0 <= m_data x -> 0 <= m_len x ->
  m_data x + m_len x <= st_size s (m_sid m) ->
  owned s' (x :: m :: l).
Proof.
  intros Ho He Hmem Href Hs Hx Hd Hl Hend.
  assert (forall k, st_size s' k = st_size s k) as Hsz by (intros; unfold st_size; now rewrite Hmem).
  assert (forall k, ref_of s' k = ref_of s k + if decide (k = m_sid m) then 1 else 0) as Hr.
  { intros k. unfold ref_of. rewrite Href. destruct (decide (k = m_sid m)) as [-> |].
    - rewrite lookup_alter_eq. pose proof (owned_ref_pos _ _ _ Ho) as Hp. unfold ref_of in Hp.
      destruct (ms_ref s !! m_sid m); simpl in *; lia.
    - rewrite lookup_alter_ne by done. lia. }
  pose proof (inline_other _ _ _ Ho) as Hin. pose proof (owned_ok _ _ _ Ho) as Hm.
  assert (forall y, mb_ok s y -> (has M_EXT y = false -> m_sid y <> m_sid m) -> mb_ok s' y) as Hkeep.
  { intros y [Y1 Y2 Y3 Y4 Y5] Hy. split; rewrite ?Hsz, ?Hmem; auto.
    intros Hye. rewrite Hr, decide_False by auto. destruct (Y5 Hye). split; [done | lia]. }
  destruct Ho as [Hall Hc]. split.
  - constructor; [| constructor].
    + split; rewrite ?Hs, ?Hsz, ?Hmem; auto; [apply Hm | | congruence].
      unfold m_start. rewrite Hx. simpl. lia.
    + apply Hkeep; [done | congruence].
    + apply Forall_cons_iff in Hall as [_ Hall]. rewrite Forall_forall in *.
      intros y Hy. apply Hkeep; auto.
  - intros k. specialize (Hc k). rewrite Hr, uses_cons, Hs.
    destruct (decide (m_sid m = k)), (decide (k = m_sid m)); try congruence; lia.
Qed.

Lemma fl_dup_ext f g : g M_EXT = true -> fl_or f (fl_ext_rdonly g) M_EXT = true.
Proof. unfold fl_or, fl_ext_rdonly. intros ->. apply orb_true_r. Qed.

Lemma fl_dup_pkthdr f g : fl_or f (fl_ext_rdonly g) M_PKTHDR = f M_PKTHDR.
Proof. unfold fl_or, fl_ext_rdonly. apply orb_false_r. Qed.

(** [mb_dupcl] makes [n] another description of the cluster; [n'] is [n] with
    the length the caller gives it. *)
Lemma mb_dupcl_wp s n m l :
  owned s (m :: l) -> has M_EXT m = true -> has M_EXT n = false ->
  wp (mb_dupcl n m) (fun n' s' =>
    ms_mem s' = ms_mem s /\ m_sid n' = m_sid m /\ m_data n' = m_data n /\ m_len n' = m_len n /\
    has M_EXT n' = true /\ has M_PKTHDR n' = has M_PKTHDR n /\ m_pkthdr n' = m_pkthdr n /\
    forall x, m_sid x = m_sid m -> has M_EXT x = true -> 0 <= m_data x -> 0 <= m_len x ->
      m_data x + m_len x <= st_size s (m_sid m) -> owned s' (x :: m :: l)) s.
Proof.
  intros Ho He Hn. unfold mb_dupcl. apply wp_bind, wp_kassert; [done |].
  apply wp_bind, wp_kassert; [now rewrite Hn |]. apply wp_bind, wp_modify, wp_ret.
  split_and!; try done.
  - unfold has. simpl. now apply fl_dup_ext.
  - unfold has. simpl. now rewrite fl_dup_pkthdr.
  - intros x ?????. now apply (share_owned s).
Qed.

Lemma same_mem s s' l : ms_mem s' = ms_mem s -> same s s' l.
Proof.
  intros H. apply Forall_forall. intros m _. unfold mb_bytes, st_size. now rewrite H.
Qed.

(** The two ways [k] bytes of [m] at [off] become the data of a fresh mbuf:
    [n] is the fresh mbuf [n0] with a length of the caller's choice. *)
Lemma share_or_copy_wp s n0 n m l off k :
  owned s (n0 :: m :: l) -> m_len n0 = 0 -> has M_EXT n0 = false ->
  m_sid n = m_sid n0 -> has M_EXT n = false -> has M_PKTHDR n = has M_PKTHDR n0 ->
  0 <= off -> 0 <= k -> off + k <= m_len m ->
  (has M_EXT m = false -> m_start n0 <= m_data n /\ m_data n + k <= MLEN) ->
  wp (if has M_EXT m then mb_dupcl (n <| m_data := m_data m + off |>) m
      else let* b := m_read m off k in do* m_write n 0 b; ret n) (fun n1 s1 =>
    let n' := n1 <| m_len := k |> in
    owned s1 (n' :: m :: l) /\ same s s1 (m :: l) /\
    mb_bytes s1 n' = take (Z.to_nat k) (drop (Z.to_nat off) (mb_bytes s m)) /\
    has M_PKTHDR n1 = has M_PKTHDR n /\ m_pkthdr n1 = m_pkthdr n /\ m_len n1 = m_len n) s.
Proof.
  intros Ho H0 He0 Hs He Hp Hoff Hk Hle Hroom.
  pose proof (owned_cons _ _ _ Ho) as [Hok0 Ho1]. pose proof (owned_ok _ _ _ Ho1) as Hm.
  pose proof (length_mb_bytes s m Hm) as Hlen. pose proof (ok_start _ _ Hm) as Hst.
  pose proof (ok_end _ _ Hm) as Hen. cbn zeta. destruct (has M_EXT m) eqn:Hem.
  - eapply wp_mono; [apply (mb_dupcl_wp s _ m l); auto |].
    intros n1 s1 (D1 & D2 & D3 & D4 & D5 & D6 & D7 & D8). split_and!; auto.
    + apply D8; auto; cbn [m_len m_data upd]; rewrite ?D3; cbn [m_len m_data upd]; lia.
    + now apply same_mem.
    + rewrite (mb_bytes_mem s s1) by done.
      assert (mb_bytes s (n1 <| m_len := k |>) =
              mb_bytes s ((m <| m_len := m_len m - off |> <| m_data ::= Z.add off |>)
                            <| m_len := k |>)) as ->.
      { apply mb_bytes_ext; auto; cbn [m_data upd]. rewrite D3. cbn [m_data upd]. lia. }
      rewrite mb_bytes_short by (cbn [m_len upd]; lia). now rewrite mb_bytes_advance by (done || lia).
  - apply wp_bind. unfold wp at 1. rewrite m_read_wp by (done || lia). apply wp_bind.
    pose proof (ok_inline _ _ Hok0 He0) as [Hsz Hr]. specialize (Hroom eq_refl).
    set (n1 := n0 <| m_data := m_data n |>). pose proof (ok_start _ _ Hok0) as Hst0.
    assert (owned s (n1 :: m :: l)) as Ho2.
    { apply (owned_replace s n0); auto. unfold n1. apply (mb_ok_narrow s n0); auto; cbn [m_len m_data upd];
        [change (0 <= m_start n0 <= m_data n) | |]; lia. }
    change (m_write n 0) with (@m_write P (n <| m_len := k |>) 0). eapply wp_mono.
    { apply (fill_wp s n1 (n <| m_len := k |>) (m :: l)); auto; try exact Hs;
        unfold n1; cbn [m_len m_sid m_data upd];
        rewrite ?length_take, ?length_drop, ?Hsz; cbn [m_len upd]; try lia.
      - apply m_start_ext; [exact (eq_trans He (eq_sym He0)) | exact Hp].
      - exact (eq_trans He (eq_sym He0)). }
    intros ? s1 (W1 & W2 & W3 & _). apply wp_ret. split_and!; auto.
Qed.

(** *** Splitting *)

Lemma m_split_seek_spec s ch len :
  Forall (mb_ok s) ch -> 0 <= len ->
  match m_split_seek ch len with
  | None => sum_len ch < len \/ ch = []
  | Some (pre, m, post, len') =>
      ch = pre ++ m :: post /\ len = sum_len pre + len' /\ 0 <= len' <= m_len m
  end.
Proof.
  intros H. revert len. induction H as [| m r Hm Hr IH]; intros len Hl; simpl; [now right |].
  pose proof (ok_len _ _ Hm). destruct (Z.ltb_spec (m_len m) len) as [Hlt | Hge].
  - specialize (IH (len - m_len m) ltac:(lia)). rewrite sum_len_cons.
    destruct (m_split_seek r (len - m_len m)) as [[[[pre m'] post] len'] |].
    + destruct IH as (-> & I2 & I3). rewrite sum_len_cons. split_and!; [done | lia | lia | lia].
    + left. destruct IH as [IH | ->]; [lia | rewrite sum_len_nil; lia].
  - rewrite sum_len_nil. split_and!; [done | lia | lia | lia].
Qed.

(** Two chains that hold the bytes of [B] before and after [len0]. *)
Definition halves s (B : list Z) (len0 : Z) (a b : list mbuf) : Prop :=
  chain_bytes s a = take (Z.to_nat len0) B /\ chain_bytes s b = drop (Z.to_nat len0) B.

(** The bytes before the cut of a chain cut inside [m]. *)
Lemma cut_bytes s pre m post len :
  Forall (mb_ok s) pre -> mb_ok s m -> 0 <= len <= m_len m ->
  take (Z.to_nat (sum_len pre + len)) (chain_bytes s (pre ++ m :: post)) =
    chain_bytes s pre ++ take (Z.to_nat len) (mb_bytes s m) /\
  drop (Z.to_nat (sum_len pre + len)) (chain_bytes s (pre ++ m :: post)) =
    drop (Z.to_nat len) (mb_bytes s m) ++ chain_bytes s post.
Proof.
  intros Hpre Hm Hl. pose proof (length_chain_bytes s pre Hpre).
  pose proof (length_mb_bytes s m Hm). pose proof (sum_len_nonneg s pre Hpre).
  rewrite chain_bytes_app, chain_bytes_cons.
  rewrite take_app_ge, drop_app_ge by lia.
  replace (Z.to_nat (sum_len pre + len) - length (chain_bytes s pre))%nat with (Z.to_nat len) by lia.
  now rewrite take_app_le, drop_app_le by lia.
Qed.

Lemma m_split_extpacket_wp s pre m post n0 n l len remain :
  owned s (n0 :: pre ++ m :: post ++ l) -> has M_EXT n0 = false -> m_len n0 = 0 ->
  0 <= len <= m_len m -> remain = m_len m - len ->
  m_sid n = m_sid n0 -> has M_EXT n = false -> has M_PKTHDR n = has M_PKTHDR n0 ->
  (has M_EXT m = false -> m_start n0 <= m_data n /\ m_data n + remain <= MLEN) ->
  wp (m_split_extpacket pre m post n len remain) (fun r s' =>
    owned s' (r.1 ++ r.2 ++ l) /\ same s s' l /\
    halves s' (chain_bytes s (pre ++ m :: post)) (sum_len pre + len) r.1 r.2 /\
    r.1 = pre ++ [m <| m_len := len |>] /\
    match r.2 with
    | n' :: post' => post' = post /\ m_len n' = remain /\
                     has M_PKTHDR n' = has M_PKTHDR n /\ m_pkthdr n' = m_pkthdr n
    | [] => False
    end) s.
Proof.
  intros Ho Hn H0 Hl Hrem Hs He Hp Hroom.
  pose proof (owned_cons _ _ _ Ho) as [_ Ho1].
  assert (owned s (m :: pre ++ post ++ l)) as Ho2 by (now apply owned_mid in Ho1).
  pose proof (owned_ok _ _ _ Ho2) as Hm. pose proof (owned_forall_ok _ _ _ Ho1) as Hpre.
  destruct (cut_bytes s pre m post len Hpre Hm Hl) as [C1 C2].
  set (m' := m <| m_len := len |>).
  assert (owned s (n0 :: m :: pre ++ post ++ l)) as Ho3.
  { revert Ho. apply owned_perm. solve_Permutation. }
  assert (mb_bytes s m' = take (Z.to_nat len) (mb_bytes s m)) as Hm' by now apply mb_bytes_short.
  assert (mb_ok s m') as Hokm' by (apply mb_ok_short; [done | lia]).
  unfold m_split_extpacket. apply wp_bind. eapply wp_mono.
  { apply (share_or_copy_wp s n0 n m (pre ++ post ++ l) len remain); auto; lia. }
  intros n1 s1 (H1 & [[H2 _] [H3 [H4 H5]%same_app]%same_app]%same_cons & H6 & H7 & H8 & _).
  rewrite take_ge in H6 by (rewrite length_drop; pose proof (length_mb_bytes s m Hm); lia).
  apply wp_ret. cbn [fst snd]. set (n' := n1 <| m_len := remain |>) in *.
  assert (mb_bytes s1 m' = mb_bytes s m') as Hm1.
  { rewrite Hm'. rewrite <- H2. now apply mb_bytes_short. }
  split_and!; auto.
  - assert (owned s1 (m' :: n' :: pre ++ post ++ l)) as Hx.
    { apply (owned_replace s1 m); [now apply owned_swap | done |].
      apply mb_ok_short; [| done]. apply owned_cons in H1 as [_ H1]. now apply owned_ok in H1. }
    change (owned s1 ((pre ++ [m']) ++ (n' :: post) ++ l)).
    revert Hx. apply owned_perm. solve_Permutation.
  - split.
    + change (m <| m_len := len |>) with m'.
      rewrite C1, chain_bytes_app, chain_bytes_cons, chain_bytes_nil, app_nil_r.
      now rewrite Hm1, Hm', (same_chain _ _ _ H3).
    + change (n1 <| m_len := remain |>) with n'.
      now rewrite C2, chain_bytes_cons, H6, (same_chain _ _ _ H4).
Qed.

(** What [m_split] promises.  A null result leaves the bytes in the first
    chain, and means that nothing follows [len0] or that an allocation failed;
    otherwise the two chains are the bytes before and after [len0], and
    a packet gives two packets. *)
Definition split_post s s' ch l (len0 : Z) (r : list mbuf * list mbuf) : Prop :=
  owned s' (r.1 ++ r.2 ++ l) /\ same s s' l /\
  match r.2 with
  | [] => chain_bytes s' r.1 = chain_bytes s ch /\ (sum_len ch <= len0 \/ may_fail)
  | n :: _ =>
      halves s' (chain_bytes s ch) len0 r.1 r.2 /\
      match ch, r.1 with
      | m0 :: _, m0' :: _ =>
          has M_PKTHDR m0 = true -> has M_PKTHDR n = true /\ ph_len (m_pkthdr m0') = len0 /\
          ph_len (m_pkthdr n) = ph_len (m_pkthdr m0) - len0
      | _, _ => False
      end
  end.

Lemma split_post_null s m0 ch l len0 :
  owned s ((m0 :: ch) ++ l) -> sum_len (m0 :: ch) < len0 \/ m0 :: ch = [] ->
  split_post s s (m0 :: ch) l len0 (m0 :: ch, []).
Proof.
  intros Ho [Hl |]; [| done]. unfold split_post. split_and!; [done | apply same_refl |].
  split; [done | left]. lia.
Qed.

Lemma halves_end s pre m post :
  Forall (mb_ok s) pre -> mb_ok s m ->
  halves s (chain_bytes s (pre ++ m :: post)) (sum_len pre + m_len m) (pre ++ [m]) post.
Proof.
  intros Hpre Hm. pose proof (ok_len _ _ Hm).
  destruct (cut_bytes s pre m post (m_len m) Hpre Hm ltac:(lia)) as [C1 C2].
  pose proof (length_mb_bytes s m Hm). unfold halves. rewrite C1, C2.
  rewrite chain_bytes_app, chain_bytes_cons, chain_bytes_nil, app_nil_r.
  rewrite take_ge, drop_ge by lia. done.
Qed.

(** The first mbuf of a chain cut at [m]. *)
Definition first_of pre m : mbuf := match pre with [] => m | x :: _ => x end.

Lemma first_of_app pre m post : exists r, pre ++ m :: post = first_of pre m :: r.
Proof. destruct pre as [| x pre]; simpl; eauto. Qed.

(** The headers of the two halves, given that of the chain. *)
Definition split_hdrs (m0 h n : mbuf) (len0 : Z) : Prop :=
  has M_PKTHDR m0 = true -> has M_PKTHDR n = true /\ ph_len (m_pkthdr h) = len0 /\
  ph_len (m_pkthdr n) = ph_len (m_pkthdr m0) - len0.

Lemma split_ext_post s s1 m0 ch pre m post n0 n l len remain len0 :
  owned s1 (n0 :: (pre ++ m :: post) ++ l) -> is_fresh s1 n0 (has M_PKTHDR n0) ->
  same s s1 l -> chain_bytes s1 (pre ++ m :: post) = chain_bytes s (m0 :: ch) ->
  len0 = sum_len pre + len -> 0 <= len <= m_len m -> remain = m_len m - len ->
  m_sid n = m_sid n0 -> has M_EXT n = false -> has M_PKTHDR n = has M_PKTHDR n0 ->
  (has M_EXT m = false -> m_start n0 <= m_data n /\ m_data n + remain <= MLEN) ->
  split_hdrs m0 (first_of pre m) n len0 ->
  wp (m_split_extpacket pre m post n len remain)
     (fun r s' => split_post s s' (m0 :: ch) l len0 r) s1.
Proof.
  intros Ho (F1 & F2 & F3 & F4 & F5 & _) Hsl Hb -> Hle Hrem Hs He Hp Hroom Hh.
  rewrite <- app_assoc in Ho. eapply wp_mono.
  { apply (m_split_extpacket_wp s1 pre m post n0 n l len remain); auto. }
  intros [r1 r2] s2 (H1 & H2 & [H3 H4] & H5 & H6). cbn [fst snd] in *. unfold split_post.
  cbn [fst snd]. split_and!; auto; [eapply same_trans; eassumption |].
  destruct r2 as [| n' post']; [done |]. destruct H6 as (_ & _ & H7 & H8).
  rewrite <- Hb. split; [now split |]. subst r1.
  destruct pre as [| x pre]; simpl; intros Hm0; destruct (Hh Hm0) as (Q1 & Q2 & Q3);
    rewrite H7, H8; now split_and!.
Qed.

Lemma inline_len s m : mb_ok s m -> has M_EXT m = false -> m_len m <= MLEN - m_start m.
Proof.
  intros Hm He. pose proof (ok_inline _ _ Hm He) as [Hs _].
  pose proof (ok_start _ _ Hm). pose proof (ok_end _ _ Hm). lia.
Qed.

(** Where [M_ALIGN] puts the data of a fresh mbuf. *)
Lemma align_room s n k :
  mb_ok s n -> is_fresh s n (has M_PKTHDR n) -> 0 <= k <= MLEN - m_start n ->
  m_start n <= M_ALIGN n k /\ M_ALIGN n k + k <= MLEN.
Proof.
  intros Hn (F1 & F2 & _) Hk. destruct (law_align s n k Hn) as [A1 A2]; rewrite F2 in *; lia.
Qed.

(** Splitting a chain without a packet header. *)
Lemma m_split_plain_wp fuel s m0 ch l len0 :
  owned s ((m0 :: ch) ++ l) -> has M_PKTHDR m0 = false -> 0 <= len0 ->
  wp (m_split_rec (S fuel) (m0 :: ch) len0) (fun r s' => split_post s s' (m0 :: ch) l len0 r) s.
Proof.
  intros Ho Hh Hl. cbn [m_split_rec].
  pose proof (owned_forall_ok _ _ _ Ho) as Hall.
  pose proof (m_split_seek_spec s (m0 :: ch) len0 Hall Hl) as Hsk.
  destruct (m_split_seek (m0 :: ch) len0) as [[[[pre m] post] len] |];
    [| apply wp_ret; now apply split_post_null].
  destruct Hsk as (Hch & Hlen & Hle). fold (first_of pre m).
  assert (first_of pre m = m0) as -> by (destruct pre; now injection Hch).
  assert (forall h n, split_hdrs m0 h n len0) as Hhd by (intros ???; congruence).
  rewrite Hh, Hch in *. apply Forall_app in Hall as [Hpre [Hm Hpost]%Forall_cons_iff].
  destruct (Z.eqb_spec (m_len m - len) 0) as [Hz | Hnz].
  - apply wp_ret. unfold split_post. cbn [fst snd]. rewrite <- app_assoc in Ho |- *.
    split_and!; auto; [apply same_refl |]. destruct post as [| n post].
    { split; [done | left]. rewrite sum_len_app, sum_len_cons, sum_len_nil. lia. }
    split; [subst len0; replace len with (m_len m) by lia; now apply halves_end |].
    destruct (first_of_app pre m []) as [r ->]. rewrite <- Hch. apply Hhd.
  - apply wp_bind. eapply wp_mono; [apply (m_get_wp s (m_type m) ((pre ++ m :: post) ++ l)); exact Ho |].
    intros [n |] s1 ([G1 G1']%same_app & _ & G2).
    2: { apply wp_ret. destruct G2 as [G2 Hmf]. unfold split_post. cbn [fst snd].
         split_and!; auto. now apply same_chain. }
    destruct G2 as (G2 & Hf & _). pose proof (owned_ok _ _ _ G2) as Hn.
    pose proof Hf as (F1 & F2 & F3 & F4 & F5 & F6). rewrite <- Hch.
    apply (split_ext_post s s1 m0 ch pre m post n); auto; try now rewrite F6.
    + now rewrite Hch, (same_chain _ _ _ G1).
    + intros He. rewrite <- F6 in Hf. apply (align_room s1); auto.
      pose proof (inline_len s m Hm He). pose proof (ok_start _ _ Hm).
      assert (m_start n = 0) as -> by (unfold m_start; now rewrite F6, andb_false_r). lia.
Qed.

(** The header of the tail: nothing but the header changes. *)
Lemma m_split_hdr_wp s h0 len0 n l :
  owned s l ->
  wp (m_split_hdr h0 len0 n) (fun n' s' =>
    owned s' l /\ ms_mem s' = ms_mem s /\ ms_ref s' = ms_ref s /\
    m_sid n' = m_sid n /\ m_data n' = m_data n /\ m_len n' = m_len n /\
    m_flags n' = m_flags n /\ ph_len (m_pkthdr n') = ph_len h0 - len0) s.
Proof.
  intros Ho. unfold m_split_hdr. apply wp_bind. destruct (ph_snd_tag h0) as [tg |].
  - apply wp_bind. eapply wp_mono; [apply (law_snd_tag tg s l Ho) |].
    intros ? s1 (H1 & _ & H2 & H3). apply wp_ret, wp_ret. now split_and!.
  - apply wp_ret, wp_ret. now split_and!.
Qed.

Lemma upd_first_mid f pre m post :
  upd_first f (pre ++ m :: post) =
  upd_first f pre ++ (match pre with [] => f m | _ => m end) :: post.
Proof. now destruct pre. Qed.

(** Same areas and counts: the same facts about mbufs. *)
Lemma mb_ok_state s s' m :
  ms_mem s' = ms_mem s -> ms_ref s' = ms_ref s -> mb_ok s m -> mb_ok s' m.
Proof.
  intros Hm Hr [H1 H2 H3 H4 H5]. split; unfold st_size, ref_of in *; now rewrite ?Hm, ?Hr.
Qed.

(** The head and a fresh tail header, once both are set up: [pre'], [m'] is
    the cut chain with its new packet length, [n'] the tail's first mbuf. *)
Record split_setup s s1 m0 ch l pre' m' post n' (len0 len : Z) : Prop := {
  su_owned : owned s1 (n' :: (pre' ++ m' :: post) ++ l);
  su_fresh : is_fresh s1 n' true;
  su_same : same s s1 l;
  su_bytes : chain_bytes s1 (pre' ++ m' :: post) = chain_bytes s (m0 :: ch);
  su_len : len0 = sum_len pre' + len;
  su_le : 0 <= len <= m_len m';
  su_hdrs : split_hdrs m0 (first_of pre' m') n' len0;
  su_plain : pre' <> [] -> has M_PKTHDR m' = false \/ has M_EXT m' = true \/ m_len m' <= MHLEN
}.

Lemma m_split_setup s s1 m0 ch l pre m post n (len0 len : Z) :
  owned s ((m0 :: ch) ++ l) -> has M_PKTHDR m0 = true ->
  m0 :: ch = pre ++ m :: post -> len0 = sum_len pre + len -> 0 <= len <= m_len m ->
  same s s1 ((m0 :: ch) ++ l) -> owned s1 (n :: (m0 :: ch) ++ l) -> is_fresh s1 n true ->
  wp (m_split_hdr (m_pkthdr m0) len0 n) (fun n' s2 =>
    split_setup s s2 m0 ch l (upd_first (set_pktlen (fun _ => len0)) pre)
      (match pre with [] => set_pktlen (fun _ => len0) m | _ => m end) post n' len0 len) s1.
Proof.
  intros Ho Hh Hch Hlen Hle [Hs1 Hs2]%same_app Ho1 Hf. eapply wp_mono.
  { apply (m_split_hdr_wp s1 (m_pkthdr m0) len0 n); exact Ho1. }
  intros n' s2 (H1 & H2 & H3 & H4 & H5 & H6 & H7 & H8). rewrite Hch in *.
  pose proof (owned_forall_ok _ _ _ (proj2 (owned_cons _ _ _ H1))) as Hall2.
  set (f := set_pktlen (fun _ => len0)). split.
  - rewrite <- upd_first_mid. apply owned_mid.
    apply (alike_owned s2 (pre ++ m :: post)); [apply alike_pktlen, alike_refl; done |].
    apply owned_mid. apply (owned_replace s2 n); [exact H1 | done |].
    apply owned_ok in H1. destruct Hf as (F1 & F2 & F3 & F4 & F5 & F6).
    apply (mb_ok_flags s2 n); auto; unfold has; now rewrite H7.
  - destruct Hf as (F1 & F2 & F3 & F4 & F5 & F6). unfold is_fresh, st_size, ref_of, has, m_start in *.
    unfold has in *. rewrite H2, H3, H4, H5, H6, H7. now split_and!.
  - eapply same_trans; [exact Hs2 | now apply same_mem].
  - rewrite <- upd_first_mid. unfold f. rewrite bytes_pktlen, Hch.
    rewrite <- (same_chain s s1 _ Hs1). apply same_chain. now apply same_mem.
  - unfold f. now rewrite sum_len_pktlen.
  - unfold f, set_pktlen. destruct pre; [| done]. destruct (has M_PKTHDR m); done.
  - intros _. destruct Hf as (_ & _ & _ & _ & _ & F6). split_and!; [unfold has in *; now rewrite H7 | | done].
    assert (m0 = first_of pre m) as -> by (destruct pre; now injection Hch).
    unfold f, set_pktlen. destruct pre as [| x pre]; simpl in *; now rewrite Hh.
  - intros Hpre. destruct pre as [| x pre]; [done |].
    assert (mb_ok s m) as Hm.
    { apply owned_forall_ok in Ho. apply Forall_app in Ho as [_ Ho].
      now apply Forall_cons_iff in Ho as [Ho _]. }
    destruct (has M_PKTHDR m) eqn:E1; [right | now left].
    destruct (has M_EXT m) eqn:E2; [now left | right].
    pose proof (inline_len s m Hm E2) as Hi. unfold m_start, PKTDAT in Hi.
    rewrite E1, E2 in Hi. simpl in Hi. lia.
Qed.

(** The cut falls between two mbufs. *)
Lemma split_at_end s s2 m0 ch l pre m post n len0 len :
  split_setup s s2 m0 ch l pre m post n len0 len -> m_len m = len ->
  split_post s s2 (m0 :: ch) l len0 (pre ++ [m], n :: post).
Proof.
  intros [S1 S2 S3 S4 S5 S6 S7 S8] Hz.
  pose proof (owned_forall_ok _ _ _ (proj2 (owned_cons _ _ _ S1))) as Hall2.
  apply Forall_app in Hall2 as [Hp2 [Hm2 _]%Forall_cons_iff].
  destruct (halves_end s2 pre m post Hp2 Hm2) as [E1 E2]. unfold split_post. cbn [fst snd].
  split_and!; auto.
  - revert S1. apply owned_perm. solve_Permutation.
  - rewrite <- S4, S5, <- Hz. split; [exact E1 |].
    rewrite chain_bytes_cons, (mb_bytes_0 s2 n) by apply S2. exact E2.
  - destruct pre; exact S7.
Qed.

(** More bytes than fit the new mbuf lie after the cut: the chain from [m] on
    is split, and what follows the cut is linked behind the new mbuf. *)
Lemma split_deep s s2 m0 ch l pre m post n len0 len :
  split_setup s s2 m0 ch l pre m post n len0 len ->
  has M_EXT m = false -> MHLEN < m_len m - len ->
  has M_PKTHDR m0 = true -> has M_PKTHDR (first_of pre m) = true ->
  wp (let* sub := m_split_rec 1 (m :: post) len in
      let (mch, next) := sub : list mbuf * list mbuf in
      match next with
      | [] => do* m_free (n <| m_data := M_ALIGN n 0 |>); ret (pre ++ mch, [])
      | _ => ret (pre ++ mch, n <| m_data := M_ALIGN n 0 |> <| m_len := 0 |> :: next)
      end) (fun r s' => split_post s s' (m0 :: ch) l len0 r) s2.
Proof.
  intros [S1 S2 S3 S4 S5 S6 S7 S8] He Hrem Hh Hfo.
  pose proof (owned_cons _ _ _ S1) as [Hn S1']. pose proof (owned_forall_ok _ _ _ S1') as Hall2.
  apply Forall_app in Hall2 as [Hp2 [Hm2 Hpo2]%Forall_cons_iff].
  pose proof (inline_len s2 m Hm2 He) as Hi. pose proof S2 as (F1 & F2 & F3 & F4 & F5 & F6).
  pose proof law_sizes as [Hsz _]. pose proof (ok_start _ _ Hn) as Hst.
  assert (has M_PKTHDR m = false /\ pre <> []) as [Hpm Hpre].
  { assert (has M_PKTHDR m = false) as Hpm.
    { destruct (has M_PKTHDR m) eqn:E; [| done]. unfold m_start, PKTDAT in Hi.
      rewrite He, E in Hi. simpl in Hi. lia. }
    split; [done |]. intros ->. simpl in Hfo. congruence. }
  set (n1 := n <| m_data := M_ALIGN n 0 |>).
  assert (mb_ok s2 n1) as Hn1.
  { rewrite <- F6 in S2. assert (m_start n <= M_ALIGN n 0 /\ M_ALIGN n 0 + 0 <= MLEN) as [A1 A2].
    { apply (align_room s2); auto. unfold m_start, PKTDAT. rewrite F5, F6. simpl. lia. }
    apply (mb_ok_narrow s2 n); auto; unfold n1; cbn [m_len m_data upd]; try lia.
    change (0 <= m_start n <= M_ALIGN n 0). lia. }
  apply wp_bind. eapply wp_mono.
  { apply (m_split_plain_wp 0 s2 m post (n1 :: pre ++ l) len); [| done | lia].
    assert (owned s2 (n1 :: (pre ++ m :: post) ++ l)) as Ho' by now apply (owned_replace s2 n).
    revert Ho'. apply owned_perm. solve_Permutation. }
  intros [mch next] s3 (H1 & [[H2 _] [H3 H4]%same_app]%same_cons & H5). cbn [fst snd] in *.
  assert (same s s3 l) as Hsl by (eapply same_trans; eassumption).
  destruct next as [| x next].
  - apply wp_bind. eapply wp_mono.
    { apply (law_free n1 s3 ((pre ++ mch) ++ l)). revert H1. apply owned_perm. solve_Permutation. }
    intros ? s4 (K1 & [K2 K3]%same_app & _). apply wp_ret. unfold split_post. cbn [fst snd].
    destruct H5 as [H5 [Hno | Hmf]].
    { rewrite sum_len_cons in Hno. pose proof (sum_len_nonneg s2 post Hpo2). lia. }
    split_and!; auto; [eapply same_trans; eassumption |].
    rewrite (same_chain _ _ _ K2), <- S4, !chain_bytes_app, H5. now rewrite (same_chain _ _ _ H3).
  - destruct H5 as [[H5 H6] _]. apply wp_ret. unfold split_post. cbn [fst snd].
    set (n2 := n1 <| m_len := 0 |>).
    split_and!; auto.
    + assert (owned s3 (n1 :: (pre ++ mch) ++ (x :: next) ++ l)) as Hx.
      { revert H1. apply owned_perm. solve_Permutation. }
      assert (owned s3 (n2 :: (pre ++ mch) ++ (x :: next) ++ l)) as Hx2.
      { apply (owned_replace s3 n1); auto. apply mb_ok_short; [now apply owned_ok in Hx |].
        split; [done |]. change (m_len n1) with (m_len n). lia. }
      change (owned s3 ((pre ++ mch) ++ (n2 :: x :: next) ++ l)).
      revert Hx2. apply owned_perm. solve_Permutation.
    + destruct (cut_bytes s2 pre m post len Hp2 Hm2 S6) as [C1 C2].
      change (halves s3 (chain_bytes s (m0 :: ch)) len0 (pre ++ mch) (n2 :: x :: next)).
      destruct (cut_bytes s2 [] m post len) as [D1 D2]; auto.
      rewrite sum_len_nil, Z.add_0_l, ?chain_bytes_nil in D1, D2. simpl in D1, D2.
      rewrite <- S4, S5. split; [rewrite C1 | rewrite C2].
      * rewrite chain_bytes_app, H5, D1. now rewrite (same_chain _ _ _ H3).
      * now rewrite chain_bytes_cons, (mb_bytes_0 s3 n2), H6, D2.
    + destruct pre as [| y pre]; [done |]. exact S7.
Qed.

(** A packet with a header: the head is the packet's first [len0] bytes. *)
Lemma m_split_wp s m0 ch l len0 :
  owned s ((m0 :: ch) ++ l) -> 0 <= len0 ->
  wp (m_split (m0 :: ch) len0) (fun r s' => split_post s s' (m0 :: ch) l len0 r) s.
Proof.
  intros Ho Hl. destruct (has M_PKTHDR m0) eqn:Hh; [| now apply m_split_plain_wp].
  unfold m_split. remember 1%nat as one. cbn [m_split_rec].
  pose proof (owned_forall_ok _ _ _ Ho) as Hall.
  pose proof (m_split_seek_spec s (m0 :: ch) len0 Hall Hl) as Hsk.
  destruct (m_split_seek (m0 :: ch) len0) as [[[[pre m] post] len] |];
    [| apply wp_ret; now apply split_post_null].
  destruct Hsk as (Hch & Hlen & Hle). fold (first_of pre m).
  assert (first_of pre m = m0) as Hfo by (destruct pre; now injection Hch).
  rewrite Hfo, Hh. apply wp_bind.
  eapply wp_mono; [apply (m_gethdr_wp s (m_type m0) ((m0 :: ch) ++ l)); exact Ho |].
  intros [n |] s1 (G1 & _ & G2).
  2: { apply wp_ret. pose proof G1 as [G1' G1'']%same_app. destruct G2 as [G2 Hmf].
       unfold split_post. cbn [fst snd]. split_and!; auto. now apply same_chain. }
  destruct G2 as (G2 & Hf & _). cbn zeta.
  pose proof (m_split_setup s s1 m0 ch l pre m post n len0 len Ho Hh Hch Hlen Hle G1 G2 Hf) as Hsu.
  set (f := set_pktlen (fun _ => len0)) in *.
  assert (m_len (match pre with [] => f m | _ => m end) = m_len m) as Hlm.
  { destruct pre; [| done]. unfold f, set_pktlen. now destruct (has M_PKTHDR m). }
  destruct (Z.eqb_spec (m_len m - len) 0) as [Hz | Hnz].
  { apply wp_bind. eapply wp_mono; [exact Hsu |]. intros n' s2 Hsp. apply wp_ret.
    rewrite upd_first_mid. eapply split_at_end; [exact Hsp | lia]. }
  apply wp_bind. eapply wp_mono; [exact Hsu |]. intros n' s2 Hsp.
  assert (has M_PKTHDR (first_of (upd_first f pre) (match pre with [] => f m | _ => m end)) = true) as Hfo'.
  { assert (forall x, has M_PKTHDR (f x) = has M_PKTHDR x) as Hfx.
    { intros x. unfold f, set_pktlen. now destruct (has M_PKTHDR x) eqn:E; rewrite <- E. }
    destruct pre; simpl in *; rewrite Hfx; congruence. }
  set (pre' := upd_first f pre) in *.
  set (m' := match pre with [] => f m | _ => m end) in *. rewrite <- Hlm in *.
  pose proof Hsp as [S1 S2 S3 S4 S5 S6 S7 S8]. pose proof S2 as (F1 & F2 & F3 & F4 & F5 & F6).
  pose proof (owned_ok _ _ _ S1) as Hn'. rewrite <- F6 in S2.
  destruct (has M_EXT m') eqn:He.
  - apply (split_ext_post s s2 m0 ch pre' m' post n'); auto. congruence.
  - destruct (Z.ltb_spec MHLEN (m_len m' - len)) as [Hgt | Hle'].
    + subst one. now apply (split_deep s s2 m0 ch l pre' m' post n' len0 len).
    + apply (split_ext_post s s2 m0 ch pre' m' post n'); auto.
      intros _. apply (align_room s2); auto. pose proof law_sizes.
      unfold m_start, PKTDAT. rewrite F5, F6. simpl. lia.
Qed.

(** The two packets of a split have the right lengths. *)
Lemma split_pktlen s s' m0 ch l len0 r n ns :
  split_post s s' (m0 :: ch) l len0 (r, n :: ns) -> owned s ((m0 :: ch) ++ l) ->
  0 <= len0 <= sum_len (m0 :: ch) -> has M_PKTHDR m0 = true -> pktlen_ok (m0 :: ch) ->
  pktlen_ok r /\ pktlen_ok (n :: ns).
Proof.
  intros (H1 & _ & [H3 H4] & H5) Ho Hl Hh Hp. cbn [fst snd] in *.
  pose proof (owned_forall_ok _ _ _ H1) as Hr.
  pose proof (owned_forall_ok _ _ _ (owned_app_r _ _ _ H1)) as Hn.
  apply (f_equal (fun b => Z.of_nat (length b))) in H3, H4.
  pose proof (length_chain_bytes s (m0 :: ch) (owned_forall_ok _ _ _ Ho)) as HB.
  rewrite length_chain_bytes, length_take in H3 by done.
  rewrite length_chain_bytes, length_drop in H4 by done.
  destruct r as [| m0' r]; [done |]. destruct (H5 Hh) as (_ & Q2 & Q3). specialize (Hp Hh).
  split; intros _; lia.
Qed.

(** C23. [m_split] leaves the first [len0] bytes in the chain and returns the
    others, both packets with their own length when the chain was one; on a
    null result the chain still has all its bytes, and nothing follows [len0]
    or an allocation failed. *)
Theorem m_split_halves s m0 ch l len0 :
  owned s ((m0 :: ch) ++ l) -> 0 <= len0 <= sum_len (m0 :: ch) -> pktlen_ok (m0 :: ch) ->
  wp (m_split (m0 :: ch) len0) (fun r s' =>
    owned s' (r.1 ++ r.2 ++ l) /\ same s s' l /\
    match r.2 with
    | [] => chain_bytes s' r.1 = chain_bytes s (m0 :: ch) /\ (sum_len (m0 :: ch) = len0 \/ may_fail)
    | _ :: _ => halves s' (chain_bytes s (m0 :: ch)) len0 r.1 r.2 /\
                (has M_PKTHDR m0 = true -> pktlen_ok r.1 /\ pktlen_ok r.2)
    end) s.
Proof.
  intros Ho Hl Hp. eapply wp_mono; [apply (m_split_wp s m0 ch l len0 Ho); lia |].
  intros [r1 r2] s' H. pose proof H as (H1 & H2 & H3). cbn [fst snd] in *. split_and!; auto.
  destruct r2 as [| n ns]; [destruct H3 as [H3 [? | ?]]; split; auto; left; lia |].
  pose proof H3 as [H4 _]. split; [done |]. intros Hh.
  now apply (split_pktlen s s' m0 ch l len0 r1 n ns).
Qed.
End share.

(** *** Copies that share clusters *)

Section copies.
Context {P : Type} {MS : MbufSys P} {ML : MbufLaws P}.
Implicit Types (s : mstate P) (m n : mbuf) (ch l top : list mbuf).

(** A duplicate of [m]'s packet header in the fresh mbuf [n]. *)
Lemma m_dup_pkthdr_wp s n m l :
  owned s (n :: l) -> m_len n = 0 -> m_data n = m_start n ->
  (has M_EXT n = false -> st_size s (m_sid n) = MLEN) -> has M_PKTHDR m = true ->
  wp (m_dup_pkthdr n m) (fun r s' =>
    owned s' (r.2 :: l) /\ ms_mem s' = ms_mem s /\ ms_ref s' = ms_ref s /\
    m_sid r.2 = m_sid n /\ m_len r.2 = 0 /\ m_data r.2 = m_start r.2 /\
    has M_EXT r.2 = has M_EXT n /\ has M_PKTHDR r.2 = true /\
    ph_len (m_pkthdr r.2) = ph_len (m_pkthdr m) /\ (r.1 = false -> may_fail)) s.
Proof.
  intros Ho H0 Hd Hsz Hm. pose proof law_sizes as [Hs _]. unfold m_dup_pkthdr.
  set (fl := fl_or (fl_and (m_flags m) M_COPYFLAGS) (fl_only_ext (m_flags n))).
  assert (fl M_EXT = has M_EXT n) as Hfe by apply fl_copy_ext.
  assert (fl M_PKTHDR = true) as Hfp by (unfold fl; now rewrite fl_copy_pkthdr).
  cbn zeta. set (to := if has M_EXT (n <| m_flags := fl |>) then _ else _).
  assert (m_sid to = m_sid n /\ m_len to = 0 /\ m_flags to = fl /\ m_data to = m_start to) as
    (T1 & T2 & T3 & T4).
  { unfold to, m_start in *. change (has M_EXT (n <| m_flags := fl |>)) with (fl M_EXT).
    rewrite Hfe in *. destruct (has M_EXT n) eqn:E; split_and!; auto; unfold has; cbn [m_flags m_data upd];
      rewrite Hfe, ?Hfp; simpl; auto. }
  assert (forall h s', ms_mem s' = ms_mem s -> ms_ref s' = ms_ref s ->
    owned s' (n :: l) -> owned s' (to <| m_pkthdr := h |> :: l)) as Hown.
  { intros h s' Hme Hre Ho'. apply (owned_replace s' n); auto.
    pose proof (owned_ok _ _ _ Ho') as Hn. pose proof (ok_end _ _ Hn) as Hen.
    pose proof (ok_start _ _ Hn) as Hst.
    assert (st_size s' (m_sid n) = st_size s (m_sid n)) as Hsz' by (unfold st_size; now rewrite Hme).
    assert (has M_EXT to = has M_EXT n) as Hte by (unfold has in *; now rewrite T3).
    assert (0 <= m_start to <= st_size s (m_sid n)) as Hts.
    { unfold m_start. rewrite Hte. destruct (has M_EXT n) eqn:E; simpl; [lia |].
      unfold has in *. rewrite T3, Hfp, Hsz by done. unfold PKTDAT. lia. }
    apply (mb_ok_narrow s' n); auto; [| change (0 <= m_len to); lia |].
    - change (0 <= m_start to <= m_data to). rewrite T4. lia.
    - change (m_data to + m_len to <= st_size s' (m_sid n)). rewrite T4, T2. lia. }
  assert (has M_EXT to = has M_EXT n /\ has M_PKTHDR to = true) as [Q1 Q2].
  { unfold has in *. now rewrite T3. }
  apply wp_bind. apply wp_mono with (Q := fun _ s' => owned s' (n :: l) /\
    ms_mem s' = ms_mem s /\ ms_ref s' = ms_ref s).
  { destruct (ph_snd_tag (m_pkthdr m)) as [t |]; [| now apply wp_ret].
    eapply wp_mono; [apply (law_snd_tag t s (n :: l) Ho) |]. tauto. }
  intros ? s1 (H1 & H2 & H3). apply wp_bind.
  eapply wp_mono; [apply (law_tags (ph_tags (m_pkthdr m)) s1 (n :: l) H1) |].
  intros tags s2 (Hmf & H4 & _ & H5 & H6). rewrite H2 in H5. rewrite H3 in H6.
  destruct tags as [t |]; apply wp_ret; cbn [fst snd]; split_and!; auto; try done; now apply Hown.
Qed.

Lemma is_fresh_state s s' n hdr :
  ms_mem s' = ms_mem s -> ms_ref s' = ms_ref s -> is_fresh s n hdr -> is_fresh s' n hdr.
Proof. unfold is_fresh, ref_of, st_size. now intros -> ->. Qed.

(** The bytes of [m] at [off] in the fresh mbuf [n], which has their number
    as its length. *)
Lemma m_copy_data_wp s n0 n m l off :
  owned s (n0 :: m :: l) -> m_len n0 = 0 -> has M_EXT n0 = false ->
  m_sid n = m_sid n0 -> has M_EXT n = false -> has M_PKTHDR n = has M_PKTHDR n0 ->
  0 <= off -> 0 <= m_len n -> off + m_len n <= m_len m ->
  (has M_EXT m = false -> m_start n0 <= m_data n /\ m_data n + m_len n <= MLEN) ->
  wp (m_copy_data n m off) (fun n' s1 =>
    owned s1 (n' :: m :: l) /\ same s s1 (m :: l) /\
    mb_bytes s1 n' = take (Z.to_nat (m_len n)) (drop (Z.to_nat off) (mb_bytes s m)) /\
    has M_PKTHDR n' = has M_PKTHDR n /\ m_pkthdr n' = m_pkthdr n /\ m_len n' = m_len n) s.
Proof.
  intros A1 A2 A3 A4 A5 A6 A7 A8 A9 A10. unfold m_copy_data.
  eapply wp_mono; [apply (share_or_copy_wp s n0 n m l off (m_len n)); auto |].
  intros n' s1 (H1 & H2 & H3 & H4 & H5 & H6). cbn zeta in *.
  assert (n' <| m_len := m_len n |> = n') as E by (rewrite <- H6; now destruct n').
  rewrite E in *. now split_and!.
Qed.

(** The copy made so far, [top], followed by copies of the rest. *)
Definition copied s s' ch l top (off len : Z) (hdr : mbuf -> Prop) (r : list mbuf) : Prop :=
  owned s' (r ++ ch ++ l) /\ same s s' (ch ++ l) /\
  (r = [] /\ may_fail \/ exists r', r = top ++ r' /\
     chain_bytes s' r = chain_bytes s top ++ take (Z.to_nat len) (drop (Z.to_nat off) (chain_bytes s ch)) /\
     match r' with n :: _ => hdr n | [] => True end).

Lemma copied_null s s' ch l top off len hdr :
  may_fail -> owned s' (ch ++ l) -> same s s' (ch ++ l) -> copied s s' ch l top off len hdr [].
Proof. intros. split_and!; auto. Qed.

(** The fresh mbuf [m_copym] fills, with a packet header when it copies one. *)
Lemma m_copym_get_wp s m l (copyhdr : bool) :
  owned s l -> (copyhdr = true -> has M_PKTHDR m = true) ->
  wp (m_copym_get copyhdr m) (fun r s' => same s s' l /\
    match r with
    | None => owned s' l /\ may_fail
    | Some (ok, n) => (ok = false -> may_fail) /\ owned s' (n :: l) /\ m_len n = 0 /\ has M_EXT n = false /\
        m_data n = m_start n /\ has M_PKTHDR n = copyhdr /\
        (copyhdr = true -> ph_len (m_pkthdr n) = ph_len (m_pkthdr m))
    end) s.
Proof.
  intros Ho Hh. apply wp_bind.
  apply wp_mono with (Q := fun r s1 => same s s1 l /\
    match r with
    | None => owned s1 l /\ may_fail
    | Some n => owned s1 (n :: l) /\ is_fresh s1 n copyhdr
    end).
  { destruct copyhdr; (eapply wp_mono; [apply m_gethdr_wp || apply m_get_wp; exact Ho |]);
      intros [n |] s1; tauto. }
  intros [n |] s1 [H1 H2]; [| now apply wp_ret]. destruct H2 as (H2 & F1 & F2 & F3 & F4 & F5 & F6).
  apply wp_bind. destruct copyhdr.
  - eapply wp_mono; [apply (m_dup_pkthdr_wp s1 n m l); auto |].
    intros [ok n'] s2 (D1 & D2 & D3 & D4 & D5 & D6 & D7 & D8 & D9 & D10). cbn [fst snd] in *.
    apply wp_ret. split_and!; auto; [| congruence].
    eapply same_trans; [exact H1 | now apply same_mem].
  - apply wp_ret, wp_ret. split_and!; auto; done.
Qed.

(** Where the loop of [m_copym] stands: it copies to the end of the chain, or
    the chain has the bytes it is asked for. *)
Definition copy_range ch (off len : Z) : Prop :=
  0 <= off /\ 0 <= len /\
  match ch with [] => off = 0 | m :: _ => off = 0 \/ off < m_len m end /\
  (len = M_COPYALL /\ sum_len ch - off <= len \/ len < M_COPYALL /\ len <= sum_len ch - off).

(** A fresh mbuf holds what an mbuf without cluster can, header or not. *)
Lemma copy_room s m n (hdr : bool) k :
  mb_ok s m -> has M_EXT m = false -> (hdr = true -> has M_PKTHDR m = true) ->
  has M_EXT n = false -> has M_PKTHDR n = hdr -> k <= m_len m -> m_start n + k <= MLEN.
Proof.
  intros Hm He Hh Hn Hp Hk. pose proof (inline_len s m Hm He) as Hi. pose proof law_sizes as [Hsz _].
  unfold m_start, PKTDAT in *. rewrite Hn, Hp, He in *.
  destruct hdr; simpl in *; [rewrite (Hh eq_refl) in Hi |]; destruct (has M_PKTHDR m); lia.
Qed.

Lemma m_copym_piece_wp off0 s m l off len copyhdr :
  owned s (m :: l) -> (copyhdr = true -> has M_PKTHDR m = true) ->
  0 <= off <= m_len m -> 0 <= len ->
  wp (m_copym_piece off0 m off len copyhdr) (fun r s' => same s s' (m :: l) /\
    match r with
    | None => owned s' (m :: l) /\ may_fail
    | Some (false, n) => owned s' (n :: m :: l) /\ may_fail
    | Some (true, n) =>
        owned s' (n :: m :: l) /\ m_len n = Z.min len (m_len m - off) /\
        mb_bytes s' n = take (Z.to_nat (m_len n)) (drop (Z.to_nat off) (mb_bytes s m)) /\
        (copyhdr = true -> has M_PKTHDR n = true /\ ph_len (m_pkthdr n) =
           (if len =? M_COPYALL then ph_len (m_pkthdr m) - off0 else len))
    end) s.
Proof.
  intros Ho Hh Hoff Hlen. pose proof (owned_ok _ _ _ Ho) as Hm. unfold m_copym_piece.
  apply wp_bind. eapply wp_mono; [apply (m_copym_get_wp s m (m :: l) copyhdr); auto |].
  intros [[[|] n] |] s1 [G1 G2]; [| apply wp_ret; destruct G2 as (Hmf & G2 & _); auto | now apply wp_ret].
  destruct G2 as (_ & G3 & N1 & N2 & N3 & N4 & N5). cbn zeta.
  set (k := Z.min len (m_len m - off)). set (n1 := if copyhdr then _ else n).
  assert (m_sid n1 = m_sid n /\ m_data n1 = m_data n /\ m_flags n1 = m_flags n) as (E1 & E2 & E3).
  { unfold n1. now destruct copyhdr. }
  assert (mb_bytes s1 m = mb_bytes s m) as Hbm by (now apply same_cons in G1 as [[G1 _] _]).
  apply wp_bind. eapply wp_mono.
  { apply (m_copy_data_wp s1 n (n1 <| m_len := k |>) m l off); auto; unfold has;
      cbn [m_len m_data m_flags upd]; rewrite ?E2, ?E3; try lia; auto.
    intros He. rewrite N3. split; [lia |]. apply (copy_room s m n copyhdr); auto. lia. }
  intros n' s2 (W1 & W2 & W6 & W7 & W8 & W9). cbn [m_len upd] in W6, W9. apply wp_ret.
  split_and!; auto; [eapply same_trans; eassumption | now rewrite W9, <- Hbm |].
  intros ->. rewrite W7, W8. unfold n1, has. cbn [m_flags m_pkthdr ph_len upd].
  rewrite N5 by done. split; [exact N4 | done].
Qed.

Lemma m_copym_loop_wp off0 s ch l top off len copyhdr :
  owned s (top ++ ch ++ l) -> copy_range ch off len ->
  match ch with m :: _ => copyhdr = true -> has M_PKTHDR m = true | [] => True end ->
  wp (m_copym_loop off0 ch off len copyhdr top) (fun r s' =>
    copied s s' ch l top off len (fun n => copyhdr = true -> has M_PKTHDR n = true /\
      match ch with m :: _ => ph_len (m_pkthdr n) =
         (if len =? M_COPYALL then ph_len (m_pkthdr m) - off0 else len) | [] => True end) r) s.
Proof.
  revert s l top off len copyhdr. induction ch as [| m ch IH];
    intros s l top off len copyhdr Ho (R1 & R2 & R3 & R4) Hh; cbn [m_copym_loop].
  - apply wp_mono with (Q := fun r s' => r = top /\ s' = s).
    { destruct (Z.ltb_spec 0 len) as [Hp | Hz]; [| now apply wp_ret]. rewrite sum_len_nil in R4.
      apply wp_bind, wp_kassert; [apply Z.eqb_eq; lia |]. now apply wp_ret. }
    intros ? ? [-> ->]. split_and!; auto; [apply same_refl | right]. exists [].
    now rewrite app_nil_r, chain_bytes_nil, drop_nil, take_nil, app_nil_r.
  - destruct (Z.ltb_spec 0 len) as [Hp | Hz].
    2: { apply wp_ret. split_and!; auto; [apply same_refl | right]. exists [].
         replace len with 0 by lia. now rewrite !app_nil_r. }
    pose proof (owned_cons _ _ _ (owned_app_r _ _ _ Ho)) as [Hm Ho2].
    pose proof (ok_len _ _ Hm) as Hml. pose proof (owned_forall_ok _ _ _ Ho2) as Hall.
    pose proof (sum_len_nonneg s ch Hall) as Hsn. rewrite sum_len_cons in R4. apply wp_bind.
    eapply wp_mono.
    { apply (m_copym_piece_wp off0 s m (top ++ ch ++ l) off len copyhdr); auto; [| lia].
      revert Ho. apply owned_perm. solve_Permutation. }
    intros on s1 ([Gm [G2 G3]%same_app]%same_cons & G4).
    assert (same s s1 ((m :: ch) ++ l)) as Hsame by (now apply same_cons). destruct Gm as [Gm _].
    destruct on as [[[|] n] |].
    + destruct G4 as (G4 & N1 & N2 & N3). set (len1 := if len =? M_COPYALL then len else len - m_len n).
      assert (copy_range ch 0 len1) as Hr.
      { unfold copy_range, len1. split_and!; [lia | | now destruct ch; auto |];
          destruct (Z.eqb_spec len M_COPYALL); lia. }
      eapply wp_mono.
      { apply (IH s1 (m :: l) (top ++ [n]) 0 len1 false); auto; [| now destruct ch].
        revert G4. apply owned_perm. solve_Permutation. }
      intros r s2 (I1 & [I2 [Im I3]%same_cons]%same_app & I4). split_and!.
      * revert I1. apply owned_perm. solve_Permutation.
      * eapply same_trans; [exact Hsame |]. apply same_cons. split; [done |]. now apply same_app.
      * destruct I4 as [[-> Hmf] | (r' & -> & I5 & _)]; [now left | right].
        exists (n :: r'). split_and!; [now rewrite <- app_assoc | | exact N3].
        apply same_app in G3 as [G3 _].
        rewrite I5, chain_bytes_app, chain_bytes_cons, chain_bytes_nil, app_nil_r, <- app_assoc.
        rewrite (same_chain _ _ _ G2), N2, N1, (same_chain _ _ _ G3), drop_0. f_equal.
        rewrite take_drop_mb by (done || lia). rewrite (Z.min_comm len). f_equal.
        unfold len1. pose proof (length_chain_bytes s ch Hall).
        destruct (Z.eqb_spec len M_COPYALL); [| f_equal; lia].
        rewrite !take_ge; [done | lia | lia].
    + destruct G4 as [G4 Hmf]. apply wp_bind. eapply wp_mono; [apply (law_freem (top ++ [n]) s1 ((m :: ch) ++ l)) |].
      { revert G4. apply owned_perm. solve_Permutation. }
      intros ? s2 (K1 & K2 & _). apply wp_ret. apply copied_null; auto. eapply same_trans; eassumption.
    + destruct G4 as [G4 Hmf]. apply wp_bind. eapply wp_mono; [apply (law_freem top s1 ((m :: ch) ++ l)) |].
      { revert G4. apply owned_perm. solve_Permutation. }
      intros ? s2 (K1 & K2 & _). apply wp_ret. apply copied_null; auto. eapply same_trans; eassumption.
Qed.

(** The range the caller may ask for: all from [off0] on, or bytes the chain
    has. *)
Definition in_chain ch (off0 len : Z) : Prop :=
  0 <= off0 <= sum_len ch /\ 0 <= len /\
  (len = M_COPYALL /\ sum_len ch <= M_COPYALL \/ len < M_COPYALL /\ off0 + len <= sum_len ch).

Lemma m_copym_wp s ch l off0 len :
  owned s (ch ++ l) -> in_chain ch off0 len ->
  wp (m_copym ch off0 len) (fun r s' =>
    owned s' (r ++ ch ++ l) /\ same s s' (ch ++ l) /\
    (r = [] /\ may_fail \/
     chain_bytes s' r = take (Z.to_nat len) (drop (Z.to_nat off0) (chain_bytes s ch))) /\
    (off0 = 0 -> pktlen_ok ch -> match ch, r with
       | m :: _, n :: _ => has M_PKTHDR m = true -> has M_PKTHDR n = true /\ pktlen_ok r
       | _, _ => True end)) s.
Proof.
  intros Ho (Hoff & Hl & Hr). unfold m_copym.
  apply wp_bind, wp_kassert; [apply Z.leb_le; lia |].
  apply wp_bind, wp_kassert; [apply Z.leb_le; lia |]. cbn zeta.
  pose proof (owned_forall_ok _ _ _ Ho) as Hall.
  destruct (m_seek_spec s ch off0 Hall Hoff) as (pre & ch' & off & H1 & H2 & H3 & H4 & H5 & H6).
  rewrite H1. set (copyhdr := match ch with [] => false | m :: _ => _ end).
  pose proof (sum_len_nonneg s ch Hall) as Hsn.
  assert (off0 = 0 -> pre = [] /\ off = 0) as Hz.
  { intros ->. destruct ch as [| m ch]; cbn in H1; injection H1 as <- <-;
      (split; [| done]); [now destruct pre |]. destruct pre; [done |].
    apply (f_equal length) in H2. rewrite length_app in H2. simpl in H2. lia. }
  assert (same s s ch) as Hrefl by apply same_refl.
  eapply wp_mono.
  { apply (m_copym_loop_wp off0 s ch' (pre ++ l) [] off len copyhdr).
    - revert Ho. rewrite H2. apply owned_perm. simpl. solve_Permutation.
    - unfold copy_range. split_and!; auto; lia.
    - destruct ch' as [| m ch']; [done |]. unfold copyhdr. intros Hc. destruct ch as [| m0 ch]; [done |].
      apply andb_prop in Hc as [Hc1 Hc2]. apply Z.eqb_eq in Hc1. destruct (Hz Hc1) as [-> _].
      injection H2 as -> _. done. }
  intros r s' (Q1 & [Q2 [Q3 Q4]%same_app]%same_app & Q5).
  assert (owned s' (r ++ ch ++ l)) as Ho'.
  { revert Q1. rewrite H2. apply owned_perm. solve_Permutation. }
  assert (r = [] /\ may_fail \/
    chain_bytes s' r = take (Z.to_nat len) (drop (Z.to_nat off0) (chain_bytes s ch))) as Hb.
  { destruct Q5 as [[-> Hmf] | (r' & -> & Q6 & _)]; [now left | right].
    now rewrite Q6, H6, chain_bytes_nil. }
  split_and!; auto.
  - rewrite H2. rewrite <- app_assoc. apply same_app. split; [done |]. now apply same_app.
  - intros H0 Hpk. destruct (Hz H0) as [-> ->]. simpl in H2. subst ch' off0.
    destruct ch as [| m ch]; [done |]. destruct r as [| n r]; [done |]. intros Hm.
    destruct Q5 as [[? _] | (r' & Er & _ & Q7)]; [done |]. simpl in Er. subst r'.
    simpl in *. destruct Q7 as [Q7 Q8]; [unfold copyhdr; now rewrite Hm |]. split; [done |].
    destruct Hb as [[? _] | Hb]; [done |]. intros _. rewrite Q8.
    rewrite <- (length_chain_bytes s' (n :: r)), Hb, length_take, length_drop by
      exact (owned_forall_ok s' (n :: r) _ Ho').
    pose proof (length_chain_bytes s (m :: ch) Hall) as Hlen.
    destruct (Z.eqb_spec len M_COPYALL); [rewrite (Hpk Hm) |]; lia.
Qed.

(** [m_copym] returns the [len] bytes from [off0] on in a new chain, or
    nothing when an allocation failed; the original chain and all others keep
    their bytes, and a copy that starts a packet is a packet of its length. *)
Theorem m_copym_range s ch l off0 len :
  owned s (ch ++ l) -> in_chain ch off0 len ->
  wp (m_copym ch off0 len) (fun r s' =>
    owned s' (r ++ ch ++ l) /\ chain_bytes s' ch = chain_bytes s ch /\ same s s' l /\
    (r = [] /\ may_fail \/
     chain_bytes s' r = take (Z.to_nat len) (drop (Z.to_nat off0) (chain_bytes s ch))) /\
    (off0 = 0 -> pktlen_ok ch -> match ch, r with
       | m :: _, n :: _ => has M_PKTHDR m = true -> has M_PKTHDR n = true /\ pktlen_ok r
       | _, _ => True end)) s.
Proof.
  intros Ho Hr. eapply wp_mono; [now apply (m_copym_wp s ch l off0 len) |].
  intros r s' (H1 & [H2 H2']%same_app & H3 & H4). split_and!; auto. now apply same_chain.
Qed.

(** An mbuf whose cluster another live mbuf describes is not writable. *)
Lemma shared_readonly s m m' l :
  owned s (m :: m' :: l) -> m_sid m = m_sid m' -> M_WRITABLE s m = false.
Proof.
  intros Ho Hs. destruct (M_WRITABLE s m) eqn:E; [| done].
  pose proof (law_writable s m (owned_ok _ _ _ Ho) E) as Hr.
  pose proof (owned_unique _ _ _ Ho Hr) as [Hne _]%Forall_cons_iff. congruence.
Qed.

(** *** Whole packets *)

Lemma m_copypacket_loop_wp s ch l top :
  owned s (top ++ ch ++ l) ->
  wp (m_copypacket_loop ch top) (fun r s' =>
    owned s' (r ++ ch ++ l) /\ same s s' (ch ++ l) /\
    (r = [] /\ may_fail \/ exists r', r = top ++ r' /\ chain_bytes s' r = chain_bytes s top ++ chain_bytes s ch)) s.
Proof.
  revert s l top. induction ch as [| m ch IH]; intros s l top Ho; cbn [m_copypacket_loop].
  - apply wp_ret. split_and!; auto; [apply same_refl | right]. exists [].
    now rewrite app_nil_r, chain_bytes_nil, app_nil_r.
  - pose proof (owned_cons _ _ _ (owned_app_r _ _ _ Ho)) as [Hm Ho2].
    pose proof (length_mb_bytes _ _ Hm) as Hlen. pose proof (ok_len _ _ Hm) as Hml. apply wp_bind.
    eapply wp_mono; [apply (m_get_wp s (m_type m) (top ++ (m :: ch) ++ l)); exact Ho |].
    intros [n |] s1 ([G1 G2]%same_app & _ & G3).
    2: { destruct G3 as [G3 Hmf]. apply wp_bind.
         eapply wp_mono; [apply (law_freem top s1 ((m :: ch) ++ l)); exact G3 |].
         intros ? s2 (K1 & K2 & _). apply wp_ret. split_and!; auto. eapply same_trans; eassumption. }
    destruct G3 as (G3 & (F1 & F2 & F3 & F4 & F5 & F6) & _). apply wp_bind. eapply wp_mono.
    { apply (m_copy_data_wp s1 n (n <| m_len := m_len m |>) m (top ++ ch ++ l) 0); auto;
        cbn [m_len m_data upd]; try lia.
      - revert G3. apply owned_perm. solve_Permutation.
      - intros He. rewrite F3. split; [lia |]. apply (copy_room s m n false); auto; done || lia. }
    intros n' s2 (W1 & [[W2 Wz] [W3 W4]%same_app]%same_cons & W6 & _).
    apply same_cons in G2 as [[Gm Gz] G2]. cbn [m_len upd] in W6.
    rewrite Gm, drop_0, take_ge in W6 by lia.
    eapply wp_mono.
    { apply (IH s2 (m :: l) (top ++ [n'])). revert W1. apply owned_perm. solve_Permutation. }
    intros r s3 (I1 & [I2 [[Im Iz] I3]%same_cons]%same_app & I4).
    apply same_app in G2 as [G2 G5]. apply same_app in W4 as [W4 W5]. split_and!.
    + revert I1. apply owned_perm. solve_Permutation.
    + apply same_cons. split; [split; congruence |]. apply same_app.
      split; (eapply same_trans; [eassumption |]); eapply same_trans; eassumption.
    + destruct I4 as [[-> Hmf] | (r' & -> & I5)]; [now left | right]. exists (n' :: r').
      split; [now rewrite <- app_assoc |].
      rewrite I5, chain_bytes_app, !chain_bytes_cons, chain_bytes_nil, app_nil_r, W6, <- app_assoc.
      rewrite (same_chain _ _ _ W3), (same_chain _ _ _ G1), (same_chain _ _ _ W4).
      now rewrite (same_chain _ _ _ G2).
Qed.

Lemma m_copypacket_wp s ch l :
  owned s (ch ++ l) -> match ch with m :: _ => has M_PKTHDR m | [] => false end = true ->
  wp (m_copypacket ch) (fun r s' =>
    owned s' (r ++ ch ++ l) /\ same s s' (ch ++ l) /\
    (r = [] /\ may_fail \/ chain_bytes s' r = chain_bytes s ch /\ (pktlen_ok ch -> pktlen_ok r))) s.
Proof.
  intros Ho Hh. destruct ch as [| m ch]; [done |]. unfold m_copypacket.
  pose proof (owned_ok _ _ _ Ho) as Hm. pose proof (length_mb_bytes _ _ Hm) as Hlen.
  pose proof (ok_len _ _ Hm) as Hml. apply wp_bind.
  eapply wp_mono; [apply (m_get_wp s (m_type m) ((m :: ch) ++ l)); exact Ho |].
  intros [n |] s1 (G1 & _ & G2).
  2: { destruct G2 as [G2 Hmf]. apply wp_bind.
       eapply wp_mono; [apply (law_freem [] s1 ((m :: ch) ++ l)); exact G2 |].
       intros ? s2 (K1 & K2 & _). apply wp_ret. split_and!; auto. eapply same_trans; eassumption. }
  destruct G2 as (G2 & (F1 & F2 & F3 & F4 & F5 & F6) & _). apply wp_bind.
  eapply wp_mono; [apply (m_dup_pkthdr_wp s1 n m ((m :: ch) ++ l)); auto |].
  intros [ok n1] s2 (D1 & D2 & D3 & D4 & D5 & D6 & D7 & D8 & D9 & D10). cbn [fst snd] in *.
  assert (same s s2 ((m :: ch) ++ l)) as Hs2 by (eapply same_trans; [exact G1 | now apply same_mem]).
  destruct ok.
  2: { apply wp_bind. eapply wp_mono; [apply (law_freem [n1] s2 ((m :: ch) ++ l)); exact D1 |].
       intros ? s3 (K1 & K2 & _). apply wp_ret. split_and!; auto. eapply same_trans; eassumption. }
  rewrite F5 in D7. apply wp_bind.
  apply wp_mono with (Q := fun n' s3 => owned s3 (n' :: m :: ch ++ l) /\
    same s2 s3 (m :: ch ++ l) /\ mb_bytes s3 n' = mb_bytes s2 m /\
    has M_PKTHDR n' = true /\ m_pkthdr n' = m_pkthdr n1).
  { assert (length (mb_bytes s2 m) = length (mb_bytes s m)) as Hl2.
    { simpl in Hs2. apply same_cons in Hs2 as [[-> _] _]. done. }
    destruct (has M_EXT m) eqn:He; (eapply wp_mono; [eapply (m_copy_data_wp s2 n1 _ m (ch ++ l) 0); auto;
      cbn [m_len m_data upd]; try lia; try congruence |]).
    - intros n' s3 (W1 & W2 & W3 & W4 & W5 & _). cbn [m_len upd] in W3. rewrite drop_0, take_ge in W3 by lia.
      split_and!; auto. now rewrite W4.
    - intros _. pose proof (inline_len s m Hm He) as Hi. pose proof (ok_start _ _ Hm) as Hst.
      unfold m_start in *. rewrite D7, D8, He, Hh in *. simpl in *.
      pose proof (ok_end _ _ Hm). pose proof (ok_inline _ _ Hm He) as [Hiz _]. lia.
    - intros n' s3 (W1 & W2 & W3 & W4 & W5 & _). cbn [m_len upd] in W3. rewrite drop_0, take_ge in W3 by lia.
      split_and!; auto. now rewrite W4. }
  intros n' s3 (W1 & W2 & W3 & W4 & W5).
  eapply wp_mono; [apply (m_copypacket_loop_wp s3 ch (m :: l) [n']) |].
  { revert W1. apply owned_perm. solve_Permutation. }
  intros r s4 (I1 & [I2 [Im I3]%same_cons]%same_app & I4).
  assert (same s s3 (m :: ch ++ l)) as Hs3 by (eapply same_trans; eassumption).
  assert (owned s4 (r ++ (m :: ch) ++ l)) as Ho4 by (revert I1; apply owned_perm; solve_Permutation).
  pose proof Hs3 as [[Hb3 Hz3] [Hs3a Hs3b]%same_app]%same_cons. split_and!; auto.
  - eapply same_trans; [exact Hs3 |]. apply same_cons. split; [done |]. now apply same_app.
  - destruct I4 as [[-> Hmf] | (r' & -> & I5)]; [now left | right].
    assert (chain_bytes s4 ([n'] ++ r') = chain_bytes s (m :: ch)) as Hb.
    { rewrite I5, !chain_bytes_cons, chain_bytes_nil, app_nil_r, W3, (same_chain _ _ _ Hs3a).
      simpl in Hs2. now apply same_cons in Hs2 as [[-> _] _]. }
    split; [exact Hb |]. intros Hpk _. simpl in *. rewrite W5, D9, (Hpk Hh).
    apply (length_sum_chain s s4 _ _ l ((m :: ch) ++ l)); auto.
Qed.
End copies.
