(* ===== verification/MbufRebuild.v ===== *)
(** * Operations that rebuild mbuf chains

    [m_dup], [m_devget], [m_defrag], [m_collapse] and [m_copyback] of
    [uipc_mbuf.c]: the bytes are copied into fresh mbufs and clusters. *)

From stdpp Require Import gmap.
From S2P Require Import Prelude Mbuf MbufSpec MbufOps MbufCopy.

Section rebuild.
Context {P : Type} {MS : MbufSys P} {ML : MbufLaws P}.
Implicit Types (s : mstate P) (m n : mbuf) (ch l top : list mbuf).

(** Some mbufs of a live list, such as the rest of a chain being read. *)
Definition part_of ch l : Prop := forall m, m ∈ ch -> m ∈ l.

Lemma part_ok s ch l : part_of ch l -> owned s l -> Forall (mb_ok s) ch.
Proof.
  intros Hp [Ho _]. apply Forall_forall. intros m Hm. rewrite Forall_forall in Ho.
  apply Ho. apply list_elem_of_In. apply Hp. now apply list_elem_of_In.
Qed.

Lemma part_bytes s s' ch l : part_of ch l -> same s s' l -> chain_bytes s' ch = chain_bytes s ch.
Proof.
  intros Hp Hs. apply same_chain. unfold same in *. rewrite Forall_forall in *.
  intros m Hm. apply Hs. apply list_elem_of_In. apply Hp. now apply list_elem_of_In.
Qed.

Lemma part_refl ch : part_of ch ch.
Proof. intros m Hm. exact Hm. Qed.

Lemma head_refl n : head_of n n.
Proof. now repeat split. Qed.

Lemma part_tail m ch l : part_of (m :: ch) l -> part_of ch l.
Proof. intros H x Hx. apply H. now right. Qed.

(** An mbuf of any kind with an area of its own. *)
Definition is_blank s n (ext hdr : bool) (room : Z) : Prop :=
  ref_of s (m_sid n) <= 1 /\ m_len n = 0 /\ m_data n = m_start n /\
  has M_EXT n = ext /\ has M_PKTHDR n = hdr /\ m_data n + room <= st_size s (m_sid n) /\
  (ext = false -> st_size s (m_sid n) = MLEN).

Lemma m_getcl_wp s ty hdr l :
  owned s l ->
  wp (m_getcl ty hdr) (fun r s' => same s s' l /\
    match r with
    | None => owned s' l /\ may_fail
    | Some m => owned s' (m :: l) /\ is_blank s' m true hdr MCLBYTES
    end) s.
Proof.
  intros Ho. eapply wp_mono; [apply (law_get (fun ty => m_getcl ty hdr) true hdr ty s l); auto |].
  intros [m |] s' (H1 & _ & H3); [| tauto]. split_and!; [done | tauto |].
  destruct H3 as (H3 & H4 & H5 & H6 & H7 & H8 & H9 & H10 & _).
  unfold is_blank. rewrite H5, H6. unfold m_start. rewrite H9. simpl. split_and!; auto; try lia.
Qed.

Lemma is_fresh_blank s n hdr :
  is_fresh s n hdr -> is_blank s n false hdr (if hdr then MHLEN else MLEN).
Proof.
  intros Hf. pose proof (fresh_room _ _ _ Hf) as Hr. destruct Hf as (F1 & F2 & F3 & F4 & F5 & F6).
  unfold is_blank. rewrite F2. split_and!; auto; lia.
Qed.

(** *** [m_dup] *)

Lemma m_dup_fill_wp s n nsize ch moff remain l :
  owned s (n :: l) -> ref_of s (m_sid n) <= 1 -> part_of ch l ->
  0 <= m_len n <= nsize -> m_data n + nsize <= st_size s (m_sid n) ->
  Forall (fun m => 0 < m_len m) ch -> remain = sum_len ch - moff ->
  match ch with [] => moff = 0 | m :: _ => 0 <= moff < m_len m end ->
  wp (m_dup_fill n nsize ch moff remain) (fun r s' =>
    let '(n', ch', moff', remain') := r in
    owned s' (n' :: l) /\ same s s' l /\ head_of n n' /\ m_len n' <= nsize /\
    part_of ch' ch /\ Forall (fun m => 0 < m_len m) ch' /\ remain' = sum_len ch' - moff' /\
    match ch' with [] => moff' = 0 | m :: _ => 0 <= moff' < m_len m end /\
    m_len n' + remain' = m_len n + remain /\ (ch' = [] \/ m_len n' = nsize) /\
    mb_bytes s' n' ++ drop (Z.to_nat moff') (chain_bytes s ch') =
      mb_bytes s n ++ drop (Z.to_nat moff) (chain_bytes s ch)) s.
Proof.
  revert s n moff remain. induction ch as [| m ch IH];
    intros s n moff remain Ho Hr Hp Hn Hsz Hne Hrem Hoff; cbn [m_dup_fill];
    (destruct (Z.ltb_spec (m_len n) nsize) as [Hlt | Hge];
      [| apply wp_ret; split_and!; auto using same_refl, part_refl, head_refl; lia || (right; lia)]).
  { apply wp_ret. split_and!; auto using same_refl, part_refl, head_refl. lia. }
  apply Forall_cons_iff in Hne as [Hne1 Hne2]. rewrite sum_len_cons in Hrem.
  pose proof (part_ok s (m :: ch) l Hp (proj2 (owned_cons _ _ _ Ho))) as Hall.
  pose proof (sum_len_nonneg s ch ltac:(now apply Forall_cons_iff in Hall as [_ Hall])) as Hsn.
  set (chunk := Z.min (nsize - m_len n) (m_len m - moff)).
  apply wp_bind. unfold wp at 1. rewrite m_copydata_spec by (auto; rewrite ?sum_len_cons; lia).
  set (b := take (Z.to_nat chunk) _).
  pose proof (length_chain_bytes s (m :: ch) Hall) as Hlen. rewrite sum_len_cons in Hlen.
  assert (Z.of_nat (length b) = chunk) as Hb.
  { unfold b. rewrite length_take, length_drop. lia. }
  set (n1 := n <| m_len ::= Z.add chunk |>). apply wp_bind. eapply wp_mono.
  { apply (m_write_append s n n1 l b); auto; [lia |]. unfold n1. cbn [m_len upd]. lia. }
  intros ? s1 (W1 & W2 & W3 & W4).
  assert (m_len n1 = m_len n + chunk) as Hn1 by (unfold n1; cbn [m_len upd]; lia).
  assert (chain_bytes s1 (m :: ch) = chain_bytes s (m :: ch)) as Hcb by now apply (part_bytes s s1 _ l).
  destruct (Z.eqb_spec (moff + chunk) (m_len m)) as [Heq | Hne'].
  - eapply wp_mono.
    { apply (IH s1 n1 0 (remain - chunk)); auto.
      - unfold ref_of in *. now rewrite (sd_ref _ _ _ W4).
      - now apply part_tail in Hp.
      - lia.
      - rewrite (sd_size _ _ _ W4). exact Hsz.
      - lia.
      - destruct ch as [| m1 ch]; [done |]. apply Forall_cons_iff in Hne2 as [Hne2 _]. lia. }
    intros [[[n' ch'] moff'] remain'] s2 (I1 & I2 & I3 & I4 & I5 & I6 & I7 & I8 & I9 & I10 & I11).
    assert (same s s2 l) as Hs2 by (eapply same_trans; eassumption).
    assert (part_of ch' l) as Hp'.
    { intros x Hx. apply Hp. right. now apply I5. }
    split_and!; auto; [| lia |].
    + intros x Hx. right. now apply I5.
    + rewrite <- (part_bytes s s1 ch' l Hp' W2), I11, W3.
      rewrite (part_bytes s s1 ch l (part_tail _ _ _ Hp) W2), drop_0, <- app_assoc. f_equal.
      rewrite <- (take_drop (Z.to_nat chunk) (drop (Z.to_nat moff) (chain_bytes s (m :: ch)))).
      fold b. f_equal. rewrite drop_drop.
      replace (Z.to_nat moff + Z.to_nat chunk)%nat with (Z.to_nat (m_len m)) by lia.
      rewrite (drop_mb s m ch (m_len m)) by (lia || now apply Forall_cons_iff in Hall as [Hall _]).
      now rewrite Z.sub_diag.
  - apply wp_ret. split_and!; auto using part_refl; try lia;
      try (rewrite sum_len_cons; lia); try (now constructor).
    rewrite W3, <- app_assoc. f_equal.
    rewrite <- (take_drop (Z.to_nat chunk) (drop (Z.to_nat moff) (chain_bytes s (m :: ch)))).
    fold b. f_equal. rewrite drop_drop. f_equal. lia.
Qed.

Lemma m_dup_get_wp s m0 remain first l :
  owned s l -> has M_PKTHDR m0 = true ->
  wp (m_dup_get m0 remain first) (fun r s' => same s s' l /\
    match r with
    | None => owned s' l /\ may_fail
    | Some (false, n, _) => owned s' (n :: l) /\ may_fail
    | Some (true, n, nsize) =>
        owned s' (n :: l) /\ ref_of s' (m_sid n) <= 1 /\ m_len n = 0 /\ 0 < nsize /\
        m_data n + nsize <= st_size s' (m_sid n) /\
        (first = true -> has M_PKTHDR n = true /\ ph_len (m_pkthdr n) = ph_len (m_pkthdr m0))
    end) s.
Proof.
  intros Ho Hh. pose proof law_sizes as [Hsz1 Hsz2]. unfold m_dup_get. apply wp_bind.
  apply wp_mono with (Q := fun r s1 => same s s1 l /\
    match r with
    | None => owned s1 l /\ may_fail
    | Some n => owned s1 (n :: l) /\ exists ext, is_blank s1 n ext false (if ext then MCLBYTES else MLEN) /\
                ext = (MINCLSIZE <=? remain)
    end).
  { destruct (MINCLSIZE <=? remain).
    - eapply wp_mono; [apply (m_getcl_wp s _ false l Ho) |]. intros [n |] s1 [H1 H2]; split; auto.
      destruct H2. split; auto. now exists true.
    - eapply wp_mono; [apply (m_get_wp s _ l Ho) |]. intros [n |] s1 (H1 & _ & H2); split; auto.
      destruct H2 as (H2 & H3 & _). split; auto. exists false. split; [now apply is_fresh_blank in H3 | done]. }
  intros [n |] s1 [H1 H2]; [| now apply wp_ret].
  destruct H2 as (H2 & ext & (B1 & B2 & B3 & B4 & B5 & B6 & B7) & He). rewrite <- He.
  apply wp_bind. destruct first.
  - eapply wp_mono; [apply (m_dup_pkthdr_wp s1 n m0 l); auto; intros; apply B7; congruence |].
    intros [ok n'] s2 (D1 & D2 & D3 & D4 & D5 & D6 & D7 & D8 & D9 & D10). cbn [fst snd] in *.
    assert (same s s2 l) as Hs by (eapply same_trans; [exact H1 | now apply same_mem]).
    destruct ok; apply wp_ret; split; auto. cbn [andb].
    set (n1 := n' <| m_flags ::= fl_clear_rdonly |> <| m_len := 0 |>).
    assert (owned s2 (n1 :: l)) as Ho1.
    { apply (owned_replace s2 n'); auto. apply (mb_ok_flags s2 n'); auto. now apply owned_ok in D1. }
    split_and!; auto; try (destruct (has M_EXT n'); simpl; destruct ext; lia).
    + change (m_sid n1) with (m_sid n'). unfold ref_of in *. now rewrite D3, D4.
    + change (m_sid n1) with (m_sid n'). change (m_data n1) with (m_data n').
      unfold st_size in *. rewrite D2, D4, D6. unfold m_start in *. rewrite D7, D8, B4 in *. rewrite B5 in B3.
      destruct ext; simpl in *; [lia |]. rewrite B3 in B6. specialize (B7 eq_refl).
      unfold PKTDAT. lia.
  - apply wp_ret, wp_ret. split; auto. cbn [andb].
    assert (n <| m_len := 0 |> = n) as -> by (rewrite <- B2; now destruct n).
    split_and!; auto; try done; destruct ext; lia.
Qed.

(** Bytes are left exactly when mbufs are. *)
Lemma remain_facts s ch moff :
  Forall (mb_ok s) ch -> Forall (fun m => 0 < m_len m) ch ->
  match ch with [] => moff = 0 | m :: _ => 0 <= moff < m_len m end ->
  0 <= sum_len ch - moff /\ (sum_len ch - moff = 0 <-> ch = []).
Proof.
  intros Hall Hne Hoff. destruct ch as [| m ch]; [rewrite sum_len_nil; split; [lia | split; [done | lia]] |].
  apply Forall_cons_iff in Hall as [_ Hall]. pose proof (sum_len_nonneg s ch Hall).
  rewrite sum_len_cons. split; [lia | split; [lia | done]].
Qed.

Lemma m_dup_loop_wp fuel s m0 ch moff remain top l :
  owned s (top ++ l) -> has M_PKTHDR m0 = true -> part_of ch l ->
  Forall (fun m => 0 < m_len m) ch -> remain = sum_len ch - moff ->
  match ch with [] => moff = 0 | m :: _ => 0 <= moff < m_len m end ->
  (Z.to_nat remain + (match top with [] => 1 | _ => 0 end) <= fuel)%nat ->
  wp (m_dup_loop fuel m0 ch moff remain top) (fun r s' =>
    owned s' (r ++ l) /\ same s s' l /\
    (r = [] /\ may_fail \/ chain_bytes s' r = chain_bytes s top ++ drop (Z.to_nat moff) (chain_bytes s ch)) /\
    match r with
    | n :: _ => match top with
                | t :: _ => n = t
                | [] => has M_PKTHDR n = true /\ ph_len (m_pkthdr n) = ph_len (m_pkthdr m0)
                end
    | [] => True
    end) s.
Proof.
  revert s ch moff remain top. induction fuel as [| fuel IH];
    intros s ch moff remain top Ho Hh Hp Hne Hrem Hoff Hf; cbn [m_dup_loop];
    pose proof (remain_facts s ch moff (part_ok s ch l Hp (owned_app_r _ _ _ Ho)) Hne Hoff) as [Hr0 Hrz];
    rewrite <- Hrem in Hr0, Hrz; set (first := match top with [] => true | _ => false end);
    (destruct ((0 <? remain) || first) eqn:Eg;
      [| apply orb_false_elim in Eg as [Eg1 Eg2]; apply Z.ltb_ge in Eg1;
         destruct top as [| t top]; [done |]; apply wp_ret; rewrite (proj1 Hrz ltac:(lia));
         split_and!; auto using same_refl; right; now rewrite chain_bytes_nil, drop_nil, app_nil_r]).
  { exfalso. destruct top; [lia |]. unfold first in Eg. rewrite orb_false_r in Eg.
    apply Z.ltb_lt in Eg. lia. }
  apply wp_bind. eapply wp_mono; [apply (m_dup_get_wp s m0 remain first (top ++ l)); auto |].
  intros [[[[|] n] nsize] |] s1 ([G1 G2]%same_app & G3).
  - destruct G3 as (G3 & N1 & N2 & N3 & N4 & N5). apply wp_bind. eapply wp_mono.
    { apply (m_dup_fill_wp s1 n nsize ch moff remain (top ++ l)); auto; [| lia].
      intros x Hx. apply elem_of_app. right. now apply Hp. }
    intros [[[n' ch'] moff'] remain'] s2
      (F1 & [F2 F3]%same_app & F4 & F5 & F6 & F7 & F8 & F9 & F10 & F11 & F12).
    assert (part_of ch' l) as Hp' by (intros x Hx; now apply Hp, F6).
    pose proof (part_ok s2 ch' l Hp' (owned_app_r _ _ _ (proj2 (owned_cons _ _ _ F1)))) as Hall'.
    pose proof (remain_facts s2 ch' moff' Hall' F7 F9) as [Hr1 Hr2]. rewrite <- F8 in Hr1, Hr2.
    apply wp_bind, wp_kassert.
    { destruct ch' as [| x ch']; [rewrite (proj2 Hr2); done |].
      rewrite (proj2 (Z.ltb_lt 0 remain')); [done |]. destruct (Z.eq_dec remain' 0); [now apply Hr2 in e | lia]. }
    eapply wp_mono.
    { apply (IH s2 ch' moff' remain' (top ++ [n'])); auto.
      - revert F1. apply owned_perm. solve_Permutation.
      - destruct (top ++ [n']) eqn:E; [now destruct top |].
        destruct F11 as [-> | F11]; [rewrite sum_len_nil in F8; destruct top; simpl in Hf; lia |].
        destruct top; simpl in Hf; lia. }
    intros r s3 (I1 & I2 & I3 & I4). split_and!; auto.
    + eapply same_trans; [exact G2 |]. eapply same_trans; eassumption.
    + destruct I3 as [[-> Hmf] | I3]; [now left | right].
      rewrite I3, chain_bytes_app, chain_bytes_cons, chain_bytes_nil, app_nil_r, <- app_assoc.
      rewrite (same_chain _ _ _ F2), (same_chain _ _ _ G1). f_equal.
      rewrite (part_bytes s1 s2 ch' l Hp' F3), F12, (mb_bytes_0 s1 n N2).
      now rewrite (part_bytes s s1 ch l Hp G2).
    + destruct r as [| x r]; [done |]. destruct top as [| t top]; [| exact I4].
      simpl in I4. subst x. destruct (N5 eq_refl) as [N6 N7].
      destruct F4 as (_ & _ & F4 & F4'). unfold has in *. now rewrite F4, F4'.
  - destruct G3 as [G3 Hmf]. apply wp_bind. eapply wp_mono; [apply (law_free n s1 (top ++ l)); exact G3 |].
    intros ? s2 (K1 & [_ K2]%same_app & _). apply wp_bind.
    eapply wp_mono; [apply (law_freem top s2 l); exact K1 |].
    intros ? s3 (K3 & K4 & _). apply wp_ret. split_and!; auto.
    eapply same_trans; [exact G2 |]. eapply same_trans; eassumption.
  - destruct G3 as [G3 Hmf]. apply wp_bind. eapply wp_mono; [apply (law_freem top s1 l); exact G3 |].
    intros ? s2 (K1 & K2 & _). apply wp_ret. split_and!; auto. eapply same_trans; eassumption.
Qed.

Lemma m_dup_wp s m0 ch l :
  owned s ((m0 :: ch) ++ l) -> has M_PKTHDR m0 = true -> pktlen_ok (m0 :: ch) ->
  Forall (fun m => 0 < m_len m) (m0 :: ch) ->
  wp (m_dup (m0 :: ch)) (fun r s' =>
    owned s' (r ++ (m0 :: ch) ++ l) /\ same s s' ((m0 :: ch) ++ l) /\
    (r = [] /\ may_fail \/ chain_bytes s' r = chain_bytes s (m0 :: ch) /\ pktlen_ok r)) s.
Proof.
  intros Ho Hh Hpk Hne. unfold m_dup. apply wp_bind, wp_kassert; [done |]. cbn zeta.
  pose proof (owned_forall_ok _ _ _ Ho) as Hall.
  pose proof (sum_len_nonneg s _ Hall). rewrite (Hpk Hh). eapply wp_mono.
  { apply (m_dup_loop_wp _ s m0 (m0 :: ch) 0 (sum_len (m0 :: ch)) [] ((m0 :: ch) ++ l)); auto; try lia.
    - intros x Hx. apply elem_of_app. now left.
    - apply Forall_cons_iff in Hne as [Hne _]. lia. }
  intros r s' (H1 & H2 & H3 & H4). split_and!; auto.
  destruct H3 as [H3 | H3]; [now left | right]. rewrite chain_bytes_nil, drop_0 in H3.
  split; [exact H3 |]. destruct r as [| n r]; [done |]. intros _. destruct H4 as [_ ->].
  rewrite (Hpk Hh). symmetry. apply (length_sum_chain s' s _ _ ((m0 :: ch) ++ l) l); auto.
Qed.

(** *** [m_devget] *)

(** A blank mbuf, its data pointer moved up by [skip], gets its bytes. *)
Lemma blank_fill_wp s m n l ext hdr room skip src :
  owned s (m :: l) -> is_blank s m ext hdr room -> 0 <= skip ->
  m_sid n = m_sid m -> m_data n = skip + m_data m -> has M_EXT n = ext -> has M_PKTHDR n = hdr ->
  m_len n = Z.of_nat (length src) -> skip + Z.of_nat (length src) <= room ->
  wp (m_write n 0 src) (fun _ s' =>
    owned s' (n :: l) /\ same s s' l /\ mb_bytes s' n = src) s.
Proof.
  intros Ho (B1 & B2 & B3 & B4 & B5 & B6 & B7) Hsk Hs Hd He Hp Hl Hroom.
  pose proof (owned_ok _ _ _ Ho) as Hm. pose proof (ok_start _ _ Hm) as Hst.
  assert (m_start n = m_start m) as Hstn by (apply m_start_ext; congruence).
  set (m' := m <| m_data ::= Z.add skip |>).
  assert (owned s (m' :: l)) as Ho'.
  { apply (owned_replace s m); auto. apply (mb_ok_narrow s m); auto; unfold m'; cbn [m_len m_data upd]; try lia.
    change (0 <= m_start m <= skip + m_data m). lia. }
  eapply wp_mono.
  { apply (fill_wp s m' n l src); auto; [exact (eq_trans He (eq_sym B4)) |].
    change (m_sid m') with (m_sid m). unfold m'. cbn [m_data upd]. lia. }
  intros ? s' (W1 & W2 & W3 & _). now split_and!.
Qed.

Lemma m_devget_get_wp s (cl first : bool) l :
  owned s l ->
  wp (if cl then m_getcl MT_DATA first
      else if first then m_gethdr MT_DATA else m_get MT_DATA) (fun r s' => same s s' l /\
    match r with
    | None => owned s' l /\ may_fail
    | Some m => owned s' (m :: l) /\
        is_blank s' m cl first (if cl then MCLBYTES else if first then MHLEN else MLEN)
    end) s.
Proof.
  intros Ho. destruct cl; [now apply m_getcl_wp |]. destruct first.
  - eapply wp_mono; [apply (m_gethdr_wp s MT_DATA l Ho) |].
    intros [m |] s' (H1 & _ & H2); split; auto. destruct H2 as (H2 & H3 & _).
    split; [done |]. now apply is_fresh_blank in H3.
  - eapply wp_mono; [apply (m_get_wp s MT_DATA l Ho) |].
    intros [m |] s' (H1 & _ & H2); split; auto. destruct H2 as (H2 & H3 & _).
    split; [done |]. now apply is_fresh_blank in H3.
Qed.

Lemma m_devget_setup_spec s (first cl : bool) ifp totlen off m :
  is_blank s m cl first (if cl then MCLBYTES else if first then MHLEN else MLEN) ->
  0 <= off <= MHLEN -> (first = false -> off = 0) -> 0 < totlen ->
  let n := m_devget_setup first cl ifp totlen off m in
  exists skip, 0 <= skip /\ m_sid n = m_sid m /\ m_data n = skip + m_data m /\
    has M_EXT n = cl /\ has M_PKTHDR n = first /\ 0 <= m_len n <= totlen /\
    skip + m_len n <= (if cl then MCLBYTES else if first then MHLEN else MLEN) /\
    (first = false -> 0 < m_len n) /\ (first = true -> ph_len (m_pkthdr n) = totlen).
Proof.
  intros (B1 & B2 & B3 & B4 & B5 & B6 & B7) Hoff Htop Hpos. cbn zeta.
  pose proof law_sizes as [Hz1 Hz2]. pose proof law_headroom as [_ Hlh].
  unfold m_devget_setup. cbn zeta.
  set (shift := first && negb cl && (totlen + off + max_linkhdr <=? MHLEN)).
  assert (shift = true -> first = true /\ cl = false /\ totlen + off + max_linkhdr <= MHLEN) as Hsh.
  { unfold shift. intros E. apply andb_prop in E as [E1 E3]. apply andb_prop in E1 as [E1 E2].
    apply negb_true_iff in E2. now apply Z.leb_le in E3. }
  exists (off + if shift then max_linkhdr else 0).
  destruct shift.
  - destruct (Hsh eq_refl) as (-> & -> & Hle). clear Hsh.
    destruct (Z.eqb_spec off 0); cbn [negb]; unfold has in *;
      cbn [m_sid m_data m_len m_flags m_pkthdr ph_len upd]; split_and!; auto; lia || done.
  - clear Hsh. assert (off <= (if cl then MCLBYTES else if first then MHLEN else MLEN)) as Hle.
    { destruct cl, first; lia. }
    destruct (Z.eqb_spec off 0); cbn [negb]; destruct first; unfold has in *;
      cbn [m_sid m_data m_len m_flags m_pkthdr ph_len upd];
      split_and!; auto; try lia; try done; destruct cl; try lia; specialize (Htop eq_refl); lia.
Qed.

Lemma m_devget_loop_wp fuel s ifp buf off top l :
  owned s (top ++ l) -> 0 <= off <= MHLEN -> (top <> [] -> off = 0) ->
  (length buf + (match top with [] => 1 | _ => 0 end) <= fuel)%nat ->
  wp (m_devget_loop fuel None ifp buf off top) (fun r s' =>
    owned s' (r ++ l) /\ same s s' l /\
    (r = [] /\ may_fail \/ chain_bytes s' r = chain_bytes s top ++ buf) /\
    match r with
    | n :: _ => match top with
                | t :: _ => n = t
                | [] => has M_PKTHDR n = true /\ ph_len (m_pkthdr n) = Z.of_nat (length buf)
                end
    | [] => True
    end) s.
Proof.
  revert s buf off top. induction fuel as [| fuel IH]; intros s buf off top Ho Hoff Htop Hf;
    (destruct buf as [| c buf];
      [apply wp_ret; split_and!; auto using same_refl; [right; now rewrite app_nil_r | now destruct top] |]);
    [simpl in Hf; lia |].
  cbn [m_devget_loop]. set (b := c :: buf) in *. set (totlen := Z.of_nat (length b)).
  assert (0 < totlen) as Hpos by (unfold totlen, b; simpl; lia).
  rewrite (proj2 (Z.ltb_lt 0 totlen)) by exact Hpos. cbn zeta.
  set (first := match top with [] => true | _ => false end).
  set (cl := MINCLSIZE <=? totlen + off). apply wp_bind.
  eapply wp_mono; [apply (m_devget_get_wp s cl first (top ++ l) Ho) |].
  intros [m |] s1 ([G1 G2]%same_app & G3).
  - destruct G3 as [G3 Hb].
    destruct (m_devget_setup_spec s1 first cl ifp totlen off m Hb Hoff) as
      (skip & S1 & S2 & S3 & S4 & S5 & S6 & S7 & S8 & S9); auto.
    { unfold first. intros E. apply Htop. now destruct top. }
    set (n := m_devget_setup first cl ifp totlen off m) in *. set (k := Z.to_nat (m_len n)).
    assert (Z.of_nat (length (take k b)) = m_len n) as Hk.
    { rewrite length_take. unfold k. unfold totlen in S6. lia. }
    apply wp_bind. eapply wp_mono.
    { apply (blank_fill_wp s1 m n (top ++ l) cl first _ skip (take k b) G3 Hb); auto. lia. }
    intros ? s2 (W1 & [W2 W3]%same_app & W4). eapply wp_mono.
    { apply (IH s2 (drop k b) 0 (top ++ [n])); [| lia | done |].
      - revert W1. apply owned_perm. solve_Permutation.
      - destruct (top ++ [n]) eqn:E; [now destruct top |]. rewrite length_drop. unfold k, first in *.
        destruct top; [lia |]. specialize (S8 eq_refl). unfold totlen in *. lia. }
    intros r s3 (I1 & I2 & I3 & I4). split_and!; auto.
    + eapply same_trans; [exact G2 |]. eapply same_trans; eassumption.
    + destruct I3 as [[-> Hmf] | I3]; [now left | right].
      rewrite I3, chain_bytes_app, chain_bytes_cons, chain_bytes_nil, app_nil_r, W4, <- app_assoc.
      rewrite take_drop, (same_chain _ _ _ W2). now rewrite (same_chain _ _ _ G1).
    + destruct r as [| x r]; [done |]. destruct top as [| t top]; [| exact I4].
      simpl in I4. subst x. split; [exact S5 | now apply S9].
  - destruct G3 as [G3 Hmf]. unfold first. destruct top as [| t top]; [apply wp_ret; split_and!; auto |].
    apply wp_bind. eapply wp_mono; [apply (law_freem (t :: top) s1 l); exact G3 |].
    intros ? s2 (K1 & K2 & _). apply wp_ret. split_and!; auto. eapply same_trans; eassumption.
Qed.

Lemma m_devget_wp s buf off ifp l :
  owned s l ->
  wp (m_devget buf off ifp None) (fun r s' =>
    owned s' (r ++ l) /\ same s s' l /\
    (r = [] /\ (may_fail \/ off < 0 \/ MHLEN < off) \/
     chain_bytes s' r = buf /\ pktlen_ok r /\ match r with n :: _ => has M_PKTHDR n = true | [] => True end)) s.
Proof.
  intros Ho. unfold m_devget. destruct ((off <? 0) || (MHLEN <? off)) eqn:E.
  { apply wp_ret. split_and!; auto using same_refl. left. split; [done | right].
    apply orb_prop in E as [E | E]; apply Z.ltb_lt in E; auto. }
  apply orb_false_elim in E as [E1 E2]. apply Z.ltb_ge in E1, E2. eapply wp_mono.
  { apply (m_devget_loop_wp (S (length buf)) s ifp buf off [] l); auto; [done | lia]. }
  intros r s' (H1 & H2 & H3 & H4). split_and!; auto.
  destruct H3 as [[H3 Hmf] | H3]; [left; auto | right]. rewrite chain_bytes_nil in H3. simpl in H3.
  destruct r as [| n r]; [now split_and! |]. destruct H4 as [H4 H5]. split_and!; auto.
  intros _. rewrite H5, <- H3. apply length_chain_bytes. now apply owned_forall_ok in H1.
Qed.

(** *** [m_defrag] *)

(** The next [length] bytes of the source chain, put into a blank mbuf. *)
Lemma defrag_fill_wp s (m0 L : list mbuf) m ext hdr room progress len :
  owned s (m :: L) -> part_of m0 L -> is_blank s m ext hdr room -> len <= room ->
  0 <= progress -> 0 <= len -> progress + len <= sum_len m0 ->
  wp (let* b := m_copydata m0 progress len in m_write m 0 b) (fun _ s' =>
    owned s' (m <| m_len := len |> :: L) /\ same s s' L /\
    mb_bytes s' (m <| m_len := len |>) =
      take (Z.to_nat len) (drop (Z.to_nat progress) (chain_bytes s m0))) s.
Proof.
  intros Ho Hp Hb Hroom Hpr Hl Hle.
  pose proof (part_ok s m0 L Hp (proj2 (owned_cons _ _ _ Ho))) as Hall.
  pose proof (length_chain_bytes s m0 Hall) as Hlen.
  apply wp_bind. unfold wp at 1. rewrite m_copydata_spec by (done || lia).
  change (m_write m 0) with (@m_write P (m <| m_len := len |>) 0).
  pose proof Hb as (B1 & B2 & B3 & B4 & B5 & B6 & B7). eapply wp_mono.
  { apply (blank_fill_wp s m (m <| m_len := len |>) L ext hdr room 0); auto;
      rewrite ?length_take, ?length_drop; cbn [m_len upd]; try lia. }
  intros ? s' (W1 & W2 & W3). now split_and!.
Qed.

Lemma m_defrag_loop_wp fuel s (m0 : list mbuf) total progress final (L : list mbuf) :
  owned s (final ++ L) -> final <> [] -> part_of m0 L -> total = sum_len m0 ->
  0 <= progress <= total -> (Z.to_nat (total - progress) <= fuel)%nat ->
  wp (m_defrag_loop fuel m0 total progress final None) (fun r s' =>
    owned s' (r ++ L) /\ same s s' L /\
    (r = [] /\ may_fail \/ r <> [] /\
     chain_bytes s' r = chain_bytes s final ++ drop (Z.to_nat progress) (chain_bytes s m0)) /\
    match r, final with
    | n :: _, f :: _ => m_flags n = m_flags f /\ m_pkthdr n = m_pkthdr f
    | _, _ => True
    end) s.
Proof.
  pose proof law_sizes as [Hz1 Hz2]. revert s progress final.
  induction fuel as [| fuel IH]; intros s progress final Ho Hne Hp Htot Hpr Hf;
    pose proof (length_chain_bytes s m0 (part_ok s m0 L Hp (owned_app_r _ _ _ Ho))) as Hlen;
    cbn [m_defrag_loop];
    (destruct (Z.ltb_spec progress total) as [Hlt | Hge];
      [| apply wp_ret; split_and!; auto using same_refl;
         [right; rewrite drop_ge by lia; now rewrite app_nil_r | now destruct final]]); [lia |].
  cbn zeta. set (len := Z.min (total - progress) MCLBYTES). apply wp_bind.
  apply wp_mono with (Q := fun r s1 => same s s1 (final ++ L) /\
    match r with
    | None => owned s1 (final ++ L) /\ may_fail
    | Some m => owned s1 (m :: final ++ L) /\ exists ext room, is_blank s1 m ext false room /\ len <= room
    end).
  { destruct (Z.ltb_spec MLEN len).
    - eapply wp_mono; [apply (m_getcl_wp s MT_DATA false _ Ho) |].
      intros [m |] s1 [H1 H2]; split; auto. destruct H2. split; auto. exists true, MCLBYTES. split; [done | lia].
    - eapply wp_mono; [apply (m_get_wp s MT_DATA _ Ho) |].
      intros [m |] s1 (H1 & _ & H2); split; auto. destruct H2 as (H2 & H3 & _). split; auto.
      exists false, MLEN. split; [now apply is_fresh_blank in H3 | lia]. }
  intros [m |] s1 ([G1 G2]%same_app & G3).
  2: { destruct G3 as [G3 Hmf]. apply wp_bind. eapply wp_mono; [apply (law_freem final s1 L); exact G3 |].
       intros ? s2 (K1 & K2 & _). apply wp_ret. split_and!; auto. eapply same_trans; eassumption. }
  destruct G3 as (G3 & ext & room & Hb & Hroom).
  pose proof (defrag_fill_wp s1 m0 (final ++ L) m ext false room progress len G3) as Hw.
  specialize (Hw ltac:(intros x Hx; apply elem_of_app; right; now apply Hp) Hb Hroom).
  specialize (Hw ltac:(lia) ltac:(lia) ltac:(lia)). unfold wp at 1 in Hw. unfold bind at 1 in Hw.
  apply wp_bind. unfold wp at 1. destruct (m_copydata m0 progress len s1) as [[b s1'] |]; [| done].
  apply wp_bind. eapply wp_mono; [exact Hw |]. set (m' := m <| m_len := len |>).
  intros ? s2 (W1 & [W2 W3]%same_app & W4). apply wp_bind. eapply wp_mono.
  { apply (m_cat_wp s2 final [m'] L); [done |]. revert W1. apply owned_perm. simpl. solve_Permutation. }
  intros final' s3 (C1 & C2 & C3 & C4).
  assert (final' <> []) as Hne' by (destruct final' as [| ? ?]; [now destruct final | done]).
  eapply wp_mono; [apply (IH s3 (progress + len) final'); auto; lia |].
  assert (same s s3 L) as Hs3.
  { eapply same_trans; [exact G2 |]. eapply same_trans; eassumption. }
  intros r s4 (I1 & I2 & I3 & I4). split_and!; auto.
  - eapply same_trans; eassumption.
  - destruct I3 as [[-> Hmf] | [Hnr I3]]; [now left | right; split; [done |]].
    rewrite I3, C3, chain_bytes_cons, chain_bytes_nil, app_nil_r, W4, <- app_assoc.
    rewrite (same_chain _ _ _ W2), (same_chain _ _ _ G1). f_equal.
    rewrite (part_bytes s s3 m0 L Hp Hs3), (part_bytes s s1 m0 L Hp G2).
    replace (Z.to_nat (progress + len)) with (Z.to_nat progress + Z.to_nat len)%nat by lia.
    rewrite <- drop_drop. apply take_drop.
  - destruct r as [| x r]; [done |]. destruct final' as [| y final']; [done |].
    destruct final as [| z final]; [done |]. destruct I4, C4. split; congruence.
Qed.

(** The mbuf the new chain starts with, for [total] bytes. *)
Lemma m_defrag_first_wp s m total l :
  owned s l -> has M_PKTHDR m = true ->
  wp (m_defrag_first m total) (fun r s' => same s s' l /\
    match r with
    | None => owned s' l /\ may_fail
    | Some (ok, n) => (ok = false -> may_fail) /\ owned s' (n :: l) /\
        (exists ext room, is_blank s' n ext true room /\ Z.min total MCLBYTES <= room) /\
        ph_len (m_pkthdr n) = ph_len (m_pkthdr m)
    end) s.
Proof.
  intros Ho Hh. pose proof law_sizes as [Hz1 Hz2]. apply wp_bind.
  apply wp_mono with (Q := fun r s1 => same s s1 l /\
    match r with
    | None => owned s1 l /\ may_fail
    | Some n => owned s1 (n :: l) /\ exists ext room, is_blank s1 n ext true room /\ Z.min total MCLBYTES <= room /\
        (if ext then room = MCLBYTES else room = MHLEN)
    end).
  { destruct (Z.ltb_spec MHLEN total).
    - eapply wp_mono; [apply (m_getcl_wp s MT_DATA true l Ho) |]. intros [n |] s1 [H1 H2]; split; auto.
      destruct H2. split; auto. exists true, MCLBYTES. split_and!; auto. lia.
    - eapply wp_mono; [apply (m_gethdr_wp s MT_DATA l Ho) |]. intros [n |] s1 (H1 & _ & H2); split; auto.
      destruct H2 as (H2 & H3 & _). split; auto. exists false, MHLEN.
      split_and!; [now apply is_fresh_blank in H3 | lia | done]. }
  intros [n |] s1 [H1 H2]; [| now apply wp_ret].
  destruct H2 as (H2 & ext & room & (B1 & B2 & B3 & B4 & B5 & B6 & B7) & Hroom & Hr). apply wp_bind.
  eapply wp_mono; [apply (m_dup_pkthdr_wp s1 n m l); auto; intros; apply B7; congruence |].
  intros [ok n'] s2 (D1 & D2 & D3 & D4 & D5 & D6 & D7 & D8 & D9 & D10). cbn [fst snd] in *. apply wp_ret.
  split_and!; auto; [eapply same_trans; [exact H1 | now apply same_mem] |].
  exists ext, room. split; [| done]. unfold is_blank, ref_of, st_size in *. rewrite D2, D3, D4, D6.
  assert (m_start n' = m_start n) as Hst by (apply m_start_ext; congruence).
  rewrite Hst, <- B3. split_and!; auto. congruence.
Qed.

(** The loop from its first round on, which fills the mbuf with the header. *)
Lemma m_defrag_rounds_wp s (m0 : list mbuf) final ext room total L :
  owned s (final :: L) -> part_of m0 L -> total = sum_len m0 -> 0 <= total ->
  is_blank s final ext true room -> Z.min total MCLBYTES <= room ->
  wp (m_defrag_loop (Z.to_nat total) m0 total 0 [final] (Some final)) (fun r s' =>
    owned s' (r ++ L) /\ same s s' L /\ (r = [] /\ may_fail \/ r <> [] /\ chain_bytes s' r = chain_bytes s m0) /\
    match r with n :: _ => m_pkthdr n = m_pkthdr final | [] => True end) s.
Proof.
  intros Ho Hp Htot Hnn Hb Hroom. pose proof law_sizes as [Hz1 Hz2].
  pose proof Hb as (_ & B2 & _).
  pose proof (length_chain_bytes s m0 (part_ok s m0 L Hp (proj2 (owned_cons _ _ _ Ho)))) as Hlen.
  destruct (Z.to_nat total) as [| fuel] eqn:Ef; cbn [m_defrag_loop].
  { assert (total = 0) as Hz by lia. rewrite (proj2 (Z.ltb_ge 0 total)) by lia. apply wp_ret.
    split_and!; auto using same_refl. right. split; [done |]. rewrite chain_bytes_cons, (mb_bytes_0 s final B2).
    destruct (chain_bytes s m0); [done | simpl in Hlen; lia]. }
  rewrite (proj2 (Z.ltb_lt 0 total)) by lia. cbn zeta. rewrite Z.sub_0_r.
  set (len := Z.min total MCLBYTES). apply wp_bind, wp_ret. apply wp_bind. unfold wp at 1.
  pose proof (defrag_fill_wp s m0 L final ext true room 0 len Ho Hp Hb Hroom) as Hw.
  specialize (Hw ltac:(lia) ltac:(lia) ltac:(lia)). unfold wp at 1 in Hw. unfold bind at 1 in Hw.
  destruct (m_copydata m0 0 len s) as [[b s1] |]; [| done]. apply wp_bind.
  eapply wp_mono; [exact Hw |]. intros ? s2 (W1 & W2 & W3). apply wp_bind, wp_ret.
  eapply wp_mono; [apply (m_defrag_loop_wp fuel s2 m0 total (0 + len) _ L); auto; lia || done |].
  intros r s3 (I1 & I2 & I3 & I4). split_and!; auto; [eapply same_trans; eassumption | |].
  - destruct I3 as [[-> Hmf] | [Hnr I3]]; [now left | right; split; [done |]].
    rewrite I3, chain_bytes_cons, chain_bytes_nil, app_nil_r, W3, drop_0, Z.add_0_l.
    rewrite (part_bytes s s2 m0 L Hp W2). apply take_drop.
  - destruct r as [| n r]; [done |]. now destruct I4 as [_ ->].
Qed.

Lemma m_defrag_wp s (m0 : list mbuf) l :
  owned s (m0 ++ l) -> m0 <> [] -> sum_len m0 < 2 ^ 32 ->
  wp (m_defrag m0) (fun r s' =>
    owned s' (r.1 ++ r.2 ++ l) /\ same s s' l /\
    match r.1 with
    | [] => chain_bytes s' r.2 = chain_bytes s m0 /\ may_fail /\ pktlen_ok r.2
    | n :: _ => chain_bytes s' r.1 = chain_bytes s m0 /\ r.2 = [] /\
        (pktlen_ok m0 -> pktlen_ok r.1)
    end) s.
Proof.
  intros Ho Hne Hlt. destruct m0 as [| m ch]; [done |]. clear Hne. unfold m_defrag.
  destruct (has M_PKTHDR m) eqn:Hh; cbn [negb]; [| now apply wp_ret; split_and!; auto using same_refl].
  pose proof (owned_forall_ok _ _ _ Ho) as Hall. pose proof (sum_len_nonneg s _ Hall) as Hnn.
  apply wp_bind, wp_bind, wp_kassert; [done |]. apply wp_ret. rewrite (m_length_sum s _ Hall Hlt).
  set (total := sum_len (m :: ch)) in *.
  set (m' := m <| m_pkthdr ::= fun h => h <| ph_len := total |> |>).
  assert (owned s ((m' :: ch) ++ l)) as Ho'.
  { simpl. apply (owned_replace s m); auto. apply (mb_ok_flags s m); auto. now apply owned_ok in Ho. }
  assert (chain_bytes s (m' :: ch) = chain_bytes s (m :: ch)) as Hb' by done.
  apply wp_bind. eapply wp_mono; [apply (m_defrag_first_wp s m' total ((m' :: ch) ++ l)); auto |].
  intros on s1 (G1 & G2). pose proof G1 as [G1a G1b]%same_app.
  assert (forall s2, may_fail -> same s1 s2 ((m' :: ch) ++ l) -> owned s2 ((m' :: ch) ++ l) ->
    owned s2 ([] ++ (m' :: ch) ++ l) /\ same s s2 l /\
    chain_bytes s2 (m' :: ch) = chain_bytes s (m :: ch) /\ may_fail /\ pktlen_ok (m' :: ch)) as Hnull.
  { intros s2 Hmf [Ha Hc]%same_app Hd. split_and!; auto; [eapply same_trans; eassumption | | done].
    rewrite (same_chain _ _ _ Ha). now rewrite (same_chain _ _ _ G1a). }
  destruct on as [[[|] final] |].
  - destruct G2 as (_ & G2 & (ext & room & Hb & Hroom) & Hlen). apply wp_bind. eapply wp_mono.
    { apply (m_defrag_rounds_wp s1 (m' :: ch) final ext room total ((m' :: ch) ++ l)); auto.
      intros x Hx. apply elem_of_app. now left. }
    intros r s2 (I1 & I2 & I3 & I4). destruct r as [| n r].
    { apply wp_ret. destruct I3 as [[_ Hmf] | [? _]]; [now apply Hnull | done]. }
    destruct I3 as [[? _] | [_ I3]]; [done |]. apply wp_bind. eapply wp_mono.
    { apply (law_freem (m' :: ch) s2 ((n :: r) ++ l)). revert I1. apply owned_perm. solve_Permutation. }
    intros ? s3 (K1 & [K2 K3]%same_app & _). apply wp_ret. cbn [fst snd].
    assert (chain_bytes s3 (n :: r) = chain_bytes s (m :: ch)) as Hb3.
    { rewrite (same_chain _ _ _ K2), I3. now rewrite (same_chain _ _ _ G1a). }
    split_and!; auto.
    + apply same_app in I2 as [_ I2]. eapply same_trans; [exact G1b |]. eapply same_trans; eassumption.
    + intros _ _. rewrite I4, Hlen. cbn [m_pkthdr ph_len upd m'].
      change (ph_len (m_pkthdr m')) with total. unfold total. symmetry.
      apply (length_sum_chain s3 s _ _ l l); auto.
  - destruct G2 as (Hmf & G2 & _). apply wp_bind.
    eapply wp_mono; [apply (law_freem [final] s1 ((m' :: ch) ++ l)); exact G2 |].
    intros ? s2 (K1 & K2 & _). apply wp_ret. apply Hnull; auto.
  - destruct G2 as [G2 Hmf]. apply wp_ret. apply Hnull; auto using same_refl.
Qed.

(** The bytes of [ch], and its packet length if it had one. *)
Definition rebuilt s s' ch r : Prop :=
  chain_bytes s' r = chain_bytes s ch /\ (pktlen_ok ch -> pktlen_ok r).

(** C25. [m_defrag] returns the same bytes as a packet of its length, or null
    after a failed allocation, with the chain still there. *)
Theorem m_defrag_same s ch l :
  owned s (ch ++ l) -> ch <> [] -> sum_len ch < 2 ^ 32 ->
  wp (m_defrag ch) (fun r s' =>
    owned s' (r.1 ++ r.2 ++ l) /\ same s s' l /\
    match r.1 with
    | [] => chain_bytes s' r.2 = chain_bytes s ch /\ may_fail
    | _ :: _ => rebuilt s s' ch r.1 /\ r.2 = []
    end) s.
Proof.
  intros Ho Hne Hlt. eapply wp_mono; [now apply (m_defrag_wp s ch l) |].
  intros [r1 r2] s' (H1 & H2 & H3). cbn [fst snd] in *. split_and!; auto.
  unfold rebuilt. destruct r1; tauto.
Qed.

(** *** [m_collapse] *)

(** No two neighbours behind the first mbuf fit into a cluster. *)
Definition stuck ch : Prop :=
  match ch with
  | [] => True
  | _ :: ch => forall p n n2 q, ch = p ++ n :: n2 :: q -> MCLBYTES <= m_len n + m_len n2
  end.

(** The first mbufs of two chains carry the same flags and header. *)
Definition same_head ch ch' : Prop :=
  match ch, ch' with
  | m :: _, m' :: _ => m_flags m' = m_flags m /\ m_pkthdr m' = m_pkthdr m
  | _, _ => False
  end.

Lemma take_first_mb s m ch :
  mb_ok s m -> take (Z.to_nat (m_len m)) (chain_bytes s (m :: ch)) = mb_bytes s m.
Proof.
  intros Hm. pose proof (length_mb_bytes s m Hm). pose proof (ok_len _ _ Hm).
  rewrite chain_bytes_cons. now rewrite take_app_le, take_ge by lia.
Qed.

Lemma m_copydata_first s m ch :
  Forall (mb_ok s) (m :: ch) -> m_copydata (m :: ch) 0 (m_len m) s = Some (mb_bytes s m, s).
Proof.
  intros Hall. pose proof Hall as [Hm Hch]%Forall_cons_iff.
  pose proof (sum_len_nonneg s ch Hch). pose proof (ok_len _ _ Hm).
  rewrite m_copydata_spec by (auto; rewrite ?sum_len_cons; lia). rewrite drop_0.
  now rewrite take_first_mb.
Qed.

Lemma m_collapse_merge_wp s maxfrags m ch l c :
  owned s (m :: ch ++ l) ->
  wp (m_collapse_merge maxfrags m ch c) (fun r s' =>
    let '(done, ch', c') := r in
    owned s' (ch' ++ l) /\ same s s' l /\ chain_bytes s' ch' = chain_bytes s (m :: ch) /\
    same_head (m :: ch) ch' /\ Z.of_nat (length ch') - c' = Z.of_nat (length (m :: ch)) - c /\
    (length ch' <= length (m :: ch))%nat /\ (done = true -> c' <= maxfrags)) s.
Proof.
  revert s m c l. induction ch as [| n ch IH]; intros s m c l Ho; cbn [m_collapse_merge].
  { apply wp_ret. split_and!; auto using same_refl; done. }
  apply wp_bind, wp_gets. unfold id. simpl in Ho.
  destruct (M_WRITABLE s m && (m_len n <? M_TRAILINGSPACE s m)) eqn:E.
  - apply andb_prop in E as [Hw Ht]. apply Z.ltb_lt in Ht.
    pose proof (owned_cons _ _ _ Ho) as [_ Ho2].
    apply wp_bind. unfold wp at 1.
    rewrite m_copydata_first by (apply (owned_forall_ok s (n :: ch) l); exact Ho2).
    set (m' := m <| m_len ::= Z.add (m_len n) |>).
    pose proof (splat_wp s m m' n (ch ++ l) _ Ho Hw ltac:(lia) eq_refl eq_refl) as Hsp.
    unfold wp at 1 in Hsp. unfold bind in Hsp. apply wp_bind. unfold wp at 1.
    destruct (m_write m (m_len m) (mb_bytes s n) s) as [[[] s1] |]; [| done].
    cbn zeta. apply wp_bind. eapply wp_mono; [exact Hsp |].
    intros ? s2 (H1 & [H2 H3]%same_app & H4).
    assert (chain_bytes s2 (m' :: ch) = chain_bytes s (m :: n :: ch)) as Hb.
    { rewrite !chain_bytes_cons, H4, (same_chain _ _ _ H2). now rewrite app_assoc. }
    destruct (Z.leb_spec (c - 1) maxfrags) as [Hle | Hgt].
    + apply wp_ret. split_and!; auto; [now split | simpl; lia | simpl; lia].
    + eapply wp_mono; [apply (IH s2 m' (c - 1) l H1) |].
      intros [[done ch'] c'] s3 (I1 & I2 & I3 & I4 & I5 & I6 & I7).
      split_and!; auto; try congruence; try (simpl in *; lia). eapply same_trans; eassumption.
  - apply wp_bind. eapply wp_mono.
    { apply (IH s n c (m :: l)). revert Ho. apply owned_perm. solve_Permutation. }
    intros [[done ch'] c'] s3 (I1 & [[I2 _] I2']%same_cons & I3 & I4 & I5 & I6 & I7). apply wp_ret.
    split_and!; auto; try (simpl in *; lia); [now apply owned_mid in I1 | | now split].
    now rewrite !(chain_bytes_cons _ m), I2, I3.
Qed.

Lemma m_collapse_find_spec ch :
  match m_collapse_find ch with
  | None => forall p n n2 q, ch = p ++ n :: n2 :: q -> MCLBYTES <= m_len n + m_len n2
  | Some (p, n, n2, q) => ch = p ++ n :: n2 :: q /\ m_len n + m_len n2 < MCLBYTES
  end.
Proof.
  induction ch as [| n ch IH]; cbn [m_collapse_find]; [now intros [] |].
  destruct ch as [| n2 r]; [now intros [| ? []] |].
  destruct (Z.ltb_spec (m_len n + m_len n2) MCLBYTES) as [Hlt | Hge]; [done |].
  destruct (m_collapse_find (n2 :: r)) as [[[[p a] b] q] |]; [now destruct IH as [-> IH] |].
  intros [| x p] a b q E; [injection E as <- <- <-; exact Hge |].
  injection E as <- E. now apply (IH p a b q).
Qed.

Lemma m_collapse_cluster_wp s n n2 q l :
  owned s (n :: n2 :: q ++ l) -> m_len n + m_len n2 < MCLBYTES ->
  wp (m_collapse_cluster n n2 q) (fun r s' => same s s' (q ++ l) /\
    match r with
    | None => owned s' (n :: n2 :: q ++ l) /\ same s s' (n :: n2 :: q ++ l) /\ may_fail
    | Some c => owned s' (c :: q ++ l) /\ mb_bytes s' c = mb_bytes s n ++ mb_bytes s n2
    end) s.
Proof.
  intros Ho Hlt. unfold m_collapse_cluster. apply wp_bind.
  eapply wp_mono; [apply (m_getcl_wp s MT_DATA false _ Ho) |].
  intros [c |] s1 [G1 G2].
  2: { apply wp_ret. destruct G2 as [G2 Hmf]. split_and!; auto.
       now apply same_cons in G1 as [_ [_ G1]%same_cons]. }
  destruct G2 as (G2 & B1 & B2 & B3 & B4 & B5 & B6 & B7).
  pose proof (owned_cons _ _ _ G2) as [Hc G3]. pose proof (owned_cons _ _ _ G3) as [Hn G4].
  pose proof (owned_ok _ _ _ G4) as Hn2.
  pose proof (length_mb_bytes s1 n Hn) as L1. pose proof (length_mb_bytes s1 n2 Hn2) as L2.
  apply wp_bind. unfold wp at 1.
  rewrite m_copydata_first by (apply (owned_forall_ok s1 (n :: n2 :: q) l); exact G3).
  set (c1 := c <| m_len := m_len n |>). apply wp_bind.
  change (m_write c 0) with (@m_write P c1 0). pose proof (ok_len _ _ Hn) as Hl1.
  pose proof (ok_len _ _ Hn2) as Hl2. eapply wp_mono.
  { apply (fill_wp s1 c c1 (n :: n2 :: q ++ l)); auto. lia. }
  intros ? s2 (W1 & W2 & W3 & W4). pose proof (owned_cons _ _ _ W1) as [_ W1'].
  pose proof (owned_cons _ _ _ W1') as [_ W1''].
  apply wp_bind. unfold wp at 1.
  rewrite m_copydata_first by (apply (owned_forall_ok s2 (n2 :: q) l); exact W1'').
  pose proof W2 as [[W2n _] [[W2m _] W2q]%same_cons]%same_cons.
  set (c2 := c <| m_len := m_len n + m_len n2 |>). apply wp_bind.
  change (m_write c (m_len n)) with (@m_write P c1 (m_len c1)). eapply wp_mono.
  { apply (m_write_append s2 c1 c2 (n :: n2 :: q ++ l)); auto.
    - unfold ref_of in *. rewrite (sd_ref _ _ _ W4). exact B1.
    - rewrite (sd_size _ _ _ W4), W2m. change (m_sid c1) with (m_sid c).
      change (m_data c1) with (m_data c). change (m_len c1) with (m_len n). lia.
    - rewrite W2m. change (m_len c1) with (m_len n). unfold c2. cbn [m_len upd]. lia. }
  intros ? s3 (X1 & X2 & X3 & _).
  pose proof X2 as [_ [_ X2q]%same_cons]%same_cons. apply wp_bind. eapply wp_mono.
  { apply (law_free n s3 (c2 :: n2 :: q ++ l)). now apply owned_swap. }
  intros ? s4 (K1 & [[K2 _] [_ K3]%same_cons]%same_cons & _). apply wp_bind. eapply wp_mono.
  { apply (law_free n2 s4 (c2 :: q ++ l)). now apply owned_swap. }
  intros ? s5 (K4 & [[K5 _] K6]%same_cons & _). apply wp_ret.
  apply same_cons in G1 as [[Gn _] [[Gm _] Gq]%same_cons]. split_and!; auto.
  - eapply same_trans; [exact Gq |]. eapply same_trans; [exact W2q |].
    eapply same_trans; [exact X2q |]. eapply same_trans; eassumption.
  - fold c2. change (mb_bytes s5 c2 = mb_bytes s n ++ mb_bytes s n2).
    rewrite K5, K2, X3, W3, W2m. congruence.
Qed.

Lemma same_head_trans ch1 ch2 ch3 : same_head ch1 ch2 -> same_head ch2 ch3 -> same_head ch1 ch3.
Proof.
  unfold same_head. destruct ch1, ch2, ch3; try done. intros [H1 H2] [H3 H4]. split; congruence.
Qed.

(** What [m_collapse] keeps of a chain, and what its result means. *)
Definition collapsed s s' l (maxfrags : Z) ch (r : bool * list mbuf) : Prop :=
  owned s' (r.2 ++ l) /\ same s s' l /\ chain_bytes s' r.2 = chain_bytes s ch /\ same_head ch r.2 /\
  (if r.1 : bool then Z.of_nat (length r.2) <= maxfrags else stuck r.2 \/ may_fail).

Lemma collapsed_trans s s1 s2 l maxfrags ch ch1 r :
  same s s1 l -> chain_bytes s1 ch1 = chain_bytes s ch -> same_head ch ch1 ->
  collapsed s1 s2 l maxfrags ch1 r -> collapsed s s2 l maxfrags ch r.
Proof.
  intros Hs Hb Hh (H1 & H2 & H3 & H4 & H5). unfold collapsed.
  split_and!; auto; [eapply same_trans; eassumption | congruence | eapply same_head_trans; eassumption].
Qed.

(** The chain behind [m0] with [n] and [n2] in one cluster. *)
Lemma m_collapse_pair_wp s m0 p n n2 q l :
  owned s ((m0 :: p ++ n :: n2 :: q) ++ l) -> m_len n + m_len n2 < MCLBYTES ->
  wp (m_collapse_cluster n n2 q) (fun r s' => same s s' l /\
    let ch' := match r with None => m0 :: p ++ n :: n2 :: q | Some x => m0 :: p ++ x :: q end in
    owned s' (ch' ++ l) /\ chain_bytes s' ch' = chain_bytes s (m0 :: p ++ n :: n2 :: q) /\
    (r = None -> may_fail)) s.
Proof.
  intros Ho Hlt. eapply wp_mono.
  { apply (m_collapse_cluster_wp s n n2 q (m0 :: p ++ l)); [| exact Hlt].
    revert Ho. apply owned_perm. solve_Permutation. }
  intros [x |] s' (C1 & C2); pose proof C1 as [C1q [C1m [C1p C1l]%same_app]%same_cons]%same_app;
    destruct C1m as [C1m _]; (split; [done |]); cbn zeta.
  - destruct C2 as [C2 C3]. split_and!; [revert C2; apply owned_perm; solve_Permutation | | done].
    rewrite !(chain_bytes_cons _ m0), !chain_bytes_app, !chain_bytes_cons, C1m, C3.
    rewrite (same_chain _ _ _ C1p), (same_chain _ _ _ C1q). now rewrite <- !app_assoc.
  - destruct C2 as (C2 & C3 & Hmf). split_and!; [revert C2; apply owned_perm; solve_Permutation | | done].
    pose proof C3 as [[C3a _] [[C3b _] _]%same_cons]%same_cons.
    rewrite !(chain_bytes_cons _ m0), !chain_bytes_app, !chain_bytes_cons, C1m, C3a, C3b.
    now rewrite (same_chain _ _ _ C1p), (same_chain _ _ _ C1q).
Qed.

Lemma m_collapse_again_wp fuel s maxfrags pre m ch l c :
  owned s ((pre ++ m :: ch) ++ l) -> 1 < maxfrags ->
  c = Z.of_nat (length (pre ++ m :: ch)) -> (length (pre ++ m :: ch) <= fuel)%nat ->
  wp (m_collapse_again fuel maxfrags pre m ch c)
     (fun r s' => collapsed s s' l maxfrags (pre ++ m :: ch) r) s.
Proof.
  revert s pre m ch c. induction fuel as [| fuel IH]; intros s pre m ch c Ho Hmx Hc Hf;
    [rewrite length_app in Hf; simpl in Hf; lia |].
  cbn [m_collapse_again]. apply wp_bind. eapply wp_mono.
  { apply (m_collapse_merge_wp s maxfrags m ch (pre ++ l) c).
    revert Ho. apply owned_perm. simpl. solve_Permutation. }
  intros [[done ch1] c1] s1 (M1 & [M2 M2']%same_app & M3 & M4 & M5 & M6 & M7).
  rewrite length_app in Hc, Hf.
  assert (owned s1 ((pre ++ ch1) ++ l)) as Ho1 by (revert M1; apply owned_perm; solve_Permutation).
  assert (chain_bytes s1 (pre ++ ch1) = chain_bytes s (pre ++ m :: ch)) as Hb1.
  { rewrite !chain_bytes_app, M3. now rewrite (same_chain _ _ _ M2). }
  assert (same_head (pre ++ m :: ch) (pre ++ ch1)) as Hh1 by (destruct pre; [exact M4 | now split]).
  assert (c1 = Z.of_nat (length (pre ++ ch1)) /\
          length (pre ++ ch1) <= length pre + length (m :: ch))%nat as [Hc1 Hlen1]
    by (rewrite length_app; lia).
  destruct done.
  { apply wp_ret. unfold collapsed. cbn [fst snd]. split_and!; auto. specialize (M7 eq_refl). lia. }
  apply wp_bind, wp_kassert; [now apply Z.ltb_lt |].
  destruct (pre ++ ch1) as [| m0 ch'] eqn:Ech; [now destruct (pre ++ m :: ch) |].
  pose proof (m_collapse_find_spec ch') as Hfd.
  destruct (m_collapse_find ch') as [[[[p n] n2] q] |].
  2: { apply wp_ret. unfold collapsed. cbn [fst snd]. split_and!; auto. }
  destruct Hfd as [-> Hlt]. apply wp_bind.
  eapply wp_mono; [apply (m_collapse_pair_wp s1 m0 p n n2 q l Ho1 Hlt) |].
  intros [x |] s2 (C1 & C2 & C3 & C4); cbn zeta in *; rewrite Hb1 in C3;
    assert (same s s2 l) as Hs2 by (eapply same_trans; eassumption);
    [| apply wp_ret; unfold collapsed; cbn [fst snd]; split_and!; auto].
  assert (length (m0 :: p ++ x :: q) + 1 = length (m0 :: p ++ n :: n2 :: q))%nat as Hl2.
  { simpl. rewrite !length_app. simpl. lia. }
  destruct (Z.leb_spec (c1 + 1 - 1 - 1) maxfrags).
  - apply wp_ret. unfold collapsed. cbn [fst snd]. split_and!; auto. lia.
  - eapply wp_mono; [apply (IH s2 (m0 :: p) x q (c1 + 1 - 1 - 1)); auto; simpl in *; lia |].
    intros r s3 HQ. exact (collapsed_trans s s2 s3 l maxfrags _ _ r Hs2 C3 Hh1 HQ).
Qed.

Lemma m_collapse_wp s m ch l maxfrags :
  owned s ((m :: ch) ++ l) -> 1 < maxfrags ->
  wp (m_collapse (m :: ch) maxfrags) (fun r s' =>
    owned s' (r.2 ++ l) /\ same s s' l /\ chain_bytes s' r.2 = chain_bytes s (m :: ch) /\
    (pktlen_ok (m :: ch) -> pktlen_ok r.2) /\
    (if r.1 : bool then Z.of_nat (length r.2) <= maxfrags else stuck r.2 \/ may_fail)) s.
Proof.
  intros Ho Hmx. unfold m_collapse. eapply wp_mono.
  { apply (m_collapse_again_wp (length (m :: ch)) s maxfrags [] m ch l); auto. }
  intros [ok ch'] s' (H1 & H2 & H3 & H4 & H5). cbn [fst snd] in *. split_and!; auto.
  intros Hpk. destruct ch' as [| m' ch']; [done |]. destruct H4 as [H4 H6].
  intros Hh. rewrite H6, Hpk by (unfold has in *; congruence).
  symmetry. apply (length_sum_chain s' s _ _ l l); auto.
Qed.

(** *** [m_copyback] *)

(** The caller has the data areas of the chain to itself. *)
Definition excl s ch : Prop := Forall (fun m => ref_of s (m_sid m) <= 1) ch.

Lemma excl_nnu s s' ch l :
  excl s ch -> no_new_users s s' (ch ++ l) -> excl s' ch.
Proof.
  unfold excl, no_new_users. rewrite Forall_app, !Forall_forall. intros H1 [H2 _] m Hm.
  specialize (H1 m Hm). specialize (H2 m Hm). simpl in H2. lia.
Qed.

Lemma excl_stored s s' sid ch : stored s s' sid -> excl s ch -> excl s' ch.
Proof. intros Hs. unfold excl, ref_of. now rewrite (sd_ref _ _ _ Hs). Qed.

(** The zeroed mbuf that extends the chain over a gap. *)
Lemma zero_mbuf_wp s n l k :
  owned s (n :: l) -> is_fresh s n false -> 0 <= k <= MLEN ->
  wp (m_write n 0 (replicate (Z.to_nat MLEN) 0)) (fun _ s' =>
    owned s' (n <| m_len := k |> :: l) /\ same s s' l /\
    mb_bytes s' (n <| m_len := k |>) = replicate (Z.to_nat k) 0 /\ stored s s' (m_sid n)) s.
Proof.
  intros Ho Hf Hk. pose proof (fresh_room _ _ _ Hf) as Hroom. simpl in Hroom.
  destruct Hf as (F1 & F2 & F3 & F4 & F5 & F6).
  set (n1 := n <| m_len := MLEN |>). change (m_write n 0) with (@m_write P n1 0). eapply wp_mono.
  { apply (fill_wp s n n1 l); auto; [lia | | ]; rewrite length_replicate; unfold n1; cbn [m_len upd]; lia. }
  intros ? s' (W1 & W2 & W3 & W4). split_and!; auto.
  - apply (owned_replace s' n1); auto. apply (mb_ok_short s' n1 k); [now apply owned_ok in W1 | exact Hk].
  - change (n <| m_len := k |>) with (n1 <| m_len := k |>). rewrite mb_bytes_short by exact Hk.
    rewrite W3, take_replicate. f_equal. lia.
Qed.

(** Where [m_copyback]'s walk ends: the chain, followed by the zeroes it was
    extended with, and the position of byte [target] in it. *)
Definition seek_post s s' ch l (target len : Z)
    (r : list mbuf * mbuf * list mbuf * Z * Z * bool) : Prop :=
  let '(pre, m, post, off, totlen, found) := r in
  owned s' ((pre ++ m :: post) ++ l) /\ same s s' l /\ excl s' (pre ++ m :: post) /\
  same_head ch (pre ++ m :: post) /\
  exists z, chain_bytes s' (pre ++ m :: post) = chain_bytes s ch ++ replicate z 0 /\
    (z = O \/ post = [] /\ sum_len (pre ++ [m]) <= target + len /\ sum_len ch < target) /\
    if found : bool then sum_len pre + off = target /\ 0 <= off <= m_len m /\ totlen = sum_len pre
    else post = [] /\ totlen = sum_len (pre ++ [m]) /\ totlen < target /\ may_fail.

(** The chain grows by an mbuf of [k] zeroes. *)
Lemma m_copyback_gap_wp s ch l n k s1 :
  same s s1 (ch ++ l) -> no_new_users s s1 (ch ++ l) -> owned s1 (n :: ch ++ l) -> is_fresh s1 n false ->
  excl s ch -> 0 <= k <= MLEN ->
  wp (m_write n 0 (replicate (Z.to_nat MLEN) 0)) (fun _ s2 =>
    let ch' := ch ++ [n <| m_len := k |>] in
    owned s2 (ch' ++ l) /\ same s s2 l /\ excl s2 ch' /\
    chain_bytes s2 ch' = chain_bytes s ch ++ replicate (Z.to_nat k) 0) s1.
Proof.
  intros [G1 G1']%same_app G2 G3 G4 Hex Hk. eapply wp_mono; [apply (zero_mbuf_wp s1 n _ k G3 G4 Hk) |].
  set (n1 := n <| m_len := k |>). intros ? s2 (W1 & [W2 W3]%same_app & W4 & W5). cbn zeta. split_and!.
  - revert W1. apply owned_perm. solve_Permutation.
  - eapply same_trans; eassumption.
  - apply (excl_stored s1 s2 (m_sid n)); [done |]. apply Forall_app. split.
    + eapply excl_nnu; eassumption.
    + constructor; [| done]. destruct G4 as [G4 _]. change (m_sid n1) with (m_sid n). lia.
  - rewrite chain_bytes_app, chain_bytes_cons, chain_bytes_nil, app_nil_r, W4.
    now rewrite (same_chain _ _ _ W2), (same_chain _ _ _ G1).
Qed.

(** The walk from a chain extended with zeroes, as a walk from the chain. *)
Lemma seek_post_gap s s2 s3 ch n l target len (k : Z) r :
  seek_post s2 s3 (ch ++ [n]) l target len r -> r.1.1.1.2 = [] -> ch <> [] -> Forall (mb_ok s) ch ->
  same s s2 l -> chain_bytes s2 (ch ++ [n]) = chain_bytes s ch ++ replicate (Z.to_nat k) 0 ->
  0 <= k -> sum_len ch < target -> sum_len ch + k <= target + len ->
  seek_post s s3 ch l target len r.
Proof.
  destruct r as [[[[[pre' m'] post'] off'] totlen'] found]. cbn [fst snd].
  intros (I1 & I2 & I3 & I4 & z & I5 & I6 & I7) -> Hne Hall Hs Hb Hk Hlt Hle.
  assert (chain_bytes s3 (pre' ++ [m']) = chain_bytes s ch ++ replicate (Z.to_nat k + z) 0) as Hb3.
  { rewrite I5, replicate_add, app_assoc. f_equal. exact Hb. }
  unfold seek_post. split_and!; auto; [eapply same_trans; eassumption | now destruct ch |].
  exists (Z.to_nat k + z)%nat. split_and!; auto. right. split; [done |]. split; [| done].
  destruct I6 as [-> | (_ & I6 & _)]; [| exact I6].
  rewrite <- (length_chain_bytes s3 (pre' ++ [m'])) by now apply owned_forall_ok in I1.
  rewrite Hb3, length_app, length_replicate, Nat2Z.inj_add, length_chain_bytes by done. lia.
Qed.

Lemma seek_post_here s pre m post l off len :
  owned s ((pre ++ m :: post) ++ l) -> excl s (pre ++ m :: post) -> 0 <= off <= m_len m ->
  seek_post s s (pre ++ m :: post) l (sum_len pre + off) len (pre, m, post, off, sum_len pre, true).
Proof.
  intros. unfold seek_post. split_and!; auto using same_refl; [destruct pre; now split |].
  exists O. rewrite app_nil_r. split_and!; auto; lia.
Qed.

Lemma m_copyback_seek_wp fuel s pre m post l off len totlen :
  owned s ((pre ++ m :: post) ++ l) -> excl s (pre ++ m :: post) ->
  0 <= off -> 0 <= len -> totlen = sum_len pre ->
  (length post + Z.to_nat off + (if Z.eqb (m_len m) 0 then 1 else 0) <= fuel)%nat ->
  wp (m_copyback_seek fuel pre m post off len totlen)
     (fun r s' => seek_post s s' (pre ++ m :: post) l (sum_len pre + off) len r /\
        (post = [] -> r.1.1.1.2 = [])) s.
Proof.
  pose proof law_sizes as [Hz1 Hz2].
  revert s pre m post off totlen. induction fuel as [| fuel IH];
    intros s pre m post off totlen Ho Hex Hoff Hlen -> Hf; cbn [m_copyback_seek];
    pose proof (owned_forall_ok _ _ _ Ho) as Hall;
    pose proof (proj1 (Forall_app _ _ _) Hall) as [_ [Hm _]%Forall_cons_iff]; pose proof (ok_len _ _ Hm) as Hml;
    (destruct (Z.ltb_spec (m_len m) off) as [Hlt | Hge];
      [| apply wp_ret; split; [now apply seek_post_here | done]]).
  { destruct (Z.eqb_spec (m_len m) 0); lia. }
  assert (sum_len (pre ++ [m]) = sum_len pre + m_len m) as Hsum.
  { rewrite sum_len_app, sum_len_cons, sum_len_nil. lia. }
  assert (sum_len (pre ++ [m]) + (off - m_len m) = sum_len pre + off) as Htgt by lia.
  cbn zeta. destruct post as [| m1 post].
  - apply wp_bind. eapply wp_mono; [apply (m_get_wp s (m_type m) ((pre ++ [m]) ++ l)); exact Ho |].
    intros [n |] s1 (G1 & G2 & G3).
    2: { destruct G3 as [G3 Hmf]. pose proof G1 as [G1a G1b]%same_app. apply wp_ret. split; [| done].
         unfold seek_post. split_and!; auto; [eapply excl_nnu; eassumption | destruct pre; now split |].
         exists O. rewrite app_nil_r, (same_chain _ _ _ G1a). split_and!; auto; lia. }
    destruct G3 as (G3 & G4 & _). set (k := Z.min MLEN (len + (off - m_len m))). apply wp_bind.
    eapply wp_mono; [apply (m_copyback_gap_wp s (pre ++ [m]) l n k s1); auto; lia |].
    set (n1 := n <| m_len := k |>) in *. intros ? s2 (W1 & W2 & W3 & W4). cbn zeta in *.
    eapply wp_mono; [apply (IH s2 (pre ++ [m]) n1 [] (off - m_len m)); auto; try lia |].
    { unfold n1. cbn [m_len upd]. simpl in *. rewrite (proj2 (Z.eqb_neq k 0)) by lia.
      destruct (Z.eqb_spec (m_len m) 0); lia. }
    intros r s3 [I1 I2]. specialize (I2 eq_refl). split; [| done]. rewrite Htgt in I1.
    apply (seek_post_gap s s2 s3 (pre ++ [m]) n1 l _ len k); auto; try lia. now destruct pre.
  - assert (pre ++ m :: m1 :: post = (pre ++ [m]) ++ m1 :: post) as Eq by now rewrite <- app_assoc.
    rewrite Eq in *. eapply wp_mono; [apply (IH s (pre ++ [m]) m1 post (off - m_len m)); auto; try lia |].
    { simpl in Hf. destruct (Z.eqb_spec (m_len m) 0), (Z.eqb_spec (m_len m1) 0); lia. }
    intros r s' [I1 _]. rewrite Htgt in I1. now split.
Qed.

Lemma m_copyback_extend_spec s m r off len :
  mb_ok s m -> 0 <= off <= m_len m ->
  let m' := m_copyback_extend s m r off len in
  head_of m m' /\ m_len m <= m_len m' /\ m_data m + m_len m' <= st_size s (m_sid m) /\
  (m_len m < m_len m' -> m_len m' - off <= len).
Proof.
  intros Hm Hoff. pose proof (ok_end _ _ Hm). destruct (trailing_room s m Hm) as (T1 & T2 & _).
  unfold m_copyback_extend. cbn zeta.
  destruct r; [| split_and!; auto using head_refl; lia].
  destruct (Z.ltb_spec (m_len m - off) len); [| split_and!; auto using head_refl; lia].
  split_and!; [now repeat split | | |]; cbn [m_len upd]; lia.
Qed.

(** One round: bytes of [cp] replace those of [m] from [off] on. *)
Lemma m_copyback_round_wp s m r l off cp :
  owned s (m :: l) -> ref_of s (m_sid m) <= 1 -> 0 <= off <= m_len m ->
  let len := Z.of_nat (length cp) in
  let m' := m_copyback_extend s m r off len in
  let mlen := Z.min (m_len m' - off) len in
  wp (m_write m' off (take (Z.to_nat mlen) cp)) (fun _ s' =>
    owned s' (m' :: l) /\ same s s' l /\
    mb_bytes s' m' = take (Z.to_nat off) (mb_bytes s m) ++ take (Z.to_nat mlen) cp ++
                     drop (Z.to_nat (off + mlen)) (mb_bytes s m) /\
    stored s s' (m_sid m)) s.
Proof.
  intros Ho Hr Hoff. cbn zeta. pose proof (owned_ok _ _ _ Ho) as Hm.
  destruct (m_copyback_extend_spec s m r off (Z.of_nat (length cp)) Hm Hoff) as ((E1 & E2 & E3 & _) & E4 & E5 & E6).
  set (m' := m_copyback_extend s m r off (Z.of_nat (length cp))) in *.
  set (mlen := Z.min (m_len m' - off) (Z.of_nat (length cp))).
  assert (Z.of_nat (length (take (Z.to_nat mlen) cp)) = mlen) as Hl by (rewrite length_take; lia).
  eapply wp_mono.
  { apply (m_write_at s m m' l off (take (Z.to_nat mlen) cp)); auto; try lia.
    - apply m_start_ext; unfold has; now rewrite E3.
    - unfold has. now rewrite E3. }
  intros ? s' (W1 & W2 & W3 & W4). split_and!; auto. rewrite W3. do 3 f_equal. lia.
Qed.

(** The chain after [k] bytes of [cp] were stored at [pos]. *)
Definition overlay (B : list Z) (pos : Z) (cp : list Z) (k : nat) : list Z :=
  take (Z.to_nat pos) B ++ take k cp ++ drop (Z.to_nat pos + k) B.

(** Two stores one after the other. *)
Lemma overlay_step (B cp J : list Z) (pos : Z) (j k : nat) :
  0 <= pos -> (Z.to_nat pos <= length B)%nat -> (j <= length cp)%nat ->
  (J = [] \/ length B <= Z.to_nat pos + j /\ length J <= k)%nat ->
  overlay (overlay B pos cp j ++ J) (pos + Z.of_nat j) (drop j cp) k = overlay B pos cp (j + k).
Proof.
  intros Hp Hb Hj HJ. unfold overlay.
  replace (Z.to_nat (pos + Z.of_nat j)) with (Z.to_nat pos + j)%nat by lia.
  set (A := take (Z.to_nat pos) B). set (C := take j cp). set (D := drop (Z.to_nat pos + j) B).
  assert (length A = Z.to_nat pos) as HA by (unfold A; rewrite length_take; lia).
  assert (length C = j) as HC by (unfold C; rewrite length_take; lia).
  replace ((A ++ C ++ D) ++ J) with ((A ++ C) ++ (D ++ J)) by now rewrite <- !app_assoc.
  assert (length (A ++ C) = Z.to_nat pos + j)%nat as HAC by (rewrite length_app; lia).
  rewrite <- HAC, take_app_length, drop_app_add, <- app_assoc. f_equal.
  rewrite (app_assoc C). f_equal.
  - unfold C. now rewrite take_take_drop.
  - unfold D. rewrite drop_app. rewrite drop_drop.
    replace (Z.to_nat pos + j + k)%nat with (Z.to_nat pos + (j + k))%nat by lia.
    destruct HJ as [-> | [H1 H2]]; [now rewrite drop_nil, app_nil_r |].
    rewrite !drop_ge; rewrite ?length_drop; auto; lia.
Qed.

(** A store inside one mbuf, seen on the whole chain. *)
Lemma overlay_mid (bp bm bq cp : list Z) (off : Z) (j : nat) :
  0 <= off -> (Z.to_nat off <= length bm)%nat ->
  (Z.to_nat off + j <= length bm \/ bq = [])%nat ->
  overlay (bp ++ bm ++ bq) (Z.of_nat (length bp) + off) cp j =
  bp ++ (take (Z.to_nat off) bm ++ take j cp ++ drop (Z.to_nat off + j) bm) ++ bq.
Proof.
  intros Ho Hb Hj. unfold overlay.
  replace (Z.to_nat (Z.of_nat (length bp) + off)) with (length bp + Z.to_nat off)%nat by lia.
  rewrite take_app_add. rewrite <- Nat.add_assoc, drop_app_add.
  rewrite take_app_le by lia. rewrite <- !app_assoc. do 3 f_equal.
  destruct Hj as [Hj | ->]; [now rewrite drop_app_le by lia |]. now rewrite !app_nil_r.
Qed.

(** The bytes of the chain after a round. *)
Lemma m_copyback_round_bytes s s1 pre m m' post off (cp : list Z) (mlen : Z) :
  Forall (mb_ok s) (pre ++ m :: post) -> same s s1 (pre ++ post) -> 0 <= off <= m_len m -> 0 <= mlen ->
  off + mlen <= m_len m \/ post = [] ->
  mb_bytes s1 m' = take (Z.to_nat off) (mb_bytes s m) ++ take (Z.to_nat mlen) cp ++
                   drop (Z.to_nat (off + mlen)) (mb_bytes s m) ->
  chain_bytes s1 (pre ++ m' :: post) =
    overlay (chain_bytes s (pre ++ m :: post)) (sum_len pre + off) cp (Z.to_nat mlen).
Proof.
  intros [Hpre [Hm Hpost]%Forall_cons_iff]%Forall_app [Hs1 Hs2]%same_app Hoff Hml Hend Hb.
  rewrite <- (length_chain_bytes s pre Hpre). pose proof (length_mb_bytes s m Hm) as Hlm.
  rewrite !chain_bytes_app, !chain_bytes_cons, Hb, (same_chain _ _ _ Hs1), (same_chain _ _ _ Hs2).
  rewrite overlay_mid; [| lia | lia | destruct Hend as [He | ->]; [left; lia | now right]].
  do 5 f_equal. lia.
Qed.

(** What the loop leaves. *)
Definition back_post s s' ch l (pos room totlen : Z) (cp : list Z) (r : list mbuf * Z) : Prop :=
  owned s' (r.1 ++ l) /\ same s s' l /\ same_head ch r.1 /\
  exists k, (k <= length cp)%nat /\ (k = length cp \/ may_fail) /\
    Z.min (Z.of_nat (length cp)) room <= Z.of_nat k /\
    chain_bytes s' r.1 = overlay (chain_bytes s ch) pos cp k /\
    (cp <> [] -> r.2 = pos + Z.of_nat k) /\ (cp = [] -> r.2 = totlen).

(** A round that stores [mlen] bytes, then the rest of the loop on a chain
    that may have been extended by the bytes [J]. *)
Lemma back_post_step s s1 s2 ch ch1 l pos room room1 tot tot1 (cp J : list Z) (mlen : Z) r :
  back_post s1 s2 ch1 l (pos + mlen) room1 tot1 (drop (Z.to_nat mlen) cp) r ->
  same s s1 l -> same_head ch ch1 ->
  chain_bytes s1 ch1 = overlay (chain_bytes s ch) pos cp (Z.to_nat mlen) ++ J ->
  0 <= pos -> (Z.to_nat pos <= length (chain_bytes s ch))%nat ->
  0 <= mlen < Z.of_nat (length cp) -> room <= mlen ->
  J = [] \/ Z.of_nat (length (chain_bytes s ch)) <= pos + mlen /\
            Z.of_nat (length J) <= Z.min (Z.of_nat (length cp) - mlen) room1 ->
  back_post s s2 ch l pos room tot cp r.
Proof.
  intros (H1 & H2 & H3 & k & H4 & H5 & H6 & H7 & H8 & _) Hs Hh Hb Hp Hpl Hm Hr HJ.
  rewrite length_drop in *. unfold back_post. split_and!; auto; [eapply same_trans; eassumption | |].
  - unfold same_head in *. destruct ch, ch1, r.1; try done. destruct H3, Hh. split; congruence.
  - exists (Z.to_nat mlen + k)%nat.
    assert (drop (Z.to_nat mlen) cp <> []) as Hne.
    { intros E. apply (f_equal length) in E. rewrite length_drop in E. simpl in E. lia. }
    split_and!; [lia | destruct H5; [left; lia | now right] | lia | | intros _; rewrite (H8 Hne); lia |].
    + rewrite H7, Hb. replace (pos + mlen) with (pos + Z.of_nat (Z.to_nat mlen)) by lia.
      apply overlay_step; [done | done | lia |]. destruct HJ as [-> | [HJ1 HJ2]]; [now left | right; lia].
    + intros ->. simpl in Hm. lia.
Qed.

(** A round on the chain, with what it stores. *)
Lemma m_copyback_chain_wp s pre m post l off cp :
  owned s ((pre ++ m :: post) ++ l) -> excl s (pre ++ m :: post) -> 0 <= off <= m_len m ->
  let len := Z.of_nat (length cp) in
  let m' := m_copyback_extend s m post off len in
  let mlen := Z.min (m_len m' - off) len in
  wp (m_write m' off (take (Z.to_nat mlen) cp)) (fun _ s1 =>
    owned s1 ((pre ++ m' :: post) ++ l) /\ same s s1 l /\ excl s1 (pre ++ m' :: post) /\
    same_head (pre ++ m :: post) (pre ++ m' :: post) /\
    chain_bytes s1 (pre ++ m' :: post) =
      overlay (chain_bytes s (pre ++ m :: post)) (sum_len pre + off) cp (Z.to_nat mlen)) s.
Proof.
  intros Ho Hex Hoff. cbn zeta.
  assert (owned s (m :: (pre ++ post) ++ l)) as Hom by (revert Ho; apply owned_perm; solve_Permutation).
  pose proof (owned_ok _ _ _ Hom) as Hm. pose proof (owned_forall_ok _ _ _ Ho) as Hall.
  assert (ref_of s (m_sid m) <= 1) as Hr.
  { apply Forall_app in Hex as [_ Hex]. now apply Forall_cons_iff in Hex as [Hex _]. }
  eapply wp_mono; [exact (m_copyback_round_wp s m post ((pre ++ post) ++ l) off cp Hom Hr Hoff) |].
  destruct (m_copyback_extend_spec s m post off (Z.of_nat (length cp)) Hm Hoff) as ((E1 & _ & E3 & E3') & E4 & _ & _).
  assert (m_len m < m_len (m_copyback_extend s m post off (Z.of_nat (length cp))) -> post = []) as E7.
  { unfold m_copyback_extend. destruct post; [done | lia]. }
  set (m' := m_copyback_extend s m post off (Z.of_nat (length cp))) in *.
  set (mlen := Z.min (m_len m' - off) (Z.of_nat (length cp))) in *.
  intros ? s1 (W1 & [W2 W2']%same_app & W3 & W4). split_and!; auto.
  - revert W1. apply owned_perm. solve_Permutation.
  - apply (excl_stored s s1 (m_sid m)); [done |]. unfold excl in *. rewrite Forall_app, Forall_cons_iff in *.
    rewrite E1. tauto.
  - destruct pre; now split.
  - apply (m_copyback_round_bytes s s1 pre m m' post off cp mlen Hall W2 Hoff); [lia | | exact W3].
    destruct (Z.le_gt_cases (off + mlen) (m_len m)); [now left | right; apply E7; lia].
Qed.

(** The chain grows by an mbuf of [k] bytes. *)
Lemma m_copyback_grow_wp s ch l ty k :
  owned s (ch ++ l) -> excl s ch -> 0 <= k <= MLEN ->
  wp (m_get ty) (fun r s' => same s s' (ch ++ l) /\
    match r with
    | None => owned s' (ch ++ l) /\ may_fail
    | Some n => owned s' ((ch ++ [n <| m_len := k |>]) ++ l) /\ excl s' (ch ++ [n <| m_len := k |>])
    end) s.
Proof.
  intros Ho Hex Hk. eapply wp_mono; [apply (m_get_wp s ty (ch ++ l)); exact Ho |].
  intros [n |] s' (G1 & G2 & G3); [| now split]. split; [done |].
  destruct G3 as (G3 & (F1 & F2 & F3 & F4 & F5 & F6) & _). set (n1 := n <| m_len := k |>).
  assert (mb_ok s' n1) as Hn1.
  { pose proof (owned_ok _ _ _ G3) as Hn. pose proof (ok_start _ _ Hn).
    apply (mb_ok_narrow s' n); auto; unfold n1; cbn [m_len m_data upd]; try lia.
    rewrite F3, F2. unfold m_start. rewrite F6, andb_false_r. lia. }
  split.
  - assert (owned s' (n1 :: ch ++ l)) as Ho' by now apply (owned_replace s' n).
    revert Ho'. apply owned_perm. solve_Permutation.
  - apply Forall_app. split; [eapply excl_nnu; eassumption | constructor; [| done]].
    change (m_sid n1) with (m_sid n). lia.
Qed.

Lemma back_post_nil s pre m post l off totlen :
  owned s ((pre ++ m :: post) ++ l) -> 0 <= off <= m_len m ->
  back_post s s (pre ++ m :: post) l (sum_len pre + off) (m_len m - off) totlen [] (pre ++ m :: post, totlen).
Proof.
  intros Ho Hoff. unfold back_post. cbn [fst snd].
  split_and!; auto using same_refl; [destruct pre; now split |].
  exists O. simpl. split_and!; auto; try done; try lia.
  unfold overlay. rewrite Nat.add_0_r, take_0. simpl. now rewrite take_drop.
Qed.

Lemma m_copyback_loop_wp fuel s pre m post l off cp totlen :
  owned s ((pre ++ m :: post) ++ l) -> excl s (pre ++ m :: post) ->
  0 <= off <= m_len m -> totlen = sum_len pre ->
  (cp <> [] -> length post + length cp + (if Z.eqb (m_len m - off) 0 then 1 else 0) <= fuel)%nat ->
  wp (m_copyback_loop fuel pre m post off cp totlen) (fun r s' =>
    back_post s s' (pre ++ m :: post) l (sum_len pre + off) (m_len m - off) totlen cp r) s.
Proof.
  pose proof law_sizes as [Hz1 Hz2].
  revert s pre m post off cp totlen. induction fuel as [| fuel IH];
    intros s pre m post off cp totlen Ho Hex Hoff Htot Hf.
  all: destruct cp as [| c cp]; [apply wp_ret; now apply back_post_nil |].
  all: specialize (Hf ltac:(done)).
  { simpl in Hf. destruct (m_len m - off =? 0); lia. }
  set (b := c :: cp) in *. cbn [m_copyback_loop].
  assert (0 < Z.of_nat (length b)) as Hpos by (unfold b; simpl; lia).
  rewrite (proj2 (Z.ltb_lt 0 (Z.of_nat (length b)))) by exact Hpos.
  apply wp_bind, wp_gets. unfold id. cbn zeta. pose proof (owned_forall_ok _ _ _ Ho) as Hall.
  pose proof (proj1 (Forall_app _ _ _) Hall) as [Hpre [Hm Hpost]%Forall_cons_iff].
  pose proof (m_copyback_chain_wp s pre m post l off b Ho Hex Hoff) as Hw. cbn zeta in Hw.
  destruct (m_copyback_extend_spec s m post off (Z.of_nat (length b)) Hm Hoff) as (_ & E4 & _ & _).
  set (m' := m_copyback_extend s m post off (Z.of_nat (length b))) in *.
  set (mlen := Z.min (m_len m' - off) (Z.of_nat (length b))) in *.
  apply wp_bind. eapply wp_mono; [exact Hw |]. clear Hw. intros ? s1 (Ho1 & Hs1 & Hex1 & Hh1 & Hb).
  pose proof (length_chain_bytes s _ Hall) as Hl. rewrite sum_len_app, sum_len_cons in Hl.
  pose proof (sum_len_nonneg s post Hpost). pose proof (sum_len_nonneg s pre Hpre) as Hsp.
  destruct (Z.eqb_spec (Z.of_nat (length b) - mlen) 0) as [Hz | Hnz].
  { apply wp_ret. unfold back_post. cbn [fst snd]. split_and!; auto. exists (Z.to_nat mlen).
    split_and!; auto; [lia | left; lia | lia | intros _; lia | done]. }
  assert (sum_len (pre ++ [m']) = sum_len pre + off + mlen) as Hsum.
  { rewrite sum_len_app, sum_len_cons, sum_len_nil. lia. }
  set (k := Z.to_nat mlen) in *. destruct post as [| m1 post].
  - apply wp_bind. set (kn := Z.min MLEN (Z.of_nat (length b) - mlen)).
    eapply wp_mono; [apply (m_copyback_grow_wp s1 (pre ++ [m']) l (m_type m') kn Ho1 Hex1); lia |].
    intros [n |] s2 ([G1 G1']%same_app & G2).
    2: { destruct G2 as [G2 Hmf]. apply wp_ret. unfold back_post. cbn [fst snd].
         split_and!; auto; [eapply same_trans; eassumption |]. exists k.
         split_and!; auto; [lia | lia | now rewrite (same_chain _ _ _ G1) | intros _; lia | done]. }
    destruct G2 as [Ho2 Hex2]. set (n1 := n <| m_len := kn |>) in *. assert (m_len n1 = kn) as Hkn by done.
    pose proof (owned_forall_ok _ _ _ Ho2) as [_ [Hn1 _]%Forall_cons_iff]%Forall_app.
    pose proof (length_mb_bytes s2 n1 Hn1) as Hln1. eapply wp_mono.
    { apply (IH s2 (pre ++ [m']) n1 [] 0 (drop k b)); auto; try lia.
      intros _. rewrite length_drop, Hkn, (proj2 (Z.eqb_neq _ 0)) by lia. simpl length. unfold k.
      destruct (Z.eqb_spec (m_len m - off) 0); simpl in Hf; unfold b in *; simpl in *; lia. }
    intros r s3 HQ. rewrite Hsum, Z.add_0_r in HQ.
    eapply (back_post_step s s2 s3 _ _ l _ _ _ _ _ b (mb_bytes s2 n1) mlen r HQ); auto; try lia.
    + eapply same_trans; eassumption.
    + unfold same_head in *. destruct pre; simpl in *; tauto.
    + rewrite chain_bytes_app, chain_bytes_cons, chain_bytes_nil, app_nil_r.
      rewrite (same_chain _ _ _ G1). f_equal. exact Hb.
    + right. rewrite sum_len_nil in Hl. lia.
  - assert (pre ++ m' :: m1 :: post = (pre ++ [m']) ++ m1 :: post) as Eq by now rewrite <- app_assoc.
    rewrite Eq in *. pose proof (owned_forall_ok _ _ _ Ho1) as [_ [Hm1 _]%Forall_cons_iff]%Forall_app.
    pose proof (ok_len _ _ Hm1). eapply wp_mono.
    { apply (IH s1 (pre ++ [m']) m1 post 0 (drop k b)); auto; try lia.
      intros _. rewrite length_drop. unfold k. change (length (m1 :: post)) with (S (length post)) in Hf.
      destruct (Z.eqb_spec (m_len m - off) 0), (Z.eqb_spec (m_len m1 - 0) 0); lia. }
    intros r s2 HQ. rewrite Hsum, Z.add_0_r in HQ.
    eapply (back_post_step s s1 s2 _ _ l _ _ _ _ _ b [] mlen r HQ); auto; try lia.
    now rewrite app_nil_r.
Qed.

(** The header's length after [m_copyback] reached byte [totlen] of a chain
    that is [Z.max] of its old length and [totlen] long. *)
Lemma back_pktlen ch ch' totlen :
  pktlen_ok ch -> same_head ch ch' -> sum_len ch' = Z.max (sum_len ch) totlen ->
  pktlen_ok (upd_first (set_pktlen (fun x => if x <? totlen then totlen else x)) ch').
Proof.
  intros Hp Hh Hs. apply pktlen_ok_set. destruct ch as [| m ch]; [done |].
  destruct ch' as [| m' ch']; [done |]. destruct Hh as [Hh1 Hh2]. intros Hm'.
  rewrite Hh2. rewrite !Hp by (unfold has in *; congruence). rewrite Hs.
  destruct (Z.ltb_spec (sum_len (m :: ch)) totlen); lia.
Qed.

(** [cp] stored at [off] of [B], with zeroes up to [off] when [B] ends before. *)
Definition back_bytes (B : list Z) (off : Z) (cp : list Z) (k : nat) : list Z :=
  overlay (B ++ replicate (Z.to_nat off - length B) 0) off cp k.

Lemma back_bytes_zeroes (B cp : list Z) (off : Z) (z k : nat) :
  0 <= off <= Z.of_nat (length B + z) -> (k <= length cp)%nat ->
  (z = O \/ (length B < Z.to_nat off)%nat /\ Z.of_nat (length B + z) - off <= Z.of_nat k) ->
  overlay (B ++ replicate z 0) off cp k = back_bytes B off cp k.
Proof.
  intros Ho Hk Hz. unfold back_bytes, overlay. destruct Hz as [-> | [Hz1 Hz2]].
  - replace (Z.to_nat off - length B)%nat with O by lia. done.
  - rewrite !take_app, !take_replicate. f_equal; [do 2 f_equal; lia |]. f_equal.
    rewrite !drop_ge; auto; rewrite length_app, length_replicate; lia.
Qed.

Lemma length_back_bytes (B cp : list Z) (off : Z) (k : nat) :
  0 <= off -> (k <= length cp)%nat ->
  Z.of_nat (length (back_bytes B off cp k)) = Z.max (Z.of_nat (length B)) (off + Z.of_nat k).
Proof.
  intros Ho Hk. unfold back_bytes, overlay.
  rewrite !length_app, !length_take, length_drop, !length_app, !length_replicate. lia.
Qed.

Lemma m_copyback_wp s m ch l off cp :
  owned s ((m :: ch) ++ l) -> excl s (m :: ch) -> 0 <= off -> cp <> [] ->
  wp (m_copyback (m :: ch) off cp) (fun r s' =>
    owned s' (r ++ l) /\ same s s' l /\ (pktlen_ok (m :: ch) -> pktlen_ok r) /\
    ((exists k, (k <= length cp)%nat /\ (k = length cp \/ may_fail) /\
        chain_bytes s' r = back_bytes (chain_bytes s (m :: ch)) off cp k) \/
     may_fail /\ exists z, chain_bytes s' r = chain_bytes s (m :: ch) ++ replicate z 0)) s.
Proof.
  intros Ho Hex Hoff Hcp. unfold m_copyback. cbn zeta. apply wp_bind.
  pose proof (length_chain_bytes s _ (owned_forall_ok _ _ _ Ho)) as HlenB. eapply wp_mono.
  { apply (m_copyback_seek_wp _ s [] m ch l off (Z.of_nat (length cp)) 0); auto; [lia |].
    destruct (m_len m =? 0); lia. }
  intros [[[[[pre m1] post] off1] tot1] found] s1 [(H1 & H2 & H3 & H4 & z & H5 & H6 & H7) _].
  rewrite sum_len_nil, Z.add_0_l in H6, H7. simpl app in H4, H5, H6.
  pose proof (owned_forall_ok _ _ _ H1) as Hall1.
  pose proof (length_chain_bytes s1 _ Hall1) as HlenB1.
  assert (forall r : list mbuf, forall s' f, owned s' (r ++ l) -> owned s' (upd_first (set_pktlen f) r ++ l)) as Hupd.
  { intros r s' f Hr. eapply alike_owned; [apply alike_pktlen, alike_refl | exact Hr].
    now apply owned_forall_ok in Hr. }
  apply wp_bind. destruct found.
  - destruct H7 as (P1 & P2 & P3). eapply wp_mono.
    { apply (m_copyback_loop_wp _ s1 pre m1 post l off1 cp tot1 H1 H3 P2 P3).
      intros _. destruct (m_len m1 - off1 =? 0); lia. }
    intros [r tot] s2 (Q1 & Q2 & Q3 & k & Q4 & Q5 & Q6 & Q7 & Q8 & _). cbn [fst snd] in *.
    apply wp_ret. rewrite P1 in *. specialize (Q8 Hcp). subst tot.
    assert (chain_bytes s2 r = back_bytes (chain_bytes s (m :: ch)) off cp k) as Hb.
    { rewrite Q7, H5. rewrite H5, length_app, length_replicate, sum_len_app, sum_len_cons in HlenB1.
      apply Forall_app in Hall1 as [Hp1 [Hm1 Hp2]%Forall_cons_iff].
      pose proof (sum_len_nonneg s1 post Hp2). apply back_bytes_zeroes; [lia | done |].
      destruct H6 as [-> | (-> & H6 & H8)]; [now left | right].
      rewrite sum_len_nil in *. rewrite sum_len_app, sum_len_cons, sum_len_nil in H6. split; lia. }
    split_and!; auto; [eapply same_trans; eassumption | |].
    + intros Hp. apply (back_pktlen (m :: ch)); auto; [eapply same_head_trans; eassumption |].
      rewrite <- (length_chain_bytes s2 r), Hb, length_back_bytes by (auto || now apply owned_forall_ok in Q1).
      now rewrite HlenB.
    + left. exists k. split_and!; auto. now rewrite bytes_pktlen.
  - destruct H7 as (-> & P1 & P2 & P3). apply wp_ret. apply wp_ret. split_and!; auto.
    + intros Hp. apply (back_pktlen (m :: ch)); auto.
      rewrite <- (length_chain_bytes s1 (pre ++ [m1])), H5, length_app by done.
      rewrite <- HlenB. subst tot1. rewrite <- (length_chain_bytes s1 (pre ++ [m1])), H5, length_app by done. lia.
    + right. split; [done |]. exists z. now rewrite bytes_pktlen.
Qed.

(** [m_copyback] stores the bytes at [off], with zeroes where the chain
    ended before [off], and the packet length follows; it stores fewer only
    when an allocation failed. *)
Theorem m_copyback_bytes s m ch l off cp :
  owned s ((m :: ch) ++ l) -> excl s (m :: ch) -> 0 <= off -> cp <> [] -> ~ may_fail ->
  wp (m_copyback (m :: ch) off cp) (fun r s' =>
    owned s' (r ++ l) /\ same s s' l /\ (pktlen_ok (m :: ch) -> pktlen_ok r) /\
    let B := chain_bytes s (m :: ch) in
    let B0 := B ++ replicate (Z.to_nat off - length B) 0 in
    chain_bytes s' r = take (Z.to_nat off) B0 ++ cp ++ drop (Z.to_nat off + length cp) B0) s.
Proof.
  intros Ho Hex Hoff Hcp Hnf. eapply wp_mono; [now apply (m_copyback_wp s m ch l off cp) |].
  intros r s' (H1 & H2 & H3 & [(k & _ & [-> |] & H4) | [? _]]); [| done | done].
  split_and!; auto. rewrite H4. unfold back_bytes, overlay. now rewrite firstn_all.
Qed.
End rebuild.
