(* ===== verification/MbufSteps.v ===== *)
(** * Packets over time

    The operations of [uipc_mbuf.c] as the steps of a machine whose
    configurations are the live chains: chains are made from received bytes,
    trimmed, split, copied, joined, rebuilt and freed in any order.  Every
    configuration such a run reaches is well formed, and a step on one chain
    leaves the bytes of all others as they were, shared clusters included. *)

From stdpp Require Import gmap.
From S2P Require Import Prelude Mbuf MbufSpec MbufOps MbufCopy MbufRebuild.

Section steps.
Context {P : Type} {MS : MbufSys P} {ML : MbufLaws P}.
Implicit Types (s : mstate P) (ch : list mbuf).

(** An operation on one chain, with the conditions under which the code may
    call it, and the chains it leaves.  A null [m_split] is left out: it can
    leave a packet length that is wrong.  [m_copyback] is given bytes, and a
    chain whose areas have no other user. *)
Inductive mop s ch s' : list (list mbuf) -> Prop :=
  | op_adj n r : m_adj ch n s = Some (r, s') -> mop s ch s' [r]
  | op_pullup len r : ch <> [] -> 0 <= len -> m_pullup ch len s = Some (r, s') -> mop s ch s' [r]
  | op_copyup len off r : ch <> [] -> 0 <= len -> 0 <= off -> m_copyup ch len off s = Some (r, s') ->
      mop s ch s' [r]
  | op_split len0 r n ns : 0 <= len0 <= sum_len ch -> m_split ch len0 s = Some ((r, n :: ns), s') ->
      match ch with m :: _ => has M_PKTHDR m = true | [] => False end ->
      mop s ch s' [r; n :: ns]
  | op_copypacket r : match ch with m :: _ => has M_PKTHDR m | [] => false end = true ->
      m_copypacket ch s = Some (r, s') -> mop s ch s' [r; ch]
  | op_dup r : match ch with m :: _ => has M_PKTHDR m = true | [] => False end ->
      Forall (fun m => 0 < m_len m) ch -> m_dup ch s = Some (r, s') -> mop s ch s' [r; ch]
  | op_append cp ok r : ch <> [] -> m_append ch cp s = Some ((ok, r), s') -> mop s ch s' [r]
  | op_defrag r r' : ch <> [] -> sum_len ch < 2 ^ 32 -> m_defrag ch s = Some ((r, r'), s') ->
      mop s ch s' [r; r']
  | op_collapse k ok r : ch <> [] -> 1 < k -> m_collapse ch k s = Some ((ok, r), s') -> mop s ch s' [r]
  | op_copyback off cp r : ch <> [] -> excl s ch -> 0 <= off -> cp <> [] ->
      m_copyback ch off cp s = Some (r, s') -> mop s ch s' [r]
  | op_free : m_freem ch s = Some (tt, s') -> mop s ch s' [].

(** The specification of the operation whose run is [E]. *)
Local Ltac spec_of H E :=
  let Q := fresh in
  pose proof H as Q; unfold wp in Q; rewrite E in Q; clear E; destruct Q as (? & ? & ?);
  cbn [fst snd] in *.

(** What every operation keeps. *)
Lemma mop_sound s ch s' new l :
  mop s ch s' new -> owned s (ch ++ l) -> pktlen_ok ch ->
  owned s' (concat new ++ l) /\ same s s' l /\ Forall pktlen_ok new.
Proof.
  intros Hop Ho Hp. destruct Hop as [n r E | len r Hne Hl E | len off r Hne Hl Hoff E | len0 r n ns Hl E Hh
    | r Hh E | r Hh Hlen E | cp ok r Hne E | r r' Hne Hlt E | k ok r Hne Hk E | off cp r Hne Hex Hoff Hcp E | E];
    cbn [concat]; rewrite ?app_nil_r; try (destruct ch as [| m0 ch]; [done |]).
  - spec_of (m_adj_wp s ch l n Ho) E. split_and!; auto. constructor; [tauto | done].
  - spec_of (m_pullup_wp s (m0 :: ch) l len Ho Hne Hl) E. split_and!; auto.
    constructor; [| done]. destruct r; [done | tauto].
  - spec_of (m_copyup_wp s (m0 :: ch) l len off Ho Hne Hl Hoff) E. split_and!; auto.
    constructor; [| done]. destruct r; [done | tauto].
  - pose proof (m_split_wp s m0 ch l len0 Ho ltac:(lia)) as H. unfold wp in H. rewrite E in H.
    destruct (split_pktlen _ _ _ _ _ _ _ _ _ H Ho Hl Hh Hp) as [Q1 Q2]. destruct H as (H1 & H2 & _).
    cbn [fst snd] in H1. rewrite <- app_assoc. split_and!; auto.
  - spec_of (m_copypacket_wp s (m0 :: ch) l Ho Hh) E. rewrite <- app_assoc.
    apply same_app in H0 as [_ H0]. split_and!; auto.
    constructor; [| now constructor]. destruct H1 as [[-> _] | [_ H1]]; [done | now apply H1].
  - spec_of (m_dup_wp s m0 ch l Ho Hh Hp Hlen) E. rewrite <- app_assoc.
    apply same_app in H0 as [_ H0]. split_and!; auto.
    constructor; [| now constructor]. destruct H1 as [[-> _] | [_ H1]]; done.
  - spec_of (m_append_wp s (m0 :: ch) cp l Ho Hne) E. split_and!; auto. constructor; [tauto | done].
  - spec_of (m_defrag_wp s (m0 :: ch) l Ho Hne Hlt) E. rewrite <- app_assoc. split_and!; auto.
    destruct r as [| n r]; [constructor; [done | constructor; [tauto | done]] |].
    destruct H1 as (_ & -> & H1). constructor; [now apply H1 | now constructor].
  - spec_of (m_collapse_wp s m0 ch l k Ho Hk) E. split_and!; auto. constructor; [tauto | done].
  - spec_of (m_copyback_wp s m0 ch l off cp Ho Hex Hoff Hcp) E. split_and!; auto.
    constructor; [tauto | done].
  - spec_of (law_freem ch s l Ho) E. now split_and!.
Qed.

(** A configuration: the state and the live chains. *)
Definition config : Type := mstate P * list (list mbuf).

Inductive mstep : config -> config -> Prop :=
  | step_op s ch s' new pre post :
      mop s ch s' new -> mstep (s, pre ++ ch :: post) (s', pre ++ new ++ post)
  | step_receive s buf off ifp r s' chs :
      m_devget buf off ifp None s = Some (r, s') -> mstep (s, chs) (s', r :: chs)
  | step_join s m n r s' pre mid post :
      match m, n with m1 :: _, n1 :: _ => has M_PKTHDR m1 && has M_PKTHDR n1 | _, _ => false end = true ->
      Forall (fun x => has M_PKTHDR x = true -> ph_snd_tag (m_pkthdr x) = None) n ->
      m_catpkt m n s = Some (r, s') ->
      mstep (s, pre ++ m :: mid ++ n :: post) (s', pre ++ r :: mid ++ post).

(** Every area the chains use is theirs, every mbuf describes bytes of its
    area, every packet header has the length of its chain. *)
Definition well_formed (c : config) : Prop :=
  owned c.1 (concat c.2) /\ Forall pktlen_ok c.2.

(** The bytes of a chain are those it had. *)
Definition unchanged s s' ch : Prop := chain_bytes s' ch = chain_bytes s ch.

Lemma unchanged_all s s' chs : same s s' (concat chs) -> Forall (unchanged s s') chs.
Proof.
  induction chs as [| ch chs IH]; cbn [concat]; [done |]. intros [H1 H2]%same_app.
  constructor; [now apply same_chain | now apply IH].
Qed.

(** A step keeps the configuration well formed; the chains it does not name
    are still there, with their bytes. *)
Lemma mstep_sound c c' :
  mstep c c' -> well_formed c ->
  well_formed c' /\
  exists gone kept new, c.2 ≡ₚ gone ++ kept /\ c'.2 ≡ₚ new ++ kept /\
    Forall (unchanged c.1 c'.1) kept /\ (length gone <= 2)%nat.
Proof.
  intros [s ch s' new pre post Hop | s buf off ifp r s' chs E | s m n r s' pre mid post Hh Ht E] [Ho Hp];
    unfold well_formed; cbn [fst snd] in *.
  - rewrite concat_app in *. cbn [concat] in Ho. apply Forall_app in Hp as [Hp1 [Hp2 Hp3]%Forall_cons_iff].
    destruct (mop_sound s ch s' new (concat pre ++ concat post) Hop) as (H1 & H2 & H3); auto.
    { revert Ho. apply owned_perm. solve_Permutation. }
    split; [split |].
    + rewrite concat_app. revert H1. apply owned_perm. solve_Permutation.
    + rewrite !Forall_app. now split_and!.
    + exists [ch], (pre ++ post), new. split_and!; [solve_Permutation | solve_Permutation | | simpl; lia].
      rewrite <- concat_app in H2. now apply unchanged_all.
  - pose proof (m_devget_wp s buf off ifp (concat chs) Ho) as H. unfold wp in H. rewrite E in H.
    destruct H as (H1 & H2 & H3). split; [split |].
    + exact H1.
    + constructor; [| done]. destruct H3 as [[-> _] | (_ & H3 & _)]; done.
    + exists [], chs, [r]. split_and!; [done | done | now apply unchanged_all | simpl; lia].
  - rewrite !concat_app in *. cbn [concat] in Ho. rewrite concat_app in Ho. cbn [concat] in Ho.
    rewrite !Forall_app, !Forall_cons_iff, !Forall_app, !Forall_cons_iff in Hp.
    destruct Hp as (Hp1 & Hp2 & Hp3 & Hp4 & Hp5).
    pose proof (m_catpkt_wp s m n (concat pre ++ concat mid ++ concat post)) as H.
    specialize (H ltac:(revert Ho; apply owned_perm; solve_Permutation) Hh Ht). unfold wp in H.
    rewrite E in H. destruct H as (H1 & H2 & _ & H4). split; [split |].
    + cbn [concat]. rewrite concat_app. revert H1. apply owned_perm. solve_Permutation.
    + rewrite Forall_app, Forall_cons_iff, Forall_app. split_and!; auto.
    + exists [m; n], (pre ++ mid ++ post), [r].
      split_and!; [solve_Permutation | solve_Permutation | | simpl; lia].
      rewrite <- !concat_app in H2. now apply unchanged_all.
Qed.

(** ** Properties *)

(** C16. Whatever sequence of the steps of [mstep] receives, trims, splits,
    copies, joins, rebuilds and frees chains, every mbuf describes bytes inside
    its data area and clear of the packet header, no data area has more users
    than its reference count says, and every packet header carries the length
    of its chain.  The steps are the operations under the conditions of [mop]
    and [mstep]; what these leave out is: an [m_split] that returns null (it
    can leave a wrong packet length, [m_split_failure_length]), an
    [m_copyback] of no bytes (so can that) or on a chain some area of which has
    another user, an [m_dup] of a chain with an empty mbuf (which can
    panic, [m_dup_empty_tail_panics]), splitting, copying or joining chains that
    are not packets, joining one that has a send tag, and negative lengths. *)
Theorem packets_well_formed s0 (c : config) :
  owned s0 [] -> rtc mstep (s0, []) c -> well_formed c.
Proof.
  intros Ho Hr. assert (well_formed (s0, [])) as H0 by now split.
  revert Hr H0. generalize (s0, @nil (list mbuf)). induction 1 as [| c1 c2 c3 Hs _ IH]; [done |].
  intros H0. apply IH. now apply (mstep_sound c1 c2).
Qed.

(** C17. A step on one chain, or the joining of two, leaves the bytes of every
    other live chain as they were, and a data area that two live mbufs describe
    is not writable.  The steps are those of C16.  For [m_copyback] the
    condition that no area of its chain has another user is essential: it
    stores without asking [M_WRITABLE], and [m_copyback_writes_through] shows it
    changing another chain. *)
Theorem packets_isolated (c c' : config) :
  mstep c c' -> well_formed c ->
  (exists gone kept new, c.2 ≡ₚ gone ++ kept /\ c'.2 ≡ₚ new ++ kept /\
     Forall (unchanged c.1 c'.1) kept /\ (length gone <= 2)%nat) /\
  (forall m m' l, concat c.2 ≡ₚ m :: m' :: l -> m_sid m = m_sid m' -> M_WRITABLE c.1 m = false).
Proof.
  intros Hs Hw. split; [now apply mstep_sound |]. intros m m' l Hp E. destruct Hw as [Ho _].
  apply (shared_readonly c.1 m m' l); [| done]. revert Ho. now apply owned_perm.
Qed.
End steps.
