(* ===== verification/MbufModel.v ===== *)
(** * The mbuf operations on a concrete allocator

    An allocator that hands out fresh data areas, up to a limit when there is
    one, and the macros of [sys/mbuf.h] over it.  It satisfies the laws of
    [MbufSpec.v], so the theorems about the operations hold of it; they are
    applied here to concrete packets. *)

From stdpp Require Import gmap.
From S2P Require Import Prelude Mbuf MbufSpec MbufOps MbufCopy MbufRebuild MbufSteps.

(** ** The allocator *)

Section model.
(** How many areas there are; [None] is an allocator that never fails. *)
Context (limit : option nat).

Notation mst := (mstate unit).

Definition pool_ref (s : mst) (sid : nat) : Z := default 0 (ms_ref s !! sid).

Definition pool_size (s : mst) (sid : nat) : Z :=
  match ms_mem s !! sid with Some st => Z.of_nat (length (st_bytes st)) | None => 0 end.

Definition pool_start (m : mbuf) : Z := if negb (has M_EXT m) && has M_PKTHDR m then 8 else 0.

Definition pool_flags (ext hdr : bool) : mflags :=
  fun f => match f with M_EXT => ext | M_PKTHDR => hdr | _ => false end.

Definition pool_get (ext hdr : bool) (ty : Z) : ST mst (option mbuf) :=
  fun s =>
    if match limit with None => true | Some k => bool_decide (size (ms_mem s) < k)%nat end
    then
      let sid := fresh (dom (ms_mem s)) in
      let len := if ext then 64%nat else 32%nat in
      Some (Some (Mbuf sid (if negb ext && hdr then 8 else 0) 0 (pool_flags ext hdr) ty pkthdr_zero),
            s <| ms_mem ::= <[sid := Storage 0 (replicate len 0)]> |>
              <| ms_ref ::= <[sid := 1]> |>)
    else Some (None, s).

Definition pool_free (m : mbuf) : ST mst unit :=
  fun s =>
    let r := pool_ref s (m_sid m) in
    Some (tt, if r <=? 1
              then s <| ms_mem ::= delete (m_sid m) |> <| ms_ref ::= delete (m_sid m) |>
              else s <| ms_ref ::= <[m_sid m := r - 1]> |>).

Fixpoint pool_freem (ch : list mbuf) : ST mst unit :=
  match ch with
  | [] => ret tt
  | m :: ch => do* pool_free m; pool_freem ch
  end.

Definition pool_writable (s : mst) (m : mbuf) : bool :=
  negb (has M_RDONLY m) && (negb (has M_EXT m) || (pool_ref s (m_sid m) =? 1)).

#[export] Instance pool_sys : MbufSys unit := {|
  MLEN := 32;
  MHLEN := 24;
  MCLBYTES := 64;
  MINCLSIZE := 25;
  max_protohdr := 8;
  max_linkhdr := 4;
  M_COPYALL := 1000000000;
  MT_DATA := 1;
  M_COPYFLAGS := fun f => match f with M_PKTHDR | M_RDONLY => true | _ => false end;
  M_DEMOTEFLAGS := fun f => match f with M_EXT | M_RDONLY => true | _ => false end;
  M_HASHTYPE_INNER := 128;
  M_HASHTYPE_NONE := 0;
  m_get := pool_get false false;
  m_gethdr := pool_get false true;
  m_getcl := fun ty hdr => pool_get true hdr ty;
  m_free := pool_free;
  m_freem := pool_freem;
  m_tag_copy_chain := fun t => ret (Some t);
  m_snd_tag_ref := fun _ => ret tt;
  M_WRITABLE := pool_writable;
  M_TRAILINGSPACE := fun s m =>
    if pool_writable s m then pool_size s (m_sid m) - (m_data m + m_len m) else 0;
  M_SIZE := fun s m => pool_size s (m_sid m) - pool_start m;
  M_ALIGN := fun m len =>
    pool_start m + (if has M_EXT m then 0 else Z.land (32 - pool_start m - len) (Z.lnot 7))
|}.

(** ** Its laws *)

(** A change to one area that no mbuf of [l] uses. *)
Section untouched.
Context (s s' : mst) (l : list mbuf) (sid : nat).
Context (Hne : Forall (fun m => m_sid m <> sid) l).
Context (Hx : forall x, x <> sid -> ms_mem s' !! x = ms_mem s !! x /\ ms_ref s' !! x = ms_ref s !! x).

Lemma untouched_same : same s s' l.
Proof.
  eapply Forall_impl; [| exact Hne]. intros m Hm. destruct (Hx _ Hm) as [E _].
  unfold mb_bytes, st_size. now rewrite E.
Qed.

Lemma untouched_users : no_new_users s s' l.
Proof.
  eapply Forall_impl; [| exact Hne]. intros m Hm. destruct (Hx _ Hm) as [_ E].
  unfold ref_of. now rewrite E.
Qed.

Lemma untouched_ok : Forall (mb_ok s) l -> Forall (mb_ok s') l.
Proof.
  intros Ho. rewrite Forall_forall in *. intros m Hm. destruct (Hx _ (Hne m Hm)) as [E1 E2].
  destruct (Ho m Hm) as [A1 A2 A3 A4 A5]. split; unfold st_size, ref_of in *; now rewrite ?E1, ?E2.
Qed.

Lemma untouched_owned m :
  owned s l -> mb_ok s' m -> m_sid m = sid -> 1 <= ref_of s' sid -> owned s' (m :: l).
Proof.
  intros [Ho Hu] Hm Hs Hr. split; [constructor; [done | now apply untouched_ok] |].
  intros x. rewrite uses_cons, Hs. destruct (decide (sid = x)) as [<- | Hn].
  - rewrite (proj2 (uses_0 sid l) Hne). lia.
  - specialize (Hu x). unfold ref_of in *. destruct (Hx x) as [_ ->]; [congruence | lia].
Qed.
End untouched.

Lemma pool_get_owned (ext hdr : bool) ty s l :
  owned s l ->
  wp (pool_get ext hdr ty) (fun r s' =>
    same s s' l /\ no_new_users s s' l /\
    match r with
    | None => owned s' l /\ limit <> None
    | Some m =>
        owned s' (m :: l) /\ ref_of s' (m_sid m) = 1 /\
        st_size s' (m_sid m) = (if ext then MCLBYTES else MLEN) /\
        m_data m = m_start m /\ m_len m = 0 /\ m_type m = ty /\
        has M_EXT m = ext /\ has M_PKTHDR m = hdr /\ has M_RDONLY m = false /\
        (hdr = true -> m_pkthdr m = pkthdr_zero)
    end) s.
Proof.
  intros Ho. unfold wp, pool_get. destruct (match limit with None => _ | Some k => _ end) eqn:El.
  2: { split_and!; auto using same_refl; [| now destruct limit].
       unfold no_new_users. apply Forall_forall. intros. lia. }
  cbn zeta. set (sid := fresh (dom (ms_mem s))). set (s' := _ <| ms_ref ::= _ |>).
  assert (sid ∉ dom (ms_mem s)) as Hfr by apply fin_sets.is_fresh.
  assert (Forall (fun m => m_sid m <> sid) l) as Hne.
  { apply Forall_forall. intros m Hm E. apply Hfr. rewrite <- E. apply elem_of_dom.
    destruct Ho as [Ho _]. rewrite Forall_forall in Ho. apply (Ho m Hm). }
  assert (forall x, x <> sid -> ms_mem s' !! x = ms_mem s !! x /\ ms_ref s' !! x = ms_ref s !! x) as Hx.
  { intros x Hx. simpl. now rewrite !lookup_insert_ne by congruence. }
  assert (ms_mem s' !! sid = Some (Storage 0 (replicate (if ext then 64 else 32)%nat 0))) as Hm
    by apply lookup_insert_eq.
  assert (ref_of s' sid = 1) as Hr by (unfold ref_of; simpl; now rewrite lookup_insert_eq).
  assert (st_size s' sid = if ext then 64 else 32) as Hsz
    by (unfold st_size; rewrite Hm; now destruct ext).
  split_and!; try reflexivity.
  - apply (untouched_same s s' l sid Hne Hx).
  - apply (untouched_users s s' l sid Hne Hx).
  - apply (untouched_owned s s' l sid Hne Hx _ Ho); [| done | lia].
    split; cbn [m_sid m_data m_len].
    + rewrite Hm. eauto.
    + unfold m_start, has, PKTDAT. simpl. destruct (negb ext && hdr); lia.
    + lia.
    + rewrite Hsz. destruct ext, hdr; simpl; lia.
    + intros E. change (has M_EXT _) with ext in E. subst ext. now split.
  - exact Hr.
  - exact Hsz.
Qed.

Lemma pool_free_owned m s l :
  owned s (m :: l) ->
  wp (pool_free m) (fun _ s' => owned s' l /\ same s s' l /\ no_new_users s s' l) s.
Proof.
  intros Ho. unfold wp, pool_free. cbn zeta.
  change (pool_ref s (m_sid m)) with (ref_of s (m_sid m)).
  destruct (Z.leb_spec (ref_of s (m_sid m)) 1) as [Hle | Hgt].
  - pose proof (owned_unique _ _ _ Ho Hle) as Hne. pose proof (owned_cons _ _ _ Ho) as [_ Ho'].
    set (s' := _ <| ms_ref ::= _ |>).
    assert (forall x, x <> m_sid m -> ms_mem s' !! x = ms_mem s !! x /\ ms_ref s' !! x = ms_ref s !! x) as Hx.
    { intros x Hx. simpl. now rewrite !lookup_delete_ne by congruence. }
    assert (Forall (fun x => m_sid x <> m_sid m) l) as Hne'.
    { eapply Forall_impl; [| exact Hne]. simpl. congruence. }
    split_and!; [| now apply (untouched_same s s' l (m_sid m)) | now apply (untouched_users s s' l (m_sid m))].
    split; [apply (untouched_ok s s' l (m_sid m)); [done | done | apply Ho'] |].
    intros x. destruct (decide (x = m_sid m)) as [-> | Hn].
    + rewrite (proj2 (uses_0 _ l) Hne'). unfold ref_of. simpl. now rewrite lookup_delete_eq.
    + unfold ref_of. destruct (Hx x Hn) as [_ ->]. apply Ho'.
  - set (s' := _ <| ms_ref ::= _ |>). destruct Ho as [Hok Hu].
    assert (forall x, ref_of s' x = if decide (x = m_sid m) then ref_of s x - 1 else ref_of s x) as Hr.
    { intros x. unfold ref_of. simpl. destruct (decide (x = m_sid m)) as [-> | Hn];
        [now rewrite lookup_insert_eq | now rewrite lookup_insert_ne by congruence]. }
    assert (forall x, st_size s' x = st_size s x) as Hsz by done.
    apply Forall_cons_iff in Hok as [_ Hok]. split_and!.
    + split.
      * eapply Forall_impl; [| exact Hok]. intros x [A1 A2 A3 A4 A5]. split; auto.
        intros E. destruct (A5 E) as [B1 B2]. rewrite Hr. destruct (decide _) as [E' |]; [| now split].
        rewrite E' in B2. lia.
      * intros x. specialize (Hu x). rewrite uses_cons in Hu. rewrite Hr.
        destruct (decide (m_sid m = x)) as [E | E], (decide (x = m_sid m)); try congruence; lia.
    + apply Forall_forall. intros x _. split; reflexivity.
    + apply Forall_forall. intros x _. rewrite Hr. destruct (decide _); lia.
Qed.

Lemma pool_freem_owned ch s l :
  owned s (ch ++ l) ->
  wp (pool_freem ch) (fun _ s' => owned s' l /\ same s s' l /\ no_new_users s s' l) s.
Proof.
  revert s. induction ch as [| m ch IH]; intros s Ho; cbn [pool_freem].
  - apply wp_ret. split_and!; auto using same_refl. apply Forall_forall. intros; lia.
  - apply wp_bind. eapply wp_mono; [apply (pool_free_owned m s (ch ++ l)); exact Ho |].
    intros ? s1 (H1 & [_ H2]%same_app & H3). eapply wp_mono; [apply (IH s1 H1) |].
    intros ? s2 (I1 & I2 & I3). apply Forall_app in H3 as [_ H3].
    split_and!; auto; [eapply same_trans; eassumption | eapply nnu_trans; eassumption].
Qed.

#[export] Instance pool_laws : MbufLaws unit.
Proof.
  refine {| may_fail := limit <> None |}.
  - simpl. lia.
  - simpl. lia.
  - done.
  - done.
  - intros k ext hdr ty s l Hk Ho.
    destruct Hk as [(-> & -> & ->) | [(-> & -> & ->) | (-> & ->)]]; now apply pool_get_owned.
  - apply pool_free_owned.
  - apply pool_freem_owned.
  - intros t s l Ho. apply wp_ret. now split_and!; auto using same_refl.
  - intros t s l Ho. apply wp_ret. now split_and!; auto using same_refl.
  - intros s m Hm Hw. simpl in Hw. unfold pool_writable in Hw. apply andb_prop in Hw as [_ Hw].
    apply orb_prop in Hw as [Hw | Hw].
    + apply negb_true_iff in Hw. destruct (ok_inline _ _ Hm Hw) as [_ E]. lia.
    + apply Z.eqb_eq in Hw. change (ref_of s (m_sid m) = 1) in Hw. lia.
  - done.
  - done.
  - intros s m len Hm Hl. pose proof (ok_start _ _ Hm) as [Hst _].
    assert (pool_start m = m_start m) as E by done. simpl. rewrite E. destruct (has M_EXT m) eqn:He; [lia |].
    destruct (ok_inline _ _ Hm He) as [Hsz _]. simpl in Hsz. rewrite Hsz in *.
    set (a := 32 - m_start m - len). assert (0 <= a) by lia.
    change (Z.lnot 7) with (Z.lnot (Z.ones 3)). rewrite <- Z.ldiff_land, Z.ldiff_ones_r by lia.
    rewrite Z.shiftl_mul_pow2, Z.shiftr_div_pow2 by lia. change (2 ^ 3) with 8. zdiv.
Defined.
End model.

(** ** Checking the invariant *)

(** [owned] by computation, for the concrete states below. *)
Definition ownedb (s : mstate unit) (l : list mbuf) : bool :=
  let sys := pool_sys None in
  forallb (fun m =>
    bool_decide (is_Some (ms_mem s !! m_sid m)) && (0 <=? m_start m) && (m_start m <=? m_data m) &&
    (0 <=? m_len m) && (m_data m + m_len m <=? st_size s (m_sid m)) &&
    (has M_EXT m || (st_size s (m_sid m) =? 32) && (ref_of s (m_sid m) =? 1)) &&
    (Z.of_nat (uses (m_sid m) l) <=? ref_of s (m_sid m))) l &&
  bool_decide (map_Forall (fun _ r => 0 <= r) (ms_ref s)).

Lemma ownedb_owned limit s l : ownedb s l = true -> @owned unit (pool_sys limit) s l.
Proof.
  unfold ownedb. intros [Hl Hr]%andb_prop. rewrite forallb_forall in Hl.
  apply bool_decide_eq_true in Hr. split.
  - apply Forall_forall. intros m Hm. specialize (Hl m Hm). cbv beta zeta in Hl.
    rewrite !andb_true_iff, orb_true_iff, andb_true_iff, !Z.leb_le, !Z.eqb_eq in Hl.
    destruct Hl as ((((((A1 & A2) & A3) & A4) & A5) & A6) & A7). apply bool_decide_eq_true in A1.
    split; [exact A1 | now split | exact A4 | exact A5 |]. intros He. destruct A6; [congruence | done].
  - intros sid. destruct (decide (Exists (fun m => m_sid m = sid) l)) as [Hx | Hn].
    + apply Exists_exists in Hx as (m & Hm & <-). specialize (Hl m Hm). cbv beta zeta in Hl.
      apply andb_prop in Hl as [_ Hl]. now apply Z.leb_le.
    + assert (uses sid l = O) as ->.
      { apply uses_0. apply Forall_forall. intros m Hm E. apply Hn, Exists_exists. eauto. }
      unfold ref_of. destruct (ms_ref s !! sid) as [r |] eqn:E; simpl; [| lia]. apply (Hr sid r E).
Qed.

(** A packet of 19 bytes in three mbufs: 4 bytes behind the header, 10 in a
    cluster that a second chain also uses, 5 in a plain mbuf. *)
Definition ex_flags (ext hdr : bool) : mflags := pool_flags ext hdr.

Definition ex_hdr (len : Z) : pkthdr := Pkthdr len 0 None [] 0.

Definition ex_area (n : nat) (b : list Z) : storage :=
  Storage 0 (b ++ replicate (n - length b) 0).

Definition ex_state : mstate unit :=
  Mstate {[ 0%nat := ex_area 32 (replicate 8 0 ++ [1; 2; 3; 4]);
            1%nat := ex_area 64 [5; 6; 7; 8; 9; 10; 11; 12; 13; 14];
            2%nat := ex_area 32 [15; 16; 17; 18; 19] ]}
         {[ 0%nat := 1; 1%nat := 2; 2%nat := 1 ]} tt.

Definition ex_m0 : mbuf := Mbuf 0 8 4 (ex_flags false true) 1 (ex_hdr 19).
Definition ex_m1 : mbuf := Mbuf 1 0 10 (ex_flags true false) 1 (ex_hdr 0).
Definition ex_m2 : mbuf := Mbuf 2 0 5 (ex_flags false false) 1 (ex_hdr 0).
Definition ex_chain : list mbuf := [ex_m0; ex_m1; ex_m2].
Definition ex_other : list mbuf := [Mbuf 1 2 4 (ex_flags true false) 1 (ex_hdr 0)].

Lemma ex_owned limit : @owned unit (pool_sys limit) ex_state (ex_chain ++ ex_other).
Proof. apply ownedb_owned. vm_compute. reflexivity. Qed.

(** ** The properties at work *)

Local Notation sys := (pool_sys None).

(** The result of a run that does not panic. *)
Definition result {A} (d : A) (m : ST (mstate unit) A) (s : mstate unit) : A * mstate unit :=
  default (d, s) (m s).

Definition ex_empty : mstate unit := Mstate ∅ ∅ tt.
Definition ex_recv : list mbuf * mstate unit :=
  result [] (@m_devget unit sys (Z.of_nat <$> seq 1 70) 0 7 None) ex_empty.
Definition ex_copied : list mbuf * mstate unit :=
  result [] (@m_copypacket unit sys ex_recv.1) ex_recv.2.
Definition ex_trimmed : list mbuf * mstate unit :=
  result [] (@m_adj unit sys ex_copied.1 5) ex_copied.2.

(** Receive 70 bytes, copy the packet, trim the copy. *)
Lemma ex_run : rtc (@mstep unit sys) (ex_empty, []) (ex_trimmed.2, [ex_trimmed.1; ex_recv.1]).
Proof.
  apply rtc_l with (y := (ex_recv.2, [ex_recv.1])).
  { apply (step_receive _ (Z.of_nat <$> seq 1 70) 0 7). vm_compute. reflexivity. }
  apply rtc_l with (y := (ex_copied.2, [ex_copied.1; ex_recv.1])).
  { apply (step_op _ ex_recv.1 _ [ex_copied.1; ex_recv.1] [] []). apply op_copypacket; vm_compute; reflexivity. }
  apply rtc_once, (step_op _ ex_copied.1 _ [ex_trimmed.1] [] [ex_recv.1]).
  apply (op_adj _ _ _ 5). vm_compute. reflexivity.
Qed.

Lemma ex_empty_owned : @owned unit sys ex_empty [].
Proof. apply ownedb_owned. vm_compute. reflexivity. Qed.

Lemma packets_well_formed_witness :
  @well_formed unit sys (ex_trimmed.2, [ex_trimmed.1; ex_recv.1]) /\
  chain_bytes ex_trimmed.2 ex_trimmed.1 = drop 5 (chain_bytes ex_trimmed.2 ex_recv.1).
Proof.
  split; [| vm_compute; reflexivity].
  exact (packets_well_formed (ML := pool_laws None) ex_empty _ ex_empty_owned ex_run).
Defined.

Lemma ex_well_formed : @well_formed unit sys (ex_state, [ex_chain; ex_other]).
Proof.
  split; [apply ownedb_owned; vm_compute; reflexivity |].
  repeat constructor; intros H; vm_compute in H |- *; congruence.
Qed.

Definition ex_adj : list mbuf * mstate unit := result [] (@m_adj unit sys ex_chain (-6)) ex_state.

Lemma packets_isolated_witness :
  @M_WRITABLE unit sys ex_state ex_m1 = false /\
  exists kept, [ex_adj.1; ex_other] ≡ₚ kept ++ [ex_adj.1] /\ Forall (unchanged ex_state ex_adj.2) kept.
Proof.
  assert (@mstep unit sys (ex_state, [ex_chain; ex_other]) (ex_adj.2, [ex_adj.1; ex_other])) as Hs.
  { apply (step_op _ ex_chain _ [ex_adj.1] [] [ex_other]). apply (op_adj _ _ _ (-6)). vm_compute. reflexivity. }
  destruct (packets_isolated (ML := pool_laws None) _ _ Hs ex_well_formed) as [_ H2]. split.
  - apply (H2 ex_m1 (Mbuf 1 2 4 (ex_flags true false) 1 (ex_hdr 0)) [ex_m0; ex_m2]); [| done].
    simpl. solve_Permutation.
  - exists [ex_other]. split; [solve_Permutation |]. repeat constructor.
Defined.

Lemma m_pullup_witness :
  wp (@m_pullup unit sys ex_chain 10) (fun r s' =>
    exists m r', r = m :: r' /\ take 10 (mb_bytes s' m) = [1; 2; 3; 4; 5; 6; 7; 8; 9; 10]) ex_state.
Proof.
  eapply wp_mono.
  { apply (m_pullup_contiguous (ML := pool_laws None) ex_state ex_chain ex_other 10 (ex_owned None)); done. }
  intros [| m r] s' (_ & _ & H).
  - exfalso. destruct H as [H | [H | H]]; [vm_compute in H | apply H | vm_compute in H]; done.
  - exists m, r. split; [done |]. apply H.
Defined.

Lemma m_split_witness :
  wp (@m_split unit sys ex_chain 9) (fun r s' =>
    chain_bytes s' r.1 = [1; 2; 3; 4; 5; 6; 7; 8; 9] /\
    chain_bytes s' r.2 = [10; 11; 12; 13; 14; 15; 16; 17; 18; 19] /\ pktlen_ok r.2) ex_state.
Proof.
  eapply wp_mono.
  { apply (m_split_halves (ML := pool_laws None) ex_state ex_m0 [ex_m1; ex_m2] ex_other 9 (ex_owned None));
      [split; vm_compute; congruence | intros _; reflexivity]. }
  intros [r1 [| n ns]] s' (_ & _ & H); cbn [fst snd] in *.
  - exfalso. destruct H as [_ [H | H]]; [vm_compute in H; congruence | now apply H].
  - destruct H as ([H1 H2] & H3). split_and!; [now rewrite H1 | now rewrite H2 | now apply H3].
Defined.

Lemma m_copym_witness :
  wp (@m_copym unit sys ex_chain 2 9) (fun r s' =>
    chain_bytes s' r = [3; 4; 5; 6; 7; 8; 9; 10; 11] /\
    chain_bytes s' ex_chain = chain_bytes ex_state ex_chain) ex_state.
Proof.
  eapply wp_mono.
  { apply (m_copym_range (ML := pool_laws None) ex_state ex_chain ex_other 2 9 (ex_owned None));
      split_and!; [vm_compute; congruence | vm_compute; congruence | lia | right; split; vm_compute; congruence]. }
  intros r s' (_ & H1 & _ & [[_ H2] | H2] & _); [exfalso; now apply H2 |].
  split; [now rewrite H2 | done].
Defined.

Lemma m_defrag_witness :
  wp (@m_defrag unit sys ex_chain) (fun r s' =>
    chain_bytes s' r.1 = Z.of_nat <$> seq 1 19 /\ r.2 = [] /\ pktlen_ok r.1) ex_state.
Proof.
  eapply wp_mono.
  { apply (m_defrag_same (ML := pool_laws None) ex_state ex_chain ex_other (ex_owned None)); [done | vm_compute; congruence]. }
  intros [[| n r1] r2] s' (_ & _ & H); cbn [fst snd] in *; [exfalso; now apply H |].
  destruct H as ([H1 H3] & H2). split_and!; [now rewrite H1 | done | now apply H3; intros _].
Defined.

(** A packet of its own: a header mbuf and a plain one. *)
Definition ex_own : list mbuf := [ex_m0 <| m_pkthdr := ex_hdr 9 |>; ex_m2].

Lemma m_copyback_witness :
  wp (@m_copyback unit sys ex_own 11 [42; 43]) (fun r s' =>
    chain_bytes s' r = [1; 2; 3; 4; 15; 16; 17; 18; 19; 0; 0; 42; 43] /\ pktlen_ok r) ex_state.
Proof.
  eapply wp_mono.
  { apply (m_copyback_bytes (ML := pool_laws None) ex_state (ex_m0 <| m_pkthdr := ex_hdr 9 |>) [ex_m2] [] 11 [42; 43]);
      [apply ownedb_owned; vm_compute; reflexivity | | lia | done | intros H; now apply H].
    repeat constructor; vm_compute; congruence. }
  intros r s' (_ & _ & H1 & H2). split; [rewrite H2; vm_compute; reflexivity | now apply H1; intros _].
Defined.

(** Stored into a chain with a shared cluster, bytes change the other chain. *)
Theorem m_copyback_writes_through :
  exists r s', @m_copyback unit sys ex_chain 6 [42; 43] ex_state = Some (r, s') /\
    @well_formed unit sys (ex_state, [ex_chain; ex_other]) /\
    chain_bytes ex_state ex_other = [7; 8; 9; 10] /\ chain_bytes s' ex_other = [42; 43; 9; 10].
Proof.
  do 2 eexists. split; [vm_compute; reflexivity |].
  split_and!; [exact ex_well_formed | vm_compute; reflexivity | vm_compute; reflexivity].
Qed.

(** ** Two corners *)

(** A packet of 29 bytes: 24 behind the header, 5 in a second mbuf. *)
Definition ex_full_state : mstate unit :=
  Mstate {[ 0%nat := ex_area 32 (replicate 8 0 ++ (Z.of_nat <$> seq 1 24));
            1%nat := ex_area 32 [25; 26; 27; 28; 29] ]}
         {[ 0%nat := 1; 1%nat := 1 ]} tt.
Definition ex_full : list mbuf :=
  [Mbuf 0 8 24 (ex_flags false true) 1 (ex_hdr 29); Mbuf 1 0 5 (ex_flags false false) 1 (ex_hdr 0)].
Definition ex_full_trimmed : list mbuf * mstate unit :=
  result [] (@m_adj unit sys ex_full (-5)) ex_full_state.

(** Trimming five bytes off the end of a packet leaves its last mbuf
    empty and the chain well formed; when the other bytes fill the first mbuf
    of the copy exactly, [m_dup] of that packet fails its own assertion,
    although no allocation fails. *)
Theorem m_dup_empty_tail_panics :
  @well_formed unit sys (ex_full_trimmed.2, [ex_full_trimmed.1]) /\
  chain_bytes ex_full_trimmed.2 ex_full_trimmed.1 = Z.of_nat <$> seq 1 24 /\
  @m_dup unit sys ex_full_trimmed.1 ex_full_trimmed.2 = None.
Proof.
  split_and!; [split | vm_compute; reflexivity | vm_compute; reflexivity].
  - apply ownedb_owned. vm_compute. reflexivity.
  - apply Forall_cons_iff. split; [intros _; vm_compute; reflexivity | done].
Qed.

(** A packet of 36 bytes whose second mbuf has more bytes than an mbuf with a
    packet header. *)
Definition ex_deep_state : mstate unit :=
  Mstate {[ 0%nat := ex_area 32 (replicate 8 0 ++ [1; 2; 3; 4]);
            1%nat := ex_area 32 (Z.of_nat <$> seq 5 32) ]}
         {[ 0%nat := 1; 1%nat := 1 ]} tt.
Definition ex_deep : list mbuf :=
  [Mbuf 0 8 4 (ex_flags false true) 1 (ex_hdr 36); Mbuf 1 0 32 (ex_flags false false) 1 (ex_hdr 0)].

(** When the second allocation of [m_split] fails, the null result leaves
    all bytes in the chain but the packet length at [len0]. *)
Theorem m_split_failure_length :
  exists r s', @m_split unit (pool_sys (Some 3%nat)) ex_deep 6 ex_deep_state = Some ((r, []), s') /\
    @well_formed unit sys (ex_deep_state, [ex_deep]) /\
    chain_bytes s' r = chain_bytes ex_deep_state ex_deep /\
    (ph_len ∘ m_pkthdr <$> head r) = Some 6 /\ sum_len r = 36.
Proof.
  do 2 eexists. split; [vm_compute; reflexivity |]. split_and!; [split | | |].
  - apply ownedb_owned. vm_compute. reflexivity.
  - apply Forall_cons_iff. split; [intros _; vm_compute; reflexivity | done].
  - vm_compute. reflexivity.
  - vm_compute. reflexivity.
  - vm_compute. reflexivity.
Qed.
