(* ===== verification/Cksum.v ===== *)
(** * The Internet checksum

    [fstack-capio/modified-sources/freebsd/arm64/arm64/in_cksum.c]: the
    checksum of the bytes of an mbuf chain, computed a 32-bit word at a time
    with care for unaligned heads and tails, in the version for CHERI and in
    the original one, both proved against the one's complement sum of RFC
    1071.

    A load outside the data area the pointer's capability covers faults
    ([None]). *)

From stdpp Require Import gmap.
From S2P Require Import Prelude Mbuf MbufSpec.

(** ** Loads *)

Definition ld_bytes (st : storage) (o n : Z) : option (list Z) :=
  if (0 <=? o) && (0 <=? n) && (o + n <=? Z.of_nat (length (st_bytes st)))
  then Some (buf_read (st_bytes st) (Z.to_nat o) (Z.to_nat n)) else None.

(** [lw[i]], with [lw] at offset [o] of the area. *)
Definition ld32 (st : storage) (o i : Z) : option Z := le_word <$> ld_bytes st (o + 4 * i) 4.

(** ** [in_cksum.c] *)

Definition ADDCARRY (x : Z) : Z := if 65535 <? x then x - 65535 else x.

(** The sum of the four 16-bit parts of a 64-bit number. *)
Definition REDUCE32 (sum : Z) : Z :=
  bits 0 16 sum + bits 16 16 sum + bits 32 16 sum + bits 48 16 sum.

Definition REDUCE16 (sum : Z) : Z :=
  let l := u32 (REDUCE32 sum) in
  ADDCARRY (bits 0 16 l + bits 16 16 l).

Definition in_masks : list Z :=
  [0x00000000; 0x000000FF; 0x0000FFFF; 0x00FFFFFF;
   0x00000000; 0x0000FF00; 0x00FFFF00; 0xFFFFFF00;
   0x00000000; 0x00FF0000; 0xFFFF0000; 0xFFFF0000;
   0x00000000; 0xFF000000; 0xFF000000; 0xFF000000].

(** The sum of words [i] to [i + n - 1] from [lw] on. *)
Fixpoint ld_sum (st : storage) (o i : Z) (n : nat) : option Z :=
  match n with
  | O => Some 0
  | S n => w ← ld32 st o i; r ← ld_sum st o (i + 1) n; Some (w + r)
  end.

(** The unrolled loop over 32 bytes, which loads the first word of the next
    round ahead: [lw], [len], [sum] and [prefilled] after it. *)
Fixpoint cksum_loop32 (fuel : nat) (st : storage) (lw len sum prefilled : Z) :
    option (Z * Z * Z * Z) :=
  match fuel with
  | O => None
  | S fuel =>
      let len := len - 32 in
      if 4 <=? len then
        prefilling ← ld32 st lw 8;
        t ← ld_sum st lw 1 7;
        cksum_loop32 fuel st (lw + 32) len (u64 (sum + (prefilled + t))) prefilling
      else Some (lw, len, sum, prefilled)
  end.

(** The loops over [4 * n] bytes: [lw], [len] and [sum] after it. *)
Fixpoint cksum_loop (fuel n : nat) (st : storage) (lw len sum : Z) : option (Z * Z * Z) :=
  match fuel with
  | O => None
  | S fuel =>
      let len := len - 4 * Z.of_nat n in
      if 0 <=? len then
        t ← ld_sum st lw 0 n;
        cksum_loop fuel n st (lw + 4 * Z.of_nat n) len (u64 (sum + t))
      else Some (lw, len + 4 * Z.of_nat n, sum)
  end.

Section in_cksum.
(** [__CHERI_PURE_CAPABILITY__]. *)
Context (purecap : bool).

(** From the aligned pointer [lw] to the end of the function. *)
Definition in_cksumdata_aligned (st : storage) (lw len sum : Z) : option Z :=
  let fuel := S (Z.to_nat len) in
  prefilled ← ld32 st lw 0;
  '(lw, len, sum, prefilled) ← cksum_loop32 fuel st lw len sum prefilled;
  '(lw, len, sum) ←
    (if 0 <=? len then
       t ← ld_sum st lw 1 7; Some (lw + 32, len, u64 (sum + (prefilled + t)))
     else Some (lw, len + 32, sum));
  '(lw, len, sum) ← cksum_loop fuel 4 st lw len sum;
  '(lw, len, sum) ← cksum_loop fuel 1 st lw len sum;
  sum ← (if 0 <? len then
           if purecap then t ← ld_bytes st lw len; Some (u64 (sum + le_word t))
           else w ← ld32 st lw 0; Some (u64 (sum + Z.land (arr_get in_masks len) w))
         else Some sum);
  Some (REDUCE32 sum).

(** [in_cksumdata (buf, len)], with [buf] at offset [o] of the area. *)
Definition in_cksumdata (st : storage) (o len : Z) : option Z :=
  let offset := Z.land 3 (st_base st + o) in
  if (offset =? 0) && (len =? 20) then
    t ← ld_sum st o 0 5; Some (REDUCE32 t)
  else if negb (offset =? 0) then
    '(lw, sum) ←
      (if purecap then
         let nhead := if len <? 4 - offset then len else 4 - offset in
         h ← ld_bytes st o nhead;
         Some (o + nhead, le_word (replicate (Z.to_nat offset) 0 ++ h))
       else
         w ← ld32 st (o - offset) 0;
         Some (o - offset + 4,
               Z.land w (arr_get in_masks (offset * 4 + (if 3 <=? len then 3 else len)))));
    let len := len - (4 - offset) in
    if len <=? 0 then Some (REDUCE32 sum)
    else in_cksumdata_aligned st lw len sum
  else in_cksumdata_aligned st o len 0.

Definition in_addword (a b : Z) : Z := ADDCARRY (a + b).

Definition in_pseudo (a b c : Z) : Z := REDUCE16 (u64 (a + b + c)).

(** The loop that passes over [skip] bytes: the rest of the chain and what is
    left of [skip]. *)
Fixpoint cksum_seek (ch : list mbuf) (skip : Z) : list mbuf * Z :=
  match ch with
  | [] => ([], skip)
  | m :: r => if skip =? 0 then (ch, 0)
              else if skip <? m_len m then (ch, skip)
              else cksum_seek r (skip - m_len m)
  end.

Section chain.
Context {P : Type}.
Implicit Types (s : mstate P).

(** The body of the second loop from the label [skip_start] on, for the [mlen]
    bytes of [m] at [off]: [sum], [clen] and [len] after it. *)
Definition cksum_part s (m : mbuf) (off mlen len clen sum : Z) : option (Z * Z * Z) :=
  st ← ms_mem s !! m_sid m;
  let mlen := if len <? mlen then len else mlen in
  let addr := m_data m + off in
  d ← in_cksumdata st addr mlen;
  let d := if Z.testbit (Z.lxor clen (st_base st + addr)) 0 then u64 (Z.shiftl d 8) else d in
  Some (u64 (sum + d), clen + mlen, len - mlen).

Fixpoint cksum_chain s (ch : list mbuf) (len clen sum : Z) : option Z :=
  match ch with
  | [] => Some sum
  | m :: r =>
      if len =? 0 then Some sum
      else if m_len m =? 0 then cksum_chain s r len clen sum
      else
        '(sum, clen, len) ← cksum_part s m 0 (m_len m) len clen sum;
        cksum_chain s r len clen sum
  end.

Definition in_cksum_skip s (ch : list mbuf) (len skip : Z) : option Z :=
  let len := len - skip in
  let (ch, skip) := cksum_seek ch skip in
  sum ← match ch with
        | m :: r =>
            if negb (skip =? 0) then
              '(sum, clen, len) ← cksum_part s m skip (m_len m - skip) len 0 0;
              cksum_chain s r len clen sum
            else cksum_chain s ch len 0 0
        | [] => Some 0
        end;
  Some (Z.land (Z.lnot (REDUCE16 sum)) 0xffff).
End chain.

(** [sizeof (struct ip)] is 20. *)
Definition in_cksum_hdr (st : storage) (ip : Z) : option Z :=
  sum ← in_cksumdata st ip 20;
  Some (Z.land (Z.lnot (REDUCE16 sum)) 0xffff).
End in_cksum.

(** ** Sums of words *)

(** The sum of the little-endian 32-bit words of [l], the last one padded
    with zeroes. *)
Fixpoint wsum (l : list Z) : Z :=
  match l with
  | a :: b :: c :: d :: r => le_word [a; b; c; d] + wsum r
  | _ => le_word l
  end.

Definition rd (st : storage) (o n : Z) : list Z :=
  buf_read (st_bytes st) (Z.to_nat o) (Z.to_nat n).

Definition area_size (st : storage) : Z := Z.of_nat (length (st_bytes st)).

Lemma list4_shorter_ind (Q : list Z -> Prop) :
  (forall l, (length l < 4)%nat -> Q l) ->
  (forall a b c d r, Q r -> Q (a :: b :: c :: d :: r)) -> forall l, Q l.
Proof.
  intros H0 H4 l. remember (length l) as n eqn:Hn. revert l Hn.
  induction n as [n IH] using (well_founded_induction lt_wf). intros l ->.
  destruct l as [| a [| b [| c [| d r]]]]; try (apply H0; simpl; lia).
  apply H4. apply (IH (length r)); simpl; [lia | done].
Qed.

Lemma wsum_short l : (length l < 4)%nat -> wsum l = le_word l.
Proof. destruct l as [| a [| b [| c [| d r]]]]; simpl; intros; done || lia. Qed.

Lemma wsum_le4 l : (length l <= 4)%nat -> wsum l = le_word l.
Proof.
  destruct l as [| a [| b [| c [| d [| e r]]]]]; try done; simpl length; [| lia].
  cbn [wsum le_word]. lia.
Qed.

Lemma wsum_bound l : Forall is_byte l -> 0 <= wsum l <= 2 ^ 32 * Z.of_nat (length l).
Proof.
  induction l as [l Hl | a b c d r IH] using list4_shorter_ind; intros Hb.
  - rewrite wsum_short by done. pose proof (le_word_bound l Hb).
    destruct l as [| a [| b [| c [| d r]]]]; simpl length in *; try lia; simpl in *; lia.
  - cbn [wsum]. pose proof (le_word_bound [a; b; c; d]) as H4.
    repeat (apply Forall_cons_iff in Hb as [? Hb]). specialize (IH Hb).
    specialize (H4 ltac:(rewrite !Forall_cons_iff; split_and!; auto)).
    change (256 ^ Z.of_nat (length [a; b; c; d])) with (2 ^ 32) in H4.
    rewrite !length_cons. lia.
Qed.

Lemma wsum_app x y : (length x mod 4 = 0)%nat -> wsum (x ++ y) = wsum x + wsum y.
Proof.
  induction x as [x Hx | a b c d r IH] using list4_shorter_ind; intros Hm.
  - destruct x; [done |]. rewrite Nat.mod_small in Hm by done. discriminate Hm.
  - simpl app. cbn [wsum]. rewrite IH; [lia |].
    rewrite !length_cons in Hm. replace (S (S (S (S (length r))))) with (length r + 1 * 4)%nat in Hm by lia.
    now rewrite Nat.Div0.mod_add in Hm.
Qed.

Lemma ld_bytes_rd st o n :
  0 <= o -> 0 <= n -> o + n <= area_size st -> ld_bytes st o n = Some (rd st o n).
Proof.
  intros. unfold ld_bytes, area_size in *.
  now rewrite !(proj2 (Z.leb_le _ _)) by lia.
Qed.

Lemma length_rd st o n : 0 <= o -> 0 <= n -> o + n <= area_size st -> length (rd st o n) = Z.to_nat n.
Proof. intros. unfold rd, area_size in *. apply length_buf_read. lia. Qed.

Lemma rd_app st o n k : 0 <= o -> 0 <= n -> 0 <= k -> rd st o (n + k) = rd st o n ++ rd st (o + n) k.
Proof.
  intros. unfold rd. rewrite Z2Nat.inj_add, (Z2Nat.inj_add o n) by lia.
  symmetry. apply buf_read_app.
Qed.

Lemma rd_bytes st o n : Forall is_byte (st_bytes st) -> Forall is_byte (rd st o n).
Proof. intros. now apply buf_read_is_byte. Qed.

(** A run of [4 * n] bytes comes off the front of a sum. *)
Lemma wsum_front st lw n len :
  0 <= lw -> 4 * Z.of_nat n <= len -> lw + len <= area_size st ->
  wsum (rd st lw len) =
  wsum (rd st lw (4 * Z.of_nat n)) + wsum (rd st (lw + 4 * Z.of_nat n) (len - 4 * Z.of_nat n)).
Proof.
  intros. replace len with (4 * Z.of_nat n + (len - 4 * Z.of_nat n)) at 1 by lia.
  rewrite rd_app by lia. apply wsum_app. rewrite length_rd by lia.
  replace (Z.to_nat (4 * Z.of_nat n)) with (n * 4)%nat by lia. apply Nat.Div0.mod_mul.
Qed.

Lemma ld32_rd st o i :
  0 <= o + 4 * i -> o + 4 * i + 4 <= area_size st -> ld32 st o i = Some (wsum (rd st (o + 4 * i) 4)).
Proof.
  intros. unfold ld32. rewrite ld_bytes_rd by lia. simpl. f_equal.
  pose proof (length_rd st (o + 4 * i) 4 ltac:(lia) ltac:(lia) ltac:(lia)) as Hl.
  destruct (rd st (o + 4 * i) 4) as [| a [| b [| c [| d [| e r]]]]]; try discriminate Hl.
  cbn [wsum]. change (le_word []) with 0. lia.
Qed.

Lemma ld_sum_rd st o i n :
  0 <= o + 4 * i -> o + 4 * i + 4 * Z.of_nat n <= area_size st ->
  ld_sum st o i n = Some (wsum (rd st (o + 4 * i) (4 * Z.of_nat n))).
Proof.
  revert i. induction n as [| n IH]; intros i H1 H2; [done |].
  cbn [ld_sum]. rewrite ld32_rd, IH by lia. simpl. f_equal.
  rewrite (wsum_front st (o + 4 * i) 1 (4 * Z.of_nat (S n))) by lia.
  change (4 * Z.of_nat 1) with 4. f_equal. f_equal. f_equal; lia.
Qed.

Lemma cksum_loop32_sum st fuel lw len sum pre :
  Forall is_byte (st_bytes st) -> 0 <= lw -> 0 <= len -> lw + len <= area_size st -> 0 <= sum ->
  sum + wsum (rd st lw len) < 2 ^ 64 -> (32 <= len -> pre = wsum (rd st lw 4)) ->
  (Z.to_nat len < fuel)%nat ->
  exists lw' len' sum' pre', cksum_loop32 fuel st lw len sum pre = Some (lw', len', sum', pre') /\
    lw' + (len' + 32) = lw + len /\ lw <= lw' /\ (lw' - lw) mod 4 = 0 /\
    0 <= len' + 32 < 36 /\ 0 <= sum' /\
    sum' + wsum (rd st lw' (len' + 32)) = sum + wsum (rd st lw len) /\
    (0 <= len' -> pre' = wsum (rd st lw' 4)).
Proof.
  intros Hb. revert lw len sum pre. induction fuel as [| fuel IH]; intros lw len sum pre Hlw Hlen Hsz Hs Hov Hpre Hf; [lia |].
  cbn [cksum_loop32]. destruct (Z.leb_spec 4 (len - 32)) as [Hge | Hlt].
  - rewrite ld32_rd, ld_sum_rd by lia. simpl.
    pose proof (wsum_front st lw 8 len Hlw ltac:(lia) Hsz) as Hfr.
    pose proof (wsum_front st lw 1 32 Hlw ltac:(lia) ltac:(lia)) as Hf1.
    change (4 * Z.of_nat 8) with 32 in *. change (4 * Z.of_nat 1) with 4 in *.
    change (4 * 1) with 4. change (4 * Z.of_nat 7) with (32 - 4).
    rewrite (Hpre ltac:(lia)), <- Hf1.
    pose proof (wsum_bound (rd st (lw + 32) (len - 32)) (rd_bytes _ _ _ Hb)) as Hw1.
    pose proof (wsum_bound (rd st lw 32) (rd_bytes _ _ _ Hb)) as Hw2.
    unfold u64. rewrite Z.mod_small by lia.
    destruct (IH (lw + 32) (len - 32) (sum + wsum (rd st lw 32)) (wsum (rd st (lw + 4 * 8) 4)))
      as (lw' & len' & sum' & pre' & I1 & I2 & I3 & I3' & I4 & I5 & I6 & I7); try lia.
    { intros _. done. }
    exists lw', len', sum', pre'. split_and!; auto; try lia. clear - I3'. zdiv.
  - exists lw, (len - 32), sum, pre. replace (len - 32 + 32) with len by lia.
    split_and!; auto; try lia; try (intros; apply Hpre; lia). now rewrite Z.sub_diag.
Qed.

Lemma cksum_loop_sum st fuel n lw len sum :
  (0 < n)%nat -> Forall is_byte (st_bytes st) -> 0 <= lw -> 0 <= len -> lw + len <= area_size st -> 0 <= sum ->
  sum + wsum (rd st lw len) < 2 ^ 64 -> (Z.to_nat len < fuel)%nat ->
  exists lw' len' sum', cksum_loop fuel n st lw len sum = Some (lw', len', sum') /\
    lw' + len' = lw + len /\ lw <= lw' /\ 0 <= len' < 4 * Z.of_nat n /\ 0 <= sum' /\
    (lw' - lw) mod 4 = 0 /\
    sum' + wsum (rd st lw' len') = sum + wsum (rd st lw len).
Proof.
  intros Hn Hb. revert lw len sum. induction fuel as [| fuel IH]; intros lw len sum Hlw Hlen Hsz Hs Hov Hf; [lia |].
  cbn [cksum_loop]. destruct (Z.leb_spec 0 (len - 4 * Z.of_nat n)) as [Hge | Hlt].
  - rewrite ld_sum_rd by lia. simpl. rewrite Z.add_0_r.
    pose proof (wsum_front st lw n len Hlw ltac:(lia) Hsz) as Hfr.
    pose proof (wsum_bound (rd st (lw + 4 * Z.of_nat n) (len - 4 * Z.of_nat n)) (rd_bytes _ _ _ Hb)) as Hw1.
    pose proof (wsum_bound (rd st lw (4 * Z.of_nat n)) (rd_bytes _ _ _ Hb)) as Hw2.
    unfold u64. rewrite Z.mod_small by lia.
    destruct (IH (lw + 4 * Z.of_nat n) (len - 4 * Z.of_nat n) (sum + wsum (rd st lw (4 * Z.of_nat n))))
      as (lw' & len' & sum' & I1 & I2 & I3 & I4 & I5 & I6 & I7); try lia.
    exists lw', len', sum'. split_and!; auto; try lia.
    replace (lw' - lw) with (lw' - (lw + 4 * Z.of_nat n) + Z.of_nat n * 4) by lia.
    now rewrite Z.mod_add.
  - exists lw, len, sum. replace (len - 4 * Z.of_nat n + 4 * Z.of_nat n) with len by lia.
    split_and!; auto; try lia. now rewrite Z.sub_diag.
Qed.

(** ** The mask table *)

Lemma le_word_mod (l : list Z) (n : nat) :
  Forall is_byte l -> (n <= length l)%nat ->
  le_word (take n l) = le_word l mod 256 ^ Z.of_nat n.
Proof.
  intros Hb. revert n. induction Hb as [| b l Hb Hl IH]; intros n Hn;
    pose proof (Z.pow_pos_nonneg 256 (Z.of_nat (pred n)) ltac:(lia) ltac:(lia)).
  - destruct n; [done | simpl in Hn; lia].
  - destruct n as [| n]; [simpl; now rewrite Z.mod_1_r |]. simpl pred in *.
    cbn [take le_word]. rewrite IH by (simpl in Hn; lia).
    rewrite Nat2Z.inj_succ, Z.pow_succ_r by lia. unfold is_byte in Hb.
    rewrite Z.rem_mul_r by lia. rewrite (Z.mul_comm 256 (le_word l)).
    rewrite Z.mod_add, Z.div_add, (Z.mod_small b), (Z.div_small b) by lia. now rewrite Z.add_0_l.
Qed.

(** [in_masks[len]] keeps the first [len] bytes of a word. *)
Lemma mask_tail (l : list Z) (len : Z) :
  Forall is_byte l -> length l = 4%nat -> 0 <= len <= 3 ->
  Z.land (arr_get in_masks len) (le_word l) = le_word (take (Z.to_nat len) l).
Proof.
  intros Hb Hl Hr. rewrite le_word_mod by (done || lia). rewrite Z2Nat.id by lia.
  rewrite Z.land_comm.
  assert (arr_get in_masks len = Z.ones (8 * len)) as ->.
  { assert (len = 0 \/ len = 1 \/ len = 2 \/ len = 3) as [-> | [-> | [-> | ->]]] by lia; reflexivity. }
  rewrite Z.land_ones by lia. f_equal. rewrite (Z.pow_mul_r 2 8) by lia. done.
Qed.

Lemma le_word_zeros (n : nat) (l : list Z) :
  le_word (replicate n 0 ++ l) = 256 ^ Z.of_nat n * le_word l.
Proof.
  induction n as [| n IH]; [simpl; lia |]. change (replicate (S n) 0) with (0 :: replicate n 0).
  simpl app. cbn [le_word]. rewrite IH, Nat2Z.inj_succ, Z.pow_succ_r by lia. lia.
Qed.

Lemma le_word_drop (l : list Z) (n : nat) :
  Forall is_byte l -> le_word (drop n l) = le_word l / 256 ^ Z.of_nat n.
Proof.
  intros Hb. revert n. induction Hb as [| b l Hb Hl IH]; intros n;
    pose proof (Z.pow_pos_nonneg 256 (Z.of_nat (pred n)) ltac:(lia) ltac:(lia)).
  - rewrite drop_nil. simpl. symmetry. apply Z.div_0_l. pose proof (Z.pow_pos_nonneg 256 (Z.of_nat n)). lia.
  - destruct n as [| n]; [simpl; now rewrite Z.div_1_r |]. simpl pred in *.
    cbn [drop le_word]. rewrite IH, Nat2Z.inj_succ, Z.pow_succ_r by lia. unfold is_byte in Hb.
    rewrite <- Z.div_div by lia. rewrite (Z.mul_comm 256), Z.div_add by lia.
    now rewrite (Z.div_small b) by lia.
Qed.

Lemma land_shifted_ones (w j k : Z) :
  0 <= j -> 0 <= k ->
  Z.land w (Z.shiftl (Z.ones k) j) = ((w / 2 ^ j) mod 2 ^ k) * 2 ^ j.
Proof.
  intros Hj Hk. rewrite <- Z.land_ones, <- Z.shiftr_div_pow2, <- Z.shiftl_mul_pow2 by lia.
  apply Z.bits_inj'. intros i Hi. rewrite Z.land_spec. destruct (Z.ltb_spec i j).
  - rewrite !Z.shiftl_spec_low by lia. apply andb_false_r.
  - rewrite !Z.shiftl_spec by lia. rewrite Z.land_spec, Z.shiftr_spec by lia.
    now replace (i - j + j) with i by lia.
Qed.

(** The masked aligned read of an unaligned head is the head's bytes at their
    places in the word. *)
Lemma mask_head (l : list Z) (offset len : Z) :
  Forall is_byte l -> length l = 4%nat -> 1 <= offset <= 3 -> 0 <= len ->
  Z.land (le_word l) (arr_get in_masks (offset * 4 + (if 3 <=? len then 3 else len))) =
  le_word (replicate (Z.to_nat offset) 0 ++
           take (Z.to_nat (Z.min (4 - offset) len)) (drop (Z.to_nat offset) l)).
Proof.
  intros Hb Hl Ho Hlen. rewrite le_word_zeros.
  rewrite le_word_mod by (rewrite ?length_drop; auto using Forall_drop; lia).
  rewrite le_word_drop by done. rewrite !Z2Nat.id by lia.
  assert (arr_get in_masks (offset * 4 + (if 3 <=? len then 3 else len)) =
          Z.shiftl (Z.ones (8 * Z.min (4 - offset) len)) (8 * offset)) as ->.
  { assert (exists k, (if 3 <=? len then 3 else len) = k /\ (k = 0 \/ k = 1 \/ k = 2 \/ k = 3) /\
      Z.min (4 - offset) len = Z.min (4 - offset) k) as (k & -> & Hk & ->).
    { destruct (Z.leb_spec 3 len); eexists; (split; [reflexivity |]); split; lia. }
    assert (offset = 1 \/ offset = 2 \/ offset = 3) as [-> | [-> | ->]] by lia;
      destruct Hk as [-> | [-> | [-> | ->]]]; reflexivity. }
  rewrite land_shifted_ones by lia. rewrite !(Z.pow_mul_r 2 8) by lia. change (2 ^ 8) with 256. lia.
Qed.

(** ** [in_cksumdata] *)

#[global] Arguments ld_sum : simpl never.
#[global] Arguments cksum_loop32 : simpl never.
#[global] Arguments cksum_loop : simpl never.

Section data.
Context (st : storage) (Hb : Forall is_byte (st_bytes st)).

(** The last one to three bytes. *)
Lemma cksum_tail (purecap : bool) lw len sum :
  0 <= lw -> 0 <= len < 4 -> lw + len <= area_size st -> 0 <= sum ->
  (purecap = false -> 0 < len -> lw + 4 <= area_size st) -> sum + wsum (rd st lw len) < 2 ^ 64 ->
  (if 0 <? len then
     if purecap then t ← ld_bytes st lw len; Some (u64 (sum + le_word t))
     else w ← ld32 st lw 0; Some (u64 (sum + Z.land (arr_get in_masks len) w))
   else Some sum) = Some (sum + wsum (rd st lw len)).
Proof.
  intros Hlw Hlen Hsz Hs Hpc Hov.
  pose proof (wsum_bound (rd st lw len) (rd_bytes _ _ _ Hb)) as Hw.
  rewrite wsum_short in * by (rewrite length_rd; lia).
  destruct (Z.ltb_spec 0 len) as [Hp | Hz].
  - assert (forall x, x = le_word (rd st lw len) -> Some (u64 (sum + x)) = Some (sum + le_word (rd st lw len))) as Hx.
    { intros x ->. unfold u64. now rewrite Z.mod_small by lia. }
    destruct purecap.
    + rewrite ld_bytes_rd by lia. simpl. now apply Hx.
    + specialize (Hpc eq_refl Hp). unfold ld32. rewrite ld_bytes_rd by lia. simpl. apply Hx.
      change (4 * 0) with 0. rewrite Z.add_0_r.
      rewrite mask_tail; [| now apply rd_bytes | rewrite length_rd by lia; done | lia].
      f_equal. unfold rd, buf_read. rewrite take_take. f_equal. lia.
  - replace len with 0 by lia. unfold rd, buf_read. simpl. now rewrite Z.add_0_r.
Qed.

Lemma in_cksumdata_aligned_sum purecap lw len sum :
  0 <= lw -> 0 <= len -> lw + len <= area_size st -> lw + 4 <= area_size st -> 0 <= sum ->
  (purecap = false -> lw + 4 * ((len + 3) / 4) <= area_size st) ->
  sum + wsum (rd st lw len) < 2 ^ 64 ->
  in_cksumdata_aligned purecap st lw len sum = Some (REDUCE32 (sum + wsum (rd st lw len))).
Proof.
  intros Hlw Hlen Hsz H4 Hs Hpc Hov. unfold in_cksumdata_aligned.
  set (fuel := S (Z.to_nat len)). assert (Z.to_nat len < fuel)%nat as Hfuel by lia. clearbody fuel.
  rewrite ld32_rd by lia. simpl. change (lw + 4 * 0) with (lw + 0). rewrite Z.add_0_r.
  destruct (cksum_loop32_sum st fuel lw len sum (wsum (rd st lw 4))) as
    (lw1 & len1 & sum1 & pre1 & -> & A1 & A2 & A2' & A3 & A4 & A5 & A6); auto; try lia. simpl.
  assert (exists lw2 len2 sum2, (if 0 <=? len1 then
       t ← ld_sum st lw1 1 7; Some (lw1 + 32, len1, u64 (sum1 + (pre1 + t)))
     else Some (lw1, len1 + 32, sum1)) = Some (lw2, len2, sum2) /\
     lw2 + len2 = lw + len /\ lw <= lw2 /\ (lw2 - lw) mod 4 = 0 /\ 0 <= len2 <= len /\ 0 <= sum2 /\
     sum2 + wsum (rd st lw2 len2) = sum + wsum (rd st lw len)) as
    (lw2 & len2 & sum2 & -> & B1 & B2 & B2' & B3 & B4 & B5).
  { destruct (Z.leb_spec 0 len1).
    - rewrite ld_sum_rd by lia. simpl.
      pose proof (wsum_front st lw1 8 (len1 + 32) ltac:(lia) ltac:(lia) ltac:(lia)) as Hfr.
      pose proof (wsum_front st lw1 1 32 ltac:(lia) ltac:(lia) ltac:(lia)) as Hf1.
      change (4 * Z.of_nat 8) with 32 in *. change (4 * Z.of_nat 1) with 4 in *.
      change (4 * 1) with 4. change (4 * Z.of_nat 7) with (32 - 4). rewrite (A6 ltac:(lia)), <- Hf1.
      replace (len1 + 32 - 32) with len1 in Hfr by lia.
      pose proof (wsum_bound (rd st (lw1 + 32) len1) (rd_bytes _ _ _ Hb)).
      pose proof (wsum_bound (rd st lw1 32) (rd_bytes _ _ _ Hb)).
      unfold u64. rewrite Z.mod_small by lia.
      exists (lw1 + 32), len1, (sum1 + wsum (rd st lw1 32)). split_and!; auto; try lia. clear - A2'. zdiv.
    - exists lw1, (len1 + 32), sum1. split_and!; auto; lia. }
  simpl.
  destruct (cksum_loop_sum st fuel 4 lw2 len2 sum2) as
    (lw3 & len3 & sum3 & -> & C1 & C2 & C3 & C4 & C5 & C6); auto; try lia. simpl.
  destruct (cksum_loop_sum st fuel 1 lw3 len3 sum3) as
    (lw4 & len4 & sum4 & -> & D1 & D2 & D3 & D4 & D5 & D6); auto; try lia. simpl.
  rewrite cksum_tail; [simpl; do 2 f_equal; lia | lia | lia | lia | lia | | lia].
  intros Hf Hp. specialize (Hpc Hf). clear - Hpc Hp A2' B1 B2' C1 C5 D1 D3 D5. zdiv.
Qed.

(** The buffer's bytes at their places in the words they lie in. *)
Definition offset_of (o : Z) : Z := Z.land 3 (st_base st + o).
Definition padded (o len : Z) : list Z := replicate (Z.to_nat (offset_of o)) 0 ++ rd st o len.

Lemma offset_bound o : 0 <= offset_of o <= 3.
Proof.
  unfold offset_of. rewrite Z.land_comm, (land_mask _ 3 2) by (lia || reflexivity).
  pose proof (Z.mod_pos_bound (st_base st + o) (2 ^ 2)). lia.
Qed.

(** The load of [prefilled] (line 166) is in bounds, or not reached. *)
Definition prefill_room (o len : Z) : bool :=
  let offset := offset_of o in
  (offset =? 0) && (len =? 20) || negb (offset =? 0) && (len <=? 4 - offset) ||
  (o + (if offset =? 0 then 0 else 4 - offset) + 4 <=? area_size st).

Lemma in_cksumdata_aligned_fault purecap lw len sum :
  0 <= lw -> area_size st < lw + 4 -> in_cksumdata_aligned purecap st lw len sum = None.
Proof.
  intros H1 H2. unfold in_cksumdata_aligned, ld32, ld_bytes.
  change (4 * 0) with 0. rewrite Z.add_0_r. unfold area_size in H2.
  rewrite (proj2 (Z.leb_gt (lw + 4) _)) by lia. now rewrite andb_false_r.
Qed.

(** The words of a buffer: the head's word and the others. *)
Lemma wsum_padded o len :
  0 <= o -> 0 <= len -> o + len <= area_size st ->
  let k := Z.min (4 - offset_of o) len in offset_of o <> 0 ->
  wsum (padded o len) =
    le_word (replicate (Z.to_nat (offset_of o)) 0 ++ rd st o k) + wsum (rd st (o + k) (len - k)).
Proof.
  intros Ho Hl Hs k Hne. pose proof (offset_bound o) as Hof. unfold padded.
  set (z := replicate (Z.to_nat (offset_of o)) 0).
  assert (length z = Z.to_nat (offset_of o)) as Hz by apply length_replicate.
  destruct (Z.le_gt_cases len (4 - offset_of o)) as [Hle | Hgt].
  - replace k with len by lia. rewrite Z.sub_diag. unfold rd at 3, buf_read. simpl.
    rewrite wsum_le4 by (rewrite length_app, length_rd; lia). lia.
  - replace len with (k + (len - k)) at 1 by lia. rewrite rd_app by lia. rewrite app_assoc.
    assert (length (z ++ rd st o k) = 4%nat) as H4 by (rewrite length_app, length_rd; lia).
    rewrite wsum_app by now rewrite H4. rewrite (wsum_le4 (z ++ rd st o k)) by lia. done.
Qed.

Lemma padded_bytes o len : Forall is_byte (padded o len).
Proof.
  unfold padded. apply Forall_app. split; [| now apply rd_bytes].
  apply Forall_replicate. unfold is_byte. lia.
Qed.

Lemma wsum_padded_lt o len :
  0 <= o -> 0 <= len < 2 ^ 31 -> o + len <= area_size st -> 0 <= wsum (padded o len) < 2 ^ 64.
Proof.
  intros Ho Hl Hs. pose proof (wsum_bound _ (padded_bytes o len)) as Hw.
  pose proof (offset_bound o). unfold padded in Hw at 3. rewrite length_app, length_replicate, length_rd in Hw by lia.
  lia.
Qed.

(** The sum both versions compute; what each needs of the buffer's area. *)
Lemma in_cksumdata_sum purecap o len :
  0 <= o -> 0 <= len < 2 ^ 31 -> o + len <= area_size st -> prefill_room o len = true ->
  (purecap = false -> 0 <= o - offset_of o /\
     o - offset_of o + 4 * ((offset_of o + len + 3) / 4) <= area_size st /\
     (offset_of o <> 0 -> o - offset_of o + 4 <= area_size st)) ->
  in_cksumdata purecap st o len = Some (REDUCE32 (wsum (padded o len))).
Proof.
  intros Ho Hl Hs Hroom Hpc. pose proof (offset_bound o) as Hof.
  pose proof (wsum_padded_lt o len Ho Hl Hs) as Hlt.
  unfold in_cksumdata, prefill_room in *. fold (offset_of o). cbn zeta in *.
  destruct (Z.eqb_spec (offset_of o) 0) as [H0 | Hne]; cbn [andb negb orb] in *.
  - assert (wsum (padded o len) = wsum (rd st o len)) as Hw by (unfold padded; now rewrite H0).
    rewrite Hw in *. destruct (Z.eqb_spec len 20) as [-> | Hn20].
    + rewrite ld_sum_rd by lia. simpl. change (4 * 0) with 0. now rewrite Z.add_0_r.
    + rewrite orb_false_l in Hroom. apply Z.leb_le in Hroom.
      rewrite in_cksumdata_aligned_sum; auto; try lia; rewrite H0 in *.
      intros Hf. destruct (Hpc Hf) as (P1 & P2 & _). rewrite Z.sub_0_r, Z.add_0_l in P2. exact P2.
  - set (k := Z.min (4 - offset_of o) len).
    pose proof (wsum_padded o len Ho ltac:(lia) Hs Hne) as Hw. cbn zeta in Hw. fold k in Hw.
    set (head := le_word (replicate (Z.to_nat (offset_of o)) 0 ++ rd st o k)) in *.
    assert (exists lw, (if purecap
       then h ← ld_bytes st o (if len <? 4 - offset_of o then len else 4 - offset_of o);
            Some (o + (if len <? 4 - offset_of o then len else 4 - offset_of o),
                  le_word (replicate (Z.to_nat (offset_of o)) 0 ++ h))
       else w ← ld32 st (o - offset_of o) 0;
            Some (o - offset_of o + 4,
              Z.land w (arr_get in_masks (offset_of o * 4 + (if 3 <=? len then 3 else len))))) =
       Some (lw, head) /\ (4 - offset_of o < len -> lw = o + k)) as (lw & -> & Hlw).
    { destruct purecap.
      - assert ((if len <? 4 - offset_of o then len else 4 - offset_of o) = k) as ->.
        { unfold k. destruct (Z.ltb_spec len (4 - offset_of o)); lia. }
        rewrite ld_bytes_rd by lia. exists (o + k). now split.
      - destruct (Hpc eq_refl) as (P1 & P2 & P3). specialize (P3 Hne).
        unfold ld32. change (4 * 0) with 0. rewrite Z.add_0_r, ld_bytes_rd by lia.
        exists (o - offset_of o + 4). split; [| lia]. simpl. do 2 f_equal.
        rewrite mask_head; [| now apply rd_bytes | rewrite length_rd by lia; done | lia | lia].
        fold k. unfold head. do 2 f_equal. unfold rd, buf_read.
        rewrite skipn_firstn_comm, drop_drop, take_take. f_equal; [lia | f_equal; lia]. }
    simpl. destruct (Z.leb_spec (len - (4 - offset_of o)) 0) as [Hle | Hgt].
    + rewrite Hw. replace k with len by lia. rewrite Z.sub_diag. unfold rd, buf_read. simpl.
      now rewrite Z.add_0_r.
    + assert (k = 4 - offset_of o) as Hk by lia. rewrite (Hlw ltac:(lia)), <- Hk in *.
      rewrite (proj2 (Z.leb_gt len _)) in Hroom by lia. cbn [orb] in Hroom. apply Z.leb_le in Hroom.
      assert (0 <= head).
      { apply le_word_bound. apply Forall_app. split; [apply Forall_replicate; unfold is_byte; lia |].
        now apply rd_bytes. }
      rewrite in_cksumdata_aligned_sum; [now rewrite Hw | lia | lia | lia | lia | lia | | lia].
      intros Hf. destruct (Hpc Hf) as (_ & P2 & _). clear - P2 Hk Hof. zdiv.
Qed.

Lemma in_cksumdata_fault o len :
  0 <= o -> 0 <= len -> o + len <= area_size st -> prefill_room o len = false ->
  in_cksumdata true st o len = None.
Proof.
  intros Ho Hl Hs Hroom. pose proof (offset_bound o) as Hof.
  unfold in_cksumdata, prefill_room in *. fold (offset_of o). cbn zeta in *.
  apply orb_false_elim in Hroom as [Hroom H3]. apply orb_false_elim in Hroom as [H1 H2].
  apply Z.leb_gt in H3. rewrite H1.
  destruct (Z.eqb_spec (offset_of o) 0) as [H0 | Hne]; cbn [andb negb] in *.
  - apply in_cksumdata_aligned_fault; lia.
  - apply Z.leb_gt in H2. rewrite (proj2 (Z.ltb_ge len _)) by lia.
    rewrite ld_bytes_rd by lia. simpl. rewrite (proj2 (Z.leb_gt (len - _) 0)) by lia.
    apply in_cksumdata_aligned_fault; lia.
Qed.
End data.

(** ** The one's complement sum of RFC 1071 *)

Definition onec_add (a b : Z) : Z := if 65535 <? a + b then a + b - 65535 else a + b.

Fixpoint words16 (l : list Z) : list Z :=
  match l with
  | a :: b :: r => a + 256 * b :: words16 r
  | _ => l
  end.

(** The checksum of [l]: the complement of the one's complement sum of its
    16-bit words, a last odd byte being padded with zero. *)
Definition rfc1071 (l : list Z) : Z := 65535 - foldl onec_add 0 (words16 l).

(** The same sum without carries, for bytes that start at an even or at an odd
    place. *)
Fixpoint sum16 (odd : bool) (l : list Z) : Z :=
  match l with
  | [] => 0
  | b :: r => (if odd then 256 * b else b) + sum16 (negb odd) r
  end.

(** [r] stands for the sum [s]: the same number modulo 65535, and zero only
    for a zero sum. *)
Definition stands_for (r s : Z) : Prop :=
  0 <= r /\ 0 <= s /\ r mod 65535 = s mod 65535 /\ (r = 0 <-> s = 0).

Lemma stands_unique r r' s :
  stands_for r s -> stands_for r' s -> r <= 65535 -> r' <= 65535 -> r = r'.
Proof. intros (A1 & A2 & A3 & A4) (B1 & _ & B3 & B4) Hr Hr'. zdiv. Qed.

Lemma stands_refl s : 0 <= s -> stands_for s s.
Proof. intros. now split_and!. Qed.

Lemma stands_trans r s t : stands_for r s -> stands_for s t -> stands_for r t.
Proof. intros (A1 & A2 & A3 & A4) (B1 & B2 & B3 & B4). split_and!; auto; [congruence | tauto]. Qed.

Lemma stands_add r s r' s' :
  stands_for r s -> stands_for r' s' -> stands_for (r + r') (s + s').
Proof.
  intros (A1 & A2 & A3 & A4) (B1 & B2 & B3 & B4). split_and!; try lia.
  rewrite Z.add_mod, A3, B3, <- Z.add_mod by lia. done.
Qed.

Lemma stands_reduce32 sum : 0 <= sum < 2 ^ 64 -> stands_for (REDUCE32 sum) sum /\ REDUCE32 sum <= 4 * 65535.
Proof.
  intros Hs. unfold REDUCE32. rewrite !bits_div_mod by lia.
  change (2 ^ 0) with 1. change (2 ^ 16) with 65536. change (2 ^ 32) with 4294967296.
  change (2 ^ 48) with 281474976710656. unfold stands_for. zdiv.
Qed.

Lemma stands_reduce16 sum : 0 <= sum < 2 ^ 64 -> stands_for (REDUCE16 sum) sum /\ REDUCE16 sum <= 65535.
Proof.
  intros Hs. destruct (stands_reduce32 sum Hs) as [H1 H2]. pose proof H1 as (H3 & _).
  unfold REDUCE16. cbn zeta. unfold u32. rewrite Z.mod_small by lia.
  set (x := REDUCE32 sum) in *. rewrite !bits_div_mod by lia. change (2 ^ 0) with 1.
  change (2 ^ 16) with 65536. unfold ADDCARRY.
  assert (stands_for (if 65535 <? x / 1 mod 65536 + x / 65536 mod 65536
     then x / 1 mod 65536 + x / 65536 mod 65536 - 65535
     else x / 1 mod 65536 + x / 65536 mod 65536) x /\
    (if 65535 <? x / 1 mod 65536 + x / 65536 mod 65536
     then x / 1 mod 65536 + x / 65536 mod 65536 - 65535
     else x / 1 mod 65536 + x / 65536 mod 65536) <= 65535) as [Ha Hb].
  { clear H1. unfold stands_for. destruct (Z.ltb_spec 65535 (x / 1 mod 65536 + x / 65536 mod 65536)); zdiv. }
  split; [| done]. eapply stands_trans; eassumption.
Qed.

Lemma onec_add_stands a b s :
  stands_for a s -> a <= 65535 -> 0 <= b <= 65535 ->
  stands_for (onec_add a b) (s + b) /\ onec_add a b <= 65535.
Proof.
  intros (A1 & A2 & A3 & A4) Ha Hb. unfold onec_add, stands_for.
  destruct (Z.ltb_spec 65535 (a + b)); zdiv.
Qed.

Lemma sum16_nonneg odd l : Forall is_byte l -> 0 <= sum16 odd l.
Proof.
  intros H. revert odd. induction H as [| b l Hb _ IH]; intros odd; [done |].
  cbn [sum16]. specialize (IH (negb odd)). unfold is_byte in Hb. destruct odd; lia.
Qed.

Lemma list2_ind (Q : list Z -> Prop) :
  Q [] -> (forall a, Q [a]) -> (forall a b r, Q r -> Q (a :: b :: r)) -> forall l, Q l.
Proof.
  intros H0 H1 H2 l. enough (Q l /\ forall a, Q (a :: l)) by tauto.
  induction l as [| b r [IH1 IH2]]; [auto |]. split; [apply IH2 |]. intros a. now apply H2.
Qed.

Lemma onec_sum_stands l a s :
  Forall is_byte l -> stands_for a s -> a <= 65535 ->
  stands_for (foldl onec_add a (words16 l)) (s + sum16 false l) /\
  foldl onec_add a (words16 l) <= 65535.
Proof.
  revert a s. induction l as [| x | x y r IH] using list2_ind; intros a s Hb Ha Hle.
  - cbn. rewrite Z.add_0_r. done.
  - apply Forall_cons_iff in Hb as [Hx _]. unfold is_byte in Hx. cbn [words16 foldl sum16].
    rewrite Z.add_0_r. apply onec_add_stands; [done | done | lia].
  - apply Forall_cons_iff in Hb as [Hx [Hy Hb]%Forall_cons_iff]. unfold is_byte in Hx, Hy.
    cbn [words16 foldl sum16 negb].
    destruct (onec_add_stands a (x + 256 * y) s Ha Hle) as [H1 H2]; [lia |].
    replace (s + (x + (256 * y + sum16 false r))) with (s + (x + 256 * y) + sum16 false r) by lia.
    now apply IH.
Qed.

(** The checksum a sum gives. *)
Lemma rfc1071_of_sum l r :
  Forall is_byte l -> stands_for r (sum16 false l) -> r <= 65535 -> 65535 - r = rfc1071 l.
Proof.
  intros Hb Hr Hle. unfold rfc1071.
  destruct (onec_sum_stands l 0 0 Hb (stands_refl 0 ltac:(lia)) ltac:(lia)) as [H1 H2].
  rewrite Z.add_0_l in H1. now rewrite (stands_unique _ _ _ Hr H1).
Qed.

Lemma land_lnot_16 r : 0 <= r <= 65535 -> Z.land (Z.lnot r) 0xffff = 65535 - r.
Proof. intros. rewrite land_0xffff. unfold Z.lnot. zdiv. Qed.

(** ** Byte sums *)

Lemma odd_of_nat n : Z.odd (Z.of_nat n) = Nat.odd n.
Proof.
  induction n as [| n IH]; [done |]. rewrite Nat2Z.inj_succ, Z.odd_succ, <- Z.negb_odd, IH.
  now rewrite Nat.odd_succ, <- Nat.negb_odd.
Qed.

Lemma sum16_app odd x y :
  sum16 odd (x ++ y) = sum16 odd x + sum16 (xorb odd (Nat.odd (length x))) y.
Proof.
  revert odd. induction x as [| b x IH]; intros odd; [now rewrite xorb_false_r |].
  cbn [app sum16 length]. rewrite IH, Nat.odd_succ, <- Nat.negb_odd.
  rewrite <- Z.add_assoc. now destruct odd, (Nat.odd (length x)).
Qed.

Lemma sum16_zeros odd n l : sum16 odd (replicate n 0 ++ l) = sum16 (xorb odd (Nat.odd n)) l.
Proof.
  rewrite sum16_app, length_replicate. enough (sum16 odd (replicate n 0) = 0) by lia.
  revert odd. induction n as [| n IH]; intros odd; [done |]. simpl. rewrite IH.
  now destruct odd.
Qed.

(** Moving the bytes by one place swaps the bytes of the sum. *)
Lemma sum16_swap odd l :
  Forall is_byte l -> stands_for (256 * sum16 odd l) (sum16 (negb odd) l).
Proof.
  intros H. revert odd. induction H as [| b l Hb _ IH]; intros odd; [now apply stands_refl |].
  cbn [sum16]. rewrite Z.mul_add_distr_l. apply stands_add; [| apply IH].
  unfold is_byte, stands_for in *. destruct odd; cbn [negb]; zdiv.
Qed.

(** A sum of 32-bit words is a sum of 16-bit words. *)
Lemma wsum_stands l : Forall is_byte l -> stands_for (wsum l) (sum16 false l).
Proof.
  induction l as [l Hl | a b c d r IH] using list4_shorter_ind; intros H.
  - destruct l as [| a [| b [| c [| d r]]]]; [| | | | simpl in Hl; lia];
      repeat match goal with Q : Forall is_byte (_ :: _) |- _ => apply Forall_cons_iff in Q as [? Q] end;
      unfold is_byte, stands_for in *; cbn [wsum le_word sum16 negb]; zdiv.
  - repeat match goal with Q : Forall is_byte (_ :: _) |- _ => apply Forall_cons_iff in Q as [? Q] end.
    unfold is_byte in *; cbn [wsum le_word sum16 negb].
    replace (a + (256 * b + (c + (256 * d + sum16 false r))))
      with (a + 256 * b + c + 256 * d + sum16 false r) by lia.
    apply stands_add; [unfold stands_for; zdiv | now apply IH].
Qed.

(** ** Chains *)

Section chains.
Context (purecap : bool) {P : Type} {MS : MbufSys P}.
Implicit Types (s : mstate P).

(** What the checksum needs of an mbuf: bytes, and in the original version,
    which loads whole words around them, an area of aligned words. *)
Definition cksum_ready s (m : mbuf) : Prop :=
  mb_ok s m /\
  exists st, ms_mem s !! m_sid m = Some st /\ Forall is_byte (st_bytes st) /\
    (purecap = false -> st_base st mod 4 = 0 /\ area_size st mod 4 = 0).

(** In the version for CHERI, the word loaded ahead of the [n] bytes of [m] at
    [off] is inside the area. *)
Definition part_room s (m : mbuf) (off n : Z) : bool :=
  negb purecap || match ms_mem s !! m_sid m with
                  | Some st => prefill_room st (m_data m + off) n
                  | None => false
                  end.

(** The same for every part of the [len] bytes of the chain from [skip] on. *)
Fixpoint chain_room s (ch : list mbuf) (skip len : Z) : bool :=
  match ch with
  | [] => true
  | m :: r =>
      if len <=? 0 then true
      else if m_len m <=? skip then chain_room s r (skip - m_len m) len
      else let n := Z.min len (m_len m - skip) in part_room s m skip n && chain_room s r 0 (len - n)
  end.

Lemma offset_mod st o : offset_of st o = (st_base st + o) mod 4.
Proof. unfold offset_of. now rewrite Z.land_comm, (land_mask _ 3 2) by (lia || reflexivity). Qed.

Lemma padded_stands st o len :
  Forall is_byte (st_bytes st) ->
  stands_for (wsum (padded st o len)) (sum16 (Z.odd (st_base st + o)) (rd st o len)).
Proof.
  intros Hb. pose proof (wsum_stands _ (padded_bytes st Hb o len)) as H. unfold padded in *.
  rewrite sum16_zeros, xorb_false_l in H. enough (Nat.odd (Z.to_nat (offset_of st o)) = Z.odd (st_base st + o))
    as E by now rewrite E in H.
  rewrite offset_mod. pose proof (Z.mod_pos_bound (st_base st + o) 4 ltac:(lia)).
  set (r := (st_base st + o) mod 4) in *.
  assert (Z.odd (st_base st + o) = Z.odd r) as ->.
  { rewrite (Z.div_mod (st_base st + o) 4) by lia. fold r. rewrite Z.odd_add, Z.odd_mul. done. }
  assert (r = 0 \/ r = 1 \/ r = 2 \/ r = 3) as [E | [E | [E | E]]] by lia; now rewrite E.
Qed.

(** The sum of a part of an mbuf. *)
Lemma part_sum st o len :
  Forall is_byte (st_bytes st) -> 0 <= o -> 1 <= len < 2 ^ 31 -> o + len <= area_size st ->
  negb purecap || prefill_room st o len = true ->
  (purecap = false -> st_base st mod 4 = 0 /\ area_size st mod 4 = 0) ->
  in_cksumdata purecap st o len = Some (REDUCE32 (wsum (padded st o len))).
Proof.
  intros Hb Ho Hl Hs Hroom Hal. pose proof (offset_bound st o) as Hof.
  apply in_cksumdata_sum; [done | lia | lia | lia | |].
  - destruct purecap; [exact Hroom |]. destruct (Hal eq_refl) as [B1 B2]. unfold prefill_room.
    rewrite offset_mod in *. destruct (Z.eqb_spec ((st_base st + o) mod 4) 0) as [E | E]; cbn [andb negb].
    + apply orb_true_iff. right. apply Z.leb_le. clear Hb Hroom. zdiv.
    + rewrite orb_false_l. destruct (Z.leb_spec len (4 - (st_base st + o) mod 4)); [done |].
      apply Z.leb_le. clear Hb Hroom. zdiv.
  - intros Hf. destruct (Hal Hf) as [B1 B2]. rewrite offset_mod in *. clear Hb. zdiv.
Qed.

(** The value to which a part's sum is brought for its place in the chain. *)
Lemma placed_stands st o len clen :
  Forall is_byte (st_bytes st) -> 0 <= o -> 0 <= len < 2 ^ 31 -> o + len <= area_size st ->
  let d := REDUCE32 (wsum (padded st o len)) in
  let d := if Z.testbit (Z.lxor clen (st_base st + o)) 0 then u64 (Z.shiftl d 8) else d in
  stands_for d (sum16 (Z.odd clen) (rd st o len)) /\ d <= 2 ^ 26.
Proof.
  intros Hb Ho Hl Hs d0. destruct (stands_reduce32 _ (wsum_padded_lt st Hb o len Ho Hl Hs)) as [R1 R2].
  fold d0 in R1, R2. pose proof (stands_trans _ _ _ R1 (padded_stands st o len Hb)) as Hst.
  pose proof Hst as (N1 & _).
  rewrite Z.lxor_spec, !Z.bit0_odd. destruct (xorb _ _) eqn:Ex.
  - unfold u64. rewrite Z.shiftl_mul_pow2 by lia. change (2 ^ 8) with 256.
    rewrite Z.mod_small by lia. split; [| lia]. rewrite Z.mul_comm.
    replace (Z.odd clen) with (negb (Z.odd (st_base st + o))).
    2: { destruct (Z.odd clen), (Z.odd (st_base st + o)); done. }
    eapply stands_trans; [| apply sum16_swap; now apply rd_bytes].
    clear - Hst. destruct Hst as (A1 & A2 & A3 & A4). unfold stands_for. zdiv.
  - cbn zeta. apply xorb_eq in Ex. rewrite Ex. split; [done | lia].
Qed.

(** One round of the loop adds the part's bytes to the sum. *)
Lemma cksum_part_sum s m off mlen len clen sum (A : list Z) :
  cksum_ready s m -> 0 <= off -> 1 <= mlen -> off + mlen <= m_len m -> 1 <= len < 2 ^ 31 ->
  part_room s m off (Z.min len mlen) = true -> stands_for sum (sum16 false A) -> Z.of_nat (length A) = clen -> sum + 2 ^ 26 < 2 ^ 64 ->
  let k := Z.min len mlen in
  exists sum', cksum_part purecap s m off mlen len clen sum = Some (sum', clen + k, len - k) /\
    stands_for sum' (sum16 false (A ++ take (Z.to_nat k) (drop (Z.to_nat off) (mb_bytes s m)))) /\
    sum' <= sum + 2 ^ 26.
Proof.
  intros ([_ R1 R2 R3 _] & st & Hst & Hb & Hal) Ho Hm Hom Hl Hroom HA Hc Hov k.
  unfold part_room in Hroom. rewrite Hst in Hroom. fold k in Hroom.
  assert (m_data m + m_len m <= area_size st) by (unfold st_size in R3; now rewrite Hst in R3).
  unfold cksum_part. rewrite Hst. cbn [mbind option_bind].
  replace (if len <? mlen then len else mlen) with k by (unfold k; destruct (Z.ltb_spec len mlen); lia).
  rewrite part_sum by (auto; lia). cbn [mbind option_bind].
  pose proof (placed_stands st (m_data m + off) k clen Hb ltac:(lia) ltac:(lia) ltac:(lia)) as Hp.
  cbn zeta in Hp. destruct Hp as [Hp1 Hp2]. set (d := if Z.testbit _ 0 then _ else _) in *.
  exists (sum + d). pose proof Hp1 as (D0 & _). pose proof HA as (S0 & _).
  split_and!; [unfold u64; rewrite Z.mod_small by lia; done | | lia].
  rewrite sum16_app, xorb_false_l. apply stands_add; [done |].
  replace (Nat.odd (length A)) with (Z.odd clen) by (rewrite <- Hc; apply odd_of_nat).
  replace (take _ _) with (rd st (m_data m + off) k); [done |].
  unfold mb_bytes, rd, buf_read. rewrite Hst, skipn_firstn_comm, drop_drop, take_take. f_equal; [lia | f_equal; lia].
Qed.

Lemma ready_ok s ch : Forall (cksum_ready s) ch -> Forall (mb_ok s) ch.
Proof. intros H. eapply Forall_impl; [| exact H]. intros m. apply proj1. Qed.

(** A part without room is a fault; one with room uses up its bytes. *)
Lemma cksum_part_fault s m off mlen len clen sum :
  purecap = true -> cksum_ready s m -> 0 <= off -> 1 <= mlen -> off + mlen <= m_len m -> 1 <= len ->
  part_room s m off (Z.min len mlen) = false -> cksum_part purecap s m off mlen len clen sum = None.
Proof.
  intros Hp ([_ R1 R2 R3 _] & st & Hst & _) Ho Hm Hom Hl. unfold part_room, cksum_part. rewrite Hst, Hp.
  cbn [negb orb mbind option_bind]. unfold st_size in R3. rewrite Hst in R3. fold (area_size st) in R3.
  replace (if len <? mlen then len else mlen) with (Z.min len mlen) by (destruct (Z.ltb_spec len mlen); lia).
  intros Hroom. rewrite in_cksumdata_fault; [done | lia | lia | lia | exact Hroom].
Qed.

Lemma cksum_part_used s m off mlen len clen sum r :
  cksum_part purecap s m off mlen len clen sum = Some r ->
  snd r = len - Z.min len mlen /\ snd (fst r) = clen + Z.min len mlen.
Proof.
  unfold cksum_part. destruct (ms_mem s !! m_sid m) as [st |]; [| done]. cbn [mbind option_bind].
  replace (if len <? mlen then len else mlen) with (Z.min len mlen) by (destruct (Z.ltb_spec len mlen); lia).
  destruct (in_cksumdata _ _ _ _); [| done]. cbn [mbind option_bind]. now intros [= <-].
Qed.

(** With [skip] zero, as the second loop goes. *)
Lemma chain_room_cons s m r len :
  0 <= m_len m -> 0 < len ->
  chain_room s (m :: r) 0 len =
    if m_len m =? 0 then chain_room s r 0 len
    else part_room s m 0 (Z.min len (m_len m)) && chain_room s r 0 (len - Z.min len (m_len m)).
Proof.
  intros Hm Hl. cbn [chain_room]. rewrite (proj2 (Z.leb_gt len 0)), !Z.sub_0_r by lia.
  destruct (Z.eqb_spec (m_len m) 0) as [-> | Hne]; [done |]. now rewrite (proj2 (Z.leb_gt _ _)) by lia.
Qed.

Lemma cksum_chain_fault s ch len clen sum :
  Forall (cksum_ready s) ch -> 0 <= len -> purecap = true -> chain_room s ch 0 len = false ->
  cksum_chain purecap s ch len clen sum = None.
Proof.
  intros Hr Hl Hp. revert len clen sum Hl. induction ch as [| m ch IH]; intros len clen sum Hl; [done |].
  apply Forall_cons_iff in Hr as [Hr Hrs]. pose proof (ok_len _ _ (proj1 Hr)).
  cbn [cksum_chain]. destruct (Z.eqb_spec len 0) as [-> | Hl0]; [done |]. rewrite chain_room_cons by lia.
  destruct (Z.eqb_spec (m_len m) 0); [now apply IH |]. intros [Hf | Hf]%andb_false_iff.
  - now rewrite cksum_part_fault by (auto; lia).
  - destruct (cksum_part _ _ _ _ _ _ _ _) as [[[sum' clen'] len'] |] eqn:E; [| done].
    apply cksum_part_used in E as [E1 E2]. cbn in E1, E2 |- *. subst. apply IH; [done | lia | exact Hf].
Qed.

Lemma cksum_chain_sum s ch len clen sum (A : list Z) :
  Forall (cksum_ready s) ch -> 0 <= len <= sum_len ch -> len < 2 ^ 31 -> chain_room s ch 0 len = true ->
  stands_for sum (sum16 false A) -> Z.of_nat (length A) = clen ->
  sum + 2 ^ 26 * Z.of_nat (length ch) < 2 ^ 64 ->
  exists sum', cksum_chain purecap s ch len clen sum = Some sum' /\
    stands_for sum' (sum16 false (A ++ take (Z.to_nat len) (chain_bytes s ch))) /\
    sum' <= sum + 2 ^ 26 * Z.of_nat (length ch).
Proof.
  revert len clen sum A. induction ch as [| m ch IH]; intros len clen sum A Hr Hl Hm Hroom HA Hc Hov.
  - exists sum. rewrite chain_bytes_nil, take_nil, app_nil_r. split_and!; [done | done | lia].
  - apply Forall_cons_iff in Hr as [Hr Hrs]. rewrite length_cons in Hov.
    rewrite sum_len_cons in Hl. cbn [cksum_chain]. rewrite chain_bytes_cons.
    pose proof (proj1 Hr) as Hok. pose proof (length_mb_bytes _ _ Hok) as Hlen.
    pose proof (ok_len _ _ Hok).
    destruct (Z.eqb_spec len 0) as [-> | Hl0].
    { exists sum. rewrite take_0, app_nil_r. split_and!; [done | done | lia]. }
    rewrite chain_room_cons in Hroom by lia.
    destruct (Z.eqb_spec (m_len m) 0) as [Hm0 | Hm0].
    { rewrite (mb_bytes_0 _ _ Hm0). simpl app.
      destruct (IH len clen sum A) as (sum' & E1 & E2 & E3); auto; try lia.
      exists sum'. split_and!; [done | done | rewrite length_cons; lia]. }
    apply andb_prop in Hroom as [Hroom1 Hroom2].
    destruct (cksum_part_sum s m 0 (m_len m) len clen sum A) as (sum1 & -> & P2 & P3); auto; try lia.
    cbn [mbind option_bind]. set (k := Z.min len (m_len m)) in *.
    pose proof (sum_len_nonneg s ch (ready_ok s ch Hrs)).
    destruct (IH (len - k) (clen + k) sum1 _ Hrs ltac:(lia) ltac:(lia) Hroom2 P2) as (sum' & E1 & E2 & E3);
      [rewrite length_app, length_take, length_drop; lia | lia |].
    exists sum'. split_and!; [done | | rewrite length_cons; lia].
    pose proof (take_drop_mb s m ch 0 len Hok ltac:(lia) ltac:(lia)) as Ht.
    rewrite chain_bytes_cons, Z.sub_0_r, Z.min_comm in Ht. fold k in Ht.
    rewrite drop_0 in Ht. rewrite Ht, app_assoc. exact E2.
Qed.

Lemma cksum_seek_spec s ch skip :
  Forall (mb_ok s) ch -> 0 <= skip < sum_len ch ->
  exists pre m r k, ch = pre ++ m :: r /\ cksum_seek ch skip = (m :: r, k) /\
    skip = sum_len pre + k /\ (k = 0 \/ 0 < k < m_len m).
Proof.
  revert skip. induction ch as [| m ch IH]; intros skip Hok Hs.
  { rewrite sum_len_nil in Hs. lia. }
  apply Forall_cons_iff in Hok as [Hm Hok]. rewrite sum_len_cons in Hs. cbn [cksum_seek].
  destruct (Z.eqb_spec skip 0) as [-> | H0].
  { exists [], m, ch, 0. rewrite sum_len_nil. split_and!; auto. }
  destruct (Z.ltb_spec skip (m_len m)).
  { exists [], m, ch, skip. rewrite sum_len_nil. split_and!; auto; lia. }
  destruct (IH (skip - m_len m) Hok ltac:(lia)) as (pre & m' & r & k & -> & E & Hk & Hb).
  exists (m :: pre), m', r, k. rewrite sum_len_cons. split_and!; auto; lia.
Qed.

Lemma finish_cksum sum l :
  Forall is_byte l -> stands_for sum (sum16 false l) -> sum < 2 ^ 64 ->
  Z.land (Z.lnot (REDUCE16 sum)) 0xffff = rfc1071 l.
Proof.
  intros Hb Hs Hlt. pose proof Hs as (H0 & _).
  destruct (stands_reduce16 sum ltac:(lia)) as [R1 R2]. pose proof R1 as (H1 & _).
  rewrite land_lnot_16 by lia. apply rfc1071_of_sum; [done | | done].
  eapply stands_trans; eassumption.
Qed.

Lemma ready_bytes s ch : Forall (cksum_ready s) ch -> Forall is_byte (chain_bytes s ch).
Proof.
  induction 1 as [| m ch (_ & st & Hst & Hb & _) _ IH]; [constructor |].
  rewrite chain_bytes_cons. apply Forall_app. split; [| done]. unfold mb_bytes. rewrite Hst. auto with sfc.
Qed.

Lemma chain_room_app s pre ch k len :
  Forall (mb_ok s) pre -> 0 <= k -> 0 < len ->
  chain_room s (pre ++ ch) (sum_len pre + k) len = chain_room s ch k len.
Proof.
  intros Hok Hk Hl. induction Hok as [| m pre Hm Hpre IH]; [now rewrite sum_len_nil |].
  pose proof (sum_len_nonneg s pre Hpre). cbn [app chain_room]. rewrite sum_len_cons.
  rewrite (proj2 (Z.leb_gt len 0)), (proj2 (Z.leb_le (m_len m) _)) by lia. rewrite <- IH. f_equal. lia.
Qed.

(** The second loop, entered at byte [k] of [m]. *)
Definition cksum_from s (m : mbuf) (r : list mbuf) (k len : Z) : option Z :=
  if negb (k =? 0) then '(sum, clen, len) ← cksum_part purecap s m k (m_len m - k) len 0 0;
                        cksum_chain purecap s r len clen sum
  else cksum_chain purecap s (m :: r) len 0 0.

Lemma chain_room_start s m r k len :
  0 < k < m_len m -> 0 < len ->
  chain_room s (m :: r) k len =
    part_room s m k (Z.min len (m_len m - k)) && chain_room s r 0 (len - Z.min len (m_len m - k)).
Proof. intros Hk Hl. cbn [chain_room]. now rewrite (proj2 (Z.leb_gt len 0)), (proj2 (Z.leb_gt _ k)) by lia. Qed.

Lemma chain_room_original s ch skip len : purecap = false -> chain_room s ch skip len = true.
Proof.
  intros Hp. revert skip len. induction ch as [| m ch IH]; intros skip len; [done |]. cbn [chain_room].
  destruct (len <=? 0); [done |]. destruct (m_len m <=? skip); [apply IH |].
  unfold part_room. rewrite Hp, IH. done.
Qed.

Lemma cksum_from_fault s m r k len :
  Forall (cksum_ready s) (m :: r) -> k = 0 \/ 0 < k < m_len m -> 1 <= len ->
  purecap = true -> chain_room s (m :: r) k len = false -> cksum_from s m r k len = None.
Proof.
  intros Hr Hk Hl Hp Hf. unfold cksum_from. destruct (Z.eqb_spec k 0) as [-> | Hk0]; cbn [negb].
  { apply cksum_chain_fault; auto; lia. }
  apply Forall_cons_iff in Hr as [Hrm Hr]. rewrite chain_room_start in Hf by lia. apply andb_false_iff in Hf as [Hf | Hf].
  - now rewrite cksum_part_fault by (auto; lia).
  - destruct (cksum_part _ _ _ _ _ _ _ _) as [[[sum' clen'] len'] |] eqn:E; [| done].
    apply cksum_part_used in E as [E1 E2]. cbn in E1, E2 |- *. subst. apply cksum_chain_fault; auto; lia.
Qed.

Lemma cksum_from_sum s m r k len :
  Forall (cksum_ready s) (m :: r) -> k = 0 \/ 0 < k < m_len m -> 1 <= len < 2 ^ 31 -> k + len <= sum_len (m :: r) ->
  Z.of_nat (length (m :: r)) < 2 ^ 31 -> chain_room s (m :: r) k len = true ->
  exists sum, cksum_from s m r k len = Some sum /\
    stands_for sum (sum16 false (take (Z.to_nat len) (drop (Z.to_nat k) (chain_bytes s (m :: r))))) /\ sum < 2 ^ 64.
Proof.
  intros Hr Hk Hl Hlen Hn Hroom. pose proof (ready_ok s _ Hr) as Hok. apply Forall_cons_iff in Hok as [Hokm Hokr].
  pose proof (ok_len _ _ Hokm). pose proof (sum_len_nonneg s r Hokr). rewrite sum_len_cons, length_cons in *.
  pose proof (stands_refl 0 ltac:(lia)) as H00. unfold cksum_from.
  destruct (Z.eqb_spec k 0) as [-> | Hk0]; cbn [negb].
  - destruct (cksum_chain_sum s (m :: r) len 0 0 []) as (sum & E1 & E2 & E3); auto;
      rewrite ?sum_len_cons, ?length_cons in *; try lia.
    exists sum. split_and!; [done | | lia]. exact E2.
  - apply Forall_cons_iff in Hr as [Hrm Hr]. rewrite chain_room_start in Hroom by lia.
    apply andb_prop in Hroom as [Hroom1 Hroom2].
    destruct (cksum_part_sum s m k (m_len m - k) len 0 0 []) as (sum1 & -> & P2 & P3); auto; try lia.
    cbn [mbind option_bind]. rewrite app_nil_l in P2.
    destruct (cksum_chain_sum s r (len - Z.min len (m_len m - k)) (0 + Z.min len (m_len m - k)) sum1 _ Hr
      ltac:(lia) ltac:(lia) Hroom2 P2) as (sum' & E1 & E2 & E3);
      [rewrite length_take, length_drop, Nat2Z.inj_min; pose proof (length_mb_bytes _ _ Hokm); lia | lia |].
    exists sum'. split_and!; [done | | lia].
    rewrite take_drop_mb by (auto; lia). rewrite Z.min_comm. exact E2.
Qed.

(** C18. [in_cksum_skip] computes the checksum of RFC 1071 of the bytes from
    [skip] to [len], however the chain divides them and wherever its parts are
    aligned.  The original version does so whenever the mbufs' areas are
    aligned words.  The version for CHERI does so exactly when, for every part
    summed, the word the loop loads ahead lies inside the part's area
    ([chain_room]; a part of a single header or of less than a word needs
    none), and faults on the capability otherwise.  The range is not empty,
    lies inside the chain, and lengths fit an [int]. *)
Theorem in_cksum_skip_rfc s ch len skip :
  Forall (cksum_ready s) ch -> 0 <= skip < len -> len <= sum_len ch -> len < 2 ^ 31 ->
  Z.of_nat (length ch) < 2 ^ 31 ->
  in_cksum_skip purecap s ch len skip =
    if chain_room s ch skip (len - skip)
    then Some (rfc1071 (take (Z.to_nat (len - skip)) (drop (Z.to_nat skip) (chain_bytes s ch))))
    else None.
Proof.
  intros Hr Hs Hl Hm Hn. pose proof (ready_bytes s ch Hr) as Hb. pose proof (ready_ok s ch Hr) as Hok.
  unfold in_cksum_skip. destruct (cksum_seek_spec s ch skip Hok) as (pre & m & r & k & -> & -> & -> & Hkb); [lia |].
  apply Forall_app in Hr as [_ Hr]. apply Forall_app in Hok as [Hpre Hok].
  rewrite chain_bytes_app in *. rewrite sum_len_app in Hl. rewrite length_app in Hn.
  pose proof (length_chain_bytes s pre Hpre). pose proof (sum_len_nonneg s pre Hpre).
  rewrite drop_app_ge by lia. rewrite chain_room_app by (auto; lia).
  replace (Z.to_nat (sum_len pre + k) - length (chain_bytes s pre))%nat with (Z.to_nat k) by lia.
  set (n := len - (sum_len pre + k)) in *. fold (cksum_from s m r k n).
  destruct (chain_room s (m :: r) k n) eqn:Hroom.
  - destruct (cksum_from_sum s m r k n) as (sum & -> & Hst & Hlt); auto; try lia.
    cbn [mbind option_bind]. f_equal. apply finish_cksum; [| done | done].
    apply Forall_app in Hb as [_ Hb]. now apply Forall_take, Forall_drop.
  - rewrite cksum_from_fault; [done | done | lia | lia | | exact Hroom].
    apply not_false_is_true. intros Hp. now rewrite chain_room_original in Hroom.
Qed.
End chains.

(** ** Headers, and sums of words *)

(** The header checksum needs no room behind the header: its 20 bytes at an
    even address are loaded exactly. *)
Lemma in_cksum_hdr_rfc st ip :
  Forall is_byte (st_bytes st) -> 0 <= ip -> ip + 20 <= area_size st -> Z.even (st_base st + ip) = true ->
  in_cksum_hdr true st ip = Some (rfc1071 (rd st ip 20)).
Proof.
  intros Hb Ho Hs He. unfold in_cksum_hdr. pose proof (offset_bound st ip).
  rewrite in_cksumdata_sum; [| done | lia | lia | lia | | done].
  - cbn [mbind option_bind]. f_equal.
    destruct (stands_reduce32 _ (wsum_padded_lt st Hb ip 20 Ho ltac:(lia) Hs)) as [R1 R2].
    apply finish_cksum; [now apply rd_bytes | | lia].
    eapply stands_trans; [exact R1 |]. pose proof (padded_stands st ip 20 Hb) as Hp.
    now rewrite <- Z.negb_even, He in Hp.
  - unfold prefill_room. destruct (Z.eqb_spec (offset_of st ip) 0) as [E | E]; cbn [andb negb].
    + done.
    + apply orb_true_iff. right. apply Z.leb_le. lia.
Qed.

Lemma in_pseudo_stands a b c :
  0 <= a < 2 ^ 32 -> 0 <= b < 2 ^ 32 -> 0 <= c < 2 ^ 32 ->
  stands_for (in_pseudo a b c) (a + b + c) /\ in_pseudo a b c <= 65535.
Proof. intros. unfold in_pseudo, u64. rewrite Z.mod_small by lia. apply stands_reduce16. lia. Qed.

Lemma in_addword_stands a b s :
  stands_for a s -> a <= 65535 -> 0 <= b <= 65535 ->
  stands_for (in_addword a b) (s + b) /\ in_addword a b <= 65535.
Proof. apply onec_add_stands. Qed.

(** Bytes that hold their own checksum sum up to it. *)
Lemma rfc1071_verifies x y :
  Forall is_byte x -> Forall is_byte y -> Nat.even (length x) = true ->
  rfc1071 (x ++ le_bytes 2 (rfc1071 (x ++ [0; 0] ++ y)) ++ y) = 0.
Proof.
  intros Hx Hy He.
  assert (Forall is_byte (x ++ [0; 0] ++ y)) as Hz.
  { rewrite !Forall_app. split_and!; auto. repeat constructor; unfold is_byte; lia. }
  destruct (onec_sum_stands _ 0 0 Hz (stands_refl 0 ltac:(lia)) ltac:(lia)) as [R1 R2].
  set (c := rfc1071 (x ++ [0; 0] ++ y)). assert (foldl onec_add 0 (words16 (x ++ [0; 0] ++ y)) = 65535 - c) as Ec.
  { unfold c, rfc1071. lia. }
  rewrite Ec, Z.add_0_l in *. clearbody c. clear Ec.
  assert (forall p, sum16 false (x ++ p ++ y) = sum16 false x + sum16 false p +
            sum16 (Nat.odd (length p)) y) as Hsum.
  { intros p. rewrite !sum16_app, xorb_false_l, <- Nat.negb_even, He. cbn [negb].
    rewrite xorb_false_l. lia. }
  symmetry. transitivity (65535 - 65535); [done |]. apply rfc1071_of_sum; [| | lia].
  { rewrite !Forall_app. split_and!; auto using le_bytes_is_byte. }
  rewrite Hsum in *. rewrite length_le_bytes. cbn [length Nat.odd sum16 negb] in *.
  pose proof (sum16_nonneg false x Hx). pose proof (sum16_nonneg false y Hy).
  change (Nat.odd 2) with false in *. unfold stands_for in *. cbn [le_bytes sum16 negb].
  set (sx := sum16 false x) in *. set (sy := sum16 false y) in *. clearbody sx sy. clear - R1 R2 H H0.
  assert (c mod 256 + (256 * (c / 256 mod 256) + 0) = c) as E by zdiv. rewrite E. zdiv.
Qed.

(** ** Exact bounds, and verification *)

(** C39. In the version for CHERI the checksum of [len] readable bytes is
    their sum when the word loaded ahead is in bounds too, and faults when it
    is not. *)
Theorem in_cksumdata_bounds st o len :
  Forall is_byte (st_bytes st) -> 0 <= o -> 0 <= len < 2 ^ 31 -> o + len <= area_size st ->
  in_cksumdata true st o len =
    if prefill_room st o len then Some (REDUCE32 (wsum (padded st o len))) else None.
Proof.
  intros Hb Ho Hl Hs. destruct (prefill_room st o len) eqn:E.
  - now apply in_cksumdata_sum.
  - apply in_cksumdata_fault; auto; lia.
Qed.

(** A header that stores its own [in_cksum_hdr] in the zeroed checksum
    field has checksum zero. *)
Theorem in_cksum_hdr_verifies st ip c :
  Forall is_byte (st_bytes st) -> 0 <= ip -> ip + 20 <= area_size st -> Z.even (st_base st + ip) = true ->
  rd st (ip + 10) 2 = [0; 0] -> in_cksum_hdr true st ip = Some c ->
  in_cksum_hdr true (Storage (st_base st) (buf_write (st_bytes st) (Z.to_nat (ip + 10)) (le_bytes 2 c))) ip
    = Some 0.
Proof.
  intros Hb Hi Hs He Hz Hc. rewrite in_cksum_hdr_rfc in Hc by done. injection Hc as <-.
  set (c := rfc1071 (rd st ip 20)). set (st' := Storage _ _).
  assert (forall x : storage, rd x ip 20 = rd x ip 10 ++ rd x (ip + 10) 2 ++ rd x (ip + 12) 8) as Hsplit.
  { intros x. change 20 with (10 + (2 + 8)). rewrite !rd_app by lia. do 3 f_equal. lia. }
  unfold area_size in Hs.
  rewrite in_cksum_hdr_rfc; [| unfold st'; cbn [st_bytes]; auto with sfc | done
    | unfold st', area_size; cbn [st_bytes]; rewrite length_buf_write; lia | done].
  f_equal. rewrite Hsplit. unfold rd, st'. cbn [st_bytes].
  rewrite (buf_read_write_disjoint _ _ _ (Z.to_nat ip)), (buf_read_write_disjoint _ _ _ (Z.to_nat (ip + 12)))
    by (rewrite length_le_bytes; lia).
  replace (Z.to_nat 2) with (length (le_bytes 2 c)) by now rewrite length_le_bytes.
  rewrite buf_read_write by (rewrite length_le_bytes; lia).
  unfold c. rewrite Hsplit, Hz. apply rfc1071_verifies; [now apply rd_bytes | now apply rd_bytes |].
  rewrite length_rd by (unfold area_size; lia). reflexivity.
Qed.
