(* ===== verification/CksumModel.v ===== *)
(** * The checksum on concrete chains

    The theorems of [Cksum.v] at work: a chain of unaligned parts, a buffer at
    the end of its capability, and an IP header. *)

From stdpp Require Import gmap.
From S2P Require Import Prelude Mbuf MbufSpec MbufModel Cksum.

Lemma ex_ready purecap : Forall (@cksum_ready purecap unit (pool_sys None) ex_state) ex_chain.
Proof.
  pose proof (ex_owned None) as [Ho _]. apply Forall_app in Ho as [Ho _].
  apply Forall_cons_iff in Ho as [H0 [H1 [H2 _]%Forall_cons_iff]%Forall_cons_iff].
  repeat (apply Forall_cons_iff; split); [.. | done]; (split; [assumption |]); eexists;
    (split; [vm_compute; reflexivity |]); (split; [repeat constructor; unfold is_byte; lia |]);
    vm_compute; intuition congruence.
Qed.

Lemma in_cksum_skip_witness :
  in_cksum_skip true ex_state ex_chain 18 1 =
    Some (rfc1071 [2; 3; 4; 5; 6; 7; 8; 9; 10; 11; 12; 13; 14; 15; 16; 17; 18]) /\
  in_cksum_skip true ex_state ex_chain 18 1 = in_cksum_skip false ex_state ex_chain 18 1.
Proof.
  pose proof (fun pc => in_cksum_skip_rfc pc ex_state ex_chain 18 1 (ex_ready pc)
    ltac:(lia) ltac:(vm_compute; congruence) ltac:(lia) ltac:(vm_compute; reflexivity)) as H.
  split; [rewrite H; vm_compute; reflexivity | rewrite !H; vm_compute; reflexivity].
Defined.

(** Two bytes, word aligned, at the end of their area. *)
Definition ex_tail : storage := Storage 0x1000 [1; 2; 3; 4; 5; 6].

Lemma in_cksumdata_bounds_witness :
  ld_bytes ex_tail 4 2 = Some [5; 6] /\ in_cksumdata true ex_tail 4 2 = None /\
  in_cksumdata true ex_tail 2 2 = Some (REDUCE32 (wsum [0; 0; 3; 4])).
Proof.
  assert (Forall is_byte (st_bytes ex_tail)) as Hb by (repeat constructor; unfold is_byte; lia).
  split_and!; [reflexivity | |].
  - rewrite (in_cksumdata_bounds ex_tail 4 2 Hb); [reflexivity | lia | lia | vm_compute; congruence].
  - rewrite (in_cksumdata_bounds ex_tail 2 2 Hb); [reflexivity | lia | lia | vm_compute; congruence].
Defined.

Definition ex_ip : storage :=
  Storage 0x2000 [0; 0; 0x45; 0; 0; 60; 0x1c; 0x46; 0x40; 0; 0x40; 6; 0; 0; 172; 16; 10; 99; 172; 16; 10; 12].

Lemma in_cksum_hdr_verifies_witness :
  exists c, in_cksum_hdr true ex_ip 2 = Some c /\
    in_cksum_hdr true (Storage 0x2000 (buf_write (st_bytes ex_ip) 12 (le_bytes 2 c))) 2 = Some 0.
Proof.
  eexists. split; [vm_compute; reflexivity |].
  apply (in_cksum_hdr_verifies ex_ip 2); [repeat constructor; unfold is_byte; lia | lia
    | vm_compute; congruence | reflexivity | reflexivity | vm_compute; reflexivity].
Defined.
