(* ===== verification/Contigmem.v ===== *)
(** * The contiguous memory module

    [fstack-capio/modified-sources/dpdk/kernel/freebsd/contigmem/contigmem.c]:
    the kernel module that reserves physically contiguous buffers when it is
    loaded and lets DPDK map them through [/dev/contigmem].

    The state has the module's variables and, of the kernel, what the module
    asks it for: the blocks of [contigmalloc] with their bytes, the sysctl
    entries, the handles, the VM objects and the open descriptors.  Running
    off the array of buffers, freeing a block that is not allocated and taking
    a mutex that is not initialised are faults. *)

From stdpp Require Import gmap.
From S2P Require Import Prelude Dma.

(** ** State *)

Record contigmem_buffer := Buffer {
  cb_addr : option Z;          (* NULL is None *)
  cb_refcnt : Z;               (* int, which wraps *)
  cb_mtx : bool                (* mtx_initialized *)
}.

#[export] Instance contigmem_buffer_eta : Eta contigmem_buffer := fun r =>
  Buffer (cb_addr r) (cb_refcnt r) (cb_mtx r).

Definition buffer_zero : contigmem_buffer := Buffer None 0 false.

Inductive memattr := WRITE_BACK | UNCACHEABLE | OTHER_ATTR (n : nat).

(** A VM object of the pager, with the [buffer_index] of its handle. *)
Record vm_obj := VmObj {
  vo_index : Z;
  vo_foff : Z;
  vo_size : Z;
  vo_memattr : memattr;
  vo_hascap : bool
}.

Record cstate := CState {
  num_buffers : Z;             (* hw.contigmem.num_buffers *)
  buffer_size : Z;             (* hw.contigmem.buffer_size *)
  buffers : list contigmem_buffer;
  cdev : bool;
  refcnt : Z;                  (* int, which wraps *)
  k_blocks : gmap Z (list Z);  (* live contigmalloc blocks and their bytes *)
  k_oids : list nat;           (* hw.contigmem.physaddr.<i> *)
  k_handles : nat;             (* live handles *)
  k_objs : list vm_obj;        (* live VM objects *)
  k_opens : nat                (* open descriptors of the device *)
}.

#[export] Instance cstate_eta : Eta cstate := fun r =>
  CState (num_buffers r) (buffer_size r) (buffers r) (cdev r) (refcnt r) (k_blocks r) (k_oids r)
    (k_handles r) (k_objs r) (k_opens r).

(** ** What the module is configured with and asks of the kernel *)

Class ContigEnv := {
  MAX_NUM_BUFS : nat;          (* RTE_CONTIGMEM_MAX_NUM_BUFS *)
  vtophys : option Z -> Z
}.

Section contigmem.
Context {CE : ContigEnv}.
Notation M := (ST cstate).

Definition buf_at (i : nat) : M contigmem_buffer :=
  fun s => match buffers s !! i with Some b => Some (b, s) | None => None end.

Definition set_buf (i : nat) (f : contigmem_buffer -> contigmem_buffer) : M unit :=
  fun s => match buffers s !! i with
           | Some b => Some (tt, s <| buffers ::= <[i := f b]> |>)
           | None => None
           end.

Definition contigfree (a : Z) : M unit :=
  do* kassert (fun s => bool_decide (is_Some (k_blocks s !! a)));
  modify (fun s => s <| k_blocks ::= delete a |>).

(** ** Loading and unloading *)

(** The loop that allocates; [grants i] is what [contigmalloc] answers for
    buffer [i].  False when it answers NULL. *)
Fixpoint load_loop (grants : nat -> option Z) (i n : nat) : M bool :=
  match n with
  | O => ret true
  | S n =>
      match grants i with
      | None => ret false
      | Some a =>
          do* modify (fun s => s <| k_blocks ::= <[a := replicate (Z.to_nat (buffer_size s)) 0]> |>);
          do* set_buf i (fun b => b <| cb_mtx := true |> <| cb_addr := Some a |> <| cb_refcnt := 0 |>);
          do* modify (fun s => s <| k_oids ::= fun l => l ++ [i] |>);
          load_loop grants (S i) n
      end
  end.

(** One round of the loops that free; the loop of [contigmem_unload] does not
    reset [addr]. *)
Definition free_one (reset : bool) (i : nat) : M unit :=
  let* b := buf_at i in
  do* match cb_addr b with
      | Some a =>
          do* contigfree a;
          if reset then set_buf i (fun b => b <| cb_addr := None |>) else ret tt
      | None => ret tt
      end;
  if cb_mtx b then set_buf i (fun b => b <| cb_mtx := false |>) else ret tt.

Fixpoint free_loop (reset : bool) (i n : nat) : M unit :=
  match n with
  | O => ret tt
  | S n => do* free_one reset i; free_loop reset (S i) n
  end.

(** The label [error]. *)
Definition load_error (error : Z) : M Z :=
  let* n := gets num_buffers in
  do* free_loop true 0 (Z.to_nat n);
  ret error.

Definition contigmem_load (grants : nat -> option Z) : M Z :=
  let* s := gets id in
  if Z.of_nat MAX_NUM_BUFS <? num_buffers s then load_error EINVAL
  else if (buffer_size s <? PAGE_SIZE) || negb (Z.land (buffer_size s) (buffer_size s - 1) =? 0)
  then load_error EINVAL
  else
    let* ok := load_loop grants 0 (Z.to_nat (num_buffers s)) in
    if ok : bool then
      do* modify (fun s => s <| cdev := true |>);
      ret 0
    else load_error ENOMEM.

(** [contigmem_eh_tag] is never set, so nothing is deregistered. *)
Definition contigmem_unload : M Z :=
  let* r := gets refcnt in
  if 0 <? r then ret EBUSY
  else
    do* modify (fun s => s <| cdev := false |>);
    do* free_loop false 0 MAX_NUM_BUFS;
    ret 0.

Inductive modevent := MOD_LOAD | MOD_UNLOAD | MOD_OTHER.

Definition contigmem_modevent (grants : nat -> option Z) (type : modevent) : M Z :=
  match type with
  | MOD_LOAD => contigmem_load grants
  | MOD_UNLOAD => contigmem_unload
  | MOD_OTHER => ret 0
  end.

Definition contigmem_physaddr (index : nat) : M Z :=
  let* b := buf_at index in
  ret (vtophys (cb_addr b)).

(** ** The device *)

Definition contigmem_open : M Z :=
  do* modify (fun s => s <| refcnt ::= fun r => s32 (r + 1) |>);
  ret 0.

Definition contigmem_close : M Z :=
  do* modify (fun s => s <| refcnt ::= fun r => s32 (r - 1) |>);
  ret 0.

(** [mtx_lock]. *)
Definition mtx_lock (b : contigmem_buffer) : M unit := kassert (fun _ => cb_mtx b).

(** [memset (addr, 0, contigmem_buffer_size)]. *)
Definition zero_block (addr : option Z) : M unit :=
  match addr with
  | None => panic
  | Some a =>
      do* kassert (fun s => bool_decide (is_Some (k_blocks s !! a)));
      modify (fun s => s <| k_blocks ::= <[a := replicate (Z.to_nat (buffer_size s)) 0]> |>)
  end.

Definition contigmem_cdev_pager_ctor (index : nat) : M Z :=
  let* buf := buf_at index in
  do* modify (fun s => s <| refcnt ::= fun r => s32 (r + 1) |>);
  do* mtx_lock buf;
  do* (if cb_refcnt buf =? 0 then zero_block (cb_addr buf) else ret tt);
  do* set_buf index (fun b => b <| cb_refcnt ::= fun r => s32 (r + 1) |>);
  ret 0.

Definition contigmem_cdev_pager_dtor (index : nat) : M unit :=
  let* buf := buf_at index in
  do* mtx_lock buf;
  do* set_buf index (fun b => b <| cb_refcnt ::= fun r => s32 (r - 1) |>);
  do* modify (fun s => s <| k_handles ::= pred |>);
  modify (fun s => s <| refcnt ::= fun r => s32 (r - 1) |>).

(** The error code, and the physical offset when one was set.  [malloc_ok] and
    [pager_ok] are the answers of [malloc] and of the checks
    [cdev_pager_allocate] makes before it calls the constructor. *)
Definition contigmem_mmap_single (offset size : Z) (malloc_ok pager_ok : bool) : M (Z * option Z) :=
  let buffer_index := u64 (Z.quot offset PAGE_SIZE) in
  let* s := gets id in
  if u64 (num_buffers s) <=? buffer_index then ret (EINVAL, None)
  else if u64 (buffer_size s) <? size then ret (EINVAL, None)
  else if negb malloc_ok then ret (ENOMEM, None)
  else
    do* modify (fun s => s <| k_handles ::= S |>);
    let* b := buf_at (Z.to_nat buffer_index) in
    let offset := vtophys (cb_addr b) in
    do* (if pager_ok then
           do* contigmem_cdev_pager_ctor (Z.to_nat buffer_index);
           modify (fun s => s <| k_objs ::= cons (VmObj buffer_index offset size WRITE_BACK true) |>)
         else ret tt);
    ret (0, Some offset).
End contigmem.

(** ** Faults *)

Record vm_page := VmPage {
  pg_fictitious : bool;
  pg_paddr : Z;
  pg_memattr : memattr;
  pg_capstore : bool;
  pg_valid : bool
}.

#[export] Instance vm_page_eta : Eta vm_page := fun r =>
  VmPage (pg_fictitious r) (pg_paddr r) (pg_memattr r) (pg_capstore r) (pg_valid r).

(** The page for [offset]; [memattr_of] is what the pmap has for the page at a
    physical address, if there is one.  A page of the kernel's is replaced by a
    fake one ([vm_page_getfake]). *)
Definition contigmem_cdev_pager_fault (memattr_of : Z -> option memattr) (object : vm_obj)
    (offset : Z) (mres : vm_page) : vm_page :=
  let paddr := offset in
  let attr := default (vo_memattr object) (memattr_of paddr) in
  let page := if pg_fictitious mres then mres <| pg_paddr := paddr |> <| pg_memattr := attr |>
              else VmPage true paddr attr false false in
  page <| pg_capstore := true |> <| pg_valid := true |>.

(** ** Runs of the loaded module *)

Section runs.
Context {CE : ContigEnv}.
Implicit Types (s : cstate).

(** A process opens or closes the device, maps a buffer through an open
    descriptor, stores into a mapping, or drops one; a sysctl is read. *)
Inductive cstep : cstate -> cstate -> Prop :=
  | step_open s s' : contigmem_open s = Some (0, s') -> cstep s (s' <| k_opens ::= S |>)
  | step_close s s' : (0 < k_opens s)%nat -> contigmem_close s = Some (0, s') ->
      cstep s (s' <| k_opens ::= pred |>)
  | step_mmap s s' off size malloc_ok pager_ok r : (0 < k_opens s)%nat -> 0 <= size ->
      contigmem_mmap_single off size malloc_ok pager_ok s = Some (r, s') -> cstep s s'
  | step_store s o a b b' : o ∈ k_objs s -> buffers s !! Z.to_nat (vo_index o) = Some b ->
      cb_addr b = Some a -> (exists old, k_blocks s !! a = Some old /\ length b' = length old) ->
      cstep s (s <| k_blocks ::= <[a := b']> |>)
  | step_drop s s' o l1 l2 : k_objs s = l1 ++ o :: l2 ->
      contigmem_cdev_pager_dtor (Z.to_nat (vo_index o)) s = Some (tt, s') ->
      cstep s (s' <| k_objs := l1 ++ l2 |>)
  | step_sysctl s s' i r : i ∈ k_oids s -> contigmem_physaddr i s = Some (r, s') -> cstep s s'.

(** How many live objects map buffer [i]. *)
Definition mappings (i : nat) (l : list vm_obj) : nat :=
  length (filter (fun o => Z.to_nat (vo_index o) = i) l).

(** The first [k] buffers are set up, each with a block of its own that has
    the configured size; there are no other blocks. *)
Record bufs_ok (k : nat) s : Prop := {
  bo_len : length (buffers s) = MAX_NUM_BUFS;
  bo_buf i b : buffers s !! i = Some b ->
    if decide (i < k)%nat
    then exists a bytes, b = Buffer (Some a) (s32 (Z.of_nat (mappings i (k_objs s)))) true /\
                         k_blocks s !! a = Some bytes /\ length bytes = Z.to_nat (buffer_size s)
    else b = buffer_zero;
  bo_addr i j b b' a : buffers s !! i = Some b -> buffers s !! j = Some b' ->
    cb_addr b = Some a -> cb_addr b' = Some a -> i = j;
  bo_blocks a : is_Some (k_blocks s !! a) -> exists i b, buffers s !! i = Some b /\ cb_addr b = Some a;
  bo_oids i : i ∈ k_oids s -> (i < k)%nat
}.

Lemma bufs_ok_ext k s s' :
  bufs_ok k s -> buffers s' = buffers s -> k_blocks s' = k_blocks s -> k_objs s' = k_objs s ->
  k_oids s' = k_oids s -> buffer_size s' = buffer_size s -> bufs_ok k s'.
Proof. intros [H1 H2 H3 H4 H5] E1 E2 E3 E4 E5. split; rewrite ?E1, ?E2, ?E3, ?E4, ?E5; auto. Qed.

Record contig_ok s : Prop := {
  co_num : 0 <= num_buffers s <= Z.of_nat MAX_NUM_BUFS;
  co_small : Z.of_nat MAX_NUM_BUFS < 2 ^ 31;
  co_size : PAGE_SIZE <= buffer_size s < 2 ^ 63;
  co_bufs : bufs_ok (Z.to_nat (num_buffers s)) s;
  co_refcnt : refcnt s = s32 (Z.of_nat (k_opens s + length (k_objs s)));
  co_handles : (length (k_objs s) <= k_handles s)%nat;
  co_objs o : o ∈ k_objs s -> 0 <= vo_index o < num_buffers s /\ 0 <= vo_size o <= buffer_size s /\
    vo_memattr o = WRITE_BACK /\ vo_hascap o = true /\
    forall b, buffers s !! Z.to_nat (vo_index o) = Some b -> vo_foff o = vtophys (cb_addr b)
}.

(** ** Loading and unloading *)

(** What the allocation and release of buffers leave alone. *)
Definition same_rest s s' : Prop :=
  num_buffers s' = num_buffers s /\ buffer_size s' = buffer_size s /\ cdev s' = cdev s /\
  refcnt s' = refcnt s /\ k_handles s' = k_handles s /\ k_objs s' = k_objs s /\ k_opens s' = k_opens s.

Lemma same_rest_refl s : same_rest s s.
Proof. now split_and!. Qed.

Lemma same_rest_trans s1 s2 s3 : same_rest s1 s2 -> same_rest s2 s3 -> same_rest s1 s3.
Proof. unfold same_rest. intuition congruence. Qed.

(** [contigmalloc] answers with new blocks, never the same twice. *)
Definition fresh_grants (grants : nat -> option Z) (i : nat) s : Prop :=
  (forall j a, (i <= j)%nat -> grants j = Some a -> k_blocks s !! a = None) /\
  (forall j j' a, grants j = Some a -> grants j' = Some a -> j = j').

(** One more buffer. *)
Lemma bufs_ok_add i s a :
  bufs_ok i s -> (i < MAX_NUM_BUFS)%nat -> k_objs s = [] -> k_blocks s !! a = None ->
  bufs_ok (S i) (s <| k_blocks ::= <[a := replicate (Z.to_nat (buffer_size s)) 0]> |>
                   <| buffers ::= <[i := Buffer (Some a) 0 true]> |>
                   <| k_oids ::= fun l => l ++ [i] |>).
Proof.
  intros [H1 H2 H3 H4 H5] Hi Ho Ha. assert (i < length (buffers s))%nat as Hlt by lia.
  assert (forall j b, buffers s !! j = Some b -> cb_addr b <> Some a) as Hna.
  { intros j b Hj E. specialize (H2 j b Hj). destruct (decide (j < i)%nat); [| now subst b].
    destruct H2 as (a' & bytes & -> & Hb & _). simpl in E. congruence. }
  split; cbn [buffers k_objs k_blocks k_oids buffer_size upd cstate_eta].
  - now rewrite length_insert.
  - intros j b. rewrite list_lookup_insert. case_decide as Hc.
    + destruct Hc as [<- _]. intros [= <-]. rewrite decide_True by lia. exists a, (replicate (Z.to_nat (buffer_size s)) 0).
      rewrite Ho, lookup_insert_eq, length_replicate. done.
    + intros Hj. specialize (H2 j b Hj). destruct (decide (j < i)%nat).
      * rewrite decide_True by lia. destruct H2 as (a' & bytes & -> & Hb & Hl).
        exists a', bytes. split_and!; auto. rewrite lookup_insert_ne; [done |]. intros <-. now rewrite Ha in Hb.
      * rewrite decide_False; [done |]. assert (j <> i) by (intros ->; apply Hc; split; [done | lia]). lia.
  - intros j j' b b' a' Hj Hj' E E'.
    destruct (decide (i = j)) as [<- | N1], (decide (i = j')) as [<- | N2]; [done | ..];
      rewrite ?list_lookup_insert_ne in * by done; rewrite ?list_lookup_insert_eq in * by done.
    + injection Hj as <-. simpl in E. injection E as <-. now destruct (Hna _ _ Hj' E').
    + injection Hj' as <-. simpl in E'. injection E' as <-. now destruct (Hna _ _ Hj E).
    + eauto.
  - intros a'. destruct (decide (a = a')) as [<- |].
    + intros _. exists i, (Buffer (Some a) 0 true). rewrite list_lookup_insert_eq; done.
    + rewrite lookup_insert_ne by done. intros Hs. destruct (H4 a' Hs) as (j & b & Hj & E).
      exists j, b. rewrite list_lookup_insert_ne; [done |]. intros <-.
      specialize (H2 i b Hj). rewrite decide_False in H2 by lia. now subst b.
  - intros j. rewrite elem_of_app, list_elem_of_singleton. intros [Hj | ->]; [specialize (H5 j Hj) |]; lia.
Qed.

Lemma buf_at_wp i b (Q : contigmem_buffer -> cstate -> Prop) s :
  buffers s !! i = Some b -> Q b s -> wp (buf_at i) Q s.
Proof. unfold wp, buf_at. now intros ->. Qed.

Lemma set_buf_wp i b f (Q : unit -> cstate -> Prop) s :
  buffers s !! i = Some b -> Q tt (s <| buffers ::= <[i := f b]> |>) -> wp (set_buf i f) Q s.
Proof. unfold wp, set_buf. now intros ->. Qed.

Lemma load_loop_wp grants i n s :
  bufs_ok i s -> (i + n <= MAX_NUM_BUFS)%nat -> k_objs s = [] -> fresh_grants grants i s ->
  wp (load_loop grants i n) (fun ok s' => same_rest s s' /\
    exists k, (i <= k <= i + n)%nat /\ bufs_ok k s' /\ (ok = true -> k = i + n)%nat) s.
Proof.
  revert i s. induction n as [| n IH]; intros i s Hb Hn Ho [Hf1 Hf2]; cbn [load_loop].
  { apply wp_ret. split; [apply same_rest_refl |]. exists i. split_and!; auto; lia. }
  destruct (grants i) as [a |] eqn:Eg.
  2: { apply wp_ret. split; [apply same_rest_refl |]. exists i. split_and!; auto; done || lia. }
  assert (i < length (buffers s))%nat as Hlt by (rewrite (bo_len _ _ Hb); lia).
  destruct (lookup_lt_is_Some_2 (buffers s) i Hlt) as [b Hi].
  apply wp_bind, wp_modify, wp_bind, (set_buf_wp i b); [done |]. apply wp_bind, wp_modify.
  set (s1 := _ <| k_oids ::= _ |>).
  pose proof (bufs_ok_add i s a Hb ltac:(lia) Ho (Hf1 i a ltac:(lia) Eg)) as Hb1.
  eapply wp_mono; [apply (IH (S i) s1) |]; auto; [lia | |].
  - split; [| exact Hf2]. intros j a' Hj Ej. simpl. rewrite lookup_insert_ne; [apply (Hf1 j a'); [lia | done] |].
    intros ->. specialize (Hf2 _ _ _ Eg Ej). lia.
  - intros ok s' (R & k & K1 & K2 & K3). split; [exact R |]. exists k. split_and!; auto; try lia.
    intros E. specialize (K3 E). lia.
Qed.

(** The buffers from [i] on still have their blocks, each its own, and these
    are all blocks there are; those before [i] are done with. *)
Record free_inv (reset : bool) (i : nat) s : Prop := {
  fi_block j b a : (i <= j)%nat -> buffers s !! j = Some b -> cb_addr b = Some a -> is_Some (k_blocks s !! a);
  fi_addr j j' b b' a : (i <= j)%nat -> (i <= j')%nat -> buffers s !! j = Some b -> buffers s !! j' = Some b' ->
    cb_addr b = Some a -> cb_addr b' = Some a -> j = j';
  fi_all a : is_Some (k_blocks s !! a) -> exists j b, (i <= j)%nat /\ buffers s !! j = Some b /\ cb_addr b = Some a;
  fi_done j b : (j < i)%nat -> buffers s !! j = Some b -> cb_mtx b = false /\ (reset = true -> cb_addr b = None)
}.

Lemma bufs_ok_free reset k s : bufs_ok k s -> free_inv reset 0 s.
Proof.
  intros [H1 H2 H3 H4]. split; eauto; try lia.
  - intros j b a _ Hj E. specialize (H2 j b Hj). destruct (decide _); [| now subst b].
    destruct H2 as (a' & bytes & -> & Hb & _). simpl in E. injection E as <-. eauto.
  - intros a Ha. destruct (H4 a Ha) as (j & b & Hj & E). exists j, b. split_and!; auto. lia.
Qed.

(** One buffer freed: [b'] is what is left of it. *)
Lemma free_inv_step reset i s s' b b' :
  free_inv reset i s -> buffers s !! i = Some b -> cb_mtx b' = false -> (reset = true -> cb_addr b' = None) ->
  k_blocks s' = match cb_addr b with Some a => delete a (k_blocks s) | None => k_blocks s end ->
  buffers s' = <[i := b']> (buffers s) -> free_inv reset (S i) s'.
Proof.
  intros [H1 H2 H3 H4] Hi Hm Hr Ek Eb.
  assert (forall j x, (S i <= j)%nat -> (<[i := b']> (buffers s)) !! j = Some x -> buffers s !! j = Some x) as Hge.
  { intros j x Hj. rewrite list_lookup_insert_ne by lia. done. }
  split; rewrite ?Eb, ?Ek.
  - intros j x a Hj Hx E. apply Hge in Hx; [| done]. pose proof (H1 j x a ltac:(lia) Hx E) as Ha.
    destruct (cb_addr b) as [a' |] eqn:Ea; [| exact Ha]. rewrite lookup_delete_ne; [exact Ha |].
    intros <-. specialize (H2 i j b x a' ltac:(lia) ltac:(lia) Hi Hx Ea E). lia.
  - intros j j' x x' a Hj Hj' Hx Hx'. apply Hge in Hx, Hx'; try done. apply H2; auto; lia.
  - intros a Ha.
    assert (is_Some (k_blocks s !! a) /\ cb_addr b <> Some a) as [Ha' Hne].
    { destruct (cb_addr b) as [a' |]; [| now split]. destruct (decide (a' = a)) as [-> |].
      - rewrite lookup_delete_eq in Ha. now destruct Ha.
      - rewrite lookup_delete_ne in Ha by done. split; [done | congruence]. }
    destruct (H3 a Ha') as (j & x & Hj & Hx & E). assert (j <> i) by (intros ->; congruence).
    exists j, x. split_and!; auto; [lia |]. now rewrite list_lookup_insert_ne by lia.
  - intros j x Hj. destruct (decide (j = i)) as [-> |].
    + rewrite list_lookup_insert_eq by (apply lookup_lt_Some in Hi; lia). intros [= <-]. auto.
    + rewrite list_lookup_insert_ne by lia. apply H4. lia.
Qed.

Lemma free_one_wp reset i s :
  free_inv reset i s -> (i < length (buffers s))%nat ->
  wp (free_one reset i) (fun _ s' => free_inv reset (S i) s' /\ same_rest s s' /\
    length (buffers s') = length (buffers s) /\
    (forall j, j <> i -> buffers s' !! j = buffers s !! j)) s.
Proof.
  intros Hf Hi. destruct (lookup_lt_is_Some_2 (buffers s) i Hi) as [[ad rc mt] Hb].
  set (b := Buffer ad rc mt) in *. set (b' := Buffer (if reset then None else ad) rc false).
  assert (forall s', k_blocks s' = match ad with Some a => delete a (k_blocks s) | None => k_blocks s end ->
    buffers s' = <[i := b']> (buffers s) -> same_rest s s' ->
    free_inv reset (S i) s' /\ same_rest s s' /\ length (buffers s') = length (buffers s) /\
    (forall j, j <> i -> buffers s' !! j = buffers s !! j)) as Hfin.
  { intros s' Ek Eb Hr. split_and!; [| exact Hr | rewrite Eb; apply length_insert |].
    - apply (free_inv_step reset i s s' b b'); auto. now intros ->.
    - intros j Hj. rewrite Eb. now rewrite list_lookup_insert_ne. }
  unfold free_one. apply wp_bind, (buf_at_wp i b); [done |].
  destruct ad as [a |]; apply wp_bind.
  - apply wp_bind, wp_bind, wp_kassert; [apply bool_decide_eq_true; now apply (fi_block _ _ _ Hf i b a) |].
    apply wp_modify. destruct reset, mt.
    + apply (set_buf_wp i b); [done |]. eapply (set_buf_wp i).
      { cbn [buffers upd cstate_eta]. now apply list_lookup_insert_eq. }
      apply Hfin; [done | cbn [buffers upd cstate_eta]; apply list_insert_insert_eq | now split_and!].
    + apply (set_buf_wp i b); [done |]. apply wp_ret. apply Hfin; [done | done | now split_and!].
    + apply wp_ret, (set_buf_wp i b); [done |]. apply Hfin; [done | done | now split_and!].
    + apply wp_ret, wp_ret. apply Hfin; [done | simpl; now rewrite list_insert_id | now split_and!].
  - apply wp_ret. destruct mt.
    + apply (set_buf_wp i b); [done |]. apply Hfin; [done | now destruct reset | now split_and!].
    + apply wp_ret. apply Hfin; [done | rewrite list_insert_id; [done | now destruct reset] | now split_and!].
Qed.

Lemma free_loop_wp reset i n s :
  free_inv reset i s -> (i + n <= length (buffers s))%nat ->
  wp (free_loop reset i n) (fun _ s' => free_inv reset (i + n) s' /\ same_rest s s' /\
    length (buffers s') = length (buffers s) /\
    (forall j, (i + n <= j)%nat -> buffers s' !! j = buffers s !! j)) s.
Proof.
  revert i s. induction n as [| n IH]; intros i s Hf Hn; cbn [free_loop].
  { apply wp_ret. rewrite Nat.add_0_r. split_and!; auto using same_rest_refl. }
  apply wp_bind. eapply wp_mono; [apply (free_one_wp reset i s Hf); lia |].
  intros ? s1 (H1 & H2 & H3 & H4). eapply wp_mono; [apply (IH (S i) s1 H1); lia |].
  intros ? s2 (I1 & I2 & I3 & I4). replace (i + S n)%nat with (S i + n)%nat by lia.
  split_and!; auto; [eapply same_rest_trans; eassumption | lia |].
  intros j Hj. rewrite I4 by lia. apply H4. lia.
Qed.

(** No block is left once every buffer that has one was freed. *)
Lemma free_inv_empty reset k s :
  free_inv reset k s -> (forall j b, (k <= j)%nat -> buffers s !! j = Some b -> cb_addr b = None) ->
  k_blocks s = ∅.
Proof.
  intros Hf Hn. apply map_empty. intros a. destruct (k_blocks s !! a) eqn:E; [| done].
  destruct (fi_all _ _ _ Hf a ltac:(eauto)) as (j & b & Hj & Hb & Ea).
  specialize (Hn j b Hj Hb). congruence.
Qed.

(** The module's variables before it is loaded. *)
Definition unloaded s : Prop :=
  buffers s = replicate MAX_NUM_BUFS buffer_zero /\ refcnt s = 0 /\ cdev s = false /\
  k_blocks s = ∅ /\ k_oids s = [] /\ k_handles s = O /\ k_objs s = [] /\ k_opens s = O.

Lemma unloaded_bufs s : unloaded s -> bufs_ok 0 s.
Proof.
  intros (H1 & H2 & H3 & H4 & H5 & H6 & H7 & H8). split; rewrite ?H1, ?H4, ?H5.
  - apply length_replicate.
  - intros i b [-> _]%lookup_replicate. done.
  - intros i j b b' a [-> _]%lookup_replicate. done.
  - intros a [x Hx]. now rewrite lookup_empty in Hx.
  - intros i Hi. now apply not_elem_of_nil in Hi.
Qed.

Lemma load_error_wp k s e :
  bufs_ok k s -> (k <= Z.to_nat (num_buffers s))%nat -> num_buffers s <= Z.of_nat MAX_NUM_BUFS ->
  wp (load_error e) (fun r s' => r = e /\ same_rest s s' /\ k_blocks s' = ∅ /\
    Forall (fun b => cb_addr b = None /\ cb_mtx b = false) (buffers s')) s.
Proof.
  intros Hb Hk Hn. apply wp_bind, wp_gets, wp_bind. eapply wp_mono.
  { apply (free_loop_wp true 0 (Z.to_nat (num_buffers s)) s (bufs_ok_free true k s Hb)).
    rewrite (bo_len _ _ Hb). lia. }
  intros ? s' (H1 & H2 & H3 & H4). apply wp_ret.
  assert (forall j b, (Z.to_nat (num_buffers s) <= j)%nat -> buffers s' !! j = Some b -> b = buffer_zero) as Hz.
  { intros j b Hj Hx. rewrite H4 in Hx by lia. pose proof (bo_buf _ _ Hb j b Hx) as Hz.
    now rewrite decide_False in Hz by lia. }
  split_and!; auto.
  - apply (free_inv_empty _ _ _ H1). intros j b Hj Hx. now rewrite (Hz j b Hj Hx).
  - apply Forall_lookup. intros j b Hx. destruct (decide (j < Z.to_nat (num_buffers s))%nat) as [Hlt |].
    + destruct (fi_done _ _ _ H1 j b Hlt Hx) as [D1 D2]. auto.
    + rewrite (Hz j b ltac:(lia) Hx). done.
Qed.

Lemma load_wp grants s :
  unloaded s -> 0 <= num_buffers s <= Z.of_nat MAX_NUM_BUFS -> Z.of_nat MAX_NUM_BUFS < 2 ^ 31 ->
  buffer_size s < 2 ^ 63 -> fresh_grants grants 0 s ->
  wp (contigmem_load grants) (fun r s' =>
    (r = 0 /\ contig_ok s' /\ cdev s' = true) \/
    (r <> 0 /\ k_blocks s' = ∅ /\ cdev s' = false /\
     Forall (fun b => cb_addr b = None /\ cb_mtx b = false) (buffers s'))) s.
Proof.
  intros Hu Hn Hmax Hsz Hg.
  pose proof (unloaded_bufs s Hu) as Hb. destruct Hu as (U1 & U2 & U3 & U4 & U5 & U6 & U7 & U8).
  assert (forall k s1 e, e <> 0 -> bufs_ok k s1 -> (k <= Z.to_nat (num_buffers s))%nat -> same_rest s s1 ->
    wp (load_error e) (fun r s' => r <> 0 /\ k_blocks s' = ∅ /\ cdev s' = false /\
      Forall (fun b => cb_addr b = None /\ cb_mtx b = false) (buffers s')) s1) as Herr.
  { intros k s1 e He Hb1 Hk (R1 & R2 & R3 & _). eapply wp_mono; [apply (load_error_wp k s1 e Hb1); lia |].
    intros r s' (-> & (_ & _ & S3 & _) & H3 & H4). split_and!; auto. congruence. }
  unfold contigmem_load. apply wp_bind, wp_gets. unfold id.
  rewrite (proj2 (Z.ltb_ge _ _)) by lia. destruct (_ || _) eqn:Es.
  { eapply wp_mono; [apply (Herr 0%nat s EINVAL); auto using same_rest_refl; done || lia |]. auto. }
  apply orb_false_elim in Es as [Es _]. apply Z.ltb_ge in Es. apply wp_bind. eapply wp_mono.
  { apply (load_loop_wp grants 0 (Z.to_nat (num_buffers s)) s Hb); auto. lia. }
  intros ok s1 (R & k & K1 & K2 & K3). destruct ok.
  + specialize (K3 eq_refl). simpl in K3. subst k. destruct R as (R1 & R2 & R3 & R4 & R5 & R6 & R7).
    apply wp_bind, wp_modify, wp_ret. left. split_and!; auto.
    assert (bufs_ok (Z.to_nat (num_buffers s)) (s1 <| cdev := true |>)) as K2' by now apply (bufs_ok_ext _ s1).
    rewrite <- R1 in K2'.
    split; [simpl; rewrite R1; exact Hn | done | simpl; rewrite R2; lia | exact K2' | ..]; simpl.
    * rewrite R4, R6, R7, U2, U7, U8. done.
    * rewrite R6, U7. simpl. lia.
    * rewrite R6, U7. intros o Ho. now apply not_elem_of_nil in Ho.
  + eapply wp_mono; [apply (Herr k s1 ENOMEM); auto; done || lia |]. auto.
Qed.

Lemma unload_wp t :
  contig_ok t -> Z.of_nat (k_opens t + length (k_objs t)) < 2 ^ 31 ->
  wp contigmem_unload (fun r t' =>
    if bool_decide (k_opens t = O /\ k_objs t = []) then r = 0 /\ k_blocks t' = ∅ /\ cdev t' = false
    else r = EBUSY /\ t' = t) t.
Proof.
  intros [C1 C2 C3 C4 C5 C6 C7] Hlt. rewrite s32_small in C5 by lia.
  unfold contigmem_unload. apply wp_bind, wp_gets. case_bool_decide as Hd.
  + destruct Hd as [D1 D2]. rewrite D1, D2 in C5. rewrite C5. simpl.
    apply wp_bind, wp_modify, wp_bind. set (t1 := t <| cdev := false |>).
    assert (bufs_ok (Z.to_nat (num_buffers t)) t1) as Hb1 by now apply (bufs_ok_ext _ t).
    eapply wp_mono.
    { apply (free_loop_wp false 0 MAX_NUM_BUFS t1 (bufs_ok_free false _ t1 Hb1)).
      rewrite (bo_len _ _ Hb1). lia. }
    intros ? t' (H1 & (_ & _ & H2 & _) & H3 & _). apply wp_ret. split_and!; auto.
    apply (free_inv_empty _ _ _ H1). intros j b Hj Hx. apply lookup_lt_Some in Hx.
    rewrite H3, (bo_len _ _ Hb1) in Hx. lia.
  + rewrite (proj2 (Z.ltb_lt 0 (refcnt t))); [now apply wp_ret |]. rewrite C5.
    destruct (k_opens t); [| lia]. destruct (k_objs t); [now destruct Hd | simpl; lia].
Qed.

(** Loading with a sane number of buffers either reserves them all, each
    with a zeroed block of its own, and makes the device, or fails and leaves
    no block, no address and no mutex behind; unloading, with fewer than [2 ^ 31]
    descriptors and mappings, is refused while there is one, and otherwise
    frees every block exactly once. *)
Theorem contigmem_load_unload grants s :
  unloaded s -> 0 <= num_buffers s <= Z.of_nat MAX_NUM_BUFS -> Z.of_nat MAX_NUM_BUFS < 2 ^ 31 ->
  buffer_size s < 2 ^ 63 -> fresh_grants grants 0 s ->
  wp (contigmem_modevent grants MOD_LOAD) (fun r s' =>
    (r = 0 /\ contig_ok s' /\ cdev s' = true) \/
    (r <> 0 /\ k_blocks s' = ∅ /\ cdev s' = false /\
     Forall (fun b => cb_addr b = None /\ cb_mtx b = false) (buffers s'))) s /\
  forall t, contig_ok t -> Z.of_nat (k_opens t + length (k_objs t)) < 2 ^ 31 ->
    wp (contigmem_modevent grants MOD_UNLOAD) (fun r t' =>
      if bool_decide (k_opens t = O /\ k_objs t = []) then r = 0 /\ k_blocks t' = ∅ /\ cdev t' = false
      else r = EBUSY /\ t' = t) t.
Proof. intros. split; [now apply load_wp | apply unload_wp]. Qed.

(** ** The loaded module *)

Lemma mappings_cons i o l :
  mappings i (o :: l) = ((if decide (Z.to_nat (vo_index o) = i) then 1 else 0) + mappings i l)%nat.
Proof. unfold mappings. rewrite filter_cons. now destruct (decide _). Qed.

Lemma mappings_mid i o l1 l2 :
  mappings i (l1 ++ o :: l2) = ((if decide (Z.to_nat (vo_index o) = i) then 1 else 0) + mappings i (l1 ++ l2))%nat.
Proof.
  induction l1 as [| x l1 IH]; simpl app; [apply mappings_cons |]. rewrite !mappings_cons, IH. lia.
Qed.

(** The entry and the block of one buffer change. *)
Lemma bufs_ok_set k s s' i a r bytes :
  bufs_ok k s -> (i < k)%nat -> buffers s !! i = Some (Buffer (Some a) r true) ->
  buffers s' = <[i := Buffer (Some a) (s32 (Z.of_nat (mappings i (k_objs s')))) true]> (buffers s) ->
  (forall j, j <> i -> mappings j (k_objs s') = mappings j (k_objs s)) ->
  k_blocks s' = <[a := bytes]> (k_blocks s) -> length bytes = Z.to_nat (buffer_size s) ->
  k_oids s' = k_oids s -> buffer_size s' = buffer_size s -> bufs_ok k s'.
Proof.
  intros [H1 H2 H3 H4 H5] Hi Hb E1 E2 E3 E4 E5 E6.
  pose proof (lookup_lt_Some _ _ _ Hb) as Hlt.
  split; rewrite ?E1, ?E3, ?E5, ?E6.
  - now rewrite length_insert.
  - intros j b Hj. destruct (decide (i = j)) as [<- | Hne].
    + rewrite list_lookup_insert_eq in Hj by done. injection Hj as <-. rewrite decide_True by done.
      exists a, bytes. now rewrite lookup_insert_eq.
    + rewrite list_lookup_insert_ne in Hj by done. pose proof (H2 j b Hj) as Hx. rewrite E2 by done.
      destruct (decide (j < k)%nat); [| exact Hx]. destruct Hx as (a' & bytes' & -> & X2 & X3).
      exists a', bytes'. rewrite lookup_insert_ne; [done |]. intros <-. apply Hne.
      exact (H3 i j _ _ a Hb Hj eq_refl eq_refl).
  - assert (forall j b, (<[i := Buffer (Some a) (s32 (Z.of_nat (mappings i (k_objs s')))) true]> (buffers s)) !! j = Some b ->
      exists b0, buffers s !! j = Some b0 /\ cb_addr b0 = cb_addr b) as Hold.
    { intros j b Hj. destruct (decide (i = j)) as [<- |]; [| rewrite list_lookup_insert_ne in Hj; eauto].
      rewrite list_lookup_insert_eq in Hj by done. injection Hj as <-. eauto. }
    intros j j' b b' a' Hj Hj' Ea Ea'. destruct (Hold j b Hj) as (b0 & B1 & B2), (Hold j' b' Hj') as (b0' & B1' & B2').
    rewrite <- B2 in Ea. rewrite <- B2' in Ea'. eauto.
  - intros a' Ha. assert (is_Some (k_blocks s !! a')) as Ha'.
    { destruct (decide (a = a')) as [<- |]; [| now rewrite lookup_insert_ne in Ha].
      pose proof (H2 i _ Hb) as Hx. rewrite decide_True in Hx by done.
      destruct Hx as (a' & bytes' & X1 & X2 & _). injection X1 as <- _. eauto. }
    destruct (H4 a' Ha') as (j & b & Hj & Ea). destruct (decide (i = j)) as [<- |].
    + eexists i, _. rewrite list_lookup_insert_eq by done. split; [reflexivity |].
      rewrite Hb in Hj. injection Hj as <-. exact Ea.
    + exists j, b. now rewrite list_lookup_insert_ne.
  - exact H5.
Qed.

(** A buffer in use. *)
Lemma contig_buffer s (i : nat) :
  contig_ok s -> (i < Z.to_nat (num_buffers s))%nat ->
  exists a bytes, buffers s !! i = Some (Buffer (Some a) (s32 (Z.of_nat (mappings i (k_objs s)))) true) /\
    k_blocks s !! a = Some bytes /\ length bytes = Z.to_nat (buffer_size s).
Proof.
  intros [C1 C2 C3 C4 C5 C6 C7] Hi.
  assert (i < length (buffers s))%nat as Hlt by (rewrite (bo_len _ _ C4); lia).
  destruct (lookup_lt_is_Some_2 (buffers s) i Hlt) as [b Hb]. pose proof (bo_buf _ _ C4 i b Hb) as Hx.
  rewrite decide_True in Hx by done. destruct Hx as (a & bytes & -> & X2 & X3). eauto.
Qed.

(** What the pager's constructor and destructor leave alone. *)
Definition same_vars s s' : Prop :=
  num_buffers s' = num_buffers s /\ buffer_size s' = buffer_size s /\ cdev s' = cdev s /\
  k_oids s' = k_oids s /\ k_objs s' = k_objs s /\ k_opens s' = k_opens s.

Lemma ctor_wp s i a r bytes :
  buffers s !! i = Some (Buffer (Some a) r true) -> k_blocks s !! a = Some bytes ->
  wp (contigmem_cdev_pager_ctor i) (fun e s' => e = 0 /\ same_vars s s' /\ k_handles s' = k_handles s /\
    refcnt s' = s32 (refcnt s + 1) /\ buffers s' = <[i := Buffer (Some a) (s32 (r + 1)) true]> (buffers s) /\
    k_blocks s' = (if r =? 0 then <[a := replicate (Z.to_nat (buffer_size s)) 0]> (k_blocks s)
                   else k_blocks s)) s.
Proof.
  intros Hb Ha. apply wp_bind. eapply buf_at_wp; [exact Hb |]. apply wp_bind, wp_modify, wp_bind, wp_kassert; [done |].
  apply wp_bind. cbn [cb_refcnt cb_addr]. destruct (Z.eqb_spec r 0) as [-> | Hr].
  - apply wp_bind, wp_kassert; [apply bool_decide_eq_true; simpl; eauto |]. apply wp_modify, wp_bind.
    eapply set_buf_wp; [exact Hb |]. apply wp_ret. now split_and!.
  - apply wp_ret, wp_bind. eapply set_buf_wp; [exact Hb |]. apply wp_ret. now split_and!.
Qed.

Lemma dtor_wp s i a r :
  buffers s !! i = Some (Buffer (Some a) r true) ->
  wp (contigmem_cdev_pager_dtor i) (fun _ s' => same_vars s s' /\ k_handles s' = pred (k_handles s) /\
    refcnt s' = s32 (refcnt s - 1) /\ buffers s' = <[i := Buffer (Some a) (s32 (r - 1)) true]> (buffers s) /\
    k_blocks s' = k_blocks s) s.
Proof.
  intros Hb. apply wp_bind. eapply buf_at_wp; [exact Hb |]. apply wp_bind, wp_kassert; [done |].
  apply wp_bind. eapply set_buf_wp; [exact Hb |]. apply wp_bind, wp_modify, wp_modify. now split_and!.
Qed.

(** The objects after a mapping of buffer [i] was made. *)
Lemma contig_ok_map s s' (i : nat) a size bytes :
  contig_ok s -> (i < Z.to_nat (num_buffers s))%nat -> 0 <= size <= buffer_size s ->
  buffers s !! i = Some (Buffer (Some a) (s32 (Z.of_nat (mappings i (k_objs s)))) true) ->
  num_buffers s' = num_buffers s -> buffer_size s' = buffer_size s -> k_oids s' = k_oids s ->
  k_opens s' = k_opens s -> k_handles s' = S (k_handles s) -> refcnt s' = s32 (refcnt s + 1) ->
  buffers s' = <[i := Buffer (Some a) (s32 (s32 (Z.of_nat (mappings i (k_objs s))) + 1)) true]> (buffers s) ->
  k_objs s' = VmObj (Z.of_nat i) (vtophys (Some a)) size WRITE_BACK true :: k_objs s ->
  k_blocks s' = <[a := bytes]> (k_blocks s) -> length bytes = Z.to_nat (buffer_size s) -> contig_ok s'.
Proof.
  intros [C1 C2 C3 C4 C5 C6 C7] Hi Hs Hb E1 E2 E3 E4 E5 E6 E7 E8 E9 E10.
  split; rewrite ?E1, ?E2, ?E4, ?E5, ?E6, ?E8; auto.
  - apply (bufs_ok_set _ s s' i a (s32 (Z.of_nat (mappings i (k_objs s)))) bytes); auto.
    + rewrite E7, E8, mappings_cons. simpl. rewrite Nat2Z.id, decide_True by done. rewrite s32_add. do 3 f_equal. lia.
    + intros j Hj. rewrite E8, mappings_cons. simpl. rewrite Nat2Z.id, decide_False by congruence. done.
  - rewrite C5, s32_add. simpl. f_equal. lia.
  - simpl. lia.
  - intros o [-> | Ho]%elem_of_cons.
    + simpl. split_and!; auto; try lia. rewrite Nat2Z.id, E7. intros b.
      rewrite list_lookup_insert_eq by (apply lookup_lt_Some in Hb; lia). now intros [= <-].
    + destruct (C7 o Ho) as (O1 & O2 & O3 & O4 & O5). split_and!; auto; try lia.
      intros b. rewrite E7. destruct (decide (i = Z.to_nat (vo_index o))) as [Ei | Hne].
      * rewrite <- Ei, list_lookup_insert_eq by (apply lookup_lt_Some in Hb; lia). intros [= <-].
        rewrite Ei in Hb. exact (O5 _ Hb).
      * rewrite list_lookup_insert_ne by done. apply O5.
Qed.

(** The reasons to refuse a mapping. *)
Definition mmap_refused s (off size : Z) (malloc_ok : bool) : Prop :=
  num_buffers s <= u64 (Z.quot off PAGE_SIZE) \/ buffer_size s < size \/ malloc_ok = false.

(** A mapping is made: what it finds, and what it leaves. *)
Lemma mmap_wp s off size malloc_ok pager_ok :
  contig_ok s -> 0 <= size ->
  wp (contigmem_mmap_single off size malloc_ok pager_ok) (fun r s' => contig_ok s' /\
    k_opens s' = k_opens s /\ num_buffers s' = num_buffers s /\ buffer_size s' = buffer_size s /\
    (mmap_refused s off size malloc_ok /\ (exists e, e <> 0 /\ r = (e, None)) /\ s' = s \/
     let i := Z.to_nat (u64 (Z.quot off PAGE_SIZE)) in
     exists a bytes, (i < Z.to_nat (num_buffers s))%nat /\ size <= buffer_size s /\ malloc_ok = true /\
       buffers s !! i = Some (Buffer (Some a) (s32 (Z.of_nat (mappings i (k_objs s)))) true) /\
       r = (0, Some (vtophys (Some a))) /\ k_blocks s !! a = Some bytes /\
       if pager_ok then
         k_objs s' = VmObj (Z.of_nat i) (vtophys (Some a)) size WRITE_BACK true :: k_objs s /\
         k_blocks s' = (if s32 (Z.of_nat (mappings i (k_objs s))) =? 0
                        then <[a := replicate (Z.to_nat (buffer_size s)) 0]> (k_blocks s) else k_blocks s)
       else k_objs s' = k_objs s /\ k_blocks s' = k_blocks s)) s.
Proof.
  intros Hc Hs. pose proof Hc as [C1 C2 C3 C4 C5 C6 C7]. unfold contigmem_mmap_single. cbn zeta.
  set (idx := u64 (Z.quot off PAGE_SIZE)). assert (0 <= idx) as Hidx by (unfold idx, u64; apply Z.mod_pos_bound; lia).
  apply wp_bind, wp_gets. unfold id.
  assert (forall e, e <> 0 -> mmap_refused s off size malloc_ok -> wp (ret (e, @None Z)) (fun r s' => contig_ok s' /\
    k_opens s' = k_opens s /\ num_buffers s' = num_buffers s /\ buffer_size s' = buffer_size s /\
    (mmap_refused s off size malloc_ok /\ (exists e, e <> 0 /\ r = (e, None)) /\ s' = s \/ False)) s) as Herr.
  { intros e He Hr. apply wp_ret. split_and!; auto. left. eauto. }
  replace (u64 (num_buffers s)) with (num_buffers s) by (unfold u64; rewrite Z.mod_small; lia).
  replace (u64 (buffer_size s)) with (buffer_size s)
    by (unfold u64; rewrite Z.mod_small; [done |]; unfold PAGE_SIZE in C3; lia).
  destruct (Z.leb_spec (num_buffers s) idx) as [| Hlt].
  { eapply wp_mono; [apply (Herr EINVAL); [done | unfold mmap_refused; auto] |]. intros r s' (? & ? & ? & ? & [? | []]). auto 10. }
  destruct (Z.ltb_spec (buffer_size s) size) as [| Hle].
  { eapply wp_mono; [apply (Herr EINVAL); [done | unfold mmap_refused; auto] |]. intros r s' (? & ? & ? & ? & [? | []]). auto 10. }
  destruct malloc_ok; cbn [negb].
  2: { eapply wp_mono; [apply (Herr ENOMEM); [done | unfold mmap_refused; auto] |]. intros r s' (? & ? & ? & ? & [? | []]). auto 10. }
  clear Herr. destruct (contig_buffer s (Z.to_nat idx) Hc ltac:(lia)) as (a & bytes & B1 & B2 & B3).
  apply wp_bind, wp_modify, wp_bind. eapply buf_at_wp; [exact B1 |]. cbn [cb_addr]. apply wp_bind.
  set (s1 := s <| k_handles ::= S |>). destruct pager_ok.
  - apply wp_bind. eapply wp_mono; [apply (ctor_wp s1 (Z.to_nat idx) a _ bytes B1 B2) |].
    intros e s2 (-> & (V1 & V2 & V3 & V4 & V5 & V6) & V7 & V8 & V9 & V10). apply wp_modify, wp_ret.
    set (s3 := s2 <| k_objs ::= _ |>).
    assert (k_blocks s3 = (if s32 (Z.of_nat (mappings (Z.to_nat idx) (k_objs s))) =? 0
      then <[a := replicate (Z.to_nat (buffer_size s)) 0]> (k_blocks s) else k_blocks s)) as Hk.
    { change (k_blocks s2 = (if s32 (Z.of_nat (mappings (Z.to_nat idx) (k_objs s))) =? 0
        then <[a := replicate (Z.to_nat (buffer_size s)) 0]> (k_blocks s) else k_blocks s)).
      exact V10. }
    assert (k_objs s3 = VmObj (Z.of_nat (Z.to_nat idx)) (vtophys (Some a)) size WRITE_BACK true :: k_objs s) as Ho.
    { unfold s3. simpl. rewrite V5. now rewrite Z2Nat.id. }
    split_and!; auto.
    + destruct (s32 _ =? 0).
      * eapply (contig_ok_map s s3 (Z.to_nat idx) a size); try eassumption; auto; [lia | apply length_replicate].
      * eapply (contig_ok_map s s3 (Z.to_nat idx) a size bytes); try eassumption; auto; [lia |].
        now rewrite insert_id.
    + right. exists a, bytes. split_and!; auto; lia.
  - apply wp_ret, wp_ret. split_and!; auto.
    + split; auto; [now apply (bufs_ok_ext _ s) | simpl; lia].
    + right. exists a, bytes. split_and!; auto; lia.
Qed.

(** A live object's buffer. *)
Lemma contig_obj s o :
  contig_ok s -> o ∈ k_objs s ->
  exists a bytes, let i := Z.to_nat (vo_index o) in
    (i < Z.to_nat (num_buffers s))%nat /\ vo_foff o = vtophys (Some a) /\
    buffers s !! i = Some (Buffer (Some a) (s32 (Z.of_nat (mappings i (k_objs s)))) true) /\
    k_blocks s !! a = Some bytes /\ length bytes = Z.to_nat (buffer_size s).
Proof.
  intros Hc Ho. destruct (co_objs s Hc o Ho) as (O1 & O2 & O3 & O4 & O5).
  destruct (contig_buffer s (Z.to_nat (vo_index o)) Hc ltac:(lia)) as (a & bytes & B1 & B2 & B3).
  exists a, bytes. split_and!; auto; [lia | exact (O5 _ B1)].
Qed.

(** An object is destroyed. *)
Lemma drop_wp s o l1 l2 :
  contig_ok s -> k_objs s = l1 ++ o :: l2 ->
  wp (contigmem_cdev_pager_dtor (Z.to_nat (vo_index o)))
     (fun _ s' => contig_ok (s' <| k_objs := l1 ++ l2 |>)) s.
Proof.
  intros Hc Hl. assert (o ∈ k_objs s) as Ho by (rewrite Hl; apply elem_of_app; right; left).
  destruct (contig_obj s o Hc Ho) as (a & bytes & Hi & _ & B1 & B2 & B3).
  pose proof Hc as [C1 C2 C3 C4 C5 C6 C7]. set (i := Z.to_nat (vo_index o)) in *.
  eapply wp_mono; [exact (dtor_wp s i a _ B1) |].
  intros ? s' ((V1 & V2 & V3 & V4 & V5 & V6) & V7 & V8 & V9 & V10). set (s1 := s' <| k_objs := l1 ++ l2 |>).
  assert (length (k_objs s) = S (length (l1 ++ l2))) as Hlen.
  { rewrite Hl, !length_app. simpl. lia. }
  split; unfold s1; cbn [num_buffers buffer_size refcnt k_handles k_objs k_opens upd cstate_eta];
    rewrite ?V1, ?V2, ?V6, ?V7, ?V8; auto; try lia.
  - apply (bufs_ok_set _ s _ i a (s32 (Z.of_nat (mappings i (k_objs s)))) bytes); auto; simpl.
    + rewrite V9, Hl, mappings_mid, decide_True by done. rewrite <- Z.add_opp_r, s32_add. do 3 f_equal. lia.
    + intros j Hj. rewrite Hl, mappings_mid, decide_False by done. done.
    + rewrite V10. now rewrite insert_id.
  - rewrite C5, <- Z.add_opp_r, s32_add. f_equal. lia.
  - intros x Hx. assert (x ∈ k_objs s) as Hx'.
    { rewrite Hl. apply elem_of_app in Hx as [? | ?]; apply elem_of_app; [now left | right; now right]. }
    destruct (C7 x Hx') as (O1 & O2 & O3 & O4 & O5). split_and!; auto; try lia.
    intros b. simpl. rewrite V9. destruct (decide (i = Z.to_nat (vo_index x))) as [Ei | Hne].
    + rewrite <- Ei, list_lookup_insert_eq by (apply lookup_lt_Some in B1; lia). intros [= <-].
      rewrite Ei in B1. exact (O5 _ B1).
    + rewrite list_lookup_insert_ne by done. apply O5.
Qed.

Lemma cstep_ok s s' : contig_ok s -> cstep s s' -> contig_ok s'.
Proof.
  intros Hc Hs. pose proof Hc as [C1 C2 C3 C4 C5 C6 C7].
  destruct Hs as [s s' E | s s' Ho E | s s' off size malloc_ok pager_ok r Ho Hz E
    | s o a b b' Ho Hb Ha (old & Hold & Hlen) | s s' o l1 l2 Hl E | s s' i r Hi E].
  - injection E as <-. split; auto; [now apply (bufs_ok_ext _ s) |]. simpl. rewrite C5, <- ?Z.add_opp_r, s32_add. f_equal. lia.
  - injection E as <-. split; auto; [now apply (bufs_ok_ext _ s) |]. simpl. rewrite C5, <- ?Z.add_opp_r, s32_add. f_equal. lia.
  - pose proof (mmap_wp s off size malloc_ok pager_ok Hc Hz) as H. unfold wp in H. rewrite E in H. apply H.
  - destruct (contig_obj s o Hc Ho) as (a' & bytes & Hi & _ & B1 & B2 & B3).
    rewrite B1 in Hb. injection Hb as <-. simpl in Ha. injection Ha as <-. rewrite B2 in Hold. injection Hold as <-.
    split; auto. eapply (bufs_ok_set _ s _ (Z.to_nat (vo_index o)) a' _ b'); try eassumption; auto.
    + simpl. now rewrite list_insert_id.
    + lia.
  - pose proof (drop_wp s o l1 l2 Hc Hl) as H. unfold wp in H. rewrite E in H. exact H.
  - unfold contigmem_physaddr, bind, buf_at in E. destruct (buffers s !! i); [| done]. now injection E as _ <-.
Qed.

(** C19. From a loaded module with a non-negative number of buffers on
    ([contig_ok]; [contigmem_bad_tunables] has the negative one), whatever
    processes open, close, map, store, unmap and read, every buffer's reference
    count is the number of its live mappings and the module's count that of
    open descriptors and mappings, as the wrapping [int]s they are, so exactly
    while fewer than [2 ^ 31] of them live; and each entry point returns: no
    array bound, freed block or uninitialised mutex is ever met. *)
Theorem contigmem_refcounts_exact s s' :
  contig_ok s -> rtc cstep s s' ->
  contig_ok s' /\
  (forall i, (i < Z.to_nat (num_buffers s'))%nat -> exists b, buffers s' !! i = Some b /\
     cb_refcnt b = s32 (Z.of_nat (mappings i (k_objs s')))) /\
  refcnt s' = s32 (Z.of_nat (k_opens s' + length (k_objs s'))) /\
  (forall off size m p, 0 <= size -> is_Some (contigmem_mmap_single off size m p s')) /\
  (forall o, o ∈ k_objs s' -> is_Some (contigmem_cdev_pager_dtor (Z.to_nat (vo_index o)) s')) /\
  (forall i, i ∈ k_oids s' -> is_Some (contigmem_physaddr i s')).
Proof.
  intros Hc Hr. assert (contig_ok s') as Hc'.
  { induction Hr as [| s1 s2 s3 Hs _ IH]; [done |]. apply IH. now apply (cstep_ok s1). }
  clear Hr Hc. pose proof Hc' as [C1 C2 C3 C4 C5 C6 C7]. split_and!; auto.
  - intros i Hi. destruct (contig_buffer s' i Hc' Hi) as (a & bytes & B1 & _). eauto.
  - intros off size m p Hs. pose proof (mmap_wp s' off size m p Hc' Hs) as H. unfold wp in H.
    destruct (contigmem_mmap_single off size m p s') as [[? ?] |]; [eauto | done].
  - intros o Ho. destruct (contig_obj s' o Hc' Ho) as (a & bytes & _ & _ & B1 & _).
    pose proof (dtor_wp s' _ a _ B1) as H. unfold wp in H. destruct (contigmem_cdev_pager_dtor _ s') as [[? ?] |]; [eauto | done].
  - intros i Hi. pose proof (bo_oids _ _ C4 i Hi) as Hlt.
    destruct (contig_buffer s' i Hc' Hlt) as (a & bytes & B1 & _).
    unfold contigmem_physaddr, bind, buf_at. rewrite B1. eauto.
Qed.

(** A page fault at byte [k] of mapping [o]: a valid page of its own buffer. *)
Definition fault_confined s (o : vm_obj) : Prop :=
  forall k attrs mres, 0 <= k < vo_size o ->
    exists b a, buffers s !! Z.to_nat (vo_index o) = Some b /\ cb_addr b = Some a /\
      let page := contigmem_cdev_pager_fault attrs o (vo_foff o + k) mres in
      pg_paddr page = vtophys (Some a) + k /\ k < buffer_size s /\ pg_valid page = true /\ pg_capstore page = true.

Lemma faults_confined s o : contig_ok s -> o ∈ k_objs s -> fault_confined s o.
Proof.
  intros Hc Ho k attrs mres Hk. destruct (contig_obj s o Hc Ho) as (a & bytes & _ & Hf & B1 & _).
  destruct (co_objs s Hc o Ho) as (_ & Hsz & _). eexists _, a. split; [exact B1 |]. split; [done |]. cbn zeta.
  unfold contigmem_cdev_pager_fault. rewrite Hf. destruct (pg_fictitious mres); simpl; split_and!; auto; lia.
Qed.

(** C20. In a loaded module with a non-negative number of buffers and fewer than
    [2 ^ 31] live mappings, a mapping is refused, with nothing changed, exactly
    when its page number is no buffer's index, it is larger than a buffer, or the handle cannot be
    allocated.  Otherwise it maps the buffer its offset names: one nobody else
    has mapped is found zeroed, a shared one keeps its bytes, no other buffer's
    bytes are touched, and the address reported is that buffer's.  A page
    fault at any byte of any mapping then live, the new one included, gives
    the valid page at that distance in the mapping's own buffer, with
    capability stores allowed.  The pager is taken to make the object: when it
    does not, the code leaks the handle and reports success without one. *)
Theorem contigmem_mapping_confined s off size malloc_ok :
  contig_ok s -> 0 <= size -> Z.of_nat (length (k_objs s)) < 2 ^ 31 ->
  let i := Z.to_nat (u64 (Z.quot off PAGE_SIZE)) in
  wp (contigmem_mmap_single off size malloc_ok true) (fun r s' =>
    (forall o, o ∈ k_objs s' -> fault_confined s' o) /\
    (mmap_refused s off size malloc_ok /\ r.1 <> 0 /\ s' = s \/
     ~ mmap_refused s off size malloc_ok /\
     exists a b, buffers s !! i = Some b /\ cb_addr b = Some a /\ r = (0, Some (vtophys (Some a))) /\
       k_objs s' = VmObj (Z.of_nat i) (vtophys (Some a)) size WRITE_BACK true :: k_objs s /\
       (forall a', a' <> a -> k_blocks s' !! a' = k_blocks s !! a') /\
       k_blocks s' !! a = if decide (mappings i (k_objs s) = O)
                          then Some (replicate (Z.to_nat (buffer_size s)) 0) else k_blocks s !! a)) s.
Proof.
  intros Hc Hs Hn i. eapply wp_mono; [apply (mmap_wp s off size malloc_ok true Hc Hs) |].
  intros r s' (Hc' & _ & _ & _ & H). split; [intros o; now apply faults_confined |].
  destruct H as [(Hr & (e & He & ->) & ->) | (a & bytes & Hi & Hsz & Hm & B1 & Hr & B2 & Ho & B3)]; [now left | right].
  fold i in Hi, B1, Ho, B3. split; [unfold mmap_refused; lia || (intros [? | [? | ?]]; [lia | lia | congruence]) |].
  exists a. eexists. split; [exact B1 |]. split_and!; auto; rewrite B3.
  - intros a' Ha. destruct (_ =? 0); [now rewrite lookup_insert_ne | done].
  - assert (mappings i (k_objs s) <= length (k_objs s))%nat by apply length_filter.
    rewrite s32_small by lia. destruct (decide _) as [Em | Hne].
    + rewrite (proj2 (Z.eqb_eq _ _)) by lia. now rewrite lookup_insert_eq.
    + rewrite (proj2 (Z.eqb_neq _ _)) by lia. done.
Qed.

(** ** Tunables out of range *)

Lemma free_loop_overrun i n s :
  (forall j, (i <= j < MAX_NUM_BUFS)%nat -> buffers s !! j = Some buffer_zero) ->
  length (buffers s) = MAX_NUM_BUFS -> (i <= MAX_NUM_BUFS < i + n)%nat -> free_loop true i n s = None.
Proof.
  revert i. induction n as [| n IH]; intros i Hz Hl Hn; [lia |]. cbn [free_loop].
  unfold bind at 1, free_one, bind at 1, buf_at. destruct (decide (i = MAX_NUM_BUFS)) as [E | Hne].
  - rewrite (proj2 (lookup_ge_None (buffers s) i)) by lia. done.
  - rewrite Hz by lia. cbn. apply IH; [| done | lia]. intros j Hj. apply Hz. lia.
Qed.

(** Asked for more buffers than its array holds, the module runs off the
    array on its error path; asked for a negative number, it loads without a
    buffer, and then takes every index for a valid one: a mapping meets an
    uninitialised mutex or leaves the array. *)
Theorem contigmem_bad_tunables grants s :
  unloaded s ->
  (Z.of_nat MAX_NUM_BUFS < num_buffers s -> contigmem_load grants s = None) /\
  (- 2 ^ 31 <= num_buffers s < 0 -> PAGE_SIZE <= buffer_size s < 2 ^ 63 ->
   Z.land (buffer_size s) (buffer_size s - 1) = 0 ->
   exists s', contigmem_load grants s = Some (0, s') /\
     forall off size, 0 <= off < 2 ^ 40 -> 0 <= size <= buffer_size s ->
       contigmem_mmap_single off size true true s' = None).
Proof.
  intros Hu. pose proof (bo_len _ _ (unloaded_bufs s Hu)) as Hl. destruct Hu as (U1 & _). split.
  - intros Hn. unfold contigmem_load, bind at 1, gets. unfold id.
    rewrite (proj2 (Z.ltb_lt _ _) Hn). unfold load_error, bind, gets.
    rewrite free_loop_overrun; [done | | done | lia]. intros j Hj. rewrite U1. now apply lookup_replicate_2.
  - intros Hn Hs Hp. exists (s <| cdev := true |>). split.
    + unfold contigmem_load, bind at 1, gets. unfold id. rewrite (proj2 (Z.ltb_ge _ _)) by lia.
      rewrite (proj2 (Z.ltb_ge _ _)), Hp by lia. simpl. replace (Z.to_nat (num_buffers s)) with O by lia. done.
    + intros off size Ho Hz. unfold contigmem_mmap_single, bind at 1, gets. cbn [num_buffers buffer_size upd cstate_eta id].
      set (idx := u64 (Z.quot off PAGE_SIZE)).
      assert (0 <= idx < 2 ^ 40) as Hidx.
      { unfold idx, u64. rewrite Z.quot_div_nonneg by (unfold PAGE_SIZE; lia). unfold PAGE_SIZE.
        rewrite Z.mod_small by zdiv. zdiv. }
      assert (u64 (num_buffers s) = num_buffers s + 2 ^ 64) as ->.
      { unfold u64. rewrite <- (Z.mod_add _ 1) by lia. rewrite Z.mod_small; lia. }
      replace (u64 (buffer_size s)) with (buffer_size s)
        by (unfold u64; rewrite Z.mod_small; [done |]; unfold PAGE_SIZE in Hs; lia).
      rewrite (proj2 (Z.leb_gt _ _)), (proj2 (Z.ltb_ge _ _)) by lia. cbn [negb].
      unfold bind, modify, buf_at, contigmem_cdev_pager_ctor, bind, buf_at. cbn [buffers upd cstate_eta].
      destruct (buffers s !! Z.to_nat idx) as [b |] eqn:Eb; [| done]. simpl. rewrite Eb.
      rewrite U1 in Eb. now apply lookup_replicate in Eb as [-> _].
Qed.
End runs.

(** ** A concrete module *)

#[local] Instance ex_contig : ContigEnv := {|
  MAX_NUM_BUFS := 4;
  vtophys := fun a => match a with Some a => a + 0x100000 | None => 0 end
|}.

(** Two buffers of a page each. *)
Definition ex_boot (n : Z) : cstate :=
  CState n 4096 (replicate 4 buffer_zero) false 0 ∅ [] 0 [] 0.

Definition ex_grants (i : nat) : option Z :=
  match i with 0%nat => Some 0x10000 | 1%nat => Some 0x20000 | _ => None end.

Lemma ex_unloaded n : unloaded (ex_boot n).
Proof. now split_and!. Qed.

Lemma ex_grants_fresh n : fresh_grants ex_grants 0 (ex_boot n).
Proof.
  split; [done |]. intros j j' a. unfold ex_grants.
  destruct j as [| [| j]], j' as [| [| j']]; intros E E'; congruence || done.
Qed.

Definition ex_loaded : cstate := default (ex_boot 2) (snd <$> contigmem_load ex_grants (ex_boot 2)).

Lemma ex_loaded_ok : contig_ok ex_loaded.
Proof.
  pose proof (load_wp ex_grants (ex_boot 2) (ex_unloaded 2) ltac:(simpl; lia) ltac:(simpl; lia) ltac:(simpl; lia)
    (ex_grants_fresh 2)) as H. unfold wp in H. unfold ex_loaded.
  destruct (contigmem_load ex_grants (ex_boot 2)) as [[r s'] |] eqn:E; [| done]. simpl.
  destruct H as [[_ [H _]] | [H _]]; [exact H |]. exfalso. apply H. vm_compute in E. now injection E as <- _.
Qed.

Lemma contigmem_load_unload_witness :
  exists s', contigmem_modevent ex_grants MOD_UNLOAD ex_loaded = Some (0, s') /\ k_blocks s' = ∅.
Proof.
  destruct (contigmem_load_unload ex_grants (ex_boot 2)) as [_ H];
    [apply ex_unloaded | simpl; lia | simpl; lia | simpl; lia | apply ex_grants_fresh |].
  specialize (H ex_loaded ex_loaded_ok ltac:(vm_compute; reflexivity)). unfold wp in H.
  destruct (contigmem_modevent ex_grants MOD_UNLOAD ex_loaded) as [[r s'] |]; [| done]. exists s'.
  assert (bool_decide (k_opens ex_loaded = O /\ k_objs ex_loaded = []) = true) as E.
  { apply bool_decide_eq_true. split; vm_compute; reflexivity. }
  rewrite E in H. destruct H as (-> & H & _). done.
Defined.

(** The device is opened and buffer 1 mapped. *)
Definition ex_opened : cstate := ex_loaded <| refcnt ::= fun r => s32 (r + 1) |> <| k_opens ::= S |>.
Definition ex_mapped : cstate :=
  default ex_opened (snd <$> contigmem_mmap_single 4096 4096 true true ex_opened).

Lemma ex_contig_run : rtc cstep ex_loaded ex_mapped.
Proof.
  apply rtc_l with (y := ex_opened); [now apply step_open |]. apply rtc_once.
  apply (step_mmap ex_opened ex_mapped 4096 4096 true true (0, Some 0x120000)); [vm_compute; lia | lia |].
  vm_compute. reflexivity.
Qed.

Lemma contigmem_refcounts_witness :
  refcnt ex_mapped = 2 /\ exists b, buffers ex_mapped !! 1%nat = Some b /\ cb_refcnt b = 1.
Proof.
  destruct (contigmem_refcounts_exact ex_loaded ex_mapped ex_loaded_ok ex_contig_run) as (_ & H1 & H2 & _).
  split; [rewrite H2; vm_compute; reflexivity |].
  destruct (H1 1%nat) as (b & B1 & B2); [vm_compute; lia |].
  exists b. split; [exact B1 |]. rewrite B2. vm_compute. reflexivity.
Defined.

(** The very first mapping, of buffer 1. *)
Lemma contigmem_mapping_confined_witness :
  exists s', contigmem_mmap_single 4096 4096 true true ex_opened = Some ((0, Some 0x120000), s') /\
    k_blocks s' !! 0x20000 = Some (replicate 4096 0) /\ Forall (fault_confined s') (k_objs s').
Proof.
  assert (contig_ok ex_opened) as Hc by (apply (cstep_ok ex_loaded ex_opened ex_loaded_ok); now apply step_open).
  pose proof (contigmem_mapping_confined ex_opened 4096 4096 true Hc ltac:(lia) ltac:(vm_compute; reflexivity)) as H.
  unfold wp in H. destruct (contigmem_mmap_single 4096 4096 true true ex_opened) as [[r s'] |]; [| done].
  exists s'. destruct H as [Hf [(Hr & _) | (_ & a & b & B1 & B2 & -> & _ & _ & B5)]].
  - exfalso. destruct Hr as [Hr | [Hr | Hr]]; [vm_compute in Hr; now apply Hr | vm_compute in Hr; done | done].
  - vm_compute in B1. injection B1 as <-. simpl in B2. injection B2 as <-. split; [done |]. split; [exact B5 |].
    apply list.Forall_forall. exact Hf.
Defined.

Lemma contigmem_bad_tunables_witness :
  contigmem_load ex_grants (ex_boot 5) = None /\
  exists s', contigmem_load ex_grants (ex_boot (-1)) = Some (0, s') /\
    contigmem_mmap_single 0 4096 true true s' = None.
Proof.
  destruct (contigmem_bad_tunables ex_grants (ex_boot 5) (ex_unloaded 5)) as [H1 _].
  destruct (contigmem_bad_tunables ex_grants (ex_boot (-1)) (ex_unloaded (-1))) as [_ H2].
  split; [apply H1; simpl; lia |].
  destruct H2 as (s' & H2 & H3); [simpl; lia | simpl; unfold PAGE_SIZE; lia | reflexivity |].
  exists s'. split; [exact H2 |]. apply H3; simpl; lia.
Defined.
