(* ===== verification/Echo.v ===== *)
(** * The echo servers

    [userlib/sockperf_echo.c], which reflects datagrams in place in the receive
    slots of the user library, and [fstack-capio/fstack_echo.c], which does so
    through the sockets of F-Stack, both in their plain build and in the one
    with [SPF_STRICT]; and [userlib/kern_echo.c], the same on the sockets of
    the kernel.

    The sockets and the clock are what the programs are given: the answers of
    [ff_recvfrom] are a list.  While a packet is handled its slot belongs to
    the process, so the NIC gets its turns in the calls of the library. *)

From stdpp Require Import list.
From S2P Require Import Prelude Uapi Desc Softc DataPath Cksum UserLib.
Local Open Scope Z_scope.

(** ** Headers *)

Definition ETH_HDR_LEN : Z := 14.
Definition IP_HDR_LEN : Z := 20.
Definition UDP_HDR_LEN : Z := 8.
Definition SPF_HDR_LEN : Z := 14.
Definition MIN_FRAME_LEN : Z := ETH_HDR_LEN + IP_HDR_LEN + UDP_HDR_LEN + SPF_HDR_LEN.

Definition SPF_MASK_CLIENT : Z := 0x0001.
Definition SPF_MASK_PONG : Z := 0x0002.
Definition SPF_MASK_WARMUP_MSG : Z := 0x0004.

(** [ntohs] of the 16 bits at [o]. *)
Definition be16 (mem : Z -> Z) (o : Z) : Z := 256 * mem o + mem (o + 1).

(** Stores of 16 bits, by value in host order and through [htons]. *)
Definition put_le16 (o v : Z) (mem : Z -> Z) : Z -> Z :=
  store_bytes o 2 (fun i => if i =? 0 then v mod 256 else v / 256) mem.
Definition put_be16 (o v : Z) (mem : Z -> Z) : Z -> Z :=
  store_bytes o 2 (fun i => if i =? 0 then v / 256 else v mod 256) mem.

(** Two fields of [n] bytes exchanged. *)
Definition swap_fields (n a b : Z) (mem : Z -> Z) : Z -> Z :=
  store_bytes b n (fun i => mem (a + i)) (store_bytes a n (fun i => mem (b + i)) mem).

(** ** [ip_cksum] *)

Fixpoint sum_words (l : list Z) (sum : Z) : Z :=
  match l with
  | a :: b :: l => sum_words l (u32 (sum + (a + 256 * b)))
  | [a] => u32 (sum + a)
  | [] => sum
  end.

Fixpoint fold_carry (fuel : nat) (sum : Z) : option Z :=
  match fuel with
  | O => None
  | S fuel => if Z.shiftr sum 16 =? 0 then Some sum
              else fold_carry fuel (u32 (Z.land sum 0xffff + Z.shiftr sum 16))
  end.

Definition ip_cksum (data : list Z) : option Z :=
  sum ← fold_carry 4 (sum_words data 0);
  Some (u16 (Z.lnot sum)).

(** ** One datagram *)

(** A strict server answers requests that want an answer, after the warm-up. *)
Definition spf_wanted (flags : Z) : bool :=
  negb (Z.land flags SPF_MASK_CLIENT =? 0) && (Z.land flags SPF_MASK_WARMUP_MSG =? 0)
  && negb (Z.land flags SPF_MASK_PONG =? 0).

(** The guards: the length of the IP header of a frame that is answered. *)
Definition echo_accepts (strict : bool) (mem : Z -> Z) (pkt len : Z) : option Z :=
  if len <? MIN_FRAME_LEN then None
  else if negb (be16 mem (pkt + 12) =? 0x0800) then None
  else
    let ip := pkt + ETH_HDR_LEN in
    let ip_hlen := Z.land (mem ip) 0x0f * 4 in
    if ip_hlen <? IP_HDR_LEN then None
    else if negb (mem (ip + 9) =? 17) then None
    else if len <? ETH_HDR_LEN + ip_hlen + UDP_HDR_LEN + SPF_HDR_LEN then None
    else
      let msg := ip + ip_hlen + UDP_HDR_LEN in
      if strict && negb (spf_wanted (be16 mem (msg + 8))) then None
      else Some ip_hlen.

(** The answer, written over the request. *)
Definition echo_rewrite (strict : bool) (pkt ip_hlen : Z) (mem : Z -> Z) : option (Z -> Z) :=
  let ip := pkt + ETH_HDR_LEN in
  let udp := ip + ip_hlen in
  let msg := udp + UDP_HDR_LEN in
  let mem := if strict
             then put_be16 (msg + 8) (Z.land (be16 mem (msg + 8)) (u16 (Z.lnot SPF_MASK_CLIENT))) mem
             else mem in
  let mem := swap_fields 6 pkt (pkt + 6) mem in
  let mem := swap_fields 4 (ip + 12) (ip + 16) mem in
  let mem := put_le16 (ip + 10) 0 mem in
  c ← ip_cksum (load_bytes mem ip ip_hlen);
  let mem := put_le16 (ip + 10) c mem in
  let mem := swap_fields 2 udp (udp + 2) mem in
  Some (put_le16 (udp + 6) 0 mem).

(** ** The event loop *)

Record counts := Counts { c_rx : Z; c_echoed : Z; c_ignored : Z }.
#[export] Instance counts_eta : Eta counts := fun c => Counts (c_rx c) (c_echoed c) (c_ignored c).

Definition count_one (f : counts -> Z) (c : counts) : Z := u64 (f c + 1).

Section echo.
Context {cap D : Type} `{!Device D}.
Abbreviation uworld := (uworld cap D).

(** A frame of 60 bytes from and to our own address. *)
Definition pad_frame (mac : list Z) : user_buf :=
  UserBuf true true 60
    (fun i => if i <? 12 then nth (Z.to_nat (i mod 6)) mac 0 else if i =? 12 then 0x88
              else if i =? 13 then 0xB5 else 0) None.

(** The answer is posted from its slot; [pair_tx] is whether SFC_PAIR_TX is
    set. *)
Definition echo_send (pair_tx : bool) (pa len : Z) (c : counts) : ST uworld counts :=
  let* r := sfc7120_tx_post_paddr pa len in
  if r =? 0 then
    do* (if pair_tx then
           let* mac := getu ui_mac_addr in
           do* sfc7120_tx_post (Some (pad_frame mac)) 60; ret tt
         else ret tt);
    ret (c <| c_echoed := count_one c_echoed c |>)
  else ret (c <| c_ignored := count_one c_ignored c |>).

(** One event.  The headers span at most 96 bytes of the receive buffer. *)
Definition echo_event (strict pair_tx : bool) (ev : sfc7120_ev) (c : counts) : ST uworld counts :=
  match ue_type ev with
  | SFC7120_EV_RX =>
      let* r := sfc7120_rx_peek true (ue_rx_bytes ev) in
      match snd r with
      | None => ret c
      | Some (pkt, len, pa) =>
          let c := c <| c_rx := count_one c_rx c |> in
          do* kassert (fun _ => (0 <=? pkt) && (pkt + 96 <=? SFC7120_NUM_RX_DESC * SFC7120_RX_BUFFER_SIZE));
          let* mem := shared (gets (fun w => rx_mem (w_dma w))) in
          match echo_accepts strict mem pkt len with
          | None =>
              do* sfc7120_rx_release;
              ret (c <| c_ignored := count_one c_ignored c |>)
          | Some ip_hlen =>
              match echo_rewrite strict pkt ip_hlen mem with
              | None => panic
              | Some mem' =>
                  do* shared (mod_dma (fun d => d <| rx_mem := mem' |>));
                  let* c := echo_send pair_tx pa len c in
                  do* sfc7120_rx_release;
                  ret c
              end
          end
      end
  | _ => ret c
  end.

Fixpoint echo_events (strict pair_tx : bool) (evs : list sfc7120_ev) (c : counts) : ST uworld counts :=
  match evs with
  | [] => ret c
  | ev :: evs =>
      let* c := echo_event strict pair_tx ev c in
      echo_events strict pair_tx evs c
  end.

(** The loop, for a process that is signalled after [rounds] of them. *)
Fixpoint echo_loop (strict pair_tx : bool) (rounds : nat) (c : counts) : ST uworld counts :=
  match rounds with
  | O => ret c
  | S rounds =>
      let* r := sfc7120_poll true 8 in
      if fst r <? 0 then ret c
      else
        let* c := echo_events strict pair_tx (snd r) c in
        echo_loop strict pair_tx rounds c
  end.
End echo.

(** ** Probes *)

(** The IP checksum as the probe's code sums it: big-endian words. *)
Fixpoint sum_be (l : list Z) (sum : Z) : Z :=
  match l with
  | a :: b :: l => sum_be l (u32 (sum + Z.lor (Z.shiftl a 8) b))
  | _ => sum
  end.

Definition probe_ip (c : Z) : list Z :=
  [0x45; 0; 0; 50; 0; 0; 0; 0; 64; 17; Z.shiftr c 8; Z.land c 0xff; 10; 0; 1; 3; 10; 0; 1; 4].

(** The eight bytes of the sequence number, most significant first. *)
Definition seq_bytes (seq : Z) : list Z := map (fun b => u8 (Z.shiftr seq (56 - 8 * b))) [0; 1; 2; 3; 4; 5; 6; 7].

Definition probe_frame (mac : list Z) (seq : Z) : option (list Z) :=
  sum ← fold_carry 4 (sum_be (probe_ip 0) 0);
  Some (<[5%nat := Z.lxor (nth 5 mac 0) 1]> mac ++ mac ++ [0x08; 0x00]
        ++ probe_ip (u16 (Z.lnot sum))
        ++ [0x2b; 0x67; 0x2b; 0x67; 0; 30; 0; 0]
        ++ seq_bytes seq ++ [0x00; 0x03; 0; 0; 0; 22] ++ replicate 8 0).

(** The sequence number and the test of the round-trip benchmark for a reply. *)
Definition reply_seq (bbuf : Z -> Z) : Z :=
  fold_left (fun rseq b => Z.lor (u64 (Z.shiftl rseq 8)) (bbuf (42 + b))) [0; 1; 2; 3; 4; 5; 6; 7] 0.

Definition rtt_accepts (seq : Z) (bbuf : Z -> Z) (bl : Z) : bool :=
  negb (bl <? 56) && (reply_seq bbuf =? seq)
  && (Z.land (Z.lor (Z.shiftl (bbuf 50) 8) (bbuf 51)) 0x1 =? 0).

(** The benchmark looks through the events of one poll until a reply matches.
    [bbuf] has room for 2048 bytes. *)
Section rtt.
Context {cap D : Type} `{!Device D}.
Abbreviation uworld := (uworld cap D).

Fixpoint rtt_scan (seq : Z) (evs : list sfc7120_ev) : ST uworld bool :=
  match evs with
  | [] => ret false
  | ev :: evs =>
      match ue_type ev with
      | SFC7120_EV_RX =>
          let* r := sfc7120_rx_recv (Some 2048) (ue_rx_bytes ev) in
          if negb (fst r =? 0) then rtt_scan seq evs
          else if rtt_accepts seq (fun o => nth (Z.to_nat o) (snd r) 0) (Z.of_nat (length (snd r)))
          then ret true
          else rtt_scan seq evs
      | _ => rtt_scan seq evs
      end
  end.

(** Draining reads the frame of every receive event. *)
Fixpoint rtt_drain (evs : list sfc7120_ev) : ST uworld unit :=
  match evs with
  | [] => ret tt
  | ev :: evs =>
      match ue_type ev with
      | SFC7120_EV_RX => do* sfc7120_rx_recv (Some 2048) (ue_rx_bytes ev); rtt_drain evs
      | _ => rtt_drain evs
      end
  end.
End rtt.

(** ** The server on kernel sockets *)

Definition kern_answer (buf : list Z) : option (list Z) :=
  if Z.of_nat (length buf) <? SPF_HDR_LEN then None
  else
    let flags := 256 * nth 8 buf 0 + nth 9 buf 0 in
    if negb (spf_wanted flags) then None
    else
      let flags := Z.land flags (u16 (Z.lnot SPF_MASK_CLIENT)) in
      Some (<[9%nat := flags mod 256]> (<[8%nat := flags / 256]> buf)).

(** [recvs] are the answers of [recvfrom], an error being None; [send_ok] is
    whether [sendto] takes all of a datagram. *)
Fixpoint kern_loop {P} (send_ok : list Z -> P -> bool) (recvs : list (option (list Z * P))) (c : counts)
    (sent : list (list Z * P)) : counts * list (list Z * P) :=
  match recvs with
  | [] => (c, sent)
  | None :: recvs => kern_loop send_ok recvs c sent
  | Some (d, peer) :: recvs =>
      let buf := take (Z.to_nat 2048) d in
      let c := c <| c_rx := count_one c_rx c |> in
      match kern_answer buf with
      | None => kern_loop send_ok recvs (c <| c_ignored := count_one c_ignored c |>) sent
      | Some b =>
          if send_ok b peer
          then kern_loop send_ok recvs (c <| c_echoed := count_one c_echoed c |>) (sent ++ [(b, peer)])
          else kern_loop send_ok recvs (c <| c_ignored := count_one c_ignored c |>) sent
      end
  end.

(** ** The F-Stack server *)

Definition RECV_BUF : Z := 2048.

(** What is sent back for a datagram in [buf]. *)
Definition fs_answer (strict : bool) (buf : list Z) : option (list Z) :=
  if strict then
    if Z.of_nat (length buf) <? 10 then None
    else
      let flags := Z.lor (Z.shiftl (nth 8 buf 0) 8) (nth 9 buf 0) in
      if (Z.land flags SPF_MASK_CLIENT =? 0) || negb (Z.land flags SPF_MASK_WARMUP_MSG =? 0)
         || (Z.land flags SPF_MASK_PONG =? 0) then None
      else
        let flags := Z.land flags (u16 (Z.lnot SPF_MASK_CLIENT)) in
        Some (<[9%nat := Z.land flags 0xff]> (<[8%nat := Z.shiftr flags 8]> buf))
  else Some buf.

(** One poll cycle on the datagrams waiting at the socket, with their senders;
    what is sent, and what still waits.  A datagram without a byte is taken
    for an empty queue. *)
Fixpoint fs_loop {P} (strict : bool) (queue : list (list Z * P)) : list (list Z * P) * list (list Z * P) :=
  match queue with
  | [] => ([], [])
  | (d, peer) :: queue =>
      let buf := take (Z.to_nat RECV_BUF) d in
      if Z.of_nat (length buf) <=? 0 then ([], queue)
      else
        let '(sent, rest) := fs_loop strict queue in
        match fs_answer strict buf with
        | Some b => ((b, peer) :: sent, rest)
        | None => (sent, rest)
        end
  end.

(** [ff_run] calls it again and again. *)
Fixpoint fs_run {P} (strict : bool) (cycles : nat) (queue : list (list Z * P)) :
    list (list Z * P) * list (list Z * P) :=
  match cycles with
  | O => ([], queue)
  | S cycles =>
      let '(sent, rest) := fs_loop strict queue in
      let '(sent', rest') := fs_run strict cycles rest in
      (sent ++ sent', rest')
  end.

(** ** The checksum *)

Lemma shiftr16 x : Z.shiftr x 16 = x / 65536.
Proof. now rewrite Z.shiftr_div_pow2. Qed.

Lemma fold_carry_step n x :
  0 <= x < 2 ^ 32 ->
  fold_carry (S n) x = if x <=? 65535 then Some x else fold_carry n (x mod 65536 + x / 65536).
Proof.
  intros Hx. cbn [fold_carry]. rewrite shiftr16, land_0xffff. unfold u32.
  rewrite (Z.mod_small (_ + _)) by zdiv.
  destruct (Z.eqb_spec (x / 65536) 0), (Z.leb_spec x 65535); try done; zdiv.
Qed.

Lemma fold_carry_stands fuel sum r :
  0 <= sum < 2 ^ 32 -> fold_carry fuel sum = Some r -> stands_for r sum /\ r <= 65535.
Proof.
  revert sum. induction fuel as [| fuel IH]; intros sum Hs; [done |]. rewrite fold_carry_step by done.
  destruct (Z.leb_spec sum 65535).
  - intros [= <-]. split; [now apply stands_refl | done].
  - intros H1. apply IH in H1 as [H1 H2]; [| zdiv].
    split; [| done]. eapply stands_trans; [exact H1 |]. unfold stands_for. zdiv.
Qed.

(** Two rounds of folding are enough for 32 bits. *)
Lemma fold_carry_total sum : 0 <= sum < 2 ^ 32 -> is_Some (fold_carry 4 sum).
Proof.
  intros Hs. rewrite fold_carry_step by done. destruct (Z.leb_spec sum 65535); [eauto |].
  rewrite fold_carry_step by zdiv. destruct (Z.leb_spec (sum mod 65536 + sum / 65536) 65535); [eauto |].
  rewrite fold_carry_step by zdiv. set (x := sum mod 65536 + sum / 65536) in *.
  assert (x <= 131070) by (unfold x; zdiv). clearbody x.
  rewrite (proj2 (Z.leb_le _ _)) by zdiv. eauto.
Qed.

Lemma sum_words_sum16 l sum :
  Forall is_byte l -> 0 <= sum -> sum + 65535 * Z.of_nat (length l) < 2 ^ 32 ->
  sum_words l sum = sum + sum16 false l /\ sum_words l sum < 2 ^ 32.
Proof.
  revert sum. induction l as [| a | a b r IH] using list2_ind; intros sum Hb Hs Hl.
  - cbn in *. lia.
  - apply Forall_cons_iff in Hb as [Ha _]. unfold is_byte in Ha. cbn in *. unfold u32. rewrite Z.mod_small; lia.
  - apply Forall_cons_iff in Hb as [Ha [Hb Hr]%Forall_cons_iff]. unfold is_byte in Ha, Hb.
    cbn [sum_words sum16 negb length] in *. unfold u32. rewrite Z.mod_small by lia.
    destruct (IH (sum + (a + 256 * b)) Hr) as [-> IH2]; [lia | lia |]. lia.
Qed.

(** [ip_cksum] is the checksum of RFC 1071. *)
Lemma ip_cksum_rfc l :
  Forall is_byte l -> Z.of_nat (length l) <= 65535 -> ip_cksum l = Some (rfc1071 l).
Proof.
  intros Hb Hl. destruct (sum_words_sum16 l 0 Hb) as [E1 E2]; [lia | lia |]. rewrite Z.add_0_l in E1.
  pose proof (sum16_nonneg false l Hb). unfold ip_cksum.
  destruct (fold_carry_total (sum_words l 0)) as [r Hr]; [lia |]. rewrite Hr. cbn [mbind option_bind].
  apply fold_carry_stands in Hr as [Hr1 Hr2]; [| lia]. rewrite E1 in Hr1. f_equal.
  rewrite <- (rfc1071_of_sum l r) by done. destruct Hr1 as [? _]. unfold u16, Z.lnot. zdiv.
Qed.

(** ** The answer to a datagram *)

(** Where byte [o] comes from when two fields are exchanged. *)
Definition swap_idx (n a b o : Z) : Z :=
  if (a <=? o) && (o <? a + n) then o + (b - a)
  else if (b <=? o) && (o <? b + n) then o - (b - a) else o.

Lemma swap_fields_at n a b mem o : a + n <= b -> swap_fields n a b mem o = mem (swap_idx n a b o).
Proof.
  intros Hab. unfold swap_fields, store_bytes, swap_idx.
  destruct (Z.leb_spec b o), (Z.ltb_spec o (b + n)), (Z.leb_spec a o), (Z.ltb_spec o (a + n)); cbn [andb];
    try lia; f_equal; lia.
Qed.

Lemma put_le16_ne o v mem o' : o' <> o -> o' <> o + 1 -> put_le16 o v mem o' = mem o'.
Proof. intros. unfold put_le16, store_bytes. now replace ((o <=? o') && (o' <? o + 2)) with false by lia. Qed.

Lemma put_be16_ne o v mem o' : o' <> o -> o' <> o + 1 -> put_be16 o v mem o' = mem o'.
Proof. intros. unfold put_be16, store_bytes. now replace ((o <=? o') && (o' <? o + 2)) with false by lia. Qed.

Lemma put_le16_eq o v mem : put_le16 o v mem o = v mod 256 /\ put_le16 o v mem (o + 1) = v / 256.
Proof.
  unfold put_le16, store_bytes. rewrite Z.sub_diag. replace (o + 1 - o) with 1 by lia.
  split; [now replace ((o <=? o) && _) with true by lia | now replace ((o <=? o + 1) && _) with true by lia].
Qed.

Lemma be16_put_be16 o v mem : be16 (put_be16 o v mem) o = v.
Proof.
  unfold be16, put_be16, store_bytes. rewrite Z.sub_diag. replace (o + 1 - o) with 1 by lia.
  replace ((o <=? o) && _) with true by lia. replace ((o <=? o + 1) && _) with true by lia.
  change (0 =? 0) with true. change (1 =? 0) with false. cbn match. pose proof (Z.div_mod v 256). lia.
Qed.

Definition bytes_ok (mem : Z -> Z) : Prop := forall o, is_byte (mem o).

Lemma swap_fields_ok n a b mem : bytes_ok mem -> bytes_ok (swap_fields n a b mem).
Proof. intros H o. unfold swap_fields, store_bytes. destruct (_ && _); [done |]. now destruct (_ && _). Qed.

Lemma put_le16_ok o v mem : 0 <= v < 65536 -> bytes_ok mem -> bytes_ok (put_le16 o v mem).
Proof.
  intros Hv H o'. unfold put_le16, store_bytes. destruct (_ && _); [| done].
  destruct (_ =? _); unfold is_byte; zdiv.
Qed.

Lemma put_be16_ok o v mem : 0 <= v < 65536 -> bytes_ok mem -> bytes_ok (put_be16 o v mem).
Proof.
  intros Hv H o'. unfold put_be16, store_bytes. destruct (_ && _); [| done].
  destruct (_ =? _); unfold is_byte; zdiv.
Qed.

Lemma load_bytes_ok mem off n : bytes_ok mem -> Forall is_byte (load_bytes mem off n).
Proof. intros H. apply Forall_forall. intros x (i & <- & _)%in_map_iff. apply H. Qed.

Lemma load_bytes_app mem off n m :
  0 <= n -> 0 <= m -> load_bytes mem off (n + m) = load_bytes mem off n ++ load_bytes mem (off + n) m.
Proof.
  intros Hn Hm. unfold load_bytes. rewrite Z2Nat.inj_add, seq_app, map_app by lia. f_equal.
  replace (seq (0 + Z.to_nat n) (Z.to_nat m)) with (map (Nat.add (Z.to_nat n)) (seq 0 (Z.to_nat m)))
    by (etransitivity; [apply fmap_add_seq | f_equal; lia]).
  rewrite map_map. apply map_ext. intros i. f_equal. lia.
Qed.

Lemma load_bytes_ext mem mem' off n :
  (forall o, off <= o < off + n -> mem' o = mem o) -> load_bytes mem' off n = load_bytes mem off n.
Proof.
  intros H. unfold load_bytes. apply map_ext_in. intros i [_ Hi]%in_seq. apply H. lia.
Qed.

Lemma rfc1071_range l : Forall is_byte l -> 0 <= rfc1071 l <= 65535.
Proof.
  intros Hl. destruct (onec_sum_stands l 0 0 Hl) as [(H & _) H2]; [now apply stands_refl | lia |].
  unfold rfc1071. lia.
Qed.

(** Storing the checksum makes the header verify. *)
Lemma put_cksum_verifies mem ip n :
  bytes_ok mem -> 12 <= n -> mem (ip + 10) = 0 -> mem (ip + 10 + 1) = 0 ->
  rfc1071 (load_bytes (put_le16 (ip + 10) (rfc1071 (load_bytes mem ip n)) mem) ip n) = 0.
Proof.
  intros Hm Hn Z0 Z1.
  assert (forall mem', load_bytes mem' ip n =
    load_bytes mem' ip 10 ++ [mem' (ip + 10); mem' (ip + 10 + 1)] ++ load_bytes mem' (ip + 12) (n - 12)) as H.
  { intros mem'. replace n with (10 + (2 + (n - 12))) at 1 by lia. rewrite !load_bytes_app by lia.
    replace (ip + 10 + 2) with (ip + 12) by lia. do 2 f_equal.
    change (load_bytes ?f ?o 2) with [f (o + 0); f (o + 1)]. now rewrite Z.add_0_r. }
  pose proof (rfc1071_range _ (load_bytes_ok mem ip n Hm)) as Hc.
  set (c := rfc1071 (load_bytes mem ip n)) in *.
  set (x := load_bytes mem ip 10). set (y := load_bytes mem (ip + 12) (n - 12)).
  assert (c = rfc1071 (x ++ [0; 0] ++ y)) as Ec by (unfold c; now rewrite H, Z0, Z1).
  clearbody c. rewrite H.
  destruct (put_le16_eq (ip + 10) c mem) as [-> ->].
  rewrite !(load_bytes_ext mem (put_le16 _ _ _)) by (intros; apply put_le16_ne; lia). fold x y.
  replace [c mod 256; c / 256] with (le_bytes 2 c) by (cbn [le_bytes]; do 2 f_equal; zdiv). rewrite Ec.
  apply rfc1071_verifies; [now apply load_bytes_ok | now apply load_bytes_ok | done].
Qed.

(** Byte [i] of the answer is byte [reflected ip_hlen i] of the request. *)
Definition reflected (ip_hlen i : Z) : Z :=
  let udp := ETH_HDR_LEN + ip_hlen in
  swap_idx 6 0 6 (swap_idx 4 26 30 (swap_idx 2 udp (udp + 2) i)).

(** The bytes that are computed: the checksums, and the flags of a strict
    server. *)
Definition computed (strict : bool) (ip_hlen i : Z) : Prop :=
  let udp := ETH_HDR_LEN + ip_hlen in
  24 <= i < 26 \/ udp + 6 <= i < udp + 8 \/
  strict = true /\ udp + UDP_HDR_LEN + 8 <= i < udp + UDP_HDR_LEN + 10.

Record answers (strict : bool) (pkt ip_hlen : Z) (mem mem' : Z -> Z) : Prop := {
  an_ok : bytes_ok mem';
  an_copied i : ~ computed strict ip_hlen i -> mem' (pkt + i) = mem (pkt + reflected ip_hlen i);
  an_ip : rfc1071 (load_bytes mem' (pkt + ETH_HDR_LEN) ip_hlen) = 0;
  an_udp : be16 mem' (pkt + ETH_HDR_LEN + ip_hlen + 6) = 0;
  an_flags : strict = true ->
    let flags := pkt + ETH_HDR_LEN + ip_hlen + UDP_HDR_LEN + 8 in
    be16 mem' flags = Z.land (be16 mem flags) 0xfffe
}.

Lemma swap_idx_shift n a b p i : swap_idx n (p + a) (p + b) (p + i) = p + swap_idx n a b i.
Proof.
  unfold swap_idx. replace (p + a <=? p + i) with (a <=? i) by lia. replace (p + b <=? p + i) with (b <=? i) by lia.
  replace (p + i <? p + a + n) with (i <? a + n) by lia. replace (p + i <? p + b + n) with (i <? b + n) by lia.
  destruct (_ && _); [lia |]. destruct (_ && _); lia.
Qed.

(** An exchange clear of a range does not move anything into it. *)
Lemma swap_idx_out n a b o lo hi :
  a + n <= b -> hi <= a \/ b + n <= lo \/ a + n <= lo /\ hi <= b ->
  lo <= swap_idx n a b o < hi -> lo <= o < hi.
Proof.
  intros Hab H. unfold swap_idx.
  destruct (Z.leb_spec a o), (Z.ltb_spec o (a + n)), (Z.leb_spec b o), (Z.ltb_spec o (b + n)); cbn [andb]; lia.
Qed.

Lemma swap_idx_id n a b o : a + n <= b -> o < a \/ a + n <= o < b \/ b + n <= o -> swap_idx n a b o = o.
Proof.
  intros. unfold swap_idx.
  destruct (Z.leb_spec a o), (Z.ltb_spec o (a + n)), (Z.leb_spec b o), (Z.ltb_spec o (b + n)); cbn [andb]; lia.
Qed.

Lemma land_0xfffe x : Z.land x 0xfffe = 2 * (x / 2 mod 32768).
Proof.
  transitivity (Z.shiftl (Z.land (Z.shiftr x 1) 0x7fff) 1).
  - apply Z.bits_inj'. intros n Hn. change 0xfffe with (Z.shiftl 0x7fff 1).
    rewrite Z.land_spec, !Z.shiftl_spec, Z.land_spec by lia.
    destruct (Z.eqb_spec n 0) as [-> | Hne]; [now rewrite !(Z.testbit_neg_r _ (0 - 1)), andb_false_r by lia |].
    rewrite Z.shiftr_spec by lia. now replace (n - 1 + 1) with n by lia.
  - rewrite land_0x7fff, Z.shiftl_mul_pow2, Z.shiftr_div_pow2 by lia. change (2 ^ 1) with 2. lia.
Qed.

(** The flags a strict server clears a bit of. *)
Definition clear_client (strict : bool) (fl : Z) (mem : Z -> Z) : Z -> Z :=
  if strict then put_be16 fl (Z.land (be16 mem fl) (u16 (Z.lnot SPF_MASK_CLIENT))) mem else mem.

Lemma clear_client_ok strict fl mem : bytes_ok mem -> bytes_ok (clear_client strict fl mem).
Proof.
  intros Hm. unfold clear_client. destruct strict; [| done]. apply put_be16_ok; [| done].
  change (u16 (Z.lnot SPF_MASK_CLIENT)) with 0xfffe. rewrite land_0xfffe. zdiv.
Qed.

Lemma clear_client_ne strict fl mem o :
  ~ (strict = true /\ fl <= o < fl + 2) -> clear_client strict fl mem o = mem o.
Proof. intros Ho. unfold clear_client. destruct strict; [| done]. apply put_be16_ne; intros ->; apply Ho; lia. Qed.

Lemma echo_rewrite_mem strict pkt ip_hlen mem :
  bytes_ok mem -> 20 <= ip_hlen <= 60 ->
  exists mem', echo_rewrite strict pkt ip_hlen mem = Some mem' /\ bytes_ok mem' /\
    (forall i, ~ 24 <= i < 26 -> ~ 14 + ip_hlen + 6 <= i < 14 + ip_hlen + 8 ->
       mem' (pkt + i) = clear_client strict (pkt + 14 + ip_hlen + 8 + 8) mem (pkt + reflected ip_hlen i)) /\
    rfc1071 (load_bytes mem' (pkt + 14) ip_hlen) = 0 /\ be16 mem' (pkt + 14 + ip_hlen + 6) = 0.
Proof.
  intros Hm Hl. unfold echo_rewrite. cbv zeta. unfold ETH_HDR_LEN, UDP_HDR_LEN.
  set (fl := pkt + 14 + ip_hlen + 8 + 8). fold (clear_client strict fl mem).
  pose proof (clear_client_ok strict fl mem Hm) as Hm1. set (m1 := clear_client strict fl mem) in *. clearbody m1.
  set (m3 := swap_fields 4 _ _ _). assert (bytes_ok m3) as Hm3 by now do 2 apply swap_fields_ok.
  assert (forall o, m3 o = m1 (swap_idx 6 (pkt + 0) (pkt + 6) (swap_idx 4 (pkt + 26) (pkt + 30) o))) as E3.
  { intros o. unfold m3. rewrite !swap_fields_at by lia. do 2 f_equal; [lia | f_equal; lia]. }
  clearbody m3. set (m4 := put_le16 (pkt + 14 + 10) 0 m3).
  assert (bytes_ok m4) as Hm4 by (apply put_le16_ok; [lia | done]).
  rewrite ip_cksum_rfc by first [now apply load_bytes_ok | rewrite length_load_bytes; lia].
  cbn [mbind option_bind]. destruct (put_le16_eq (pkt + 14 + 10) 0 m3) as [Z0 Z1].
  pose proof (put_cksum_verifies m4 (pkt + 14) ip_hlen Hm4 ltac:(lia) Z0 Z1) as Hv.
  pose proof (rfc1071_range _ (load_bytes_ok _ (pkt + 14) ip_hlen Hm4)) as Hc.
  set (c := rfc1071 (load_bytes m4 (pkt + 14) ip_hlen)) in *. clearbody c.
  assert (exists udp, udp = pkt + 14 + ip_hlen) as [udp Hudp] by eauto.
  rewrite <- Hudp. eexists. split; [reflexivity |].
  assert (forall o, ~ udp + 6 <= o < udp + 8 ->
    put_le16 (udp + 6) 0 (swap_fields 2 udp (udp + 2) (put_le16 (pkt + 14 + 10) c m4)) o =
    put_le16 (pkt + 14 + 10) c m4 (swap_idx 2 udp (udp + 2) o)) as E5.
  { intros o Ho. rewrite put_le16_ne, swap_fields_at by lia. done. }
  split_and!.
  - now repeat first [apply put_le16_ok; [lia |] | apply swap_fields_ok].
  - intros i Hi Hu. rewrite E5 by lia.
    replace (udp + 2) with (pkt + (14 + ip_hlen + 2)) by lia.
    replace udp with (pkt + (14 + ip_hlen)) by lia. rewrite swap_idx_shift.
    assert (~ 24 <= swap_idx 2 (14 + ip_hlen) (14 + ip_hlen + 2) i < 26) as N1.
    { intros ?%swap_idx_out; lia. }
    unfold m4. rewrite !put_le16_ne by lia. now rewrite E3, !swap_idx_shift.
  - etransitivity; [| exact Hv]. f_equal. apply load_bytes_ext. intros o Ho. rewrite E5 by lia.
    now rewrite swap_idx_id by lia.
  - unfold be16. now destruct (put_le16_eq (udp + 6) 0
      (swap_fields 2 udp (udp + 2) (put_le16 (pkt + 14 + 10) c m4))) as [-> ->].
Qed.

Lemma echo_rewrite_answers strict pkt ip_hlen mem :
  bytes_ok mem -> 20 <= ip_hlen <= 60 ->
  exists mem', echo_rewrite strict pkt ip_hlen mem = Some mem' /\ answers strict pkt ip_hlen mem mem'.
Proof.
  intros Hm Hl. destruct (echo_rewrite_mem strict pkt ip_hlen mem Hm Hl) as (mem' & E & Hb & Hc & Hip & Hudp).
  exists mem'. split; [done |]. split; unfold computed, ETH_HDR_LEN, UDP_HDR_LEN; [done | | done | done |].
  - intros i Hi. rewrite Hc by (intros ?; apply Hi; lia). apply clear_client_ne.
    intros [Hs Hr]. apply Hi. right. right. split; [done |]. unfold reflected, ETH_HDR_LEN in Hr.
    apply (swap_idx_out 2 (14 + ip_hlen) (14 + ip_hlen + 2)); [lia | lia |].
    apply (swap_idx_out 4 26 30); [lia | lia |]. apply (swap_idx_out 6 0 6); lia.
  - intros ->. cbv zeta. set (fl := pkt + 14 + ip_hlen + 8 + 8) in *.
    rewrite <- (be16_put_be16 fl (Z.land (be16 mem fl) 0xfffe) mem). change (put_be16 _ _ _) with (clear_client true fl mem).
    assert (forall o, fl <= o < fl + 2 -> mem' o = clear_client true fl mem o) as H.
    { intros o Ho. replace o with (pkt + (o - pkt)) by lia. rewrite Hc by lia. f_equal.
      unfold reflected, ETH_HDR_LEN. now rewrite (swap_idx_id 2), (swap_idx_id 4), (swap_idx_id 6) by lia. }
    unfold be16 at 1 2. now rewrite !H by lia.
Qed.

Lemma echo_accepts_hlen strict mem pkt len ip_hlen :
  echo_accepts strict mem pkt len = Some ip_hlen ->
  20 <= ip_hlen <= 60 /\ ETH_HDR_LEN + ip_hlen + UDP_HDR_LEN + SPF_HDR_LEN <= len /\
  echo_accepts false mem pkt len = Some ip_hlen.
Proof.
  unfold echo_accepts. cbv zeta. rewrite land_0xf. intros H.
  repeat match type of H with (if ?b then _ else _) = _ => destruct b eqn:? end; try done.
  injection H as <-. cbn [andb]. unfold IP_HDR_LEN in *. split; [zdiv |]. split; [lia | done].
Qed.

Lemma load_bytes_lookup mem off n i :
  (i < Z.to_nat n)%nat -> load_bytes mem off n !! i = Some (mem (off + Z.of_nat i)).
Proof. intros Hi. unfold load_bytes. rewrite list_lookup_fmap, lookup_seq_lt by done. done. Qed.

Lemma load_bytes_nth mem off n i : 0 <= i < n -> nth (Z.to_nat i) (load_bytes mem off n) 0 = mem (off + i).
Proof.
  intros Hi. rewrite nth_lookup, load_bytes_lookup by lia. cbn. f_equal. lia.
Qed.

Lemma be16_lor mem o : bytes_ok mem -> Z.lor (Z.shiftl (mem o) 8) (mem (o + 1)) = be16 mem o.
Proof.
  intros H. pose proof (H o) as Ha. pose proof (H (o + 1)) as Hb. unfold is_byte in *. unfold be16.
  rewrite lor_shiftl_add by lia. lia.
Qed.

(** Two bytes of a range replaced. *)
Lemma load_bytes_insert2 mem mem' off n :
  10 <= n -> (forall o, off <= o -> ~ off + 8 <= o < off + 10 -> mem' o = mem o) ->
  <[9%nat := mem' (off + 8 + 1)]> (<[8%nat := mem' (off + 8)]> (load_bytes mem off n)) = load_bytes mem' off n.
Proof.
  intros Hn H.
  assert (forall m, length (load_bytes m off n) = Z.to_nat n) as Hl.
  { intros m. apply Nat2Z.inj. rewrite length_load_bytes; lia. }
  apply list_eq. intros i. destruct (decide (i < Z.to_nat n)%nat) as [Hi | Hi].
  - rewrite (load_bytes_lookup mem') by done. destruct (decide (i = 9%nat)) as [-> | N9].
    { rewrite list_lookup_insert_eq by (rewrite length_insert, Hl; lia). f_equal. f_equal. lia. }
    rewrite list_lookup_insert_ne by done. destruct (decide (i = 8%nat)) as [-> | N8].
    { rewrite list_lookup_insert_eq by (rewrite Hl; lia). done. }
    rewrite list_lookup_insert_ne, load_bytes_lookup, H by (done || lia). done.
  - rewrite !lookup_ge_None_2; [done | |]; rewrite ?length_insert, Hl; lia.
Qed.

(** The payload of the answer is what the F-Stack server sends. *)
Lemma payload_answer strict pkt ip_hlen mem mem' n :
  bytes_ok mem -> answers strict pkt ip_hlen mem mem' -> 20 <= ip_hlen -> 10 <= n ->
  let msg := pkt + ETH_HDR_LEN + ip_hlen + UDP_HDR_LEN in
  strict = false \/ spf_wanted (be16 mem (msg + 8)) = true ->
  fs_answer strict (load_bytes mem msg n) = Some (load_bytes mem' msg n).
Proof.
  intros Hm [Hb Hc _ _ Hf] Hl Hn msg Hw. unfold computed, ETH_HDR_LEN, UDP_HDR_LEN in *. cbv zeta in *.
  assert (forall o, msg <= o -> strict = false \/ ~ msg + 8 <= o < msg + 10 -> mem' o = mem o) as Hsame.
  { intros o Ho Hs. replace o with (pkt + (o - pkt)) by lia. rewrite Hc.
    - f_equal. f_equal. unfold reflected, ETH_HDR_LEN.
      now rewrite (swap_idx_id 2), (swap_idx_id 4), (swap_idx_id 6) by lia.
    - destruct Hs as [-> | Hs]; [intros [? | [? | [? _]]]; lia || done | lia]. }
  unfold fs_answer. destruct strict.
  - destruct Hw as [Hw | Hw]; [done |]. rewrite length_load_bytes by lia.
    rewrite (proj2 (Z.ltb_ge n 10)) by lia. 
    pose proof (load_bytes_nth mem msg n 8 ltac:(lia)) as N8. pose proof (load_bytes_nth mem msg n 9 ltac:(lia)) as N9.
    change (Z.to_nat 8) with 8%nat in N8. change (Z.to_nat 9) with 9%nat in N9. rewrite N8, N9.
    replace (msg + 9) with (msg + 8 + 1) by lia. rewrite be16_lor by done.
    unfold spf_wanted in Hw. apply andb_prop in Hw as [[H1 H2]%andb_prop H3].
    apply negb_true_iff in H1, H3. rewrite H1, H2, H3. cbn [negb orb]. f_equal.
    specialize (Hf eq_refl). change (be16 mem' (msg + 8) = Z.land (be16 mem (msg + 8)) 0xfffe) in Hf.
    change (u16 (Z.lnot SPF_MASK_CLIENT)) with 0xfffe. rewrite <- Hf.
    change 0xff with (Z.ones 8). rewrite Z.land_ones, Z.shiftr_div_pow2 by lia. change (2 ^ 8) with 256.
    pose proof (Hb (msg + 8)) as B1. pose proof (Hb (msg + 8 + 1)) as B2. unfold is_byte in B1, B2.
    assert (be16 mem' (msg + 8) mod 256 = mem' (msg + 8 + 1)) as -> by (unfold be16; zdiv).
    assert (be16 mem' (msg + 8) / 256 = mem' (msg + 8)) as -> by (unfold be16; zdiv).
    apply load_bytes_insert2; [done |]. intros o Ho Ho2. apply Hsame; auto.
  - f_equal. apply load_bytes_ext. intros o Ho. symmetry. apply Hsame; [lia | now left].
Qed.

(** The strict guard is the only difference between the builds. *)
Lemma echo_accepts_strict mem pkt len ip_hlen :
  echo_accepts false mem pkt len = Some ip_hlen ->
  echo_accepts true mem pkt len =
    if spf_wanted (be16 mem (pkt + ETH_HDR_LEN + ip_hlen + UDP_HDR_LEN + 8)) then Some ip_hlen else None.
Proof.
  unfold echo_accepts. cbv zeta. intros H.
  repeat match type of H with (if ?b then _ else _) = _ => destruct b eqn:? end; try done.
  injection H as <-. cbn [andb]. now destruct (spf_wanted _).
Qed.

(** The two servers treat a datagram alike: what the one on the user
    library reflects from its slot carries the payload the F-Stack server
    sends back, and it ignores what the other leaves unanswered. *)
Theorem echo_arms_agree strict mem pkt len ip_hlen n :
  bytes_ok mem -> echo_accepts false mem pkt len = Some ip_hlen -> 10 <= n ->
  let msg := pkt + ETH_HDR_LEN + ip_hlen + UDP_HDR_LEN in
  match echo_accepts strict mem pkt len with
  | Some h => exists mem', echo_rewrite strict pkt h mem = Some mem' /\
                fs_answer strict (load_bytes mem msg n) = Some (load_bytes mem' msg n)
  | None => fs_answer strict (load_bytes mem msg n) = None
  end.
Proof.
  intros Hm Ha Hn msg. destruct (echo_accepts_hlen _ _ _ _ _ Ha) as [Hl _].
  destruct (echo_rewrite_answers strict pkt ip_hlen mem Hm Hl) as (mem' & E & Han).
  assert (strict = false \/ spf_wanted (be16 mem (msg + 8)) = true ->
    exists mem', echo_rewrite strict pkt ip_hlen mem = Some mem' /\
      fs_answer strict (load_bytes mem msg n) = Some (load_bytes mem' msg n)) as H.
  { intros Hw. exists mem'. split; [done |]. apply (payload_answer strict pkt ip_hlen); auto; lia. }
  destruct strict; [| rewrite Ha; auto]. rewrite (echo_accepts_strict _ _ _ _ Ha). fold msg.
  destruct (spf_wanted (be16 mem (msg + 8))) eqn:Hw; [auto |]. clear H.
  unfold fs_answer. rewrite length_load_bytes, (proj2 (Z.ltb_ge n 10)) by lia.
  pose proof (load_bytes_nth mem msg n 8 ltac:(lia)) as N8. pose proof (load_bytes_nth mem msg n 9 ltac:(lia)) as N9.
  change (Z.to_nat 8) with 8%nat in N8. change (Z.to_nat 9) with 9%nat in N9. rewrite N8, N9.
  replace (msg + 9) with (msg + 8 + 1) by lia. rewrite be16_lor by done. unfold spf_wanted in Hw.
  now destruct (Z.land _ SPF_MASK_CLIENT =? 0), (Z.land _ SPF_MASK_WARMUP_MSG =? 0), (Z.land _ SPF_MASK_PONG =? 0).
Qed.

(** ** The event loop *)

Section loop_proofs.
Context {cap D : Type} `{!Device D} `{!DeviceLaws D}.
Abbreviation uworld := (uworld cap D).
Implicit Types (s : uworld) (u : sfc7120_if cap) (c : counts).

(** The values written to the receive doorbell so far. *)
Definition rx_bells (w : world D) : list Z :=
  omap (fun e => if fst e =? SFC7120_REG_DATA_RX_DESC_DBL then Some (snd e) else None) (w_log w).

(** What receiving depends on. *)
Definition rx_view s : Z * bool * bool * bool * Z * sfc7120_vi_info_req * list Z :=
  let u := u_if s in
  (ui_rx_head u, ui_rx_buffer u, ui_rx_desc_ring u, has_slice SFC7120_SLICE_RX_DESC_DBL u,
   ui_rx_window u, ui_vi_info u, rx_bells (u_w s)).

Definition rx_ready s : Prop :=
  ui_rx_buffer (u_if s) = true /\ ui_rx_desc_ring (u_if s) = true /\
  has_slice SFC7120_SLICE_RX_DESC_DBL (u_if s) = true.

(** [m] leaves it alone. *)
Definition leaves {A} (m : ST uworld A) : Prop :=
  forall s a s', m s = Some (a, s') -> rx_view s' = rx_view s.

(** [m] writes no register. *)
Definition quiet {A} (m : ST (world D) A) : Prop := forall w a w', m w = Some (a, w') -> w_log w' = w_log w.

Lemma quiet_check {A} f (m : ST (world D) A) : quiet m -> quiet (do* kassert f; m).
Proof. intros Hm w a w'. unfold bind, kassert. destruct (f w); [apply Hm | done]. Qed.

Lemma quiet_sync : quiet sync_postread.
Proof. intros w a w' H. unfold sync_postread, dev_step, modify in H. destruct (dev_sync _). now injection H as _ <-. Qed.

Lemma quiet_gets {A} (f : world D -> A) : quiet (gets f).
Proof. now intros w a w' [= _ <-]. Qed.

Lemma quiet_mod_dma f : quiet (mod_dma f : ST (world D) unit).
Proof. now intros w a w' [= _ <-]. Qed.

Lemma leaves_ret {A} (a : A) : leaves (ret a).
Proof. intros s b s' [= _ <-]. done. Qed.

Lemma leaves_bind {A B} (m : ST uworld B) (k : B -> ST uworld A) :
  leaves m -> (forall b, leaves (k b)) -> leaves (bind m k).
Proof.
  intros Hm Hk s a s' H. unfold bind in H. destruct (m s) as [[b s1] |] eqn:E; [| done].
  etransitivity; [exact (Hk _ _ _ _ H) | exact (Hm _ _ _ E)].
Qed.

Lemma leaves_getu {A} (f : sfc7120_if cap -> A) : leaves (getu f).
Proof. intros s a s' [= _ <-]. done. Qed.

Lemma leaves_modu f :
  (forall u w, rx_view (UWorld (f u) w) = rx_view (UWorld u w)) -> leaves (modu f).
Proof. intros Hf [u w] a s' [= _ <-]. apply Hf. Qed.

Lemma leaves_shared {A} (m : ST (world D) A) : quiet m -> leaves (shared m).
Proof.
  intros Hq s a s' H. unfold shared in H. destruct (m (u_w s)) as [[b w] |] eqn:E; [| done]. injection H as _ <-.
  unfold rx_view, rx_bells. cbn [u_if u_w upd]. now rewrite (Hq _ _ _ E).
Qed.

Lemma leaves_kassert f : leaves (kassert f).
Proof. intros s a s' H. unfold kassert in H. destruct (f s); [| done]. now injection H as _ <-. Qed.

Lemma leaves_panic {A} : leaves (panic : ST uworld A).
Proof. now intros s a s' H. Qed.

Ltac leave :=
  repeat lazymatch goal with
  | |- leaves (ret _) => apply leaves_ret
  | |- leaves panic => apply leaves_panic
  | |- leaves (bind _ _) => apply leaves_bind; [| intros ?]
  | |- leaves (getu _) => apply leaves_getu
  | |- leaves (modu _) => apply leaves_modu; intros [] ?; reflexivity
  | |- leaves (shared _) => apply leaves_shared
  | |- quiet (ring_load _ _) => apply quiet_check
  | |- quiet (ring_store _ _ _) => apply quiet_check
  | |- quiet (rx_byte _) => apply quiet_check
  | |- quiet sync_postread => apply quiet_sync
  | |- quiet (gets _) => apply quiet_gets
  | |- quiet (mod_dma _) => apply quiet_mod_dma
  | |- leaves (kassert _) => apply leaves_kassert
  | |- leaves (if ?b then _ else _) => destruct b
  | |- leaves (match ?x with _ => _ end) => destruct x
  end.

(** A store to another register. *)
Lemma leaves_slice_store i k v sl :
  sfc7120_reg_slices !! Z.to_nat (slice_int i) = Some sl -> sl_offset sl + 4 * k <> SFC7120_REG_DATA_RX_DESC_DBL ->
  leaves (slice_store i k v).
Proof.
  intros Hs Hne. unfold slice_store. rewrite Hs. apply leaves_bind; [apply leaves_kassert |]. intros _ s a s' H.
  unfold shared, SFC7120_WRITE_REG, dev_step, bind, modify in H. cbn in H. destruct (dev_write _ _ _). injection H as _ <-.
  unfold rx_view, rx_bells. cbn [u_if u_w upd w_log]. rewrite omap_app. cbn.
  rewrite (proj2 (Z.eqb_neq _ _) Hne). now rewrite app_nil_r.
Qed.

Lemma leaves_poll evs n : leaves (sfc7120_poll evs n).
Proof.
  assert (forall n, leaves (poll_loop n)) as H by (intros m; induction m; cbn [poll_loop]; leave; done).
  unfold sfc7120_poll. leave; [apply H |]. now eapply leaves_slice_store.
Qed.

Lemma leaves_peek b n : leaves (sfc7120_rx_peek b n).
Proof. unfold sfc7120_rx_peek, slot_plen. leave. Qed.

Lemma leaves_tx_push h : leaves (tx_push h).
Proof. unfold tx_push. cbv zeta. leave; now eapply leaves_slice_store. Qed.

Lemma leaves_tx_post_paddr pa n : leaves (sfc7120_tx_post_paddr pa n).
Proof. unfold sfc7120_tx_post_paddr. leave. apply leaves_tx_push. Qed.

Lemma leaves_tx_post b n : leaves (sfc7120_tx_post b n).
Proof. unfold sfc7120_tx_post, copy_to_slot. leave. apply leaves_tx_push. Qed.

Definition steady {A} (m : ST uworld A) : Prop := forall s, u_ok s ->
  wp m (fun _ s' => u_ok s' /\ confined s s' /\ rx_view s' = rx_view s) s.

Lemma steady_intro {A} (m : ST uworld A) : safe m (fun _ => True) -> leaves m -> steady m.
Proof.
  intros Hs Hl s Hu. pose proof (Hs s Hu) as H. unfold wp in *.
  destruct (m s) as [[a s'] |] eqn:E; [| done]. destruct H as (_ & H1 & H2). split_and!; auto. exact (Hl _ _ _ E).
Qed.

Lemma steady_poll b n : steady (sfc7120_poll b n).
Proof. apply steady_intro; [apply safe_poll | apply leaves_poll]. Qed.

Lemma steady_tx_post_paddr pa n : steady (sfc7120_tx_post_paddr pa n).
Proof. apply steady_intro; [apply safe_tx_post_paddr | apply leaves_tx_post_paddr]. Qed.

Lemma steady_pad mac : steady (sfc7120_tx_post (Some (pad_frame mac)) 60).
Proof. apply steady_intro; [apply safe_tx_post; cbn; lia | apply leaves_tx_post]. Qed.

Lemma rx_ready_view s s' : rx_view s' = rx_view s -> rx_ready s -> rx_ready s'.
Proof. intros [= E1 E2 E3 E4 E5 E6 E7]. unfold rx_ready. now rewrite E2, E3, E4. Qed.

(** The frame a receive event is about, after the NIC's turn: its place in
    the receive buffer, its length and its bus address. *)
Definition peeked (n : Z) s : Z * Z * Z :=
  let head := ui_rx_head (u_if s) in
  (rx_slot head + 14, frame_len (rx_mem (w_dma (synced (u_w s)))) head n,
   u64 (vi_rx_buffer_paddr (ui_vi_info (u_if s)) + rx_slot head + 14)).

Lemma wp_peek n (Q : Z * option (Z * Z * Z) -> uworld -> Prop) s :
  u_ok s -> rx_ready s -> Q (0, Some (peeked n s)) (UWorld ((u_if s) <| ui_used_poll := true |>) (synced (u_w s))) ->
  wp (sfc7120_rx_peek true n) Q s.
Proof.
  intros [Hif _] (H1 & H2 & H3) HQ. unfold sfc7120_rx_peek. apply wp_bind, wp_getu. rewrite H1, H2, H3. cbn [negb andb orb].
  apply wp_bind, wp_modu, wp_bind, wp_getu, wp_bind, wp_slot_plen; [exact (io_rx _ Hif) |].
  apply wp_bind, wp_getu, wp_ret. exact HQ.
Qed.

(** The memory when a slot is given back, and the producer value. *)
Definition released_dma s : dma :=
  let head := ui_rx_head (u_if s) in
  upd_rx_ring (fun r => arr_set r head (rx_slot_desc (vi_rx_buffer_paddr (ui_vi_info (u_if s))) head)) (w_dma (u_w s)).

Definition next_if u : sfc7120_if cap := u <| ui_rx_head := (ui_rx_head u + 1) mod 512 |>.

Lemma wp_release (Q : Z -> uworld -> Prop) s :
  u_ok s -> rx_ready s ->
  (forall w, w_sc w = w_sc (u_w s) ->
     w_log w = w_log (u_w s) ++ [(SFC7120_REG_DATA_RX_DESC_DBL, rx_wptr (next_if (u_if s)))] -> w_wf w ->
     (w_dev w, w_dma w) = dev_write SFC7120_REG_DATA_RX_DESC_DBL (rx_wptr (next_if (u_if s)))
                            (w_dev (u_w s), released_dma s) ->
     Q 0 (UWorld (next_if (u_if s)) w)) ->
  wp sfc7120_rx_release Q s.
Proof.
  intros [Hif Hw] (_ & H2 & H3) HQ. pose proof (io_rx _ Hif) as Hr. unfold sfc7120_rx_release.
  apply wp_bind, wp_getu. rewrite H2, H3. cbn [negb andb].
  apply wp_bind, wp_getu, wp_bind, wp_getu, wp_bind, wp_shared, wp_ring_store; [done |].
  apply wp_bind, wp_modu, wp_bind. rewrite next_slot_mod by lia. unfold ring_rx_window. apply wp_bind, wp_getu.
  apply (wp_slice_store _ _ _ _ _ _ rx_slice_reg); [now apply arr_set_wf_rx |].
  assert (forall u, u32 (rx_wptr u) = rx_wptr u) as E.
  { intros u. unfold u32. apply Z.mod_small. unfold rx_wptr. pose proof (land_511_range (u32 (ui_rx_head u + ui_rx_window u))). 
    unfold SFC7120_NUM_RX_DESC. lia. }
  rewrite E. intros w W1 W2 W3 W4. apply wp_ret. now apply HQ.
Qed.

(** The state [s] gives its head slot back and becomes [s']: its descriptor is
    in the ring when the doorbell tells the NIC, once. *)
Record gives_back s s' : Prop := {
  gb_if : u_if s' = next_if (u_if s);
  gb_log : w_log (u_w s') = w_log (u_w s) ++ [(SFC7120_REG_DATA_RX_DESC_DBL, rx_wptr (next_if (u_if s)))];
  gb_dev : (w_dev (u_w s'), w_dma (u_w s')) =
             dev_write SFC7120_REG_DATA_RX_DESC_DBL (rx_wptr (next_if (u_if s))) (w_dev (u_w s), released_dma s);
}.

Lemma release_gives_back s :
  u_ok s -> rx_ready s -> wp sfc7120_rx_release (fun _ s' => gives_back s s' /\ u_ok s' /\ confined s s') s.
Proof.
  intros Hu Hr. apply wp_release; [done | done |]. intros w W1 W2 W3 W4. split_and!; [now split | |].
  - destruct Hu as [[? ? ? ?] _]. split; [| done]. split; cbn; auto. apply Z.mod_pos_bound. lia.
  - split; [done |]. eexists. split; [exact W2 |]. constructor; [reflexivity | constructor].
Qed.

(** The library transmits a frame of [len] bytes. *)
Definition sendable u (len : Z) : bool :=
  ui_tx_desc_ring u && has_slice SFC7120_SLICE_TX_DESC_DBL u && negb (bad_tx_len len).

(** The frame a receive event of [n] bytes is about is answered. *)
Definition answerable (strict : bool) (n : Z) s : bool :=
  let '(pkt, len, _) := peeked n s in
  match echo_accepts strict (rx_mem (w_dma (synced (u_w s)))) pkt len with
  | Some _ => sendable (u_if s) len
  | None => false
  end.

(** What handling one event comes to.  Anything but a receive event changes
    nothing.  A receive event counts its packet as answered exactly when it is
    answerable, as ignored otherwise; along the way nothing but slices of the
    library is written, and at the end its slot, and no other, is given back. *)
Definition served (strict : bool) (ev : sfc7120_ev) c s c' s' : Prop :=
  match ue_type ev with
  | SFC7120_EV_RX =>
      c' = (if answerable strict (ue_rx_bytes ev) s
            then Counts (u64 (c_rx c + 1)) (u64 (c_echoed c + 1)) (c_ignored c)
            else Counts (u64 (c_rx c + 1)) (c_echoed c) (u64 (c_ignored c + 1))) /\
      exists s2, confined s s2 /\ rx_view s2 = rx_view s /\ gives_back s2 s' /\ u_ok s' /\ confined s2 s'
  | _ => c' = c /\ s' = s
  end.

(** A run of the server: rounds of polling, each followed by the handling of the
    events of that poll, one by one and in order; [evs] are all of them. *)
Inductive serves (strict : bool) : list sfc7120_ev -> counts -> uworld -> counts -> uworld -> Prop :=
  | serves_nil c s : serves strict [] c s c s
  | serves_cons ev evs c s c1 s1 c2 s2 :
      served strict ev c s c1 s1 -> serves strict evs c1 s1 c2 s2 -> serves strict (ev :: evs) c s c2 s2.

Inductive echo_run (strict : bool) : nat -> list sfc7120_ev -> counts -> uworld -> counts -> uworld -> Prop :=
  | run_signalled c s : echo_run strict 0 [] c s c s
  | run_poll_failed n c s r s1 :
      sfc7120_poll true 8 s = Some (r, s1) -> fst r < 0 -> echo_run strict (S n) [] c s c s1
  | run_round n evs c s r s1 c2 s2 c3 s3 :
      sfc7120_poll true 8 s = Some (r, s1) -> 0 <= fst r -> serves strict (snd r) c s1 c2 s2 ->
      echo_run strict n evs c2 s2 c3 s3 -> echo_run strict (S n) (snd r ++ evs) c s c3 s3.

Definition rx_evs (evs : list sfc7120_ev) : Z :=
  Z.of_nat (length (List.filter (fun ev => match ue_type ev with SFC7120_EV_RX => true | _ => false end) evs)).

(** [k] packets received, each answered or ignored; [k] slots given back, with
    [k] writes of the receive doorbell. *)
Record accounted (k : Z) c s c' s' : Prop := {
  ac_ok : u_ok s';
  ac_confined : confined s s';
  ac_ready : rx_ready s';
  ac_head : ui_rx_head (u_if s') = (ui_rx_head (u_if s) + k) mod 512;
  ac_bells : exists vs, rx_bells (u_w s') = rx_bells (u_w s) ++ vs /\ Z.of_nat (length vs) = k;
  ac_rx : u64 (c_rx c') = u64 (c_rx c + k);
  ac_sum : u64 (c_echoed c' + c_ignored c') = u64 (c_echoed c + c_ignored c + k)
}.

Lemma accounted_trans k1 k2 c1 s1 c2 s2 c3 s3 :
  accounted k1 c1 s1 c2 s2 -> accounted k2 c2 s2 c3 s3 -> accounted (k1 + k2) c1 s1 c3 s3.
Proof.
  intros [A1 A2 A3 A4 (va & A7 & A8) A5 A6] [B1 B2 B3 B4 (vb & B7 & B8) B5 B6]. split; auto.
  - eapply confined_trans; eassumption.
  - rewrite B4, A4. zdiv.
  - exists (va ++ vb). split; [now rewrite B7, A7, app_assoc | rewrite length_app; lia].
  - unfold u64 in *. rewrite B5. rewrite <- Z.add_mod_idemp_l, A5, Z.add_mod_idemp_l by lia. f_equal. lia.
  - unfold u64 in *. rewrite B6. rewrite <- Z.add_mod_idemp_l, A6, Z.add_mod_idemp_l by lia. f_equal. lia.
Qed.

Lemma accounted_none c s s' :
  u_ok s' -> confined s s' -> rx_view s' = rx_view s -> rx_ready s -> accounted 0 c s c s'.
Proof.
  intros H1 H2 H3 H4. split; auto; rewrite ?Z.add_0_r; [now apply (rx_ready_view s) | | | done | done].
  - destruct H1 as [[_ Hr _ _] _]. injection H3 as E _ _ _ _ _ _. rewrite <- E. now rewrite Z.mod_small.
  - injection H3 as _ _ _ _ _ _ E. exists []. now rewrite E, app_nil_r.
Qed.

Lemma u64_succ x y : u64 (x + u64 (y + 1)) = u64 (x + y + 1).
Proof. unfold u64. rewrite Z.add_mod_idemp_r by lia. f_equal. lia. Qed.

Lemma served_accounted strict ev c s c' s' :
  u_ok s -> rx_ready s -> served strict ev c s c' s' -> accounted (rx_evs [ev]) c s c' s'.
Proof.
  intros Hu Hr. unfold served, rx_evs. cbn [List.filter].
  destruct (ue_type ev); [| now intros [-> ->]; apply accounted_none; auto using confined_refl ..].
  intros (-> & s2 & Hc & Hv & [G1 G2 G3] & Hu' & Hc'). injection Hv as V1 V2 V3 V4 V5 V6 V7.
  destruct Hr as (R1 & R2 & R3). split; [done | now apply (confined_trans s s2) | | | | |].
  - unfold rx_ready. rewrite G1. change (has_slice ?i (next_if ?u)) with (has_slice i u). cbn. now rewrite V2, V3, V4.
  - rewrite G1. cbn. now rewrite V1.
  - eexists. unfold rx_bells at 1. rewrite G2, omap_app. fold (rx_bells (u_w s2)). rewrite V7. split; [reflexivity |]. done.
  - destruct (answerable _ _ _); cbn; unfold u64; now rewrite Z.mod_mod.
  - destruct (answerable _ _ _); cbn [c_echoed c_ignored length Z.of_nat].
    + rewrite Z.add_comm, u64_succ. f_equal; lia.
    + rewrite u64_succ. f_equal; lia.
Qed.

Lemma rx_events_app l1 l2 : rx_evs (l1 ++ l2) = rx_evs l1 + rx_evs l2.
Proof. unfold rx_evs. rewrite List.filter_app, length_app. lia. Qed.

Lemma tx_post_paddr_result pa len s r s' :
  sfc7120_tx_post_paddr pa len s = Some (r, s') -> r = if sendable (u_if s) len then 0 else -1.
Proof.
  unfold sfc7120_tx_post_paddr, sendable, getu, gets. unfold bind at 1. cbn iota.
  destruct (ui_tx_desc_ring (u_if s) && _), (bad_tx_len len); cbn [negb andb orb]; try now intros [= -> _].
  unfold bind, ret. repeat case_match; intros; simplify_eq; done.
Qed.

Lemma echo_send_counts pair_tx pa len c s :
  u_ok s ->
  wp (echo_send pair_tx pa len c) (fun c' s' => u_ok s' /\ confined s s' /\ rx_view s' = rx_view s /\
    c' = if sendable (u_if s) len then c <| c_echoed := count_one c_echoed c |>
         else c <| c_ignored := count_one c_ignored c |>) s.
Proof.
  intros Hu. apply wp_bind. pose proof (steady_tx_post_paddr pa len s Hu) as Hw. unfold wp in Hw. unfold wp at 1.
  destruct (sfc7120_tx_post_paddr pa len s) as [[r s3] |] eqn:E; [| done]. apply tx_post_paddr_result in E as ->.
  destruct Hw as (Hu3 & Hc3 & Hv3). destruct (sendable _ _); cbn [Z.eqb]; [| now apply wp_ret].
  apply wp_bind. destruct pair_tx; [| now do 2 apply wp_ret].
  apply wp_bind, wp_getu, wp_bind. eapply wp_mono; [apply (steady_pad _ s3 Hu3) |].
  intros _ s4 (Hu4 & Hc4 & Hv4). do 2 apply wp_ret. split_and!; try done; [| now rewrite Hv4, Hv3].
  now apply (confined_trans s s3).
Qed.

Lemma slot_in_bounds s : u_ok s ->
  (0 <=? rx_slot (ui_rx_head (u_if s)) + 14) &&
  (rx_slot (ui_rx_head (u_if s)) + 14 + 96 <=? SFC7120_NUM_RX_DESC * SFC7120_RX_BUFFER_SIZE) = true.
Proof.
  intros [[_ Hr _ _] _]. unfold rx_slot, SFC7120_NUM_RX_DESC, SFC7120_RX_BUFFER_SIZE. lia.
Qed.

Lemma echo_event_served strict pair_tx ev c s :
  u_ok s -> rx_ready s -> wp (echo_event strict pair_tx ev c) (fun c' s' => served strict ev c s c' s') s.
Proof.
  intros Hu Hr. unfold echo_event, served. destruct (ue_type ev); [| now apply wp_ret ..].
  apply wp_bind, wp_peek; [done | done |]. cbn [snd]. unfold answerable. unfold peeked. cbv zeta.
  set (s1 := UWorld _ (synced (u_w s))).
  assert (u_ok s1) as Hu1. { destruct Hu as [[? ? ? ?] Hw]. split; [now split | now apply synced_wf]. }
  assert (confined s s1) as Hc1 by now apply confined_refl.
  apply wp_bind, wp_kassert; [now apply slot_in_bounds |]. apply wp_bind, wp_shared, wp_gets.
  set (s2 := s1 <| u_w := _ |>). change s2 with s1. clear s2. change (u_w s1) with (synced (u_w s)).
  destruct (echo_accepts _ _ _ _) as [h |] eqn:Ha.
  2:{ apply wp_bind. eapply wp_mono; [apply (release_gives_back s1 Hu1 Hr) |]. intros _ s' (G & G1 & G2). apply wp_ret.
      split; [done |]. now exists s1. }
  destruct (echo_accepts_hlen _ _ _ _ _ Ha) as [Hh _].
  destruct (echo_rewrite_answers strict (rx_slot (ui_rx_head (u_if s)) + 14) h (rx_mem (w_dma (synced (u_w s)))))
    as (mem' & E & Han); [exact (wf_rx _ (proj2 Hu1)) | done |].
  rewrite E. apply wp_bind, wp_shared, wp_mod_dma. set (s2 := s1 <| u_w := _ |>).
  assert (u_ok s2) as Hu2.
  { destruct Hu1 as [? [? ? ? ?]]. split; [done |]. split; try done. exact (an_ok _ _ _ _ _ Han). }
  apply wp_bind. eapply wp_mono; [apply (echo_send_counts _ _ _ _ s2 Hu2) |].
  intros c' s3 (Hu3 & Hc3 & Hv3 & ->). apply wp_bind.
  eapply wp_mono; [apply (release_gives_back s3 Hu3); now apply (rx_ready_view s2) |].
  intros _ s' (G & G1 & G2). apply wp_ret. split; [| exists s3; split_and!; try done].
  - change (u_if s2) with ((u_if s) <| ui_used_poll := true |>). unfold sendable, has_slice. cbn. now destruct (_ && _).
  - apply (confined_trans s s2); [now apply confined_refl | done].
Qed.

Lemma echo_events_serve strict pair_tx evs : forall c s,
  u_ok s -> rx_ready s ->
  wp (echo_events strict pair_tx evs c) (fun c' s' =>
    serves strict evs c s c' s' /\ accounted (rx_evs evs) c s c' s') s.
Proof.
  induction evs as [| ev evs IH]; intros c s Hu Hr; cbn [echo_events].
  - apply wp_ret. split; [constructor |]. apply accounted_none; auto using confined_refl.
  - apply wp_bind. eapply wp_mono; [apply (echo_event_served strict pair_tx ev c s Hu Hr) |]. intros c1 s1 H1.
    pose proof (served_accounted _ _ _ _ _ _ Hu Hr H1) as A1.
    eapply wp_mono; [apply (IH c1 s1); apply A1 |]. intros c2 s2 [H2 A2]. split; [econstructor; eassumption |].
    change (ev :: evs) with ([ev] ++ evs). rewrite rx_events_app. eapply accounted_trans; eassumption.
Qed.

(** C21. However long the server runs and whatever arrives: it never faults,
    writes only registers its slices grant and leaves the kernel's state alone.
    It handles every event each poll returns, in order ([echo_run]): a
    receive event is counted as answered exactly when its frame is one the
    server accepts and the library transmits, as ignored otherwise, and in
    either case its slot goes back, its descriptor written and the receive doorbell rung
    once; other events change nothing.  In total, for the receive events of all
    the polls there are as many packets counted, as many of them answered or
    ignored, as many slots given back and as many writes of the receive
    doorbell. *)
Theorem echo_loop_accounted strict pair_tx rounds c s :
  if_ok (u_if s) -> w_wf (u_w s) -> rx_ready s ->
  wp (echo_loop strict pair_tx rounds c) (fun c' s' => exists evs,
    echo_run strict rounds evs c s c' s' /\ accounted (rx_evs evs) c s c' s') s.
Proof.
  intros Hi Hw. assert (u_ok s) as Hu by done. clear Hi Hw. revert c s Hu.
  induction rounds as [| rounds IH]; intros c s Hu Hr; cbn [echo_loop].
  - apply wp_ret. exists []. split; [constructor |]. apply accounted_none; auto using confined_refl.
  - apply wp_bind. pose proof (steady_poll true 8 s Hu) as Hp. unfold wp in Hp. unfold wp at 1.
    destruct (sfc7120_poll true 8 s) as [[r s1] |] eqn:E; [| done]. destruct Hp as (Hu1 & Hc1 & Hv1).
    pose proof (accounted_none c s s1 Hu1 Hc1 Hv1 Hr) as H0.
    destruct (Z.ltb_spec (fst r) 0); [apply wp_ret; exists []; split; [econstructor; eassumption | exact H0] |].
    apply wp_bind. eapply wp_mono; [apply (echo_events_serve _ _ _ _ s1 Hu1 (ac_ready _ _ _ _ _ H0)) |].
    intros c2 s2 [R2 A2]. eapply wp_mono; [apply (IH c2 s2); apply A2 |]. intros c3 s3 (evs & R3 & A3).
    exists (snd r ++ evs). split; [econstructor; eassumption |]. rewrite rx_events_app.
    eapply (accounted_trans 0); [exact H0 |]. eapply accounted_trans; eassumption.
Qed.

(** Posting a frame by its bus address: the descriptor in the ring, then the
    push. *)
Definition posted_dma (pa len : Z) s (m : dma) : dma :=
  upd_tx_ring (fun r => arr_set r (ui_tx_head (u_if s)) (ef10_desc len pa)) m.

Lemma wp_tx_post_paddr pa len (Q : Z -> uworld -> Prop) s :
  u_ok s -> tx_ready s -> 0 < len <= 2048 ->
  (forall w, w_sc w = w_sc (u_w s) -> w_wf w ->
     (w_dev w, w_dma w) = push_desc (ef10_desc len pa) ((ui_tx_head (u_if s) + 1) mod 512)
                            (w_dev (u_w s), posted_dma pa len s (w_dma (u_w s))) ->
     Q 0 (UWorld ((u_if s) <| ui_used_poll := true |> <| ui_tx_head := (ui_tx_head (u_if s) + 1) mod 512 |>) w)) ->
  wp (sfc7120_tx_post_paddr pa len) Q s.
Proof.
  intros [Hif Hw] [H1 H2] Hl HQ. pose proof (io_tx _ Hif) as Ht. unfold sfc7120_tx_post_paddr.
  apply wp_bind, wp_getu. rewrite H1, H2. cbn [negb andb orb].
  replace (bad_tx_len len) with false by (unfold bad_tx_len, SFC7120_TX_BUFFER_SIZE; lia).
  apply wp_bind, wp_modu, wp_bind, wp_getu, wp_bind, wp_shared, wp_ring_store; [done |].
  set (s1 := _ <| u_w := _ |>). change (ui_tx_head (u_if _)) with (ui_tx_head (u_if s)).
  assert (arr_get (tx_ring (w_dma (u_w s1))) (ui_tx_head (u_if s)) = ef10_desc len pa) as Hd.
  { change (tx_ring (w_dma (u_w s1))) with
      (arr_set (tx_ring (w_dma (u_w s))) (ui_tx_head (u_if s)) (ef10_desc len pa)).
    apply arr_get_set_eq. rewrite (proj1 (wf_desc _ Hw)). lia. }
  apply wp_bind. eapply wp_mono.
  - apply (tx_push_spec (ui_tx_head (u_if s)) s1); [| done |].
    + now apply arr_set_wf_tx.
    + rewrite Hd. pose proof (ef10_desc_bound len pa). lia.
  - rewrite Hd. intros _ [u' w'] (Hu & Hsc & Hwf & _ & Hdev). apply wp_ret. cbn in Hu. subst u'. now apply HQ.
Qed.

(** The memory and the device after a frame was reflected: the answer in its
    slot and its descriptor are there when the push reaches the NIC; then the
    slot goes back. *)
Definition reflected_dev (pa len : Z) (mem' : Z -> Z) s : D * dma :=
  let w := synced (u_w s) in
  let u := u_if s in
  let '(d, m) := push_desc (ef10_desc len pa) ((ui_tx_head u + 1) mod 512)
                   (w_dev w, posted_dma pa len s ((w_dma w) <| rx_mem := mem' |>)) in
  dev_write SFC7120_REG_DATA_RX_DESC_DBL (rx_wptr (next_if u))
    (d, upd_rx_ring (fun r => arr_set r (ui_rx_head u)
                                (rx_slot_desc (vi_rx_buffer_paddr (ui_vi_info u)) (ui_rx_head u))) m).

(** C22. A datagram the server accepts is answered in place: when the NIC is
    told, the slot holds the frame with its addresses and ports exchanged, a
    correct IP checksum and no UDP checksum, the descriptor names exactly that
    frame, and afterwards the slot is given back; nothing else of the shared
    memory changes. *)
Theorem echo_reflects strict ev c h s :
  let '(pkt, len, pa) := peeked (ue_rx_bytes ev) s in
  let mem := rx_mem (w_dma (synced (u_w s))) in
  if_ok (u_if s) -> w_wf (u_w s) -> rx_ready s -> tx_ready s -> ue_type ev = SFC7120_EV_RX ->
  echo_accepts strict mem pkt len = Some h -> len <= 2048 ->
  exists mem', answers strict pkt h mem mem' /\
    wp (echo_event strict false ev c) (fun c' s' =>
      c' = Counts (u64 (c_rx c + 1)) (u64 (c_echoed c + 1)) (c_ignored c) /\
      w_sc (u_w s') = w_sc (u_w s) /\
      (w_dev (u_w s'), w_dma (u_w s')) = reflected_dev pa len mem' s) s.
Proof.
  unfold peeked. cbv zeta. set (pkt := rx_slot _ + 14). set (len := frame_len _ _ _). set (pa := u64 (_ + _ + 14)).
  intros Hi Hw Hr Ht Hty Ha Hl. assert (u_ok s) as Hu by done.
  destruct (echo_accepts_hlen _ _ _ _ _ Ha) as [Hh [Hlen _]]. unfold ETH_HDR_LEN, UDP_HDR_LEN, SPF_HDR_LEN in Hlen.
  destruct (echo_rewrite_answers strict pkt h (rx_mem (w_dma (synced (u_w s))))) as (mem' & E & Han);
    [exact (wf_rx _ (synced_wf _ Hw)) | done |].
  exists mem'. split; [done |]. unfold echo_event. rewrite Hty.
  apply wp_bind, wp_peek; [done | done |]. cbn [snd]. unfold peeked. cbv zeta. fold pkt len pa.
  apply wp_bind, wp_kassert; [now apply slot_in_bounds |]. apply wp_bind, wp_shared, wp_gets. cbn [u_w upd].
  rewrite Ha, E. apply wp_bind, wp_shared, wp_mod_dma. set (s2 := _ <| u_w := _ |>).
  assert (u_ok s2) as Hu2.
  { destruct Hi as [? ? ? ?], (synced_wf _ Hw) as [? ? ? ?]. split; [now split |]. split; try done.
    exact (an_ok _ _ _ _ _ Han). }
  apply wp_bind. unfold echo_send. apply wp_bind, wp_tx_post_paddr; [done | exact Ht | lia |].
  intros w3 Hsc3 Hw3 Hd3. change (0 =? 0) with true. cbn match. apply wp_bind, wp_ret, wp_ret, wp_bind.
  set (s3 := UWorld _ w3). assert (u_ok s3) as Hu3.
  { destruct Hi as [? ? ? ?]. split; [| done]. split; cbn; auto. apply Z.mod_pos_bound. lia. }
  apply wp_release; [done | exact Hr |]. intros w4 Hsc4 _ _ Hd4. apply wp_ret.
  split; [done |]. split; [etransitivity; [exact Hsc4 | exact Hsc3] |]. etransitivity; [exact Hd4 |].
  unfold reflected_dev. cbv zeta. change (w_dev (u_w s3)) with (w_dev w3). unfold released_dma. cbv zeta.
  change (w_dma (u_w s3)) with (w_dma w3).
  assert (push_desc (ef10_desc len pa) ((ui_tx_head (u_if s) + 1) mod 512)
    (w_dev (synced (u_w s)), posted_dma pa len s ((w_dma (synced (u_w s))) <| rx_mem := mem' |>)) = (w_dev w3, w_dma w3))
    as -> by (symmetry; exact Hd3).
  reflexivity.
Qed.
End loop_proofs.

(** ** Probes and their replies *)

Lemma seq_step seq k :
  0 <= seq < 2 ^ 64 -> 0 <= k ->
  Z.lor (u64 (Z.shiftl (seq / 2 ^ (k + 8)) 8)) (u8 (Z.shiftr seq k)) = seq / 2 ^ k.
Proof.
  intros Hs Hk. rewrite Z.shiftr_div_pow2 by done. unfold u8, u64.
  rewrite Z.pow_add_r, <- Z.div_div by lia. change (2 ^ 8) with 256. set (x := seq / 2 ^ k).
  assert (0 <= x < 2 ^ 64).
  { split; [apply Z.div_pos; lia |]. apply Z.div_lt_upper_bound; [lia |]. nia. }
  rewrite Z.mod_small.
  - rewrite lor_shiftl_add by (change (2 ^ 8) with 256; zdiv). change (2 ^ 8) with 256. zdiv.
  - rewrite Z.shiftl_mul_pow2 by lia. change (2 ^ 8) with 256. zdiv.
Qed.

Lemma reply_seq_bytes seq mem :
  0 <= seq < 2 ^ 64 -> (forall b, 0 <= b <= 7 -> mem (42 + b) = u8 (Z.shiftr seq (56 - 8 * b))) -> reply_seq mem = seq.
Proof.
  intros Hs H. unfold reply_seq. cbn [fold_left]. rewrite !H by lia.
  change (56 - 8 * 0) with 56. change (56 - 8 * 1) with 48. change (56 - 8 * 2) with 40. change (56 - 8 * 3) with 32.
  change (56 - 8 * 4) with 24. change (56 - 8 * 5) with 16. change (56 - 8 * 6) with 8. change (56 - 8 * 7) with 0.
  assert (0 = seq / 2 ^ (56 + 8)) as E by (rewrite Z.div_small; [done | exact Hs]).
  rewrite E at 1. rewrite seq_step by lia.
  replace 56 with (48 + 8) at 1 by lia. rewrite seq_step by lia. replace 48 with (40 + 8) at 1 by lia. rewrite seq_step by lia.
  replace 40 with (32 + 8) at 1 by lia. rewrite seq_step by lia. replace 32 with (24 + 8) at 1 by lia. rewrite seq_step by lia.
  replace 24 with (16 + 8) at 1 by lia. rewrite seq_step by lia. replace 16 with (8 + 8) at 1 by lia. rewrite seq_step by lia.
  change 8 with (0 + 8) at 1. rewrite seq_step by lia. apply Z.div_1_r.
Qed.

Lemma lxor_1_byte f : is_byte f -> is_byte (Z.lxor f 1).
Proof.
  intros Hf. assert (forallb (fun n => (0 <=? Z.lxor (Z.of_nat n) 1) && (Z.lxor (Z.of_nat n) 1 <? 256)) (seq 0 256) = true)
    as H by (vm_compute; reflexivity).
  rewrite forallb_forall in H. specialize (H (Z.to_nat f)). unfold is_byte in *. rewrite in_seq, Z2Nat.id in H by lia.
  specialize (H ltac:(lia)). lia.
Qed.

Definition frame_mem (l : list Z) (o : Z) : Z := nth (Z.to_nat o) l 0.

(** A probe is a datagram every echo server answers.  The reply of a strict
    one is what the round-trip benchmark waits for; the reply of a plain one
    still has the CLIENT bit, and the benchmark takes it for lost. *)
Theorem rtt_needs_strict_peer mac seq :
  length mac = 6%nat -> Forall is_byte mac -> 0 <= seq < 2 ^ 64 ->
  exists frame, probe_frame mac seq = Some frame /\ length frame = 64%nat /\
    forall strict, echo_accepts strict (frame_mem frame) 0 64 = Some 20 /\
      exists reply, echo_rewrite strict 0 20 (frame_mem frame) = Some reply /\
        reply_seq reply = seq /\ rtt_accepts seq reply 64 = strict.
Proof.
  intros Hlen Hb Hs. destruct mac as [| a [| b [| c [| d [| e [| f [| ? ?]]]]]]]; try done.
  repeat match goal with Q : Forall is_byte (_ :: _) |- _ => apply Forall_cons_iff in Q as [? Q] end.
  eexists. split; [reflexivity |]. split; [reflexivity |]. set (frame := _ ++ _). intros strict.
  assert (Forall is_byte frame) as Hf.
  { unfold frame, seq_bytes, probe_ip. cbn [map app insert list_insert replicate nth].
    repeat first [apply List.Forall_nil | apply List.Forall_cons]; auto using lxor_1_byte;
      first [unfold is_byte, u8; apply Z.mod_pos_bound; lia | unfold is_byte; vm_compute; split; congruence]. }
  assert (bytes_ok (frame_mem frame)) as Hm.
  { intros o. unfold frame_mem. rewrite nth_lookup. destruct (frame !! Z.to_nat o) as [x |] eqn:E; [| done].
    rewrite Forall_forall in Hf. apply Hf, list_elem_of_In. cbn. now apply list_elem_of_lookup_2 in E. }
  split; [destruct strict; reflexivity |].
  destruct (echo_rewrite_answers strict 0 20 (frame_mem frame) Hm ltac:(lia)) as (reply & E & [Hok Hc _ _ Hfl]).
  exists reply. split; [exact E |].
  assert (forall i, 42 <= i < 50 \/ strict = false /\ 50 <= i < 52 -> reply i = frame_mem frame i) as Hr.
  { intros i Hi. replace i with (0 + i) at 1 by lia. rewrite Hc.
    - unfold reflected, ETH_HDR_LEN. now rewrite (swap_idx_id 2), (swap_idx_id 4), (swap_idx_id 6) by lia.
    - unfold computed, ETH_HDR_LEN, UDP_HDR_LEN. intros [? | [? | [-> ?]]]; [lia | lia |]. destruct Hi as [? | [? _]]; [lia | done]. }
  assert (reply_seq reply = seq) as Hq.
  { apply reply_seq_bytes; [done |]. intros b0 Hb0. rewrite Hr by lia.
    assert (b0 = 0 \/ b0 = 1 \/ b0 = 2 \/ b0 = 3 \/ b0 = 4 \/ b0 = 5 \/ b0 = 6 \/ b0 = 7) as Hcase by lia.
    repeat destruct Hcase as [-> | Hcase]; [reflexivity .. | subst b0; reflexivity]. }
  split; [done |]. unfold rtt_accepts. rewrite Hq, Z.eqb_refl. change (64 <? 56) with false. cbn [negb andb].
  destruct strict.
  - specialize (Hfl eq_refl). change 51 with (50 + 1). rewrite (be16_lor reply 50) by done.
    change (be16 reply 50 = Z.land (be16 (frame_mem frame) 50) 0xfffe) in Hfl. now rewrite Hfl.
  - now rewrite !Hr by auto with lia.
Qed.

(** ** The F-Stack server *)

(** What is owed for a datagram: nothing for one without a byte. *)
Definition fs_owed {P} (strict : bool) (m : list Z * P) : option (list Z * P) :=
  match fst m with
  | [] => None
  | d => (fun b => (b, snd m)) <$> fs_answer strict (take (Z.to_nat RECV_BUF) d)
  end.

Definition fs_empty {P} (m : list Z * P) : Prop := fst m = [].
#[export] Instance fs_empty_dec {P} (m : list Z * P) : Decision (fs_empty m).
Proof. unfold fs_empty. destruct (fst m); [by left | by right]. Defined.

Lemma fs_loop_spec {P} strict (queue : list (list Z * P)) :
  exists pre, queue = pre ++ snd (fs_loop strict queue) /\ fst (fs_loop strict queue) = omap (fs_owed strict) pre /\
    (filter fs_empty queue = [] -> snd (fs_loop strict queue) = []) /\
    length (filter fs_empty (snd (fs_loop strict queue))) = pred (length (filter fs_empty queue)).
Proof.
  induction queue as [| [d p] queue (pre & E1 & E2 & E3 & E4)]; [now exists [] |].
  destruct d as [| x d].
  - exists [([], p)]. rewrite filter_cons_True by done. cbn [fs_loop]. rewrite take_nil.
    change (Z.of_nat (length []) <=? 0) with true. cbn [fst snd]. split_and!; done.
  - rewrite filter_cons_False by done. cbn [fs_loop]. replace (Z.of_nat (length (take (Z.to_nat RECV_BUF) (x :: d))) <=? 0)
      with false by (symmetry; apply Z.leb_gt; rewrite length_take; cbn [length]; unfold RECV_BUF; lia).
    exists ((x :: d, p) :: pre). destruct (fs_loop strict queue) as [sent rest]. cbn [fst snd] in *.
    cbn [omap list_omap fs_owed fst snd]. destruct (fs_answer strict _); cbn; rewrite E2; split_and!; auto; now rewrite E1 at 1.
Qed.

(** Enough poll cycles (one more than there are empty datagrams, each of which
    ends one) serve every datagram, in order and to its sender. *)
Lemma fs_run_serves {P} strict cycles : forall (queue : list (list Z * P)),
  (length (filter fs_empty queue) < cycles)%nat ->
  fs_run strict cycles queue = (omap (fs_owed strict) queue, []).
Proof.
  induction cycles as [| cycles IH]; intros queue Hc; [lia |]. cbn [fs_run].
  destruct (fs_loop_spec strict queue) as (pre & E1 & E2 & E3 & E4).
  destruct (fs_loop strict queue) as [sent rest] eqn:E. cbn [fst snd] in *.
  destruct (decide (filter fs_empty queue = [])) as [Hn | Hn].
  - rewrite (E3 Hn) in *. rewrite app_nil_r in E1. subst pre sent.
    assert (fs_run strict cycles [] = ([] : list (list Z * P), [] : list (list Z * P))) as ->
      by (clear; induction cycles as [| n IH]; cbn; [done | now rewrite IH]).
    now rewrite app_nil_r.
  - assert (length (filter fs_empty queue) <> O) by (destruct (filter fs_empty queue); [done | done]).
    rewrite IH by lia. rewrite E1, omap_app, E2. done.
Qed.

(** The server on kernel sockets answers as the strict one on F-Stack does,
    but for datagrams of 10 to 13 bytes, which it ignores. *)
Lemma kern_answer_fs buf :
  Forall is_byte buf ->
  kern_answer buf = if Z.of_nat (length buf) <? SPF_HDR_LEN then None else fs_answer true buf.
Proof.
  intros Hb. unfold kern_answer, fs_answer, SPF_HDR_LEN. destruct (Z.ltb_spec (Z.of_nat (length buf)) 14); [done |].
  rewrite (proj2 (Z.ltb_ge _ 10)) by lia.
  assert (forall i, is_byte (nth i buf 0)) as Hn.
  { intros i. rewrite nth_lookup. destruct (buf !! i) as [x |] eqn:E; [| done]. rewrite Forall_forall in Hb.
    apply Hb, list_elem_of_In. now apply list_elem_of_lookup_2 in E. }
  pose proof (Hn 8%nat) as H8. pose proof (Hn 9%nat) as H9. unfold is_byte in H8, H9.
  rewrite lor_shiftl_add by (change (2 ^ 8) with 256; lia). change (2 ^ 8) with 256.
  rewrite (Z.mul_comm (nth 8 buf 0)). set (fl := 256 * _ + _). unfold spf_wanted.
  change 0xff with (Z.ones 8). rewrite Z.land_ones, Z.shiftr_div_pow2 by lia. change (2 ^ 8) with 256.
  now destruct (Z.land fl SPF_MASK_CLIENT =? 0), (Z.land fl SPF_MASK_WARMUP_MSG =? 0), (Z.land fl SPF_MASK_PONG =? 0).
Qed.

Lemma kern_loop_accounted {P} send_ok (recvs : list (option (list Z * P))) : forall c sent,
  u64 (c_rx c) = u64 (c_echoed c + c_ignored c) ->
  let c' := fst (kern_loop send_ok recvs c sent) in u64 (c_rx c') = u64 (c_echoed c' + c_ignored c').
Proof.
  induction recvs as [| [[d p] |] recvs IH]; intros c sent Hc; [done | | now apply IH].
  assert (u64 (count_one c_rx c) = u64 (c_echoed c + c_ignored c + 1)) as E.
  { unfold count_one, u64 in *. rewrite Z.mod_mod by lia.
    rewrite <- Z.add_mod_idemp_l, Hc, Z.add_mod_idemp_l by lia. done. }
  cbn [kern_loop]. destruct (kern_answer _) as [b |]; [destruct (send_ok b p) |]; apply IH; cbn; rewrite E;
    unfold count_one; rewrite ?(Z.add_comm (u64 _)), u64_succ; apply (f_equal u64); cbn; lia.
Qed.
