(* ===== verification/EchoModel.v ===== *)
(** * The echo servers on concrete datagrams

    A probe waits in the first receive slot of the session of [UserModel]; the
    theorems of [Echo] are applied to it. *)

From stdpp Require Import list.
From S2P Require Import Prelude Uapi Desc Capio CapioModel Softc DataPath Driver Nic UserLib UserModel Cksum Echo.
Local Open Scope Z_scope.

Definition ex_mac : list Z := [2; 0; 0; 0; 0; 4].
Definition ex_frame : list Z := default [] (probe_frame ex_mac 7).

(** Slot 0: the length in the prefix, then the frame. *)
Definition ex_rx_mem (o : Z) : Z :=
  if o =? 8 then 64 else if (14 <=? o) && (o <? 14 + 64) then frame_mem ex_frame (o - 14) else 0.

Lemma ex_rx_bytes o : is_byte (ex_rx_mem o).
Proof.
  unfold ex_rx_mem, frame_mem. destruct (_ =? _); [unfold is_byte; lia |]. destruct (_ && _); [| unfold is_byte; lia].
  assert (Forall (fun x => 0 <= x < 256) ex_frame) as H.
  { apply List.Forall_forall. intros x Hx. enough (forallb (fun x => (0 <=? x) && (x <? 256)) ex_frame = true) as H
      by (rewrite forallb_forall in H; specialize (H x Hx); lia). vm_compute. reflexivity. }
  rewrite nth_lookup. destruct (ex_frame !! _) as [x |] eqn:E; [| unfold is_byte; cbn; lia].
  rewrite List.Forall_forall in H. apply (H x). apply list_elem_of_In. now apply list_elem_of_lookup_2 in E.
Qed.

Definition echo_dma : dma := dma0 <| rx_mem := ex_rx_mem |>.
Definition echo_world : world poster := World softc_zero echo_dma (0, [rx_word]) [] 0 [] [] [].
Definition echo_user : uworld mcap poster := UWorld uif echo_world.

Lemma echo_dma_wf : dma_wf echo_dma.
Proof. destruct dma0_wf. split; try done. exact ex_rx_bytes. Qed.

Definition ex_rx_event : sfc7120_ev := decode_ev rx_word.

Lemma echo_reflects_witness :
  exists mem', answers true 14 20 ex_rx_mem mem' /\
    wp (echo_event true false ex_rx_event (Counts 0 0 0)) (fun c' _ => c' = Counts 1 1 0) echo_user.
Proof.
  pose proof (echo_reflects true ex_rx_event (Counts 0 0 0) 20 echo_user) as H.
  destruct H as (mem' & H1 & H2);
    [exact uif_ok | exact echo_dma_wf | now repeat split | now split | reflexivity | vm_compute; reflexivity
     | vm_compute; congruence |].
  exists mem'. split; [exact H1 |]. eapply wp_mono; [exact H2 |]. intros c' s' [E _]. exact E.
Defined.

Lemma echo_loop_witness :
  wp (echo_loop false true 3 (Counts 0 0 0)) (fun c' s' => exists evs,
    echo_run false 3 evs (Counts 0 0 0) echo_user c' s' /\ accounted (rx_evs evs) (Counts 0 0 0) echo_user c' s')
    echo_user.
Proof.
  apply (echo_loop_accounted false true 3 (Counts 0 0 0) echo_user); [exact uif_ok | exact echo_dma_wf | now repeat split].
Defined.

(** The run itself: one packet, answered. *)
Example echo_loop_run :
  option_map fst (echo_loop false true 3 (Counts 0 0 0) echo_user) = Some (Counts 1 1 0).
Proof. vm_compute. reflexivity. Qed.

Lemma echo_arms_witness :
  fs_answer true (load_bytes ex_rx_mem 56 22) <> None.
Proof.
  pose proof (echo_arms_agree true ex_rx_mem 14 64 20 22 ex_rx_bytes) as H.
  assert (echo_accepts true ex_rx_mem 14 64 = Some 20) as E by (vm_compute; reflexivity).
  rewrite E in H. destruct H as (mem' & _ & H); [vm_compute; reflexivity | lia |].
  change (14 + ETH_HDR_LEN + 20 + UDP_HDR_LEN) with 56 in H. rewrite H. discriminate.
Defined.

Lemma rtt_witness :
  exists reply, echo_rewrite false 0 20 (frame_mem ex_frame) = Some reply /\ rtt_accepts 7 reply 64 = false.
Proof.
  destruct (rtt_needs_strict_peer ex_mac 7) as (frame & E & _ & H);
    [reflexivity | repeat constructor; unfold is_byte; lia | lia |].
  assert (frame = ex_frame) as -> by (unfold ex_frame; now rewrite E).
  destruct (H false) as (_ & reply & H1 & _ & H2). eauto.
Defined.

(** Three datagrams, one of them empty, are served in two poll cycles. *)
Example fs_run_example :
  fs_run false 2 [([1; 2], 10); ([], 11); ([3], 12)] = ([([1; 2], 10); ([3], 12)], []).
Proof. vm_compute. reflexivity. Qed.

(** The reply the benchmark waits for in slot 0, and another frame in slot 1:
    of two receive events it reads one frame and drops the other event, so the
    receive head stays one slot behind the events. *)
Definition ex_reply_mem (o : Z) : Z :=
  if o <? 2048 then default ex_rx_mem (echo_rewrite true 14 20 ex_rx_mem) o else ex_rx_mem (o - 2048).
Definition reply_user : uworld mcap poster :=
  UWorld uif (echo_world <| w_dma := dma0 <| rx_mem := ex_reply_mem |> |>).

Example rtt_scan_drops_event :
  option_map (fun r => (fst r, ui_rx_head (u_if (snd r)))) (rtt_scan 7 [ex_rx_event; ex_rx_event] reply_user)
    = Some (true, 1) /\
  option_map (fun r => ui_rx_head (u_if (snd r))) (rtt_drain [ex_rx_event; ex_rx_event] reply_user) = Some 2.
Proof. vm_compute. split; reflexivity. Qed.
