(* ===== verification/PmdOps.v ===== *)
(** * The DPDK poll-mode driver: device operations

    The operations of [fstack-capio/rte_eth_capio.c] DPDK calls between probe
    and remove: start and stop, queue setup, the device information, link and
    statistics.  The port's [rte_eth_dev_data] is a record; the queues' own
    state is that of [Pmd]. *)

From stdpp Require Import list.
From S2P Require Import Prelude Uapi Desc Capio Softc DataPath UserLib UserInit Pmd.
Local Open Scope Z_scope.

Definition CAPIO_RX_PREFIX : Z := SFC7120_EF10_RX_PREFIX_LEN.

(** [true] is STARTED, or a queue that is set up. *)
Record eth_data := EthData {
  ed_link_up : bool;
  ed_mac : list Z;
  ed_rx_state : list bool;
  ed_tx_state : list bool;
  ed_rx_queues : list bool;
  ed_tx_queues : list bool;
  ed_mb_pool : option Z;       (* pi->rxq.mb_pool *)
  ed_rxq_port : Z;             (* pi->rxq.port_id *)
  ed_port_id : Z
}.
#[export] Instance eta_eth_data : Eta eth_data := fun d =>
  EthData (ed_link_up d) (ed_mac d) (ed_rx_state d) (ed_tx_state d) (ed_rx_queues d) (ed_tx_queues d)
    (ed_mb_pool d) (ed_rxq_port d) (ed_port_id d).

Definition ENODEV : Z := 19.

Abbreviation M := (ST eth_data).

Definition eth_dev_configure : M Z := ret 0.

(** [pi_mac] is the MAC of the private data. *)
Definition eth_dev_start (pi_mac : list Z) : M Z :=
  do* modify (fun d => d <| ed_mac := pi_mac |>);
  do* modify (fun d => d <| ed_link_up := true |>);
  do* modify (fun d => d <| ed_rx_state ::= map (fun _ => true) |>);
  do* modify (fun d => d <| ed_tx_state ::= map (fun _ => true) |>);
  ret 0.

Definition eth_dev_stop : M Z :=
  do* modify (fun d => d <| ed_link_up := false |>);
  do* modify (fun d => d <| ed_rx_state ::= map (fun _ => false) |>);
  do* modify (fun d => d <| ed_tx_state ::= map (fun _ => false) |>);
  ret 0.

Definition eth_rx_queue_setup (rx_queue_id mb_pool : Z) : M Z :=
  if negb (rx_queue_id =? 0) then ret (- ENODEV)
  else
  do* modify (fun d => d <| ed_mb_pool := Some mb_pool |>);
  do* modify (fun d => d <| ed_rxq_port := ed_port_id d |>);
  do* kassert (fun d => (0 <? length (ed_rx_queues d))%nat);
  do* modify (fun d => d <| ed_rx_queues ::= insert 0%nat true |>);
  ret 0.

Definition eth_tx_queue_setup (tx_queue_id : Z) : M Z :=
  if negb (tx_queue_id =? 0) then ret (- ENODEV)
  else
  do* kassert (fun d => (0 <? length (ed_tx_queues d))%nat);
  do* modify (fun d => d <| ed_tx_queues ::= insert 0%nat true |>);
  ret 0.

Definition eth_queue_release : M unit := ret tt.

Record dev_info := DevInfo {
  di_max_mac_addrs : Z;
  di_max_rx_queues : Z;
  di_max_tx_queues : Z;
  di_min_rx_bufsize : Z;
  di_max_rx_pktlen : Z;
  di_max_mtu : Z;
  di_min_mtu : Z
}.

(** The Ethernet header, the CRC and the least MTU are values of DPDK's headers. *)
Definition eth_dev_info (RTE_ETHER_HDR_LEN RTE_ETHER_CRC_LEN RTE_ETHER_MIN_MTU : Z) : dev_info :=
  let max_rx_pktlen := SFC7120_RX_BUFFER_SIZE - CAPIO_RX_PREFIX in
  DevInfo 1 1 1 0 max_rx_pktlen (max_rx_pktlen - RTE_ETHER_HDR_LEN - RTE_ETHER_CRC_LEN) RTE_ETHER_MIN_MTU.

Definition eth_mtu_set (mtu : Z) : M Z := ret 0.

Definition eth_link_update : M Z :=
  do* modify (fun d => d <| ed_link_up := true |>);
  ret 0.

Definition eth_mac_address_set (addr : list Z) : M Z := ret 0.
Definition eth_promiscuous_enable : M Z := ret 0.

Record eth_stats := EthStats {
  st_ipackets : Z; st_ibytes : Z; st_rx_nombuf : Z;
  st_opackets : Z; st_obytes : Z; st_oerrors : Z
}.

Definition eth_stats_get {cap D P} (pi : capio_internals cap D P) : eth_stats :=
  EthStats (rq_pkts (pi_rxq pi)) (rq_bytes (pi_rxq pi)) (rq_nombuf (pi_rxq pi))
    (tq_pkts (pi_txq pi)) (tq_bytes (pi_txq pi)) (tq_dropped (pi_txq pi)).

(** ** A port in use *)

Definition all_queues (b : bool) (d : eth_data) : Prop :=
  Forall (eq b) (ed_rx_state d) /\ Forall (eq b) (ed_tx_state d).

Lemma map_const_all {A} (b : bool) (l : list A) : Forall (eq b) (map (fun _ => b) l).
Proof. induction l; constructor; auto. Qed.

Lemma eth_data_ext d d' :
  ed_link_up d = ed_link_up d' -> ed_mac d = ed_mac d' -> ed_rx_state d = ed_rx_state d' ->
  ed_tx_state d = ed_tx_state d' -> ed_rx_queues d = ed_rx_queues d' -> ed_tx_queues d = ed_tx_queues d' ->
  ed_mb_pool d = ed_mb_pool d' -> ed_rxq_port d = ed_rxq_port d' -> ed_port_id d = ed_port_id d' -> d = d'.
Proof. destruct d, d'. cbn. congruence. Qed.

(** A port that is set up, started, stopped and started again: every call
    succeeds, all queues run while it is started and none while it is stopped,
    and the setup of the queues survives. *)
Lemma port_restarts mac pool d :
  ed_rx_queues d <> [] -> ed_tx_queues d <> [] ->
  wp (do* eth_dev_configure;
      let* a := eth_rx_queue_setup 0 pool in
      let* b := eth_tx_queue_setup 0 in
      let* c := eth_dev_start mac in
      ret (a, b, c)) (fun r d1 => r = (0, 0, 0) /\ all_queues true d1 /\ ed_link_up d1 = true /\ ed_mac d1 = mac /\
    wp eth_dev_stop (fun r d2 => r = 0 /\ all_queues false d2 /\ ed_link_up d2 = false /\
      ed_rx_queues d2 !! 0%nat = Some true /\ ed_tx_queues d2 !! 0%nat = Some true /\ ed_mb_pool d2 = Some pool /\
      wp (eth_dev_start mac) (fun r d3 => r = 0 /\ d3 = d1) d2) d1) d.
Proof.
  intros Hr Ht. unfold eth_rx_queue_setup, eth_tx_queue_setup, eth_dev_start, eth_dev_stop. cbn [Z.eqb negb].
  apply wp_bind, wp_ret.
  apply wp_bind. do 2 apply wp_bind, wp_modify. apply wp_bind, wp_kassert; [cbn; now destruct (ed_rx_queues d) |].
  apply wp_bind, wp_modify, wp_ret.
  apply wp_bind, wp_bind, wp_kassert; [cbn; now destruct (ed_tx_queues d) |]. apply wp_bind, wp_modify, wp_ret.
  apply wp_bind. do 4 apply wp_bind, wp_modify. apply wp_ret, wp_ret.
  set (d1 := _ <| ed_tx_state ::= _ |>).
  assert (all_queues true d1) as H1 by (split; apply map_const_all).
  split_and!; try done. do 3 apply wp_bind, wp_modify. apply wp_ret.
  set (d2 := _ <| ed_tx_state ::= _ |>).
  assert (all_queues false d2) as H2 by (split; apply map_const_all).
  split_and!; try done; [cbn; now destruct (ed_rx_queues d) | cbn; now destruct (ed_tx_queues d) |].
  do 4 apply wp_bind, wp_modify. apply wp_ret. split; [done |].
  apply eth_data_ext; try done; cbn; now rewrite !map_map.
Qed.

(** A stopped port still reports its link as up once the link is asked for. *)
Lemma stopped_link_up d :
  wp (do* eth_dev_stop; eth_link_update) (fun r d' => r = 0 /\ ed_link_up d' = true /\ all_queues false d') d.
Proof. unfold wp. cbn. split_and!; try done. split; cbn; apply map_const_all. Qed.

(** Frames of the largest MTU that is offered fill a receive slot at most. *)
Lemma max_mtu_fits hdr_len crc_len min_mtu mtu :
  mtu <= di_max_mtu (eth_dev_info hdr_len crc_len min_mtu) ->
  CAPIO_RX_PREFIX + hdr_len + mtu + crc_len <= SFC7120_RX_BUFFER_SIZE.
Proof. unfold eth_dev_info. cbn. unfold CAPIO_RX_PREFIX, SFC7120_RX_BUFFER_SIZE. lia. Qed.

(** Resetting the statistics zeroes what the next call reports. *)
Lemma stats_reset_get {cap D P} (pi : capio_internals cap D P) :
  wp eth_stats_reset (fun r pi' => r = 0 /\ eth_stats_get pi' = EthStats 0 0 0 0 0 0 /\ pi_owned pi' = pi_owned pi) pi.
Proof. done. Qed.
