(* ===== verification/FfIf.v ===== *)
(** * F-Stack's interface to the driver

    The data path of [fstack-capio/modified-sources/lib/ff_dpdk_if.c]: packets
    of the network stack are copied into mbufs, collected in a table and sent
    in bursts; received packets are filtered, dispatched to the queues of the
    other processes, answered, or handed to the stack.

    It runs over the driver model of [Pmd]: [rte_eth_tx_burst] is
    [eth_capio_tx], mbufs come from its pool and are tracked there by the
    address of their first segment, and freeing one that is not out of the
    pool is undefined behaviour, [None].  The stack's packets, the user's
    dispatcher and the kernel interface (KNI) are parameters.  Packet capture
    and the time accounting are left out. *)

From stdpp Require Import sets.
From S2P Require Import Prelude Uapi Desc Capio Softc DataPath UserLib UserInit Pmd.
Local Open Scope Z_scope.

(** Values of F-Stack's headers, which are not part of the repository: how many
    packets a burst has, and the answers of a dispatcher that are no queue. *)
Class FStackHeaders := {
  MAX_PKT_BURST : Z;
  FF_DISPATCH_ERROR : Z;
  FF_DISPATCH_RESPONSE : Z
}.

(** ** What the stack hands over *)

Record ff_tx_offload := Offload {
  of_ip_csum : bool;
  of_tcp_csum : bool;
  of_udp_csum : bool;
  of_tso_seg_size : Z
}.

(** [ff_mbuf_copydata] and [ff_mbuf_tx_offload] of a packet [B] of the stack;
    the pseudo-header checksums; the bytes an mbuf's buffer has when it comes
    out of the pool. *)
Class StackPacket (B : Type) := {
  bsd_copydata : B -> Z -> Z -> option (list Z);
  bsd_offload : B -> ff_tx_offload;
  phdr_cksum : bool -> (Z -> Z) -> Z;
  mb_stale : Z -> Z -> Z
}.

Class StackPacketLaws (B : Type) `{!StackPacket B} := {
  bsd_bytes : B -> list Z;
  copydata_bytes b off len : 0 <= off -> 0 <= len -> off + len <= Z.of_nat (length (bsd_bytes b)) ->
    bsd_copydata b off len = Some (take (Z.to_nat len) (drop (Z.to_nat off) (bsd_bytes b)))
}.

Inductive tx_flag := TX_IP_CKSUM | TX_IPV4 | TX_IPV6 | TX_TCP_CKSUM | TX_UDP_CKSUM | TX_TCP_SEG.

(** The offload fields of a packet's first mbuf. *)
Record tx_meta := TxMeta {
  tx_flags : list tx_flag;
  tx_l2_len : Z;
  tx_l3_len : Z;
  tx_l4_len : Z;
  tx_tso_segsz : Z
}.
#[export] Instance eta_tx_meta : Eta tx_meta := fun m =>
  TxMeta (tx_flags m) (tx_l2_len m) (tx_l3_len m) (tx_l4_len m) (tx_tso_segsz m).
Definition no_offload : tx_meta := TxMeta [] 0 0 0 0.

Record hw_features := HwFeatures { tx_csum_ip : bool; tx_csum_l4 : bool }.

Record ff_traffic := Traffic {
  tr_rx_packets : Z; tr_rx_bytes : Z; tr_rx_dropped : Z;
  tr_tx_packets : Z; tr_tx_bytes : Z; tr_tx_dropped : Z
}.
#[export] Instance eta_ff_traffic : Eta ff_traffic := fun t =>
  Traffic (tr_rx_packets t) (tr_rx_bytes t) (tr_rx_dropped t) (tr_tx_packets t) (tr_tx_bytes t) (tr_tx_dropped t).

(** ** State *)

(** A received packet: the address of its first mbuf, its segments, and what
    the driver says about it. *)
Record rx_pkt := RxPkt {
  rp_addr : Z;
  rp_segs : list (list Z);
  rp_vlan : option Z;          (* the tag the driver stripped *)
  rp_csum_bad : bool
}.
#[export] Instance eta_rx_pkt : Eta rx_pkt := fun p => RxPkt (rp_addr p) (rp_segs p) (rp_vlan p) (rp_csum_bad p).

Definition rp_data (p : rx_pkt) : list Z := match rp_segs p with d :: _ => d | [] => [] end.
Definition rp_pkt_len (p : rx_pkt) : Z := Z.of_nat (length (concat (rp_segs p))).
Definition rp_nb_segs (p : rx_pkt) : Z := Z.of_nat (length (rp_segs p)).

(** [ff_table]: the first [len] entries of [tx_mbufs[port].m_table], with
    their offload fields; [ff_rings]: the dispatch rings of the port, by
    queue; [ff_bsd]: the packets the stack has handed over and not got back;
    [ff_input] and [ff_kni]: what went up to the stack and to the kernel. *)
Record ff_state (cap D P B : Type) := Ff {
  ff_pi : capio_internals cap D P;
  ff_table : list (tx_mbuf * tx_meta);
  ff_rings : list (list rx_pkt);
  ff_bsd : list B;
  ff_input : list rx_pkt;
  ff_kni : list rx_pkt;
  ff_stats : ff_traffic
}.
Arguments Ff {cap D P B}. Arguments ff_pi {cap D P B}. Arguments ff_table {cap D P B}.
Arguments ff_rings {cap D P B}. Arguments ff_bsd {cap D P B}. Arguments ff_input {cap D P B}.
Arguments ff_kni {cap D P B}. Arguments ff_stats {cap D P B}.
#[export] Instance eta_ff_state cap D P B : Eta (ff_state cap D P B) := fun s =>
  Ff (ff_pi s) (ff_table s) (ff_rings s) (ff_bsd s) (ff_input s) (ff_kni s) (ff_stats s).

Section ff.
Context {cap D P B : Type} `{!Device D} `{!Mempool P} {HdrFS : FStackHeaders} `{!StackPacket B} `{!EqDecision B}.
Abbreviation ff := (ff_state cap D P B).

Definition pmd_op {A} (m : ST (capio_internals cap D P) A) : ST ff A := fun s =>
  match m (ff_pi s) with
  | Some (a, pi) => Some (a, s <| ff_pi := pi |>)
  | None => None
  end.

Definition count (f : ff_traffic -> ff_traffic) : ST ff unit := modify (fun s => s <| ff_stats ::= f |>).
Definition tx_drop (n : Z) : ST ff unit := count (fun t => t <| tr_tx_dropped ::= fun x => u64 (x + n) |>).
Definition rx_drop (n : Z) : ST ff unit := count (fun t => t <| tr_rx_dropped ::= fun x => u64 (x + n) |>).

(** [rte_pktmbuf_alloc]; [rte_pktmbuf_free]. *)
Definition mbuf_alloc : ST ff (option Z) :=
  let* m := pmd_op (pool pool_alloc) in
  do* pmd_op (own (opt_list m));
  ret m.
Definition mbuf_free (m : Z) : ST ff unit := pmd_op (rte_pktmbuf_free m).

(** [ff_mbuf_free]: the stack gets its packet back. *)
Definition ff_mbuf_free (b : B) : ST ff unit :=
  do* kassert (fun s => bool_decide (b ∈ ff_bsd s));
  modify (fun s => s <| ff_bsd ::= drop_one b |>).

(** ** Sending *)

Definition nb_segs (m : tx_mbuf) : Z := Z.of_nat (length (tm_segs m)).

Fixpoint count_sent (l : list tx_mbuf) : ST ff unit :=
  match l with
  | [] => ret tt
  | m :: l =>
      do* count (fun t => t <| tr_tx_packets ::= fun x => u64 (x + nb_segs m) |>
                            <| tr_tx_bytes ::= fun x => u64 (x + tm_pkt_len m) |>);
      count_sent l
  end.

Fixpoint free_unsent (l : list tx_mbuf) : ST ff unit :=
  match l with
  | [] => ret tt
  | m :: l =>
      do* tx_drop (nb_segs m);
      do* mbuf_free (tm_addr m);
      free_unsent l
  end.

(** All of the table is sent; the callers reset [len]. *)
Definition send_burst : ST ff unit :=
  let* table := gets (fun s => map fst (ff_table s)) in
  let* r := pmd_op (eth_capio_tx table) in
  do* count_sent (take (Z.to_nat r) table);
  free_unsent (drop (Z.to_nat r) table).

Definition send_single_packet (m : tx_mbuf) (meta : tx_meta) : ST ff Z :=
  do* modify (fun s => s <| ff_table ::= fun l => l ++ [(m, meta)] |>);
  let* len := gets (fun s => Z.of_nat (length (ff_table s))) in
  do* (if len =? MAX_PKT_BURST then
         do* send_burst;
         modify (fun s => s <| ff_table := [] |>)
       else ret tt);
  ret 0.

(** The part of [main_loop] that drains the table. *)
Definition tx_drain : ST ff unit :=
  let* len := gets (fun s => length (ff_table s)) in
  match len with
  | O => ret tt
  | S _ =>
      do* send_burst;
      modify (fun s => s <| ff_table := [] |>)
  end.

(** A new mbuf becomes part of the chain it is linked to. *)
Definition link_mbuf (m : Z) : ST ff unit :=
  pmd_op (modify (fun pi => pi <| pi_owned ::= drop_one m |>)).

(** The loop that fills a chain from [src], beginning with the mbuf [first];
    the segments so far are [segs], and [head] is freed when it fails. *)
Fixpoint copy_loop (src : Z -> Z -> option (list Z)) (fuel : nat) (head : Z) (first : option Z)
    (segs : list (Z * (Z -> Z))) (off total : Z) : ST ff (option (list (Z * (Z -> Z)))) :=
  if total <=? 0 then ret (Some segs)
  else
  match fuel with
  | O => panic
  | S fuel =>
      let* cur := match first with Some c => ret (Some c) | None => mbuf_alloc end in
      match cur with
      | None =>
          do* tx_drop (Z.of_nat (length segs) + 1);
          do* mbuf_free head;
          ret None
      | Some c =>
          do* match first with Some _ => ret tt | None => link_mbuf c end;
          let room := mb_room c in
          let len := if room <? total then room else total in
          match src off len with
          | None =>
              do* tx_drop (Z.of_nat (length segs) + 1);
              do* mbuf_free head;
              ret None
          | Some bytes =>
              let data i := if i <? len then nth (Z.to_nat i) bytes 0 else mb_stale c i in
              copy_loop src fuel head None (segs ++ [(len, data)]) (off + len) (total - len)
          end
      end
  end.

(** The offload fields, and the first mbuf's bytes with the checksum TCP
    segmentation wants. *)
Definition tso_fields (csum_ip : bool) (segsz : Z) (data : Z -> Z) (meta : tx_meta) : tx_meta * (Z -> Z) :=
  let iph_len := Z.shiftl (Z.land (data 14) 0x0f) 2 in
  let v4 := Z.shiftr (data 14) 4 =? 4 in
  let l3 := if v4 then iph_len else 40 in
  let tcp := 14 + l3 in
  let l4 := Z.shiftr (Z.land (data (tcp + 12)) 0xf0) 2 in
  let c := phdr_cksum (negb v4) (fun i => data (14 + i)) in
  let flags := (if v4 then TX_IPV4 :: (if csum_ip then [TX_IP_CKSUM] else []) else [TX_IPV6]) ++ [TX_TCP_SEG] in
  (TxMeta (tx_flags meta ++ flags) 14 l3 l4 segsz,
   store_bytes (tcp + 16) 2 (fun i => if i =? 0 then c mod 256 else c / 256) data).

Definition tx_offload (hw : hw_features) (o : ff_tx_offload) (data : Z -> Z) : tx_meta * (Z -> Z) :=
  let iph_len := Z.shiftl (Z.land (data 14) 0x0f) 2 in
  let v4 := Z.shiftr (data 14) 4 =? 4 in
  let meta := no_offload in
  let meta := if tx_csum_ip hw && of_ip_csum o
              then meta <| tx_flags ::= fun l => l ++ [TX_IP_CKSUM; TX_IPV4] |> <| tx_l2_len := 14 |>
                        <| tx_l3_len := iph_len |>
              else meta in
  if tx_csum_l4 hw then
    let meta := meta <| tx_flags ::= fun l => l ++ [if v4 then TX_IPV4 else TX_IPV6] |> in
    let meta := if of_tcp_csum o
                then meta <| tx_flags ::= fun l => l ++ [TX_TCP_CKSUM] |> <| tx_l2_len := 14 |> <| tx_l3_len := iph_len |>
                else meta in
    let '(meta, data) := if negb (of_tso_seg_size o =? 0)
                         then tso_fields (tx_csum_ip hw) (of_tso_seg_size o) data meta else (meta, data) in
    let meta := if of_udp_csum o
                then meta <| tx_flags ::= fun l => l ++ [TX_UDP_CKSUM] |> <| tx_l2_len := 14 |> <| tx_l3_len := iph_len |>
                else meta in
    (meta, data)
  else (meta, data).

Definition head_data (segs : list (Z * (Z -> Z))) : Z -> Z :=
  match segs with (_, d) :: _ => d | [] => fun _ => 0 end.
Definition set_head_data (segs : list (Z * (Z -> Z))) (d : Z -> Z) : list (Z * (Z -> Z)) :=
  match segs with (n, _) :: l => (n, d) :: l | [] => [] end.

(** [ctx] is None for a null context; [m] is None for a null packet. *)
Definition ff_dpdk_if_send (ctx : option hw_features) (m : option B) (total : Z) : ST ff Z :=
  match ctx, m with
  | None, _ =>
      do* tx_drop 1;
      do* match m with Some b => ff_mbuf_free b | None => ret tt end;
      ret (-1)
  | Some _, None => panic
  | Some hw, Some b =>
      let* head := mbuf_alloc in
      match head with
      | None =>
          do* tx_drop 1;
          do* ff_mbuf_free b;
          ret (-1)
      | Some head =>
          let* segs := copy_loop (bsd_copydata b) (Z.to_nat total) head (Some head) [] 0 total in
          match segs with
          | None =>
              do* ff_mbuf_free b;
              ret (-1)
          | Some segs =>
              let '(meta, data) := tx_offload hw (bsd_offload b) (head_data segs) in
              do* ff_mbuf_free b;
              send_single_packet (TxMbuf head (mb_iova head) total (set_head_data segs data)) meta
          end
      end
  end.

(** [data] is a capability for the bytes of a frame. *)
Definition ff_dpdk_raw_packet_send (data : list Z) (total : Z) : ST ff Z :=
  let* head := mbuf_alloc in
  match head with
  | None =>
      do* tx_drop 1;
      ret (-1)
  | Some head =>
      do* kassert (fun _ => total <=? Z.of_nat (length data));
      let* segs := copy_loop (fun off len => Some (take (Z.to_nat len) (drop (Z.to_nat off) data)))
                     (Z.to_nat total) head (Some head) [] 0 total in
      match segs with
      | None => ret (-1)
      | Some segs => send_single_packet (TxMbuf head (mb_iova head) total segs) no_offload
      end
  end.
End ff.

(** ** Receiving *)

Inductive filter_return := FILTER_UNKNOWN | FILTER_ARP | FILTER_KNI | FILTER_NDP | FILTER_MULTI | FILTER_RATED (n : nat).

Inductive knictl_action := FF_KNICTL_ACTION_DEFAULT | FF_KNICTL_ACTION_ALL_TO_KNI | FF_KNICTL_ACTION_ALL_TO_FF
  | FF_KNICTL_ACTION_OTHER.

(** What the receive path asks of others: how many mbufs the pool has, the
    size of a dispatch ring, whether a packet has headroom for a VLAN tag, the
    filter of the kernel interface, which filter results it rates separately,
    whether the stack gets a header for a packet's first and for a further
    segment, and whether giving a header back also frees its mbufs. *)
Class RxEnv (P : Type) := {
  pool_avail : P -> Z;
  ring_room : Z;
  prepend_ok : rx_pkt -> bool;
  kni_proto_filter : (Z -> Z) -> Z -> Z -> filter_return;
  filter_rated : filter_return -> bool;
  stack_gethdr : rx_pkt -> bool;
  stack_get : rx_pkt -> nat -> bool;
  hdr_owns_mbufs : bool
}.

(** [rx_dispatcher]: the user's function; its answer, the length it sets and
    what it leaves in the buffer of the first segment. *)
Record rx_cfg := RxCfg {
  rx_queue_id : Z;
  rx_nb_queues : Z;
  rx_low_watermark : Z;
  rx_csum : bool;
  rx_dispatcher : option (rx_pkt -> Z * Z * (Z -> Z));
  rx_kni : bool;
  rx_kni_owner : bool;
  rx_kni_action : knictl_action;
  rx_kni_accept : bool
}.

(** [rte_be_to_cpu_16]. *)
Definition rx_be16 (d : Z -> Z) (o : Z) : Z := 256 * d o + d (o + 1).

Definition is_tcp_syn (data : Z -> Z) (len : Z) : bool :=
  if len <? 14 then false
  else
  let ether_type := rx_be16 data 12 in
  let off := 14 in
  let len := len - 14 in
  let short := (ether_type =? 0x8100) && (len <? 4) in
  let '(ether_type, off, len) :=
    if ether_type =? 0x8100 then (rx_be16 data (off + 2), off + 4, len - 4) else (ether_type, off, len) in
  if short then false
  else
  let syn o := Z.land (data (o + 13)) 0x12 =? 0x02 in
  if ether_type =? 0x0800 then
    if len <? 20 then false
    else if negb (data (off + 9) =? 6) then false
    else
      let ihl := Z.shiftl (Z.land (data off) 0x0f) 2 in
      if (ihl <? 20) || (len <? ihl + 20) then false else syn (off + ihl)
  else if ether_type =? 0x86dd then
    if len <? 40 + 20 then false
    else if negb (data (off + 6) =? 6) then false
    else syn (off + 40)
  else false.

Section ff_rx.
Context {cap D P B : Type} `{!Device D} `{!Mempool P} {HdrFS : FStackHeaders} `{!StackPacket B} `{!EqDecision B} `{!RxEnv P}.
Abbreviation ff := (ff_state cap D P B).

(** The buffer of the first segment: past its bytes it has what was there. *)
Definition rp_at (p : rx_pkt) (i : Z) : Z :=
  if i <? Z.of_nat (length (rp_data p)) then nth (Z.to_nat i) (rp_data p) 0 else mb_stale (rp_addr p) i.

(** [len] is 16 bits wide, and may be less than the header it takes off. *)
Definition protocol_filter (kni : bool) (data : Z -> Z) (len : Z) : filter_return :=
  if len <? 6 then FILTER_UNKNOWN
  else
  let ether_type := rx_be16 data 12 in
  let '(ether_type, off, len) :=
    if ether_type =? 0x8100 then (rx_be16 data 16, 18, u16 (u16 (len - 14) - 4)) else (ether_type, 14, u16 (len - 14)) in
  if ether_type =? 0x0806 then FILTER_ARP
  else if negb (Z.land (data 0) 1 =? 0) then FILTER_MULTI
  else if ether_type =? 0x86dd then kni_proto_filter (fun i => data (off + i)) len ether_type
  else if negb kni then FILTER_UNKNOWN
  else if negb (ether_type =? 0x0800) then FILTER_UNKNOWN
  else kni_proto_filter (fun i => data (off + i)) len ether_type.

(** The segments after the first; the copy [mc] is freed when one fails. *)
Fixpoint clone_segs (mc : Z) (segs : list (list Z)) : ST ff bool :=
  match segs with
  | [] => ret true
  | d :: segs =>
      let* c := mbuf_alloc in
      match c with
      | None => do* mbuf_free mc; ret false
      | Some c =>
          do* kassert (fun _ => Z.of_nat (length d) <=? mb_room c);
          do* link_mbuf c;
          clone_segs mc segs
      end
  end.

Definition pktmbuf_deep_clone (p : rx_pkt) : ST ff (option rx_pkt) :=
  let* mc := mbuf_alloc in
  match mc with
  | None => ret None
  | Some mc =>
      do* kassert (fun _ => Z.of_nat (length (rp_data p)) <=? mb_room mc);
      let* ok := clone_segs mc (tail (rp_segs p)) in
      ret (if ok : bool then Some (p <| rp_addr := mc |>) else None)
  end.

(** The tag the driver stripped goes back between the addresses and the type. *)
Definition ff_add_vlan_tag (p : rx_pkt) : rx_pkt :=
  match rp_vlan p, rp_segs p with
  | Some tci, d :: segs =>
      if prepend_ok p then
        let b := map (fun i => rp_at p (Z.of_nat i)) (seq 0 (Nat.max 14 (length d))) in
        p <| rp_segs := (take (4 + length d) (take 12 b ++ [0x81; 0x00; tci / 256; tci mod 256] ++ drop 12 b)) :: segs |>
      else p
  | _, _ => p
  end.

Definition stack_input (p : rx_pkt) : ST ff unit := modify (fun s => s <| ff_input ::= fun l => l ++ [p] |>).
Definition ff_kni_enqueue (p : rx_pkt) : ST ff unit := modify (fun s => s <| ff_kni ::= fun l => l ++ [p] |>).

(** The first segment for which the stack has no header. *)
Definition ff_veth_input (csum : bool) (p : rx_pkt) : ST ff unit :=
  if csum && rp_csum_bad p then mbuf_free (rp_addr p)
  else if negb (stack_gethdr p) then mbuf_free (rp_addr p)
  else if forallb (stack_get p) (seq 1 (length (tail (rp_segs p)))) then stack_input p
  else
    do* (if hdr_owns_mbufs then mbuf_free (rp_addr p) else ret tt);
    mbuf_free (rp_addr p).

Definition ring_enqueue (j : Z) (p : rx_pkt) : ST ff bool :=
  do* kassert (fun s => (0 <=? j) && (j <? Z.of_nat (length (ff_rings s))));
  let* q := gets (fun s => nth (Z.to_nat j) (ff_rings s) []) in
  if Z.of_nat (length q) <? ring_room
  then do* modify (fun s => s <| ff_rings ::= insert (Z.to_nat j) (q ++ [p]) |>); ret true
  else ret false.

(** Enqueue, or count and free. *)
Definition dispatch (j : Z) (p : rx_pkt) : ST ff unit :=
  let* ok := ring_enqueue j p in
  if ok : bool then ret tt
  else do* rx_drop (rp_nb_segs p); mbuf_free (rp_addr p).

(** A copy for every other queue. *)
Fixpoint clone_to_queues (queue_id : Z) (js : list Z) (p : rx_pkt) : ST ff unit :=
  match js with
  | [] => ret tt
  | j :: js =>
      do* (if j =? queue_id then ret tt
           else let* c := pktmbuf_deep_clone p in
                match c with Some c => dispatch j c | None => ret tt end);
      clone_to_queues queue_id js p
  end.

(** What happens to a packet of this queue; [data] and [len] are what the
    filter is given. *)
Definition deliver (cfg : rx_cfg) (from_ring : bool) (p : rx_pkt) (data : Z -> Z) (len : Z) : ST ff unit :=
  let filter := protocol_filter (rx_kni cfg) data len in
  let to_kni := ff_kni_enqueue (ff_add_vlan_tag p) in
  let up := ff_veth_input (rx_csum cfg) p in
  if match filter with FILTER_ARP | FILTER_NDP => true | _ => false end then
    do* (if from_ring then ret tt
         else clone_to_queues (rx_queue_id cfg) (map Z.of_nat (seq 0 (Z.to_nat (rx_nb_queues cfg)))) p);
    do* (if rx_kni cfg && rx_kni_owner cfg then
           let* c := pktmbuf_deep_clone p in
           match c with Some c => ff_kni_enqueue (ff_add_vlan_tag c) | None => ret tt end
         else ret tt);
    up
  else if rx_kni cfg then
    match rx_kni_action cfg with
    | FF_KNICTL_ACTION_ALL_TO_KNI => to_kni
    | FF_KNICTL_ACTION_ALL_TO_FF => up
    | FF_KNICTL_ACTION_DEFAULT =>
        let is_kni := match filter with FILTER_KNI => true | _ => false end in
        let unknown := match filter with FILTER_UNKNOWN => true | _ => filter_rated filter end in
        if (is_kni && rx_kni_accept cfg) || (unknown && negb (rx_kni_accept cfg)) then to_kni else up
    | FF_KNICTL_ACTION_OTHER => up
    end
  else up.

(** The first segment after the dispatcher has written to it. *)
Definition set_data (p : rx_pkt) (n : Z) (buf : Z -> Z) : rx_pkt :=
  p <| rp_segs ::= fun segs => match segs with _ :: l => load_bytes buf 0 n :: l | [] => [] end |>.

(** The response of a dispatcher goes out with the length it set. *)
Definition respond (p : rx_pkt) (len : Z) (buf : Z -> Z) : ST ff unit :=
  let p := ff_add_vlan_tag (set_data p len buf) in
  let segs := map (fun d => (Z.of_nat (length d), fun i => nth (Z.to_nat i) d 0)) (rp_segs p) in
  do* send_single_packet (TxMbuf (rp_addr p) (mb_iova (rp_addr p)) (Z.of_nat (length (rp_data p))) segs) no_offload;
  ret tt.

Definition process_packet (cfg : rx_cfg) (from_ring : bool) (p : rx_pkt) : ST ff unit :=
  let len := Z.of_nat (length (rp_data p)) in
  let* avail := gets (fun s => pool_avail (pi_pool (ff_pi s))) in
  if negb from_ring && (0 <? rx_low_watermark cfg) && (avail <? rx_low_watermark cfg) && is_tcp_syn (rp_at p) len then
    do* rx_drop (rp_nb_segs p);
    mbuf_free (rp_addr p)
  else
  do* (if from_ring then ret tt
       else count (fun t => t <| tr_rx_packets ::= fun x => u64 (x + rp_nb_segs p) |>
                              <| tr_rx_bytes ::= fun x => u64 (x + rp_pkt_len p) |>));
  match (if from_ring then None else rx_dispatcher cfg) with
  | None => deliver cfg from_ring p (rp_at p) len
  | Some f =>
      let '(r, len', buf) := f p in
      if r =? FF_DISPATCH_RESPONSE then respond p (u16 len') buf
      else if (r =? FF_DISPATCH_ERROR) || (rx_nb_queues cfg <=? r) then mbuf_free (rp_addr p)
      else if negb (r =? rx_queue_id cfg) then dispatch r (set_data p len buf)
      else deliver cfg from_ring (set_data p len buf) buf (u16 len')
  end.

Fixpoint process_packets (cfg : rx_cfg) (from_ring : bool) (bufs : list rx_pkt) : ST ff unit :=
  match bufs with
  | [] => ret tt
  | p :: bufs => do* process_packet cfg from_ring p; process_packets cfg from_ring bufs
  end.

Definition process_dispatch_ring (cfg : rx_cfg) : ST ff Z :=
  let j := Z.to_nat (rx_queue_id cfg) in
  let* q := gets (fun s => nth j (ff_rings s) []) in
  let burst := take (Z.to_nat MAX_PKT_BURST) q in
  do* modify (fun s => s <| ff_rings ::= insert j (drop (Z.to_nat MAX_PKT_BURST) q) |>);
  do* process_packets cfg true burst;
  ret (Z.of_nat (length burst)).
End ff_rx.

(** ** Sending: proofs *)

Section send_proofs.
Context {cap D P B : Type} `{!Device D} `{!DeviceLaws D} `{!Mempool P} `{!MempoolLaws P}.
Context {HdrFS : FStackHeaders} `{!StackPacket B} `{!StackPacketLaws B} `{!EqDecision B}.
Abbreviation ff := (ff_state cap D P B).
Implicit Types (s : ff) (segs : list (Z * (Z -> Z))).

Definition owned s : list Z := pi_owned (ff_pi s).

Lemma wp_pmd_op {A} (m : ST (capio_internals cap D P) A) (Q : A -> ff -> Prop) s :
  wp m (fun a pi => Q a (s <| ff_pi := pi |>)) (ff_pi s) -> wp (pmd_op m) Q s.
Proof. unfold wp, pmd_op. now destruct (m (ff_pi s)) as [[a pi] |]. Qed.

(** Only the pool, the mbufs out of it and the counters have changed. *)
Definition pooled s (o : list Z) (s' : ff) : Prop :=
  exists p t, s' = s <| ff_pi := (ff_pi s) <| pi_pool := p |> <| pi_owned := o |> |> <| ff_stats := t |>.

Lemma pooled_refl s : pooled s (owned s) s.
Proof. exists (pi_pool (ff_pi s)), (ff_stats s). destruct s as [[] ? ? ? ? ? ?]. reflexivity. Qed.

Lemma pooled_trans s o s1 o1 s2 : pooled s o s1 -> pooled s1 o1 s2 -> pooled s o1 s2.
Proof. intros (p & t & ->) (p1 & t1 & ->). exists p1, t1. destruct s as [[] ? ? ? ? ? ?]. reflexivity. Qed.

Lemma pooled_owned s o s' : pooled s o s' -> owned s' = o.
Proof. now intros (p & t & ->). Qed.

Lemma wp_mbuf_alloc (Q : option Z -> ff -> Prop) s :
  (forall m s', pooled s (opt_list m ++ owned s) s' -> Q m s') -> wp mbuf_alloc Q s.
Proof.
  intros HQ. apply wp_bind, wp_pmd_op, wp_pool, wp_bind, wp_pmd_op, wp_modify, wp_ret. apply HQ.
  exists (snd (pool_alloc (pi_pool (ff_pi s)))), (ff_stats s). destruct s as [[] ? ? ? ? ? ?]. reflexivity.
Qed.

Lemma wp_tx_drop n (Q : unit -> ff -> Prop) s :
  (forall s', pooled s (owned s) s' -> Q tt s') -> wp (tx_drop n) Q s.
Proof.
  intros HQ. apply wp_modify, HQ.
  exists (pi_pool (ff_pi s)), ((ff_stats s) <| tr_tx_dropped ::= fun x => u64 (x + n) |>).
  destruct s as [[] ? ? ? ? ? ?]. reflexivity.
Qed.

Lemma wp_ff_free m l (Q : unit -> ff -> Prop) s :
  owned s ≡ₚ m :: l -> (forall o s', o ≡ₚ l -> pooled s o s' -> Q tt s') -> wp (mbuf_free m) Q s.
Proof.
  intros Ho HQ. apply wp_pmd_op. eapply wp_mbuf_free; [exact Ho |]. intros o Hp. apply (HQ o); [done |].
  exists (pi_pool (ff_pi s)), (ff_stats s). destruct s as [[] ? ? ? ? ? ?]. reflexivity.
Qed.

Lemma wp_link m l (Q : unit -> ff -> Prop) s :
  owned s ≡ₚ m :: l -> (forall o s', o ≡ₚ l -> pooled s o s' -> Q tt s') -> wp (link_mbuf m) Q s.
Proof.
  intros [Hin Hl]%perm_take HQ. apply wp_pmd_op, wp_modify. apply (HQ (drop_one m (owned s))); [exact Hl |].
  exists (pi_pool (ff_pi s)), (ff_stats s). destruct s as [[] ? ? ? ? ? ?]. reflexivity.
Qed.

(** The bytes of a chain. *)
Definition seg_bytes segs : list Z := concat (map (fun g => load_bytes (snd g) 0 (fst g)) segs).

Lemma seg_bytes_app segs segs' : seg_bytes (segs ++ segs') = seg_bytes segs ++ seg_bytes segs'.
Proof. unfold seg_bytes. now rewrite map_app, concat_app. Qed.

Lemma seg_bytes_one len bytes stale :
  length bytes = Z.to_nat len ->
  seg_bytes [(len, fun i => if i <? len then nth (Z.to_nat i) bytes 0 else stale i)] = bytes.
Proof.
  intros Hl. unfold seg_bytes. cbn [map concat fst snd]. rewrite app_nil_r. unfold load_bytes.
  apply list_eq. intros i. rewrite list_lookup_fmap. destruct (decide (i < Z.to_nat len)%nat) as [Hi | Hi].
  - rewrite lookup_seq_lt by done. cbn [fmap option_fmap option_map]. rewrite (proj2 (Z.ltb_lt _ len)) by lia.
    rewrite nth_lookup. replace (Z.to_nat _) with i by lia.
    destruct (bytes !! i) eqn:E; [done |]. apply lookup_ge_None in E. lia.
  - rewrite lookup_ge_None_2 by (rewrite length_seq; lia). symmetry. apply lookup_ge_None_2. lia.
Qed.

Definition copies (src : Z -> Z -> option (list Z)) (bytes : list Z) : Prop :=
  forall off len, 0 <= off -> 0 <= len -> off + len <= Z.of_nat (length bytes) ->
    src off len = Some (take (Z.to_nat len) (drop (Z.to_nat off) bytes)).

Definition fits (g : Z * (Z -> Z)) : Prop := 0 < fst g < 2 ^ 16.

(** Copying ends with the bytes in a chain, or gives the chain back. *)
Lemma copy_loop_spec src bytes l head : copies src bytes -> forall fuel first segs off total s,
  owned s ≡ₚ head :: l -> 0 <= off -> 0 <= total <= Z.of_nat fuel -> off + total <= Z.of_nat (length bytes) ->
  Forall fits segs ->
  wp (copy_loop src fuel head first segs off total) (fun r s' => exists o, pooled s o s' /\
    match r with
    | None => o ≡ₚ l
    | Some segs' => o ≡ₚ head :: l /\ Forall fits segs' /\
        seg_bytes segs' = seg_bytes segs ++ take (Z.to_nat total) (drop (Z.to_nat off) bytes) /\
        (total <= 2048 -> length segs' = (length segs + if (total =? 0)%Z then 0 else 1)%nat)
    end) s.
Proof.
  intros Hsrc. induction fuel as [| fuel IH]; intros first segs off total s Ho Hoff Htot Hlen HF; cbn [copy_loop].
  { replace (total <=? 0) with true by lia. apply wp_ret. exists (owned s). split; [apply pooled_refl |].
    replace (Z.to_nat total) with O by lia. rewrite take_0, app_nil_r. replace (total =? 0) with true by lia.
    split_and!; auto. }
  destruct (Z.leb_spec total 0) as [H0 | H0].
  { apply wp_ret. exists (owned s). split; [apply pooled_refl |].
    replace (Z.to_nat total) with O by lia. rewrite take_0, app_nil_r. replace (total =? 0) with true by lia.
    split_and!; auto. }
  apply wp_bind.
  set (Q := fun cur s1 => match cur with None => owned s1 ≡ₚ head :: l | Some c =>
    wp (match first with Some _ => ret tt | None => link_mbuf c end) (fun _ s2 => owned s2 ≡ₚ head :: l /\
      exists o, pooled s o s2) s1 end /\ exists o, pooled s o s1).
  apply (wp_mono _ Q).
  { destruct first as [c |].
    - apply wp_ret. split; [apply wp_ret |]; eauto using pooled_refl.
    - apply wp_mbuf_alloc. intros m s1 Hp. pose proof (pooled_owned _ _ _ Hp) as Ho1. split; [| eauto].
      destruct m as [c |]; cbn [opt_list app] in Ho1; [| now rewrite Ho1].
      apply (wp_link c (head :: l)); [now rewrite Ho1, Ho |]. intros o s2 Ho2 Hp2.
      rewrite (pooled_owned _ _ _ Hp2). split; [done |]. eauto using pooled_trans. }
  intros cur s1 [H1 [o1 Hp1]]. destruct cur as [c |].
  2:{ apply wp_bind, wp_tx_drop. intros s2 Hp2. apply wp_bind, (wp_ff_free head l); [now rewrite (pooled_owned _ _ _ Hp2) |].
      intros o s3 Ho3 Hp3. apply wp_ret. exists o. split; [| done]. eauto using pooled_trans. }
  apply wp_bind. eapply wp_mono; [exact H1 |]. intros _ s2 [Ho2 [o2 Hp2]]. cbv zeta.
  pose proof (room_ok c) as Hroom. unfold SFC7120_RX_BUFFER_SIZE in Hroom.
  set (len := if mb_room c <? total then mb_room c else total).
  assert (0 < len <= total /\ len < 2 ^ 16 /\ (total <= 2048 -> len = total)) as (Hl & Hl16 & Hall)
    by (unfold len; destruct (Z.ltb_spec (mb_room c) total); lia).
  rewrite Hsrc by lia. clearbody len.
  eapply wp_mono; [apply (IH None _ (off + len) (total - len)); [done | lia | lia | lia |] |].
  { apply Forall_app. split; [done |]. repeat constructor; cbn; lia. }
  intros r s3 (o & Hp3 & Hr). exists o. split; [eauto using pooled_trans |]. destruct r as [segs' |]; [| done].
  destruct Hr as (Hr1 & Hr2 & Hr3 & Hr4). split_and!; auto.
  - rewrite Hr3, seg_bytes_app, <- app_assoc. f_equal. rewrite seg_bytes_one by (rewrite length_take, length_drop; lia).
    replace (Z.to_nat total) with (Z.to_nat len + Z.to_nat (total - len))%nat by lia. rewrite <- take_take_drop, drop_drop.
    do 3 f_equal. lia.
  - intros Ht. rewrite Hr4, length_app by lia. rewrite (Hall Ht), Z.sub_diag. replace (total =? 0) with false by lia. change (0 =? 0) with true. cbn [length]. cbv iota. lia.
Qed.

Lemma tx_offload_data hw o data : of_tso_seg_size o = 0 -> snd (tx_offload hw o data) = data.
Proof. intros H. unfold tx_offload. rewrite H. cbn. now destruct (tx_csum_l4 hw). Qed.

Lemma wp_ff_mbuf_free b (Q : unit -> ff -> Prop) s :
  b ∈ ff_bsd s -> Q tt (s <| ff_bsd ::= drop_one b |>) -> wp (ff_mbuf_free b) Q s.
Proof. intros Hb HQ. apply wp_bind, wp_kassert; [now apply bool_decide_eq_true |]. now apply wp_modify. Qed.

(** A packet of the stack in a new chain at the end of the table. *)
Definition queued (b : B) s s' : Prop :=
  exists m meta, ff_table s' = ff_table s ++ [(m, meta)] /\ owned s' ≡ₚ tm_addr m :: owned s /\
    tm_pkt_len m = Z.of_nat (length (bsd_bytes b)) /\ tm_iova m = mb_iova (tm_addr m) /\
    seg_bytes (tm_segs m) = bsd_bytes b /\ Forall fits (tm_segs m) /\
    (tm_pkt_len m <= 2048 -> length (tm_segs m) = 1%nat).

(** What sending may change. *)
Definition sending b s s' : Prop :=
  exists p o t l, s' = s <| ff_pi := (ff_pi s) <| pi_pool := p |> <| pi_owned := o |> |> <| ff_stats := t |>
                       <| ff_bsd ::= drop_one b |> <| ff_table := l |>.

Lemma if_send_spec hw b s :
  (0 < length (bsd_bytes b))%nat -> b ∈ ff_bsd s -> of_tso_seg_size (bsd_offload b) = 0 ->
  Z.of_nat (length (ff_table s)) + 1 < MAX_PKT_BURST ->
  wp (ff_dpdk_if_send (Some hw) (Some b) (Z.of_nat (length (bsd_bytes b)))) (fun r s' => sending b s s' /\
    (r = -1 /\ ff_table s' = ff_table s /\ owned s' ≡ₚ owned s \/ r = 0 /\ queued b s s')) s.
Proof.
  intros Hl Hb Htso Htab. unfold ff_dpdk_if_send. apply wp_bind, wp_mbuf_alloc. intros [head |] s1 Hp1.
  2:{ apply wp_bind, wp_tx_drop. intros s2 Hp2. pose proof (pooled_trans _ _ _ _ _ Hp1 Hp2) as (p & t & ->).
      apply wp_bind, wp_ff_mbuf_free; [done |]. apply wp_ret. split; [now eexists _, _, _, _ |]. left.
      split_and!; try done. now rewrite (pooled_owned _ _ _ Hp1). }
  pose proof (pooled_owned _ _ _ Hp1) as Ho1. cbn [opt_list app] in Ho1.
  apply wp_bind. eapply wp_mono.
  { apply (copy_loop_spec _ (bsd_bytes b) (owned s)); [| now rewrite Ho1 | lia | lia | lia | constructor].
    intros off len ? ? ?. now apply copydata_bytes. }
  intros segs s2 (o & Hp2 & Hr). pose proof (pooled_trans _ _ _ _ _ Hp1 Hp2) as (p & t & ->).
  destruct segs as [segs |].
  2:{ apply wp_bind, wp_ff_mbuf_free; [done |]. apply wp_ret. split; [now eexists _, _, _, _ |]. now left. }
  destruct Hr as (Hr1 & Hr2 & Hr3 & Hr4). cbn [seg_bytes map concat app] in Hr3.
  rewrite Nat2Z.id, drop_0, take_ge in Hr3 by done.
  pose proof (tx_offload_data hw (bsd_offload b) (head_data segs) Htso) as Hd.
  destruct (tx_offload hw (bsd_offload b) (head_data segs)) as [meta data]. cbn [snd] in Hd. subst data.
  assert (set_head_data segs (head_data segs) = segs) as -> by now destruct segs as [| [? ?] ?].
  apply wp_bind, wp_ff_mbuf_free; [done |]. apply wp_bind, wp_modify, wp_bind, wp_gets.
  cbn. rewrite length_app. cbn [length]. rewrite (proj2 (Z.eqb_neq _ MAX_PKT_BURST)) by lia.
  apply wp_bind, wp_ret, wp_ret. split; [now eexists _, _, _, _ |]. right. split; [done |].
  eexists _, meta. split; [reflexivity |]. cbn. split_and!; try done. intros H. rewrite Hr4 by lia.
  replace (_ =? 0) with false by lia. done.
Qed.

(** A packet the stack sends is copied, byte for byte and with its length,
    into a chain at the end of the table, or, when the pool is empty, dropped
    with every mbuf it got given back; either way the stack gets its packet
    back, and nothing is sent before the table is full. *)
Theorem if_send_copies hw b s :
  (0 < length (bsd_bytes b))%nat -> b ∈ ff_bsd s -> of_tso_seg_size (bsd_offload b) = 0 ->
  Z.of_nat (length (ff_table s)) + 1 < MAX_PKT_BURST ->
  wp (ff_dpdk_if_send (Some hw) (Some b) (Z.of_nat (length (bsd_bytes b)))) (fun r s' =>
    ff_bsd s' = drop_one b (ff_bsd s) /\ pi_sfc (ff_pi s') = pi_sfc (ff_pi s) /\
    (r = -1 /\ ff_table s' = ff_table s /\ owned s' ≡ₚ owned s \/ r = 0 /\ queued b s s')) s.
Proof.
  intros H1 H2 H3 H4. eapply wp_mono; [now apply if_send_spec |]. intros r s' [(p & o & t & l & ->) H]. auto.
Qed.

(** ** Bursts *)

Lemma count_sent_stats l : forall s (Q : unit -> ff -> Prop),
  (forall t, tr_tx_dropped t = tr_tx_dropped (ff_stats s) -> Q tt (s <| ff_stats := t |>)) -> wp (count_sent l) Q s.
Proof.
  induction l as [| m l IH]; intros s Q HQ; cbn [count_sent].
  - apply wp_ret. specialize (HQ (ff_stats s) eq_refl). now destruct s.
  - apply wp_bind, wp_modify, IH. intros t Ht. apply (HQ t). exact Ht.
Qed.

(** A table of plain frames on a port with room goes out whole. *)
Lemma drain_plain s :
  let bufs := map fst (ff_table s) in
  (0 < length bufs)%nat -> Forall plain_frame bufs -> tx_idle (ff_pi s) ->
  tq_inflight_cnt (pi_txq (ff_pi s)) + Z.of_nat (length bufs) <= 496 ->
  wp tx_drain (fun _ s' => ff_table s' = [] /\ owned s' = owned s /\ ff_bsd s' = ff_bsd s /\
    tr_tx_dropped (ff_stats s') = tr_tx_dropped (ff_stats s) /\
    exists pi1 : capio_internals cap D P, (forall k m, bufs !! k = Some m -> tx_slot_holds pi1 (tx_at (ff_pi s) k) m) /\
      pi_txq (ff_pi s') = pi_txq pi1 /\
      (w_dev (u_w (pi_sfc (ff_pi s'))), w_dma (u_w (pi_sfc (ff_pi s')))) =
        dev_write SFC7120_REG_DATA_TX_WPTR_DBL (tx_at (ff_pi s) (length bufs))
          (w_dev (u_w (pi_sfc pi1)), w_dma (u_w (pi_sfc pi1)))) s.
Proof.
  intros bufs Hn HF Hi Hc. unfold tx_drain. apply wp_bind, wp_gets.
  assert (length (ff_table s) = length bufs) as Hlen by (unfold bufs; now rewrite length_map).
  rewrite Hlen. destruct (length bufs) as [| n] eqn:El; [lia |]. rewrite <- El in *. clear n El.
  apply wp_bind. unfold send_burst. apply wp_bind, wp_gets. fold bufs. apply wp_bind, wp_pmd_op.
  eapply wp_mono; [now apply tx_burst_spec |]. intros r pi' (-> & Ho & pi1 & Hall & _ & Htx & _ & Hdev).
  rewrite Nat2Z.id, take_ge, drop_ge by done. cbn [free_unsent].
  apply wp_bind, count_sent_stats. intros t Ht. apply wp_ret, wp_modify.
  split; [done |]. split; [exact Ho |]. split; [done |]. split; [exact Ht |]. now exists pi1.
Qed.

Lemma tx_idle_pooled pi p o : tx_idle pi -> tx_idle (pi <| pi_pool := p |> <| pi_owned := o |> : capio_internals cap D P).
Proof. intros [? ? ? ? ? ?]. now split. Qed.

(** C11. From the stack to the ring: a frame of 60 to 2048 bytes without
    segmentation offload, sent with an empty table of more than one entry over
    a port that is set up for transmitting without copies and has a free slot,
    is either dropped without a trace, or, once the table is drained, the NIC is
    told of one descriptor that names an mbuf with exactly the frame's bytes,
    which stays out of the pool and is recorded in the slot for its completion.
    (A shorter frame is padded and copied.) *)
Theorem stack_packet_reaches_ring hw b s :
  1 < MAX_PKT_BURST -> 60 <= Z.of_nat (length (bsd_bytes b)) <= 2048 -> b ∈ ff_bsd s -> of_tso_seg_size (bsd_offload b) = 0 ->
  ff_table s = [] -> tx_idle (ff_pi s) -> tq_inflight_cnt (pi_txq (ff_pi s)) < 496 ->
  wp (let* r := ff_dpdk_if_send (Some hw) (Some b) (Z.of_nat (length (bsd_bytes b))) in
      do* tx_drain; ret r) (fun r s' => ff_table s' = [] /\ ff_bsd s' = drop_one b (ff_bsd s) /\
    (r = -1 /\ owned s' ≡ₚ owned s \/
     r = 0 /\ exists m (pi1 : capio_internals cap D P), seg_bytes (tm_segs m) = bsd_bytes b /\ length (tm_segs m) = 1%nat /\
       owned s' ≡ₚ tm_addr m :: owned s /\
       tm_iova m = mb_iova (tm_addr m) /\ tm_pkt_len m = Z.of_nat (length (bsd_bytes b)) /\
       tx_slot_holds pi1 (tx_at (ff_pi s) 0) m /\ pi_txq (ff_pi s') = pi_txq pi1 /\
       (w_dev (u_w (pi_sfc (ff_pi s'))), w_dma (u_w (pi_sfc (ff_pi s')))) =
         dev_write SFC7120_REG_DATA_TX_WPTR_DBL (tx_at (ff_pi s) 1)
           (w_dev (u_w (pi_sfc pi1)), w_dma (u_w (pi_sfc pi1))))) s.
Proof.
  intros Hburst Hlen Hb Htso Htab Hi Hc. apply wp_bind. eapply wp_mono; [apply if_send_spec; auto; rewrite ?Htab; cbn; lia |].
  intros r s1 [Hs Hr]. apply wp_bind. destruct Hr as [(-> & Ht1 & Ho1) | (-> & m & meta & Ht1 & Ho1 & M1 & M2 & M3 & M4 & M5)].
  - rewrite Htab in Ht1. unfold tx_drain. apply wp_bind, wp_gets. rewrite Ht1. apply wp_ret, wp_ret.
    destruct Hs as (p & o & t & l & ->). auto.
  - rewrite Htab in Ht1. cbn [app] in Ht1. specialize (M5 ltac:(lia)).
    pose proof (drain_plain s1) as Hd. cbv zeta in Hd. rewrite Ht1 in Hd. cbn [map fst length] in Hd.
    destruct Hs as (p & o & t & l & ->). eapply wp_mono; [apply Hd |].
    + lia.
    + constructor; [| constructor]. unfold plain_frame, CAPIO_MIN_TX_FRAME, SFC7120_TX_BUFFER_SIZE. split; [| lia].
      destruct (tm_segs m) as [| g [| ? ?]]; try done. now exists g.
    + now apply tx_idle_pooled.
    + cbn. lia.
    + intros _ s2 (E1 & E2 & E3 & _ & pi1 & Hall & Htx & Hdev). apply wp_ret.
      split; [done |]. split; [exact E3 |]. right. split; [done |]. exists m, pi1.
      split_and!; try done; [now rewrite E2 | now apply (Hall 0%nat)].
Qed.

(** C40. A full ring makes the two layers free the same mbuf: with 496
    descriptors outstanding the driver drops the first frame of the burst and
    frees it, but reports it as not sent, and F-Stack frees what was not sent. *)
Theorem full_ring_double_free m meta rest seg A s :
  ff_table s = (m, meta) :: rest -> tm_segs m = [seg] -> 496 <= tq_inflight_cnt (pi_txq (ff_pi s)) ->
  owned s ≡ₚ tm_addr m :: A -> tm_addr m ∉ A ->
  tx_drain s = None.
Proof.
  intros Ht Hseg Hc Ho HA. pose proof (tx_full_frees_unsent m (map fst rest) seg A (ff_pi s) Hseg Hc Ho HA) as H.
  unfold tx_drain, bind, gets. rewrite Ht. cbn [length]. unfold send_burst, bind, gets. rewrite Ht. cbn [map fst].
  unfold pmd_op at 1. unfold wp in H. destruct (eth_capio_tx _ (ff_pi s)) as [[r pi'] |]; [| done].
  destruct H as (-> & _ & H). cbn [take drop count_sent]. change (Z.to_nat 0) with O. cbn [take drop count_sent].
  unfold ret, bind. cbn [free_unsent]. unfold tx_drop, count, modify, bind, mbuf_free, pmd_op. cbn. now rewrite H.
Qed.
End send_proofs.

(** ** Receiving: proofs *)

Section rx_proofs.
Context {cap D P B : Type} `{!Device D} `{!Mempool P} `{!MempoolLaws P} {HdrFS : FStackHeaders} `{!StackPacket B} `{!EqDecision B} `{!RxEnv P}.
Abbreviation ff := (ff_state cap D P B).
Implicit Types (s : ff) (p : rx_pkt) (X : list Z).

(** The mbufs waiting to be sent, in the rings, with the stack and with the
    kernel. *)
Definition placed s : list Z :=
  map (fun e => tm_addr (fst e)) (ff_table s) ++ concat (map (map rp_addr) (ff_rings s))
  ++ map rp_addr (ff_input s) ++ map rp_addr (ff_kni s).

(** Of the mbufs out of the pool, [X] are elsewhere. *)
Definition rx_ok X s : Prop := owned s ≡ₚ X ++ placed s.

(** The rings are the same ones, and at most [n] packets joined the table. *)
Definition rx_step_to (n : nat) X s s' : Prop :=
  rx_ok X s' /\ length (ff_rings s') = length (ff_rings s) /\ (length (ff_table s') <= length (ff_table s) + n)%nat.

Lemma pooled_step s o s' X : pooled s o s' -> o ≡ₚ X ++ placed s -> rx_step_to 0 X s s'.
Proof. intros (q & t & ->) Ho. split_and!; [exact Ho | done | cbn; lia]. Qed.

Lemma rx_step_trans n m X Y s s1 s2 : rx_step_to n Y s s1 -> rx_step_to m X s1 s2 -> rx_step_to (n + m) X s s2.
Proof. intros (_ & H2 & H3) (H4 & H5 & H6). split_and!; [done | congruence | lia]. Qed.

Lemma rx_step_refl X s : rx_ok X s -> rx_step_to 0 X s s.
Proof. intros H. split_and!; [done | done | lia]. Qed.

(** Every segment fits an mbuf of the pool. *)
Definition seg_fits (d : list Z) : Prop := forall c, Z.of_nat (length d) <= mb_room c.

Lemma clone_segs_spec mc l segs : forall s,
  owned s ≡ₚ mc :: l -> Forall seg_fits segs ->
  wp (clone_segs mc segs) (fun ok s' => exists o, pooled s o s' /\ o ≡ₚ if ok : bool then mc :: l else l) s.
Proof.
  induction segs as [| d segs IH]; intros s Ho HF; cbn [clone_segs].
  - apply wp_ret. exists (owned s). split; [apply pooled_refl | done].
  - apply Forall_cons_iff in HF as [Hd HF]. apply wp_bind, wp_mbuf_alloc. intros [c |] s1 Hp1;
      pose proof (pooled_owned _ _ _ Hp1) as Ho1; cbn [opt_list app] in Ho1.
    + apply wp_bind, wp_kassert; [apply Z.leb_le, Hd |]. apply wp_bind, (wp_link c (mc :: l)); [now rewrite Ho1, Ho |].
      intros o s2 Ho2 Hp2. eapply wp_mono; [apply IH; [now rewrite (pooled_owned _ _ _ Hp2) | done] |].
      intros ok s3 (o3 & Hp3 & Ho3). exists o3. split; [| done]. eauto using pooled_trans.
    + apply wp_bind, (wp_ff_free mc l); [now rewrite Ho1 |]. intros o s2 Ho2 Hp2. apply wp_ret.
      exists o. split; [eauto using pooled_trans | done].
Qed.

(** A copy is a new mbuf with the same contents, or nothing. *)
Lemma deep_clone_spec p s :
  Forall seg_fits (rp_segs p) ->
  wp (pktmbuf_deep_clone p) (fun r s' => exists o, pooled s o s' /\
    match r with
    | Some c => o ≡ₚ rp_addr c :: owned s /\ c = p <| rp_addr := rp_addr c |>
    | None => o ≡ₚ owned s
    end) s.
Proof.
  intros HF. apply wp_bind, wp_mbuf_alloc. intros [mc |] s1 Hp1; pose proof (pooled_owned _ _ _ Hp1) as Ho1;
    cbn [opt_list app] in Ho1.
  - apply wp_bind, wp_kassert.
    { pose proof (room_ok mc). unfold rp_data, SFC7120_RX_BUFFER_SIZE in *.
      destruct (rp_segs p) as [| d segs]; [apply Z.leb_le; cbn [length]; lia |]. apply Forall_cons_iff in HF as [Hd _]. apply Z.leb_le, Hd. }
    apply wp_bind. eapply wp_mono.
    { apply (clone_segs_spec mc (owned s)); [now rewrite Ho1 |]. destruct HF; [constructor | done]. }
    intros ok s2 (o & Hp2 & Ho2). apply wp_ret. exists o. split; [eauto using pooled_trans |].
    destruct ok; [split; [exact Ho2 | done] | exact Ho2].
  - apply wp_ret. exists (owned s1). split; [now rewrite Ho1 in * |]. now rewrite Ho1.
Qed.

(** Freeing a packet in hand. *)
Lemma free_step p X s :
  rx_ok (rp_addr p :: X) s -> wp (mbuf_free (rp_addr p)) (fun _ s' => rx_step_to 0 X s s') s.
Proof. intros Ho. apply (wp_ff_free _ (X ++ placed s)); [exact Ho |]. intros o s' Hp Hs. now apply (pooled_step s o). Qed.

Lemma drop_step n s X : rx_ok X s -> wp (rx_drop n) (fun _ s' => rx_step_to 0 X s s') s.
Proof.
  intros Ho. apply wp_modify, (pooled_step s (owned s)); [| exact Ho].
  exists (pi_pool (ff_pi s)), ((ff_stats s) <| tr_rx_dropped ::= fun x => u64 (x + n) |>).
  destruct s as [[] ? ? ? ? ? ?]. reflexivity.
Qed.

Lemma rings_push (rings : list (list rx_pkt)) j p :
  (j < length rings)%nat ->
  concat (map (map rp_addr) (<[j := nth j rings [] ++ [p]]> rings)) ≡ₚ rp_addr p :: concat (map (map rp_addr) rings).
Proof.
  revert j. induction rings as [| q rings IH]; intros j Hj; [cbn in Hj; lia |]. destruct j as [| j]; cbn.
  - rewrite map_app. cbn. solve_Permutation.
  - rewrite IH by (cbn in Hj; lia). solve_Permutation.
Qed.

Lemma dispatch_step j p X s :
  rx_ok (rp_addr p :: X) s -> 0 <= j < Z.of_nat (length (ff_rings s)) ->
  wp (dispatch j p) (fun _ s' => rx_step_to 0 X s s') s.
Proof.
  intros Ho Hj. apply wp_bind. apply wp_bind, wp_kassert; [lia |]. apply wp_bind, wp_gets.
  destruct (_ <? ring_room).
  - apply wp_bind, wp_modify, wp_ret, wp_ret. split_and!; [| cbn; now rewrite length_insert | cbn; lia].
    unfold rx_ok, placed. cbn. change (owned _) with (owned s). rewrite rings_push by lia.
    unfold rx_ok, placed in Ho. rewrite Ho. solve_Permutation.
  - apply wp_ret, wp_bind. eapply wp_mono; [now apply (drop_step _ _ (rp_addr p :: X)) |]. intros u s1 H1.
    eapply wp_mono; [apply (free_step p X), H1 |]. intros u2 s2 H2. exact (rx_step_trans 0 0 _ _ _ _ _ H1 H2).
Qed.

Lemma clones_step queue_id js p X : forall s,
  rx_ok X s -> Forall seg_fits (rp_segs p) -> Forall (fun j => 0 <= j < Z.of_nat (length (ff_rings s))) js ->
  wp (clone_to_queues queue_id js p) (fun _ s' => rx_step_to 0 X s s') s.
Proof.
  induction js as [| j js IH]; intros s Ho HF Hj; cbn [clone_to_queues].
  - apply wp_ret. split_and!; auto. lia.
  - apply Forall_cons_iff in Hj as [Hj Hjs]. apply wp_bind.
    apply (wp_mono _ (fun _ s1 => rx_step_to 0 X s s1)).
    { destruct (j =? queue_id); [apply wp_ret; split_and!; auto; lia |].
      apply wp_bind. eapply wp_mono; [now apply deep_clone_spec |]. intros [c |] s1 (o & Hp & Hc).
      - destruct Hc as [Hc _]. assert (rx_step_to 0 (rp_addr c :: X) s s1) as H1.
        { apply (pooled_step s o); [done |]. now rewrite Hc, Ho. }
        eapply wp_mono; [apply (dispatch_step j c X); [apply H1 | destruct H1 as (_ & -> & _); lia] |].
        intros u s2 H2. exact (rx_step_trans 0 0 _ _ _ _ _ H1 H2).
      - apply wp_ret, (pooled_step s o); [done |]. now rewrite Hc. }
    intros u s1 H1. eapply wp_mono; [apply IH; [apply H1 | done |] |].
    { destruct H1 as (_ & -> & _). exact Hjs. }
    intros u2 s2 H2. exact (rx_step_trans 0 0 _ _ _ _ _ H1 H2).
Qed.

(** Handing a packet to the stack or the kernel. *)
Lemma input_step p X s : rx_ok (rp_addr p :: X) s -> wp (stack_input p) (fun _ s' => rx_step_to 0 X s s') s.
Proof.
  intros Ho. apply wp_modify. split_and!; [| done | cbn; lia]. unfold rx_ok, placed in *. cbn.
  change (owned _) with (owned s). rewrite Ho, map_app. cbn. solve_Permutation.
Qed.

Lemma kni_step p X s : rx_ok (rp_addr p :: X) s -> wp (ff_kni_enqueue p) (fun _ s' => rx_step_to 0 X s s') s.
Proof.
  intros Ho. apply wp_modify. split_and!; [| done | cbn; lia]. unfold rx_ok, placed in *. cbn.
  change (owned _) with (owned s). rewrite Ho, map_app. cbn. solve_Permutation.
Qed.

Lemma vlan_addr p : rp_addr (ff_add_vlan_tag p) = rp_addr p.
Proof. unfold ff_add_vlan_tag. destruct (rp_vlan p), (rp_segs p); try done. now destruct (prepend_ok p). Qed.

Lemma veth_step csum p X s :
  (hdr_owns_mbufs = true -> forall i, stack_get p i = true) -> rx_ok (rp_addr p :: X) s ->
  wp (ff_veth_input csum p) (fun _ s' => rx_step_to 0 X s s') s.
Proof.
  intros Hh Ho. unfold ff_veth_input. destruct (csum && rp_csum_bad p); [now apply free_step |].
  destruct (negb (stack_gethdr p)); [now apply free_step |]. destruct (forallb _ _) eqn:Hall; [now apply input_step |].
  destruct hdr_owns_mbufs; [| apply wp_bind, wp_ret; now apply free_step].
  exfalso. rewrite (proj2 (forallb_forall _ _)) in Hall; [done |]. intros i _. now apply Hh.
Qed.

Record cfg_ok (cfg : rx_cfg) s : Prop := {
  ck_rings : Z.of_nat (length (ff_rings s)) = rx_nb_queues cfg;
  ck_dispatch : forall f p, rx_dispatcher cfg = Some f -> 0 <= fst (fst (f p)) \/ fst (fst (f p)) ∈ [FF_DISPATCH_ERROR; FF_DISPATCH_RESPONSE];
  ck_hdr : hdr_owns_mbufs = true -> forall p i, stack_get p i = true
}.

Lemma deliver_step cfg from_ring p data len X s :
  cfg_ok cfg s -> Forall seg_fits (rp_segs p) -> rx_ok (rp_addr p :: X) s ->
  wp (deliver cfg from_ring p data len) (fun _ s' => rx_step_to 0 X s s') s.
Proof.
  intros [Hr _ Hh'] HF Ho. pose proof (fun E => Hh' E p) as Hh. clear Hh'. unfold deliver. cbv zeta.
  assert (wp (ff_kni_enqueue (ff_add_vlan_tag p)) (fun _ s' => rx_step_to 0 X s s') s) as Hkni.
  { apply kni_step. now rewrite vlan_addr. }
  destruct (match protocol_filter _ _ _ with FILTER_ARP | FILTER_NDP => true | _ => false end).
  2:{ destruct (rx_kni cfg); [| now apply veth_step]. destruct (rx_kni_action cfg); auto using veth_step.
      destruct (_ || _); auto using veth_step. }
  apply wp_bind, (wp_mono _ (fun _ s1 => rx_step_to 0 (rp_addr p :: X) s s1)).
  { destruct from_ring; [apply wp_ret; split_and!; auto; lia |]. apply clones_step; [done | done |].
    apply Forall_forall. intros j (n & <- & Hn)%in_map_iff. apply in_seq in Hn. lia. }
  intros u s1 H1. apply wp_bind, (wp_mono _ (fun _ s2 => rx_step_to 0 (rp_addr p :: X) s1 s2)).
  { destruct (_ && _); [| apply wp_ret; split_and!; [apply H1 | done | lia]].
    apply wp_bind. eapply wp_mono; [now apply deep_clone_spec |]. intros [c |] s2 (o & Hp & Hc).
    - destruct Hc as [Hc _]. assert (rx_step_to 0 (rp_addr c :: rp_addr p :: X) s1 s2) as H2.
      { apply (pooled_step s1 o); [done |]. destruct H1 as [H1 _]. now rewrite Hc, H1. }
      eapply wp_mono; [apply (kni_step (ff_add_vlan_tag c) (rp_addr p :: X)); rewrite vlan_addr; apply H2 |].
      intros u2 s3 H3. exact (rx_step_trans 0 0 _ _ _ _ _ H2 H3).
    - apply wp_ret, (pooled_step s1 o); [done |]. destruct H1 as [H1 _]. now rewrite Hc, H1. }
  intros u2 s2 H2. eapply wp_mono; [apply (veth_step _ p X); [done | apply H2] |]. intros u3 s3 H3.
  exact (rx_step_trans 0 0 _ _ _ _ _ H1 (rx_step_trans 0 0 _ _ _ _ _ H2 H3)).
Qed.

Lemma set_data_addr p n buf : rp_addr (set_data p n buf) = rp_addr p.
Proof. done. Qed.

Lemma set_data_fits p buf :
  Forall seg_fits (rp_segs p) -> Forall seg_fits (rp_segs (set_data p (Z.of_nat (length (rp_data p))) buf)).
Proof.
  unfold set_data, rp_data. cbn. intros HF. destruct (rp_segs p) as [| d segs]; [done |].
  apply Forall_cons_iff in HF as [Hd HF]. constructor; [| done]. intros c. rewrite length_load_bytes by lia. apply Hd.
Qed.

Lemma respond_step p n buf X s :
  rx_ok (rp_addr p :: X) s -> Z.of_nat (length (ff_table s)) + 1 < MAX_PKT_BURST ->
  wp (respond p n buf) (fun _ s' => rx_step_to 1 X s s') s.
Proof.
  intros Ho Ht. unfold respond. cbv zeta. set (q := ff_add_vlan_tag _). assert (rp_addr q = rp_addr p) as Hq by exact (vlan_addr (set_data p n buf)).
  apply wp_bind. unfold send_single_packet. apply wp_bind, wp_modify, wp_bind, wp_gets. cbn. rewrite length_app. cbn [length].
  rewrite (proj2 (Z.eqb_neq _ MAX_PKT_BURST)) by lia. apply wp_bind, wp_ret, wp_ret, wp_ret.
  split_and!; [| done | cbn; rewrite length_app; cbn; lia]. unfold rx_ok, placed in *. cbn. change (owned _) with (owned s).
  rewrite Ho, map_app. cbn. rewrite Hq. solve_Permutation.
Qed.

Lemma process_packet_step cfg from_ring p X s :
  cfg_ok cfg s -> Forall seg_fits (rp_segs p) -> rx_ok (rp_addr p :: X) s -> Z.of_nat (length (ff_table s)) + 1 < MAX_PKT_BURST ->
  wp (process_packet cfg from_ring p) (fun _ s' => rx_step_to 1 X s s') s.
Proof.
  intros Hc HF Ho Ht. unfold process_packet. cbv zeta. apply wp_bind, wp_gets.
  assert (forall s1 s', rx_step_to 0 (rp_addr p :: X) s s1 -> rx_step_to 0 X s1 s' -> rx_step_to 1 X s s') as Hweak.
  { intros s1 s' H1 H2. destruct (rx_step_trans 0 0 _ _ _ _ _ H1 H2) as (? & ? & ?). split_and!; auto. lia. }
  destruct (_ && _).
  { apply wp_bind. eapply wp_mono; [now apply (drop_step _ _ (rp_addr p :: X)) |]. intros u s1 H1.
    eapply wp_mono; [apply (free_step p X), H1 |]. intros u2 s2 H2. exact (Hweak _ _ H1 H2). }
  apply wp_bind, (wp_mono _ (fun _ s1 => rx_step_to 0 (rp_addr p :: X) s s1 /\ ff_table s1 = ff_table s)).
  { destruct from_ring; [apply wp_ret; auto using rx_step_refl |]. apply wp_modify. split; [| done].
    split_and!; [exact Ho | done | cbn; lia]. }
  intros u s1 [H1 Et]. assert (rx_ok (rp_addr p :: X) s1) as Ho1 by apply H1.
  assert (cfg_ok cfg s1) as Hc1. { destruct Hc as [? ? ?], H1 as (_ & E & _). split; auto. now rewrite E. }
  assert (forall m : ST ff unit, wp m (fun _ s' => rx_step_to 0 X s1 s') s1 -> wp m (fun _ s' => rx_step_to 1 X s s') s1) as Hdo.
  { intros m Hm. eapply wp_mono; [exact Hm |]. intros u2 s2 H2. exact (Hweak _ _ H1 H2). }
  destruct (if from_ring then None else rx_dispatcher cfg) as [f |] eqn:Ef; [| now apply Hdo, deliver_step].
  assert (0 <= fst (fst (f p)) \/ fst (fst (f p)) ∈ [FF_DISPATCH_ERROR; FF_DISPATCH_RESPONSE]) as Hf by (destruct from_ring; [done |]; now apply (ck_dispatch _ _ Hc)).
  destruct (f p) as [[r len'] buf]. cbn [fst] in Hf.
  destruct (Z.eqb_spec r FF_DISPATCH_RESPONSE) as [-> | Hr2].
  { eapply wp_mono; [apply (respond_step p _ _ X); [done | now rewrite Et] |]. intros u2 s2 H2.
    exact (rx_step_trans 0 1 _ _ _ _ _ H1 H2). }
  destruct ((r =? FF_DISPATCH_ERROR) || (rx_nb_queues cfg <=? r)) eqn:Er; [now apply Hdo, free_step |].
  apply orb_false_elim in Er as [Er1%Z.eqb_neq Er2].
  assert (0 <= r) as Hr0 by (destruct Hf as [Hf | Hf]; [done | set_solver]).
  destruct (negb (r =? rx_queue_id cfg)).
  - apply Hdo, dispatch_step; [done |]. rewrite (ck_rings _ _ Hc1). lia.
  - apply Hdo, deliver_step; [done | now apply set_data_fits | done].
Qed.

(** C10. Receiving loses no mbuf and frees none twice: whatever arrives, and
    whatever the filters, the pool and the rings answer, every mbuf of the burst,
    and every copy made of it, ends in exactly one place: the table of
    responses, a dispatch ring, the stack, the kernel's queue, or back in the
    pool.  Assumed are a dispatcher that answers a queue number,
    FF_DISPATCH_ERROR or FF_DISPATCH_RESPONSE (any other negative answer
    indexes the rings with it); that the stack finds a header for every
    further segment, if giving a header back frees the mbufs it owns (they
    would be freed twice); that the responses do not fill the table of one
    burst, so that nothing is sent meanwhile ([full_ring_double_free] is about
    sending); and that the segments fit the mbufs of the pool. *)
Theorem process_packets_conserve cfg from_ring bufs X s :
  cfg_ok cfg s -> Forall (fun p => Forall seg_fits (rp_segs p)) bufs ->
  Z.of_nat (length (ff_table s) + length bufs) < MAX_PKT_BURST ->
  rx_ok (map rp_addr bufs ++ X) s ->
  wp (process_packets cfg from_ring bufs) (fun _ s' => rx_ok X s' /\ length (ff_rings s') = length (ff_rings s)) s.
Proof.
  revert s. induction bufs as [| p bufs IH]; intros s Hc HF Ht Ho; cbn [process_packets map app length] in *.
  - apply wp_ret. auto.
  - apply Forall_cons_iff in HF as [Hp HF]. apply wp_bind.
    eapply wp_mono; [apply (process_packet_step cfg from_ring p (map rp_addr bufs ++ X)); [done | done | exact Ho | lia] |].
    intros u s1 (H1 & H2 & H3). eapply wp_mono; [apply IH; [| done | lia | exact H1] |].
    + destruct Hc as [? ? ?]. split; auto. now rewrite H2.
    + intros u2 s2 [H4 H5]. split; [done | congruence].
Qed.
End rx_proofs.
