(* ===== verification/FfModel.v ===== *)
(** * F-Stack's interface on concrete states

    The port of [PmdModel] under F-Stack: a stack whose packets are lists of
    bytes, a receive path with two queues and a dispatcher, and the theorems of
    [FfIf] applied to them. *)

From stdpp Require Import sets.
From S2P Require Import Prelude Uapi Desc Capio CapioModel Softc DataPath Nic UserLib UserInit UserModel Pmd PmdModel FfIf.
Local Open Scope Z_scope.

(** Values with the distinctions the code relies on. *)
#[export] Instance small_headers : FStackHeaders :=
  {| MAX_PKT_BURST := 8; FF_DISPATCH_ERROR := -1; FF_DISPATCH_RESPONSE := -2 |}.

#[export] Instance byte_packets : StackPacket (list Z) := {
  bsd_copydata b off len :=
    if (0 <=? off) && (0 <=? len) && (off + len <=? Z.of_nat (length b))
    then Some (take (Z.to_nat len) (drop (Z.to_nat off) b)) else None;
  bsd_offload _ := Offload true true false 0;
  phdr_cksum _ _ := 0;
  mb_stale _ _ := 0
}.

#[export] Instance byte_packets_laws : StackPacketLaws (list Z).
Proof.
  refine {| bsd_bytes := fun b => b |}. intros b off len H1 H2 H3. cbn.
  rewrite (proj2 (Z.leb_le 0 off)), (proj2 (Z.leb_le 0 len)), (proj2 (Z.leb_le (off + len) _)) by lia. done.
Defined.

Definition packet : list Z := map Z.of_nat (seq 0 60).
Definition quiet : ff_traffic := Traffic 0 0 0 0 0 0.
Definition ff_port (pi : capio_internals mcap nic Z) : ff_state mcap nic Z (list Z) :=
  Ff pi [] [[]; []] [packet] [] [] quiet.

(** ** Sending *)

Lemma stack_packet_reaches_ring_witness :
  wp (let* r := ff_dpdk_if_send (Some (HwFeatures true true)) (Some packet) (Z.of_nat (length (bsd_bytes packet))) in
      do* tx_drain; ret r)
    (fun r s' => ff_table s' = [] /\ ff_bsd s' = []) (ff_port rx_port).
Proof.
  eapply wp_mono; [apply (stack_packet_reaches_ring (HwFeatures true true) packet (ff_port rx_port)) |].
  - reflexivity.
  - vm_compute. intuition congruence.
  - constructor.
  - reflexivity.
  - reflexivity.
  - exact rx_port_idle.
  - vm_compute. reflexivity.
  - intros r s' (H1 & H2 & _). split; [exact H1 | exact H2].
Defined.

Definition full_ff : ff_state mcap nic Z (list Z) := (ff_port full_port) <| ff_table := [(frame 1, no_offload)] |>.

Lemma full_ring_double_free_witness : tx_drain full_ff = None.
Proof.
  apply (full_ring_double_free (frame 1) no_offload [] (60, fun _ => 5) [] full_ff).
  - reflexivity.
  - reflexivity.
  - vm_compute. congruence.
  - reflexivity.
  - apply not_elem_of_nil.
Defined.

(** ** Receiving *)

#[export] Instance plain_env : RxEnv Z := {
  pool_avail _ := 1000;
  ring_room := 1;
  prepend_ok _ := true;
  kni_proto_filter _ _ _ := FILTER_UNKNOWN;
  filter_rated _ := false;
  stack_gethdr _ := true;
  stack_get _ _ := true;
  hdr_owns_mbufs := false
}.

(** A dispatcher by the first byte: 0 and 1 are the queues, 2 is a response,
    anything else an error. *)
Definition by_first_byte (p : rx_pkt) : Z * Z * (Z -> Z) :=
  let b i := nth (Z.to_nat i) (rp_data p) 0 in
  (if b 0 =? 0 then 0 else if b 0 =? 1 then 1 else if b 0 =? 2 then FF_DISPATCH_RESPONSE else FF_DISPATCH_ERROR,
   Z.of_nat (length (rp_data p)), b).

Definition two_queues : rx_cfg :=
  RxCfg 0 2 0 false (Some by_first_byte) false false FF_KNICTL_ACTION_DEFAULT false.

(** One for the stack, two for the other queue whose ring has room for one, a
    response and an error. *)
Definition rx_frame (m b : Z) : rx_pkt := RxPkt m [b :: repeat 0 59] None false.
Definition burst : list rx_pkt := [rx_frame 200 0; rx_frame 201 1; rx_frame 202 1; rx_frame 203 2; rx_frame 204 9].
Definition rx_ff : ff_state mcap nic Z (list Z) := ff_port (rx_port <| pi_owned := [200; 201; 202; 203; 204] |>).

Example burst_places :
  match process_packets two_queues false burst rx_ff with
  | Some (_, s) => Some (map rp_addr (ff_input s), map (map rp_addr) (ff_rings s), map (fun e => tm_addr (fst e)) (ff_table s),
                         tr_rx_dropped (ff_stats s), owned s)
  | None => None
  end = Some ([200], [[]; [201]], [203], 1, [200; 201; 203]).
Proof. vm_compute. reflexivity. Qed.

Lemma process_packets_conserve_witness :
  wp (process_packets two_queues false burst) (fun _ s' => rx_ok [] s') rx_ff.
Proof.
  eapply wp_mono; [apply (process_packets_conserve two_queues false burst [] rx_ff) |].
  - split; [reflexivity | | reflexivity]. intros f p [= <-]. unfold by_first_byte. cbn [fst].
    repeat destruct (_ =? _); (left; lia) || (right; set_solver).
  - repeat constructor; intros c; vm_compute; congruence.
  - cbn. lia.
  - unfold rx_ok. change (owned rx_ff) with [200; 201; 202; 203; 204]. reflexivity.
  - now intros _ s' [H _].
Defined.

(** ** Frames shorter than a header *)

(** The filter takes frames of 6 bytes and more.  One of 8 bytes is classified
    by what an earlier frame left in the buffer: here by a stale type of ARP. *)
Example short_frame_filter :
  protocol_filter false (fun i => if i =? 12 then 0x08 else if i =? 13 then 0x06 else 0) 8 = FILTER_ARP.
Proof. reflexivity. Qed.

(** ** Checksum offload over IPv6 *)

(** The length of the IPv4 header is used for IPv6 too: with checksum offload
    for TCP and without segmentation the NIC is told of a header of 0 bytes. *)
Example ipv6_checksum_offset :
  tx_l3_len (fst (tx_offload (B := list Z) (HwFeatures true true) (Offload false true false 0)
    (fun i => if i =? 14 then 0x60 else 0))) = 0.
Proof. reflexivity. Qed.
