(* ===== verification/Rss.v ===== *)
(** * Receive-side scaling

    The part of [fstack-capio/modified-sources/lib/ff_dpdk_if.c] that decides
    which queue a connection's packets arrive on: the keys and the choice among
    them ([init_port_start]), [toeplitz_hash], the indirection table
    ([set_rss_table]), [ff_rss_check] and [ff_rss_check6] by which a process
    asks whether a connection is its own, and [ff_rss_adjust_sport] which looks
    for a local port that makes it so.  The hash is compared with its
    definition, the check with what the NIC does. *)

From stdpp Require Import list.
From S2P Require Import Prelude.
Local Open Scope Z_scope.

(** ** The code *)

Definition default_rsskey_40bytes : list Z :=
  [0xd1; 0x81; 0xc6; 0x2c; 0xf7; 0xf4; 0xdb; 0x5b; 0x19; 0x83; 0xa2; 0xfc; 0x94; 0x3e; 0x1a; 0xdb;
   0xd9; 0x38; 0x9e; 0x6b; 0xd1; 0x03; 0x9c; 0x2c; 0xa7; 0x44; 0x99; 0xad; 0x59; 0x3d; 0x56; 0xd9;
   0xf3; 0x25; 0x3c; 0x06; 0x2a; 0xdc; 0x1f; 0xfc].

Definition default_rsskey_52bytes : list Z :=
  [0x44; 0x39; 0x79; 0x6b; 0xb5; 0x4c; 0x50; 0x23; 0xb6; 0x75; 0xea; 0x5b; 0x12; 0x4f; 0x9f; 0x30;
   0xb8; 0xa2; 0xc0; 0x3d; 0xdf; 0xdc; 0x4d; 0x02; 0xa0; 0x8c; 0x9b; 0x33; 0x4a; 0xf6; 0x4a; 0x4c;
   0x05; 0xc6; 0xfa; 0x34; 0x39; 0x58; 0xd8; 0x55; 0x7d; 0x99; 0x58; 0x3a; 0xe1; 0x38; 0xc9; 0x2e;
   0x81; 0x15; 0x03; 0x66].

Definition symmetric_rsskey : list Z :=
  [0x6d; 0x5a; 0x6d; 0x5a; 0x6d; 0x5a; 0x6d; 0x5a; 0x6d; 0x5a; 0x6d; 0x5a; 0x6d; 0x5a; 0x6d; 0x5a;
   0x6d; 0x5a; 0x6d; 0x5a; 0x6d; 0x5a; 0x6d; 0x5a; 0x6d; 0x5a; 0x6d; 0x5a; 0x6d; 0x5a; 0x6d; 0x5a;
   0x6d; 0x5a; 0x6d; 0x5a; 0x6d; 0x5a; 0x6d; 0x5a; 0x6d; 0x5a; 0x6d; 0x5a; 0x6d; 0x5a; 0x6d; 0x5a;
   0x6d; 0x5a; 0x6d; 0x5a].

(** The key a port is configured with, and [rsskey_len]; the key [[]] is the
    null pointer. *)
Definition select_rsskey (hash_key_size : Z) (symmetric_rss : bool) : list Z * nat :=
  let '(rsskey, rsskey_len) :=
    if hash_key_size =? 40 then (default_rsskey_40bytes, 40%nat)
    else if hash_key_size =? 52 then (default_rsskey_52bytes, 52%nat)
    else ([], 0%nat) in
  if symmetric_rss && negb (hash_key_size =? 0) then (symmetric_rsskey, rsskey_len) else (rsskey, rsskey_len).

(** One bit of byte [d], which has index [i]: [hash] and [v] after it. *)
Definition tz_bit (keylen : nat) (key : list Z) (i : nat) (d : Z) (hv : Z * Z) (b : nat) : Z * Z :=
  let '(hash, v) := hv in
  let hash := if Z.testbit d (7 - Z.of_nat b) then Z.lxor hash v else hash in
  let v := u32 (Z.shiftl v 1) in
  let v := if (i + 4 <? keylen)%nat && Z.testbit (nth (i + 4) key 0) (7 - Z.of_nat b) then Z.lor v 1 else v in
  (hash, v).

Definition tz_byte (keylen : nat) (key : list Z) (hv : Z * Z) (e : nat * Z) : Z * Z :=
  fold_left (tz_bit keylen key (fst e) (snd e)) (seq 0 8) hv.

(** [None] is the fault of reading a key of less than four bytes, as the null
    key is; a [keylen] past the end of the key is one too. *)
Definition toeplitz_hash (keylen : nat) (key data : list Z) : option Z :=
  if (length key <? 4)%nat || (length key <? keylen)%nat then None
  else
    let v := u32 (Z.shiftl (nth 0 key 0) 24 + Z.shiftl (nth 1 key 0) 16 + Z.shiftl (nth 2 key 0) 8 + nth 3 key 0) in
    Some (fst (fold_left (tz_byte keylen key) (zip (seq 0 (length data)) data) (0, v))).

(** The entries of the indirection table in the order [set_rss_table] fills
    them; the driver takes the first [reta_size].  The entries of a group,
    [RTE_ETH_RETA_GROUP_SIZE], are as many as DPDK's headers say. *)
Definition set_rss_table (RTE_ETH_RETA_GROUP_SIZE : nat) (reta_size nb_queues : Z) : list (list Z) :=
  if reta_size =? 0 then []
  else
    let reta_conf_size := Nat.max 1 (Z.to_nat reta_size / RTE_ETH_RETA_GROUP_SIZE) in
    map (fun i => map (fun j => u32 (Z.of_nat (i * RTE_ETH_RETA_GROUP_SIZE + j)) mod nb_queues)
                      (seq 0 RTE_ETH_RETA_GROUP_SIZE))
        (seq 0 reta_conf_size).

(** What the process knows of its queue of a port. *)
Record rss_port := RssPort {
  rsskey : list Z;
  rsskey_len : nat;
  nb_queues : Z;
  reta_size : Z;
  queueid : Z
}.

(** Is the queue of the hash of [data] the process's own? *)
Definition own_queue (p : rss_port) (data : list Z) : option bool :=
  hash ← toeplitz_hash (rsskey_len p) (rsskey p) data;
  Some (Z.land hash (reta_size p - 1) mod nb_queues p =? queueid p).

(** Addresses and ports are in network order, that is as they are in memory. *)
Definition tuple4 (saddr daddr sport dport : Z) : list Z :=
  le_bytes 4 saddr ++ le_bytes 4 daddr ++ le_bytes 2 sport ++ le_bytes 2 dport.

Definition ff_rss_check (p : rss_port) (saddr daddr sport dport : Z) : option bool :=
  if nb_queues p <=? 1 then Some true else own_queue p (tuple4 saddr daddr sport dport).

Definition tuple6 (saddr6 daddr6 : list Z) (sport dport : Z) : list Z :=
  take 16 saddr6 ++ take 16 daddr6 ++ le_bytes 2 sport ++ le_bytes 2 dport.

Definition ff_rss_check6 (p : rss_port) (saddr6 daddr6 : list Z) (sport dport : Z) : option bool :=
  if nb_queues p <=? 1 then Some true else own_queue p (tuple6 saddr6 daddr6 sport dport).

(** [htons] and [ntohs]. *)
Definition htons (x : Z) : Z := 256 * (x mod 256) + x / 256 mod 256.

(** *** Looking for a local port

    [adjust n tuple desired] is [rte_thash_adjust_tuple] of DPDK at the [n]th
    try, [None] when it does not return 0; the two draws of [ff_arc4random] are
    arguments. *)
Section adjust_sport.
Context (adjust : nat -> list Z -> Z -> option (list Z)).

(** [rss_check_cfgs]: its [thash_adjust] and [recheck]. *)
Record rss_cfg := RssCfg { thash_adjust : bool; recheck : bool }.

(** ** The key of a port *)

Definition FF_RSS_THASH_V4_SPORT_OFF : Z := 80.
Definition FF_RSS_THASH_V6_SPORT_OFF : Z := 272.
Definition FF_RSS_THASH_SPORT_HELPER_LEN : Z := 16.

Fixpoint reta_log2_loop (fuel : nat) (reta_size log2 : Z) : Z :=
  match fuel with
  | O => log2
  | S fuel => let reta_size := Z.shiftr reta_size 1 in
              if reta_size =? 0 then log2 else reta_log2_loop fuel reta_size (log2 + 1)
  end.
Definition ff_rss_reta_log2 (reta_size : Z) : Z := reta_log2_loop 16 reta_size 0.

(** The hash library of DPDK, as far as it answers: a context by its name
    (that of IPv4 or of IPv6), the context with a helper added, whether it has
    the helper, and its key. *)
Class Thash (ctx : Type) := {
  rte_thash_init_ctx : bool -> nat -> Z -> list Z -> option ctx;
  rte_thash_add_helper : ctx -> Z -> Z -> option ctx;
  rte_thash_find_existing : bool -> option ctx;
  rte_thash_get_helper : ctx -> bool;
  rte_thash_get_key : ctx -> option (list Z)
}.

(** The globals [rsskey], [rsskey_len] and [ff_rss_key_built], and of the port
    the flags of its contexts and [rss_reta_size]. *)
Record key_state := KeyState {
  ks_key : list Z;
  ks_len : nat;
  ks_built : bool;
  ks_ready : bool;
  ks_ready6 : bool;
  ks_reta : Z
}.
#[export] Instance key_state_eta : Eta key_state := fun k =>
  KeyState (ks_key k) (ks_len k) (ks_built k) (ks_ready k) (ks_ready6 k) (ks_reta k).

Section thash.
Context {ctx : Type} `{!Thash ctx} (is_primary malloc_ok : bool).

(** The key of the IPv4 or IPv6 context; [None] on the paths that give up. *)
Definition thash_key (v6 : bool) (off : Z) (len : nat) (reta_log2 : Z) (key : list Z) : option (list Z) :=
  c ← (if is_primary then
         c ← rte_thash_init_ctx v6 len reta_log2 key;
         rte_thash_add_helper c FF_RSS_THASH_SPORT_HELPER_LEN off
       else rte_thash_find_existing v6);
  if rte_thash_get_helper c then rte_thash_get_key c else None.

(** [malloc_ok] is the answer of [rte_malloc]. *)
Definition ff_rss_thash_build_key (cfg : option rss_cfg) (reta_size : Z) (k : key_state) : key_state :=
  let k := k <| ks_ready := false |> <| ks_ready6 := false |> <| ks_reta := reta_size |> in
  let adjust := match cfg with Some c => thash_adjust c | None => true end in
  let len := ks_len k in
  if negb adjust || bool_decide (ks_key k = []) || (len =? 0)%nat then k
  else if (reta_size <? 2) || ks_built k then k
  else if (64 <? len)%nat then k
  else
    let log2 := ff_rss_reta_log2 reta_size in
    match thash_key false FF_RSS_THASH_V4_SPORT_OFF len log2 (ks_key k) with
    | None => k
    | Some key_v4 =>
        let key_v4 := take len key_v4 in
        let key_final := thash_key true FF_RSS_THASH_V6_SPORT_OFF len log2 key_v4 in
        if malloc_ok then
          k <| ks_ready := true |> <| ks_ready6 := bool_decide (is_Some key_final) |>
            <| ks_key := take len (default key_v4 key_final) |> <| ks_built := true |>
        else k
    end.

(** The key [init_port_start] gives the port before it is configured. *)
Definition init_rsskey (hash_key_size : Z) (symmetric_rss : bool) (cfg : option rss_cfg) (nb_queues reta_size : Z)
    (k : key_state) : key_state :=
  let '(key, len) := select_rsskey hash_key_size symmetric_rss in
  let k := k <| ks_key := key |> <| ks_len := len |> in
  let adjust := match cfg with Some c => thash_adjust c | None => true end in
  if (1 <? nb_queues) && adjust then ff_rss_thash_build_key cfg reta_size k else k.
End thash.

(** The first aligned block of [reta_size] ports in the range and the number
    of them; [None] when there is none. *)
Definition port_blocks (reta_size first last : Z) : option (Z * Z) :=
  if last <? first then None
  else
    let base := u16 (Z.land (u32 (first + reta_size - 1)) (u32 (Z.lnot (reta_size - 1)))) in
    if (base <? first) || (last <? u32 (base + reta_size - 1)) then None
    else
      let nblocks := u16 ((last - base + 1) / reta_size) in
      if nblocks =? 0 then None else Some (base, nblocks).

(** The loop over the table entries of the queue: [tries] of [n] are done. *)
Fixpoint adjust_loop (check : Z -> option bool) (mk : Z -> list Z) (off : nat) (p : rss_port) (cfg : option rss_cfg)
    (base first last : Z) (n tries : nat) (desired : Z) : option (option Z) :=
  match n with
  | O => Some None
  | S n =>
      let desired := if reta_size p <=? desired then queueid p else desired in
      let next := adjust_loop check mk off p cfg base first last n (S tries) (desired + nb_queues p) in
      match adjust tries (mk (htons base)) (Z.land desired (reta_size p - 1)) with
      | None => next
      | Some tuple =>
          let sport := le_word (take 2 (drop off tuple)) in
          let host_lport := htons sport in
          if (host_lport <? first) || (last <? host_lport) then next
          else if negb (match cfg with Some c => recheck c | None => false end) then Some (Some host_lport)
          else
            ok ← check sport;
            if (ok : bool) then Some (Some host_lport) else next
      end
  end.

Definition adjust_body (check : Z -> option bool) (mk : Z -> list Z) (off : nat) (p : rss_port) (cfg : option rss_cfg)
    (ready : bool) (first last r1 r2 : Z) : option (option Z) :=
  if negb ready then Some None
  else if match cfg with Some c => negb (thash_adjust c) | None => false end then Some None
  else if nb_queues p <=? 1 then Some None
  else
    match port_blocks (reta_size p) first last with
    | None => Some None
    | Some (base, nblocks) =>
        let base := u16 (base + (r1 mod nblocks) * reta_size p) in
        let per := (reta_size p + nb_queues p - 1) / nb_queues p in
        let desired := u32 (queueid p + (r2 mod per) * nb_queues p) in
        let desired := if reta_size p <=? desired then queueid p else desired in
        adjust_loop check mk off p cfg base first last (Z.to_nat per) 0 desired
    end.

(** The local port found, in host order; [Some None] is the -1 that sends the
    caller to the scan of all ports.  [rss_thash_ready] and the context are
    [ready]. *)
Definition ff_rss_adjust_sport (p : rss_port) (cfg : option rss_cfg) (ready : bool)
    (saddr daddr dport first last r1 r2 : Z) : option (option Z) :=
  adjust_body (ff_rss_check p saddr daddr dport) (tuple4 saddr daddr dport) 10 p cfg ready first last r1 r2.

Definition ff_rss_adjust_sport6 (p : rss_port) (cfg : option rss_cfg) (ready : bool)
    (saddr6 daddr6 : list Z) (dport first last r1 r2 : Z) : option (option Z) :=
  adjust_body (ff_rss_check6 p saddr6 daddr6 dport) (tuple6 saddr6 daddr6 dport) 34 p cfg ready first last r1 r2.
End adjust_sport.

(** ** The definition of the hash, and the NIC *)

(** Bit [n] of a string of bytes, the most significant bit of the first byte
    being bit 0. *)
Definition bit_at (l : list Z) (n : nat) : bool := Z.testbit (nth (n / 8) l 0) (7 - Z.of_nat (n mod 8)).

(** The 32 bits of the key from bit [n] on. *)
Fixpoint window_bits (key : list Z) (n k : nat) : Z :=
  match k with
  | O => 0
  | S k => 2 * window_bits key n k + Z.b2z (bit_at key (n + k))
  end.
Definition window (key : list Z) (n : nat) : Z := window_bits key n 32.

(** The exclusive or of the windows at the bits that are set. *)
Definition toeplitz (key data : list Z) : Z :=
  fold_left (fun h n => if bit_at data n then Z.lxor h (window key n) else h) (seq 0 (8 * length data)) 0.

(** The queue the NIC gives a packet: the table entry the low bits of the hash
    select. *)
Definition nic_queue (RTE_ETH_RETA_GROUP_SIZE : nat) (key : list Z) (reta : list (list Z)) (reta_size : Z) (data : list Z) : Z :=
  let i := Z.to_nat (Z.land (toeplitz key data) (reta_size - 1)) in
  nth (i mod RTE_ETH_RETA_GROUP_SIZE) (nth (i / RTE_ETH_RETA_GROUP_SIZE) reta []) 0.

(** ** Proofs *)

Lemma window_bits_range key n k : 0 <= window_bits key n k < 2 ^ Z.of_nat k.
Proof.
  induction k as [| k IH]; [cbn; lia |]. cbn [window_bits]. rewrite Nat2Z.inj_succ, Z.pow_succ_r by lia.
  destruct (bit_at key (n + k)); cbn; lia.
Qed.

(** A window without its last bit, and without its first. *)
Lemma window_shift key n k :
  window_bits key n (S k) = Z.b2z (bit_at key n) * 2 ^ Z.of_nat k + window_bits key (S n) k.
Proof.
  induction k as [| k IH]; [cbn [window_bits]; rewrite Nat.add_0_r; cbn; lia |].
  change (window_bits key n (S (S k))) with (2 * window_bits key n (S k) + Z.b2z (bit_at key (n + S k))).
  rewrite IH. cbn [window_bits]. replace (S n + k)%nat with (n + S k)%nat by lia.
  rewrite Nat2Z.inj_succ, Z.pow_succ_r by lia. ring.
Qed.

(** Windows of any width one bit further on. *)
Lemma window_bits_next key n k :
  window_bits key (S n) (S k) =
  2 * window_bits key n (S k) - Z.b2z (bit_at key n) * 2 ^ Z.of_nat (S k) + Z.b2z (bit_at key (n + S k)).
Proof.
  rewrite (window_shift key n k). cbn [window_bits]. replace (S n + k)%nat with (n + S k)%nat by lia.
  rewrite Nat2Z.inj_succ, Z.pow_succ_r by lia. ring.
Qed.

Lemma window_next key n : window key (S n) = u32 (2 * window key n) + Z.b2z (bit_at key (n + 32)).
Proof.
  unfold window. rewrite window_bits_next, (window_shift key n 31).
  pose proof (window_bits_range key (S n) 31) as Hr. unfold u32.
  change (2 ^ Z.of_nat 32) with (2 * 2147483648). change (2 ^ Z.of_nat 31) with 2147483648 in *.
  change (2 ^ 32) with 4294967296. generalize dependent (window_bits key (S n) 31). intros w Hr.
  destruct (bit_at key n); cbn [Z.b2z]; f_equal.
  - rewrite <- (Z.mod_add _ (-1)) by lia. rewrite Z.mod_small; lia.
  - rewrite Z.mod_small; lia.
Qed.

Lemma bit_at_byte l i b : (b < 8)%nat -> bit_at l (8 * i + b) = Z.testbit (nth i l 0) (7 - Z.of_nat b).
Proof.
  intros Hb. unfold bit_at. replace ((8 * i + b) / 8)%nat with i by (rewrite Nat.mul_comm, Nat.div_add_l, (Nat.div_small b); lia).
  replace ((8 * i + b) mod 8)%nat with b; [done |]. rewrite Nat.add_comm, Nat.mul_comm, Nat.Div0.mod_add, Nat.mod_small; lia.
Qed.

(** What the code has after the first [n] bits. *)
Definition tz_state (key data : list Z) (n : nat) : Z * Z :=
  (fold_left (fun h m => if bit_at data m then Z.lxor h (window key m) else h) (seq 0 n) 0, window key n).

(** The bytes of the key the code looks at. *)
Lemma key_bit keylen key j x :
  (keylen <= length key)%nat ->
  (j <? keylen)%nat && Z.testbit (nth j key 0) x = Z.testbit (nth j (take keylen key) 0) x.
Proof.
  intros Hl. destruct (Nat.ltb_spec j keylen).
  - now rewrite !nth_lookup, lookup_take_lt.
  - cbn [andb]. rewrite nth_overflow; [now rewrite Z.testbit_0_l | rewrite length_take; lia].
Qed.

Lemma lor_1_even w b : w mod 2 = 0 -> (if b : bool then Z.lor w 1 else w) = w + Z.b2z b.
Proof.
  intros Hw. destruct b; cbn [Z.b2z]; [| lia]. rewrite <- Z.lxor_lor, <- Z.add_nocarry_lxor; [done | |];
    (change 1 with (Z.ones 1); rewrite Z.land_ones by lia; exact Hw).
Qed.

Lemma tz_bit_step keylen key data i b :
  (keylen <= length key)%nat -> (b < 8)%nat ->
  let key' := take keylen key in
  tz_bit keylen key i (nth i data 0) (tz_state key' data (8 * i + b)) b = tz_state key' data (S (8 * i + b)).
Proof.
  intros Hl Hb key'. unfold tz_bit, tz_state. rewrite seq_S, fold_left_app. cbn [fold_left]. rewrite Nat.add_0_l.
  rewrite (bit_at_byte data) by done. f_equal. rewrite window_next, Z.shiftl_mul_pow2 by lia. change (2 ^ 1) with 2.
  rewrite (Z.mul_comm (window key' _)). replace (8 * i + b + 32)%nat with (8 * (i + 4) + b)%nat by lia.
  rewrite bit_at_byte, key_bit by done. apply lor_1_even. unfold u32.
  rewrite <- Znumtheory.Zmod_div_mod; [rewrite Z.mul_comm; apply Z.mod_mul; lia | lia | lia | now exists (2 ^ 31)].
Qed.

Lemma tz_bits_steps keylen key data i n :
  (keylen <= length key)%nat -> (n <= 8)%nat ->
  let key' := take keylen key in
  fold_left (tz_bit keylen key i (nth i data 0)) (seq 0 n) (tz_state key' data (8 * i)) = tz_state key' data (8 * i + n).
Proof.
  intros Hl Hn. cbv zeta. induction n as [| n IH]; [now rewrite Nat.add_0_r |].
  rewrite seq_S, fold_left_app, IH by lia. cbn [fold_left Nat.add]. rewrite tz_bit_step by lia. f_equal. lia.
Qed.

Lemma tz_byte_step keylen key data i :
  (keylen <= length key)%nat ->
  tz_byte keylen key (tz_state (take keylen key) data (8 * i)) (i, nth i data 0) =
  tz_state (take keylen key) data (8 * S i).
Proof.
  intros Hl. pose proof (tz_bits_steps keylen key data i 8 Hl (le_n 8)) as H. cbv zeta in H.
  replace (8 * S i)%nat with (8 * i + 8)%nat by lia. rewrite <- H. reflexivity.
Qed.

Lemma fold_left_cons {A B} (f : A -> B -> A) x l a : fold_left f (x :: l) a = fold_left f l (f a x).
Proof. reflexivity. Qed.

(** The bytes of [data] from byte [i] on. *)
Lemma tz_bytes_steps keylen key data n i :
  (keylen <= length key)%nat -> (i + n = length data)%nat ->
  fold_left (tz_byte keylen key) (zip (seq i n) (drop i data)) (tz_state (take keylen key) data (8 * i)) =
  tz_state (take keylen key) data (8 * (i + n)).
Proof.
  intros Hl. revert i. induction n as [| n IH]; intros i Hi; [now rewrite Nat.add_0_r |].
  destruct (lookup_lt_is_Some_2 data i) as [d Hd]; [lia |]. rewrite (drop_S _ _ _ Hd).
  rewrite <- (nth_lookup_Some _ _ 0 _ Hd). change (seq i (S n)) with (i :: seq (S i) n).
  change (zip (i :: seq (S i) n) (?x :: ?l)) with ((i, x) :: zip (seq (S i) n) l). rewrite fold_left_cons, tz_byte_step, IH by lia. now rewrite Nat.add_succ_comm.
Qed.

Lemma window_bits_app key n a b :
  window_bits key n (a + b) = window_bits key n a * 2 ^ Z.of_nat b + window_bits key (n + a) b.
Proof.
  induction b as [| b IH]; [rewrite Nat.add_0_r; cbn; lia |]. rewrite Nat.add_succ_r. cbn [window_bits].
  rewrite IH, Nat2Z.inj_succ, Z.pow_succ_r, Nat.add_assoc by lia. ring.
Qed.

(** The first bits of a byte. *)
Lemma window_bits_byte key i k :
  is_byte (nth i key 0) -> (k <= 8)%nat -> window_bits key (8 * i) k = nth i key 0 / 2 ^ (8 - Z.of_nat k).
Proof.
  intros Hb Hk. induction k as [| k IH].
  - cbn [window_bits]. unfold is_byte in Hb. now rewrite Z.div_small.
  - cbn [window_bits]. rewrite IH, bit_at_byte, Nat2Z.inj_succ by lia.
    replace (8 - Z.of_nat k) with (Z.succ (8 - Z.succ (Z.of_nat k))) by lia.
    replace (7 - Z.of_nat k) with (8 - Z.succ (Z.of_nat k)) by lia.
    generalize (8 - Z.succ (Z.of_nat k)) as m, (ltac:(lia) : 0 <= 8 - Z.succ (Z.of_nat k)).
    intros m Hm. rewrite Z.pow_succ_r, (Z.mul_comm 2 (2 ^ m)), <- Z.div_div by lia.
    rewrite Z.testbit_spec' by lia. symmetry. apply Z.div_mod. lia.
Qed.

(** The four bytes the code starts with. *)
Lemma window_0 key :
  Forall is_byte key -> (4 <= length key)%nat ->
  window key 0 = u32 (Z.shiftl (nth 0 key 0) 24 + Z.shiftl (nth 1 key 0) 16 + Z.shiftl (nth 2 key 0) 8 + nth 3 key 0).
Proof.
  intros Hb Hl.
  assert (forall i, is_byte (nth i key 0)) as Hn.
  { intros i. destruct (decide (i < length key)%nat) as [Hi | Hi]; [| rewrite nth_overflow by lia; unfold is_byte; lia].
    exact (proj1 (List.Forall_forall _ _) Hb _ (nth_In _ _ Hi)). }
  assert (forall i, window_bits key (8 * i) 8 = nth i key 0) as Hw.
  { intros i. rewrite window_bits_byte by (done || lia). change (2 ^ (8 - Z.of_nat 8)) with 1. apply Z.div_1_r. }
  unfold window. change 32%nat with (8 + (8 + (8 + 8)))%nat. rewrite !window_bits_app.
  rewrite (Hw 0%nat : window_bits key 0 8 = _), (Hw 1%nat : window_bits key (0 + 8) 8 = _),
    (Hw 2%nat : window_bits key (0 + 8 + 8) 8 = _), (Hw 3%nat : window_bits key (0 + 8 + 8 + 8) 8 = _).
  pose proof (Hn 0%nat). pose proof (Hn 1%nat). pose proof (Hn 2%nat). pose proof (Hn 3%nat). unfold is_byte in *.
  rewrite !Z.shiftl_mul_pow2 by lia. unfold u32. rewrite Z.mod_small; change (2 ^ Z.of_nat (8 + (8 + 8))) with (2 ^ 24);
    change (2 ^ Z.of_nat (8 + 8)) with (2 ^ 16); change (2 ^ Z.of_nat 8) with (2 ^ 8); lia.
Qed.

Lemma toeplitz_hash_spec keylen key data :
  Forall is_byte key -> (4 <= keylen <= length key)%nat ->
  toeplitz_hash keylen key data = Some (toeplitz (take keylen key) data).
Proof.
  intros Hb Hl. unfold toeplitz_hash.
  destruct (Nat.ltb_spec (length key) 4); [lia |]. destruct (Nat.ltb_spec (length key) keylen); [lia |]. cbn [orb].
  pose proof (tz_bytes_steps keylen key data (length data) 0 ltac:(lia) eq_refl) as H1.
  pose proof (window_0 (take keylen key)) as H2. rewrite length_take in H2.
  rewrite !nth_lookup, !lookup_take_lt in H2 by lia. rewrite !nth_lookup.
  rewrite <- H2 by (try apply Forall_take; done || lia).
  rewrite Nat.add_0_l in H1. change (drop 0 data) with data in H1. change (8 * 0)%nat with 0%nat in H1.
  change (tz_state (take keylen key) data 0) with (0, window (take keylen key) 0) in H1. rewrite H1. reflexivity.
Qed.

(** ** The check and the NIC *)

Lemma xor_fold (g : nat -> bool) (w : nat -> Z) l h :
  fold_left (fun h n => if g n then Z.lxor h (w n) else h) l h =
  Z.lxor h (fold_left (fun h n => if g n then Z.lxor h (w n) else h) l 0).
Proof.
  revert h. induction l as [| n l IH]; intros h; cbn [fold_left]; [now rewrite Z.lxor_0_r |].
  destruct (g n); [| apply IH]. rewrite IH, (IH (Z.lxor 0 (w n))), Z.lxor_0_l. apply Z.lxor_assoc.
Qed.

Lemma toeplitz_nonneg key data : 0 <= toeplitz key data.
Proof.
  unfold toeplitz. generalize (seq 0 (8 * length data)) as l. intros l. assert (0 <= 0) as H by lia. revert H.
  generalize 0 at 2 4 as h. induction l as [| n l IH]; intros h Hh; cbn [fold_left]; [done |]. apply IH.
  destruct (bit_at data n); [| done]. apply Z.lxor_nonneg.
  pose proof (window_bits_range key n 32). unfold window. lia.
Qed.

Lemma land_below h r : 0 <= h -> 0 < r -> 0 <= Z.land h (r - 1) < r.
Proof.
  intros Hh Hr. split; [apply Z.land_nonneg; lia |]. 
  enough (0 <= Z.land h (r - 1) <= r - 1) by lia. apply Z.ldiff_le; [lia |].
  apply Z.bits_inj'. intros n Hn. rewrite Z.ldiff_spec, Z.land_spec, Z.bits_0. now destruct (Z.testbit h n), (Z.testbit _ n).
Qed.

Lemma nth_map_seq {A} (f : nat -> A) n i d : (i < n)%nat -> nth i (map f (seq 0 n)) d = f i.
Proof. intros Hi. rewrite (nth_indep _ d (f 0%nat)) by (now rewrite length_map, length_seq). now rewrite map_nth, seq_nth. Qed.

Section port.
Context (p : rss_port) (Hkey : Forall is_byte (rsskey p)) (Hlen : (4 <= rsskey_len p <= length (rsskey p))%nat)
  (Hq : 1 < nb_queues p) (Hr : 0 < reta_size p).

Local Notation key := (take (rsskey_len p) (rsskey p)).

Lemma own_queue_spec data :
  own_queue p data = Some (Z.land (toeplitz key data) (reta_size p - 1) mod nb_queues p =? queueid p).
Proof. unfold own_queue. now rewrite toeplitz_hash_spec. Qed.

(** The entry of the table at each index the hash can select. *)
Lemma reta_entry grp i :
  (0 < grp)%nat -> (Z.of_nat i < reta_size p) -> reta_size p < 2 ^ 16 -> (reta_size p <= Z.of_nat grp \/ (Z.of_nat grp | reta_size p)) ->
  nth (i mod grp) (nth (i / grp) (set_rss_table grp (reta_size p) (nb_queues p)) []) 0 =
  Z.of_nat i mod nb_queues p.
Proof.
  intros Hgrp Hi H16 Hg. unfold set_rss_table. rewrite (proj2 (Z.eqb_neq _ _)) by lia.
  pose proof (Nat.mod_upper_bound i grp ltac:(lia)) as Hm. pose proof (Nat.div_mod_eq i grp) as Hd.
  assert (i / grp < Nat.max 1 (Z.to_nat (reta_size p) / grp))%nat as Hlt.
  { destruct Hg as [Hg | [c Hc]].
    - rewrite (Nat.div_small i) by lia. lia.
    - assert (0 <= c) by nia. replace (Z.to_nat (reta_size p)) with (Z.to_nat c * grp)%nat by nia.
      rewrite Nat.div_mul by lia. assert (i / grp < Z.to_nat c)%nat; [| lia].
      apply Nat.Div0.div_lt_upper_bound. nia. }
  rewrite nth_map_seq, nth_map_seq by lia.
  replace (i / grp * grp + i mod grp)%nat with i by lia. unfold u32. now rewrite (Z.mod_small (Z.of_nat i)) by lia.
Qed.

Lemma own_queue_nic grp data :
  (0 < grp)%nat -> reta_size p < 2 ^ 16 -> (reta_size p <= Z.of_nat grp \/ (Z.of_nat grp | reta_size p)) ->
  own_queue p data =
  Some (nic_queue grp key (set_rss_table grp (reta_size p) (nb_queues p)) (reta_size p) data =? queueid p).
Proof.
  intros Hgrp H16 Hg. rewrite own_queue_spec. unfold nic_queue.
  pose proof (land_below _ _ (toeplitz_nonneg key data) Hr) as Hb.
  rewrite reta_entry; [| done | lia | done | done]. now rewrite Z2Nat.id by lia.
Qed.
End port.

(** C8. A process's answer to whether a connection is its own is what the NIC
    does: with the key and the indirection table the code programs, the check
    accepts a 4-tuple, over IPv4 or IPv6, exactly when the NIC puts packets that
    carry it in the process's queue. *)
Theorem rss_check_matches_nic (p : rss_port) (grp : nat) (Hgrp : (0 < grp)%nat)
    (Hkey : Forall is_byte (rsskey p)) (Hlen : (4 <= rsskey_len p <= length (rsskey p))%nat)
    (Hq : 1 < nb_queues p) (Hr : 0 < reta_size p < 2 ^ 16) (Hg : reta_size p <= Z.of_nat grp \/ (Z.of_nat grp | reta_size p))
    (nic := nic_queue grp (take (rsskey_len p) (rsskey p)) (set_rss_table grp (reta_size p) (nb_queues p)) (reta_size p)) :
  (forall saddr daddr sport dport,
      ff_rss_check p saddr daddr sport dport = Some (nic (tuple4 saddr daddr sport dport) =? queueid p)) /\
  (forall saddr6 daddr6 sport dport,
      ff_rss_check6 p saddr6 daddr6 sport dport = Some (nic (tuple6 saddr6 daddr6 sport dport) =? queueid p)).
Proof.
  split; intros; unfold ff_rss_check, ff_rss_check6; rewrite (proj2 (Z.leb_gt _ _)) by lia;
    apply own_queue_nic; (done || lia).
Qed.

(** Every connection has exactly one owner: of the processes that share a
    port, one for each queue, the check of one and only one accepts a 4-tuple. *)
Theorem rss_one_owner (key : list Z) (keylen : nat) (nbq reta saddr daddr sport dport : Z)
    (Hkey : Forall is_byte key) (Hlen : (4 <= keylen <= length key)%nat) (Hq : 1 < nbq) (Hr : 0 < reta) :
  exists q, 0 <= q < nbq /\
    forall q', 0 <= q' < nbq ->
      ff_rss_check (RssPort key keylen nbq reta q') saddr daddr sport dport = Some (q' =? q).
Proof.
  exists (Z.land (toeplitz (take keylen key) (tuple4 saddr daddr sport dport)) (reta - 1) mod nbq).
  split; [apply Z.mod_pos_bound; lia |]. intros q' Hq'. unfold ff_rss_check. cbn [nb_queues].
  rewrite (proj2 (Z.leb_gt _ _)) by lia. rewrite own_queue_spec by done.
  cbn [rsskey rsskey_len reta_size nb_queues queueid]. now rewrite Z.eqb_sym.
Qed.

(** A port whose key has a size the code has no key for: the null key is read
    when there are several queues. *)
Theorem rss_check_null_key (hash_key_size saddr daddr sport dport nbq reta q : Z) (sym : bool) :
  hash_key_size <> 40 -> hash_key_size <> 52 -> sym = false \/ hash_key_size = 0 -> 1 < nbq ->
  ff_rss_check (RssPort (fst (select_rsskey hash_key_size sym)) (snd (select_rsskey hash_key_size sym)) nbq reta q)
    saddr daddr sport dport = None.
Proof.
  intros H40 H52 Hs Hq. unfold select_rsskey. rewrite !(proj2 (Z.eqb_neq _ _)) by done.
  unfold ff_rss_check. cbn [nb_queues]. rewrite (proj2 (Z.leb_gt _ _)) by lia.
  destruct Hs as [-> | ->]; [reflexivity |]. now rewrite andb_false_r.
Qed.

(** ** The symmetric key *)

(** The hash of bytes that start at bit [off] of the input. *)
Definition toe (key : list Z) (off : nat) (data : list Z) : Z :=
  fold_left (fun h n => if bit_at data n then Z.lxor h (window key (off + n)) else h) (seq 0 (8 * length data)) 0.

Lemma bit_at_app_l a b n : (n < 8 * length a)%nat -> bit_at (a ++ b) n = bit_at a n.
Proof. intros Hn. unfold bit_at. rewrite app_nth1; [done |]. apply Nat.Div0.div_lt_upper_bound. lia. Qed.

Lemma bit_at_app_r a b n : bit_at (a ++ b) (8 * length a + n) = bit_at b n.
Proof.
  unfold bit_at. rewrite Nat.mul_comm, Nat.div_add_l by lia. rewrite app_nth2_plus.
  rewrite Nat.add_comm, Nat.Div0.mod_add. done.
Qed.

Lemma xor_seq_ext (g g' : nat -> bool) (w w' : nat -> Z) a a' n h :
  (forall i, (i < n)%nat -> g (a + i)%nat = g' (a' + i)%nat /\ (g (a + i)%nat = true -> w (a + i)%nat = w' (a' + i)%nat)) ->
  fold_left (fun h n => if g n then Z.lxor h (w n) else h) (seq a n) h =
  fold_left (fun h n => if g' n then Z.lxor h (w' n) else h) (seq a' n) h.
Proof.
  induction n as [| n IH]; intros H; [done |]. rewrite !seq_S, !fold_left_app, IH by (intros; apply H; lia).
  cbn [fold_left]. destruct (H n) as [<- Hw]; [lia |]. destruct (g (a + n)%nat); [now rewrite Hw | done].
Qed.

Lemma toe_app key off a b : toe key off (a ++ b) = Z.lxor (toe key off a) (toe key (off + 8 * length a) b).
Proof.
  unfold toe. rewrite length_app, Nat.mul_add_distr_l, seq_app, fold_left_app, xor_fold. f_equal.
  - apply (xor_seq_ext _ _ (fun n => window key (off + n)) (fun n => window key (off + n))). intros i Hi.
    now rewrite bit_at_app_l by lia.
  - apply (xor_seq_ext _ _ (fun n => window key (off + n)) (fun n => window key (off + 8 * length a + n))). intros i Hi.
    rewrite Nat.add_0_l, bit_at_app_r, Nat.add_assoc. done.
Qed.

(** The windows of the symmetric key repeat every 16 bits. *)
Lemma symmetric_windows keylen n :
  keylen = 40%nat \/ keylen = 52%nat -> (n < 288)%nat ->
  window (take keylen symmetric_rsskey) n = window symmetric_rsskey (n mod 16).
Proof.
  intros Hk Hn.
  assert (forallb (fun n => window (take 40 symmetric_rsskey) n =? window symmetric_rsskey (n mod 16)) (seq 0 288) = true) as H40
    by (vm_compute; reflexivity).
  assert (forallb (fun n => window (take 52 symmetric_rsskey) n =? window symmetric_rsskey (n mod 16)) (seq 0 288) = true) as H52
    by (vm_compute; reflexivity).
  rewrite forallb_forall in H40, H52. apply Z.eqb_eq.
  destruct Hk as [-> | ->]; [apply H40 | apply H52]; apply in_seq; lia.
Qed.

Lemma toe_symmetric keylen off data :
  keylen = 40%nat \/ keylen = 52%nat -> (off mod 16 = 0)%nat -> (off + 8 * length data <= 288)%nat ->
  toe (take keylen symmetric_rsskey) off data = toe symmetric_rsskey 0 data.
Proof.
  intros Hk Ho Hl. unfold toe.
  apply (xor_seq_ext _ _ (fun n => window (take keylen symmetric_rsskey) (off + n)) (fun n => window symmetric_rsskey (0 + n))).
  intros i Hi. split; [done |]. intros _. rewrite symmetric_windows by (done || lia).
  rewrite (Nat.Div0.add_mod off), Ho, !Nat.add_0_l, Nat.Div0.mod_mod.
  rewrite <- (symmetric_windows 52 i) by (tauto || lia). reflexivity.
Qed.

(** The hash of a tuple under the symmetric key, its two addresses of [2 k]
    bytes each and its two ports. *)
Lemma symmetric_tuple keylen k x x' y y' :
  keylen = 40%nat \/ keylen = 52%nat -> (k <= 8)%nat ->
  (length x = 2 * k)%nat -> (length x' = 2 * k)%nat -> length y = 2%nat -> length y' = 2%nat ->
  toeplitz (take keylen symmetric_rsskey) (x ++ x' ++ y ++ y') =
  Z.lxor (Z.lxor (toe symmetric_rsskey 0 x) (toe symmetric_rsskey 0 x'))
         (Z.lxor (toe symmetric_rsskey 0 y) (toe symmetric_rsskey 0 y')).
Proof.
  intros Hl Hk Hx Hx' Hy Hy'. change (toeplitz ?k ?d) with (toe k 0 d). rewrite !toe_app, Hx, Hx', Hy, Nat.add_0_l.
  replace (8 * (2 * k))%nat with (k * 16)%nat by lia. replace (k * 16 + k * 16)%nat with ((k + k) * 16)%nat by lia.
  replace ((k + k) * 16 + 8 * 2)%nat with ((k + k + 1) * 16)%nat by lia.
  rewrite !toe_symmetric by (apply Nat.Div0.mod_mul || done || lia). now rewrite !Z.lxor_assoc.
Qed.

Lemma own_queue_swap p k x x' y y' :
  rsskey p = symmetric_rsskey -> rsskey_len p = 40%nat \/ rsskey_len p = 52%nat -> (k <= 8)%nat ->
  (length x = 2 * k)%nat -> (length x' = 2 * k)%nat -> length y = 2%nat -> length y' = 2%nat ->
  own_queue p (x ++ x' ++ y ++ y') = own_queue p (x' ++ x ++ y' ++ y).
Proof.
  intros Hk Hl H8 Hx Hx' Hy Hy'. unfold own_queue. rewrite Hk.
  assert (Forall is_byte symmetric_rsskey) as Hb by (repeat constructor; done).
  rewrite !toeplitz_hash_spec by (try done; destruct Hl as [-> | ->]; cbn; lia).
  rewrite !(symmetric_tuple _ k) by done.
  rewrite (Z.lxor_comm (toe _ 0 x)), (Z.lxor_comm (toe _ 0 y)). reflexivity.
Qed.

(** C13. With the symmetric key the two directions of a connection belong to the
    same process: the check gives the same answer for a 4-tuple and for the
    tuple of the packets that come back.  The symmetric key is what the port
    gets when [symmetric_rss] is set, the card takes keys of 40 or 52 bytes, and
    there is one queue or [thash_adjust] is switched off; by default it is on,
    and with several queues the key is replaced by one that DPDK computes
    from it ([symmetric_key_replaced]). *)
Theorem symmetric_rss_both_directions {ctx} `{!Thash ctx} (p : rss_port) (hash_key_size nbq reta : Z)
    (is_primary malloc_ok : bool) (cfg : option rss_cfg) (k : key_state)
    (Hs : let k' := init_rsskey is_primary malloc_ok hash_key_size true cfg nbq reta k in
          (rsskey p, rsskey_len p) = (ks_key k', ks_len k'))
    (Hh : hash_key_size = 40 \/ hash_key_size = 52)
    (Hadjust : nbq <= 1 \/ (thash_adjust <$> cfg) = Some false) :
  (forall saddr daddr sport dport, ff_rss_check p saddr daddr sport dport = ff_rss_check p daddr saddr dport sport) /\
  (forall saddr6 daddr6 sport dport, length saddr6 = 16%nat -> length daddr6 = 16%nat ->
     ff_rss_check6 p saddr6 daddr6 sport dport = ff_rss_check6 p daddr6 saddr6 dport sport).
Proof.
  assert (rsskey p = symmetric_rsskey /\ (rsskey_len p = 40%nat \/ rsskey_len p = 52%nat)) as [Hk Hl].
  { cbv zeta in Hs. unfold init_rsskey in Hs.
    assert (((1 <? nbq) && match cfg with Some c => thash_adjust c | None => true end) = false) as E.
    { destruct Hadjust as [? | Ha]; [lia |]. destruct cfg as [c |]; [| done]. injection Ha as ->. apply andb_false_r. }
    destruct Hh as [-> | ->]; cbn in Hs; cbn in E; rewrite E in Hs; injection Hs; auto. }
  split; intros; unfold ff_rss_check, ff_rss_check6; (destruct (nb_queues p <=? 1); [done |]).
  - apply (own_queue_swap p 2); rewrite ?length_le_bytes; (done || lia).
  - apply (own_queue_swap p 8); rewrite ?length_le_bytes, ?length_take; (done || lia).
Qed.

(** With several queues and [thash_adjust] on, as by default, the key of the
    port is the one DPDK answers, whichever was selected. *)
Theorem symmetric_key_replaced {ctx} `{!Thash ctx} (hash_key_size nbq reta : Z) (cfg : option rss_cfg) (k : key_state)
    (key4 key6 : list Z) :
  hash_key_size = 40 \/ hash_key_size = 52 -> 1 < nbq -> 2 <= reta -> (thash_adjust <$> cfg) <> Some false ->
  ks_built k = false ->
  let len := Z.to_nat hash_key_size in
  thash_key true false FF_RSS_THASH_V4_SPORT_OFF len (ff_rss_reta_log2 reta) symmetric_rsskey = Some key4 ->
  thash_key true true FF_RSS_THASH_V6_SPORT_OFF len (ff_rss_reta_log2 reta) (take len key4) = Some key6 ->
  ks_key (init_rsskey true true hash_key_size true cfg nbq reta k) = take len key6.
Proof.
  intros Hh Hn Hr Ha Hb len H4 H6. unfold init_rsskey.
  assert (select_rsskey hash_key_size true = (symmetric_rsskey, len)) as -> by (unfold len; now destruct Hh as [-> | ->]).
  assert (match cfg with Some c => thash_adjust c | None => true end = true) as Ea
    by (destruct cfg as [[[] ?] |]; [done | now destruct Ha | done]).
  rewrite Ea, (proj2 (Z.ltb_lt _ _) Hn). cbn [andb]. unfold ff_rss_thash_build_key. rewrite Ea. cbn [negb ks_len ks_key ks_built upd].
  assert ((len =? 0)%nat = false /\ (64 <? len)%nat = false) as [-> ->] by (unfold len; now destruct Hh as [-> | ->]).
  rewrite (bool_decide_eq_false_2 (symmetric_rsskey = [])) by done. rewrite Hb, (proj2 (Z.ltb_ge _ _)) by lia.
  cbn [orb]. rewrite H4. cbv zeta. now rewrite H6.
Qed.

(** ** Looking for a local port *)

Lemma htons_involutive x : 0 <= x < 65536 -> htons (htons x) = x.
Proof. intros Hx. unfold htons. zdiv. Qed.

Lemma htons_range x : 0 <= htons x < 65536.
Proof. unfold htons. zdiv. Qed.

Section adjust_proofs.
Context (adjust : nat -> list Z -> Z -> option (list Z)) (p : rss_port) (cfg : option rss_cfg).
Context (check : Z -> option bool) (mk : Z -> list Z) (off : nat).
Context (Hq : 0 <= queueid p < nb_queues p) (Hr : queueid p < reta_size p).

(** A table entry of the process's queue. *)
Definition own_entry (d : Z) : Prop := 0 <= d /\ d mod nb_queues p = queueid p.

Lemma own_entry_clamp d : own_entry d -> own_entry (if reta_size p <=? d then queueid p else d).
Proof. intros [H0 Hm]. destruct (_ <=? _); [split; [lia | apply Z.mod_small; lia] | done]. Qed.

Lemma own_entry_next d : own_entry d -> own_entry (d + nb_queues p).
Proof. intros [H0 Hm]. split; [lia |]. rewrite <- Hm, <- (Z.mul_1_l (nb_queues p)) at 1. apply Z.mod_add. lia. Qed.

(** What a port the loop returns is: the answer of one call for an entry of
    the queue, in the range, and confirmed by the check when that is asked. *)
Definition adjusted (base first last port : Z) : Prop :=
  exists t d tuple, own_entry d /\ d < reta_size p /\
    adjust t (mk (htons base)) (Z.land d (reta_size p - 1)) = Some tuple /\
    port = htons (le_word (take 2 (drop off tuple))) /\ first <= port <= last /\
    (from_option recheck false cfg = true -> check (le_word (take 2 (drop off tuple))) = Some true).

Lemma adjust_loop_result base first last n tries desired port :
  own_entry desired ->
  adjust_loop adjust check mk off p cfg base first last n tries desired = Some (Some port) ->
  adjusted base first last port.
Proof.
  revert tries desired. induction n as [| n IH]; intros tries desired Hd H; [done |].
  cbn [adjust_loop] in H. pose proof (own_entry_clamp _ Hd) as Hd'.
  assert ((if reta_size p <=? desired then queueid p else desired) < reta_size p) as Hlt
    by (destruct (Z.leb_spec (reta_size p) desired); lia).
  set (d := if reta_size p <=? desired then queueid p else desired) in *.
  specialize (IH (S tries) _ (own_entry_next _ Hd')).
  destruct (adjust tries _ _) as [tuple |] eqn:Ha; [| now apply IH].
  destruct (_ || _) eqn:Hrange; [now apply IH |]. apply orb_false_iff in Hrange as [H1%Z.ltb_ge H2%Z.ltb_ge].
  change (match cfg with Some c => recheck c | None => false end) with (from_option recheck false cfg) in H.
  destruct (from_option recheck false cfg) eqn:Hc; cbn [negb] in H.
  - destruct (check _) as [[|] |] eqn:Hk in H; cbn in H; [| now apply IH | done].
    injection H as <-. now exists tries, d, tuple.
  - injection H as <-. exists tries, d, tuple. now rewrite Hc.
Qed.

(** When every answer of the library is a port in the range that the check
    accepts, the loop returns one of them, or the library has failed at every
    try. *)
Lemma adjust_loop_total base first last n tries desired :
  (forall t d tuple, own_entry d -> d < reta_size p ->
     adjust t (mk (htons base)) (Z.land d (reta_size p - 1)) = Some tuple ->
     let sport := le_word (take 2 (drop off tuple)) in first <= htons sport <= last /\ check sport = Some true) ->
  own_entry desired ->
  exists r, adjust_loop adjust check mk off p cfg base first last n tries desired = Some r /\
    (r = None -> forall t, (t < n)%nat ->
       exists d, own_entry d /\ adjust (tries + t) (mk (htons base)) (Z.land d (reta_size p - 1)) = None).
Proof.
  intros Hgood. revert tries desired. induction n as [| n IH]; intros tries desired Hd.
  { exists None. split; [done |]. intros _ t Ht. lia. }
  cbn [adjust_loop]. pose proof (own_entry_clamp _ Hd) as Hd'.
  assert ((if reta_size p <=? desired then queueid p else desired) < reta_size p) as Hlt
    by (destruct (Z.leb_spec (reta_size p) desired); lia).
  set (d := if reta_size p <=? desired then queueid p else desired) in *.
  destruct (adjust tries _ _) as [tuple |] eqn:Ha.
  - destruct (Hgood _ _ _ Hd' Hlt Ha) as [Hrange Hk]. rewrite (proj2 (Z.ltb_ge _ first)), (proj2 (Z.ltb_ge last _)) by lia.
    cbn [orb]. rewrite Hk. destruct (negb _); eexists; (split; [reflexivity | done]).
  - destruct (IH (S tries) _ (own_entry_next _ Hd')) as (r & -> & Hr'). exists r. split; [done |]. intros -> [| t] Ht.
    + exists d. now rewrite Nat.add_0_r.
    + rewrite <- Nat.add_succ_comm. apply Hr'; [done | lia].
Qed.
End adjust_proofs.

Lemma align_down x k : 0 <= x < 2 ^ 32 -> 0 <= k -> Z.land x (u32 (Z.lnot (2 ^ k - 1))) = x / 2 ^ k * 2 ^ k.
Proof.
  intros Hx Hk. unfold u32. rewrite <- Z.land_ones, (Z.land_comm (Z.lnot _)), Z.land_assoc, (Z.land_ones x) by lia.
  rewrite (Z.mod_small x) by lia. rewrite <- Z.ldiff_land. replace (2 ^ k - 1) with (Z.ones k) by (rewrite Z.ones_equiv; lia).
  now rewrite Z.ldiff_ones_r, Z.shiftl_mul_pow2, Z.shiftr_div_pow2 by lia.
Qed.

(** The block of ports the seed is taken from. *)
Lemma port_blocks_range k first last base nblocks r :
  0 <= k <= 16 -> 0 <= first -> last < 65536 -> port_blocks (2 ^ k) first last = Some (base, nblocks) ->
  0 <= r < nblocks ->
  let base' := u16 (base + r * 2 ^ k) in
  base' mod 2 ^ k = 0 /\ first <= base' /\ base' + 2 ^ k - 1 <= last /\ 0 < nblocks.
Proof.
  intros Hk Hf Hl H Hr base'. unfold port_blocks in H.
  pose proof (Z.pow_pos_nonneg 2 k) as H0. pose proof (Z.pow_le_mono_r 2 k 16) as H16. change (2 ^ 16) with 65536 in H16.
  destruct (Z.ltb_spec last first); [done |]. set (R := 2 ^ k) in *.
  assert (u32 (first + R - 1) = first + R - 1) as Hu by (apply Z.mod_small; lia). rewrite Hu in H.
  subst R. rewrite align_down in H by lia. set (R := 2 ^ k) in *. clearbody R.
  set (c := (first + R - 1) / R) in *. assert (0 <= c) as Hc by (apply Z.div_pos; lia).
  assert (first <= c * R < first + R) as Hcr by (pose proof (Z.mod_pos_bound (first + R - 1) R); pose proof (Z.div_mod (first + R - 1) R); lia).
  destruct (_ || _) eqn:Hb; [done |]. apply orb_false_iff in Hb as [Hb1%Z.ltb_ge Hb2%Z.ltb_ge].
  assert (u16 (c * R) = c * R) as Hw by (unfold u16 in *; change (2 ^ 16) with 65536 in *; clear H Hb2; zdiv).
  rewrite Hw in *. unfold u32 in Hb2. rewrite Z.mod_small in Hb2 by lia.
  set (N := (last - c * R + 1) / R) in *.
  assert (0 <= N /\ N * R <= last - c * R + 1) as [HN HNR].
  { split; [apply Z.div_pos; lia |]. rewrite Z.mul_comm. apply Z.mul_div_le. lia. }
  destruct (Z.eqb_spec (u16 N) 0); [done |]. injection H as <- <-.
  assert (u16 N <= N) as HuN by (apply Z.mod_le; lia).
  assert (r * R + R <= N * R) as Hrr by nia.
  assert (base' = (c + r) * R) as -> by (unfold base', u16; rewrite Z.mod_small; nia).
  rewrite Z.mod_mul by lia. nia.
Qed.

(** What DPDK documents of [rte_thash_adjust_tuple] for a helper over the last
    16 bits of the tuple, which start at byte [off]: it changes only the [k] low
    bits of that port, and the low [k] bits of the hash become [v]. *)
Class ThashAdjust (adjust : nat -> list Z -> Z -> option (list Z)) (key : list Z) (off : nat) (k : Z) : Prop := {
  adjust_prefix n t v t' : length t = (off + 2)%nat -> adjust n t v = Some t' ->
    exists b0 b1, is_byte b0 /\ is_byte b1 /\ t' = take off t ++ [b0; b1];
  adjust_high n t v t' : length t = (off + 2)%nat -> adjust n t v = Some t' ->
    htons (le_word (drop off t')) / 2 ^ k = htons (le_word (drop off t)) / 2 ^ k;
  adjust_hash n t v t' : length t = (off + 2)%nat -> adjust n t v = Some t' -> Z.land (toeplitz key t') (2 ^ k - 1) = v }.

(** The first bytes of a tuple and its last port. *)
Lemma adjusted_tuple adjust key off k n (mk : Z -> list Z) seed v t' `{!ThashAdjust adjust key off k} :
  (forall x, exists pre, length pre = off /\ mk x = pre ++ le_bytes 2 x) -> (forall x y, take off (mk x) = take off (mk y)) ->
  0 <= seed < 65536 -> adjust n (mk seed) v = Some t' ->
  let sport := le_word (take 2 (drop off t')) in
  t' = mk sport /\ 0 <= sport < 65536 /\ htons sport / 2 ^ k = htons seed / 2 ^ k.
Proof.
  intros Hmk Hpre Hs Ha sport. destruct (Hmk seed) as (pre & Hp & Hseed).
  assert (length (mk seed) = (off + 2)%nat) as Hlen by (rewrite Hseed, length_app, length_le_bytes; lia).
  destruct (adjust_prefix _ _ _ _ Hlen Ha) as (b0 & b1 & H0 & H1 & Ht). unfold is_byte in *.
  pose proof (adjust_high _ _ _ _ Hlen Ha) as Hh.
  assert (take off (mk seed) = pre) as Htake by (rewrite Hseed; subst off; apply take_app_length).
  assert (drop off (mk seed) = le_bytes 2 seed) as Hdrop by (rewrite Hseed; subst off; apply drop_app_length).
  rewrite Htake in Ht. assert (drop off t' = [b0; b1]) as Hd by (rewrite Ht; subst off; apply drop_app_length).
  unfold sport. rewrite Hd in *. cbn [take le_word] in *.
  rewrite Hdrop, le_word_le_bytes, Z.mod_small in Hh by (change (256 ^ Z.of_nat 2) with 65536; lia).
  split; [| split; [lia | exact Hh]].
  destruct (Hmk (b0 + 256 * (b1 + 256 * 0))) as (pre' & Hp' & Hmk'). pose proof (Hpre seed (b0 + 256 * (b1 + 256 * 0))) as Hpp.
  rewrite Htake, Hmk' in Hpp. subst off. rewrite <- Hp', take_app_length in Hpp. subst pre'. rewrite Ht, Hmk'.
  do 2 f_equal. cbn [le_bytes]. f_equal; [zdiv | f_equal; zdiv].
Qed.

Lemma port_blocks_pos reta first last base nblocks : port_blocks reta first last = Some (base, nblocks) -> 0 < nblocks.
Proof.
  unfold port_blocks. intros H. repeat case_match; try done. injection H as _ <-.
  pose proof (Z.mod_pos_bound ((last - u16 (Z.land (u32 (first + reta - 1)) (u32 (Z.lnot (reta - 1)))) + 1) / reta) (2 ^ 16)).
  unfold u16 in *. lia.
Qed.

(** Why no port is found: the code does not look, the range holds no aligned
    block, or the library fails at every try. *)
Definition no_port (adjust : nat -> list Z -> Z -> option (list Z)) (p : rss_port) (cfg : option rss_cfg) (ready : bool) (mk : Z -> list Z) (first last : Z) : Prop :=
  ready = false \/ from_option thash_adjust true cfg = false \/ nb_queues p <= 1 \/
  port_blocks (reta_size p) first last = None \/
  exists seed, forall t, (t < Z.to_nat ((reta_size p + nb_queues p - 1) / nb_queues p))%nat ->
    exists d, own_entry p d /\ adjust t (mk seed) (Z.land d (reta_size p - 1)) = None.

Section adjust_body.
Context (adjust : nat -> list Z -> Z -> option (list Z)) (p : rss_port) (cfg : option rss_cfg) (k : Z) (off : nat)
  (check : Z -> option bool) (mk : Z -> list Z).
Context (Hkey : Forall is_byte (rsskey p)) (Hlen : (4 <= rsskey_len p <= length (rsskey p))%nat)
  (Hreta : reta_size p = 2 ^ k) (Hk : 0 <= k < 16) (Hq : 0 <= queueid p < nb_queues p) (Hqr : queueid p < reta_size p)
  (Hnb : nb_queues p < 65536)
  `{!ThashAdjust adjust (take (rsskey_len p) (rsskey p)) off k}.
Context (Hcheck : 1 < nb_queues p -> forall x, check x = own_queue p (mk x))
  (Hmk : forall x, exists pre, length pre = off /\ mk x = pre ++ le_bytes 2 x)
  (Hpre : forall x y, take off (mk x) = take off (mk y)).

(** Every answer of the library is a port of the seed's block whose packets
    come to the process's queue. *)
Lemma answer_good base first last t d tuple :
  1 < nb_queues p -> 0 <= base < 65536 -> base mod 2 ^ k = 0 -> first <= base -> base + 2 ^ k - 1 <= last ->
  own_entry p d -> d < reta_size p -> adjust t (mk (htons base)) (Z.land d (reta_size p - 1)) = Some tuple ->
  let sport := le_word (take 2 (drop off tuple)) in
  0 <= sport < 65536 /\ first <= htons sport <= last /\ check sport = Some true.
Proof.
  intros Hnq Hb Hal Hf Hl [Hd Hdm] Hdr Ha sport.
  destruct (adjusted_tuple _ _ _ _ _ _ _ _ _ Hmk Hpre (htons_range base) Ha) as (Ht & Hs & Hh). fold sport in Ht, Hs, Hh.
  rewrite htons_involutive in Hh by done. pose proof (Z.pow_pos_nonneg 2 k ltac:(lia) ltac:(lia)) as Hp.
  split; [done |]. split.
  - pose proof (Z.div_mod (htons sport) (2 ^ k) ltac:(lia)) as E1. pose proof (Z.div_mod base (2 ^ k) ltac:(lia)) as E2.
    rewrite Hh in E1. pose proof (Z.mod_pos_bound (htons sport) (2 ^ k)). lia.
  - rewrite Hcheck, own_queue_spec by done. do 2 f_equal. apply Z.eqb_eq. rewrite <- Ht, Hreta.
    assert (length (mk (htons base)) = (off + 2)%nat) as Hlm
      by (destruct (Hmk (htons base)) as (pre & <- & ->); now rewrite length_app, length_le_bytes).
    rewrite (adjust_hash _ _ _ _ Hlm Ha), Hreta. rewrite <- Hdm. f_equal.
    replace (2 ^ k - 1) with (Z.ones k) by (rewrite Z.ones_equiv; lia). rewrite Z.land_ones by lia. apply Z.mod_small. lia.
Qed.

Lemma adjust_body_spec ready first last r1 r2 :
  0 <= first -> last < 65536 ->
  exists r, adjust_body adjust check mk off p cfg ready first last r1 r2 = Some r /\
    match r with
    | Some port => first <= port <= last /\ check (htons port) = Some true
    | None => no_port adjust p cfg ready mk first last
    end.
Proof.
  intros Hf Hl. unfold adjust_body, no_port.
  destruct ready; cbn [negb]; [| eexists; split; [reflexivity | now left]].
  replace (match cfg with Some c => negb (thash_adjust c) | None => false end) with (negb (from_option thash_adjust true cfg))
    by (now destruct cfg).
  destruct (from_option thash_adjust true cfg); cbn [negb]; [| eexists; split; [reflexivity | tauto]].
  destruct (Z.leb_spec (nb_queues p) 1) as [Hn | Hn]; [eexists; split; [reflexivity | tauto] |].
  destruct (port_blocks _ _ _) as [[base nblocks] |] eqn:Hpb; [| eexists; split; [reflexivity | tauto]].
  rewrite Hreta in Hpb. pose proof (port_blocks_pos _ _ _ _ _ Hpb) as Hnb0.
  destruct (port_blocks_range k _ _ _ _ (r1 mod nblocks) ltac:(lia) Hf Hl Hpb (Z.mod_pos_bound r1 nblocks Hnb0)) as (Hal & Hbf & Hbl & _).
  rewrite <- Hreta in Hal, Hbf, Hbl. set (b := u16 (base + r1 mod nblocks * reta_size p)) in *.
  set (per := (reta_size p + nb_queues p - 1) / nb_queues p).
  set (d := u32 (queueid p + r2 mod per * nb_queues p)). assert (0 <= b < 65536) as Hb by (apply Z.mod_pos_bound; lia).
  assert (own_entry p d) as Hd.
  { assert (0 < per) as Hper by (apply Z.div_str_pos; lia). pose proof (Z.mod_pos_bound r2 per Hper) as Hrp.
    assert (per * nb_queues p <= reta_size p + nb_queues p - 1) as Hpn by (rewrite Z.mul_comm; apply Z.mul_div_le; lia).
    pose proof (Z.pow_lt_mono_r 2 k 16 ltac:(lia) ltac:(lia) ltac:(lia)) as H16. unfold d, u32.
    rewrite Z.mod_small by nia. split; [nia |]. rewrite Z.mod_add by lia. apply Z.mod_small. lia. }
  pose proof (own_entry_clamp p Hq _ Hd) as Hd'.
  assert (forall t d tuple, own_entry p d -> d < reta_size p -> adjust t (mk (htons b)) (Z.land d (reta_size p - 1)) = Some tuple ->
    let sport := le_word (take 2 (drop off tuple)) in 0 <= sport < 65536 /\ first <= htons sport <= last /\ check sport = Some true) as Hgood
    by (intros; eapply answer_good; eauto; rewrite <- ?Hreta; lia).
  destruct (adjust_loop_total adjust p cfg check mk off Hq Hqr b first last (Z.to_nat per) 0 _
    ltac:(intros t' d' tu' Ho Hlt Ha; apply (Hgood t' d' tu' Ho Hlt Ha)) Hd') as (r & Hrun & Hnone).
  exists r. split; [exact Hrun |]. destruct r as [port |].
  - destruct (adjust_loop_result adjust p cfg check mk off Hq Hqr _ _ _ _ _ _ _ Hd' Hrun) as (t & d' & tu & Ho & Hlt & Ha & -> & Hrange & _).
    destruct (Hgood _ _ _ Ho Hlt Ha) as (Hs & _ & Hck). split; [done |]. now rewrite htons_involutive.
  - do 4 right. exists (htons b). exact (Hnone eq_refl).
Qed.
End adjust_body.

Lemma tuple4_port saddr daddr dport x :
  tuple4 saddr daddr dport x = (le_bytes 4 saddr ++ le_bytes 4 daddr ++ le_bytes 2 dport) ++ le_bytes 2 x.
Proof. unfold tuple4. now rewrite <- !app_assoc. Qed.

Lemma tuple6_port saddr6 daddr6 dport x :
  tuple6 saddr6 daddr6 dport x = (take 16 saddr6 ++ take 16 daddr6 ++ le_bytes 2 dport) ++ le_bytes 2 x.
Proof. unfold tuple6. now rewrite <- !app_assoc. Qed.

(** C12. Looking for a local port of a connection always comes back with an
    answer.  A port it finds is in the range asked for, and the packets that come
    back to it reach the process's own queue, whether or not the code is
    configured to check that; none is found only if the search is switched off or
    pointless, the range has no aligned block of ports, or DPDK failed at every
    entry of the table that leads to the queue. *)
Theorem adjust_sport_lands (adjust : nat -> list Z -> Z -> option (list Z)) (p : rss_port) (cfg : option rss_cfg)
    (ready : bool) (k saddr daddr dport first last r1 r2 : Z)
    (Hkey : Forall is_byte (rsskey p)) (Hlen : (4 <= rsskey_len p <= length (rsskey p))%nat)
    (Hreta : reta_size p = 2 ^ k) (Hk : 0 <= k < 16) (Hq : 0 <= queueid p < nb_queues p) (Hqr : queueid p < reta_size p)
    (Hnb : nb_queues p < 65536) (Hadj : ThashAdjust adjust (take (rsskey_len p) (rsskey p)) 10 k)
    (Hf : 0 <= first) (Hl : last < 65536) :
  exists r, ff_rss_adjust_sport adjust p cfg ready saddr daddr dport first last r1 r2 = Some r /\
    match r with
    | Some port => first <= port <= last /\ ff_rss_check p saddr daddr dport (htons port) = Some true
    | None => no_port adjust p cfg ready (tuple4 saddr daddr dport) first last
    end.
Proof.
  apply (adjust_body_spec adjust p cfg k 10 (ff_rss_check p saddr daddr dport) (tuple4 saddr daddr dport)); try done.
  - intros Hn x. unfold ff_rss_check. now rewrite (proj2 (Z.leb_gt _ _)) by lia.
  - intros x. eexists. split; [| apply tuple4_port]. now rewrite !length_app, !length_le_bytes.
Qed.

(** The same over IPv6. *)
Theorem adjust_sport6_lands (adjust : nat -> list Z -> Z -> option (list Z)) (p : rss_port) (cfg : option rss_cfg)
    (ready : bool) (k dport first last r1 r2 : Z) (saddr6 daddr6 : list Z)
    (Hkey : Forall is_byte (rsskey p)) (Hlen : (4 <= rsskey_len p <= length (rsskey p))%nat)
    (Hreta : reta_size p = 2 ^ k) (Hk : 0 <= k < 16) (Hq : 0 <= queueid p < nb_queues p) (Hqr : queueid p < reta_size p)
    (Hnb : nb_queues p < 65536) (Hadj : ThashAdjust adjust (take (rsskey_len p) (rsskey p)) 34 k)
    (Hf : 0 <= first) (Hl : last < 65536) (Hs : length saddr6 = 16%nat) (Hd : length daddr6 = 16%nat) :
  exists r, ff_rss_adjust_sport6 adjust p cfg ready saddr6 daddr6 dport first last r1 r2 = Some r /\
    match r with
    | Some port => first <= port <= last /\ ff_rss_check6 p saddr6 daddr6 dport (htons port) = Some true
    | None => no_port adjust p cfg ready (tuple6 saddr6 daddr6 dport) first last
    end.
Proof.
  apply (adjust_body_spec adjust p cfg k 34 (ff_rss_check6 p saddr6 daddr6 dport) (tuple6 saddr6 daddr6 dport)); try done.
  - intros Hn x. unfold ff_rss_check6. now rewrite (proj2 (Z.leb_gt _ _)) by lia.
  - intros x. eexists. split; [| apply tuple6_port]. rewrite !length_app, !length_le_bytes, !length_take. lia.
  - intros x y. rewrite !tuple6_port. set (pre := _ ++ _ ++ le_bytes 2 dport).
    assert (length pre = 34%nat) as Hp by (unfold pre; rewrite !length_app, !length_le_bytes, !length_take; lia).
    now rewrite !take_app_le by lia.
Qed.

(** With [recheck] on, nothing is asked of DPDK: a port that is returned is in
    the range and the check has accepted it. *)
Theorem adjust_sport_rechecked adjust p c ready saddr daddr dport first last r1 r2 port :
  recheck c = true -> 0 <= queueid p < nb_queues p -> queueid p < reta_size p -> 0 < reta_size p < 65536 -> nb_queues p < 65536 ->
  (forall n t v t', adjust n t v = Some t' -> Forall is_byte t' /\ (12 <= length t')%nat) ->
  ff_rss_adjust_sport adjust p (Some c) ready saddr daddr dport first last r1 r2 = Some (Some port) ->
  first <= port <= last /\ ff_rss_check p saddr daddr dport (htons port) = Some true.
Proof.
  intros Hc Hq Hqr Hr Hnb Hbytes H. unfold ff_rss_adjust_sport, adjust_body in H.
  destruct ready; [| done]. destruct (thash_adjust c); [| done]. destruct (Z.leb_spec (nb_queues p) 1); [done |].
  destruct (port_blocks _ _ _) as [[base nblocks] |]; [| done]. cbn [negb] in H.
  apply adjust_loop_result in H as (t & d & tu & _ & _ & Ha & -> & Hrange & Hck); [| done | done |].
  - split; [done |]. destruct (Hbytes _ _ _ _ Ha) as [Hb Hl].
    pose proof (le_word_bound (take 2 (drop 10 tu)) ltac:(now apply Forall_take, Forall_drop)) as Hw.
    rewrite length_take, length_drop, Nat.min_l in Hw by lia. change (256 ^ Z.of_nat 2) with 65536 in Hw.
    rewrite htons_involutive by lia. now apply Hck.
  - apply own_entry_clamp; [done |]. unfold own_entry.
    assert (0 < (reta_size p + nb_queues p - 1) / nb_queues p) as Hper by (apply Z.div_str_pos; lia).
    pose proof (Z.mod_pos_bound r2 _ Hper). pose proof (Z.mul_div_le (reta_size p + nb_queues p - 1) (nb_queues p) ltac:(lia)).
    unfold u32. rewrite Z.mod_small by nia. split; [nia |]. rewrite Z.mod_add by lia. apply Z.mod_small. lia.
Qed.
