(* ===== verification/RssTbl.v ===== *)
(** * The tables of local ports

    [ff_rss_tbl] and [ff_rss_tbl6] of
    [fstack-capio/modified-sources/lib/ff_dpdk_if.c]: for each configured
    connection, the local ports whose packets reach the process's own queue.
    [ff_rss_tbl_init] fills the IPv4 table, [ff_rss_tbl_set_portrange] narrows
    every entry to a range of ports and [ff_rss_tbl_get_portrange] looks a
    connection up; the IPv6 functions are the same code over 16-byte addresses,
    so both are instances of one definition over a class of addresses.

    Both levels of a table are arrays with open addressing.  The loop all of the
    functions share is [ring_do]; its fuel, the number of slots, is shown to be
    enough by [ring_do_spec]. *)

From stdpp Require Import list vector.
From S2P Require Import Prelude Rss.
Local Open Scope Z_scope.

(** ** The loop over the slots *)

(** [do { body; idx++; idx &= mask; } while (idx != ori)]: a [body] that leaves
    the loop gives [inl]; the loop that comes back to its start gives [inr]. *)
Fixpoint ring_do {B} (body : Z -> option B) (mask ori : Z) (fuel : nat) (idx : Z) : option (B + Z) :=
  match fuel with
  | O => None
  | S fuel =>
      match body idx with
      | Some b => Some (inl b)
      | None =>
          let idx := Z.land (idx + 1) mask in
          if idx =? ori then Some (inr idx) else ring_do body mask ori fuel idx
      end
  end.

(** ** Addresses and sizes *)

(** What the tables need of an address: the test for the address that marks an
    empty slot, equality, and the value slots are chosen by. *)
Class RssAddr (A : Type) := {
  addr_eq_dec :: EqDecision A;
  addr_is_any : A -> bool;
  addr_zero : A;
  addr_fold : A -> Z
}.

Class RssAddrLaws (A : Type) `{RssAddr A} : Prop := {
  addr_zero_any : addr_is_any addr_zero = true
}.

(** IPv4: [s_addr], with its last byte added. *)
#[export] Instance rss_addr4 : RssAddr Z := {
  addr_is_any a := a =? 0;
  addr_zero := 0;
  addr_fold a := u32 (a + nth 3 (le_bytes 4 a) 0)
}.

Definition ff_in6_is_any (addr6 : list Z) : bool := forallb (fun b => b =? 0) (take 16 addr6).

Definition ff_in6_fold (addr6 : list Z) : Z :=
  fold_left (fun v i => u32 (v + Z.shiftl (nth i addr6 0) (Z.land (Z.of_nat i) 3 * 8))) (seq 0 16) 0.

#[export] Instance rss_addr6 : RssAddr (vec Z 16) := {
  addr_is_any a := ff_in6_is_any (vec_to_list a);
  addr_zero := vreplicate 16 0;
  addr_fold a := ff_in6_fold (vec_to_list a)
}.

(** The sizes of [ff_config.h]. *)
Class RssSizes := {
  FF_RSS_TBL_MAX_SADDR_SPORT_ENTRIES : Z;
  FF_RSS_TBL_MAX_SADDR_SPORT_ENTRIES_MASK : Z;
  FF_RSS_TBL_MAX_DADDR : Z;
  FF_RSS_TBL_MAX_DIP_MASK : Z;
  FF_RSS_TBL_MAX_DPORT : Z
}.

(** The masks are those of arrays whose sizes are powers of two, and there are
    no more than 65536 ports. *)
Class RssSizesLaws `{RssSizes} : Prop := {
  saddr_entries : exists a, 0 <= a < 32 /\ FF_RSS_TBL_MAX_SADDR_SPORT_ENTRIES = 2 ^ a /\
                            FF_RSS_TBL_MAX_SADDR_SPORT_ENTRIES_MASK = FF_RSS_TBL_MAX_SADDR_SPORT_ENTRIES - 1;
  daddr_entries : exists a, 0 <= a < 32 /\ FF_RSS_TBL_MAX_DADDR = 2 ^ a /\
                            FF_RSS_TBL_MAX_DIP_MASK = FF_RSS_TBL_MAX_DADDR - 1;
  dport_entries : 0 < FF_RSS_TBL_MAX_DPORT <= 65536
}.

(** ** The tables *)

Section tables.
Context {A : Type} `{RssAddr A, RssSizes}.

Record ff_rss_tbl_dip_type := RssDip {
  daddr : A;
  first : Z;
  last : Z;
  first_idx : Z;
  last_idx : Z;
  num : Z;
  dport : list Z
}.

Record ff_rss_tbl_type := RssEntry {
  saddr : A;
  sport : Z;
  enum : Z;
  dip_tbl : list ff_rss_tbl_dip_type
}.

#[global] Instance eta_dip : Eta ff_rss_tbl_dip_type := fun d =>
  RssDip (daddr d) (first d) (last d) (first_idx d) (last_idx d) (num d) (dport d).
#[global] Instance eta_entry : Eta ff_rss_tbl_type := fun e => RssEntry (saddr e) (sport e) (enum e) (dip_tbl e).

(** The tables after [memset]. *)
Definition dip_zero : ff_rss_tbl_dip_type :=
  RssDip addr_zero 0 0 0 0 0 (replicate (Z.to_nat (FF_RSS_TBL_MAX_DPORT + 1)) 0).
Definition entry_zero : ff_rss_tbl_type := RssEntry addr_zero 0 0 (replicate (Z.to_nat FF_RSS_TBL_MAX_DADDR) dip_zero).
Definition tbl_zero : list ff_rss_tbl_type := replicate (Z.to_nat FF_RSS_TBL_MAX_SADDR_SPORT_ENTRIES) entry_zero.

(** The slots; indices are masked, so they are in range. *)
Definition slot (t : list ff_rss_tbl_type) (i : Z) : ff_rss_tbl_type := nth (Z.to_nat i) t entry_zero.
Definition dip (e : ff_rss_tbl_type) (i : Z) : ff_rss_tbl_dip_type := nth (Z.to_nat i) (dip_tbl e) dip_zero.

Definition saddr_idx (sa : A) (sp : Z) : Z := Z.land (Z.lxor (addr_fold sa) sp) FF_RSS_TBL_MAX_SADDR_SPORT_ENTRIES_MASK.
Definition daddr_idx (da : A) : Z := Z.land (addr_fold da) FF_RSS_TBL_MAX_DIP_MASK.

Definition slot_is (e : ff_rss_tbl_type) (sa : A) (sp : Z) : bool := bool_decide (saddr e = sa) && (sport e =? sp).

(** The ports of one entry: [js] are the ports left to try, [k] the next index
    of [dport] and [prev] the last port taken. *)
Fixpoint scan_ports (check : Z -> option bool) (js : list Z) (d : ff_rss_tbl_dip_type) (k prev : Z) :
    option (ff_rss_tbl_dip_type * Z * Z) :=
  match js with
  | [] => Some (d, k, prev)
  | j :: js =>
      stat ← check (htons j);
      if (stat : bool) then
        let d := d <| num ::= (fun n => u16 (n + 1)) |> in
        let d := d <| dport ::= (fun l => arr_set l k (u16 j)) |> in
        let d := if prev =? -1 then d <| first := u16 j |> else d in
        scan_ports check js d (k + 1) j
      else scan_ports check js d k prev
  end.

Definition ports : list Z := map Z.of_nat (seq 0 (Z.to_nat FF_RSS_TBL_MAX_DPORT)).

Definition fill_dip (check : Z -> option bool) (d : ff_rss_tbl_dip_type) (da : A) : option ff_rss_tbl_dip_type :=
  let d := d <| dport ::= (fun l => arr_set l 0 1) |> in
  let d := d <| first_idx := 1 |> in
  '(d, k, prev) ← scan_ports check ports d 1 (-1);
  let d := if k =? FF_RSS_TBL_MAX_DPORT + 1
           then d <| num := u16 (k - 2) |> <| last_idx := u16 (k - 2) |>
           else d <| last_idx := u16 (k - 1) |> in
  Some (d <| last := u16 prev |> <| daddr := da |>).

(** One line of the configuration; [check sa da sp] tests a local port. *)
Definition tbl_insert (check : A -> A -> Z -> Z -> option bool) (t : list ff_rss_tbl_type) (sa da : A) (sp : Z) :
    option (list ff_rss_tbl_type) :=
  let ori_idx := saddr_idx sa sp in
  let ori_daddr_idx := daddr_idx da in
  r ← ring_do (fun i => if addr_is_any (saddr (slot t i)) || slot_is (slot t i) sa sp then Some i else None)
        FF_RSS_TBL_MAX_SADDR_SPORT_ENTRIES_MASK ori_idx (Z.to_nat FF_RSS_TBL_MAX_SADDR_SPORT_ENTRIES) ori_idx;
  let idx := match r with inl i => i | inr i => i end in
  let e := slot t idx in
  if (idx =? ori_idx) && negb (addr_is_any (saddr e)) && negb (slot_is e sa sp) then Some t
  else
    r ← ring_do (fun i => if addr_is_any (daddr (dip e i)) then Some (inl i)
                          else if bool_decide (daddr (dip e i) = da) then Some (inr ()) else None)
          FF_RSS_TBL_MAX_DIP_MASK ori_daddr_idx (Z.to_nat FF_RSS_TBL_MAX_DADDR) ori_daddr_idx;
    match r with
    | inl (inr _) => Some t
    | inl (inl didx) | inr didx =>
        if (didx =? ori_daddr_idx) && negb (addr_is_any (daddr (dip e didx))) then Some t
        else
          d ← fill_dip (check sa da sp) (dip e didx) da;
          let e := e <| dip_tbl ::= (fun l => <[Z.to_nat didx := d]> l) |> in
          let e := e <| saddr := sa |> <| sport := sp |> <| enum ::= (fun n => u16 (n + 1)) |> in
          Some (<[Z.to_nat idx := e]> t)
    end.

(** The lines of the configuration of this address family, each with the port
    it is for; [None] for the softc that cannot be had is the -1. *)
Fixpoint tbl_insert_all (check : Z -> A -> A -> Z -> Z -> option bool) (cfgs : list (Z * A * A * Z)) (t : list ff_rss_tbl_type) :
    option (list ff_rss_tbl_type) :=
  match cfgs with
  | [] => Some t
  | (port_id, sa, da, sp) :: cfgs =>
      t ← tbl_insert (check port_id) t sa da sp;
      tbl_insert_all check cfgs t
  end.

Definition tbl_init (check : Z -> A -> A -> Z -> Z -> option bool) (softc : bool) (cfgs : list (Z * A * A * Z)) :
    option (Z * list ff_rss_tbl_type) :=
  if negb softc then Some (-1, tbl_zero)
  else
    t ← tbl_insert_all check cfgs tbl_zero;
    Some (0, t).

(** The search for an address in an entry; the answer is the two indices and
    the ports, or an error. *)
Definition dip_lookup (e : ff_rss_tbl_type) (da : A) : option (Z + Z * Z * list Z) :=
  let ori_daddr_idx := daddr_idx da in
  r ← ring_do (fun j =>
        let d := dip e j in
        if addr_is_any (daddr d) then Some (inl (- ENOENT))
        else if bool_decide (daddr d = da) then Some (inr (first_idx d, last_idx d, dport d))
        else None)
      FF_RSS_TBL_MAX_DIP_MASK ori_daddr_idx (Z.to_nat FF_RSS_TBL_MAX_DADDR) ori_daddr_idx;
  Some (match r with inl x => x | inr _ => inl (- ENOENT) end).

(** [rss_check_cfgs] is there and enabled: [enable]. *)
Definition tbl_get_portrange (enable : bool) (t : list ff_rss_tbl_type) (sa da : A) (sp : Z) : option (Z + Z * Z * list Z) :=
  if negb enable then Some (inl (-1))
  else
    let ori_idx := saddr_idx sa sp in
    r ← ring_do (fun i =>
          let e := slot t i in
          if addr_is_any (saddr e) then Some (Some (inl (- ENOENT)))
          else if slot_is e sa sp then Some (dip_lookup e da)
          else None)
        FF_RSS_TBL_MAX_SADDR_SPORT_ENTRIES_MASK ori_idx (Z.to_nat FF_RSS_TBL_MAX_SADDR_SPORT_ENTRIES) ori_idx;
    match r with inl x => x | inr _ => Some (inl (- ENOENT)) end.

(** The loop over the ports of an entry: [n] indices from [k] on. *)
Fixpoint range_loop (f l : Z) (d : ff_rss_tbl_dip_type) (n : nat) (k : Z) : ff_rss_tbl_dip_type :=
  match n with
  | O => d
  | S n =>
      let rest (d : ff_rss_tbl_dip_type) :=
        if arr_get (dport d) k =? l then d <| last_idx := u16 k |>
        else if l <? arr_get (dport d) k then d <| last_idx := u16 (if 1 <? k then k - 1 else k) |>
        else range_loop f l d n (k + 1) in
      if (first_idx d =? 0) && (f <=? arr_get (dport d) k) then
        let d := d <| first_idx := u16 k |> in
        if arr_get (dport d) (num d) <? l then d
        else if f =? l then d <| last_idx := u16 k |>
        else rest d
      else rest d
  end.

(** An entry whose range is set, and whether it has a port left. *)
Definition dip_set_portrange (f l : Z) (d : ff_rss_tbl_dip_type) : ff_rss_tbl_dip_type * bool :=
  let d := d <| first := f |> <| last := l |> <| first_idx := 0 |> in
  let d := range_loop f l d (Z.to_nat (num d)) 1 in
  (d, negb ((first_idx d =? 0) || (last_idx d <? first_idx d))).

Fixpoint dips_set_portrange (f l : Z) (ds : list ff_rss_tbl_dip_type) : list ff_rss_tbl_dip_type * bool :=
  match ds with
  | [] => ([], true)
  | d :: ds =>
      if addr_is_any (daddr d) then
        let '(ds, ok) := dips_set_portrange f l ds in (d :: ds, ok)
      else
        let '(d, ok) := dip_set_portrange f l d in
        if ok then let '(ds, ok) := dips_set_portrange f l ds in (d :: ds, ok) else (d :: ds, false)
  end.

Fixpoint entries_set_portrange (f l : Z) (t : list ff_rss_tbl_type) : list ff_rss_tbl_type * bool :=
  match t with
  | [] => ([], true)
  | e :: t =>
      if addr_is_any (saddr e) then
        let '(t, ok) := entries_set_portrange f l t in (e :: t, ok)
      else
        let '(ds, ok) := dips_set_portrange f l (dip_tbl e) in
        let e := e <| dip_tbl := ds |> in
        if ok then let '(t, ok) := entries_set_portrange f l t in (e :: t, ok) else (e :: t, false)
  end.

Definition tbl_set_portrange (enable : bool) (f l : Z) (t : list ff_rss_tbl_type) : list ff_rss_tbl_type * Z :=
  if (l <? f) || negb enable then (t, -1)
  else let '(t, ok) := entries_set_portrange f l t in (t, if ok then 0 else -1).
End tables.

(** *** The two families *)

(** A line of [rss_check_cfgs]: port, source, destination and source port. *)
Inductive ff_rss_tbl_cfg :=
  | Cfg4 (port_id saddr daddr sport : Z)
  | Cfg6 (port_id : Z) (saddr6 daddr6 : vec Z 16) (sport : Z).

Definition cfgs4 : list ff_rss_tbl_cfg -> list (Z * Z * Z * Z) :=
  omap (fun c => match c with Cfg4 p sa da sp => Some (p, sa, da, sp) | Cfg6 _ _ _ _ => None end).
Definition cfgs6 : list ff_rss_tbl_cfg -> list (Z * vec Z 16 * vec Z 16 * Z) :=
  omap (fun c => match c with Cfg6 p sa da sp => Some (p, sa, da, sp) | Cfg4 _ _ _ _ => None end).

Section families.
Context `{RssSizes} (rss : Z -> rss_port).

Definition ff_rss_tbl_init (softc : bool) (cfgs : list ff_rss_tbl_cfg) : option (Z * list (ff_rss_tbl_type (A := Z))) :=
  tbl_init (fun port sa da sp dp => ff_rss_check (rss port) sa da sp dp) softc (cfgs4 cfgs).

Definition ff_rss_tbl6_init (softc : bool) (cfgs : list ff_rss_tbl_cfg) : option (Z * list (ff_rss_tbl_type (A := vec Z 16))) :=
  tbl_init (fun port sa da sp dp => ff_rss_check6 (rss port) (vec_to_list sa) (vec_to_list da) sp dp) softc (cfgs6 cfgs).

Definition ff_rss_tbl_set_portrange := tbl_set_portrange (A := Z).
Definition ff_rss_tbl6_set_portrange := tbl_set_portrange (A := vec Z 16).
Definition ff_rss_tbl_get_portrange := tbl_get_portrange (A := Z).
Definition ff_rss_tbl6_get_portrange := tbl_get_portrange (A := vec Z 16).
End families.

(** ** Open addressing *)

Section chains.
Context (a N mask : Z) (Ha : 0 <= a) (HN : N = 2 ^ a) (Hmask : mask = N - 1).

Lemma size_pos : 0 < N.
Proof. subst N. apply Z.pow_pos_nonneg; lia. Qed.

Lemma mask_mod x : Z.land x mask = x mod N.
Proof.
  rewrite Hmask, HN. apply land_mask; [done |]. rewrite Z.ones_equiv. unfold Z.pred. lia.
Qed.

(** The slot [t] steps after [h]. *)
Definition at_step (h t : Z) : Z := (h + t) mod N.

Lemma at_step_range h t : 0 <= at_step h t < N.
Proof. apply Z.mod_pos_bound, size_pos. Qed.

Lemma at_step_inj h t t' : 0 <= t < N -> 0 <= t' < N -> at_step h t = at_step h t' -> t = t'.
Proof.
  intros Ht Ht' He. unfold at_step in He.
  assert ((t - t') mod N = 0) as Hm.
  { replace (t - t') with ((h + t) - (h + t')) by lia. rewrite Zminus_mod, He, Z.sub_diag. apply Z.mod_0_l. pose proof size_pos. lia. }
  pose proof size_pos as H0. apply Z.mod_divide in Hm as [c Hc]; [| lia].
  assert (c * N < 1 * N) as H1 by lia. assert (-1 * N < c * N) as H2 by lia.
  apply Z.mul_lt_mono_pos_r in H1, H2; [| done | done]. assert (c = 0) as -> by lia. lia.
Qed.

(** Every slot is some number of steps after [h]. *)
Lemma at_step_reach h i : 0 <= i < N -> exists t, 0 <= t < N /\ i = at_step h t.
Proof.
  intros Hi. exists ((i - h) mod N). split; [apply Z.mod_pos_bound, size_pos |]. unfold at_step.
  rewrite Zplus_mod_idemp_r. replace (h + (i - h)) with i by lia. symmetry. now apply Z.mod_small.
Qed.

(** The loop stops at the first slot where its body does, or has seen all. *)
Lemma ring_do_spec {B} (body : Z -> option B) h :
  0 <= h < N ->
  (exists t b, 0 <= t < N /\ body (at_step h t) = Some b /\ (forall u, 0 <= u < t -> body (at_step h u) = None) /\
     ring_do body mask h (Z.to_nat N) h = Some (inl b)) \/
  ((forall i, 0 <= i < N -> body i = None) /\ ring_do body mask h (Z.to_nat N) h = Some (inr h)).
Proof.
  intros Hh.
  assert (forall fuel t r, 0 <= t < N -> fuel = Z.to_nat (N - t) -> (forall u, 0 <= u < t -> body (at_step h u) = None) ->
    ring_do body mask h fuel (at_step h t) = r ->
    (exists t b, 0 <= t < N /\ body (at_step h t) = Some b /\ (forall u, 0 <= u < t -> body (at_step h u) = None) /\ r = Some (inl b)) \/
    ((forall u, 0 <= u < N -> body (at_step h u) = None) /\ r = Some (inr h))) as H.
  { intros fuel. induction fuel as [| fuel IH]; intros t r Ht Hf Hu <-; [lia |]. cbn [ring_do].
    destruct (body (at_step h t)) as [b |] eqn:Hb; [left; eauto 10 |].
    assert (forall u, 0 <= u < t + 1 -> body (at_step h u) = None) as Hu'
      by (intros u Hut; destruct (Z.eq_dec u t) as [-> | ?]; [done | apply Hu; lia]).
    assert (Z.land (at_step h t + 1) mask = at_step h (t + 1)) as -> by (rewrite mask_mod; unfold at_step; now rewrite Zplus_mod_idemp_l, Z.add_assoc).
    destruct (Z.eq_dec (t + 1) N) as [E | E].
    - right. assert (at_step h (t + 1) = h) as -> by
        (unfold at_step; rewrite E, <- (Z.mul_1_l N) at 1; rewrite Z.mod_add by lia; now apply Z.mod_small).
      rewrite Z.eqb_refl. split; [intros u Hut; apply Hu'; lia | done].
    - destruct (Z.eqb_spec (at_step h (t + 1)) h) as [E' | _].
      + assert (t + 1 = 0); [| lia]. apply (at_step_inj h); [lia | lia |]. rewrite E'. unfold at_step.
        rewrite Z.add_0_r. symmetry. now apply Z.mod_small.
      + apply (IH (t + 1)); [lia | lia | done | done]. }
  assert (at_step h 0 = h) as H0 by (unfold at_step; rewrite Z.add_0_r; now apply Z.mod_small).
  destruct (H (Z.to_nat N) 0 _ ltac:(lia) ltac:(f_equal; lia) ltac:(lia) eq_refl) as [H1 | [H1 H2]]; rewrite H0 in *; [now left | right].
  split; [| done]. intros i Hi. destruct (at_step_reach h i Hi) as (t & Ht & ->). now apply H1.
Qed.

(** The keys of the slots, each key to be looked for from slot [h k] on.  A key
    is reached from there through slots of other keys only. *)
Context {K : Type} `{!EqDecision K} (h : K -> Z) (Hh : forall k, 0 <= h k < N).
Implicit Types (key : Z -> option K).

Definition chain key : Prop :=
  forall i k, 0 <= i < N -> key i = Some k ->
    exists t, 0 <= t < N /\ i = at_step (h k) t /\
      forall u, 0 <= u < t -> exists k', key (at_step (h k) u) = Some k' /\ k' <> k.

Lemma chain_ext key key' : (forall i, 0 <= i < N -> key i = key' i) -> chain key -> chain key'.
Proof.
  intros He Hc i k Hi Hk. rewrite <- He in Hk by done. destruct (Hc i k Hi Hk) as (t & Ht & Hit & Hu).
  exists t. do 2 (split; [done |]). intros u Hut. rewrite <- He by apply at_step_range. now apply Hu.
Qed.

Lemma chain_unique key i j k :
  chain key -> 0 <= i < N -> 0 <= j < N -> key i = Some k -> key j = Some k -> i = j.
Proof.
  intros Hc Hi Hj Hik Hjk. destruct (Hc _ _ Hi Hik) as (t & Ht & -> & Hu). destruct (Hc _ _ Hj Hjk) as (t' & Ht' & -> & Hu').
  destruct (Z.lt_trichotomy t t') as [Hlt | [-> | Hlt]]; [| done |].
  - destruct (Hu' t ltac:(lia)) as (k' & ? & ?). congruence.
  - destruct (Hu t' ltac:(lia)) as (k' & ? & ?). congruence.
Qed.

(** What a search that stops at [k] and at an empty slot finds. *)
Lemma chain_search {B} key k (body hit empty : Z -> option B) :
  chain key ->
  (forall i, 0 <= i < N -> body i = match key i with Some k' => if decide (k' = k) then hit i else None | None => empty i end) ->
  (forall i, 0 <= i < N -> key i = Some k -> is_Some (hit i)) -> (forall i, is_Some (empty i)) ->
  (exists i b, 0 <= i < N /\ key i = Some k /\ hit i = Some b /\ ring_do body mask (h k) (Z.to_nat N) (h k) = Some (inl b)) \/
  ((forall j, 0 <= j < N -> key j <> Some k) /\
   ((exists t b, let i := at_step (h k) t in
       0 <= t < N /\ key i = None /\ (forall u, 0 <= u < t -> key (at_step (h k) u) <> None) /\ empty i = Some b /\
       ring_do body mask (h k) (Z.to_nat N) (h k) = Some (inl b)) \/
    ((forall j, 0 <= j < N -> key j <> None) /\ ring_do body mask (h k) (Z.to_nat N) (h k) = Some (inr (h k))))).
Proof.
  intros Hc Hbody Hhit Hempty. destruct (ring_do_spec body (h k) (Hh k)) as [(t & b & Ht & Hb & Hu & Hrun) | [Hall Hrun]].
  - pose proof (at_step_range (h k) t) as Hr. rewrite Hbody in Hb by done.
    assert (forall u, 0 <= u < t -> key (at_step (h k) u) <> None /\ key (at_step (h k) u) <> Some k) as Hu'.
    { intros u Hut. pose proof (at_step_range (h k) u) as Hru. specialize (Hu u Hut). rewrite Hbody in Hu by done.
      split; intros E; rewrite E in Hu.
      - destruct (Hempty (at_step (h k) u)). congruence.
      - rewrite decide_True in Hu by done. destruct (Hhit _ Hru E). congruence. }
    destruct (key (at_step (h k) t)) as [k' |] eqn:Hkey.
    + destruct (decide (k' = k)) as [-> | ?]; [| done]. left. eauto 10.
    + right. split; [| left; exists t, b; do 2 (split; [done |]); split; [intros u Hut; now apply Hu' | done]].
      intros j Hj Hjk. destruct (Hc j k Hj Hjk) as (t' & Ht' & -> & Hu2).
      destruct (Z.lt_trichotomy t t') as [Hlt | [-> | Hlt]]; [| congruence |].
      * destruct (Hu2 t ltac:(lia)) as (? & ? & _). congruence.
      * destruct (Hu' t' ltac:(lia)). congruence.
  - right. split; [| right; split; [| done]]; intros j Hj E; specialize (Hall j Hj); rewrite Hbody, E in Hall by done.
    + rewrite decide_True in Hall by done. destruct (Hhit j Hj E). congruence.
    + destruct (Hempty j). congruence.
Qed.

Lemma chain_insert key k t :
  chain key -> 0 <= t < N -> (forall j, 0 <= j < N -> key j <> Some k) ->
  (forall u, 0 <= u < t -> key (at_step (h k) u) <> None) -> key (at_step (h k) t) = None ->
  chain (fun j => if j =? at_step (h k) t then Some k else key j).
Proof.
  intros Hc Ht Hnew Hu Hnone i k' Hi Hk.
  destruct (Z.eqb_spec i (at_step (h k) t)) as [-> | Hne].
  - injection Hk as <-. exists t. do 2 (split; [done |]). intros u Hut.
    destruct (Z.eqb_spec (at_step (h k) u) (at_step (h k) t)) as [E | _]; [apply at_step_inj in E; lia |].
    destruct (key (at_step (h k) u)) as [k' |] eqn:E; [| now apply Hu in E]. exists k'. split; [done |].
    intros ->. now apply (Hnew _ (at_step_range _ _)) in E.
  - destruct (Hc i k' Hi Hk) as (t' & Ht' & Hit & Hu'). exists t'. do 2 (split; [done |]). intros u Hut.
    destruct (Hu' u Hut) as (k2 & E & Hk2). destruct (Z.eqb_spec (at_step (h k') u) (at_step (h k) t)) as [E' | _]; [| eauto].
    rewrite E' in E. congruence.
Qed.

(** A full table holds [N] keys. *)
Lemma chain_full key k (l : list K) :
  chain key -> (forall j, 0 <= j < N -> key j <> None) -> (forall j, 0 <= j < N -> key j <> Some k) ->
  (forall j k', 0 <= j < N -> key j = Some k' -> k' ∈ l) -> k ∈ l -> N < Z.of_nat (length (remove_dups l)).
Proof.
  intros Hc Hfull Hnew Hl Hk. pose proof size_pos as H0. set (f := fun j : nat => default k (key (Z.of_nat j))).
  assert (forall j, (j < Z.to_nat N)%nat -> key (Z.of_nat j) = Some (f j)) as Hf.
  { intros j Hj. unfold f. destruct (key (Z.of_nat j)) eqn:E; [done |]. exfalso. apply (Hfull (Z.of_nat j)); [lia | done]. }
  enough (k :: (f <$> seq 0 (Z.to_nat N)) ⊆+ remove_dups l) as Hs.
  { apply submseteq_length in Hs. cbn [length] in Hs. rewrite length_fmap, length_seq in Hs. lia. }
  apply NoDup_submseteq.
  - constructor.
    + intros (j & Ej & Hj%elem_of_seq)%list_elem_of_fmap. apply (Hnew (Z.of_nat j)); [lia |]. rewrite Hf, <- Ej by lia. done.
    + apply NoDup_fmap_2_strong; [| apply NoDup_seq]. intros x y Hx%elem_of_seq Hy%elem_of_seq E.
      enough (Z.of_nat x = Z.of_nat y) by lia. apply (chain_unique key _ _ (f x) Hc); [lia | lia | apply Hf; lia |].
      rewrite E. apply Hf. lia.
  - intros x Hx. apply elem_of_remove_dups. apply elem_of_cons in Hx as [-> | (j & -> & Hj%elem_of_seq)%list_elem_of_fmap]; [done |].
    apply (Hl (Z.of_nat j)); [lia |]. apply Hf. lia.
Qed.
End chains.

(** ** The ports of an entry *)

Section fill.
Context {A : Type} `{RssAddr A, RssSizes, !RssSizesLaws}.
Implicit Types (d : ff_rss_tbl_dip_type (A := A)).

(** The ports the check accepts, in the order they are tried. *)
Definition accepted (ok : Z -> bool) : list Z := List.filter ok ports.

(** How many of them the entry lets the stack use: when every port is accepted
    the last one is left out. *)
Definition usable (ok : Z -> bool) : Z :=
  let n := Z.of_nat (length (accepted ok)) in if n =? FF_RSS_TBL_MAX_DPORT then n - 1 else n.

Definition filled (ok : Z -> bool) (da : A) : ff_rss_tbl_dip_type :=
  let acc := accepted ok in
  RssDip da (hd 0 acc) (u16 (List.last acc (-1))) 1 (usable ok) (usable ok)
    (1 :: acc ++ replicate (Z.to_nat FF_RSS_TBL_MAX_DPORT - length acc) 0).

Lemma dip_ext d d' :
  daddr d = daddr d' -> first d = first d' -> last d = last d' -> first_idx d = first_idx d' -> last_idx d = last_idx d' ->
  num d = num d' -> dport d = dport d' -> d = d'.
Proof. destruct d, d'. cbn. congruence. Qed.

Lemma last_cons_default (x d : Z) l : List.last (x :: l) d = List.last l x.
Proof.
  revert x d. induction l as [| y l IH]; intros x d; [done |].
  change (List.last (x :: y :: l) d) with (List.last (y :: l) d). now rewrite !IH.
Qed.

Lemma scan_ports_spec (check : Z -> option bool) (ok : Z -> bool) js d k prev :
  (forall j, j ∈ js -> check (htons j) = Some (ok j) /\ 0 <= j < 65536) -> 0 <= k -> 0 <= num d < 65536 ->
  exists d', scan_ports check js d k prev = Some (d', k + Z.of_nat (length (List.filter ok js)), List.last (List.filter ok js) prev) /\
    daddr d' = daddr d /\ last d' = last d /\ first_idx d' = first_idx d /\ last_idx d' = last_idx d /\
    num d' = u16 (num d + Z.of_nat (length (List.filter ok js))) /\
    first d' = (if prev =? -1 then hd (first d) (List.filter ok js) else first d) /\
    dport d' = list_inserts (Z.to_nat k) (List.filter ok js) (dport d).
Proof.
  revert d k prev. induction js as [| j js IH]; intros d k prev Hok Hk Hn.
  { exists d. cbn. unfold u16. rewrite !Z.add_0_r, Z.mod_small by done. now destruct (prev =? -1). }
  destruct (Hok j ltac:(constructor)) as [Hc Hj]. cbn [scan_ports List.filter]. rewrite Hc. cbn [mbind option_bind].
  assert (forall j, j ∈ js -> check (htons j) = Some (ok j) /\ 0 <= j < 65536) as Hok' by (intros; apply Hok; now constructor).
  destruct (ok j); [| apply IH; done].
  set (d1 := d <| num ::= _ |> <| dport ::= _ |>). set (d2 := if prev =? -1 then d1 <| first := u16 j |> else d1).
  assert (daddr d2 = daddr d /\ last d2 = last d /\ first_idx d2 = first_idx d /\ last_idx d2 = last_idx d /\
    num d2 = u16 (num d + 1) /\ first d2 = (if prev =? -1 then j else first d) /\ dport d2 = arr_set (dport d) k j) as (E1 & E2 & E3 & E4 & E5 & E6 & E7).
  { assert (u16 j = j) as Hu by (now apply Z.mod_small). unfold d2, d1. destruct (prev =? -1); cbn; now rewrite Hu. }
  assert (0 <= num d2 < 65536) as Hn2 by (rewrite E5; apply Z.mod_pos_bound; lia).
  destruct (IH d2 (k + 1) j Hok' ltac:(lia) Hn2) as (d' & Hrun & F1 & F2 & F3 & F4 & F5 & F6 & F7).
  exists d'. rewrite Hrun, last_cons_default. cbn [length hd]. rewrite Nat2Z.inj_succ. split; [do 3 f_equal; lia |].
  rewrite F1, F2, F3, F4, F5, F6, F7, E1, E2, E3, E4, E5, E6, E7. do 4 (split; [done |]). split; [| split].
  - unfold u16. rewrite Zplus_mod_idemp_l. f_equal. lia.
  - now rewrite (proj2 (Z.eqb_neq j (-1))) by lia.
  - cbn [list_inserts]. rewrite Z2Nat.inj_add by lia. unfold arr_set. rewrite Nat.add_1_r. symmetry. apply list_insert_inserts_lt. lia.
Qed.

Lemma ports_range j : j ∈ ports -> 0 <= j < FF_RSS_TBL_MAX_DPORT.
Proof. unfold ports. intros (n & -> & Hn%elem_of_seq)%elem_of_map. lia. Qed.

Lemma length_accepted ok : (length (accepted ok) <= Z.to_nat FF_RSS_TBL_MAX_DPORT)%nat.
Proof.
  unfold accepted, ports. transitivity (length (map Z.of_nat (seq 0 (Z.to_nat FF_RSS_TBL_MAX_DPORT)))); [| now rewrite length_map, length_seq].
  generalize (map Z.of_nat (seq 0 (Z.to_nat FF_RSS_TBL_MAX_DPORT))). intros l.
  induction l as [| x l IH]; cbn; [lia |]. destruct (ok x); cbn; lia.
Qed.

Lemma inserts_replicate (l : list Z) n : (length l <= n)%nat -> list_inserts 0 l (replicate n 0) = l ++ replicate (n - length l) 0.
Proof.
  intros Hl. apply list_eq. intros i. destruct (decide (i < length l)%nat) as [Hi | Hi].
  - rewrite lookup_app_l by done. rewrite list_lookup_inserts by (rewrite ?length_replicate; lia). now rewrite Nat.sub_0_r.
  - rewrite list_lookup_inserts_ge by lia. rewrite lookup_app_r by lia.
    destruct (decide (i < n)%nat); [rewrite !lookup_replicate_2 by lia; done |].
    rewrite !lookup_ge_None_2; rewrite ?length_replicate; (done || lia).
Qed.

(** An entry that is filled holds exactly the accepted ports. *)
Lemma fill_dip_spec (check : Z -> option bool) (ok : Z -> bool) (da : A) :
  (forall j, 0 <= j < FF_RSS_TBL_MAX_DPORT -> check (htons j) = Some (ok j)) ->
  fill_dip check dip_zero da = Some (filled ok da).
Proof.
  intros Hok. pose proof dport_entries as Hd. unfold fill_dip.
  set (d0 := dip_zero <| dport ::= _ |> <| first_idx := 1 |>).
  destruct (scan_ports_spec check ok ports d0 1 (-1)) as (d' & -> & E1 & E2 & E3 & E4 & E5 & E6 & E7); [| lia | cbn; lia |].
  { intros j Hj%ports_range. split; [now apply Hok | lia]. }
  pose proof (length_accepted ok) as Hl. fold (accepted ok) in *. cbn [mbind option_bind].
  assert (dport d' = 1 :: accepted ok ++ replicate (Z.to_nat FF_RSS_TBL_MAX_DPORT - length (accepted ok)) 0) as HP.
  { rewrite E7. unfold d0, dip_zero, arr_set. cbn [dport upd]. rewrite Z2Nat.inj_add, Nat.add_1_r by lia.
    change (replicate (S ?n) 0) with (0 :: replicate n 0). cbn.
    change (Z.to_nat 1) with 1%nat. rewrite <- inserts_replicate by done.
    generalize (replicate (Z.to_nat FF_RSS_TBL_MAX_DPORT) 0) (accepted ok). intros r l. clear. generalize 0%nat as i.
    induction l as [| x l IH]; intros i; cbn; [done |]. now rewrite IH. }
  assert (num d' = u16 (Z.of_nat (length (accepted ok)))) as HN by (rewrite E5; cbn; now rewrite Z.add_0_l).
  assert (first d' = hd 0 (accepted ok)) as HF by (rewrite E6; reflexivity).
  unfold filled, usable. destruct (Z.eqb_spec (1 + Z.of_nat (length (accepted ok))) (FF_RSS_TBL_MAX_DPORT + 1)) as [E | E].
  - rewrite (proj2 (Z.eqb_eq _ _)) by lia. f_equal. apply dip_ext; cbn; rewrite ?E3; try done;
      unfold u16; rewrite Z.mod_small; lia.
  - rewrite (proj2 (Z.eqb_neq _ _)) by lia. f_equal. apply dip_ext; cbn; rewrite ?E3, ?HN; try done;
      unfold u16; rewrite Z.mod_small; lia.
Qed.
End fill.

(** ** What a table holds *)

Section rep.
Context {A : Type} `{RssAddr A, !RssAddrLaws A, RssSizes, !RssSizesLaws}.
Implicit Types (e : ff_rss_tbl_type (A := A)) (t : list (ff_rss_tbl_type (A := A))) (done : list (Z * A * A * Z)).

Local Notation N := FF_RSS_TBL_MAX_SADDR_SPORT_ENTRIES.
Local Notation M := FF_RSS_TBL_MAX_DADDR.

(** The pair of a slot, the address of a slot of it; [None] when it is empty. *)
Definition okey t (i : Z) : option (A * Z) :=
  if addr_is_any (saddr (slot t i)) then None else Some (saddr (slot t i), sport (slot t i)).
Definition ikey e (j : Z) : option A := if addr_is_any (daddr (dip e j)) then None else Some (daddr (dip e j)).
Definition pair_idx (k : A * Z) : Z := saddr_idx (fst k) (snd k).

Lemma outer_size : 0 < N.
Proof. destruct saddr_entries as (a & Ha & HN & _). rewrite HN. apply Z.pow_pos_nonneg; lia. Qed.
Lemma inner_size : 0 < M.
Proof. destruct daddr_entries as (a & Ha & HN & _). rewrite HN. apply Z.pow_pos_nonneg; lia. Qed.

Lemma pair_idx_range k : 0 <= pair_idx k < N.
Proof.
  destruct saddr_entries as (a & Ha & HN & Hm). unfold pair_idx, saddr_idx.
  rewrite (mask_mod a N) by (done || lia). apply Z.mod_pos_bound, outer_size.
Qed.
Lemma daddr_idx_range da : 0 <= daddr_idx da < M.
Proof.
  destruct daddr_entries as (a & Ha & HN & Hm). unfold daddr_idx.
  rewrite (mask_mod a M) by (done || lia). apply Z.mod_pos_bound, inner_size.
Qed.

(** The first line of the configuration for a connection: the port it is for. *)
Fixpoint find_cfg (cfgs : list (Z * A * A * Z)) (sa da : A) (sp : Z) : option Z :=
  match cfgs with
  | [] => None
  | (port, sa', da', sp') :: cfgs => if bool_decide (sa' = sa /\ da' = da /\ sp' = sp) then Some port else find_cfg cfgs sa da sp
  end.

Lemma find_cfg_app l port sa' da' sp' sa da sp :
  find_cfg (l ++ [(port, sa', da', sp')]) sa da sp =
  match find_cfg l sa da sp with
  | Some p => Some p
  | None => if bool_decide (sa' = sa /\ da' = da /\ sp' = sp) then Some port else None
  end.
Proof. induction l as [| [[[p s] d] x] l IH]; cbn; [done |]. destruct (bool_decide (s = sa /\ _)); [done | exact IH]. Qed.

Lemma find_cfg_elem l sa da sp port : find_cfg l sa da sp = Some port -> (port, sa, da, sp) ∈ l.
Proof.
  induction l as [| [[[p s] d] x] l IH]; cbn; [done |]. case_bool_decide as Hd.
  - destruct Hd as (-> & -> & ->). intros [= ->]. constructor.
  - intros. constructor. now apply IH.
Qed.

(** What the slot of a connection holds. *)
Context (content : Z -> A -> A -> Z -> ff_rss_tbl_dip_type) (Hcontent : forall port sa da sp, daddr (content port sa da sp) = da).

(** A slot for the pair [(sa, sp)] after the lines [done]. *)
Record entry_ok done (sa : A) (sp : Z) e : Prop := {
  eok_length : length (dip_tbl e) = Z.to_nat M;
  eok_chain : chain M daddr_idx (ikey e);
  eok_empty j : 0 <= j < M -> ikey e j = None -> dip e j = dip_zero;
  eok_filled j da : 0 <= j < M -> ikey e j = Some da ->
    exists port, find_cfg done sa da sp = Some port /\ dip e j = content port sa da sp
}.

Record rep done t : Prop := {
  rep_length : length t = Z.to_nat N;
  rep_chain : chain N pair_idx (okey t);
  rep_empty i : 0 <= i < N -> okey t i = None -> slot t i = entry_zero;
  rep_entry i sa sp : 0 <= i < N -> okey t i = Some (sa, sp) ->
    entry_ok done sa sp (slot t i) /\ exists port da, (port, sa, da, sp) ∈ done;
  rep_complete sa da sp port : find_cfg done sa da sp = Some port ->
    exists i j, 0 <= i < N /\ 0 <= j < M /\ okey t i = Some (sa, sp) /\ ikey (slot t i) j = Some da
}.

Lemma nth_replicate {X} (x : X) n i : nth i (replicate n x) x = x.
Proof. rewrite nth_lookup. destruct (replicate n x !! i) eqn:E; [now apply lookup_replicate in E as [-> _] | done]. Qed.

Lemma slot_zero i : slot tbl_zero i = entry_zero.
Proof. apply nth_replicate. Qed.
Lemma dip_of_zero j : dip entry_zero j = dip_zero.
Proof. apply nth_replicate. Qed.
Lemma ikey_zero j : ikey entry_zero j = None.
Proof. unfold ikey. rewrite dip_of_zero. cbn. now rewrite addr_zero_any. Qed.
Lemma okey_zero i : okey tbl_zero i = None.
Proof. unfold okey. rewrite slot_zero. cbn. now rewrite addr_zero_any. Qed.

Lemma entry_ok_zero done sa sp : entry_ok done sa sp entry_zero.
Proof.
  split.
  - cbn. apply length_replicate.
  - intros i k _. now rewrite ikey_zero.
  - intros j _ _. apply dip_of_zero.
  - intros j da _. now rewrite ikey_zero.
Qed.

Lemma rep_zero : rep [] tbl_zero.
Proof.
  split.
  - apply length_replicate.
  - intros i k _. now rewrite okey_zero.
  - intros i _ _. apply slot_zero.
  - intros i sa sp _. now rewrite okey_zero.
  - done.
Qed.

Lemma slot_insert t i j e : 0 <= i < Z.of_nat (length t) -> 0 <= j -> slot (<[Z.to_nat i := e]> t) j = if j =? i then e else slot t j.
Proof.
  intros Hi Hj. unfold slot. rewrite !nth_lookup. destruct (Z.eqb_spec j i) as [-> | Hne].
  - rewrite list_lookup_insert_eq by lia. done.
  - rewrite list_lookup_insert_ne by lia. done.
Qed.

Lemma dip_insert e (l := dip_tbl e) i j d sa sp n :
  0 <= i < Z.of_nat (length l) -> 0 <= j ->
  dip (RssEntry sa sp n (<[Z.to_nat i := d]> l)) j = if j =? i then d else dip e j.
Proof.
  intros Hi Hj. unfold dip. cbn [dip_tbl]. rewrite !nth_lookup. destruct (Z.eqb_spec j i) as [-> | Hne].
  - rewrite list_lookup_insert_eq by lia. done.
  - rewrite list_lookup_insert_ne by lia. done.
Qed.

Lemma entry_ok_more done c sa sp e : entry_ok done sa sp e -> entry_ok (done ++ [c]) sa sp e.
Proof.
  intros [Hl Hc He Hf]. split; [done | done | done |]. intros j da Hj Hk. destruct (Hf j da Hj Hk) as (port & Hp & Hd).
  exists port. split; [| done]. destruct c as [[[p s] d] x]. now rewrite find_cfg_app, Hp.
Qed.

(** Filling an empty slot of an entry. *)
Lemma entry_ok_insert done port sa da sp e n s (didx := at_step M (daddr_idx da) s) :
  addr_is_any da = false -> entry_ok done sa sp e -> 0 <= s < M -> (forall j, 0 <= j < M -> ikey e j <> Some da) ->
  (forall u, 0 <= u < s -> ikey e (at_step M (daddr_idx da) u) <> None) -> ikey e didx = None ->
  find_cfg done sa da sp = None ->
  entry_ok (done ++ [(port, sa, da, sp)]) sa sp
    (RssEntry sa sp n (<[Z.to_nat didx := content port sa da sp]> (dip_tbl e))).
Proof.
  intros Hany [Hl Hc He Hf] Hs Hnew Hu Hnone Hfind. pose proof inner_size as HM.
  assert (0 <= didx < M) as Hr by (apply Z.mod_pos_bound; lia).
  set (d := content port sa da sp). set (e' := RssEntry sa sp n _).
  assert (forall j, 0 <= j < M -> dip e' j = if j =? didx then d else dip e j) as Hdip by (intros; apply dip_insert; lia).
  assert (forall j, 0 <= j < M -> (if j =? didx then Some da else ikey e j) = ikey e' j) as Hkey.
  { intros j Hj. unfold ikey. rewrite Hdip by done. destruct (j =? didx); [| done]. unfold d. now rewrite Hcontent, Hany. }
  destruct daddr_entries as (a & Ha & HMa & Hm). split.
  - cbn. now rewrite length_insert.
  - eapply (chain_ext a M _ (proj1 Ha) HMa Hm); [exact Hkey |]. now apply (chain_insert a M _ (proj1 Ha) HMa Hm).
  - intros j Hj. rewrite <- Hkey, Hdip by done. destruct (j =? didx); [done |]. now apply He.
  - intros j da' Hj. rewrite <- Hkey, Hdip by done. destruct (j =? didx).
    + intros [= <-]. exists port. rewrite find_cfg_app, Hfind, bool_decide_eq_true_2 by done. done.
    + intros Hk. destruct (Hf j da' Hj Hk) as (port' & Hp & ->). exists port'. now rewrite find_cfg_app, Hp.
Qed.

(** The two searches of an insertion. *)
Definition dip_body e da (i : Z) : option (Z + unit) :=
  if addr_is_any (daddr (dip e i)) then Some (inl i) else if bool_decide (daddr (dip e i) = da) then Some (inr ()) else None.

Lemma dip_search done sa sp e da (run := ring_do (dip_body e da) FF_RSS_TBL_MAX_DIP_MASK (daddr_idx da) (Z.to_nat M) (daddr_idx da)) :
  entry_ok done sa sp e ->
  (exists j, 0 <= j < M /\ ikey e j = Some da /\ run = Some (inl (inr ()))) \/
  (forall j, 0 <= j < M -> ikey e j <> Some da) /\
  ((exists s, 0 <= s < M /\ ikey e (at_step M (daddr_idx da) s) = None /\
      (forall u, 0 <= u < s -> ikey e (at_step M (daddr_idx da) u) <> None) /\ run = Some (inl (inl (at_step M (daddr_idx da) s)))) \/
   (forall j, 0 <= j < M -> ikey e j <> None)).
Proof.
  intros He. destruct daddr_entries as (a & Ha & HM & Hm).
  destruct (chain_search a M _ (proj1 Ha) HM Hm daddr_idx daddr_idx_range (ikey e) da (dip_body e da)
    (fun _ => Some (inr ())) (fun i => Some (inl i)) (eok_chain _ _ _ _ He)) as [(j & b & Hj & Hk & [= <-] & Hrun) | [Hno [(s & b & Hs & Hk & Hu & [= <-] & Hrun) | [Hfull _]]]].
  - intros i _. unfold dip_body, ikey. destruct (addr_is_any _); [done |].
    destruct (decide (daddr (dip e i) = da)); [now rewrite bool_decide_eq_true_2 | now rewrite bool_decide_eq_false_2].
  - eauto.
  - eauto.
  - left. eauto.
  - right. split; [done | left]. eauto.
  - right. auto.
Qed.

Definition slot_body t sa sp (i : Z) : option Z :=
  if addr_is_any (saddr (slot t i)) || slot_is (slot t i) sa sp then Some i else None.

Lemma slot_search done t sa sp
    (run := ring_do (slot_body t sa sp) FF_RSS_TBL_MAX_SADDR_SPORT_ENTRIES_MASK (saddr_idx sa sp) (Z.to_nat N) (saddr_idx sa sp)) :
  rep done t ->
  (exists i, 0 <= i < N /\ okey t i = Some (sa, sp) /\ run = Some (inl i)) \/
  (forall i, 0 <= i < N -> okey t i <> Some (sa, sp)) /\
  ((exists s, 0 <= s < N /\ okey t (at_step N (saddr_idx sa sp) s) = None /\
      (forall u, 0 <= u < s -> okey t (at_step N (saddr_idx sa sp) u) <> None) /\ run = Some (inl (at_step N (saddr_idx sa sp) s))) \/
   (forall i, 0 <= i < N -> okey t i <> None)).
Proof.
  intros Hrep. destruct saddr_entries as (a & Ha & HN & Hm).
  destruct (chain_search a N _ (proj1 Ha) HN Hm pair_idx pair_idx_range (okey t) (sa, sp) (slot_body t sa sp)
    Some Some (rep_chain _ _ Hrep)) as [(i & b & Hi & Hk & [= <-] & Hrun) | [Hno [(s & b & Hs & Hk & Hu & [= <-] & Hrun) | [Hfull _]]]].
  - intros i _. unfold slot_body, okey, slot_is. destruct (addr_is_any _); [done |]. cbn [orb].
    destruct (decide ((saddr (slot t i), sport (slot t i)) = (sa, sp))) as [E | E].
    + injection E as -> ->. now rewrite bool_decide_eq_true_2, Z.eqb_refl.
    + destruct (Z.eqb_spec (sport (slot t i)) sp); [| now rewrite andb_false_r].
      rewrite bool_decide_eq_false_2; [done | congruence].
  - eauto.
  - eauto.
  - left. eauto.
  - right. split; [done | left]. eauto.
  - right. auto.
Qed.

(** The lines of a configuration fit in a table. *)
Definition fits (cfgs : list (Z * A * A * Z)) : Prop :=
  Z.of_nat (length (remove_dups (map (fun '(_, sa, _, sp) => (sa, sp)) cfgs))) <= N /\
  forall sa sp, Z.of_nat (length (remove_dups (omap (fun '(_, sa', da, sp') =>
    if bool_decide ((sa', sp') = (sa, sp)) then Some da else None) cfgs))) <= M.

(** With room for all lines, neither array is full when a new key comes. *)
Lemma tbl_room cfgs done t port sa da sp :
  fits cfgs -> rep done t -> (forall c, c ∈ done -> c ∈ cfgs) -> (port, sa, da, sp) ∈ cfgs ->
  (forall i, 0 <= i < N -> okey t i <> Some (sa, sp)) -> ~ (forall i, 0 <= i < N -> okey t i <> None).
Proof.
  intros [Hfit _] Hrep Hin Hc Hno Hfull. destruct saddr_entries as (a & Ha & HN & Hm).
  enough (N < Z.of_nat (length (remove_dups (map (fun '(_, sa, _, sp) => (sa, sp)) cfgs)))) by lia.
  apply (chain_full a N _ (proj1 Ha) HN Hm pair_idx (okey t) (sa, sp)); try done; [apply (rep_chain _ _ Hrep) | |].
  - intros j [sa' sp'] Hj Hk. destruct (rep_entry _ _ Hrep _ _ _ Hj Hk) as [_ (port' & da' & Hd)].
    apply elem_of_map. exists (port', sa', da', sp'). auto.
  - apply elem_of_map. exists (port, sa, da, sp). auto.
Qed.

Lemma dip_room cfgs done e port sa da sp :
  fits cfgs -> entry_ok done sa sp e -> (forall c, c ∈ done -> c ∈ cfgs) -> (port, sa, da, sp) ∈ cfgs ->
  (forall j, 0 <= j < M -> ikey e j <> Some da) -> ~ (forall j, 0 <= j < M -> ikey e j <> None).
Proof.
  intros [_ Hfit] He Hin Hc Hno Hfull. destruct daddr_entries as (a & Ha & HM & Hm). specialize (Hfit sa sp).
  set (l := omap _ cfgs) in Hfit. assert (forall port da, (port, sa, da, sp) ∈ cfgs -> da ∈ l) as Hl.
  { intros port' da' Hd. apply list_elem_of_omap. eexists. split; [exact Hd |]. cbv beta iota.
    now rewrite bool_decide_eq_true_2. }
  enough (M < Z.of_nat (length (remove_dups l))) by lia.
  apply (chain_full a M _ (proj1 Ha) HM Hm daddr_idx (ikey e) da); try done; [apply (eok_chain _ _ _ _ He) | | now apply (Hl port)].
  intros j da' Hj Hk. destruct (eok_filled _ _ _ _ He _ _ Hj Hk) as (port' & Hp & _). eapply Hl, Hin, find_cfg_elem, Hp.
Qed.

(** A line whose connection is in the table already. *)
Lemma rep_dup done t port sa da sp p :
  rep done t -> find_cfg done sa da sp = Some p -> rep (done ++ [(port, sa, da, sp)]) t.
Proof.
  intros [Hl Hc He Hent Hcomp] Hf. split; [done | done | done | |].
  - intros i sa' sp' Hi Hk. destruct (Hent i sa' sp' Hi Hk) as [Hok (p' & da' & Hd)].
    split; [now apply entry_ok_more |]. exists p', da'. apply elem_of_app. auto.
  - intros sa' da' sp' p'. rewrite find_cfg_app. destruct (find_cfg done sa' da' sp') eqn:E; [intros _; eauto |].
    case_bool_decide as Hd; [| done]. destruct Hd as (-> & -> & ->). congruence.
Qed.

(** A line that is put in slot [i]. *)
Lemma rep_put done t port sa da sp i e' :
  addr_is_any sa = false -> rep done t -> 0 <= i < N -> (okey t i = None \/ okey t i = Some (sa, sp)) ->
  chain N pair_idx (fun j => if j =? i then Some (sa, sp) else okey t j) ->
  saddr e' = sa -> sport e' = sp -> entry_ok (done ++ [(port, sa, da, sp)]) sa sp e' ->
  (forall j da', 0 <= j < M -> ikey (slot t i) j = Some da' -> ikey e' j = Some da') ->
  (exists j, 0 <= j < M /\ ikey e' j = Some da) ->
  rep (done ++ [(port, sa, da, sp)]) (<[Z.to_nat i := e']> t).
Proof.
  intros Hany Hrep Hi Hold Hch Hsa Hsp Hok Hkeep (j0 & Hj0 & Hnew). pose proof (rep_length _ _ Hrep) as Hl.
  assert (forall j, 0 <= j < N -> slot (<[Z.to_nat i := e']> t) j = if j =? i then e' else slot t j) as Hslot
    by (intros; apply slot_insert; lia).
  assert (forall j, 0 <= j < N -> (if j =? i then Some (sa, sp) else okey t j) = okey (<[Z.to_nat i := e']> t) j) as Hkey.
  { intros j Hj. unfold okey. rewrite Hslot by done. destruct (j =? i); [| done]. now rewrite Hsa, Hsp, Hany. }
  destruct saddr_entries as (a & Ha & HN & Hm). split.
  - now rewrite length_insert.
  - exact (chain_ext a N _ (proj1 Ha) HN Hm pair_idx _ _ Hkey Hch).
  - intros j Hj. rewrite <- Hkey, Hslot by done. destruct (j =? i); [done |]. now apply (rep_empty _ _ Hrep).
  - intros j sa' sp' Hj. rewrite <- Hkey, Hslot by done. destruct (Z.eqb_spec j i) as [-> | _].
    + intros [= <- <-]. split; [done |]. exists port, da. apply elem_of_app. right. constructor.
    + intros Hk. destruct (rep_entry _ _ Hrep _ _ _ Hj Hk) as [Hok' (p' & da' & Hd)].
      split; [now apply entry_ok_more |]. exists p', da'. apply elem_of_app. auto.
  - intros sa' da' sp' p'. rewrite find_cfg_app. destruct (find_cfg done sa' da' sp') eqn:E.
    + intros _. destruct (rep_complete _ _ Hrep _ _ _ _ E) as (i' & j & Hi' & Hj & Hk & Hk').
      exists i', j. do 2 (split; [done |]). rewrite <- Hkey, Hslot by done. destruct (Z.eqb_spec i' i) as [-> | _]; [| done].
      destruct Hold as [Hold | Hold]; [congruence |]. split; [congruence | now apply Hkeep].
    + case_bool_decide as Hd; [| done]. destruct Hd as (<- & <- & <-). intros _.
      exists i, j0. do 2 (split; [done |]). rewrite <- Hkey, Hslot, Z.eqb_refl by done. done.
Qed.

Context (check : Z -> A -> A -> Z -> Z -> option bool).
Context (Hfill : forall port sa da sp, fill_dip (check port sa da sp) dip_zero da = Some (content port sa da sp)).

(** The end of an insertion, in the slot [i] of the pair or a new one. *)
Lemma insert_tail cfgs done t port sa da sp i (e := slot t i) :
  fits cfgs -> (forall c, c ∈ done -> c ∈ cfgs) -> (port, sa, da, sp) ∈ cfgs ->
  addr_is_any sa = false -> addr_is_any da = false ->
  rep done t -> 0 <= i < N -> (okey t i = None \/ okey t i = Some (sa, sp)) ->
  chain N pair_idx (fun j => if j =? i then Some (sa, sp) else okey t j) ->
  entry_ok done sa sp e ->
  (find_cfg done sa da sp = None <-> forall j, 0 <= j < M -> ikey e j <> Some da) ->
  exists t', rep (done ++ [(port, sa, da, sp)]) t' /\
    (r ← ring_do (dip_body e da) FF_RSS_TBL_MAX_DIP_MASK (daddr_idx da) (Z.to_nat M) (daddr_idx da);
     match r with
     | inl (inr _) => Some t
     | inl (inl didx) | inr didx =>
         if (didx =? daddr_idx da) && negb (addr_is_any (daddr (dip e didx))) then Some t
         else
           d ← fill_dip (check port sa da sp) (dip e didx) da;
           let e := e <| dip_tbl ::= (fun l => <[Z.to_nat didx := d]> l) |> in
           let e := e <| saddr := sa |> <| sport := sp |> <| enum ::= (fun n => u16 (n + 1)) |> in
           Some (<[Z.to_nat i := e]> t)
     end) = Some t'.
Proof.
  intros Hfit Hin Hc Hsa Hda Hrep Hi Hold Hch He Hfind.
  destruct (dip_search done sa sp e da He) as [(j & Hj & Hk & ->) | [Hno [(s & Hs & Hk & Hu & ->) | Hfull]]].
  - exists t. split; [| done]. destruct (find_cfg done sa da sp) eqn:E; [now apply (rep_dup _ _ _ _ _ _ z) |].
    exfalso. now apply (proj1 Hfind eq_refl j Hj).
  - set (didx := at_step M (daddr_idx da) s) in *. cbn [mbind option_bind].
    assert (addr_is_any (daddr (dip e didx)) = true) as Hany by (unfold ikey in Hk; destruct (addr_is_any (daddr (dip e didx))); done).
    assert (0 <= didx < M) as Hr by (apply Z.mod_pos_bound, inner_size).
    rewrite Hany, andb_false_r, (eok_empty _ _ _ _ He didx Hr Hk), Hfill.
    eexists. split; [| reflexivity]. cbn.
    apply rep_put; try done.
    + apply entry_ok_insert; try done. now apply Hfind.
    + intros j da' Hj Hk'. unfold ikey. rewrite dip_insert by (rewrite ?(eok_length _ _ _ _ He); lia).
      destruct (Z.eqb_spec j didx) as [-> | _]; [unfold e in Hk; congruence | exact Hk'].
    + exists didx. split; [done |]. unfold ikey. rewrite dip_insert by (rewrite ?(eok_length _ _ _ _ He); lia).
      now rewrite Z.eqb_refl, Hcontent, Hda.
  - exfalso. now apply (dip_room cfgs done e port sa da sp).
Qed.

Lemma find_pair done t i sa da sp :
  rep done t -> 0 <= i < N -> okey t i = Some (sa, sp) ->
  find_cfg done sa da sp = None <-> forall j, 0 <= j < M -> ikey (slot t i) j <> Some da.
Proof.
  intros Hrep Hi Hk. split.
  - intros Hf j Hj Hkj. destruct (rep_entry _ _ Hrep _ _ _ Hi Hk) as [He _].
    destruct (eok_filled _ _ _ _ He _ _ Hj Hkj) as (p & Hp & _). congruence.
  - intros Hno. destruct (find_cfg done sa da sp) eqn:E; [| done].
    destruct (rep_complete _ _ Hrep _ _ _ _ E) as (i' & j & Hi' & Hj & Hk' & Hkj).
    destruct saddr_entries as (a & Ha & HN & Hm).
    assert (i' = i) as -> by (eapply (chain_unique a N pair_idx (okey t)); [apply (rep_chain _ _ Hrep) | done ..]).
    now apply Hno in Hkj.
Qed.

Lemma tbl_insert_step cfgs done t port sa da sp :
  fits cfgs -> (forall c, c ∈ done -> c ∈ cfgs) -> (port, sa, da, sp) ∈ cfgs ->
  addr_is_any sa = false -> addr_is_any da = false -> rep done t ->
  exists t', tbl_insert (check port) t sa da sp = Some t' /\ rep (done ++ [(port, sa, da, sp)]) t'.
Proof.
  intros Hfit Hin Hc Hsa Hda Hrep. unfold tbl_insert.
  change (fun i => if addr_is_any (saddr (slot t i)) || slot_is (slot t i) sa sp then Some i else None) with (slot_body t sa sp).
  destruct saddr_entries as (a & Ha & HN & Hm).
  destruct (slot_search done t sa sp Hrep) as [(i & Hi & Hk & ->) | [Hno [(s & Hs & Hk & Hu & ->) | Hfull]]]; cbn [mbind option_bind].
  - assert (slot_is (slot t i) sa sp = true) as ->.
    { unfold okey in Hk. destruct (addr_is_any (saddr (slot t i))); [done |]. injection Hk as <- <-. unfold slot_is.
      now rewrite bool_decide_eq_true_2, Z.eqb_refl. }
    rewrite andb_false_r.
    destruct (insert_tail cfgs done t port sa da sp i) as (t' & Hrep' & Hrun); try done; [by right | | | | eauto].
    + apply (chain_ext a N _ (proj1 Ha) HN Hm pair_idx (okey t)); [| apply (rep_chain _ _ Hrep)].
      intros j Hj. destruct (Z.eqb_spec j i) as [-> | _]; [done | done].
    + apply (rep_entry _ _ Hrep _ _ _ Hi Hk).
    + now apply find_pair.
  - set (i := at_step N (saddr_idx sa sp) s) in *. assert (0 <= i < N) as Hi by (apply Z.mod_pos_bound, outer_size).
    pose proof (rep_empty _ _ Hrep i Hi Hk) as Hz.
    assert (addr_is_any (saddr (slot t i)) = true) as -> by (rewrite Hz; apply addr_zero_any). rewrite andb_false_r. cbn [andb].
    destruct (insert_tail cfgs done t port sa da sp i) as (t' & Hrep' & Hrun); try done; [by left | | | | eauto].
    + apply (chain_insert a N _ (proj1 Ha) HN Hm pair_idx (okey t) (sa, sp) s); try done. apply (rep_chain _ _ Hrep).
    + rewrite Hz. apply entry_ok_zero.
    + split; [intros _ j _; rewrite Hz, ikey_zero; done |]. intros _. destruct (find_cfg done sa da sp) eqn:E; [| done].
      destruct (rep_complete _ _ Hrep _ _ _ _ E) as (i' & j & Hi' & _ & Hk' & _). now apply Hno in Hk'.
  - exfalso. now apply (tbl_room cfgs done t port sa da sp).
Qed.

Definition proper_cfg (c : Z * A * A * Z) : Prop := let '(_, sa, da, _) := c in addr_is_any sa = false /\ addr_is_any da = false.

Lemma tbl_insert_all_rep cfgs todo done t :
  fits cfgs -> Forall proper_cfg cfgs -> cfgs = done ++ todo -> rep done t ->
  exists t', tbl_insert_all check todo t = Some t' /\ rep cfgs t'.
Proof.
  intros Hfit Hp. revert done t. induction todo as [| [[[port sa] da] sp] todo IH]; intros done t Hd Hrep.
  { exists t. split; [done |]. now rewrite Hd, app_nil_r. }
  cbn [tbl_insert_all].
  assert ((port, sa, da, sp) ∈ cfgs) as Hc by (rewrite Hd; apply elem_of_app; right; constructor).
  destruct (proj1 (List.Forall_forall _ _) Hp _ (proj1 (list_elem_of_In _ _) Hc)) as [Hsa Hda].
  destruct (tbl_insert_step cfgs done t port sa da sp) as (t' & -> & Hrep'); try done.
  { intros c Hcd. rewrite Hd. apply elem_of_app. auto. }
  cbn [mbind option_bind]. apply (IH (done ++ [(port, sa, da, sp)])); [| done]. now rewrite Hd, <- app_assoc.
Qed.

(** Names the body of the loop in the goal. *)
Ltac set_body x := match goal with |- context [ring_do ?b _ _ _ _] => set (x := b) end.

(** Looking up a connection in a table. *)
Lemma dip_lookup_rep done sa sp e da :
  entry_ok done sa sp e ->
  (exists j port, 0 <= j < M /\ ikey e j = Some da /\ find_cfg done sa da sp = Some port /\
     let d := content port sa da sp in dip_lookup e da = Some (inr (first_idx d, last_idx d, dport d))) \/
  (forall j, 0 <= j < M -> ikey e j <> Some da) /\ dip_lookup e da = Some (inl (- ENOENT)).
Proof.
  intros He. destruct daddr_entries as (a & Ha & HM & Hm). unfold dip_lookup. cbv zeta.
  set_body body.
  destruct (chain_search a M _ (proj1 Ha) HM Hm daddr_idx daddr_idx_range (ikey e) da body
    (fun j => Some (inr (first_idx (dip e j), last_idx (dip e j), dport (dip e j)))) (fun _ => Some (inl (- ENOENT)))
    (eok_chain _ _ _ _ He)) as [(j & b & Hj & Hk & [= <-] & ->) | [Hno [(s & b & Hs & Hk & Hu & [= <-] & ->) | [Hfull ->]]]].
  - intros j _. unfold body, ikey. destruct (addr_is_any _); [done |].
    destruct (decide (daddr (dip e j) = da)); [now rewrite bool_decide_eq_true_2 | now rewrite bool_decide_eq_false_2].
  - eauto.
  - eauto.
  - left. destruct (eok_filled _ _ _ _ He _ _ Hj Hk) as (port & Hp & Hd). exists j, port. rewrite Hd. done.
  - right. done.
  - right. done.
Qed.

Lemma get_portrange_rep cfgs t sa da sp :
  rep cfgs t ->
  tbl_get_portrange true t sa da sp =
  Some match find_cfg cfgs sa da sp with
       | Some port => let d := content port sa da sp in inr (first_idx d, last_idx d, dport d)
       | None => inl (- ENOENT)
       end.
Proof.
  intros Hrep. unfold tbl_get_portrange. cbn [negb]. cbv zeta. set_body body.
  destruct saddr_entries as (a & Ha & HN & Hm).
  destruct (chain_search a N _ (proj1 Ha) HN Hm pair_idx pair_idx_range (okey t) (sa, sp) body
    (fun i => Some (dip_lookup (slot t i) da)) (fun _ => Some (Some (inl (- ENOENT))))
    (rep_chain _ _ Hrep)) as [(i & b & Hi & Hk & [= <-] & Hrun) | [Hno Hcase]].
  - intros i _. unfold body, okey, slot_is. destruct (addr_is_any (saddr (slot t i))); [done |].
    destruct (decide ((saddr (slot t i), sport (slot t i)) = (sa, sp))) as [E | E].
    + injection E as -> ->. now rewrite bool_decide_eq_true_2, Z.eqb_refl.
    + destruct (Z.eqb_spec (sport (slot t i)) sp); [| now rewrite andb_false_r].
      rewrite bool_decide_eq_false_2; [done | congruence].
  - eauto.
  - eauto.
  - change (saddr_idx sa sp) with (pair_idx (sa, sp)). rewrite Hrun. cbn [mbind option_bind].
    destruct (rep_entry _ _ Hrep _ _ _ Hi Hk) as [He _].
    destruct (dip_lookup_rep _ _ _ _ da He) as [(j & port & Hj & Hkj & -> & ->) | [Hno ->]]; [done |].
    now rewrite (proj2 (find_pair _ _ _ _ _ _ Hrep Hi Hk) Hno).
  - assert (find_cfg cfgs sa da sp = None) as ->.
    { destruct (find_cfg cfgs sa da sp) eqn:E; [| done].
      destruct (rep_complete _ _ Hrep _ _ _ _ E) as (i & j & Hi & _ & Hk & _). now apply Hno in Hk. }
    change (saddr_idx sa sp) with (pair_idx (sa, sp)).
    destruct Hcase as [(s & b & Hs & Hk & Hu & [= <-] & ->) | [_ ->]]; done.
Qed.
End rep.
