(* ===== verification/RssRange.v ===== *)
(** * Ranges of local ports

    What [ff_rss_tbl_set_portrange] makes of the tables of [RssTbl], and what a
    lookup gives after the whole life of a table: initialisation, narrowing to
    the range of ephemeral ports, lookup. *)

From Stdlib Require Import Sorted.
From stdpp Require Import list vector.
From S2P Require Import Prelude Rss RssTbl.
Local Open Scope Z_scope.

(** ** Sorted lists *)

Lemma filter_nil {X} (g : X -> bool) l : Forall (fun x => g x = false) l -> List.filter g l = [].
Proof. induction 1 as [| x l Hx _ IH]; [done |]. cbn. now rewrite Hx. Qed.

Lemma sorted_filter (g : Z -> bool) l : StronglySorted Z.lt l -> StronglySorted Z.lt (List.filter g l).
Proof.
  induction 1 as [| x l Hs IH Hx]; cbn; [constructor |]. destruct (g x); [| done]. constructor; [done |].
  apply List.Forall_forall. intros y [Hy _]%filter_In. now apply (proj1 (List.Forall_forall _ _) Hx).
Qed.

Lemma sorted_take n (l : list Z) : StronglySorted Z.lt l -> StronglySorted Z.lt (take n l).
Proof.
  intros H. revert n. induction H as [| x l Hs IH Hx]; intros [| n]; cbn; constructor; [apply IH |]. now apply Forall_take.
Qed.

Lemma sorted_seq a n : StronglySorted Z.lt (map Z.of_nat (seq a n)).
Proof.
  revert a. induction n as [| n IH]; intros a; cbn; constructor; [apply IH |].
  apply List.Forall_forall. intros y (m & <- & Hm%in_seq)%in_map_iff. lia.
Qed.

(** A sorted list cut at the two ends of a range. *)
Definition in_range (f l : Z) (x : Z) : bool := (f <=? x) && (x <=? l).

Lemma sorted_split f l ps :
  f <= l -> StronglySorted Z.lt ps ->
  ps = List.filter (fun x => x <? f) ps ++ List.filter (in_range f l) ps ++ List.filter (fun x => l <? x) ps.
Proof.
  intros Hfl. induction 1 as [| x ps Hs IH Hx]; [done |]. cbn [List.filter]. unfold in_range at 1.
  assert (forall g, (forall y, x < y -> g y = false) -> List.filter g ps = []) as Hnil
    by (intros g Hg; apply filter_nil; eapply List.Forall_impl; [| exact Hx]; done).
  destruct (Z.ltb_spec x f), (Z.leb_spec f x), (Z.leb_spec x l), (Z.ltb_spec l x); try lia; cbn [andb app].
  - now f_equal.
  - rewrite (Hnil (fun x => x <? f)) in IH |- * by (intros; apply Z.ltb_ge; lia). cbn [app] in *. now f_equal.
  - rewrite (Hnil (fun x => x <? f)), (Hnil (in_range f l)) in IH |- *; try (intros y Hy; unfold in_range; lia).
    cbn [app] in *. now f_equal.
Qed.

Lemma sorted_nth (ps : list Z) i j : StronglySorted Z.lt ps -> (i < j < length ps)%nat -> nth i ps 0 < nth j ps 0.
Proof.
  intros H. revert i j. induction H as [| x ps Hs IH Hx]; intros i j Hij; cbn in Hij; [lia |].
  destruct j as [| j]; [lia |]. destruct i as [| i]; cbn [nth]; [| apply IH; lia].
  apply (proj1 (List.Forall_forall _ _) Hx), nth_In. lia.
Qed.

(** The place of a cut. *)
Lemma cut_index (g : Z -> bool) (a b : list Z) i :
  Forall (fun x => g x = true) a -> Forall (fun x => g x = false) b -> (i < length (a ++ b))%nat ->
  g (nth i (a ++ b) 0) = true <-> (i < length a)%nat.
Proof.
  intros Ha Hb Hi. rewrite length_app in Hi. destruct (decide (i < length a)%nat) as [Hlt | Hge].
  - rewrite app_nth1 by done. split; [done |]. intros _. now apply (proj1 (List.Forall_forall _ _) Ha), nth_In.
  - rewrite app_nth2 by lia. rewrite (proj1 (List.Forall_forall _ _) Hb); [split; [done | lia] |]. apply nth_In. lia.
Qed.

Lemma filter_forall {X} (g : X -> bool) (Q : X -> Prop) l : (forall x, g x = true -> Q x) -> Forall Q (List.filter g l).
Proof. intros Hg. apply List.Forall_forall. intros x [_ Hx]%filter_In. now apply Hg. Qed.

(** ** One entry *)

Section range.
Context {A : Type} (lo hi n c1 c2 : Z) (pt : Z -> Z).
Implicit Types (d : ff_rss_tbl_dip_type (A := A)).
Context (Hfl : lo <= hi) (Hn : n < 65536) (Hc : 0 <= c1 < c2) (Hcn : c2 <= n).
Context (Hp1 : forall k, 1 <= k <= n -> pt k < lo <-> k <= c1) (Hp2 : forall k, 1 <= k <= n -> pt k <= hi <-> k <= c2)
  (Hp3 : forall k, 1 <= k < n -> pt k < pt (k + 1)).

Lemma range_loop_last d fuel k :
  (forall k, arr_get (dport d) k = pt k) -> first_idx d <> 0 -> hi <= pt n -> 1 <= k <= n -> k <= c2 + 1 ->
  fuel = Z.to_nat (n - k + 1) -> range_loop lo hi d fuel k = d <| last_idx := c2 |>.
Proof.
  intros Hd Hf Hln. revert k. induction fuel as [| fuel IH]; intros k Hk Hk2 Hfuel; [lia |].
  cbn [range_loop]. rewrite (proj2 (Z.eqb_neq _ _)) by done. cbn [andb]. rewrite Hd.
  pose proof (Hp2 k Hk) as H2.
  destruct (Z.eqb_spec (pt k) hi) as [E | E].
  - assert (k = c2) as ->; [| unfold u16; now rewrite Z.mod_small by lia].
    destruct (Z.eq_dec k n) as [-> | Hne]; [lia |]. pose proof (Hp2 (k + 1)). pose proof (Hp3 k). lia.
  - destruct (Z.ltb_spec hi (pt k)).
    + assert (k = c2 + 1) as -> by lia. rewrite (proj2 (Z.ltb_lt _ _)) by lia.
      unfold u16. rewrite Z.mod_small by lia. now replace (c2 + 1 - 1) with c2 by lia.
    + assert (k <> n) by (intros ->; lia). apply IH; lia.
Qed.

Lemma range_loop_first d fuel k :
  (forall k, arr_get (dport d) k = pt k) -> num d = n -> last_idx d = n -> first_idx d = 0 -> 1 <= k <= c1 + 1 ->
  fuel = Z.to_nat (n - k + 1) -> range_loop lo hi d fuel k = d <| first_idx := c1 + 1 |> <| last_idx := c2 |>.
Proof.
  intros Hd Hnum Hlast Hf. revert k. induction fuel as [| fuel IH]; intros k Hk Hfuel; [lia |].
  cbn [range_loop]. rewrite Hf, Hd, Z.eqb_refl. cbn [andb].
  pose proof (Hp1 k) as H1. pose proof (Hp2 k) as H2. destruct (Z.leb_spec lo (pt k)) as [Hle | Hlt].
  - assert (k = c1 + 1) as -> by lia. assert (u16 (c1 + 1) = c1 + 1) as -> by (apply Z.mod_small; lia).
    set (d1 := d <| first_idx := c1 + 1 |>).
    assert ((forall k, arr_get (dport d1) k = pt k) /\ num d1 = n /\ last_idx d1 = n /\ first_idx d1 <> 0) as (Hd1 & Hn1 & Hl1 & Hf1)
      by (split_and!; (done || (cbn; lia))).
    rewrite !Hd1, Hn1. destruct (Z.ltb_spec (pt n) hi) as [Hnl | Hnl].
    { assert (c2 = n) as -> by (pose proof (Hp2 n); lia). apply dip_ext; cbn; done. }
    destruct (Z.eqb_spec lo hi) as [E | E].
    { assert (c2 = c1 + 1) as -> by (destruct (Z.eq_dec (c1 + 1) n); [lia | pose proof (Hp2 (c1 + 1 + 1)); pose proof (Hp3 (c1 + 1)); lia]). done. }
    destruct (Z.eqb_spec (pt (c1 + 1)) hi) as [E' | E'].
    { assert (c2 = c1 + 1) as -> by (destruct (Z.eq_dec (c1 + 1) n); [lia | pose proof (Hp2 (c1 + 1 + 1)); pose proof (Hp3 (c1 + 1)); lia]). done. }
    rewrite (proj2 (Z.ltb_ge _ _)) by lia.
    assert (c1 + 1 <> n) by (intros E2; rewrite E2 in *; lia). apply range_loop_last; (done || lia).
  - rewrite (proj2 (Z.eqb_neq _ _)), (proj2 (Z.ltb_ge _ _)) by lia. apply IH; lia.
Qed.
End range.

(** The ports of an entry that the stack may use: all accepted ones, except
    that the last is left out when every port is accepted (a single queue),
    where initialisation records one port less. *)
Definition owned_ports `{RssSizes} (ok : Z -> bool) : list Z := take (Z.to_nat (usable ok)) (accepted ok).

Section entry.
Context {A : Type} `{RssAddr A, RssSizes, !RssSizesLaws}.

Lemma usable_range ok : 0 <= usable ok < 65536 /\ usable ok <= Z.of_nat (length (accepted ok)).
Proof.
  pose proof dport_entries. pose proof (length_accepted ok). unfold usable.
  destruct (Z.eqb_spec (Z.of_nat (length (accepted ok))) FF_RSS_TBL_MAX_DPORT); lia.
Qed.

Lemma length_owned ok : Z.of_nat (length (owned_ports ok)) = usable ok.
Proof. unfold owned_ports. rewrite length_take. pose proof (usable_range ok). lia. Qed.

Lemma owned_sorted ok : StronglySorted Z.lt (owned_ports ok).
Proof. apply sorted_take, sorted_filter, sorted_seq. Qed.

(** The ports of an entry at its indices. *)
Lemma filled_port ok (da : A) k : 1 <= k <= usable ok -> arr_get (dport (filled ok da)) k = nth (Z.to_nat (k - 1)) (owned_ports ok) 0.
Proof.
  intros Hk. pose proof (usable_range ok). unfold arr_get. cbn [filled dport].
  replace (Z.to_nat k) with (S (Z.to_nat (k - 1))) by lia. cbn [nth]. unfold owned_ports.
  rewrite app_nth1 by lia. rewrite !nth_lookup, lookup_take_lt by lia. done.
Qed.

(** Narrowing a fresh entry to a range that has a port of it: the entry then
    spans exactly those ports. *)
Lemma filled_set_portrange ok (da : A) lo hi :
  lo <= hi -> List.filter (in_range lo hi) (owned_ports ok) <> [] ->
  exists d, dip_set_portrange lo hi (filled ok da) = (d, true) /\ daddr d = da /\
    take (Z.to_nat (last_idx d - first_idx d + 1)) (drop (Z.to_nat (first_idx d)) (dport d)) =
    List.filter (in_range lo hi) (owned_ports ok) /\
    1 <= first_idx d <= last_idx d /\ first d = lo /\ last d = hi /\ num d = usable ok.
Proof.
  intros Hfl Hne. pose proof (usable_range ok) as [Hu Hua]. pose proof (owned_sorted ok) as Hs.
  pose proof (sorted_split lo hi _ Hfl Hs) as Hsp. pose proof (length_owned ok) as Hlen.
  set (ps := owned_ports ok) in *. set (l1 := List.filter (fun x => x <? lo) ps) in *.
  set (l2 := List.filter (in_range lo hi) ps) in *. set (l3 := List.filter (fun x => hi <? x) ps) in *.
  set (c1 := Z.of_nat (length l1)). set (c2 := c1 + Z.of_nat (length l2)).
  assert (0 < Z.of_nat (length l2)) as H2 by (destruct l2; [done | cbn; lia]).
  assert (usable ok = c2 + Z.of_nat (length l3)) as Hn by (rewrite <- Hlen, Hsp, !length_app; lia).
  set (d := filled ok da). set (d0 := d <| first := lo |> <| last := hi |> <| first_idx := 0 |>).
  assert (forall k, 1 <= k <= usable ok -> arr_get (dport d) k = nth (Z.to_nat (k - 1)) ps 0) as Hport by (intros; now apply filled_port).
  assert (range_loop lo hi d0 (Z.to_nat (num d0)) 1 = d0 <| first_idx := c1 + 1 |> <| last_idx := c2 |>) as Hrun.
  { apply (range_loop_first lo hi (usable ok) c1 c2 (arr_get (dport d))); try done; try lia; try (cbn; f_equal; lia).
    - intros k Hk. rewrite Hport by done. pose proof (cut_index (fun x => x <? lo) l1 (l2 ++ l3) (Z.to_nat (k - 1))) as Hcut.
      rewrite <- Hsp, Z.ltb_lt in Hcut. rewrite Hcut; [lia | | | lia].
      + now apply filter_forall.
      + apply Forall_app. split; apply filter_forall; intros x; unfold in_range; lia.
    - intros k Hk. rewrite Hport by done. pose proof (cut_index (fun x => x <=? hi) (l1 ++ l2) l3 (Z.to_nat (k - 1))) as Hcut.
      rewrite <- app_assoc, <- Hsp, Z.leb_le, length_app in Hcut. rewrite Hcut; [lia | | | lia].
      + apply Forall_app. split; apply filter_forall; intros x; unfold in_range; lia.
      + apply filter_forall. intros x. lia.
    - intros k Hk. rewrite !Hport by lia. apply sorted_nth; [done | lia]. }
  unfold dip_set_portrange. fold d. fold d0. rewrite Hrun. eexists. split; [f_equal |].
  { cbn. rewrite (proj2 (Z.eqb_neq _ _)), (proj2 (Z.ltb_ge _ _)) by lia. done. }
  split; [done |]. split; [| split; [cbn; lia | done]].
  unfold d0, d. cbn [upd first_idx last_idx dport filled].
  replace (Z.to_nat (c1 + 1)) with (S (length l1)) by lia. replace (Z.to_nat (c2 - (c1 + 1) + 1)) with (length l2) by lia. cbn [drop].
  assert (ps ++ drop (Z.to_nat (usable ok)) (accepted ok) = accepted ok) as <- by apply take_drop.
  rewrite Hsp, <- !app_assoc, drop_app_length, take_app_length. done.
Qed.
End entry.

(** ** The whole table *)

Section table.
Context {A : Type} `{RssAddr A, !RssAddrLaws A, RssSizes, !RssSizesLaws} (lo hi : Z).
Implicit Types (d : ff_rss_tbl_dip_type (A := A)) (e : ff_rss_tbl_type (A := A)) (t : list (ff_rss_tbl_type (A := A))).

Definition narrow_dip d := if addr_is_any (daddr d) then d else fst (dip_set_portrange lo hi d).
Definition narrow_entry e := if addr_is_any (saddr e) then e else e <| dip_tbl := map narrow_dip (dip_tbl e) |>.

Lemma range_loop_daddr d n k : daddr (range_loop lo hi d n k) = daddr d.
Proof. revert d k. induction n as [| n IH]; intros d k; cbn [range_loop]; [done |]. repeat case_match; try done; now rewrite IH. Qed.

Lemma narrow_daddr d : daddr (narrow_dip d) = daddr d.
Proof.
  unfold narrow_dip, dip_set_portrange. destruct (addr_is_any (daddr d)); [reflexivity |]. cbn [fst].
  now rewrite range_loop_daddr.
Qed.

Lemma dips_narrowed (ds : list (ff_rss_tbl_dip_type (A := A))) :
  (forall d, d ∈ ds -> addr_is_any (daddr d) = false -> snd (dip_set_portrange lo hi d) = true) ->
  dips_set_portrange lo hi ds = (map narrow_dip ds, true).
Proof.
  induction ds as [| d ds IH]; intros Hok; [done |]. cbn [dips_set_portrange map]. rewrite IH by (intros; apply Hok; [now constructor | done]).
  assert (narrow_dip d = if addr_is_any (daddr d) then d else fst (dip_set_portrange lo hi d)) as -> by reflexivity.
  destruct (addr_is_any (daddr d)) eqn:Ha; [reflexivity |].
  pose proof (Hok d ltac:(constructor) Ha) as Hs. destruct (dip_set_portrange lo hi d) as [d' b]. cbn in Hs. now subst b.
Qed.

Lemma entries_narrowed t :
  (forall e d, e ∈ t -> addr_is_any (saddr e) = false -> d ∈ dip_tbl e -> addr_is_any (daddr d) = false ->
     snd (dip_set_portrange lo hi d) = true) ->
  entries_set_portrange lo hi t = (map narrow_entry t, true).
Proof.
  induction t as [| e t IH]; intros Hok; [done |]. cbn [entries_set_portrange map].
  rewrite IH by (intros e' d He; apply Hok; now constructor).
  assert (narrow_entry e = if addr_is_any (saddr e) then e else e <| dip_tbl := map narrow_dip (dip_tbl e) |>) as -> by reflexivity.
  destruct (addr_is_any (saddr e)) eqn:Ha; [reflexivity |].
  rewrite dips_narrowed; [reflexivity |]. intros d Hd. apply (Hok e d); [constructor | done | done].
Qed.

Lemma narrow_entry_zero : narrow_entry entry_zero = entry_zero.
Proof. unfold narrow_entry. change (saddr entry_zero) with addr_zero. now rewrite addr_zero_any. Qed.
Lemma narrow_dip_zero : narrow_dip dip_zero = dip_zero.
Proof. unfold narrow_dip. change (daddr dip_zero) with addr_zero. now rewrite addr_zero_any. Qed.

Lemma slot_narrowed t i : slot (map narrow_entry t) i = narrow_entry (slot t i).
Proof. unfold slot. now rewrite <- (map_nth narrow_entry), narrow_entry_zero. Qed.

Lemma dip_narrowed e j : addr_is_any (saddr e) = false -> dip (narrow_entry e) j = narrow_dip (dip e j).
Proof.
  intros Ha. unfold narrow_entry, dip. rewrite Ha. cbn [dip_tbl upd]. now rewrite <- (map_nth narrow_dip), narrow_dip_zero.
Qed.

Lemma okey_narrowed t i : okey (map narrow_entry t) i = okey t i.
Proof. unfold okey. rewrite slot_narrowed. unfold narrow_entry. destruct (addr_is_any (saddr (slot t i))) eqn:E; cbn; now rewrite E. Qed.

Lemma ikey_narrowed e j : addr_is_any (saddr e) = false -> ikey (narrow_entry e) j = ikey e j.
Proof. intros Ha. unfold ikey. now rewrite dip_narrowed, narrow_daddr. Qed.

Context (content : Z -> A -> A -> Z -> ff_rss_tbl_dip_type) (Hcontent : forall port sa da sp, daddr (content port sa da sp) = da).

Lemma okey_saddr t i k : okey t i = Some k -> addr_is_any (saddr (slot t i)) = false.
Proof. unfold okey. now destruct (addr_is_any (saddr (slot t i))). Qed.

Lemma rep_narrowed cfgs t :
  rep content cfgs t -> rep (fun port sa da sp => narrow_dip (content port sa da sp)) cfgs (map narrow_entry t).
Proof.
  intros [Hl Hc He Hent Hcomp]. split.
  - now rewrite length_map.
  - intros i k Hi. rewrite okey_narrowed. intros Hk. destruct (Hc i k Hi Hk) as (s & Hs & Hi' & Hu). exists s.
    do 2 (split; [done |]). intros u Hus. rewrite okey_narrowed. now apply Hu.
  - intros i Hi. rewrite okey_narrowed, slot_narrowed. intros Hk. rewrite He by done. apply narrow_entry_zero.
  - intros i sa sp Hi. rewrite okey_narrowed, slot_narrowed. intros Hk. destruct (Hent i sa sp Hi Hk) as [[Hel Hec Hee Hef] Hin].
    pose proof (okey_saddr _ _ _ Hk) as Ha. split; [| done]. split.
    + unfold narrow_entry. rewrite Ha. cbn. now rewrite length_map.
    + intros j k Hj. rewrite ikey_narrowed by done. intros Hkj. destruct (Hec j k Hj Hkj) as (s & Hs & Hj' & Hu). exists s.
      do 2 (split; [done |]). intros u Hus. rewrite ikey_narrowed by done. now apply Hu.
    + intros j Hj. rewrite ikey_narrowed, dip_narrowed by done. intros Hkj. rewrite Hee by done. apply narrow_dip_zero.
    + intros j da Hj. rewrite ikey_narrowed, dip_narrowed by done. intros Hkj.
      destruct (Hef j da Hj Hkj) as (port & Hp & ->). now exists port.
  - intros sa da sp port Hf. destruct (Hcomp sa da sp port Hf) as (i & j & Hi & Hj & Hk & Hkj). exists i, j.
    rewrite okey_narrowed, slot_narrowed, ikey_narrowed by now apply (okey_saddr _ _ _ Hk). done.
Qed.

(** Every entry of a table is the content of a configured connection. *)
Lemma rep_entries cfgs t e d :
  rep content cfgs t -> e ∈ t -> addr_is_any (saddr e) = false -> d ∈ dip_tbl e -> addr_is_any (daddr d) = false ->
  exists port sa da sp, find_cfg cfgs sa da sp = Some port /\ d = content port sa da sp /\ addr_is_any da = false.
Proof.
  intros Hrep (i & He)%list_elem_of_lookup Hsa (j & Hd)%list_elem_of_lookup Hda.
  assert (slot t (Z.of_nat i) = e) as Hs by (unfold slot; rewrite Nat2Z.id; now apply nth_lookup_Some).
  assert (dip e (Z.of_nat j) = d) as Hdp by (unfold dip; rewrite Nat2Z.id; now apply nth_lookup_Some).
  assert (0 <= Z.of_nat i < FF_RSS_TBL_MAX_SADDR_SPORT_ENTRIES) as Hi
    by (apply lookup_lt_Some in He; rewrite (rep_length _ _ _ Hrep) in He; lia).
  destruct (rep_entry _ _ _ Hrep (Z.of_nat i) (saddr e) (sport e) Hi) as [Hok _]; [unfold okey; now rewrite Hs, Hsa |].
  rewrite Hs in Hok. assert (0 <= Z.of_nat j < FF_RSS_TBL_MAX_DADDR) as Hj
    by (apply lookup_lt_Some in Hd; rewrite (eok_length _ _ _ _ _ Hok) in Hd; lia).
  destruct (eok_filled _ _ _ _ _ Hok (Z.of_nat j) (daddr d) Hj) as (port & Hp & Hc); [unfold ikey; now rewrite Hdp, Hda |].
  exists port, (saddr e), (daddr d), (sport e). rewrite Hdp in Hc. done.
Qed.
End table.

(** ** The life of a table *)

Section life.
Context {A : Type} `{RssAddr A, !RssAddrLaws A, RssSizes, !RssSizesLaws}.
Context (check : Z -> A -> A -> Z -> Z -> option bool) (ok : Z -> A -> A -> Z -> Z -> bool).
Context (Hcheck : forall port sa da sp j, check port sa da sp (htons j) = Some (ok port sa da sp j)).

(** A lookup after initialisation. *)
Lemma tbl_fresh cfgs :
  fits cfgs -> Forall proper_cfg cfgs ->
  exists t, tbl_init check true cfgs = Some (0, t) /\
    rep (fun port sa da sp => filled (ok port sa da sp) da) cfgs t.
Proof.
  intros Hfit Hp. unfold tbl_init. cbn [negb].
  destruct (tbl_insert_all_rep (fun port sa da sp => filled (ok port sa da sp) da) ltac:(done) check
    ltac:(intros; apply fill_dip_spec; intros; apply Hcheck) cfgs cfgs [] tbl_zero Hfit Hp eq_refl (rep_zero _)) as (t & -> & Hrep).
  now exists t.
Qed.

(** The connection's ports in the range, which there have to be some of. *)
Definition has_ports (cfgs : list (Z * A * A * Z)) (lo hi : Z) : Prop :=
  forall port sa da sp, find_cfg cfgs sa da sp = Some port ->
    List.filter (in_range lo hi) (owned_ports (ok port sa da sp)) <> [].

(** What a lookup gives after the table has been narrowed to a range. *)
Definition narrowed_answer (cfgs : list (Z * A * A * Z)) (lo hi : Z) (sa da : A) (sp : Z)
    (r : option (Z + Z * Z * list Z)) : Prop :=
  match find_cfg cfgs sa da sp with
  | None => r = Some (inl (- ENOENT))
  | Some port => exists i j l, r = Some (inr (i, j, l)) /\ 1 <= i <= j /\
      take (Z.to_nat (j - i + 1)) (drop (Z.to_nat i) l) = List.filter (in_range lo hi) (owned_ports (ok port sa da sp))
  end.

Lemma tbl_life cfgs lo hi :
  fits cfgs -> Forall proper_cfg cfgs -> lo <= hi -> has_ports cfgs lo hi ->
  exists t t', tbl_init check true cfgs = Some (0, t) /\ tbl_set_portrange true lo hi t = (t', 0) /\
    forall sa da sp, narrowed_answer cfgs lo hi sa da sp (tbl_get_portrange true t' sa da sp).
Proof.
  intros Hfit Hp Hlh Hports. destruct (tbl_fresh cfgs Hfit Hp) as (t & Hinit & Hrep).
  exists t, (map (narrow_entry lo hi) t). split; [done |]. split.
  - unfold tbl_set_portrange. rewrite (proj2 (Z.ltb_ge _ _)) by lia. cbn [orb negb]. rewrite entries_narrowed; [done |].
    intros e d He Hsa Hd Hda. destruct (rep_entries _ _ _ _ _ Hrep He Hsa Hd Hda) as (port & sa & da & sp & Hf & -> & _).
    destruct (filled_set_portrange (ok port sa da sp) da lo hi Hlh (Hports _ _ _ _ Hf)) as (d' & -> & _). done.
  - intros sa da sp. rewrite (get_portrange_rep _ _ _ _ _ _ (rep_narrowed lo hi _ _ _ Hrep)). unfold narrowed_answer.
    destruct (find_cfg cfgs sa da sp) as [port |] eqn:Hf; [| done].
    destruct (filled_set_portrange (ok port sa da sp) da lo hi Hlh (Hports _ _ _ _ Hf)) as (d' & Hd & Hda & Hsl & Hij & _).
    assert (addr_is_any da = false) as Hany.
    { apply find_cfg_elem, list_elem_of_In in Hf. now destruct (proj1 (List.Forall_forall _ _) Hp _ Hf). }
    assert (narrow_dip lo hi (filled (ok port sa da sp) da) = d') as ->
      by (unfold narrow_dip; change (daddr (filled _ da)) with da; now rewrite Hany, Hd).
    exists (first_idx d'), (last_idx d'), (dport d'). done.
Qed.
End life.

#[export] Instance rss_addr4_laws : RssAddrLaws Z.
Proof. now constructor. Qed.
#[export] Instance rss_addr6_laws : RssAddrLaws (vec Z 16).
Proof. now constructor. Qed.

(** A port that is set up: one queue, or a key that can be hashed with. *)
Definition hashes (p : rss_port) : Prop :=
  nb_queues p <= 1 \/ (Forall is_byte (rsskey p) /\ (4 <= rsskey_len p <= length (rsskey p))%nat).

(** The process owns the connection with local port [j]. *)
Definition owns4 (rss : Z -> rss_port) (port sa da sp j : Z) : bool := default false (ff_rss_check (rss port) sa da sp (htons j)).
Definition owns6 (rss : Z -> rss_port) (port : Z) (sa da : vec Z 16) (sp j : Z) : bool :=
  default false (ff_rss_check6 (rss port) (vec_to_list sa) (vec_to_list da) sp (htons j)).

Lemma own_queue_total p data : hashes p -> 1 < nb_queues p -> is_Some (own_queue p data).
Proof. intros [? | [Hk Hl]] Hn; [lia |]. now rewrite own_queue_spec. Qed.

(** C9. The table of local ports from its initialisation to a lookup after the
    first narrowing.  When the configuration fits in the table ([fits]), names
    real addresses, and every configured connection has at least one usable
    port in the range ([has_ports]; without one the narrowing can be accepted
    with a port outside the range, [portrange_outside]), initialisation and
    narrowing to the range succeed, and a lookup of a configured connection
    then gives indices that delimit exactly the ports of the range, in ascending
    order, whose packets reach the process's own queue, apart from port 65535
    when there is a single queue ([owned_ports]); a connection that is not
    configured is not found. *)
Theorem rss_tbl_portrange_exact `{RssSizes, !RssSizesLaws} (rss : Z -> rss_port) (cfgs : list ff_rss_tbl_cfg) (lo hi : Z)
    (Hrss : forall port, hashes (rss port)) (Hfit : fits (cfgs4 cfgs)) (Hproper : Forall proper_cfg (cfgs4 cfgs))
    (Hlh : lo <= hi) (Hports : has_ports (owns4 rss) (cfgs4 cfgs) lo hi) :
  exists t t', ff_rss_tbl_init rss true cfgs = Some (0, t) /\ ff_rss_tbl_set_portrange true lo hi t = (t', 0) /\
    forall sa da sp, narrowed_answer (owns4 rss) (cfgs4 cfgs) lo hi sa da sp (ff_rss_tbl_get_portrange true t' sa da sp).
Proof.
  apply tbl_life; try done. intros port sa da sp j. unfold owns4, ff_rss_check.
  destruct (Z.leb_spec (nb_queues (rss port)) 1); [done |]. edestruct own_queue_total as [b ->]; done.
Qed.

(** The same for IPv6. *)
Theorem rss_tbl6_portrange_exact `{RssSizes, !RssSizesLaws} (rss : Z -> rss_port) (cfgs : list ff_rss_tbl_cfg) (lo hi : Z) :
  (forall port, hashes (rss port)) -> fits (cfgs6 cfgs) -> Forall proper_cfg (cfgs6 cfgs) ->
  lo <= hi -> has_ports (owns6 rss) (cfgs6 cfgs) lo hi ->
  exists t t', ff_rss_tbl6_init rss true cfgs = Some (0, t) /\ ff_rss_tbl6_set_portrange true lo hi t = (t', 0) /\
    forall sa da sp, narrowed_answer (owns6 rss) (cfgs6 cfgs) lo hi sa da sp (ff_rss_tbl6_get_portrange true t' sa da sp).
Proof.
  intros Hrss Hfit Hp Hlh Hports. apply tbl_life; try done. intros port sa da sp j. unfold owns6, ff_rss_check6.
  destruct (Z.leb_spec (nb_queues (rss port)) 1); [done |]. edestruct own_queue_total as [b ->]; done.
Qed.

(** ** What narrowing does not do *)

(** Widening a range again does not bring the ports back: the last index is
    left where the narrower range put it. *)
Example portrange_widen_stale :
  let d := RssDip (A := Z) 1 10 40 1 4 4 [1; 10; 20; 30; 40] in
  let d := fst (dip_set_portrange 10 20 d) in
  let d := fst (dip_set_portrange 10 100 d) in
  (first_idx d, last_idx d) = (1, 2).
Proof. reflexivity. Qed.

(** A range below the first port is not refused: its entry spans a port outside
    the range.  So does a range of one port that the process does not own. *)
Example portrange_outside :
  let d := RssDip (A := Z) 1 10 40 1 4 4 [1; 10; 20; 30; 40] in
  let '(d1, ok1) := dip_set_portrange 3 5 d in
  let '(d2, ok2) := dip_set_portrange 25 25 d in
  (ok1, first_idx d1, last_idx d1, ok2, first_idx d2, last_idx d2) = (true, 1, 1, true, 3, 3).
Proof. reflexivity. Qed.
