(* ===== verification/RssModel.v ===== *)
(** * Receive-side scaling: concrete runs

    A library that looks for the port by trying all of them, a small table, and
    the theorems of [Rss] and [RssRange] at concrete ports and connections. *)

From stdpp Require Import list vector.
From S2P Require Import Prelude Rss RssTbl RssRange.
Local Open Scope Z_scope.

(** ** An implementation of [rte_thash_adjust_tuple] *)

(** The tuple with the low [k] bits of its last port set to [i]. *)
Definition with_low (off : nat) (k : Z) (t : list Z) (i : nat) : list Z :=
  take off t ++ le_bytes 2 (htons (htons (le_word (drop off t)) / 2 ^ k * 2 ^ k + Z.of_nat i)).

Definition try_all (key : list Z) (off : nat) (k : Z) (n : nat) (t : list Z) (v : Z) : option (list Z) :=
  List.find (fun t' => Z.land (toeplitz key t') (2 ^ k - 1) =? v) (map (with_low off k t) (seq 0 (Z.to_nat (2 ^ k)))).

Lemma try_all_thash key off k : 0 <= k <= 16 -> ThashAdjust (try_all key off k) key off k.
Proof.
  intros Hk.
  assert (forall n t v t', try_all key off k n t v = Some t' ->
    Z.land (toeplitz key t') (2 ^ k - 1) = v /\ exists i, (i < Z.to_nat (2 ^ k))%nat /\ t' = with_low off k t i) as H.
  { intros n t v t' [Hin Hv%Z.eqb_eq]%find_some. apply in_map_iff in Hin as (i & <- & Hi%in_seq).
    split; [done |]. exists i. split; [lia | done]. }
  pose proof (Z.pow_pos_nonneg 2 k ltac:(lia) ltac:(lia)) as Hpos.
  split; intros n t v t' Hl Ha; destruct (H _ _ _ _ Ha) as (Hv & i & Hi & Ht); [| | exact Hv].
  - set (x := htons (htons (le_word (drop off t)) / 2 ^ k * 2 ^ k + Z.of_nat i)).
    exists (x mod 256), (x / 256 mod 256). unfold is_byte. split; [zdiv |]. split; [zdiv | exact Ht].
  - assert (drop off t' = le_bytes 2 (htons (htons (le_word (drop off t)) / 2 ^ k * 2 ^ k + Z.of_nat i))) as ->.
    { rewrite Ht. unfold with_low. apply drop_app_length'. rewrite length_take. lia. }
    rewrite le_word_le_bytes. set (q := htons (le_word (drop off t))). change (256 ^ Z.of_nat 2) with 65536.
    assert (0 <= q < 65536) as Hq by apply htons_range.
    assert (0 <= q / 2 ^ k * 2 ^ k + Z.of_nat i < 65536) as Hr.
    { pose proof (Z.div_pos q (2 ^ k) ltac:(lia) Hpos). split; [nia |].
      assert (65536 = 2 ^ (16 - k) * 2 ^ k) as E by (rewrite <- Z.pow_add_r by lia; now replace (16 - k + k) with 16 by lia).
      assert (q / 2 ^ k < 2 ^ (16 - k)) by (apply Z.div_lt_upper_bound; lia). nia. }
    rewrite (Z.mod_small (htons _)) by apply htons_range. rewrite htons_involutive by done.
    rewrite Z.div_add_l, (Z.div_small (Z.of_nat i)) by lia. lia.
Qed.

(** ** Ports *)

(** Queue [q] of two, a table of four entries. *)
Definition port2 (key : list Z) (q : Z) : rss_port := RssPort key 40 2 4 q.

Lemma key40_bytes : Forall is_byte default_rsskey_40bytes.
Proof. repeat constructor; done. Defined.

Definition port40 : rss_port := port2 default_rsskey_40bytes 1.

Lemma rss_check_matches_nic_witness :
  ff_rss_check port40 0x0100000a 0x0200000a 0x5000 0x3930 =
  Some (nic_queue 2 (take (rsskey_len port40) (rsskey port40)) (set_rss_table 2 (reta_size port40) (nb_queues port40))
          (reta_size port40) (tuple4 0x0100000a 0x0200000a 0x5000 0x3930) =? queueid port40).
Proof.
  refine (proj1 (rss_check_matches_nic port40 2 _ key40_bytes _ _ _ _) 0x0100000a 0x0200000a 0x5000 0x3930);
    [lia | cbn; lia | cbn; lia | cbn; lia | right; now exists 2].
Defined.

Lemma rss_one_owner_witness :
  exists q, 0 <= q < 2 /\ forall q', 0 <= q' < 2 ->
    ff_rss_check (RssPort default_rsskey_40bytes 40 2 4 q') 0x0100000a 0x0200000a 0x5000 0x3930 = Some (q' =? q).
Proof. apply (rss_one_owner default_rsskey_40bytes 40 2 4 0x0100000a 0x0200000a 0x5000 0x3930 key40_bytes); cbn; lia. Defined.

(** No hash library, and [thash_adjust=0] in the configuration. *)
#[local] Instance no_thash : Thash unit := {|
  rte_thash_init_ctx := fun _ _ _ _ => None;
  rte_thash_add_helper := fun _ _ _ => None;
  rte_thash_find_existing := fun _ => None;
  rte_thash_get_helper := fun _ => false;
  rte_thash_get_key := fun _ => None
|}.

Lemma symmetric_rss_witness :
  ff_rss_check (port2 symmetric_rsskey 0) 0x0100000a 0x0200000a 0x5000 0x3930 =
  ff_rss_check (port2 symmetric_rsskey 0) 0x0200000a 0x0100000a 0x3930 0x5000.
Proof.
  exact (proj1 (symmetric_rss_both_directions (port2 symmetric_rsskey 0) 40 2 4 true true (Some (RssCfg false false))
    (KeyState [] 0 false false false 0) eq_refl (or_introl eq_refl) (or_intror eq_refl))
    0x0100000a 0x0200000a 0x5000 0x3930).
Defined.

(** The default key does not have that property. *)
Example default_key_asymmetric :
  ff_rss_check (port2 default_rsskey_40bytes 0) 0x0100000a 0x0200000a 0x5000 0x3931 <>
  ff_rss_check (port2 default_rsskey_40bytes 0) 0x0200000a 0x0100000a 0x3931 0x5000.
Proof. vm_compute. discriminate. Qed.

Lemma adjust_sport_lands_witness :
  exists r, ff_rss_adjust_sport (try_all default_rsskey_40bytes 10 2) (port2 default_rsskey_40bytes 1) None true
              0x0100000a 0x0200000a 0x5000 1024 2047 7 3 = Some r /\
    match r with
    | Some port => 1024 <= port <= 2047 /\
        ff_rss_check (port2 default_rsskey_40bytes 1) 0x0100000a 0x0200000a 0x5000 (htons port) = Some true
    | None => no_port (try_all default_rsskey_40bytes 10 2) (port2 default_rsskey_40bytes 1) None true
                (tuple4 0x0100000a 0x0200000a 0x5000) 1024 2047
    end.
Proof.
  apply (adjust_sport_lands (try_all default_rsskey_40bytes 10 2) (port2 default_rsskey_40bytes 1) None true 2
    0x0100000a 0x0200000a 0x5000 1024 2047 7 3 key40_bytes); try (cbn; lia).
  apply (try_all_thash default_rsskey_40bytes 10 2). lia.
Defined.

(** The run finds a port. *)
Example adjust_sport_found :
  ff_rss_adjust_sport (try_all default_rsskey_40bytes 10 2) (port2 default_rsskey_40bytes 1) None true
    0x0100000a 0x0200000a 0x5000 1024 2047 7 3 = Some (Some 1054).
Proof. vm_compute. reflexivity. Qed.

(** ** A small table *)

#[local] Instance small_sizes : RssSizes := {
  FF_RSS_TBL_MAX_SADDR_SPORT_ENTRIES := 4;
  FF_RSS_TBL_MAX_SADDR_SPORT_ENTRIES_MASK := 3;
  FF_RSS_TBL_MAX_DADDR := 2;
  FF_RSS_TBL_MAX_DIP_MASK := 1;
  FF_RSS_TBL_MAX_DPORT := 32
}.

#[local] Instance small_sizes_laws : RssSizesLaws.
Proof. split; [exists 2; cbn; lia | exists 1; cbn; lia | cbn; lia]. Qed.

(** Two connections that share a slot, one of them configured twice. *)
Definition small_cfgs : list ff_rss_tbl_cfg :=
  [Cfg4 0 0x0100000a 0x0200000a 0x5000; Cfg4 0 0x0100000a 0x0300000a 0x5000; Cfg4 0 0x0100000a 0x0200000a 0x5000].

Lemma rss_tbl_portrange_witness :
  exists t t', ff_rss_tbl_init (fun _ => port2 default_rsskey_40bytes 1) true small_cfgs = Some (0, t) /\
    ff_rss_tbl_set_portrange true 8 24 t = (t', 0) /\
    forall sa da sp, narrowed_answer (owns4 (fun _ => port2 default_rsskey_40bytes 1)) (cfgs4 small_cfgs) 8 24 sa da sp
                       (ff_rss_tbl_get_portrange true t' sa da sp).
Proof.
  apply (rss_tbl_portrange_exact (fun _ => port2 default_rsskey_40bytes 1) small_cfgs 8 24).
  - intros _. right. split; [exact key40_bytes | cbn; lia].
  - split; [vm_compute; discriminate |]. intros sa sp. cbn.
    case_bool_decide; vm_compute; discriminate.
  - repeat constructor.
  - lia.
  - intros port sa da sp. cbn. repeat (case_bool_decide as Hd; [destruct Hd as (<- & <- & <-); intros [= <-]; vm_compute; discriminate | clear Hd]).
    intros [=].
Defined.
