(* ===== verification/Vnet.v ===== *)
(** * Virtual network stacks

    [fstack-capio/modified-sources/freebsd/net/vnet.c]: the allocator for the
    virtualised variables of modules ([vnet_data_alloc], [vnet_data_free]), the
    copies of these variables that every stack has ([vnet_alloc],
    [vnet_data_copy], [vnet_save_init], [vnet_restore_init]), and the
    constructors and destructors that run for every stack ([vnet_sysinit] and
    the functions that register and deregister them).

    The free list is specified by the set of addresses it covers; constructors
    and destructors are numbers, and what they do to a stack is the record that
    they ran.  Locks serialise the operations, except where [vnet_alloc] lets
    them go half-way: there its two halves are separate steps. *)

From Stdlib Require Import Sorted.
From stdpp Require Import list relations.
From S2P Require Import Prelude.
Local Open Scope Z_scope.

(** ** The free list *)

Record vnet_data_free_t := Df { vnd_start : Z; vnd_len : Z }.
#[export] Instance eta_df : Eta vnet_data_free_t := fun d => Df (vnd_start d) (vnd_len d).

(** The size of a pointer under purecap; [roundup2]. *)
Definition PTR_SIZE : Z := 16.
Definition roundup2 (x y : Z) : Z := Z.land (x + (y - 1)) (Z.lnot (y - 1)).

(** The assignment of it to the argument [size], which is an [int], as
    [vnd_len] is. *)
Definition int_roundup (size : Z) : Z := s32 (roundup2 size PTR_SIZE).

(** [vnet_data_startup]: the list covers all of [modspace]. *)
Definition vnet_data_startup (modspace modmin : Z) : list vnet_data_free_t := [Df modspace modmin].

(** The loop of [vnet_data_alloc]: the first entry that is long enough. *)
Fixpoint vnet_alloc_loop (size : Z) (l : list vnet_data_free_t) : option Z * list vnet_data_free_t :=
  match l with
  | [] => (None, [])
  | df :: l =>
      if vnd_len df <? size then
        let '(s, l') := vnet_alloc_loop size l in (s, df :: l')
      else if vnd_len df =? size then (Some (vnd_start df), l)
      else (Some (vnd_start df), df <| vnd_len ::= (fun n => s32 (n - size)) |> <| vnd_start ::= (fun s => s + size) |> :: l)
  end.

Definition vnet_data_alloc (size : Z) (l : list vnet_data_free_t) : option Z * list vnet_data_free_t :=
  vnet_alloc_loop (int_roundup size) l.

(** The loop of [vnet_data_free].  [None] is the fault of following
    [TAILQ_NEXT] at the end of the list. *)
Fixpoint vnet_free_loop (start size : Z) (l : list vnet_data_free_t) : option (list vnet_data_free_t) :=
  let end_ := start + size in
  match l with
  | [] => Some [Df start size]
  | df :: l =>
      if end_ <? vnd_start df then Some (Df start size :: df :: l)
      else if vnd_start df + vnd_len df =? start then
        let df := df <| vnd_len ::= (fun n => s32 (n + size)) |> in
        match l with
        | [] => None
        | dn :: l' =>
            if vnd_start df + vnd_len df =? vnd_start dn
            then Some (df <| vnd_len ::= (fun n => s32 (n + vnd_len dn)) |> :: l')
            else Some (df :: l)
        end
      else if vnd_start df =? end_ then
        Some (df <| vnd_start := start |> <| vnd_len ::= (fun n => s32 (n + size)) |> :: l)
      else
        l' ← vnet_free_loop start size l;
        Some (df :: l')
  end.

Definition vnet_data_free (start size : Z) (l : list vnet_data_free_t) : option (list vnet_data_free_t) :=
  vnet_free_loop start (int_roundup size) l.

(** *** Specification *)

(** The addresses a list has free. *)
Definition in_df (a : Z) (df : vnet_data_free_t) : Prop := vnd_start df <= a < vnd_start df + vnd_len df.
Definition is_free (l : list vnet_data_free_t) (a : Z) : Prop := exists df, df ∈ l /\ in_df a df.

(** Entries are not empty, in ascending order, and no two of them touch: [lo]
    is below the first. *)
Fixpoint df_ok (lo : Z) (l : list vnet_data_free_t) : Prop :=
  match l with
  | [] => True
  | df :: l => lo < vnd_start df /\ 0 < vnd_len df /\ df_ok (vnd_start df + vnd_len df) l
  end.

(** A list in that form is determined by the addresses it has free. *)
Lemma is_free_cons df l a : is_free (df :: l) a <-> in_df a df \/ is_free l a.
Proof.
  unfold is_free. split.
  - intros (d & [-> | Hd]%elem_of_cons & Ha); eauto.
  - intros [Ha | (d & Hd & Ha)]; [exists df | exists d]; (split; [| done]); constructor; done.
Qed.

Lemma is_free_nil a : is_free [] a <-> False.
Proof. split; [| done]. intros (d & Hd & _). now apply not_elem_of_nil in Hd. Qed.

Lemma df_ok_mono lo lo' l : lo' <= lo -> df_ok lo l -> df_ok lo' l.
Proof. destruct l; cbn; [done |]. intros; lia || (split; [lia | tauto]). Qed.

Lemma df_ok_above lo l a : df_ok lo l -> is_free l a -> lo < a.
Proof.
  revert lo. induction l as [| df l IH]; intros lo Hok Ha; [now apply is_free_nil in Ha |].
  destruct Hok as (H1 & H2 & H3). apply is_free_cons in Ha as [Ha | Ha]; unfold in_df in *; [lia |].
  specialize (IH _ H3 Ha). lia.
Qed.

(** The end of an entry is not free. *)
Lemma df_ok_gap lo df l : df_ok lo (df :: l) -> ~ is_free (df :: l) (vnd_start df + vnd_len df).
Proof.
  intros (H1 & H2 & H3) [Ha | Ha]%is_free_cons; unfold in_df in *; [lia |]. apply (df_ok_above _ _ _ H3) in Ha. lia.
Qed.

Lemma roundup2_spec x k : 0 <= k -> roundup2 x (2 ^ k) = (x + 2 ^ k - 1) / 2 ^ k * 2 ^ k.
Proof.
  intros Hk. unfold roundup2. rewrite <- Z.ldiff_land. replace (2 ^ k - 1) with (Z.ones k) by (rewrite Z.ones_equiv; lia).
  rewrite Z.ldiff_ones_r, Z.shiftl_mul_pow2, Z.shiftr_div_pow2 by lia. rewrite Z.ones_equiv. do 2 f_equal. lia.
Qed.

Lemma roundup_size size : 0 < size -> size <= roundup2 size PTR_SIZE < size + 16.
Proof. intros Hs. change PTR_SIZE with (2 ^ 4). rewrite roundup2_spec by lia. change (2 ^ 4) with 16. zdiv. Qed.

(** Up to this size nothing wraps. *)
Definition MAX_VAR : Z := 2 ^ 31 - 16.

Lemma int_roundup_small size : 0 < size <= MAX_VAR -> int_roundup size = roundup2 size PTR_SIZE.
Proof.
  intros Hs. apply s32_small. unfold MAX_VAR in Hs. change PTR_SIZE with (2 ^ 4). rewrite roundup2_spec by lia.
  change (2 ^ 4) with 16. zdiv.
Qed.

(** The free addresses are below [hi], in a space an [int] measures. *)
Definition below (lo hi : Z) (l : list vnet_data_free_t) : Prop := hi - lo <= 2 ^ 31 /\ forall a, is_free l a -> a < hi.

Lemma below_cons lo hi df l :
  df_ok lo (df :: l) -> below lo hi (df :: l) ->
  vnd_start df + vnd_len df <= hi /\ below (vnd_start df + vnd_len df) hi l.
Proof.
  intros (H1 & H2 & H3) [Hd Hb].
  assert (vnd_start df + vnd_len df - 1 < hi) by (apply Hb, is_free_cons; left; unfold in_df; lia).
  split; [lia |]. split; [lia |]. intros a Ha. apply Hb, is_free_cons. auto.
Qed.

(** A run of free addresses lies in one entry. *)
Lemma run_in_entry lo l s n :
  df_ok lo l -> 0 < n -> (forall a, s <= a < s + n -> is_free l a) ->
  exists df, df ∈ l /\ vnd_start df <= s /\ s + n <= vnd_start df + vnd_len df.
Proof.
  revert lo. induction l as [| df l IH]; intros lo Hok Hn Hrun.
  { specialize (Hrun s ltac:(lia)). now apply is_free_nil in Hrun. }
  pose proof (df_ok_gap _ _ _ Hok) as Hgap. destruct Hok as (H1 & H2 & H3).
  pose proof (Hrun s ltac:(lia)) as Hs. apply is_free_cons in Hs as [Hs | Hs]; unfold in_df in Hs.
  - exists df. split; [constructor |]. split; [lia |].
    destruct (Z_le_gt_dec (s + n) (vnd_start df + vnd_len df)); [done |]. exfalso. apply Hgap, Hrun. lia.
  - pose proof (df_ok_above _ _ _ H3 Hs) as Habove. destruct (IH _ H3 Hn) as (d & Hd & Hin).
    + intros a Ha. destruct (proj1 (is_free_cons _ _ _) (Hrun a Ha)) as [Hh | Ht]; [unfold in_df in Hh; lia | done].
    + exists d. split; [now constructor | done].
Qed.

Lemma vnet_alloc_loop_spec lo hi size l :
  df_ok lo l -> below lo hi l -> 0 < size ->
  match vnet_alloc_loop size l with
  | (Some s, l') => lo < s /\ df_ok lo l' /\ ~ is_free l (s - 1) /\
      forall a, (is_free l a <-> s <= a < s + size \/ is_free l' a) /\ (s <= a < s + size -> ~ is_free l' a)
  | (None, l') => l' = l /\ forall df, df ∈ l -> vnd_len df < size
  end.
Proof.
  revert lo. induction l as [| df l IH]; intros lo Hok Hbel Hs; cbn [vnet_alloc_loop].
  { split; [done |]. intros df Hd. now apply not_elem_of_nil in Hd. }
  destruct (below_cons _ _ _ _ Hok Hbel) as [Hhi Hbel']. destruct Hbel as [Hdiff _].
  pose proof Hok as (H1 & H2 & H3). destruct (Z.ltb_spec (vnd_len df) size) as [Hlt | Hge].
  - specialize (IH _ H3 Hbel' Hs). destruct (vnet_alloc_loop size l) as [[s |] l'].
    + destruct IH as (Hs' & Hok' & Hb & Hset). split; [lia |]. split; [done |].
      split; [rewrite is_free_cons; unfold in_df; intros [? | ?]; [lia | done] |]. intros a. destruct (Hset a) as [Hi Hd].
      rewrite !is_free_cons, Hi. split; [tauto |]. intros Ha [Hh | Ht]; [unfold in_df in Hh; lia | now apply Hd].
    + destruct IH as [-> Hall]. split; [done |]. intros d [-> | Hd]%elem_of_cons; [done | now apply Hall].
  - assert (forall a, is_free l a -> vnd_start df + vnd_len df < a) as Habove by (intros a; now apply df_ok_above).
    assert (~ is_free (df :: l) (vnd_start df - 1)) as Hb
      by (rewrite is_free_cons; unfold in_df; intros [? | Hf%Habove]; lia).
    destruct (Z.eqb_spec (vnd_len df) size) as [He | He].
    + split; [done |]. split; [eapply df_ok_mono; [| exact H3]; lia |]. split; [done |]. intros a. rewrite is_free_cons. unfold in_df.
      rewrite He. split; [done |]. intros Ha Hf%Habove. lia.
    + assert (s32 (vnd_len df - size) = vnd_len df - size) as Ew by (apply s32_small; lia).
      split; [done |]. split; [cbn; rewrite Ew; split; [lia |]; split; [lia |]; now replace (vnd_start df + size + (vnd_len df - size)) with (vnd_start df + vnd_len df) by lia |].
      split; [done |]. intros a. rewrite !is_free_cons. unfold in_df. cbn. rewrite Ew.
      split; [destruct (Z_lt_ge_dec a (vnd_start df + size)); intuition lia |].
      intros Ha [? | Hf%Habove]; lia.
Qed.

(** The free addresses determine the list. *)
Lemma df_ok_canonical lo l lo' l' : df_ok lo l -> df_ok lo' l' -> (forall a, is_free l a <-> is_free l' a) -> l = l'.
Proof.
  revert lo lo' l'. induction l as [| df l IH]; intros lo lo' l' Hok Hok' Heq.
  - destruct l' as [| d l']; [done |]. exfalso. destruct Hok' as (_ & H2 & _).
    apply (is_free_nil (vnd_start d)), Heq, is_free_cons. left. unfold in_df. lia.
  - destruct l' as [| d l'].
    { exfalso. destruct Hok as (_ & H2 & _). apply (is_free_nil (vnd_start df)), Heq, is_free_cons. left. unfold in_df. lia. }
    pose proof (df_ok_gap _ _ _ Hok) as Hg. pose proof (df_ok_gap _ _ _ Hok') as Hg'.
    destruct Hok as (H1 & H2 & H3), Hok' as (H1' & H2' & H3').
    assert (forall a, is_free l a -> vnd_start df + vnd_len df < a) as Ha by (intros a; now apply df_ok_above).
    assert (forall a, is_free l' a -> vnd_start d + vnd_len d < a) as Ha' by (intros a; now apply df_ok_above).
    assert (forall a, (in_df a df \/ is_free l a) <-> (in_df a d \/ is_free l' a)) as Heq' by (intros a; now rewrite <- !is_free_cons).
    rewrite is_free_cons in Hg, Hg'. unfold in_df in *.
    assert (vnd_start df = vnd_start d) as Es.
    { destruct (proj1 (Heq' (vnd_start df)) ltac:(lia)) as [? | Hx%Ha'];
        destruct (proj2 (Heq' (vnd_start d)) ltac:(lia)) as [? | Hy%Ha]; lia. }
    assert (vnd_len df = vnd_len d) as El.
    { destruct (Z.lt_trichotomy (vnd_len df) (vnd_len d)) as [Hl | [Hl | Hl]]; [| done |]; exfalso.
      - apply Hg. rewrite Heq'. left. lia.
      - apply Hg'. rewrite <- Heq'. left. lia. }
    assert (df = d) as -> by (destruct df, d; cbn in *; congruence). f_equal. apply (IH _ _ _ H3 H3'). intros a.
    specialize (Heq' a). split; intros Hf.
    + specialize (Ha a Hf). destruct (proj1 Heq' (or_intror Hf)) as [? | ?]; [lia | done].
    + specialize (Ha' a Hf). destruct (proj2 Heq' (or_intror Hf)) as [? | ?]; [lia | done].
Qed.

(** The end of the last entry. *)
Definition touches_last (start : Z) (l : list vnet_data_free_t) : bool :=
  match List.last (map (fun df => Some (vnd_start df + vnd_len df)) l) None with Some e => e =? start | None => false end.

Lemma touches_last_cons start df l :
  vnd_start df + vnd_len df <> start -> touches_last start (df :: l) = touches_last start l.
Proof. intros Hne. unfold touches_last. destruct l; [| reflexivity]. cbn. now apply Z.eqb_neq. Qed.

Lemma touches_last_above start lo l : df_ok lo l -> start <= lo -> touches_last start l = false.
Proof.
  revert lo. induction l as [| df l IH]; intros lo Hok Hs; [done |]. destruct Hok as (H1 & H2 & H3).
  rewrite touches_last_cons by lia. apply (IH _ H3). lia.
Qed.

Lemma vnet_free_loop_spec lo hi start size l :
  df_ok lo l -> below lo hi l -> 0 < size -> lo < start -> start + size <= hi -> (forall a, start <= a < start + size -> ~ is_free l a) ->
  match vnet_free_loop start size l with
  | Some l' => touches_last start l = false /\ df_ok lo l' /\
      forall a, is_free l' a <-> start <= a < start + size \/ is_free l a
  | None => touches_last start l = true
  end.
Proof.
  revert lo. induction l as [| df l IH]; intros lo Hok Hbel Hs Hlo Hhi Hdis; cbn [vnet_free_loop].
  { split; [done |]. split; [cbn; lia |]. intros a. rewrite is_free_cons, !is_free_nil. unfold in_df. cbn. tauto. }
  destruct (below_cons _ _ _ _ Hok Hbel) as [Hhi' Hbel']. pose proof Hbel as [Hdiff _].
  pose proof Hok as (H1 & H2 & H3).
  assert (start + size <= vnd_start df \/ vnd_start df + vnd_len df <= start) as Hapart.
  { destruct (Z_le_gt_dec (start + size) (vnd_start df)); [auto |].
    destruct (Z_le_gt_dec (vnd_start df + vnd_len df) start); [auto |]. exfalso.
    apply (Hdis (Z.max start (vnd_start df))); [lia |]. apply is_free_cons. left. unfold in_df. lia. }
  assert (forall a, start <= a < start + size -> ~ is_free l a) as Hdis' by (intros a Ha Hf; apply (Hdis a Ha), is_free_cons; auto).
  destruct (Z.ltb_spec (start + size) (vnd_start df)) as [Hbefore | Hnb].
  { split; [rewrite touches_last_cons by lia; apply (touches_last_above _ _ _ H3); lia |].
    split; [cbn; repeat split; (lia || done) |]. intros a. rewrite !is_free_cons. unfold in_df. cbn. tauto. }
  destruct (Z.eqb_spec (vnd_start df + vnd_len df) start) as [He | Hne].
  { destruct l as [| dn l]; [unfold touches_last; cbn; now apply Z.eqb_eq |]. pose proof H3 as (K1 & K2 & K3).
    assert (touches_last start (df :: dn :: l) = false) as Ht by (apply (touches_last_above start (vnd_start df + vnd_len df) (dn :: l)) in H3; [exact H3 | lia]).
    assert (start + size <= vnd_start dn) as Hdn.
    { destruct (Z_le_gt_dec (start + size) (vnd_start dn)); [done |]. exfalso.
      apply (Hdis' (vnd_start dn)); [lia |]. apply is_free_cons. left. unfold in_df. lia. }
    destruct (below_cons _ _ _ _ H3 Hbel') as [Hhi'' _].
    cbn [vnd_start vnd_len upd]. rewrite (s32_small (vnd_len df + size)) by lia.
    destruct (Z.eqb_spec (vnd_start df + (vnd_len df + size)) (vnd_start dn)) as [Em | Em];
      (split; [exact Ht |]); cbn; rewrite ?(s32_small (vnd_len df + size)) by lia;
      [rewrite (s32_small (vnd_len df + size + vnd_len dn)) by lia |].
    - split; [repeat split; try lia; now replace (vnd_start df + (vnd_len df + size + vnd_len dn)) with (vnd_start dn + vnd_len dn) by lia |].
      intros a. rewrite !is_free_cons. unfold in_df. cbn. destruct (Z_lt_ge_dec a (vnd_start dn)), (Z_lt_ge_dec a start); intuition lia.
    - split; [repeat split; (lia || done) |].
      intros a. rewrite !is_free_cons. unfold in_df. cbn. destruct (Z_lt_ge_dec a start); intuition lia. }
  destruct (Z.eqb_spec (vnd_start df) (start + size)) as [Hb | Hb].
  { split; [rewrite touches_last_cons by lia; apply (touches_last_above _ _ _ H3); lia |].
    cbn. rewrite (s32_small (vnd_len df + size)) by lia.
    split; [repeat split; try lia; now replace (start + (vnd_len df + size)) with (vnd_start df + vnd_len df) by lia |].
    intros a. rewrite !is_free_cons. unfold in_df. cbn. destruct (Z_lt_ge_dec a (start + size)); intuition lia. }
  specialize (IH _ H3 Hbel' Hs ltac:(lia) Hhi Hdis'). rewrite touches_last_cons by done.
  destruct (vnet_free_loop start size l) as [l' |]; [| exact IH]. destruct IH as (Ht & Hok' & Hset). split; [exact Ht |].
  cbn. split; [done |]. intros a. rewrite !is_free_cons, Hset. tauto.
Qed.

(** Entries are aligned for capabilities. *)
Definition df_aligned (df : vnet_data_free_t) : Prop := vnd_start df mod 16 = 0 /\ vnd_len df mod 16 = 0.

Lemma s32_aligned x : x mod 16 = 0 -> s32 x mod 16 = 0.
Proof. intros Hx. unfold s32. zdiv. Qed.

Lemma vnet_alloc_loop_aligned size l :
  size mod 16 = 0 -> Forall df_aligned l ->
  Forall df_aligned (snd (vnet_alloc_loop size l)) /\ (forall s, fst (vnet_alloc_loop size l) = Some s -> s mod 16 = 0).
Proof.
  intros Hs. unfold df_aligned. induction 1 as [| df l [H1 H2] Hl IH]; cbn [vnet_alloc_loop]; [done |].
  destruct (vnd_len df <? size).
  - destruct (vnet_alloc_loop size l) as [s l']. cbn in *. split; [constructor; tauto | apply IH].
  - destruct (vnd_len df =? size); cbn; (split; [| intros s [= <-]; done]); [done |].
    constructor; [cbn; split; [zdiv | apply s32_aligned; zdiv] | done].
Qed.

Lemma vnet_free_loop_aligned start size l l' :
  start mod 16 = 0 -> size mod 16 = 0 -> Forall df_aligned l -> vnet_free_loop start size l = Some l' -> Forall df_aligned l'.
Proof.
  intros Hst Hs H. unfold df_aligned in *. revert l'. induction H as [| df l [H1 H2] Hl IH]; intros l'; cbn [vnet_free_loop].
  { intros [= <-]. repeat constructor; done. }
  destruct (_ <? _); [intros [= <-]; repeat constructor; done |]. destruct (_ =? _).
  - destruct l as [| dn l]; [done |]. apply Forall_cons_iff in Hl as [[H3 H4] Hl'].
    destruct (_ =? _); intros [= <-]; repeat (constructor; [cbn; split; [| repeat (apply s32_aligned || rewrite Z.add_mod, s32_aligned by (lia || zdiv))]; zdiv |]); done.
  - destruct (_ =? _); [intros [= <-]; constructor; [cbn; split; [done | apply s32_aligned; zdiv] | done] |].
    destruct (vnet_free_loop start size l); [| done]. cbn. intros [= <-]. constructor; [done | now apply IH].
Qed.

Lemma roundup_aligned size : roundup2 size PTR_SIZE mod 16 = 0.
Proof. change PTR_SIZE with (2 ^ 4). rewrite roundup2_spec by lia. apply Z.mod_mul. lia. Qed.

(** *** Allocations over time *)

(** The free list and the variables allocated from it, with the sizes that
    were asked for. *)
Record modspace := Modspace { ms_free : list vnet_data_free_t; ms_live : list (Z * Z) }.

Inductive ms_step : modspace -> modspace -> Prop :=
  | ms_alloc st size s l : 0 < size <= MAX_VAR -> vnet_data_alloc size (ms_free st) = (Some s, l) ->
      ms_step st (Modspace l ((s, size) :: ms_live st))
  | ms_full st size l : 0 < size <= MAX_VAR -> vnet_data_alloc size (ms_free st) = (None, l) -> ms_step st (Modspace l (ms_live st))
  | ms_release st pre s size post l : ms_live st = pre ++ (s, size) :: post -> vnet_data_free s size (ms_free st) = Some l ->
      ms_step st (Modspace l (pre ++ post)).

(** How many variables an address belongs to. *)
Definition holds (a : Z) (v : Z * Z) : bool := (fst v <=? a) && (a <? fst v + roundup2 (snd v) PTR_SIZE).
Definition owners (live : list (Z * Z)) (a : Z) : nat := length (List.filter (holds a) live).

Record ms_inv (base len : Z) (st : modspace) : Prop := {
  mi_len : len < 2 ^ 31;
  mi_ok : df_ok (base - 1) (ms_free st);
  mi_free a : is_free (ms_free st) a -> base <= a < base + len /\ owners (ms_live st) a = 0%nat;
  mi_used a : ~ is_free (ms_free st) a -> owners (ms_live st) a = if (base <=? a) && (a <? base + len) then 1%nat else 0%nat;
  mi_aligned : Forall df_aligned (ms_free st);
  mi_live : Forall (fun v => 0 < snd v <= MAX_VAR /\ fst v mod 16 = 0 /\ base <= fst v) (ms_live st)
}.

Lemma ms_below base len st : ms_inv base len st -> below (base - 1) (base + len) (ms_free st).
Proof. intros H. split; [pose proof (mi_len _ _ _ H); lia |]. intros a Ha. now apply (mi_free _ _ _ H). Qed.

Lemma owners_cons v live a : owners (v :: live) a = ((if holds a v then 1 else 0) + owners live a)%nat.
Proof. unfold owners. cbn. now destruct (holds a v). Qed.

Lemma owners_middle pre v post a : owners (pre ++ v :: post) a = ((if holds a v then 1 else 0) + owners (pre ++ post) a)%nat.
Proof. unfold owners. rewrite !filter_app, !length_app. cbn. destruct (holds a v); cbn; lia. Qed.

Lemma holds_iff a s size : holds a (s, size) = true <-> s <= a < s + roundup2 size PTR_SIZE.
Proof. unfold holds. cbn. rewrite andb_true_iff, Z.leb_le, Z.ltb_lt. done. Qed.

Lemma is_free_dec l a : is_free l a \/ ~ is_free l a.
Proof.
  induction l as [| df l IH]; [right; now rewrite is_free_nil |]. rewrite is_free_cons. unfold in_df.
  destruct (Z_le_gt_dec (vnd_start df) a), (Z_lt_ge_dec a (vnd_start df + vnd_len df)); tauto || (destruct IH; [tauto |]); right; intuition lia.
Qed.

Lemma ms_startup base len : 0 < len < 2 ^ 31 -> base mod 16 = 0 -> len mod 16 = 0 -> ms_inv base len (Modspace (vnet_data_startup base len) []).
Proof.
  intros Hl Hb Hm. unfold vnet_data_startup. split; cbn [ms_free ms_live].
  - lia.
  - cbn. lia.
  - intros a. rewrite is_free_cons, is_free_nil. unfold in_df. cbn. intuition lia.
  - intros a. rewrite is_free_cons, is_free_nil. unfold in_df. cbn. intros Hn.
    destruct (Z.leb_spec base a), (Z.ltb_spec a (base + len)); cbn; lia || done.
  - repeat constructor; done.
  - constructor.
Qed.

Lemma ms_alloc_inv base len st size s l :
  ms_inv base len st -> 0 < size <= MAX_VAR -> vnet_data_alloc size (ms_free st) = (Some s, l) ->
  ms_inv base len (Modspace l ((s, size) :: ms_live st)).
Proof.
  intros Hinv Hs Ha. pose proof (ms_below _ _ _ Hinv) as Hbel. destruct Hinv as [Hlen Hok Hfree Hused Hal Hlive].
  unfold vnet_data_alloc in Ha. rewrite int_roundup_small in Ha by done. pose proof (roundup_size size (proj1 Hs)) as Hr.
  pose proof (vnet_alloc_loop_spec _ _ (roundup2 size PTR_SIZE) _ Hok Hbel ltac:(lia)) as Hspec.
  pose proof (vnet_alloc_loop_aligned (roundup2 size PTR_SIZE) _ (roundup_aligned size) Hal) as [Hal' Hsal].
  rewrite Ha in Hspec, Hal', Hsal. destruct Hspec as (Hlo & Hok' & _ & Hset). split; cbn [ms_free ms_live].
  - done.
  - done.
  - intros a Hf. destruct (Hset a) as [Hi Hd]. destruct (Hfree a ltac:(apply Hi; auto)) as [Hb Ho]. split; [done |].
    rewrite owners_cons, Ho. destruct (holds a (s, size)) eqn:E; [apply holds_iff in E; now apply Hd in E | done].
  - intros a Hf. destruct (Hset a) as [Hi Hd]. rewrite owners_cons. destruct (holds a (s, size)) eqn:E.
    + apply holds_iff in E. destruct (Hfree a ltac:(apply Hi; auto)) as [Hb ->].
      rewrite (proj2 (Z.leb_le base a)), (proj2 (Z.ltb_lt a (base + len))) by lia. done.
    + cbn. apply Hused. intros H. apply Hi in H as [H | H]; [| done]. apply holds_iff in H. congruence.
  - done.
  - constructor; [| done]. cbn. split; [done |]. split; [now apply Hsal | lia].
Qed.

(** A live variable is not free and lies inside the space. *)
Lemma ms_live_inside base len st pre s size post :
  ms_inv base len st -> ms_live st = pre ++ (s, size) :: post ->
  (0 < size <= MAX_VAR /\ s mod 16 = 0 /\ base <= s) /\ s + roundup2 size PTR_SIZE <= base + len /\
  forall a, s <= a < s + roundup2 size PTR_SIZE -> ~ is_free (ms_free st) a.
Proof.
  intros [_ _ Hfree Hused _ Hlive] Hl. rewrite Hl in Hlive. apply Forall_app in Hlive as [_ [Hv _]%Forall_cons_iff].
  cbn in Hv. split; [done |]. pose proof (roundup_size size ltac:(lia)) as Hr.
  assert (forall a, s <= a < s + roundup2 size PTR_SIZE -> ~ is_free (ms_free st) a) as Hdis.
  { intros a Hin Hf. destruct (Hfree a Hf) as [_ Ho]. rewrite Hl, owners_middle in Ho. apply holds_iff in Hin. rewrite Hin in Ho. done. }
  split; [| done]. set (a := s + roundup2 size PTR_SIZE - 1). pose proof (Hused a (Hdis a ltac:(lia))) as Ho.
  rewrite Hl, owners_middle, (proj2 (holds_iff a s size) ltac:(lia)) in Ho.
  destruct (Z.leb_spec base a), (Z.ltb_spec a (base + len)); cbn in Ho; lia.
Qed.

Lemma ms_release_inv base len st pre s size post l :
  ms_inv base len st -> ms_live st = pre ++ (s, size) :: post -> vnet_data_free s size (ms_free st) = Some l ->
  ms_inv base len (Modspace l (pre ++ post)).
Proof.
  intros Hinv Hl Ha. pose proof (ms_below _ _ _ Hinv) as Hbel.
  destruct (ms_live_inside _ _ _ _ _ _ _ Hinv Hl) as ((Hs & Hsal & Hbs) & Hend & Hdis).
  destruct Hinv as [Hlen Hok Hfree Hused Hal Hlive].
  assert (Forall (fun v => 0 < snd v <= MAX_VAR /\ fst v mod 16 = 0 /\ base <= fst v) (pre ++ post)) as Hlive'.
  { rewrite Hl in Hlive. apply Forall_app in Hlive as [? [? ?]%Forall_cons_iff]. now apply Forall_app. }
  pose proof (roundup_size size (proj1 Hs)) as Hr. unfold vnet_data_free in Ha. rewrite int_roundup_small in Ha by done.
  pose proof (vnet_free_loop_spec _ _ s (roundup2 size PTR_SIZE) _ Hok Hbel ltac:(lia) ltac:(lia) Hend Hdis) as Hspec. rewrite Ha in Hspec.
  destruct Hspec as (_ & Hok' & Hset). split; cbn [ms_free ms_live].
  - done.
  - done.
  - intros a Hf. apply Hset in Hf. destruct Hf as [Hin | Hf].
    + pose proof (Hused a (Hdis a Hin)) as Ho. rewrite Hl, owners_middle in Ho. pose proof (proj2 (holds_iff a s size) Hin) as Hh.
      rewrite Hh in Ho. destruct (Z.leb_spec base a), (Z.ltb_spec a (base + len)); cbn in Ho; lia.
    + destruct (Hfree a Hf) as [Hb Ho]. rewrite Hl, owners_middle in Ho. split; [done | lia].
  - intros a Hf. assert (~ is_free (ms_free st) a) as Hf' by (intros H; apply Hf, Hset; auto).
    pose proof (Hused a Hf') as Ho. rewrite Hl, owners_middle in Ho. destruct (holds a (s, size)) eqn:E; [| exact Ho].
    exfalso. apply Hf, Hset. left. now apply holds_iff.
  - eapply vnet_free_loop_aligned; [exact Hsal | apply roundup_aligned | exact Hal | exact Ha].
  - done.
Qed.

Lemma ms_step_inv base len st st' : ms_inv base len st -> ms_step st st' -> ms_inv base len st'.
Proof.
  intros Hinv Hstep. destruct Hstep as [st size s l Hs Ha | st size l Hs Ha | st pre s size post l Hl Ha].
  - now apply ms_alloc_inv.
  - pose proof (vnet_alloc_loop_spec _ _ (roundup2 size PTR_SIZE) _ (mi_ok _ _ _ Hinv) (ms_below _ _ _ Hinv)
      ltac:(pose proof (roundup_size size (proj1 Hs)); lia)) as Hspec.
    unfold vnet_data_alloc in Ha. rewrite int_roundup_small in Ha by done. rewrite Ha in Hspec. destruct Hspec as [-> _]. now destruct st.
  - eapply ms_release_inv; done.
Qed.

(** C14. The variables of modules never share memory: after any sequence of
    allocations and releases, every byte of the module space is either free or
    belongs to exactly one variable, nothing outside the space is handed out, and
    every variable is aligned for capabilities.  An allocation fails only when no
    run of free bytes is long enough, and a release faults exactly when the
    variable starts where the last entry of the free list ends.  Sizes and the
    length of the space are what an [int] holds: below [2 ^ 31], and the sizes
    also after rounding up. *)
Theorem vnet_modspace_partition (base len : Z) (st : modspace)
    (Hlen : 0 < len < 2 ^ 31) (Hbase : base mod 16 = 0) (Hmod : len mod 16 = 0)
    (Hreach : rtc ms_step (Modspace (vnet_data_startup base len) []) st) :
  (forall a, base <= a < base + len -> is_free (ms_free st) a /\ owners (ms_live st) a = 0%nat \/
                                       ~ is_free (ms_free st) a /\ owners (ms_live st) a = 1%nat) /\
  (forall a, ~ base <= a < base + len -> ~ is_free (ms_free st) a /\ owners (ms_live st) a = 0%nat) /\
  Forall (fun v => fst v mod 16 = 0) (ms_live st) /\
  (forall size, 0 < size <= MAX_VAR -> fst (vnet_data_alloc size (ms_free st)) = None ->
     forall s, ~ forall a, s <= a < s + roundup2 size PTR_SIZE -> is_free (ms_free st) a) /\
  (forall s size, (s, size) ∈ ms_live st ->
     vnet_data_free s size (ms_free st) = None <-> touches_last s (ms_free st) = true).
Proof.
  assert (ms_inv base len st) as Hinv.
  { refine (rtc_ind_l (fun st0 => ms_inv base len st0 -> ms_inv base len st) st _ _ _ Hreach _); [done | | now apply ms_startup].
    intros x y Hxy _ IH Hx. apply IH. now apply (ms_step_inv base len x). }
  clear Hreach. pose proof (ms_below _ _ _ Hinv) as Hbel. pose proof Hinv as [Hlen' Hok Hfree Hused Hal Hlive]. split_and!.
  - intros a Ha. destruct (is_free_dec (ms_free st) a) as [Hf | Hf]; [left; split; [done | now apply Hfree] | right].
    split; [done |]. rewrite Hused by done. now rewrite (proj2 (Z.leb_le base a)), (proj2 (Z.ltb_lt a _)) by lia.
  - intros a Ha. assert (~ is_free (ms_free st) a) as Hf by (intros Hf; apply Ha; now apply Hfree). split; [done |].
    rewrite Hused by done. destruct (Z.leb_spec base a), (Z.ltb_spec a (base + len)); cbn; (done || lia).
  - eapply List.Forall_impl; [| exact Hlive]. now intros v (_ & ? & _).
  - intros size Hs Hnone s Hrun. pose proof (roundup_size size (proj1 Hs)) as Hr.
    pose proof (vnet_alloc_loop_spec _ _ (roundup2 size PTR_SIZE) _ Hok Hbel ltac:(lia)) as Hspec. unfold vnet_data_alloc in Hnone.
    rewrite int_roundup_small in Hnone by done.
    destruct (vnet_alloc_loop _ _) as [[?|] l']; [done |]. destruct Hspec as [_ Hall].
    destruct (run_in_entry _ _ s (roundup2 size PTR_SIZE) Hok ltac:(lia) Hrun) as (df & Hd & Hin). specialize (Hall df Hd). lia.
  - intros s size Hv. apply list_elem_of_split in Hv as (pre & post & Hl).
    destruct (ms_live_inside _ _ _ _ _ _ _ Hinv Hl) as ((Hs & _ & Hb) & Hend & Hdis). pose proof (roundup_size size (proj1 Hs)) as Hr.
    pose proof (vnet_free_loop_spec _ _ s (roundup2 size PTR_SIZE) _ Hok Hbel ltac:(lia) ltac:(lia) Hend Hdis) as Hspec.
    unfold vnet_data_free. rewrite int_roundup_small by done.
    destruct (vnet_free_loop s _ _) as [l' |]; [| done]. destruct Hspec as [Ht _]. rewrite Ht. done.
Qed.

(** Freeing right after allocating gives back the list there was. *)
Theorem vnet_alloc_free_roundtrip lo hi l size s l' :
  df_ok lo l -> below lo hi l -> 0 < size <= MAX_VAR -> vnet_data_alloc size l = (Some s, l') -> vnet_data_free s size l' = Some l.
Proof.
  intros Hok Hbel Hs Ha. pose proof (roundup_size size (proj1 Hs)) as Hr. unfold vnet_data_alloc in Ha.
  rewrite int_roundup_small in Ha by done.
  pose proof (vnet_alloc_loop_spec _ _ (roundup2 size PTR_SIZE) _ Hok Hbel ltac:(lia)) as Hspec. rewrite Ha in Hspec.
  destruct Hspec as (Hlo & Hok' & Hb & Hset).
  assert (below lo hi l') as Hbel' by (split; [apply Hbel | intros a Hf; apply Hbel, Hset; auto]).
  assert (s + roundup2 size PTR_SIZE <= hi) as Hend.
  { enough (s + roundup2 size PTR_SIZE - 1 < hi) by lia. apply Hbel, Hset. lia. }
  pose proof (vnet_free_loop_spec _ _ s (roundup2 size PTR_SIZE) _ Hok' Hbel' ltac:(lia) Hlo Hend
    ltac:(intros a Hin; now apply (Hset a))) as Hspec.
  unfold vnet_data_free. rewrite int_roundup_small by done. destruct (vnet_free_loop s _ l') as [l2 |].
  - destruct Hspec as (_ & Hok2 & Hset2). f_equal. apply (df_ok_canonical _ _ _ _ Hok2 Hok). intros a. rewrite Hset2.
    symmetry. apply (Hset a).
  - exfalso. apply Hb, (proj1 (Hset _)). right. clear - Hok' Hspec. revert lo Hok'. induction l' as [| df l' IH]; intros lo Hok; [done |].
    destruct Hok as (H1 & H2 & H3). rewrite is_free_cons.
    destruct (Z.eq_dec (vnd_start df + vnd_len df) s) as [E | E]; [left; unfold in_df; lia |].
    right. rewrite touches_last_cons in Hspec by done. now apply (IH Hspec _ H3).
Qed.

(** ** The stacks *)

(** A constructor or destructor.  [si_id] is the address of the structure: the
    lists link structures, and it determines [func] and [arg]. *)
Record vnet_sysinit_t := Sysinit { subsystem : Z; order : Z; si_id : nat }.

#[export] Instance vnet_sysinit_eq_dec : EqDecision vnet_sysinit_t.
Proof. solve_decision. Defined.

(** A stack: its copy of the variables, by their offset in the set, and the
    functions that have run for it, the last one first. *)
Record vnet := Vnet {
  vnet_id : nat;
  vnet_magic_n : Z;
  vnet_ifcnt : Z;
  vnet_data_mem : Z -> Z;
  vnet_sockcnt : Z;
  vnet_state : Z;
  vnet_shutdown : bool;
  vnet_log : list nat
}.
#[export] Instance eta_vnet : Eta vnet := fun v =>
  Vnet (vnet_id v) (vnet_magic_n v) (vnet_ifcnt v) (vnet_data_mem v) (vnet_sockcnt v) (vnet_state v) (vnet_shutdown v) (vnet_log v).

Definition VNET_MAGIC_N : Z := 0x5e4a6f28.

(** [vg_master]: the variables themselves; [vg_init]: [vnet_init_var], [None]
    while it is 0;
    [vg_bytes]: [VNET_BYTES]. *)
Record vglobals := Vg {
  vg_bytes : Z;
  vg_master : Z -> Z;
  vg_init : option (Z -> Z);
  vg_head : list vnet;
  vg_ctors : list vnet_sysinit_t;
  vg_dtors : list vnet_sysinit_t
}.
#[export] Instance eta_vglobals : Eta vglobals := fun g =>
  Vg (vg_bytes g) (vg_master g) (vg_init g) (vg_head g) (vg_ctors g) (vg_dtors g).

(** [memcpy] between two copies of the set, [n] bytes at [off]. *)
Definition vnet_copy_range (off n : Z) (src dst : Z -> Z) : Z -> Z :=
  fun i => if (off <=? i) && (i <? off + n) then src i else dst i.

(** The address of a variable in a stack: purecap keeps the base of the copy
    and adds the offset in the set, otherwise the base has the start of the set
    subtracted in advance. *)
Definition vnet_data_base (cheri : bool) (mem start : Z) : Z := if cheri then mem else mem - start.
Definition vnet_ptr (cheri : bool) (base start var : Z) : Z := if cheri then base + (var - start) else base + var.

(** [vnet_data_copy]; [off] is [start] in the set. *)
Definition vnet_data_copy (off size : Z) (g : vglobals) : vglobals :=
  g <| vg_head ::= map (fun v => v <| vnet_data_mem ::= vnet_copy_range off size (vg_master g) |>) |>.

(** The two assertions that [vnet_save_init] and [vnet_restore_init] share. *)
Definition init_mpass (off size : Z) : ST vglobals unit :=
  do* kassert (fun g => bool_decide (is_Some (vg_init g)));
  kassert (fun g => (0 <=? off) && (off + size <=? vg_bytes g)).

Definition vnet_save_init (off size : Z) : ST vglobals unit :=
  do* init_mpass off size;
  modify (fun g => g <| vg_init ::= fmap (vnet_copy_range off size (vg_master g)) |>).

Definition vnet_restore_init (off size : Z) : ST vglobals unit :=
  do* init_mpass off size;
  modify (fun g => g <| vg_master ::= vnet_copy_range off size (default (vg_master g) (vg_init g)) |>).

(** Is [b] to come after [a]? *)
Definition si_later (a b : vnet_sysinit_t) : bool :=
  (subsystem a <? subsystem b) || ((subsystem b =? subsystem a) && (order a <? order b)).

(** The loops of the two registrations. *)
Fixpoint insert_sysinit (vs : vnet_sysinit_t) (l : list vnet_sysinit_t) : list vnet_sysinit_t :=
  match l with
  | [] => [vs]
  | vs2 :: l => if si_later vs vs2 then vs :: vs2 :: l else vs2 :: insert_sysinit vs l
  end.

(** [TAILQ_REMOVE]. *)
Fixpoint remove_sysinit (vs : vnet_sysinit_t) (l : list vnet_sysinit_t) : list vnet_sysinit_t :=
  match l with
  | [] => []
  | vs2 :: l => if bool_decide (vs2 = vs) then l else vs2 :: remove_sysinit vs l
  end.

Definition run_on (vs : vnet_sysinit_t) (v : vnet) : vnet := v <| vnet_log ::= cons (si_id vs) |>.

(** [SI_SUB_VNET] is a value of the system's [sys/kernel.h]. *)
Definition vnet_register_sysinit (SI_SUB_VNET : Z) (vs : vnet_sysinit_t) : ST vglobals unit :=
  do* kassert (fun _ => SI_SUB_VNET <? subsystem vs);
  modify (fun g => g <| vg_ctors ::= insert_sysinit vs |> <| vg_head ::= map (run_on vs) |>).

(** [TAILQ_REMOVE] of a structure that is not linked is undefined. *)
Definition vnet_deregister_sysinit (vs : vnet_sysinit_t) : ST vglobals unit :=
  do* kassert (fun g => bool_decide (vs ∈ vg_ctors g));
  modify (fun g => g <| vg_ctors ::= remove_sysinit vs |>).

Definition vnet_register_sysuninit (vs : vnet_sysinit_t) : ST vglobals unit :=
  modify (fun g => g <| vg_dtors ::= insert_sysinit vs |>).

Definition vnet_deregister_sysuninit (vs : vnet_sysinit_t) : ST vglobals unit :=
  do* kassert (fun g => bool_decide (vs ∈ vg_dtors g));
  modify (fun g => g <| vg_head ::= map (run_on vs) |> <| vg_dtors ::= remove_sysinit vs |>).

(** One after the other on a stack. *)
Definition run_step (v : vnet) (vs : vnet_sysinit_t) : vnet := run_on vs (v <| vnet_state := subsystem vs |>).
Definition vnet_sysinit (g : vglobals) (v : vnet) : vnet := fold_left run_step (vg_ctors g) v.
Definition vnet_sysuninit (g : vglobals) (v : vnet) : vnet := fold_left run_step (rev (vg_dtors g)) v.

(** [vnet_alloc] up to the end of [vnet_sysinit], when its lock is released,
    and the rest.  Past [vg_bytes] the copy has what [malloc] left there. *)
Definition vnet_alloc_begin (id : nat) (stale : Z -> Z) (g : vglobals) : vnet :=
  vnet_sysinit g (Vnet id VNET_MAGIC_N 0 (vnet_copy_range 0 (vg_bytes g) (vg_master g) stale) 0 0 false []).
Definition vnet_alloc_end (v : vnet) (g : vglobals) : vglobals := g <| vg_head ::= cons v |>.

Definition vnet_alloc (id : nat) (stale : Z -> Z) (g : vglobals) : vglobals := vnet_alloc_end (vnet_alloc_begin id stale g) g.

(** [vnet_destroy]: the stack as it is when its memory is freed. *)
Definition vnet_destroy (id : nat) : ST vglobals vnet := fun g =>
  match list_find (fun v => vnet_id v = id) (vg_head g) with
  | None => None
  | Some (i, v) =>
      if vnet_sockcnt v =? 0 then
        let g := g <| vg_head := take i (vg_head g) ++ drop (S i) (vg_head g) |> in
        Some (vnet_sysuninit g (v <| vnet_shutdown := true |>) <| vnet_magic_n := 0xdeadbeef |>, g)
      else None
  end.

(** *** Variables *)

(** Both ways of computing an address give the same one. *)
Lemma vnet_ptr_agree mem start var : vnet_ptr true (vnet_data_base true mem start) start var = vnet_ptr false (vnet_data_base false mem start) start var.
Proof. unfold vnet_ptr, vnet_data_base. lia. Qed.

Lemma run_step_mem l v : vnet_data_mem (fold_left run_step l v) = vnet_data_mem v.
Proof. revert v. induction l as [| vs l IH]; intros v; cbn; [done |]. now rewrite IH. Qed.

(** A new stack starts with the current values; a module's values reach every
    stack and nothing else of them changes. *)
Lemma vnet_alloc_values id stale g i : 0 <= i < vg_bytes g -> vnet_data_mem (vnet_alloc_begin id stale g) i = vg_master g i.
Proof.
  intros Hi. unfold vnet_alloc_begin, vnet_sysinit. rewrite run_step_mem. cbn. unfold vnet_copy_range.
  now rewrite (proj2 (Z.leb_le 0 i)), (proj2 (Z.ltb_lt i (0 + _))) by lia.
Qed.

Lemma vnet_data_copy_values off size g v' :
  v' ∈ vg_head (vnet_data_copy off size g) ->
  exists v, v ∈ vg_head g /\ vnet_id v' = vnet_id v /\ vnet_log v' = vnet_log v /\
    forall i, vnet_data_mem v' i = if (off <=? i) && (i <? off + size) then vg_master g i else vnet_data_mem v i.
Proof. cbn. intros (v & -> & Hv)%elem_of_map. exists v. done. Qed.

Lemma wp_init_mpass off size (Q : unit -> vglobals -> Prop) g :
  is_Some (vg_init g) -> 0 <= off -> off + size <= vg_bytes g -> Q tt g -> wp (init_mpass off size) Q g.
Proof.
  intros Hi H0 H1 HQ. unfold init_mpass. apply wp_bind, wp_kassert; [now apply bool_decide_eq_true |].
  apply wp_kassert; [apply andb_true_iff; split; apply Z.leb_le; lia | done].
Qed.

(** Saving and restoring the initial values of a module's variables. *)
Lemma vnet_init_roundtrip off size g :
  is_Some (vg_init g) -> 0 <= off -> off + size <= vg_bytes g ->
  wp (vnet_save_init off size) (fun _ g1 => forall m,
    wp (vnet_restore_init off size) (fun _ g2 => forall i, vg_master g2 i =
      if (off <=? i) && (i <? off + size) then vg_master g i else m i) (g1 <| vg_master := m |>)) g.
Proof.
  intros [ini Hi] H0 H1. unfold vnet_save_init. apply wp_bind, wp_init_mpass; [now exists ini | done | done |].
  apply wp_modify. intros m. unfold vnet_restore_init. apply wp_bind, wp_init_mpass; [cbn; rewrite Hi; eauto | done | exact H1 |].
  apply wp_modify. intros i. cbn. rewrite Hi. cbn. unfold vnet_copy_range. now destruct ((off <=? i) && (i <? off + size)).
Qed.

(** *** Constructors *)

(** The order of the lists. *)
Definition si_le (a b : vnet_sysinit_t) : Prop :=
  subsystem a < subsystem b \/ (subsystem a = subsystem b /\ order a <= order b).

Lemma si_later_spec a b : if si_later a b then si_le a b else si_le b a.
Proof. unfold si_later, si_le. destruct (Z.ltb_spec (subsystem a) (subsystem b)), (Z.eqb_spec (subsystem b) (subsystem a)), (Z.ltb_spec (order a) (order b)); cbn; lia. Qed.

Lemma insert_elem vs l x : x ∈ insert_sysinit vs l <-> x = vs \/ x ∈ l.
Proof.
  induction l as [| y l IH]; cbn; [set_solver |]. destruct (si_later vs y); rewrite ?elem_of_cons, ?IH; set_solver.
Qed.

Lemma insert_sorted vs l : StronglySorted si_le l -> StronglySorted si_le (insert_sysinit vs l).
Proof.
  induction 1 as [| y l Hl IH Hy]; cbn; [repeat constructor |]. pose proof (si_later_spec vs y) as Ho.
  rewrite List.Forall_forall in Hy. destruct (si_later vs y).
  - constructor; [constructor; [done | now apply List.Forall_forall] |]. constructor; [done |].
    apply List.Forall_forall. intros z Hz. specialize (Hy z Hz). unfold si_le in *. lia.
  - constructor; [done |]. apply List.Forall_forall. intros z Hz%list_elem_of_In.
    apply insert_elem in Hz as [-> | Hz]; [done | now apply Hy, list_elem_of_In].
Qed.

Lemma remove_elem vs l x : x ∈ remove_sysinit vs l -> x ∈ l.
Proof. induction l as [| y l IH]; cbn; [done |]. case_bool_decide; set_solver. Qed.

Lemma remove_sorted vs l : StronglySorted si_le l -> StronglySorted si_le (remove_sysinit vs l).
Proof.
  induction 1 as [| y l Hl IH Hy]; cbn; [constructor |]. case_bool_decide; [done |]. constructor; [done |].
  rewrite List.Forall_forall in *. intros z Hz%list_elem_of_In%remove_elem. now apply Hy, list_elem_of_In.
Qed.

(** What a stack has run after a list of functions. *)
Lemma run_steps_log l v : vnet_log (fold_left run_step l v) = rev (map si_id l) ++ vnet_log v.
Proof.
  revert v. induction l as [| vs l IH]; intros v; cbn; [done |]. rewrite IH. cbn. now rewrite <- app_assoc.
Qed.

(** The operations one at a time. *)
Inductive vg_step (SI_SUB_VNET : Z) (g : vglobals) : vglobals -> Prop :=
| step_alloc id stale : vg_step SI_SUB_VNET g (vnet_alloc id stale g)
| step_destroy id v g' : vnet_destroy id g = Some (v, g') -> vg_step SI_SUB_VNET g g'
| step_register vs g' : vnet_register_sysinit SI_SUB_VNET vs g = Some (tt, g') -> vg_step SI_SUB_VNET g g'
| step_deregister vs g' : vnet_deregister_sysinit vs g = Some (tt, g') -> vg_step SI_SUB_VNET g g'
| step_unregister vs g' : vnet_register_sysuninit vs g = Some (tt, g') -> vg_step SI_SUB_VNET g g'
| step_underegister vs g' : vnet_deregister_sysuninit vs g = Some (tt, g') -> vg_step SI_SUB_VNET g g'
| step_copy off size : vg_step SI_SUB_VNET g (vnet_data_copy off size g).

Record vg_inv (g : vglobals) : Prop := {
  vi_ctors : StronglySorted si_le (vg_ctors g);
  vi_dtors : StronglySorted si_le (vg_dtors g);
  vi_ran : forall v vs, v ∈ vg_head g -> vs ∈ vg_ctors g -> si_id vs ∈ vnet_log v
}.

Lemma kassert_some {A} (p : vglobals -> bool) (m : ST vglobals A) g r :
  (do* kassert p; m) g = Some r -> p g = true /\ m g = Some r.
Proof. unfold bind, kassert. destruct (p g); [now cbn | done]. Qed.

Lemma vg_step_inv SI_SUB_VNET g g' : vg_inv g -> vg_step SI_SUB_VNET g g' -> vg_inv g'.
Proof.
  intros [H1 H2 H3] Hs.
  destruct Hs as [id stale | id v g' E | vs g' E | vs g' E | vs g' E | vs g' E | off size].
  - split; try done. intros v vs [-> | Hv]%elem_of_cons Hvs; [| now apply H3].
    unfold vnet_alloc_begin, vnet_sysinit. rewrite run_steps_log, elem_of_app. left.
    apply list_elem_of_In, in_rev. rewrite rev_involutive. now apply in_map, list_elem_of_In.
  - unfold vnet_destroy in E. destruct (list_find _ _) as [[i w] |]; [| done]. destruct (_ =? 0); [| done].
    injection E as <- <-. split; try done. cbn. intros v vs Hv. apply H3.
    rewrite <- (take_drop i (vg_head g)). apply elem_of_app in Hv as [Hv | Hv]; apply elem_of_app; [now left | right].
    apply list_elem_of_lookup in Hv as [j Hj]. apply list_elem_of_lookup. exists (S j). rewrite lookup_drop in *.
    now rewrite Nat.add_succ_r.
  - apply kassert_some in E as [_ [= <-]]. split; [now apply insert_sorted | done |]. cbn.
    intros v' w (v & -> & Hv)%elem_of_map [-> | Hw]%insert_elem; cbn; [constructor | apply list_elem_of_further; now apply (H3 v w)].
  - apply kassert_some in E as [_ [= <-]]. split; [now apply remove_sorted | done |]. cbn.
    intros v w Hv Hw%remove_elem. now apply H3.
  - injection E as <-. split; [done | now apply insert_sorted | done].
  - apply kassert_some in E as [_ [= <-]]. split; [done | now apply remove_sorted |]. cbn.
    intros v' w (v & -> & Hv)%elem_of_map Hw. cbn. apply list_elem_of_further. now apply (H3 v w).
  - split; try done. cbn. intros v' w (v & -> & Hv)%elem_of_map Hw. now apply (H3 v w).
Qed.

(** C15. Whatever the operations on stacks and on constructors are, one at a
    time and in any order, both lists stay in the order of subsystem and order,
    and every registered constructor has run for every stack in the list. *)
Theorem vnet_constructors_complete SI_SUB_VNET g g' :
  vg_head g = [] -> vg_ctors g = [] -> vg_dtors g = [] -> rtc (vg_step SI_SUB_VNET) g g' -> vg_inv g'.
Proof.
  intros E1 E2 E3 Hs. assert (vg_inv g) as Hi.
  { split; rewrite ?E1, ?E2, ?E3; try constructor. intros v vs Hv. now apply not_elem_of_nil in Hv. }
  clear E1 E2 E3. induction Hs as [| g g1 g2 H1 _ IH]; [done |]. now apply IH, (vg_step_inv SI_SUB_VNET g).
Qed.

(** C38. [vnet_alloc] is not one of these operations as a whole: it lets the
    lock of the constructors go before the stack is in the list.  A constructor
    registered in between runs neither with the others nor with the listed
    stacks, and the stack ends in the list without it. *)
Theorem vnet_alloc_register_race SI_SUB_VNET id stale vs g :
  SI_SUB_VNET < subsystem vs -> si_id vs ∉ map si_id (vg_ctors g) ->
  wp (vnet_register_sysinit SI_SUB_VNET vs) (fun _ g1 =>
    let v := vnet_alloc_begin id stale g in let g2 := vnet_alloc_end v g1 in
    vs ∈ vg_ctors g2 /\ v ∈ vg_head g2 /\ si_id vs ∉ vnet_log v) g.
Proof.
  intros Hsub Hn. unfold vnet_register_sysinit. apply wp_bind, wp_kassert; [now apply Z.ltb_lt |].
  apply wp_modify. cbn. split; [apply insert_elem; now left |]. split; [constructor |].
  unfold vnet_alloc_begin, vnet_sysinit. rewrite run_steps_log, app_nil_r.
  intros H%list_elem_of_In%in_rev. now apply Hn, list_elem_of_In.
Qed.
