(* ===== verification/VnetModel.v ===== *)
(** * Virtual network stacks on concrete states

    A module space of 64 bytes, two constructors and a stack, with the theorems
    of [Vnet] applied to them, and the free that faults. *)

From Stdlib Require Import Sorted.
From stdpp Require Import list relations.
From S2P Require Import Prelude Vnet.
Local Open Scope Z_scope.

(** ** The free list *)

(** A variable of 20 bytes, which takes 32, and its release. *)
Definition one_var : modspace := Modspace [Df 0x1020 32] [(0x1000, 20)].

Lemma one_var_reached : rtc ms_step (Modspace (vnet_data_startup 0x1000 64) []) one_var.
Proof. apply rtc_once, (ms_alloc (Modspace (vnet_data_startup 0x1000 64) []) 20); [unfold MAX_VAR; lia | reflexivity]. Defined.

Lemma vnet_modspace_witness :
  (~ is_free (ms_free one_var) 0x1010 /\ owners (ms_live one_var) 0x1010 = 1%nat \/
   is_free (ms_free one_var) 0x1010 /\ owners (ms_live one_var) 0x1010 = 0%nat).
Proof.
  destruct (proj1 (vnet_modspace_partition 0x1000 64 one_var ltac:(lia) eq_refl eq_refl one_var_reached) 0x1010 ltac:(lia)); auto.
Defined.

(** Two variables, the first released, then the second: it follows the last
    free entry, and the entry after that is a null pointer. *)
Example free_after_last_entry :
  let '(a, l) := vnet_data_alloc 32 (vnet_data_startup 0x1000 64) in
  let '(b, l) := vnet_data_alloc 32 l in
  (a, b, l) = (Some 0x1000, Some 0x1020, []) /\
  (vnet_data_free 0x1000 32 l ≫= vnet_data_free 0x1020 32) = None.
Proof. vm_compute. done. Qed.

(** ** Constructors *)

Definition boot : vglobals := Vg 64 (fun _ => 0) None [] [] [].
Definition early : vnet_sysinit_t := Sysinit 5 0 1.
Definition late : vnet_sysinit_t := Sysinit 5 1 2.

(** Two constructors registered in the wrong order around a stack. *)
Definition booted : vglobals :=
  let g := boot <| vg_ctors := [late] |> in
  (vnet_alloc 7 (fun _ => 0) g) <| vg_ctors := [early; late] |> <| vg_head ::= map (run_on early) |>.

Lemma booted_reached : rtc (vg_step 4) boot booted.
Proof.
  eapply rtc_l; [apply (step_register 4 boot late); reflexivity |].
  eapply rtc_l; [apply (step_alloc 4 _ 7%nat (fun _ => 0)) |].
  apply rtc_once, (step_register 4 _ early). reflexivity.
Defined.

Lemma vnet_constructors_witness : StronglySorted si_le (vg_ctors booted) /\ map vnet_log (vg_head booted) = [[1; 2]%nat].
Proof.
  split; [| reflexivity].
  exact (vi_ctors _ (vnet_constructors_complete 4 boot booted eq_refl eq_refl eq_refl booted_reached)).
Defined.

Lemma vnet_race_witness :
  wp (vnet_register_sysinit 4 early) (fun _ g1 =>
    let v := vnet_alloc_begin 7 (fun _ => 0) boot in let g2 := vnet_alloc_end v g1 in
    early ∈ vg_ctors g2 /\ v ∈ vg_head g2 /\ si_id early ∉ vnet_log v) boot.
Proof. apply (vnet_alloc_register_race 4 7 (fun _ => 0) early boot); [reflexivity | apply not_elem_of_nil]. Defined.
